(* ===== verification/_CoqProject ===== *)
-Q . S2P
Prelude.v
GoStrings.v
GoPath.v
GoRegexp.v
Policy.v
Worktree.v
Files.v
Workspace.v
Blobs.v
Store.v
Checkout.v
Firewall.v
Recipe.v
Summarize.v
Json.v
Declared.v
Discover.v
Contract.v
Graph.v
IndexDB.v
Index.v
Trust.v
Llm.v
ContextPack.v
Memory.v
Lessons.v
Retrieval.v
Workflow.v
Ledger.v
Recover.v
Tasks.v
Lifecycle.v
Broker.v
Journal.v
Engine.v
NativeTools.v
Native.v
NativeLoop.v
NativeFiles.v
Mcp.v
Providers.v
Router.v
Runner.v
Critic.v
Misses.v
Phases.v
Supervise.v
PhaseLoop.v
Invariants.v
NativeRun.v
Acceptance.v
Runs.v
System.v
Scenario.v
