(* ===== verification/Prelude.v ===== *)
(** * local-engineer, verified

    [local-engineer] is a supervisor for coding agents.  A person states a task;
    the supervisor gives an edit engine (a model, or another program) a checkout
    of the repository to change, runs the repository's own checks over the
    result, and decides from their evidence - never from what the engine says
    of itself - whether the task is accepted.  Everything it does is journalled
    in a ledger database, decisions that belong to a person wait at gates, and a
    run that was interrupted is resumed from the ledger.  The code is Go, under
    [src/internal]; paths below are relative to it.

    ** How the development is laid out

    Every file holds a component, its definitions first - each preceded by the
    file, the lines and the function it translates - and then its lemmas and
    theorems.  A file requires the components it calls.

    Go itself.
    - [Prelude] (this file): results and errors, the state-and-error monad [M],
      Go's stable sort, and the lemmas the components share.
    - [GoStrings], [GoPath], [GoRegexp]: the parts of [strings], [path],
      [path/filepath], [unicode/utf8] and [regexp] the code uses, on byte
      strings; the regular expressions match leftmost-first, with captures.
    - [Json]: the JSON values the ledger stores, what [encoding/json] reads
      from them into the structs the code declares, and the text it writes.

    What an engine may touch.
    - [Policy] ([policy/policy.go], [scope.go]): protected paths, scope globs,
      sensitive names.
    - [Worktree] ([worktree/worktree.go]): a file system with symbolic links, and
      the calls that read and write within a checkout.
    - [Files]: the calls of [os] that list, remove, rename and walk, over the same
      file system.
    - [Checkout] ([worktree/worktree.go]): the manager's and the worktree's git calls -
      create, open, diff, commit, sync, remove - over an arbitrary [git].
    - [Firewall] ([firewall/access.go], [secrets.go]): the editor's authority and
      the scan of a diff for credentials.
    - [Trust] ([trust/trust.go]): the fence around repository content in a prompt.
    - [Llm] ([llm/provider.go]), [ContextPack] ([contextpack]): the messages of a
      model, and the frozen prefix and append-only log of a request.
    - [Providers] ([llm/openai.go], [anthropic.go]), [Router] ([llm/router.go],
      [managed.go]): the bodies sent to a model server and its answers, the
      provider a role is sent to, and the one server process the system runs.
    - [Memory], [Lessons] ([memory]), [Retrieval] ([retrieval/retriever.go],
      [slice.go]): the notes of a project, the bundles of them carried from one
      repository to another, and the packet of code an engine is shown.

    Where a workspace lives.
    - [Workspace] ([workspace/identity.go], [manifest.go]): the identity of a
      repository, the marker that pins it, finding, opening and creating one.
    - [Blobs] ([store/blobs.go], [cache/cache.go], [artifacts/artifacts.go]): the
      namespaced blobs, the cache of analyses over them, addressed artifacts.
    - [Store] ([store], [session/session.go]): the layout of the data directory,
      a database's migrations and workspace stamp, switching and sessions.

    What counts as evidence.
    - [Recipe] ([recipe/recipe.go], [presets.go], [builtin.go]): the checks, their
      levels, the bounded capture of their output, running them.
    - [Summarize] ([recipe/summarize.go], [test_json.go]): the verdict each
      summarizer draws from a check's output.
    - [Declared], [Discover] ([recipe/declared.go], [declared_run.go],
      [presets.go]): the checks a repository declares, the generators run and
      undone around a comparison, the presets read off its manifests.
    - [Contract] ([task/runner.go] [Accept], [task/candidates.go]): the completion
      contract, and the ranking of candidates.
    - [Graph] ([graph]): the code graph's traversal and the impact report.
    - [IndexDB], [Index] ([graph/sqlite.go], [index/index.go], [index/watch.go]):
      the index database, indexing a repository file by file with its analyzers
      and their cache, the watcher, and the commands that reindex.
    - [Misses] ([retrieval/misses.go]): what a failed check named that the engine
      was not shown.
    - [Critic] ([critic/critic.go]): the review of a finished change and the
      diagnosis of repeated failures, each one structured call.

    What is remembered.
    - [Ledger] ([ledger/ledger.go], [lease.go]): the tables, transactions, journal
      handles, checkpoints, evidence rows and leases.
    - [Journal]: the histories of the operations table, under every caller that
      writes it - the ledger's handles, [Tasks.SaveWorkflow], the gates of
      [Broker] in the separate transactions they are - and crashes between them.
    - [Recover] ([ledger/recover.go]): content manifests, the inspection of
      operations whose end is not known, the state a restart is given.
    - [Tasks] ([task/task.go], [plan.go], [workflow_store.go]): the task store.
    - [Broker] ([broker]): the gates a person answers.
    - [Lifecycle] ([supervisor/lifecycle.go]): tasks whose editor is a person or
      another program.

    The native edit engine ([engine/engine.go], [engine/native]).
    - [Engine]: what an engine is - a finite process [proc] over the world, the
      transcript and the task's journal - and the logic [wp] for such processes:
      an invariant of every state, what holds of every saved transcript, and
      what holds at the end.
    - [NativeTools]: the table of tools, their schemas, authorisation, the tools
      on files, the progress guard.
    - [Native]: the other tools, the journalled call, recovery of an interrupted
      batch, the opening brief, the tool loop, [Step].
    - [NativeLoop], [NativeFiles], [NativeRun]: what a step keeps of its
      transcript, what a call does to the files, and the engine in a run.

    Another agent's tools.
    - [Mcp] ([mcp]): the paths a call may name, the session it opens, the proxied
      read and edit, opening and finishing a supervised task, impact, notes.

    The run of a task.
    - [Workflow] ([workflow]): the phases, plans, obligations, failure classes.
    - [Runner] ([task/runner.go]): the configuration [Runner], the state [RS] of a
      run - ledger, world, workflow in hand, outcome under construction, recipe
      runner -, the interface [Env], verification, the gate, the end of a run.
    - [Phases] ([task/phases.go], [localize.go], [pack.go]): one handler per phase,
      and the loop.
    - [Supervise] ([task/runner.go]): the guards, the lease, the attempts of an
      engine without phases, the clean-up, [Run].

    What a run guarantees.
    - [PhaseLoop]: the measure of the phase loop, what each handler leaves, and the
      calls an accepted phased run came by ([phased_accepted]), each from the state
      the one before it left; [Runs] has those of the attempts ([contract_accepted])
      and of a whole run ([justified]).
    - [Invariants]: a logic for the runner's calls.  An invariant is a [Class] of
      closure conditions (on updates of the workflow, of the outcome, on task
      states, on saving); a call that [keeps] it does so whether it succeeds or
      fails.  [Acceptance] and [Runs] instantiate it.
    - [System]: histories of any steps - runs, supervised finishes, creations,
      decompositions, reopenings, gates, restarts - and the theorems over them.
    - [Scenario]: a concrete world in which a task is created, runs to the gate, is
      approved and runs to its commit; the theorems are applied there.

    ** What the theorems show

    The claims are numbered in the files, C1 first.
    - Acceptance (C1-C7): over every history of the system a task becomes accepted
      only by a run of that task that came by its own checks, review, gate and
      commit, or by finishing a supervised task whose latest verification accepted;
      a stored workflow has earned its phase; a run leaves the other tasks alone and
      records exactly what it returns; the phase loop ends; a run starts only on a
      task that may run and turns any other away; the clean-up never loses work;
      and what an expired run fails to record.
    - The native engine (C8-C12): whatever the model answers, and wherever a
      crash stops it, the stored conversation is one a provider accepts or is
      marked as interrupted and can be closed; a step stays within its budgets; a
      call changes no file outside the plan's scope.
    - Other agents' tools (C13, C14) and the model servers (C15-C17): an edit stays
      in its task's scope, a read shows what it may; a conversation is sent so that
      every call keeps its answer; one model process at most; offline mode.
    - Supervised tasks (C18) and gates (C19, C20): every outcome of finishing one,
      deadlines are final, approvals are honoured.
    - Where a digest names content (C23, C25, C33) the theorems suppose that it
      tells apart the very streams at hand ([collision_free]), and nothing else.
    - The task store (C21), confinement (C22), workspaces (C23, C24), blobs and
      migrations (C25, C26), summarizers (C27), generators and presets (C28, C29),
      the contract (C30), indexing (C31-C33), the graph (C34), the journal and
      leases (C35, C36), recovery (C37), the fence (C38) and retrieval (C39, C40).

    ** How Go is modelled

    A call that may fail returns [result]; one that reads or writes state lives in
    a state-and-error monad in which, as in Go, a failure keeps the state it had.
    A function that returns a value {i and} an error returns both.  Integers are
    [Z]; the code's counters are bounded far below 2^63 by the budgets they are
    compared with, and a product that may leave 64 bits is wrapped ([int64]).  Times are nanoseconds, stored as milliseconds where the code
    does.  Maps whose order matters are lists; others are [gmap].  SQLite is
    modelled by its tables, in insertion order; a transaction that fails leaves no
    trace, and a cancelled context or a failing database makes a call fail.  What
    the process reads of its surroundings at each call - the clock, the caller's
    context, whether the database works - comes from the arbitrary [observe].

    Loops with a bound of their own are structural in it.  Those without take fuel:
    the pattern and regular-expression matchers (the length of the pattern or of
    the text, proved enough in [GoPath]), the splitting of a long query (its
    length, [Graph.chunks_fuel_concat]), and the phase loop, whose fuel is [enough] = 70: the measure [mu] of [PhaseLoop] is at
    most 67 and every turn decreases it ([phases_terminate]).

    ** What is not modelled

    [Env] gathers what a run calls and this development does not define: git and the
    sandboxed processes (programs outside the repository), the engine, the model
    server, the full-text index, the answers of the critic's calls ([Critic] has the calls),
    and Go's own parsers, hashes and JSON text.  The time between the hash of a
    model server's executable and its start by path is one step ([Router.launch]).  The theorems hold for every [Env]: an
    engine, for one, is an arbitrary finite process over the world, the transcript
    and the journal, of which [Native.Step] is one ([NativeRun], [Scenario]).
    [NativeEnv] does the same for what the native engine calls.  The analyzers that
    read source text and the hash of a file are arguments of [Index], arbitrary
    functions of the bytes they are given.  SQLite's pages, its write-ahead log
    and its locks are below the tables of [Store], [IndexDB] and [Ledger].  Concurrency inside a run (heartbeats, output pumps) and
    timeouts of single commands are left out; the command line, the other servers
    (HTTP, ACP), model management, the evaluation harness, telemetry and the
    operating-system glue are not modelled, being input and output around these
    operations. *)

From stdpp Require Export prelude strings gmap list pretty sorting.

Set Default Proof Using "Type".

(** ** Results

    A Go function that returns [(T, error)] becomes a [result T].  An error
    keeps its message and, where the code wraps a sentinel with [%w] and a
    caller tests it with [errors.Is], the name of that sentinel. *)

Record error := mk_error { err_is : option string; err_msg : string }.

Definition errorf (msg : string) : error := mk_error None msg.

Inductive result (A : Type) : Type :=
| Ok (a : A)
| Err (e : error).
Arguments Ok {A} a.
Arguments Err {A} e.

#[export] Instance result_ret : MRet result := @Ok.
#[export] Instance result_bind : MBind result := fun A B f m =>
  match m with Ok a => f a | Err e => Err e end.
#[export] Instance result_fmap : FMap result := fun A B f m =>
  match m with Ok a => Ok (f a) | Err e => Err e end.

#[export] Instance error_eq_dec : EqDecision error.
Proof. solve_decision. Defined.
#[export] Instance result_eq_dec {A} `{EqDecision A} : EqDecision (result A).
Proof. solve_decision. Defined.

Definition is_ok {A} (r : result A) : bool :=
  match r with Ok _ => true | Err _ => false end.

(** [guard_err b e]: the early return [if b { return e }]. *)
Definition guard_err (b : bool) (e : error) : result unit :=
  if b then Err e else Ok tt.

Lemma exists_ok {A} (a : A) (P : A → Prop) : (∃ x, Ok a = Ok x ∧ P x) ↔ P a.
Proof. split; [by intros (x & [= <-] & H) | by exists a]. Qed.
Lemma exists_ok_err {A} (e : error) (P : A → Prop) : (∃ x, Err e = Ok x ∧ P x) ↔ False.
Proof. split; [by intros (x & [=] & H) | done]. Qed.
Lemma exists_err {A} (e : error) (P : error → Prop) : (∃ x, @Err A e = Err x ∧ P x) ↔ P e.
Proof. split; [by intros (x & [= <-] & H) | by exists e]. Qed.
Lemma exists_err_ok {A} (a : A) (P : error → Prop) : (∃ x, Ok a = Err x ∧ P x) ↔ False.
Proof. split; [by intros (x & [=] & H) | done]. Qed.

(** Run a check over a list and stop at the first error, as a Go [for] loop
    with [return err] in its body. *)
Fixpoint each {A} (f : A → result unit) (l : list A) : result unit :=
  match l with
  | [] => Ok tt
  | x :: l => match f x with Ok _ => each f l | Err e => Err e end
  end.

(** The same with the index, from [i]. *)
Fixpoint each_i {A} (f : nat → A → result unit) (i : nat) (l : list A) : result unit :=
  match l with
  | [] => Ok tt
  | x :: l => match f i x with Ok _ => each_i f (S i) l | Err e => Err e end
  end.

Lemma each_ok {A} (f : A → result unit) l :
  each f l = Ok tt ↔ ∀ x, x ∈ l → f x = Ok tt.
Proof.
  induction l as [|x l IH]; simpl.
  - split; [by intros _ x ?%not_elem_of_nil | done].
  - destruct (f x) as [[]|e] eqn:E.
    + rewrite IH. set_solver.
    + split; [done |]. intros H. specialize (H x). rewrite E in H. set_solver.
Qed.

Lemma each_i_ok {A} (f : nat → A → result unit) i l :
  each_i f i l = Ok tt ↔ ∀ k x, l !! k = Some x → f (i + k) x = Ok tt.
Proof.
  revert i. induction l as [|x l IH]; intros i; simpl.
  - split; [intros _ k x; by rewrite lookup_nil | done].
  - destruct (f i x) as [[]|e] eqn:E.
    + rewrite IH. split.
      * intros H [|k] y; simpl; [intros [= ->]; by rewrite Nat.add_0_r |].
        intros Hk. rewrite Nat.add_succ_r. by apply (H k).
      * intros H k y Hk. specialize (H (S k) y Hk). by rewrite Nat.add_succ_r in H.
    + split; [done |]. intros H. specialize (H 0 x eq_refl).
      rewrite Nat.add_0_r, E in H. done.
Qed.

(** ** State and errors

    A Go method that may fail and changes state outside its arguments is a
    function from the state to a result and the new state; the state changes
    made before an error stay made, as they do in the code. *)
Definition M (S A : Type) : Type := S → result A * S.

#[export] Instance M_ret {S} : MRet (M S) := fun A a s => (Ok a, s).
#[export] Instance M_bind {S} : MBind (M S) := fun A B f m s =>
  match m s with (Ok a, s') => f a s' | (Err e, s') => (Err e, s') end.
#[export] Instance M_fmap {S} : FMap (M S) := fun A B f m s =>
  match m s with (Ok a, s') => (Ok (f a), s') | (Err e, s') => (Err e, s') end.

Definition throw {S A} (e : error) : M S A := fun s => (Err e, s).
Definition lift {S A} (r : result A) : M S A := fun s => (r, s).
(** Look at the error instead of returning it: [x, err := f()]. *)
Definition try {S A} (m : M S A) : M S (result A) := fun s =>
  let '(r, s') := m s in (Ok r, s').
Definition gets {S A} (f : S → A) : M S A := fun s => (Ok (f s), s).
Definition modify {S} (f : S → S) : M S unit := fun s => (Ok tt, f s).

(** Invert a run that succeeded. *)
Lemma bind_ok {S A B} (m : M S A) (k : A → M S B) s b s' :
  (m ≫= k) s = (Ok b, s') ↔ ∃ a s1, m s = (Ok a, s1) ∧ k a s1 = (Ok b, s').
Proof.
  unfold mbind, M_bind. destruct (m s) as [[a|e] s1]; split; try done.
  - intros H. by exists a, s1.
  - by intros (a' & s1' & [= <- <-] & H).
  - by intros (a' & s1' & [=] & _).
Qed.
Lemma lift_ok {S A} (r : result A) (s s' : S) a : lift r s = (Ok a, s') ↔ r = Ok a ∧ s' = s.
Proof. unfold lift. split; [by intros [= -> ->] | by intros [-> ->]]. Qed.
Lemma gets_ok {S A} (f : S → A) s a s' : gets f s = (Ok a, s') ↔ a = f s ∧ s' = s.
Proof. unfold gets. split; [by intros [= <- <-] | by intros [-> ->]]. Qed.
Lemma modify_ok {S} (f : S → S) s u s' : modify f s = (Ok u, s') ↔ s' = f s.
Proof. unfold modify. destruct u. split; [by intros [= <-] | by intros ->]. Qed.
Lemma mret_ok {S A} (x : A) (s s' : S) a : (mret x : M S A) s = (Ok a, s') ↔ a = x ∧ s' = s.
Proof. unfold mret, M_ret. split; [by intros [= <- <-] | by intros [-> ->]]. Qed.
Lemma throw_ok {S A} e (s s' : S) (a : A) : throw e s = (Ok a, s') ↔ False.
Proof. unfold throw. done. Qed.

Lemma rbind_ok {A B} (m : result A) (k : A → result B) b : (m ≫= k) = Ok b ↔ ∃ a, m = Ok a ∧ k a = Ok b.
Proof.
  unfold mbind, result_bind. destruct m as [a|e]; split; try done.
  - intros H. by exists a.
  - by intros (a' & [= <-] & H).
  - by intros (a' & [=] & _).
Qed.

(** Name the state a run ends in by the run itself. *)
Lemma run_to {A B} (p : A * B) (a : A) : fst p = a → p = (a, snd p).
Proof. by destruct p; intros <-. Qed.

(** [fmt.Errorf(prefix + w, err)]: the sentinel survives the wrapping. *)
Definition wrap (prefix : string) (e : error) : error :=
  mk_error (err_is e) (prefix +:+ err_msg e).
Definition wrap_r {A} (prefix : string) (r : result A) : result A :=
  match r with Ok a => Ok a | Err e => Err (wrap prefix e) end.
Definition wrapM {S A} (prefix : string) (m : M S A) : M S A := fun s =>
  let '(r, s') := m s in (wrap_r prefix r, s').

(** ** Sorting

    Go's [sort.SliceStable(l, less)] as an insertion sort: an element goes
    before the first element that is not less than it, so equal elements keep
    their order.  [sort.Slice] is modelled by the same function; where the
    order of equal keys is not specified by Go no theorem depends on it. *)

Section sorting.
Context {A : Type} (less : A → A → bool).

Fixpoint insert_sorted (x : A) (l : list A) : list A :=
  match l with
  | [] => [x]
  | y :: l' => if less y x then y :: insert_sorted x l' else x :: y :: l'
  end.

Definition stable_sort (l : list A) : list A := foldr insert_sorted [] l.

Lemma insert_sorted_perm x l : insert_sorted x l ≡ₚ x :: l.
Proof.
  induction l as [|y l IH]; simpl; [done |].
  destruct (less y x); [|done]. rewrite IH. apply Permutation_swap.
Qed.

Lemma stable_sort_perm l : stable_sort l ≡ₚ l.
Proof.
  induction l as [|x l IH]; simpl; [done |].
  by rewrite insert_sorted_perm, IH.
Qed.

Lemma elem_of_stable_sort x l : x ∈ stable_sort l ↔ x ∈ l.
Proof. by rewrite stable_sort_perm. Qed.

Lemma length_stable_sort l : length (stable_sort l) = length l.
Proof. by rewrite stable_sort_perm. Qed.

(** [le a b]: [b] is not strictly before [a]. *)
Definition not_less (a b : A) : Prop := less b a = false.

Context (less_asym : ∀ a b, less a b = true → less b a = false).
Context (less_trans : ∀ a b c, not_less a b → not_less b c → not_less a c).

Lemma insert_sorted_sorted x l :
  StronglySorted not_less l → StronglySorted not_less (insert_sorted x l).
Proof using less_asym less_trans.
  induction 1 as [|y l Hs IH Hf]; simpl.
  - repeat constructor.
  - destruct (less y x) eqn:E.
    + constructor; [done |].
      rewrite insert_sorted_perm. constructor; [|done].
      by apply less_asym.
    + constructor; [by constructor |]. constructor; [done |].
      eapply Forall_impl; [exact Hf |]. intros z Hz.
      by apply (less_trans x y z).
Qed.

Lemma stable_sort_sorted l : StronglySorted not_less (stable_sort l).
Proof using less_asym less_trans.
  induction l as [|x l IH]; simpl; [constructor | by apply insert_sorted_sorted].
Qed.

(** The head of a sorted list is minimal. *)
Lemma stable_sort_head x l y :
  head (stable_sort l) = Some x → y ∈ l → less y x = false.
Proof using less_asym less_trans.
  intros Hh Hy. pose proof (stable_sort_sorted l) as Hs.
  rewrite <- elem_of_stable_sort in Hy.
  destruct (stable_sort l) as [|z t]; simpl in *; [done |]. injection Hh as ->.
  apply elem_of_cons in Hy as [->|Hy].
  - destruct (less x x) eqn:E; [|done]. pose proof (less_asym x x E). congruence.
  - inversion Hs as [|? ? _ Hf]; subst. rewrite Forall_forall in Hf. by apply Hf.
Qed.
End sorting.

(** ** List helpers the Go code writes as loops *)

Section lists.
Context {A : Type} `{EqDecision A}.

(** [contains(list, want)]. *)
Definition mem (x : A) (l : list A) : bool := bool_decide (x ∈ l).

Lemma mem_true x l : mem x l = true ↔ x ∈ l.
Proof. apply bool_decide_eq_true. Qed.
Lemma mem_false x l : mem x l = false ↔ x ∉ l.
Proof. apply bool_decide_eq_false. Qed.

(** Keep the first occurrence of every element: a loop over a [seen] map. *)
Fixpoint dedup_from (seen : list A) (l : list A) : list A :=
  match l with
  | [] => []
  | x :: l => if mem x seen then dedup_from seen l else x :: dedup_from (x :: seen) l
  end.
Definition dedup (l : list A) : list A := dedup_from [] l.

Lemma elem_of_dedup_from x seen l : x ∈ dedup_from seen l ↔ x ∈ l ∧ x ∉ seen.
Proof.
  revert seen. induction l as [|y l IH]; intros seen; simpl; [set_solver |].
  destruct (mem y seen) eqn:E.
  - apply mem_true in E. rewrite IH. set_solver.
  - apply mem_false in E. rewrite elem_of_cons, IH.
    destruct (decide (x = y)); set_solver.
Qed.

Lemma NoDup_dedup_from seen l : NoDup (dedup_from seen l).
Proof.
  revert seen. induction l as [|y l IH]; intros seen; simpl; [constructor |].
  destruct (mem y seen) eqn:E; [done |].
  constructor; [|done]. rewrite elem_of_dedup_from. set_solver.
Qed.

Lemma elem_of_dedup x l : x ∈ dedup l ↔ x ∈ l.
Proof. unfold dedup. rewrite elem_of_dedup_from. set_solver. Qed.
Lemma NoDup_dedup l : NoDup (dedup l).
Proof. apply NoDup_dedup_from. Qed.
End lists.

Lemma omap_nil {A B} (f : A → option B) l : omap f l = [] ↔ ∀ x, x ∈ l → f x = None.
Proof.
  induction l as [|x l IH]; simpl; [split; [by intros _ ? ?%not_elem_of_nil | done] |].
  destruct (f x) eqn:E; [|rewrite IH]; set_solver.
Qed.


(** ** Machine integers *)

(** The value a 64-bit signed integer holds after an operation whose exact
    result is [z]. *)
Definition int64 (z : Z) : Z := ((z + 2 ^ 63) mod 2 ^ 64 - 2 ^ 63)%Z.

Lemma int64_small z : (- 2 ^ 63 ≤ z < 2 ^ 63)%Z → int64 z = z.
Proof. intros H. unfold int64. rewrite Z.mod_small; lia. Qed.
Lemma int64_range z : (- 2 ^ 63 ≤ int64 z < 2 ^ 63)%Z.
Proof. unfold int64. pose proof (Z.mod_pos_bound (z + 2 ^ 63) (2 ^ 64)). lia. Qed.

(** ** Digests *)

(** A digest tells the given inputs apart. *)
Definition collision_free {A B} (h : A → B) (l : list A) : Prop := ∀ x y, x ∈ l → y ∈ l → h x = h y → x = y.

Definition collision_free_test {A B} `{EqDecision A, EqDecision B} (h : A → B) (l : list A) : bool :=
  forallb (λ x, forallb (λ y, implb (bool_decide (h x = h y)) (bool_decide (x = y))) l) l.

Lemma collision_free_b {A B} `{EqDecision A, EqDecision B} (h : A → B) (l : list A) :
  collision_free_test h l = true → collision_free h l.
Proof.
  unfold collision_free_test. rewrite forallb_forall. intros H x y Hx%list_elem_of_In Hy%list_elem_of_In E. specialize (H x Hx).
  rewrite forallb_forall in H. specialize (H y Hy). rewrite (bool_decide_true _ E) in H. by apply bool_decide_eq_true in H.
Qed.

Lemma collision_free_sub {A B} (h : A → B) (l l' : list A) : (∀ x, x ∈ l → x ∈ l') → collision_free h l' → collision_free h l.
Proof. intros Hl H x y Hx Hy. apply H; by apply Hl. Qed.

(** ** Automation *)

(** Case analysis on every boolean guard and match of the goal or context,
    discarding the contradictory branches. *)
Ltac case_all :=
  repeat (simpl in *; simplify_eq;
    match goal with
    | H : context [match ?x with _ => _ end] |- _ => is_var x; destruct x
    | H : context [match ?x with _ => _ end] |- _ =>
        lazymatch x with context [match _ with _ => _ end] => fail | _ => destruct x eqn:? end
    | |- context [match ?x with _ => _ end] =>
        lazymatch x with context [match _ with _ => _ end] => fail | _ => destruct x eqn:? end
    end); simpl in *; simplify_eq.

(** Run the state monad: expose the state a computation is applied to. *)
Ltac unfold_M :=
  unfold mbind, M_bind, mret, M_ret, throw, lift, try, gets, modify, wrapM, wrap_r; cbv beta iota zeta.

Create HintDb le.
Create Rewrite HintDb le_rw.
#[export] Hint Resolve NoDup_dedup : le.
#[export] Hint Rewrite @elem_of_stable_sort @length_stable_sort @elem_of_dedup : le_rw.
