(* ===== verification/GoStrings.v ===== *)
(** The part of Go's [strings], [path], [path/filepath] and [unicode/utf8]
    packages the modelled code uses, as functions on byte strings.  A Go string
    is a sequence of bytes, which is what [string] is. *)
From S2P Require Import Prelude.
From Stdlib Require Import Ascii.

Open Scope string_scope.
Open Scope nat_scope.

(** ** Prefixes, suffixes, substrings *)

(** [strings.HasPrefix(s, p)]. *)
Fixpoint has_prefix (s p : string) : bool :=
  match p, s with
  | EmptyString, _ => true
  | String c p', String d s' => Ascii.eqb c d && has_prefix s' p'
  | String _ _, EmptyString => false
  end.

(** [strings.HasSuffix(s, p)]. *)
Fixpoint has_suffix (s p : string) : bool :=
  String.eqb s p || match s with EmptyString => false | String _ s' => has_suffix s' p end.

(** [s[n:]]. *)
Fixpoint drop_str (n : nat) (s : string) : string :=
  match n, s with
  | S n, String _ s => drop_str n s
  | O, _ => s
  | _, EmptyString => EmptyString
  end.

(** [s[:n]]. *)
Fixpoint take_str (n : nat) (s : string) : string :=
  match n, s with
  | S n, String c s => String c (take_str n s)
  | _, _ => EmptyString
  end.

(** [strings.TrimPrefix(s, p)]. *)
Definition trim_prefix (s p : string) : string :=
  if has_prefix s p then drop_str (String.length p) s else s.

(** [strings.TrimSuffix(s, p)]. *)
Definition trim_suffix (s p : string) : string :=
  if has_suffix s p then take_str (String.length s - String.length p) s else s.

(** [strings.Contains(s, sub)]. *)
Fixpoint contains_str (s sub : string) : bool :=
  has_prefix s sub || match s with EmptyString => false | String _ s' => contains_str s' sub end.

(** [strings.Split(s, sep)] for a one-byte separator. *)
Fixpoint split_char (sep : ascii) (s : string) : list string :=
  match s with
  | EmptyString => [EmptyString]
  | String c s' =>
      if Ascii.eqb c sep then EmptyString :: split_char sep s'
      else match split_char sep s' with
           | [] => [String c EmptyString]
           | h :: t => String c h :: t
           end
  end.

(** [strings.Join(l, sep)]. *)
Fixpoint join (sep : string) (l : list string) : string :=
  match l with
  | [] => ""
  | [x] => x
  | x :: l => x +:+ sep +:+ join sep l
  end.

Definition slash : ascii := "/".
Definition newline : ascii := Ascii.ascii_of_nat 10.
Definition nl : string := String newline "".
Definition nul : string := String Ascii.zero "".
(** A double quote, for [%q]. *)
Definition dq : string := String (Ascii.ascii_of_nat 34) "".
Definition hex_digit_of (n : nat) : ascii := Ascii.ascii_of_nat (if n <? 10 then 48 + n else 87 + n).
(** One byte of [strconv.Quote]; a rune outside ASCII is taken to be printable. *)
Definition quote_byte (c : ascii) : string :=
  match Ascii.nat_of_ascii c with
  | 34 => "\" +:+ dq
  | 92 => "\\"
  | 7 => "\a" | 8 => "\b" | 9 => "\t" | 10 => "\n" | 11 => "\v" | 12 => "\f" | 13 => "\r"
  | n => if (n <? 32) || (n =? 127)
         then "\x" +:+ String (hex_digit_of (n / 16)) (String (hex_digit_of (n mod 16)) "")
         else String c ""
  end.
Fixpoint quote_body (s : string) : string :=
  match s with EmptyString => EmptyString | String c s => quote_byte c +:+ quote_body s end.
Definition quoted (s : string) : string := dq +:+ quote_body s +:+ dq.
Example quoted_1 : quoted ("a" +:+ dq +:+ nl) = dq +:+ "a\" +:+ dq +:+ "\n" +:+ dq.
Proof. reflexivity. Qed.

Lemma has_prefix_spec s p : has_prefix s p = true ↔ ∃ r, s = p +:+ r.
Proof.
  revert s. induction p as [|c p IH]; intros s; simpl.
  - split; [intros _; by exists s | by destruct s].
  - destruct s as [|d s]; [split; [done | intros (r & [=])] |].
    simpl. destruct (Ascii.eqb_spec c d) as [->|Hne]; simpl.
    + rewrite IH. split; intros (r & H); exists r; [by rewrite H | by injection H].
    + split; [done | intros (r & [= ? ?]); congruence].
Qed.

Lemma has_suffix_spec s p : has_suffix s p = true ↔ ∃ r, s = r +:+ p.
Proof.
  induction s as [|c s IH]; cbn [has_suffix].
  - destruct (String.eqb_spec "" p) as [<-|Hne]; simpl.
    + split; [intros _; by exists "" | done].
    + split; [done | intros ([|? ?] & Hr); [by destruct Hne | discriminate]].
  - destruct (String.eqb_spec (String c s) p) as [<-|Hne]; simpl.
    + split; [intros _; by exists "" | done].
    + rewrite IH. split.
      * intros (r & ->). by exists (String c r).
      * intros ([|d r] & H); [by destruct Hne |].
        injection H as -> ->. eauto.
Qed.

Lemma drop_str_app p s : drop_str (String.length p) (p +:+ s) = s.
Proof. induction p as [|c p IH]; simpl; [by destruct s | done]. Qed.

Lemma trim_prefix_app p s : trim_prefix (p +:+ s) p = s.
Proof.
  unfold trim_prefix. rewrite (proj2 (has_prefix_spec _ _)); [|eauto].
  apply drop_str_app.
Qed.

Lemma length_app_str (s t : string) :
  String.length (s +:+ t) = String.length s + String.length t.
Proof.
  induction s as [|c s IH]; [done |].
  change (S (String.length (s +:+ t)) = S (String.length s + String.length t)).
  by rewrite IH.
Qed.

Lemma app_str_nil (s : string) : s +:+ "" = s.
Proof. induction s as [|c s IH]; [done |]. change (String c (s +:+ "") = String c s). by rewrite IH. Qed.

Lemma app_str_assoc (s t u : string) : (s +:+ t) +:+ u = s +:+ (t +:+ u).
Proof.
  induction s as [|c s IH]; [done |].
  change (String c ((s +:+ t) +:+ u) = String c (s +:+ (t +:+ u))). by rewrite IH.
Qed.

Lemma take_str_app s t : take_str (String.length s) (s +:+ t) = s.
Proof.
  induction s as [|c s IH]; [by destruct t |].
  change (String c (take_str (String.length s) (s +:+ t)) = String c s).
  by rewrite IH.
Qed.

Lemma trim_suffix_app s p : trim_suffix (s +:+ p) p = s.
Proof.
  unfold trim_suffix. rewrite (proj2 (has_suffix_spec _ _)); [|eauto].
  rewrite length_app_str, Nat.add_sub. apply take_str_app.
Qed.

Lemma take_str_length n s : String.length (take_str n s) = n `min` String.length s.
Proof. revert n. induction s as [|c s IH]; intros [|n]; simpl; [done..|]. by rewrite IH. Qed.
Lemma has_prefix_app s t : has_prefix (s +:+ t) s = true.
Proof. apply has_prefix_spec. eauto. Qed.

Lemma has_prefix_refl s : has_prefix s s = true.
Proof. induction s as [|c s IH]; simpl; [done |]. by rewrite Ascii.eqb_refl. Qed.

(** ** Whitespace and case

    [strings.TrimSpace] removes Unicode white space, which in UTF-8 is one,
    two or three bytes. *)
Definition ascii_space (c : ascii) : bool :=
  let n := nat_of_ascii c in (9 <=? n) && (n <=? 13) || (n =? 32).

(** The number of bytes of the white-space rune [s] starts with, or 0. *)
Definition space_width (s : string) : nat :=
  match s with
  | String c r =>
      if ascii_space c then 1 else
      match nat_of_ascii c, r with
      | 194, String d _ =>                                   (* U+0085, U+00A0 *)
          let d := nat_of_ascii d in if (d =? 133) || (d =? 160) then 2 else 0
      | 225, String d (String e _) =>                        (* U+1680 *)
          if (nat_of_ascii d =? 154) && (nat_of_ascii e =? 128) then 3 else 0
      | 226, String d (String e _) =>          (* U+2000-200A, 2028, 2029, 202F, 205F *)
          let d := nat_of_ascii d in let e := nat_of_ascii e in
          if ((d =? 128) && (((128 <=? e) && (e <=? 138)) || (e =? 168) || (e =? 169) || (e =? 175)))
             || ((d =? 129) && (e =? 159)) then 3 else 0
      | 227, String d (String e _) =>                        (* U+3000 *)
          if (nat_of_ascii d =? 128) && (nat_of_ascii e =? 128) then 3 else 0
      | _, _ => 0
      end
  | EmptyString => 0
  end.

Fixpoint trim_left_fuel (fuel : nat) (s : string) : string :=
  match fuel with
  | O => s
  | S fuel => match space_width s with
              | O => s
              | w => trim_left_fuel fuel (drop_str w s)
              end
  end.
Definition trim_left (s : string) : string := trim_left_fuel (String.length s) s.

(** [all_space s]: [s] is a sequence of white-space runes. *)
Definition all_space (s : string) : bool := String.eqb (trim_left s) "".

(** Trimming on the right drops the longest suffix that is all white space. *)
Fixpoint trim_right (s : string) : string :=
  if all_space s then "" else
  match s with EmptyString => "" | String c s' => String c (trim_right s') end.

Definition trim_space (s : string) : string := trim_right (trim_left s).

(** [strings.TrimSpace(s) == ''], the test the code makes. *)
Definition blank (s : string) : bool := String.eqb (trim_space s) "".

(** [strings.ToLower], byte by byte on ASCII.  Two runes outside ASCII have an
    ASCII lower case, U+212A (Kelvin sign) and U+0130 (dotted capital I); every
    other rune maps outside ASCII, which no comparison in the modelled code can
    observe. *)
Definition lower_ascii (c : ascii) : ascii :=
  let n := nat_of_ascii c in
  if (65 <=? n) && (n <=? 90) then ascii_of_nat (n + 32) else c.

Fixpoint to_lower (s : string) : string :=
  match s with
  | EmptyString => EmptyString
  | String c s1 =>
      match s1 with
      | String d s2 =>
          if (nat_of_ascii c =? 196) && (nat_of_ascii d =? 176) then String "i" (to_lower s2) else
          match s2 with
          | String e s3 =>
              if (nat_of_ascii c =? 226) && (nat_of_ascii d =? 132) && (nat_of_ascii e =? 170)
              then String "k" (to_lower s3) else String (lower_ascii c) (to_lower s1)
          | EmptyString => String (lower_ascii c) (to_lower s1)
          end
      | EmptyString => String (lower_ascii c) EmptyString
      end
  end.

(** [strings.TrimRight(s, newline)]. *)
Fixpoint trim_newlines (s : string) : string :=
  match s with
  | EmptyString => EmptyString
  | String c s' =>
      let t := trim_newlines s' in
      if Ascii.eqb c newline && String.eqb t "" then EmptyString else String c t
  end.

(** ** Byte order: Go compares strings as byte sequences *)
Fixpoint str_ltb (s t : string) : bool :=
  match s, t with
  | _, EmptyString => false
  | EmptyString, String _ _ => true
  | String c s, String d t =>
      let n := N_of_ascii c in let m := N_of_ascii d in
      (n <? m)%N || ((n =? m)%N && str_ltb s t)
  end.

Lemma str_ltb_irrefl s : str_ltb s s = false.
Proof. induction s; simpl; [done |]. rewrite N.ltb_irrefl, N.eqb_refl. done. Qed.

Lemma str_ltb_trans s t u : str_ltb s t = true → str_ltb t u = true → str_ltb s u = true.
Proof.
  revert t u. induction s as [|c s IH]; intros [|d t] [|e u]; simpl; try done.
  rewrite !orb_true_iff, !andb_true_iff, !N.ltb_lt, !N.eqb_eq.
  intros [?|[? ?]] [?|[? ?]]; [left; lia | left; lia | left; lia |].
  right. split; [lia | eauto].
Qed.

Lemma str_ltb_asym s t : str_ltb s t = true → str_ltb t s = false.
Proof.
  intros H. destruct (str_ltb t s) eqn:E; [|done].
  pose proof (str_ltb_trans _ _ _ H E). by rewrite str_ltb_irrefl in *.
Qed.

Lemma str_ltb_total s t : str_ltb s t = false → str_ltb t s = false → s = t.
Proof.
  revert t. induction s as [|c s IH]; intros [|d t]; simpl; try done.
  rewrite !orb_false_iff, !andb_false_iff, !N.ltb_ge, !N.eqb_neq.
  intros [? [?|?]] [? [?|?]]; try lia.
  assert (Hn : N_of_ascii c = N_of_ascii d) by lia.
  assert (c = d) as -> by (rewrite <- (ascii_N_embedding c), Hn; apply ascii_N_embedding).
  f_equal. eauto.
Qed.

Lemma str_not_less_trans a b c :
  str_ltb b a = false → str_ltb c b = false → str_ltb c a = false.
Proof.
  intros H1 H2. destruct (str_ltb c a) eqn:E; [|done].
  destruct (str_ltb a b) eqn:Eab.
  - by rewrite (str_ltb_trans _ _ _ E Eab) in H2.
  - pose proof (str_ltb_total _ _ Eab H1) as ->. congruence.
Qed.

Definition sort_strings : list string → list string := stable_sort str_ltb.

(** ** Replacing and splitting *)

Lemma split_char_ne sep s : split_char sep s ≠ [].
Proof. destruct s as [|c s]; cbn [split_char]; [done |]. destruct (Ascii.eqb c sep); [done |]. by destruct (split_char sep s). Qed.

(** [strings.ReplaceAll(s, old, new)] for a non-empty [old]. *)
Fixpoint str_replace_fuel (fuel : nat) (old new s : string) : string :=
  match fuel with
  | O => s
  | S fuel =>
      if has_prefix s old then new +:+ str_replace_fuel fuel old new (drop_str (String.length old) s)
      else match s with EmptyString => EmptyString | String c s => String c (str_replace_fuel fuel old new s) end
  end.
Definition str_replace_all (old new s : string) : string :=
  str_replace_fuel (S (String.length s)) old new s.

(** [strings.Fields]: the maximal runs without white space; [word] is the run
    being read, in reverse. *)
Fixpoint fields_fuel (fuel : nat) (word : string) (s : string) : list string :=
  match fuel with
  | O => []
  | S fuel =>
      match space_width s, s with
      | O, EmptyString => if String.eqb word "" then [] else [word]
      | O, String c s => fields_fuel fuel (word +:+ String c "") s
      | w, _ => (if String.eqb word "" then id else cons word) (fields_fuel fuel "" (drop_str w s))
      end
  end.
Definition fields (s : string) : list string := fields_fuel (S (String.length s)) "" s.

(** [strings.ContainsAny(s, chars)] for ASCII [chars]. *)
Fixpoint contains_any (s chars : string) : bool :=
  match s with
  | EmptyString => false
  | String c s => contains_str chars (String c "") || contains_any s chars
  end.

(** The text after the last dot, or all of it: [name[LastIndex(name, '.')+1:]]. *)
Fixpoint after_last_dot (s : string) : string :=
  match s with
  | EmptyString => EmptyString
  | String c s' =>
      if contains_str s' "." then after_last_dot s' else if Ascii.eqb c "." then s' else s
  end.

Example fields_1 : fields "  a bc  d " = ["a"; "bc"; "d"]%list.
Proof. reflexivity. Qed.
Example after_last_dot_1 : (after_last_dot "*T.Run", after_last_dot "Run") = ("Run", "Run").
Proof. reflexivity. Qed.
Example str_replace_all_1 : str_replace_all "/r/" "" "/r/a /r/b" = "a b".
Proof. reflexivity. Qed.
