(* ===== verification/GoPath.v ===== *)
(** Go's [path] and [path/filepath] on slash-separated paths: [Clean], [IsAbs],
    [Base], [Join] and the glob matcher [path.Match], with the UTF-8 decoding
    the matcher does. *)
From S2P Require Import Prelude GoStrings.
From Stdlib Require Import Ascii.

Open Scope string_scope.
Open Scope nat_scope.

(** ** Lexical processing *)

Definition is_abs (p : string) : bool := has_prefix p "/".

(** The components of a path, with the empty ones and the single dots gone and
    every double dot cancelled against the component before it. *)
Fixpoint clean_comps (rooted : bool) (stack : list string) (l : list string) : list string :=
  match l with
  | [] => rev stack
  | c :: l =>
      if String.eqb c "" || String.eqb c "." then clean_comps rooted stack l
      else if String.eqb c ".." then
        match stack with
        | [] => if rooted then clean_comps rooted [] l else clean_comps rooted [".."] l
        | top :: stack' =>
            if String.eqb top ".." then clean_comps rooted (".." :: stack) l
            else clean_comps rooted stack' l
        end
      else clean_comps rooted (c :: stack) l
  end.

Definition render_path (rooted : bool) (comps : list string) : string :=
  if rooted then "/" +:+ join "/" comps
  else match comps with [] => "." | _ => join "/" comps end.

(** [path.Clean] (and [filepath.Clean] on Unix). *)
Definition clean (p : string) : string :=
  render_path (is_abs p) (clean_comps (is_abs p) [] (split_char slash p)).

(** [path.Base]. *)
Definition base_name (p : string) : string :=
  if String.eqb p "" then "."
  else match rev (filter (λ c, c ≠ "") (split_char slash p)) with
       | [] => "/"
       | c :: _ => c
       end.

(** [filepath.Ext]: from the last dot of the last component. *)
Fixpoint ext_from (acc s : string) : string :=
  match s with
  | EmptyString => acc
  | String c s' => ext_from (if Ascii.eqb c "." then s else if Ascii.eqb c slash then "" else acc) s'
  end.
Definition ext (p : string) : string := ext_from "" p.

(** [filepath.Join(root, rel)] for a non-empty root. *)
Definition join_path (root rel : string) : string :=
  if String.eqb rel "" then clean root else clean (root +:+ "/" +:+ rel).

(** Splitting what was joined gives the components back. *)
Definition slash_free (s : string) : Prop := slash ∉ String.list_ascii_of_string s.

Lemma split_char_app_slash a t :
  split_char slash (a +:+ "/" +:+ t) = (split_char slash a ++ split_char slash t)%list.
Proof.
  induction a as [|c a IH].
  - change (split_char slash (String "/" t) = "" :: split_char slash t). done.
  - change (split_char slash (String c (a +:+ "/" +:+ t))
            = (split_char slash (String c a) ++ split_char slash t)%list).
    cbn [split_char]. rewrite IH. destruct (Ascii.eqb c slash); [done |].
    assert (split_char slash a ≠ []) as Hne.
    { clear. destruct a as [|d a]; cbn [split_char]; [done |].
      destruct (Ascii.eqb d slash); [done |]. by destruct (split_char slash a). }
    by destruct (split_char slash a).
Qed.

Lemma split_char_free s : slash_free s → split_char slash s = [s].
Proof.
  unfold slash_free. induction s as [|c s IH]; [done |]. cbn [String.list_ascii_of_string split_char].
  intros H%not_elem_of_cons. destruct H as [Hc Hs].
  destruct (Ascii.eqb_spec c slash) as [->|_]; [done |]. by rewrite IH.
Qed.

Lemma split_char_join l : l ≠ [] → Forall slash_free l → split_char slash (join "/" l) = l.
Proof.
  intros Hne Hf. induction Hf as [|x l Hx Hf IH]; [done |].
  destruct l as [|y l]; [by apply split_char_free |].
  change (join "/" (x :: y :: l)) with (x +:+ "/" +:+ join "/" (y :: l)).
  by rewrite split_char_app_slash, (split_char_free x), IH.
Qed.

Lemma split_char_slash_free s : Forall slash_free (split_char slash s).
Proof.
  induction s as [|c s IH]; cbn [split_char].
  - repeat constructor. unfold slash_free. set_solver.
  - destruct (Ascii.eqb_spec c slash) as [->|Hne].
    + constructor; [unfold slash_free; set_solver | done].
    + destruct (split_char slash s) as [|h t]; inversion IH; subst; repeat constructor;
        unfold slash_free in *; cbn [String.list_ascii_of_string]; set_solver.
Qed.

(** ** UTF-8: [utf8.DecodeRuneInString] returns a rune and its width; an
    invalid sequence is the replacement rune 0xFFFD with width 1. *)
Definition rune_error : Z := 65533.

Definition cont_byte (lo hi : nat) (c : ascii) : bool :=
  (lo <=? nat_of_ascii c) && (nat_of_ascii c <=? hi).
Definition low6 (c : ascii) : Z := Z.land (Z.of_nat (nat_of_ascii c)) 63.

Definition decode_rune (s : string) : Z * nat :=
  match s with
  | EmptyString => (rune_error, 0)
  | String c r =>
      let n := nat_of_ascii c in
      if n <? 128 then (Z.of_nat n, 1)
      else if (194 <=? n) && (n <=? 223) then
        match r with
        | String d _ => if cont_byte 128 191 d
                        then (Z.lor (Z.shiftl (Z.land (Z.of_nat n) 31) 6) (low6 d), 2)
                        else (rune_error, 1)
        | _ => (rune_error, 1)
        end
      else if (224 <=? n) && (n <=? 239) then
        let lo := if n =? 224 then 160 else 128 in
        let hi := if n =? 237 then 159 else 191 in
        match r with
        | String d (String e _) =>
            if cont_byte lo hi d && cont_byte 128 191 e
            then (Z.lor (Z.shiftl (Z.land (Z.of_nat n) 15) 12)
                    (Z.lor (Z.shiftl (low6 d) 6) (low6 e)), 3)
            else (rune_error, 1)
        | _ => (rune_error, 1)
        end
      else if (240 <=? n) && (n <=? 244) then
        let lo := if n =? 240 then 144 else 128 in
        let hi := if n =? 244 then 143 else 191 in
        match r with
        | String d (String e (String f _)) =>
            if cont_byte lo hi d && cont_byte 128 191 e && cont_byte 128 191 f
            then (Z.lor (Z.shiftl (Z.land (Z.of_nat n) 7) 18)
                    (Z.lor (Z.shiftl (low6 d) 12) (Z.lor (Z.shiftl (low6 e) 6) (low6 f))), 4)
            else (rune_error, 1)
        | _ => (rune_error, 1)
        end
      else (rune_error, 1)
  end.

(** ** [path.Match] *)

Section match_.
Open Scope char_scope.

(** The chunk up to the next star outside a character class, and the rest. *)
Fixpoint scan_chunk_body (inrange : bool) (p : string) : string * string :=
  match p with
  | EmptyString => (EmptyString, EmptyString)
  | String c p1 =>
      if c =? "\" then
        match p1 with
        | String d p2 => let '(a, b) := scan_chunk_body inrange p2 in (String c (String d a), b)
        | EmptyString => (String c EmptyString, EmptyString)
        end
      else if (c =? "*") && negb inrange then (EmptyString, p)
      else
        let inrange' := if c =? "[" then true else if c =? "]" then false else inrange in
        let '(a, b) := scan_chunk_body inrange' p1 in (String c a, b)
  end.

Fixpoint skip_stars (p : string) : bool * string :=
  match p with
  | String c p' => if c =? "*" then (true, snd (skip_stars p')) else (false, p)
  | EmptyString => (false, p)
  end.

Definition scan_chunk (p : string) : bool * string * string :=
  let '(star, p) := skip_stars p in
  let '(chunk, rest) := scan_chunk_body false p in (star, chunk, rest).

(** [getEsc]: [None] is [ErrBadPattern]. *)
Definition get_esc (chunk : string) : option (Z * string) :=
  match chunk with
  | EmptyString => None
  | String c r =>
      if (c =? "-") || (c =? "]") then None else
      let chunk := if c =? "\" then r else chunk in
      match chunk with
      | EmptyString => None
      | _ =>
          let '(ru, n) := decode_rune chunk in
          if Z.eqb ru rune_error && Nat.eqb n 1 then None else
          let rest := drop_str n chunk in
          match rest with EmptyString => None | _ => Some (ru, rest) end
      end
  end.

(** The ranges of a character class after its opening bracket; the fuel is the
    length of the chunk, and every range consumes at least one byte of it. *)
Fixpoint class_ranges (fuel : nat) (chunk : string) (r : Z) (first matched : bool)
    : option (bool * string) :=
  match fuel with
  | O => None
  | S fuel =>
      match chunk with
      | String c rest =>
          if (c =? "]") && negb first then Some (matched, rest) else
          match get_esc chunk with
          | None => None
          | Some (lo, chunk) =>
              match
                match chunk with
                | String c2 rest2 => if c2 =? "-" then get_esc rest2 else Some (lo, chunk)
                | EmptyString => Some (lo, chunk)
                end
              with
              | None => None
              | Some (hi, chunk) =>
                  class_ranges fuel chunk r false
                    (matched || (Z.leb lo r && Z.leb r hi))
              end
          end
      | EmptyString => None
      end
  end.

(** [matchChunk]: [None] is [ErrBadPattern], [Some None] no match, and
    [Some (Some rest)] a match leaving [rest]. *)
Fixpoint match_chunk (fuel : nat) (chunk s : string) (failed : bool) : option (option string) :=
  match chunk with
  | EmptyString => Some (if failed then None else Some s)
  | String c chunk1 =>
      match fuel with
      | O => None
      | S fuel =>
          let failed := failed || String.eqb s "" in
          if c =? "[" then
            let '(r, n) := if failed then (0%Z, O) else decode_rune s in
            let s := if failed then s else drop_str n s in
            let '(negated, chunk2) :=
              match chunk1 with
              | String d chunk2 => if d =? "^" then (true, chunk2) else (false, chunk1)
              | EmptyString => (false, chunk1)
              end in
            match class_ranges (S (String.length chunk2)) chunk2 r true false with
            | None => None
            | Some (m, chunk3) => match_chunk fuel chunk3 s (failed || Bool.eqb m negated)
            end
          else if c =? "?" then
            if failed then match_chunk fuel chunk1 s true
            else match_chunk fuel chunk1 (drop_str (snd (decode_rune s)) s) (has_prefix s "/")
          else
            match (if c =? "\" then match chunk1 with
                                    | EmptyString => None
                                    | String d chunk2 => Some (d, chunk2)
                                    end
                   else Some (c, chunk1)) with
            | None => None
            | Some (d, chunk2) =>
                match s with
                | String e s' =>
                    if failed then match_chunk fuel chunk2 s true
                    else match_chunk fuel chunk2 s' (negb (d =? e))
                | EmptyString => match_chunk fuel chunk2 s true
                end
            end
      end
  end.

Definition match_chunk_top (chunk s : string) : option (option string) :=
  match_chunk (String.length chunk) chunk s false.

(** The rest of the pattern is checked for syntax before a mismatch is
    reported. *)
Fixpoint syntax_ok (fuel : nat) (p : string) : bool :=
  match p with
  | EmptyString => true
  | _ =>
      match fuel with
      | O => true
      | S fuel =>
          let '(_, chunk, rest) := scan_chunk p in
          match match_chunk_top chunk "" with
          | None => false
          | Some _ => syntax_ok fuel rest
          end
      end
  end.

(** The star loop: try every later start that does not skip a slash. *)
Fixpoint star_search (chunk : string) (last : bool) (name : string) : option (option string) :=
  match name with
  | EmptyString => Some None
  | String c name' =>
      if c =? "/" then Some None
      else match match_chunk_top chunk name' with
           | None => None
           | Some (Some t) =>
               if last && negb (String.eqb t "") then star_search chunk last name' else Some (Some t)
           | Some None => star_search chunk last name'
           end
  end.

Fixpoint match_fuel (fuel : nat) (pattern name : string) : option bool :=
  match pattern with
  | EmptyString => Some (String.eqb name "")
  | _ =>
      match fuel with
      | O => None
      | S fuel =>
          let '(star, chunk, rest) := scan_chunk pattern in
          let last := String.eqb rest "" in
          let mismatch := if syntax_ok (String.length rest) rest then Some false else None in
          if star && String.eqb chunk "" then Some (negb (contains_str name "/"))
          else
            match match_chunk_top chunk name with
            | Some (Some t) =>
                if String.eqb t "" || negb last then match_fuel fuel rest t
                else if star then
                  match star_search chunk last name with
                  | None => None
                  | Some (Some t) => match_fuel fuel rest t
                  | Some None => mismatch
                  end
                else mismatch
            | None => None
            | Some None =>
                if star then
                  match star_search chunk last name with
                  | None => None
                  | Some (Some t) => match_fuel fuel rest t
                  | Some None => mismatch
                  end
                else mismatch
            end
      end
  end.

(** [path.Match(pattern, name)]: [None] is [ErrBadPattern].  Every round
    consumes a non-empty chunk of the pattern or a run of stars, so the length
    of the pattern is enough fuel. *)
Definition path_match (pattern name : string) : option bool :=
  match_fuel (String.length pattern) pattern name.

End match_.

(** A malformed pattern is reported whatever the name: [ErrBadPattern] depends
    on the pattern alone. *)
Lemma class_ranges_rest fuel chunk r first m r' m' :
  snd <$> class_ranges fuel chunk r first m = snd <$> class_ranges fuel chunk r' first m'.
Proof.
  revert chunk first m m'. induction fuel as [|fuel IH]; intros chunk first m m'; simpl; [done |].
  destruct chunk as [|c rest]; [done |]. destruct (_ && _); [done |].
  destruct (get_esc _) as [[lo chunk']|]; [|done].
  destruct (match chunk' with String _ _ => _ | _ => _ end) as [[hi chunk2]|]; [apply IH | done].
Qed.

Lemma match_chunk_none fuel chunk s f s' f' :
  match_chunk fuel chunk s f = None → match_chunk fuel chunk s' f' = None.
Proof.
  revert chunk s f s' f'. induction fuel as [|fuel IH]; intros [|c chunk1] s f s' f'; try done.
  cbn [match_chunk]. destruct (c =? "[")%char.
  - destruct (if f || _ then _ else decode_rune s) as [r n].
    destruct (if f' || _ then _ else decode_rune s') as [r' n'].
    destruct (match chunk1 with EmptyString => _ | String _ _ => _ end) as [negated chunk2].
    pose proof (class_ranges_rest (S (String.length chunk2)) chunk2 r true false r' false) as Hc.
    destruct (class_ranges _ _ r _ _) as [[m c3]|], (class_ranges _ _ r' _ _) as [[m' c3']|];
      simplify_eq/=; [apply IH | done].
  - destruct (c =? "?")%char.
    + destruct (f || _), (f' || _); apply IH.
    + destruct (if (c =? "\")%char then _ else _) as [[d chunk2]|]; [|done].
      destruct s, s'; repeat case_match; apply IH.
Qed.

Lemma star_search_none chunk last name :
  star_search chunk last name = None → match_chunk_top chunk "" = None.
Proof.
  induction name as [|c name IH]; cbn [star_search]; [done |].
  destruct (c =? "/")%char; [done |].
  destruct (match_chunk_top chunk name) as [[t|]|] eqn:E; [|done|].
  - destruct (last && _); [done |]. done.
  - intros _. by eapply match_chunk_none.
Qed.

Lemma skip_stars_length p : String.length (snd (skip_stars p)) ≤ String.length p.
Proof.
  induction p as [|c p IH]; cbn [skip_stars]; [done |].
  destruct (c =? "*")%char; simpl; lia.
Qed.

Lemma skip_stars_false p : fst (skip_stars p) = false → skip_stars p = (false, p).
Proof. destruct p as [|c p]; cbn [skip_stars]; [done |]. by destruct (c =? "*")%char. Qed.

Lemma skip_stars_true p : fst (skip_stars p) = true →
  String.length (snd (skip_stars p)) < String.length p.
Proof.
  destruct p as [|c p]; cbn [skip_stars]; [done |]. destruct (c =? "*")%char; [|done].
  intros _. simpl. pose proof (skip_stars_length p). lia.
Qed.

Lemma scan_chunk_body_length b p :
  String.length (fst (scan_chunk_body b p)) + String.length (snd (scan_chunk_body b p))
  = String.length p.
Proof.
  remember (String.length p) as n eqn:Hn.
  revert b p Hn. induction (lt_wf n) as [n _ IH]; intros b p Hn.
  destruct p as [|c p1]; cbn [scan_chunk_body]; [done |].
  destruct (c =? "\")%char.
  - destruct p1 as [|d p2]; [done |].
    pose proof (IH (String.length p2) ltac:(simpl in Hn; lia) b p2 eq_refl) as H.
    destruct (scan_chunk_body b p2). simpl in *. lia.
  - destruct (_ && _); [done |].
    set (b' := if (c =? "[")%char then _ else _).
    pose proof (IH (String.length p1) ltac:(simpl in Hn; lia) b' p1 eq_refl) as H.
    destruct (scan_chunk_body b' p1). simpl in *. lia.
Qed.

Lemma scan_chunk_shrinks p star chunk rest :
  p ≠ "" → scan_chunk p = (star, chunk, rest) → String.length rest < String.length p.
Proof.
  unfold scan_chunk. intros Hp.
  destruct (skip_stars p) as [st p'] eqn:Es.
  pose proof (scan_chunk_body_length false p') as Hl.
  destruct (scan_chunk_body false p') as [ck rs] eqn:Eb. intros [= -> -> ->]. simpl in Hl.
  destruct star.
  - pose proof (skip_stars_true p) as H. rewrite Es in H. specialize (H eq_refl). simpl in H. lia.
  - pose proof (skip_stars_false p) as H. rewrite Es in H. specialize (H eq_refl).
    simplify_eq. destruct p as [|c p1]; [done |].
    destruct chunk; [|simpl in *; lia]. exfalso.
    (* an empty chunk without a star means the pattern starts with one *)
    cbn [skip_stars] in Es. destruct (c =? "*")%char eqn:Ec; [done |].
    cbn [scan_chunk_body] in Eb. rewrite Ec in Eb. cbn [andb] in Eb.
    destruct (c =? "\")%char; [destruct p1 as [|d p2]; [done |]; by destruct (scan_chunk_body _ p2) |].
    by destruct (scan_chunk_body _ p1).
Qed.

Lemma syntax_ok_fuel fuel fuel' p :
  String.length p ≤ fuel → String.length p ≤ fuel' → syntax_ok fuel p = syntax_ok fuel' p.
Proof.
  revert fuel' p. induction fuel as [|fuel IH]; intros fuel' [|c p] H1 H2; simpl in H1.
  1: by destruct fuel'. 1: lia. 1: by destruct fuel'.
  destruct fuel' as [|fuel']; [simpl in H2; lia |]. cbn [syntax_ok].
  destruct (scan_chunk (String c p)) as [[st ck] rest] eqn:Es.
  apply scan_chunk_shrinks in Es; [|done]. simpl in Es, H2.
  destruct (match_chunk_top ck ""); [|done]. apply IH; lia.
Qed.

(** [path.Match] reports [ErrBadPattern] only for a pattern that fails the
    syntax check, whatever the name. *)
Lemma match_fuel_none fuel pattern name :
  String.length pattern ≤ fuel → match_fuel fuel pattern name = None →
  syntax_ok fuel pattern = false.
Proof.
  revert pattern name. induction fuel as [|fuel IH]; intros [|c p] name Hl; cbn [match_fuel];
    [done | simpl in Hl; lia | done |].
  destruct (scan_chunk (String c p)) as [[star chunk] rest] eqn:Es.
  cbn [syntax_ok]. rewrite Es. apply scan_chunk_shrinks in Es; [|done]. simpl in Es, Hl.
  assert (Hm : (if syntax_ok (String.length rest) rest then Some false else None) = None →
            syntax_ok fuel rest = false).
  { rewrite (syntax_ok_fuel (String.length rest) fuel rest) by lia. by destruct (syntax_ok _ _). }
  destruct (match_chunk_top chunk "") as [o|] eqn:Ec; [|done].
  destruct (star && _); [done |].
  assert (Hs : star_search chunk (String.eqb rest "") name ≠ None).
  { intros H%star_search_none. congruence. }
  assert (Hn : match_chunk_top chunk name ≠ None).
  { intros H. unfold match_chunk_top in *. rewrite (match_chunk_none _ _ _ _ "" false H) in Ec. done. }
  destruct (match_chunk_top chunk name) as [[t|]|]; [|destruct star; [|done]|done].
  - destruct (_ || _); [intros; eapply IH; [lia | done] |]. destruct star; [|done].
    destruct (star_search _ _ _) as [[t'|]|]; [intros; eapply IH; [lia | done] | done | done].
  - destruct (star_search _ _ _) as [[t'|]|]; [intros; eapply IH; [lia | done] | done | done].
Qed.

Lemma skip_stars_rest p c r : snd (skip_stars p) = String c r → (c =? "*")%char = false.
Proof.
  induction p as [|d p IH]; cbn [skip_stars]; [done |].
  destruct (d =? "*")%char eqn:E; [done |]. by intros [= -> _].
Qed.

Lemma scan_chunk_body_empty p rest :
  (∀ c r, p = String c r → (c =? "*")%char = false) →
  scan_chunk_body false p = ("", rest) → rest = "".
Proof.
  destruct p as [|c p1]; cbn [scan_chunk_body]; [by intros _ [= <-] |].
  intros H. rewrite (H c p1 eq_refl). cbn [andb].
  destruct (c =? "\")%char; [destruct p1 as [|d p2]; [done |]; by destruct (scan_chunk_body _ p2) |].
  by destruct (scan_chunk_body _ p1).
Qed.

Lemma scan_chunk_last p star rest : scan_chunk p = (star, "", rest) → rest = "".
Proof.
  unfold scan_chunk. destruct (skip_stars p) as [st p'] eqn:Es.
  destruct (scan_chunk_body false p') as [ck rs] eqn:Eb. intros [= -> -> ->].
  eapply scan_chunk_body_empty; [|done]. intros c r ->.
  eapply (skip_stars_rest p). by rewrite Es.
Qed.

Lemma match_fuel_some fuel pattern name b :
  String.length pattern ≤ fuel → match_fuel fuel pattern name = Some b →
  syntax_ok fuel pattern = true.
Proof.
  revert pattern name. induction fuel as [|fuel IH]; intros [|c p] name Hl; cbn [match_fuel];
    [done | simpl in Hl; lia | done |].
  destruct (scan_chunk (String c p)) as [[star chunk] rest] eqn:Es.
  cbn [syntax_ok]. rewrite Es.
  pose proof (scan_chunk_last (String c p) star rest) as Hlast.
  apply scan_chunk_shrinks in Es as Hr; [|done]. simpl in Hr, Hl.
  assert (Hm : (if syntax_ok (String.length rest) rest then Some false else None) = Some b →
            syntax_ok fuel rest = true).
  { rewrite (syntax_ok_fuel (String.length rest) fuel rest) by lia. by destruct (syntax_ok _ _). }
  destruct (star && String.eqb chunk "") eqn:E0.
  { apply andb_true_iff in E0 as [-> ->%String.eqb_eq]. rewrite (Hlast Es). by destruct fuel. }
  destruct (match_chunk_top chunk name) as [o|] eqn:En; [|done].
  destruct (match_chunk_top chunk "") as [o'|] eqn:Ec.
  2:{ unfold match_chunk_top in *. by rewrite (match_chunk_none _ _ _ _ name false Ec) in En. }
  destruct o as [t|]; [destruct (_ || _); [by apply IH; lia |] |];
    (destruct star; [|done]);
    (destruct (star_search _ _ _) as [[t'|]|]; [by apply IH; lia | done | done]).
Qed.

(** So one probe decides whether a pattern is well formed. *)
Lemma path_match_malformed pattern name name' :
  path_match pattern name = None ↔ path_match pattern name' = None.
Proof.
  revert name name'. cut (∀ name name', path_match pattern name = None → path_match pattern name' = None).
  { split; eauto. }
  unfold path_match. intros name name' H.
  destruct (match_fuel _ pattern name') eqn:E; [|done].
  apply match_fuel_some in E; [|done]. apply match_fuel_none in H; [|done]. congruence.
Qed.

(** ** Literal patterns *)

(** No byte of the pattern means anything to the matcher. *)
Fixpoint literal (p : string) : bool :=
  match p with
  | EmptyString => true
  | String c p =>
      negb ((c =? "*") || (c =? "?") || (c =? "[") || (c =? "\"))%char && literal p
  end.

Lemma scan_chunk_literal p b : literal p = true → scan_chunk_body b p = (p, "").
Proof.
  revert b. induction p as [|c p IH]; intros b; [done |]. cbn [literal scan_chunk_body].
  rewrite andb_true_iff, negb_true_iff, !orb_false_iff.
  intros [[[[-> _] ->] ->] Hp]. cbn [andb]. by rewrite IH.
Qed.

Lemma match_chunk_failed chunk fuel s :
  literal chunk = true → String.length chunk ≤ fuel → match_chunk fuel chunk s true = Some None.
Proof.
  revert fuel s. induction chunk as [|c chunk IH]; intros [|fuel] s; cbn [literal match_chunk];
    [done | done | simpl; lia |].
  rewrite andb_true_iff, negb_true_iff, !orb_false_iff.
  intros [[[[? ->] ->] ->] Hp] Hl. simpl in Hl. cbn [orb].
  destruct s; apply IH; (done || lia).
Qed.

Lemma match_chunk_literal chunk fuel s :
  literal chunk = true → String.length chunk ≤ fuel →
  match_chunk fuel chunk s false =
    Some (if has_prefix s chunk then Some (drop_str (String.length chunk) s) else None).
Proof.
  revert fuel s. induction chunk as [|c chunk IH]; intros [|fuel] s;
    cbn [literal match_chunk has_prefix]; [by destruct s | by destruct s | simpl; lia |].
  rewrite andb_true_iff, negb_true_iff, !orb_false_iff.
  intros [[[[? ->] ->] ->] Hp] Hl. simpl in Hl. cbn [orb].
  destruct s as [|d s]; cbn [String.eqb has_prefix].
  - apply match_chunk_failed; [done | lia].
  - destruct (c =? d)%char; cbn [negb andb].
    + rewrite IH by (done || lia). done.
    + apply match_chunk_failed; [done | lia].
Qed.

Lemma path_match_literal p s : literal p = true → path_match p s = Some (String.eqb s p).
Proof.
  unfold path_match. intros Hp. destruct p as [|c p].
  { cbn. done. }
  assert (Es : skip_stars (String c p) = (false, String c p)).
  { cbn [skip_stars literal] in *. by destruct (c =? "*")%char. }
  cbn [String.length match_fuel]. unfold scan_chunk. rewrite Es.
  rewrite scan_chunk_literal by done. cbn [andb String.eqb].
  unfold match_chunk_top. rewrite match_chunk_literal by done.
  destruct (has_prefix s (String c p)) eqn:Hs.
  - apply has_prefix_spec in Hs as (r & ->). rewrite drop_str_app. cbn [negb].
    rewrite orb_false_r. destruct (String.eqb_spec r "") as [->|Hr].
    + assert (String c p +:+ "" = String c p) as ->.
      { apply app_str_nil. }
      rewrite String.eqb_refl. by destruct (String.length p).
    + symmetry. f_equal. apply String.eqb_neq. intros H.
      apply Hr. apply (f_equal String.length) in H. rewrite length_app_str in H.
      destruct r; [done |]. simpl in H. lia.
  - symmetry. cbn. f_equal. apply String.eqb_neq. intros ->. by rewrite has_prefix_refl in Hs.
Qed.

Example match_1 : path_match "*.go" "main.go" = Some true. Proof. reflexivity. Qed.
Example match_2 : path_match "*.go" "a/main.go" = Some false. Proof. reflexivity. Qed.
Example match_3 : path_match "a/[b-d]?/x" "a/cz/x" = Some true. Proof. reflexivity. Qed.
Example match_4 : path_match "a/[^b-d]?/x" "a/cz/x" = Some false. Proof. reflexivity. Qed.
Example match_5 : path_match "a[" "probe" = None. Proof. reflexivity. Qed.
Example match_6 : path_match "a*b*c" "axxbyyc" = Some true. Proof. reflexivity. Qed.
Example clean_1 : clean "a//b/../c/./d" = "a/c/d". Proof. reflexivity. Qed.
Example clean_2 : clean "../../x" = "../../x". Proof. reflexivity. Qed.
Example clean_3 : clean "/../x/" = "/x". Proof. reflexivity. Qed.
Example ext_1 : ext "a.b/pol.yaml" = ".yaml" ∧ ext "a.b/pol" = "". Proof. done. Qed.
Example base_1 : base_name "a/b.pb.go" = "b.pb.go". Proof. reflexivity. Qed.

(** ** Cleaned relative paths *)

Lemma contains_any_literal p : contains_any p "*?[\" = false → literal p = true.
Proof.
  induction p as [|c p IH]; [done |]. cbn [contains_any literal]. rewrite orb_false_iff. intros [Hc Hp].
  rewrite (IH Hp), andb_true_r. clear -Hc. by destruct c as [[] [] [] [] [] [] [] []].
Qed.

(** The double dots of a cleaned relative path are all at its front. *)
Definition dots_first (l : list string) : Prop := ∃ n r, l = (replicate n ".." ++ r)%list ∧ ".." ∉ r.

Lemma rev_replicate_str n (x : string) : rev (replicate n x) = replicate n x.
Proof.
  induction n as [|n IH]; [done |]. cbn [replicate rev]. rewrite IH.
  change [x] with (replicate 1 x). rewrite <- replicate_add. by rewrite Nat.add_comm.
Qed.

Lemma clean_comps_dots_first l : ∀ n r, ".." ∉ r →
  dots_first (clean_comps false (r ++ replicate n "..")%list l).
Proof.
  induction l as [|c l IH]; intros n r Hr; cbn [clean_comps].
  - exists n, (rev r). rewrite rev_app_distr. split; [|by rewrite list_elem_of_In, <- in_rev, <- list_elem_of_In].
    by rewrite rev_replicate_str.
  - destruct (String.eqb c "" || String.eqb c "."); [by apply IH |].
    destruct (String.eqb_spec c "..") as [->|Hc].
    + destruct r as [|top r]; cbn [app].
      * destruct n as [|n]; cbn [replicate].
        -- apply (IH 1 []). set_solver.
        -- rewrite String.eqb_refl. apply (IH (S (S n)) []). set_solver.
      * apply not_elem_of_cons in Hr as [Ht Hr].
        destruct (String.eqb_spec top "..") as [->|_]; [done |]. by apply IH.
    + change (c :: r ++ replicate n "..")%list with ((c :: r) ++ replicate n "..")%list.
      apply IH. set_solver.
Qed.

Lemma clean_comps_slash_free rooted l : ∀ stack, Forall slash_free stack → Forall slash_free l →
  Forall slash_free (clean_comps rooted stack l).
Proof.
  induction l as [|c l IH]; intros stack Hs Hl; cbn [clean_comps]; [by apply Forall_rev |].
  inversion Hl as [|? ? Hc Hl']; subst.
  assert (Hdd : slash_free "..") by (unfold slash_free; cbn; set_solver).
  destruct (_ || _); [by apply IH |]. destruct (String.eqb c ".."); [|apply IH; [by constructor | done]].
  destruct stack as [|top stack].
  - destruct rooted; apply IH; repeat constructor; done.
  - inversion Hs; subst. destruct (String.eqb top ".."); apply IH; repeat constructor; done.
Qed.

(** A cleaned relative path that does not start with a double dot has none. *)
Lemma clean_no_dotdot f :
  is_abs f = false → clean f = f → f ≠ "." → f ≠ ".." → has_prefix f "../" = false →
  ".." ∉ split_char slash f.
Proof.
  unfold clean. intros Ha Hc H1 H2 H3. rewrite Ha in Hc.
  destruct (clean_comps_dots_first (split_char slash f) 0 [] (not_elem_of_nil _)) as (n & r & E & Hr).
  cbn [app replicate] in E.
  pose proof (clean_comps_slash_free false (split_char slash f) [] (Forall_nil_2 _) (split_char_slash_free f)) as Hf.
  rewrite E in Hc, Hf. unfold render_path in Hc.
  destruct (replicate n ".." ++ r)%list as [|x l] eqn:El; [by subst |].
  assert (Es : split_char slash f = (x :: l)%list) by (rewrite <- Hc; by apply split_char_join).
  rewrite Es, <- El. destruct n as [|n]; [done |]. exfalso. injection El as <- <-.
  destruct (replicate n ".." ++ r)%list as [|y l]; subst f.
  - by apply H2.
  - change (join "/" (".." :: y :: l)) with ("../" +:+ join "/" (y :: l)) in H3.
    by rewrite has_prefix_app in H3.
Qed.
