(* ===== verification/GoRegexp.v ===== *)
(** The part of Go's [regexp] the modelled code uses: a syntax for its patterns
    and a matcher with leftmost-first (greedy and lazy) semantics and captures.
    Classes work on bytes; every pattern of the code either uses ASCII classes
    or repeats a negated class, for which bytes and runes match the same text. *)
From S2P Require Import Prelude GoStrings.
From Stdlib Require Import Ascii.

Open Scope string_scope.
Open Scope nat_scope.

Inductive re :=
| REps
| RCls (f : ascii → bool)
| RSeq (a b : re)
| RAlt (a b : re)
| RStar (greedy : bool) (a : re)
| RGroup (n : nat) (a : re)
| RBol                                     (* ^ without the m flag *)
| REol                                     (* $ without the m flag *)
| RBoundary.                               (* \b *)

(** ** Classes *)
Definition in_range (lo hi c : ascii) : bool :=
  (nat_of_ascii lo <=? nat_of_ascii c) && (nat_of_ascii c <=? nat_of_ascii hi).
Definition digit : ascii → bool := in_range "0" "9".
Definition upper : ascii → bool := in_range "A" "Z".
Definition lower : ascii → bool := in_range "a" "z".
Definition alnum (c : ascii) : bool := digit c || upper c || lower c.
Definition word (c : ascii) : bool := alnum c || Ascii.eqb c "_".
Definition hexdigit (c : ascii) : bool := digit c || in_range "a" "f" c || in_range "A" "F" c.
(** [\s]: tab, newline, form feed, carriage return, space. *)
Definition re_space (c : ascii) : bool :=
  let n := nat_of_ascii c in (n =? 9) || (n =? 10) || (n =? 12) || (n =? 13) || (n =? 32).
(** The dot: anything but a newline. *)
Definition dot (c : ascii) : bool := negb (Ascii.eqb c newline).
Definition one_of (s : string) (c : ascii) : bool := contains_str s (String c "").

(** ** Building patterns *)
Fixpoint rlit (s : string) : re :=
  match s with EmptyString => REps | String c s => RSeq (RCls (Ascii.eqb c)) (rlit s) end.
Definition rstar (a : re) : re := RStar true a.
Definition rplus (a : re) : re := RSeq a (RStar true a).
Definition rplus_lazy (a : re) : re := RSeq a (RStar false a).
Definition ropt (a : re) : re := RAlt a REps.
Fixpoint rexact (n : nat) (a : re) : re :=
  match n with O => REps | S n => RSeq a (rexact n a) end.
Definition ratleast (n : nat) (a : re) : re := RSeq (rexact n a) (rstar a).
Fixpoint rseq (l : list re) : re :=
  match l with [] => REps | [a] => a | a :: l => RSeq a (rseq l) end.
Fixpoint ralts (l : list string) : re :=
  match l with [] => REps | [a] => rlit a | a :: l => RAlt (rlit a) (ralts l) end.

(** ** Matching

    A position is the byte before it, if any, and the text after it; the
    captures map a group to its text. *)
Record pos := mk_pos { p_prev : option ascii; p_rest : string }.
Notation caps := (list (nat * string)).

Definition word_before (p : pos) : bool :=
  match p_prev p with Some c => word c | None => false end.
Definition word_after (p : pos) : bool :=
  match p_rest p with String c _ => word c | EmptyString => false end.
Definition at_end (p : pos) : bool := String.eqb (p_rest p) "".

Fixpoint match_re (r : re) (p : pos) (cs : caps) (k : pos → caps → option (pos * caps))
    : option (pos * caps) :=
  match r with
  | REps => k p cs
  | RCls f =>
      match p_rest p with
      | String c s => if f c then k (mk_pos (Some c) s) cs else None
      | EmptyString => None
      end
  | RSeq a b => match_re a p cs (λ p cs, match_re b p cs k)
  | RAlt a b => match match_re a p cs k with Some r => Some r | None => match_re b p cs k end
  | RStar greedy a =>
      (fix loop (n : nat) (p : pos) (cs : caps) : option (pos * caps) :=
         match n with
         | O => k p cs
         | S n =>
             let more := match_re a p cs (λ p' cs',
               if String.length (p_rest p') <? String.length (p_rest p) then loop n p' cs' else None) in
             let stop := k p cs in
             if greedy then match more with Some r => Some r | None => stop end
             else match stop with Some r => Some r | None => more end
         end) (S (String.length (p_rest p))) p cs
  | RGroup n a =>
      match_re a p cs (λ p' cs',
        k p' ((n, take_str (String.length (p_rest p) - String.length (p_rest p')) (p_rest p)) :: cs'))
  | RBol => match p_prev p with None => k p cs | Some _ => None end
  | REol => if at_end p then k p cs else None
  | RBoundary => if xorb (word_before p) (word_after p) then k p cs else None
  end.

Definition match_at (r : re) (p : pos) : option (pos * caps) :=
  match_re r p [] (λ p cs, Some (p, cs)).

(** The leftmost match: the text before it, its end and its captures. *)
Fixpoint find_from (r : re) (prev : option ascii) (s : string) : option (string * pos * caps) :=
  match match_at r (mk_pos prev s) with
  | Some (p, cs) => Some ("", p, cs)
  | None =>
      match s with
      | EmptyString => None
      | String c s' =>
          match find_from r (Some c) s' with
          | Some (before, p, cs) => Some (String c before, p, cs)
          | None => None
          end
      end
  end.

(** [re.MatchString(s)] *)
Definition match_string (r : re) (s : string) : bool :=
  match find_from r None s with Some _ => true | None => false end.

(** [re.FindStringSubmatch(s)]: the text of group [n], empty when the group did
    not take part. *)
Definition find_submatch (r : re) (s : string) : option caps :=
  match find_from r None s with Some (_, _, cs) => Some cs | None => None end.
Definition group (n : nat) (cs : caps) : string :=
  match find (λ c, fst c =? n) cs with Some (_, t) => t | None => "" end.

(** [re.ReplaceAllString(s, by)] for a pattern that matches no empty text. *)
Fixpoint replace_fuel (fuel : nat) (r : re) (by_ : string) (prev : option ascii) (s : string) : string :=
  match fuel with
  | O => s
  | S fuel =>
      match find_from r prev s with
      | None => s
      | Some (before, p, _) => before +:+ by_ +:+ replace_fuel fuel r by_ (p_prev p) (p_rest p)
      end
  end.
Definition replace_all (r : re) (by_ s : string) : string :=
  replace_fuel (S (String.length s)) r by_ None s.

(** A submatch exists exactly when the pattern matches. *)
Lemma find_submatch_some r s : match_string r s = true ↔ ∃ cs, find_submatch r s = Some cs.
Proof.
  unfold match_string, find_submatch. destruct (find_from r None s) as [[[b p] cs]|]; naive_solver.
Qed.

Example replace_1 :
  replace_all (rseq [rlit "0x"; rplus (RCls hexdigit)]) "<v>" "at 0x1f and 0xZ" = "at <v> and 0xZ".
Proof. reflexivity. Qed.
