(* ===== verification/Policy.v ===== *)
(** The operator's repository-wide rules: [src/internal/policy/policy.go] and
    [scope.go].  Globs, protected paths, declared scope, sensitive names. *)
From S2P Require Import Prelude GoStrings GoPath.

Open Scope string_scope.
Open Scope nat_scope.

(** [policy/policy.go:31-38 Rule] *)
Record Rule := mk_rule { Rule_Path : string; Rule_Reason : string }.

(** [policy/policy.go:41-45 Policy] *)
Record Policy := mk_policy { Policy_Name : string; Protected : list Rule }.

(** [policy/policy.go:48-50 Set] *)
Record PolicySet := mk_set { Policies : list Policy }.

(** [policy/policy.go:121-126 Violation] *)
Record Violation := mk_violation {
  V_Path : string; V_Policy : string; V_Rule : string; V_Reason : string }.

#[export] Instance rule_eq_dec : EqDecision Rule.
Proof. solve_decision. Defined.
#[export] Instance violation_eq_dec : EqDecision Violation.
Proof. solve_decision. Defined.

(** [policy/policy.go:53-53 ErrInvalid] *)
Definition ErrInvalid (msg : string) : error :=
  mk_error (Some "policy: invalid") ("policy: invalid: " +:+ msg).

(** ** Loading *)

(** [policy/policy.go:63-76 Policy.Validate] the body of its loop, for rule [i]. *)
Definition validate_rule (name : string) (i : nat) (r : Rule) : result unit :=
  if blank (Rule_Path r) then Err (ErrInvalid (name +:+ " rule " +:+ pretty (i + 1) +:+ " has no path"))
  else if blank (Rule_Reason r) then
    Err (ErrInvalid (name +:+ " rule " +:+ quoted (Rule_Path r) +:+ " has no reason"))
  else match path_match (Rule_Path r) "probe" with
  | None => Err (ErrInvalid (name +:+ " rule " +:+ quoted (Rule_Path r)
                             +:+ " is not a valid pattern: syntax error in pattern"))
  | Some _ => Ok tt
  end.

(** [policy/policy.go:56-78 Policy.Validate] *)
Definition Validate (p : Policy) : result unit :=
  if blank (Policy_Name p) then Err (ErrInvalid "a policy needs a name")
  else match Protected p with
  | [] => Err (ErrInvalid (Policy_Name p +:+ " protects nothing"))
  | rules => each_i (validate_rule (Policy_Name p)) 0 rules
  end.

Section load.
Context (read_file : string → result string).      (* os.ReadFile under dir *)
Context (unmarshal : string → result Policy).      (* yaml.Unmarshal *)

(** [policy/policy.go:103-116 Load] one round of its loop. *)
Definition load_one (name : string) : result Policy :=
  body ← read_file name;
  match unmarshal body with
  | Err e => Err (ErrInvalid (name +:+ ": " +:+ err_msg e))
  | Ok p =>
      match Validate p with
      | Err e => Err (mk_error (err_is e) (name +:+ ": " +:+ err_msg e))
      | Ok _ => Ok p
      end
  end.

Fixpoint load_all (names : list string) : result (list Policy) :=
  match names with
  | [] => Ok []
  | n :: names => p ← load_one n; ps ← load_all names; mret (p :: ps)
  end.

(** [policy/policy.go:82-118 Load]: an entry is a name and whether it is a
    directory. *)
Definition Load (entries : result (list (string * bool))) : result PolicySet :=
  match entries with
  | Err e => if decide (err_is e = Some "os.ErrNotExist") then Ok (mk_set []) else Err e
  | Ok entries =>
      let names := sort_strings (fst <$>
        filter (λ e, e.2 = false ∧ (ext e.1 = ".yaml" ∨ ext e.1 = ".yml")) entries) in
      ps ← load_all names; mret (mk_set ps)
  end.
End load.

(** ** Matching *)

(** [policy/policy.go:155-166 matches] *)
Definition matches (pattern rel : string) : bool :=
  if has_suffix pattern "/**" then
    let prefix := trim_suffix pattern "/**" in
    String.eqb rel prefix || has_prefix rel (prefix +:+ "/")
  else
    match path_match pattern rel with
    | Some true => true
    | _ => has_prefix rel (trim_suffix pattern "/" +:+ "/")
    end.

(** [policy/policy.go:135-146 Set.Check] the loops, before sorting. *)
Definition violations_of (s : PolicySet) (changed : list string) : list Violation :=
  c ← changed;
  let rel := trim_prefix c "./" in
  p ← Policies s;
  r ← Protected p;
  if matches (Rule_Path r) rel
  then [mk_violation rel (Policy_Name p) (Rule_Path r) (Rule_Reason r)] else [].

(** [policy/policy.go:133-149 Set.Check] *)
Definition Set_Check (s : PolicySet) (changed : list string) : list Violation :=
  stable_sort (λ a b, str_ltb (V_Path a) (V_Path b)) (violations_of s changed).

(** [policy/policy.go:169-178 Set.Paths] *)
Definition Paths (s : PolicySet) : list string :=
  sort_strings (p ← Policies s; Rule_Path <$> Protected p).

(** ** Scope *)

(** [policy/scope.go:24-35 validScope] *)
Definition validScope (pattern : string) : bool :=
  if String.eqb pattern "" || is_abs pattern || contains_str pattern "\" then false
  else if mem ".." (split_char slash pattern) then false
  else match path_match pattern "probe" with Some _ => true | None => false end.

(** [policy/scope.go:11-22 Covers] *)
Fixpoint Covers (scope : list string) (rel : string) : bool :=
  match scope with
  | [] => false
  | pattern :: scope =>
      if validScope pattern &&
         (let pattern := clean pattern in String.eqb pattern "." || matches pattern rel)
      then true else Covers scope rel
  end.

(** [policy/scope.go:38-47 Sensitive] *)
Definition Sensitive (rel : string) : bool :=
  existsb (λ part,
      let part := to_lower part in
      has_prefix part ".env" || has_suffix part ".pem" ||
      has_suffix part ".key" || contains_str part "credentials")
    (split_char slash rel)
  || has_prefix (to_lower rel) ".agent/secrets".

(** ** What the rules mean *)

Lemma has_prefix_slash rel d : has_prefix rel (d +:+ "/") = true ↔ ∃ r, rel = d +:+ "/" +:+ r.
Proof.
  rewrite has_prefix_spec. split; intros (r & ->); exists r; by rewrite app_str_assoc.
Qed.

Lemma literal_no_stars d : literal d = true → has_suffix d "/**" = false.
Proof.
  induction d as [|c d IH]; [done |]. cbn [literal has_suffix]. intros H.
  apply andb_true_iff in H as [_ Hd]. rewrite (IH Hd), orb_false_r.
  apply String.eqb_neq. intros [= -> ->]. done.
Qed.

Lemma matches_stars d rel :
  matches (d +:+ "/**") rel = true ↔ rel = d ∨ ∃ r, rel = d +:+ "/" +:+ r.
Proof.
  unfold matches. rewrite (proj2 (has_suffix_spec _ _)) by eauto.
  rewrite trim_suffix_app. cbv zeta. by rewrite orb_true_iff, String.eqb_eq, has_prefix_slash.
Qed.

Lemma matches_literal d rel :
  literal d = true → has_suffix d "/" = false →
  matches d rel = true ↔ rel = d ∨ ∃ r, rel = d +:+ "/" +:+ r.
Proof.
  intros Hl Hs. unfold matches. rewrite literal_no_stars, path_match_literal by done.
  unfold trim_suffix. rewrite Hs, <- has_prefix_slash.
  destruct (String.eqb_spec rel d) as [->|Hne]; [naive_solver | naive_solver].
Qed.

(** A protected or declared path without glob characters stands for
    exactly itself and everything beneath it, written bare or with the
    recursive suffix; the recursive form is literal in front of the suffix, so
    a sibling that merely shares the prefix is never matched. *)
Theorem matches_subtree (d rel : string) :
  literal d = true → has_suffix d "/" = false →
  (matches d rel = matches (d +:+ "/**") rel) ∧
  (matches d rel = true ↔ rel = d ∨ ∃ r, rel = d +:+ "/" +:+ r).
Proof.
  intros Hl Hs. split; [|by apply matches_literal].
  apply eq_true_iff_eq. by rewrite matches_literal, matches_stars.
Qed.

Lemma matches_subtree_witness :
  matches ".github" ".github/workflows/ci.yml" = true ∧ matches ".github" ".github-old/x" = false.
Proof.
  split.
  - apply (matches_subtree ".github"); [reflexivity | reflexivity |].
    right. exists "workflows/ci.yml". reflexivity.
  - reflexivity.
Defined.

Lemma elem_of_violations v s changed :
  v ∈ violations_of s changed ↔
  ∃ c p r, c ∈ changed ∧ p ∈ Policies s ∧ r ∈ Protected p ∧
    matches (Rule_Path r) (trim_prefix c "./") = true ∧
    v = mk_violation (trim_prefix c "./") (Policy_Name p) (Rule_Path r) (Rule_Reason r).
Proof.
  unfold violations_of. set_unfold. split.
  - intros (c & (p & (r & Hv & Hr) & Hp) & Hc). exists c, p, r.
    destruct (matches _ _); [|by apply not_elem_of_nil in Hv].
    apply list_elem_of_singleton in Hv as ->. done.
  - intros (c & p & r & Hc & Hp & Hr & Hm & ->). exists c. split; [|done].
    exists p. split; [|done]. exists r. split; [|done]. rewrite Hm. by apply list_elem_of_singleton.
Qed.

Lemma elem_of_Set_Check v s changed : v ∈ Set_Check s changed ↔ v ∈ violations_of s changed.
Proof. unfold Set_Check. by rewrite elem_of_stable_sort. Qed.

Lemma Set_Check_nil s changed :
  Set_Check s changed = [] ↔
  ∀ c p r, c ∈ changed → p ∈ Policies s → r ∈ Protected p →
    matches (Rule_Path r) (trim_prefix c "./") = false.
Proof.
  split.
  - intros H c p r Hc Hp Hr. destruct (matches _ _) eqn:E; [|done]. exfalso.
    apply (not_elem_of_nil (mk_violation (trim_prefix c "./") (Policy_Name p) (Rule_Path r) (Rule_Reason r))).
    rewrite <- H, elem_of_Set_Check, elem_of_violations. naive_solver.
  - intros H. destruct (Set_Check s changed) as [|v l] eqn:E; [done |]. exfalso.
    assert (v ∈ Set_Check s changed) as Hv by (rewrite E; by left).
    rewrite elem_of_Set_Check, elem_of_violations in Hv.
    destruct Hv as (c & p & r & Hc & Hp & Hr & Hm & _). by rewrite (H c p r) in Hm.
Qed.

Lemma validate_rule_ok name i r :
  validate_rule name i r = Ok tt →
  blank (Rule_Path r) = false ∧ blank (Rule_Reason r) = false ∧ path_match (Rule_Path r) "probe" ≠ None.
Proof.
  unfold validate_rule. destruct (blank _); [done |]. destruct (blank _); [done |].
  by destruct (path_match _ _).
Qed.

Lemma Validate_ok p :
  Validate p = Ok tt →
  blank (Policy_Name p) = false ∧ Protected p ≠ [] ∧
  ∀ r, r ∈ Protected p → blank (Rule_Reason r) = false ∧ path_match (Rule_Path r) "probe" ≠ None.
Proof.
  unfold Validate. destruct (blank (Policy_Name p)); [done |].
  destruct (Protected p) as [|r0 rs] eqn:E; [done |]. rewrite <- E. intros H.
  split_and!; [done | by rewrite E |]. intros r [k Hk]%list_elem_of_lookup.
  rewrite each_i_ok in H. specialize (H _ _ Hk).
  by apply validate_rule_ok in H as (_ & ? & ?).
Qed.

Lemma load_all_valid read_file unmarshal names ps :
  load_all read_file unmarshal names = Ok ps → Forall (λ p, Validate p = Ok tt) ps.
Proof.
  revert ps. induction names as [|n names IH]; intros ps; cbn [load_all]; [by intros [= <-] |].
  destruct (load_one read_file unmarshal n) as [p|] eqn:E; [|done].
  cbn. destruct (load_all _ _ names) as [ps'|]; [|done]. intros [= <-].
  constructor; [|eauto]. unfold load_one in E. cbn in E.
  destruct (read_file n); [|done]. cbn in E. destruct (unmarshal a) as [q|]; [|done].
  destruct (Validate q) as [[]|] eqn:Ev; [by simplify_eq | done].
Qed.

(** Every policy set the loader returns is effective: whatever the
    directory holds and the YAML parser answers, each loaded policy protects
    something, each of its rules carries a reason, and no rule can be skipped
    at matching time because its glob is malformed, for any path whatever. *)
Theorem Load_effective read_file unmarshal entries s :
  Load read_file unmarshal entries = Ok s →
  ∀ p, p ∈ Policies s → Protected p ≠ [] ∧
    ∀ r, r ∈ Protected p → blank (Rule_Reason r) = false ∧
      ∀ rel, path_match (Rule_Path r) rel ≠ None.
Proof.
  unfold Load. destruct entries as [entries|e]; [|case_decide; [|done]].
  2:{ intros [= <-] p Hp. by apply not_elem_of_nil in Hp. }
  set (names := sort_strings _). cbn. destruct (load_all _ _ names) as [ps|] eqn:E; [|done].
  intros [= <-] p Hp. apply load_all_valid in E. rewrite Forall_forall in E.
  destruct (Validate_ok p (E p Hp)) as (_ & Hne & Hr). split; [done |].
  intros r Hin. destruct (Hr r Hin) as [? Hm]. split; [done |].
  intros rel Hn. apply Hm. by rewrite (path_match_malformed _ _ rel).
Qed.

Example ci_policy : Policy := mk_policy "base" [mk_rule ".github/**" "decides acceptance"].

Lemma Load_effective_witness :
  ∃ s, Load (λ _, Ok "body") (λ _, Ok ci_policy) (Ok [("p.yaml", false)]) = Ok s ∧
    ∀ p, p ∈ Policies s → Protected p ≠ [] ∧
      ∀ r, r ∈ Protected p → blank (Rule_Reason r) = false ∧
        ∀ rel, path_match (Rule_Path r) rel ≠ None.
Proof.
  eexists. split; [vm_compute; reflexivity |].
  apply (Load_effective (λ _, Ok "body") (λ _, Ok ci_policy) (Ok [("p.yaml", false)])).
  vm_compute. reflexivity.
Defined.

(** The protection check reports exactly the changed paths a rule matches,
    with that rule's policy and reason, whatever scope a task declares; its
    answer is empty if and only if no rule of any policy matches any changed
    path, and it is sorted by path. *)
Theorem Set_Check_exact s changed :
  (∀ v, v ∈ Set_Check s changed ↔
     ∃ c p r, c ∈ changed ∧ p ∈ Policies s ∧ r ∈ Protected p ∧
       matches (Rule_Path r) (trim_prefix c "./") = true ∧
       v = mk_violation (trim_prefix c "./") (Policy_Name p) (Rule_Path r) (Rule_Reason r)) ∧
  (Set_Check s changed = [] ↔
     ∀ c p r, c ∈ changed → p ∈ Policies s → r ∈ Protected p →
       matches (Rule_Path r) (trim_prefix c "./") = false) ∧
  StronglySorted (λ a b, str_ltb (V_Path b) (V_Path a) = false) (Set_Check s changed).
Proof.
  split_and!.
  - intros v. by rewrite elem_of_Set_Check, elem_of_violations.
  - apply Set_Check_nil.
  - apply stable_sort_sorted.
    + intros a b. apply str_ltb_asym.
    + intros a b c. apply str_not_less_trans.
Qed.

Lemma Covers_spec scope rel :
  Covers scope rel = true ↔
  ∃ pat, pat ∈ scope ∧ validScope pat = true ∧ (clean pat = "." ∨ matches (clean pat) rel = true).
Proof.
  induction scope as [|pat scope IH]; cbn [Covers].
  - set_solver.
  - cbv zeta. destruct (validScope pat && _) eqn:E.
    + split; [intros _|done]. apply andb_true_iff in E as [? E].
      apply orb_true_iff in E as [?%String.eqb_eq|?]; exists pat; set_solver.
    + rewrite IH. split.
      * intros (q & Hq & ?). exists q. set_solver.
      * intros (q & [->|Hq]%elem_of_cons & Hv & Hm); [|by exists q]. exfalso.
        rewrite Hv in E. cbn in E. apply orb_false_iff in E as [E1%String.eqb_neq E2].
        destruct Hm; congruence.
Qed.
