(* ===== verification/Worktree.v ===== *)
(** Task checkouts: [src/internal/worktree/worktree.go].  The first part models
    the file system the confinement functions see, symbolic links included, and
    proves that [Resolve], [ReadWithin] and [WriteWithin] stay inside the
    worktree.  The second part models the [Manager] and the [Worktree]
    operations over an arbitrary git. *)
From S2P Require Import Prelude GoStrings GoPath Policy.

Open Scope list_scope.
Open Scope nat_scope.

(** ** The file system

    A path from the root is the list of its components; a node is stored under
    its canonical path.  The root itself is a directory. *)
Notation apath := (list string).

Inductive node :=
| NDir
| NFile (body : string)
| NLink (target : string).

Notation fs := (gmap (list string) node).

#[export] Instance node_eq_dec : EqDecision node.
Proof. solve_decision. Defined.

Definition ENOENT : error := mk_error (Some "os.ErrNotExist"%string) "no such file or directory".
Definition ENOTDIR : error := errorf "not a directory".
Definition EISDIR : error := errorf "is a directory".
Definition EEXIST : error := mk_error (Some "os.ErrExist"%string) "file exists".
Definition ELOOP : error := errorf "EvalSymlinks: too many links".

Definition is_not_exist (e : error) : bool := bool_decide (err_is e = Some "os.ErrNotExist"%string).

Definition lookup_node (f : fs) (p : apath) : option node :=
  match p with [] => Some NDir | _ => f !! p end.

(** An absolute path as a string, and back. *)
Definition show_path (p : apath) : string := render_path true p.
Definition path_of (s : string) : apath := split_char slash s.

(** The walk the kernel and [filepath.EvalSymlinks] make: [stack] is the
    resolved directory so far, reversed, and [todo] the components left, with
    the links followed so far bounded.  With [create] set a missing last
    component is answered with its place instead of [ENOENT], which is how an
    open for writing finds the file to create. *)
Fixpoint walk (create : bool) (f : fs) (links : nat) (stack0 : apath) (todo0 : list string)
    : result apath :=
  (fix go (stack : apath) (todo : list string) {struct todo} : result apath :=
     match todo with
     | [] => Ok (rev stack)
     | c :: rest =>
         if String.eqb c "" || String.eqb c "." then go stack rest
         else if String.eqb c ".." then go (tl stack) rest
         else
           match lookup_node f (rev (c :: stack)) with
           | None =>
               if create && bool_decide (rest = []) then Ok (rev (c :: stack)) else Err ENOENT
           | Some NDir => go (c :: stack) rest
           | Some (NFile _) =>
               match rest with [] => Ok (rev (c :: stack)) | _ => Err ENOTDIR end
           | Some (NLink target) =>
               match links with
               | O => Err ELOOP
               | S links =>
                   walk create f links (if is_abs target then [] else stack)
                     (split_char slash target ++ rest)
               end
           end
     end) stack0 todo0.

(** [filepath.EvalSymlinks] of an absolute path: at most 255 links. *)
Definition EvalSymlinks (f : fs) (p : apath) : result apath := walk false f 255 [] p.

(** The place an open with [O_CREATE] acts on. *)
Definition open_place (f : fs) (p : apath) : result apath := walk true f 255 [] p.

Definition parent (p : apath) : apath := removelast p.

(** [os.Lstat]: the directory is resolved, the last component is not. *)
Definition Lstat (f : fs) (p : apath) : option node :=
  match last p with
  | None => Some NDir
  | Some b => match EvalSymlinks f (parent p) with
              | Ok d => lookup_node f (d ++ [b])
              | Err _ => None
              end
  end.

(** The place [os.Lstat] looks at. *)
Definition lstat_place (f : fs) (p : apath) : result apath :=
  match last p with
  | None => Ok []
  | Some b => d ← EvalSymlinks f (parent p); if decide (lookup_node f d = Some NDir) then Ok (d ++ [b]) else Err ENOTDIR
  end.

(** [os.Stat]. *)
Definition Stat (f : fs) (p : apath) : result node :=
  match EvalSymlinks f p with
  | Err e => Err e
  | Ok q => match lookup_node f q with Some n => Ok n | None => Err ENOENT end
  end.

(** [os.ReadFile] *)
Definition ReadFile (f : fs) (p : apath) : result string :=
  match Stat f p with
  | Ok (NFile body) => Ok body
  | Ok _ => Err EISDIR
  | Err e => Err e
  end.

(** [os.WriteFile] *)
Definition WriteFile (f : fs) (p : apath) (body : string) : result unit * fs :=
  match open_place f p with
  | Err e => (Err e, f)
  | Ok q => match lookup_node f q with
            | Some NDir => (Err EISDIR, f)
            | _ => (Ok tt, <[q := NFile body]> f)
            end
  end.

(** [os.Mkdir] *)
Definition Mkdir (f : fs) (p : apath) : result unit * fs :=
  match last p with
  | None => (Err EEXIST, f)
  | Some b =>
      match Stat f (parent p), EvalSymlinks f (parent p) with
      | Ok NDir, Ok d =>
          match lookup_node f (d ++ [b]) with
          | Some _ => (Err EEXIST, f)
          | None => (Ok tt, <[d ++ [b] := NDir]> f)
          end
      | Ok _, _ => (Err ENOTDIR, f)
      | Err e, _ => (Err e, f)
      end
  end.

(** [os.MkdirAll]; [rp] is the path reversed. *)
Fixpoint mkdir_all (f : fs) (rp : apath) : result unit * fs :=
  match Stat f (rev rp) with
  | Ok NDir => (Ok tt, f)
  | Ok _ => (Err ENOTDIR, f)
  | Err _ =>
      match rp with
      | [] => (Ok tt, f)
      | b :: up =>
          match mkdir_all f up with
          | (Err e, f) => (Err e, f)
          | (Ok _, f) =>
              match Mkdir f (rev rp) with
              | (Ok _, f) => (Ok tt, f)
              | (Err e, f) =>
                  match Lstat f (rev rp) with Some NDir => (Ok tt, f) | _ => (Err e, f) end
              end
          end
      end
  end.
Definition MkdirAll (f : fs) (p : apath) : result unit * fs := mkdir_all f (rev p).

(** The path of [p] below [root]. *)
Definition below (root p : apath) : option apath :=
  if decide (take (length root) p = root) then Some (drop (length root) p) else None.

(** ** Confinement *)

(** [worktree/worktree.go:432-432 ErrOutside] *)
Definition ErrOutside (msg : string) : error :=
  mk_error (Some "path is outside the worktree"%string) ("path is outside the worktree: " +:+ msg)%string.

(** [worktree/worktree.go:488-490 inside] *)
Definition inside (root path : apath) : bool :=
  String.eqb (show_path path) (show_path root)
  || has_prefix (show_path path) (show_path root +:+ "/").

(** [worktree/worktree.go:459-484 Resolve] its loop: the ancestor reversed, and
    the components below it. *)
Fixpoint resolve_up (f : fs) (root : apath) (rel : string) (ranc suffix : apath) : result apath :=
  match EvalSymlinks f (rev ranc) with
  | Ok resolved =>
      if negb (inside root resolved)
      then Err (ErrOutside (rel +:+ " resolves outside via a symlink")%string)
      else Ok (resolved ++ suffix)
  | Err e =>
      if negb (is_not_exist e) then Err e
      else match Lstat f (rev ranc) with
           | Some (NLink _) => Err (ErrOutside ("dangling symlink in " +:+ rel)%string)
           | _ => match ranc with
                  | [] => Err e
                  | b :: up => resolve_up f root rel up (b :: suffix)
                  end
           end
  end.

(** [worktree/worktree.go:439-486 Resolve] *)
Definition Resolve (f : fs) (worktreePath rel : string) : result apath :=
  if String.eqb rel "" then Err (ErrOutside "empty path")
  else if is_abs rel then Err (ErrOutside (rel +:+ " is absolute")%string)
  else
    root ← EvalSymlinks f (path_of worktreePath);
    let full := clean_comps true (rev root) (split_char slash rel) in
    if negb (inside root full) then Err (ErrOutside rel)
    else resolve_up f root rel (rev full) [].

(** [worktree/worktree.go:493-499 ReadWithin] *)
Definition ReadWithin (f : fs) (worktreePath rel : string) : result string :=
  full ← Resolve f worktreePath rel; ReadFile f full.

(** [worktree/worktree.go:502-511 WriteWithin] *)
Definition WriteWithin (f : fs) (worktreePath rel body : string) : result unit * fs :=
  match Resolve f worktreePath rel with
  | Err e => (Err e, f)
  | Ok full =>
      match MkdirAll f (parent full) with
      | (Err e, f) => (Err e, f)
      | (Ok _, f) => WriteFile f full body
      end
  end.

(** [worktree/worktree.go:514-520 StatWithin] *)
Definition StatWithin (f : fs) (worktreePath rel : string) : result node :=
  full ← Resolve f worktreePath rel; Stat f full.

(** [worktree/worktree.go:523-529 ListWithin] the names under the directory. *)
Definition ListWithin (f : fs) (worktreePath rel : string) : result (list apath) :=
  full ← Resolve f worktreePath rel;
  match Stat f full with
  | Ok NDir =>
      q ← EvalSymlinks f full;
      mret (filter (λ p, p ≠ [] ∧ parent p = q) (fst <$> map_to_list f))
  | Ok _ => Err ENOTDIR
  | Err e => Err e
  end.

(** *** Canonical paths *)

Lemma walk_eq c f links stack todo :
  walk c f links stack todo =
  match todo with
  | [] => Ok (rev stack)
  | x :: rest =>
      if String.eqb x "" || String.eqb x "." then walk c f links stack rest
      else if String.eqb x ".." then walk c f links (tl stack) rest
      else match lookup_node f (rev (x :: stack)) with
           | None => if c && bool_decide (rest = []) then Ok (rev (x :: stack)) else Err ENOENT
           | Some NDir => walk c f links (x :: stack) rest
           | Some (NFile _) => match rest with [] => Ok (rev (x :: stack)) | _ => Err ENOTDIR end
           | Some (NLink target) =>
               match links with
               | O => Err ELOOP
               | S links => walk c f links (if is_abs target then [] else stack)
                              (split_char slash target ++ rest)
               end
           end
  end.
Proof. by destruct links, todo. Qed.

(** A component that is a name, and neither a dot nor a double dot. *)
Definition plain (c : string) : Prop :=
  slash_free c ∧ c ≠ ""%string ∧ c ≠ "."%string ∧ c ≠ ".."%string.

(** [settled f p]: every directory above [p] is a real directory and [p] is not
    a symbolic link, so an access to [p] acts on [p] itself. *)
Record settled (f : fs) (p : apath) : Prop := {
  settled_plain : Forall plain p;
  settled_dirs : ∀ q b r, p = q ++ b :: r → lookup_node f q = Some NDir;
  settled_nolink : ∀ t, lookup_node f p ≠ Some (NLink t);
}.

Definition real_dir (f : fs) (p : apath) : Prop :=
  settled f p ∧ lookup_node f p = Some NDir.

Lemma real_dir_root f : real_dir f [].
Proof. split; [|done]. split; [done | by intros [] | done]. Qed.

Lemma settled_parent f q b r : settled f (q ++ b :: r) → real_dir f q.
Proof.
  intros [Hp Hd _]. split; [|by eapply Hd].
  split.
  - by apply Forall_app in Hp as [? _].
  - intros q' b' r' ->. eapply (Hd q' b' (r' ++ b :: r)). by rewrite <- app_assoc.
  - intros t H. specialize (Hd q b r eq_refl). congruence.
Qed.

Lemma settled_child f q b :
  real_dir f q → plain b → (∀ t, lookup_node f (q ++ [b]) ≠ Some (NLink t)) → settled f (q ++ [b]).
Proof.
  intros [[Hp Hd Hn] Hq] Hb Hl. split; [by apply Forall_app_2; [|constructor] | | done].
  intros q' b' r Heq. destruct r as [|c r] using rev_ind.
  - apply app_inj_tail in Heq as [-> ->]. done.
  - rewrite app_comm_cons, app_assoc in Heq. apply app_inj_tail in Heq as [-> _]. by eapply Hd.
Qed.

Lemma real_dir_tl f stack : real_dir f (rev stack) → real_dir f (rev (tl stack)).
Proof.
  destruct stack as [|b stack]; [done |]. simpl. intros [H _]. by apply settled_parent in H.
Qed.

Lemma split_char_plain (c : string) : slash_free c →
  (String.eqb c "" || String.eqb c ".") = false → String.eqb c ".." = false → plain c.
Proof.
  intros Hc [H1%String.eqb_neq H2%String.eqb_neq]%orb_false_iff H3%String.eqb_neq. done.
Qed.

(** Every answer of the walk is settled, and exists unless it was asked where
    to create a file. *)
Lemma walk_settled c f links stack todo q :
  real_dir f (rev stack) → Forall slash_free todo →
  walk c f links stack todo = Ok q →
  settled f q ∧ (c = false → lookup_node f q ≠ None).
Proof.
  revert stack todo. induction links as [links IHl] using lt_wf_ind.
  intros stack todo. revert stack. induction todo as [|x rest IH]; intros stack Hs Hf;
    rewrite walk_eq; [intros [= <-]; destruct Hs as [? E]; split; [done | intros _; by rewrite E] |].
  apply Forall_cons in Hf as [Hx Hf].
  destruct (_ || _) eqn:E1; [by apply IH |].
  destruct (String.eqb x "..") eqn:E2; [by apply IH, Hf; apply real_dir_tl |].
  pose proof (split_char_plain x Hx E1 E2) as Hpl. simpl rev.
  destruct (lookup_node f (rev stack ++ [x])) as [[| |t]|] eqn:El.
  - apply IH; [|done]. simpl. split; [|done]. apply settled_child; [done..|]. congruence.
  - destruct rest; [|done]. intros [= <-]. split; [|congruence].
    apply settled_child; [done..|]. congruence.
  - destruct links as [|links]; [done |]. apply IHl; [lia | |].
    + destruct (is_abs t); [apply real_dir_root | done].
    + apply Forall_app. split; [apply split_char_slash_free | done].
  - destruct (_ && _) eqn:E; [|done]. intros [= <-]. split; [|by destruct c].
    apply settled_child; [done..|]. congruence.
Qed.

(** On a settled path the walk is the identity: no link is ever followed. *)
Lemma walk_identity c f links stack todo :
  Forall plain todo → (∀ q b r, todo = q ++ b :: r → lookup_node f (rev stack ++ q) = Some NDir) →
  (∀ t, lookup_node f (rev stack ++ todo) ≠ Some (NLink t)) →
  (c = true ∨ lookup_node f (rev stack ++ todo) ≠ None ∨ todo = []) →
  walk c f links stack todo = Ok (rev stack ++ todo).
Proof.
  revert stack. induction todo as [|x rest IH]; intros stack Hp Hd Hn He; rewrite walk_eq.
  { by rewrite app_nil_r. }
  apply Forall_cons in Hp as [(_ & Hx1 & Hx2 & Hx3) Hp].
  apply String.eqb_neq in Hx1, Hx2, Hx3. rewrite Hx1, Hx2, Hx3. simpl.
  destruct rest as [|y rest].
  - simpl in *. destruct (lookup_node f (rev stack ++ [x])) as [[| |t]|] eqn:El.
    + by rewrite walk_eq.
    + done.
    + by destruct (Hn t).
    + by destruct He as [->|[?|?]].
  - rewrite (Hd [x] y rest eq_refl). rewrite (IH (x :: stack)); simpl; rewrite <- ?app_assoc; try done.
    + intros q b r Hq. rewrite <- app_assoc. apply (Hd (x :: q) b r). by rewrite Hq.
    + destruct He as [?|[?|?]]; [by left | by right; left | done].
Qed.

Lemma EvalSymlinks_settled f p q : Forall slash_free p →
  EvalSymlinks f p = Ok q → settled f q ∧ lookup_node f q ≠ None.
Proof.
  intros Hp H. apply walk_settled in H as [? H]; [by auto | apply real_dir_root | done].
Qed.

Lemma EvalSymlinks_id f p : settled f p → lookup_node f p ≠ None → EvalSymlinks f p = Ok p.
Proof.
  intros [Hp Hd Hn] He. apply (walk_identity false f 255 [] p); simpl; auto.
Qed.

Lemma open_place_id f p : settled f p → open_place f p = Ok p.
Proof. intros [Hp Hd Hn]. apply (walk_identity true f 255 [] p); simpl; auto. Qed.

Lemma walk_missing f links stack todo :
  Forall plain todo → todo ≠ [] →
  (∀ q b r, todo = q ++ b :: r → lookup_node f (rev stack ++ q) = Some NDir) →
  lookup_node f (rev stack ++ todo) = None → walk false f links stack todo = Err ENOENT.
Proof.
  revert stack. induction todo as [|x rest IH]; intros stack Hp Hne Hd Hn; [done |].
  rewrite walk_eq. apply Forall_cons in Hp as [(_ & Hx1 & Hx2 & Hx3) Hp].
  apply String.eqb_neq in Hx1, Hx2, Hx3. rewrite Hx1, Hx2, Hx3. simpl.
  destruct rest as [|y rest]; [by rewrite Hn |].
  rewrite (Hd [x] y rest eq_refl). apply IH; [done | done | |].
  - intros q b r Hq. simpl. rewrite <- app_assoc. apply (Hd (x :: q) b r). by rewrite Hq.
  - simpl. by rewrite <- app_assoc.
Qed.

Lemma EvalSymlinks_missing f p : settled f p → lookup_node f p = None → EvalSymlinks f p = Err ENOENT.
Proof.
  intros [Hp Hd Hn] He. apply (walk_missing f 255 [] p); [done | by intros -> | exact Hd | exact He].
Qed.

Lemma EvalSymlinks_settled_inv f p q : settled f p → EvalSymlinks f p = Ok q → q = p.
Proof.
  intros Hs H. destruct (lookup_node f p) eqn:E.
  - rewrite EvalSymlinks_id in H by (done || congruence). congruence.
  - by rewrite EvalSymlinks_missing in H.
Qed.

Lemma real_dir_settled f d : real_dir f d → settled f d.
Proof. by intros [? _]. Qed.

(** One component more: when the walk to [todo] ends at [d] and the walk to one
    name below it finds nothing, [d] is a directory and the name is missing in
    it, or a link. *)
Lemma walk_snoc_missing f links stack todo d b e :
  real_dir f (rev stack) → Forall slash_free todo → plain b →
  walk false f links stack todo = Ok d →
  walk false f links stack (todo ++ [b]) = Err e → is_not_exist e = true →
  real_dir f d ∧ (lookup_node f (d ++ [b]) = None ∨ ∃ t, lookup_node f (d ++ [b]) = Some (NLink t)).
Proof.
  revert stack todo. induction links as [links IHl] using lt_wf_ind.
  intros stack todo. revert stack. induction todo as [|x rest IH]; intros stack Hs Hf Hb;
    rewrite (walk_eq _ _ _ _ (_ ++ _)), walk_eq.
  - intros [= <-]. simpl. destruct Hb as (_ & Hx1 & Hx2 & Hx3).
    apply String.eqb_neq in Hx1, Hx2, Hx3. rewrite Hx1, Hx2, Hx3. simpl.
    destruct (lookup_node f (rev stack ++ [b])) as [[| |t]|] eqn:E; [by rewrite walk_eq | done | eauto | eauto].
  - apply Forall_cons in Hf as [Hx Hf]. simpl app. cbv iota beta.
    destruct (_ || _) eqn:E1; [by apply IH |].
    destruct (String.eqb x "..") eqn:E2; [by apply IH; [apply real_dir_tl | ..] |].
    pose proof (split_char_plain x Hx E1 E2) as Hpl. simpl rev.
    destruct (lookup_node f (rev stack ++ [x])) as [[| |t]|] eqn:El.
    + apply IH; [|done..]. simpl. split; [|done]. apply settled_child; [done..|]. congruence.
    + destruct rest; [|done]. simpl. intros _ [= <-]. done.
    + destruct links as [|links]; [done |]. rewrite app_assoc. apply IHl; [lia | | | done].
      * destruct (is_abs t); [apply real_dir_root | done].
      * apply Forall_app. split; [apply split_char_slash_free | done].
    + done.
Qed.

(** [placed f p]: [p] is an existing path without links, or such a directory
    followed by names the first of which does not exist in it. *)
Definition placed (f : fs) (p : apath) : Prop :=
  ∃ d suffix, p = d ++ suffix ∧ settled f d ∧ lookup_node f d ≠ None ∧ Forall plain suffix ∧
    match suffix with [] => True | b :: _ => real_dir f d ∧ lookup_node f (d ++ [b]) = None end.

Lemma clean_comps_plain stack todo :
  Forall plain stack → Forall slash_free todo → Forall plain (clean_comps true stack todo).
Proof.
  revert stack. induction todo as [|x rest IH]; intros stack Hs Hf; cbn [clean_comps].
  { by apply Forall_rev. }
  apply Forall_cons in Hf as [Hx Hf].
  destruct (_ || _) eqn:E1; [by apply IH |].
  destruct (String.eqb x "..") eqn:E2.
  - destruct stack as [|top stack]; [by apply IH |]. apply Forall_cons in Hs as [Ht Hs].
    destruct (String.eqb_spec top "..") as [->|_]; [|by apply IH].
    by destruct Ht as (_ & _ & _ & ?).
  - apply IH; [|done]. constructor; [by apply split_char_plain | done].
Qed.

Lemma split_show p : p ≠ [] → Forall plain p → split_char slash (show_path p) = ""%string :: p.
Proof.
  intros Hne Hp. unfold show_path, render_path.
  change (("/" +:+ join "/" p)%string) with ((""%string +:+ "/" +:+ join "/" p)%string).
  rewrite split_char_app_slash, split_char_join; [done | done |].
  eapply Forall_impl; [exact Hp |]. by intros ? [? _].
Qed.

Lemma inside_spec root p :
  Forall plain root → Forall plain p → inside root p = true → ∃ s, p = root ++ s.
Proof.
  intros Hr Hp. unfold inside. rewrite orb_true_iff.
  destruct root as [|c root]; [eauto |].
  assert (Hroot := split_show (c :: root) ltac:(done) Hr).
  intros [H%String.eqb_eq | (t & H)%has_prefix_spec].
  - exists []. rewrite app_nil_r. destruct p as [|d p].
    + exfalso. apply (f_equal (split_char slash)) in H. rewrite Hroot in H.
      change (split_char slash (show_path [])) with [""%string; ""%string] in H.
      injection H as <- _. apply Forall_cons in Hr as [(_ & ? & _) _]. done.
    + apply (f_equal (split_char slash)) in H.
      rewrite Hroot, split_show in H by done. congruence.
  - apply (f_equal (split_char slash)) in H.
    rewrite app_str_assoc, split_char_app_slash, Hroot in H.
    destruct p as [|d p].
    + exfalso. change (split_char slash (show_path [])) with [""%string; ""%string] in H.
      injection H as <- _. apply Forall_cons in Hr as [(_ & ? & _) _]. done.
    + rewrite split_show in H by done. injection H as -> ->. eauto.
Qed.

Lemma resolve_up_placed f root rel ranc suffix full :
  Forall plain ranc → Forall plain suffix → Forall plain root →
  match suffix with
  | [] => True
  | b :: _ => (∀ d, EvalSymlinks f (rev ranc) = Ok d → real_dir f d ∧ lookup_node f (d ++ [b]) = None)
  end →
  resolve_up f root rel ranc suffix = Ok full →
  placed f full ∧ ∃ s, full = root ++ s.
Proof.
  intros Hranc Hsuf Hroot. revert suffix Hsuf. induction ranc as [|b up IH]; intros suffix Hsuf Hm.
  all: cbn [resolve_up]; match goal with |- context [EvalSymlinks ?g ?x] => destruct (EvalSymlinks g x) as [d|e] eqn:E end.
  1,3: destruct (inside root d) eqn:Ei; cbn [negb]; [|discriminate]; intros [= <-];
    assert (settled f d ∧ lookup_node f d ≠ None) as [Hd He];
    [ eapply EvalSymlinks_settled; [|exact E]; apply Forall_rev; eapply Forall_impl; [exact Hranc|];
      by intros ? [? _] |];
    destruct (inside_spec root d Hroot (settled_plain _ _ Hd) Ei) as [s ->];
    (split; [|exists (s ++ suffix); by rewrite app_assoc]);
    (exists (root ++ s), suffix; split_and!; [done | done | done | done |]);
    (destruct suffix; [done | by apply Hm]).
  all: destruct (is_not_exist e) eqn:Ee; [|done]; cbn [negb].
  { by destruct (Lstat f _) as [[]|]. }
  apply Forall_cons in Hranc as [Hb Hup].
  destruct (Lstat f _) as [[| |t]|] eqn:El; [| |done|]; (apply IH; [done | by constructor |]);
    intros d Hd; unfold Lstat, parent in El; simpl in E, El;
    rewrite last_snoc, removelast_last, Hd in El;
    destruct (walk_snoc_missing f 255 [] (rev up) d b e) as [? [?|[t Ht]]];
    try apply real_dir_root; try done; try congruence;
    apply Forall_rev; (eapply Forall_impl; [exact Hup|]); by intros ? [? _].
Qed.

Lemma Resolve_placed f wt rel full :
  Resolve f wt rel = Ok full →
  ∃ root, EvalSymlinks f (path_of wt) = Ok root ∧ settled f root ∧ lookup_node f root ≠ None ∧
    placed f full ∧ ∃ s, full = root ++ s.
Proof.
  unfold Resolve. destruct (String.eqb rel ""); [done |]. destruct (is_abs rel); [done |].
  destruct (EvalSymlinks f (path_of wt)) as [root|] eqn:Er; [|done]. cbn.
  destruct (EvalSymlinks_settled f (path_of wt) root) as [Hs He]; [apply split_char_slash_free | done |].
  destruct (inside root _); [|done]. cbn. intros H.
  exists root. split_and!; [done..| |].
  all: eapply resolve_up_placed in H; [by apply H | | done | apply Hs | done].
  all: apply Forall_rev, clean_comps_plain; [apply Forall_rev, Hs | apply split_char_slash_free].
Qed.

Lemma walk_missing_below f links stack todo b more :
  Forall plain todo → plain b →
  (∀ q c r, todo = q ++ c :: r → lookup_node f (rev stack ++ q) = Some NDir) →
  lookup_node f (rev stack ++ todo) = Some NDir →
  lookup_node f (rev stack ++ todo ++ [b]) = None →
  walk false f links stack (todo ++ b :: more) = Err ENOENT.
Proof.
  revert stack. induction todo as [|x rest IH]; intros stack Hp Hb Hd He Hn; rewrite walk_eq; simpl.
  - destruct Hb as (_ & Hx1 & Hx2 & Hx3). apply String.eqb_neq in Hx1, Hx2, Hx3.
    rewrite Hx1, Hx2, Hx3. simpl in *. by rewrite Hn.
  - apply Forall_cons in Hp as [(_ & Hx1 & Hx2 & Hx3) Hp].
    apply String.eqb_neq in Hx1, Hx2, Hx3. rewrite Hx1, Hx2, Hx3. simpl.
    assert (lookup_node f (rev stack ++ [x]) = Some NDir) as ->.
    { destruct rest as [|y rest]; [done |]. apply (Hd [x] y rest eq_refl). }
    apply IH; simpl; rewrite <- ?app_assoc; try done.
    intros q c r Hq. rewrite <- app_assoc. apply (Hd (x :: q) c r). by rewrite Hq.
Qed.

Lemma EvalSymlinks_placed f p q : placed f p → EvalSymlinks f p = Ok q → q = p.
Proof.
  intros (d & [|b more] & -> & Hd & He & Hp & Hm) H.
  - rewrite app_nil_r in *. by eapply EvalSymlinks_settled_inv.
  - destruct Hm as [[[Hpl Hdirs _] Hdir] Hn]. apply Forall_cons in Hp as [Hb Hp].
    unfold EvalSymlinks in H. rewrite (walk_missing_below f 255 [] d b more) in H; try done.
Qed.

(** A path the worktree resolver returns lies below the canonical root of
    the worktree, and an access to it acts on that very path: no symbolic
    link, dot-dot component or absolute path in a name a model supplies leads
    the access anywhere else. *)
Theorem Resolve_confined f wt rel full :
  Resolve f wt rel = Ok full →
  ∃ root, EvalSymlinks f (path_of wt) = Ok root ∧ (∃ s, full = root ++ s) ∧
    ∀ q, EvalSymlinks f full = Ok q → q = full.
Proof.
  intros H. destruct (Resolve_placed _ _ _ _ H) as (root & Hr & _ & _ & Hp & Hs).
  exists root. split_and!; [done | done |]. intros q. by apply EvalSymlinks_placed.
Qed.

(** A checkout with a link to a directory inside it and one that leads out. *)
Definition demo_fs : fs :=
  {[ ["wt"] := NDir; ["wt"; "sub"] := NDir; ["wt"; "in"] := NLink "sub/";
     ["wt"; "out"] := NLink "../etc"; ["etc"] := NDir ]}.

Lemma Resolve_confined_witness :
  Resolve demo_fs "/wt" "in/new/a.go" = Ok ["wt"; "sub"; "new"; "a.go"] ∧
  Resolve demo_fs "/wt" "out/passwd" = Err (ErrOutside "out/passwd resolves outside via a symlink") ∧
  ∃ root, EvalSymlinks demo_fs (path_of "/wt") = Ok root ∧
    (∃ s, ["wt"; "sub"; "new"; "a.go"] = root ++ s) ∧
    ∀ q, EvalSymlinks demo_fs ["wt"; "sub"; "new"; "a.go"] = Ok q → q = ["wt"; "sub"; "new"; "a.go"].
Proof.
  split_and!; [vm_compute; reflexivity | vm_compute; reflexivity |].
  apply (Resolve_confined demo_fs "/wt" "in/new/a.go"). vm_compute. reflexivity.
Defined.

(** *** Writing *)

(** What stands in a directory has that directory: the shape of a real tree. *)
Definition well_formed (f : fs) : Prop :=
  ∀ p b, f !! (p ++ [b]) ≠ None → lookup_node f p = Some NDir.

Lemma lookup_node_ne f p : p ≠ [] → lookup_node f p = f !! p.
Proof. by destruct p. Qed.

Lemma well_formed_below f p q : well_formed f → p ≠ [] → f !! p = None → f !! (p ++ q) = None.
Proof.
  intros Hw Hne Hn. induction q as [|b q IH] using rev_ind; [by rewrite app_nil_r |].
  rewrite app_assoc. destruct (f !! ((p ++ q) ++ [b])) eqn:E; [|done].
  assert (lookup_node f (p ++ q) = Some NDir) as H by (apply (Hw _ b); congruence).
  rewrite lookup_node_ne, IH in H by (by destruct p). done.
Qed.

Lemma lookup_node_insert f p n : p ≠ [] → lookup_node (<[p := n]> f) p = Some n.
Proof. intros. rewrite lookup_node_ne by done. by rewrite lookup_insert_eq. Qed.
Lemma lookup_node_insert_ne f p q n : p ≠ q → lookup_node (<[p := n]> f) q = lookup_node f q.
Proof. destruct q; [done |]. simpl. intros. by rewrite lookup_insert_ne. Qed.

Lemma well_formed_insert f p b n :
  well_formed f → lookup_node f p = Some NDir → lookup_node f (p ++ [b]) ≠ Some NDir ∨ n = NDir →
  well_formed (<[p ++ [b] := n]> f).
Proof.
  intros Hw Hp Hn q c Hq. destruct (decide (p ++ [b] = q ++ [c])) as [He|Hne].
  - apply app_inj_tail in He as [-> ->]. rewrite lookup_node_insert_ne; [done |].
    intros He. apply (f_equal length) in He. rewrite length_app in He. simpl in He. lia.
  - rewrite lookup_insert_ne in Hq by done. apply Hw in Hq.
    destruct (decide (p ++ [b] = q)) as [<-|?]; [|by rewrite lookup_node_insert_ne].
    rewrite lookup_node_insert by (by destruct p). destruct Hn as [?| ->]; [congruence | done].
Qed.

(** [f'] is [f] with some missing entries added. *)
Definition grows (f f' : fs) : Prop :=
  ∀ p n, lookup_node f p = Some n → lookup_node f' p = Some n.

Lemma real_dir_grows f f' p : grows f f' → real_dir f p → real_dir f' p.
Proof.
  intros Hg [[Hp Hd Hn] He]. split; [|by apply Hg].
  split; [done | |].
  - intros q b r Hq. apply Hg. by eapply Hd.
  - intros t. rewrite (Hg _ _ He). done.
Qed.

Lemma grows_insert f p n : f !! p = None → p ≠ [] → grows f (<[p := n]> f).
Proof.
  intros Hn Hne q m Hq. rewrite lookup_node_insert_ne; [done |]. intros <-.
  rewrite lookup_node_ne in Hq by done. congruence.
Qed.

Lemma real_dir_stat f d : real_dir f d → Stat f d = Ok NDir ∧ EvalSymlinks f d = Ok d.
Proof.
  intros [Hs He]. unfold Stat. rewrite (EvalSymlinks_id f d) by (done || congruence).
  by rewrite He.
Qed.

Lemma Mkdir_fresh f d b : real_dir f d → f !! (d ++ [b]) = None →
  Mkdir f (d ++ [b]) = (Ok tt, <[d ++ [b] := NDir]> f).
Proof.
  intros Hd Hn. unfold Mkdir, parent. rewrite last_snoc, removelast_last.
  destruct (real_dir_stat f d Hd) as [-> ->]. rewrite lookup_node_ne by (by destruct d). by rewrite Hn.
Qed.

(** Missing directories below a real one are made, and nothing else changes. *)
Lemma mkdir_all_fresh f d b s :
  well_formed f → real_dir f d → Forall plain (b :: s) → f !! (d ++ [b]) = None →
  ∃ f', mkdir_all f (rev (d ++ b :: s)) = (Ok tt, f') ∧ well_formed f' ∧ grows f f' ∧
    real_dir f' (d ++ b :: s) ∧
    ∀ p, f' !! p ≠ f !! p → f !! p = None ∧ f' !! p = Some NDir ∧ ∃ r t, p = d ++ b :: r ∧ b :: s = b :: r ++ t.
Proof.
  intros Hw Hd Hp Hn. apply Forall_cons in Hp as [Hb Hp].
  assert (Hmiss : ∀ more, Stat f (d ++ b :: more) = Err ENOENT).
  { intros more. unfold Stat, EvalSymlinks. destruct Hd as [[Hpl Hdirs _] Hdir].
    rewrite (walk_missing_below f 255 [] d b more); try done.
    simpl. by rewrite lookup_node_ne by (by destruct d). }
  induction s as [|c s IH] using rev_ind.
  - exists (<[d ++ [b] := NDir]> f).
    rewrite rev_app_distr. cbn [rev app mkdir_all]. rewrite rev_involutive.
    replace (rev (b :: rev d)) with (d ++ [b]) by (simpl; by rewrite rev_involutive).
    rewrite Hmiss.
    assert (mkdir_all f (rev d) = (Ok tt, f)) as ->.
    { destruct (rev d) as [|x y] eqn:Er; cbn [mkdir_all]; rewrite <- ?Er, ?rev_involutive.
      - assert (d = []) as -> by (by rewrite <- (rev_involutive d), Er).
        by rewrite (proj1 (real_dir_stat _ _ Hd)).
      - by rewrite (proj1 (real_dir_stat _ _ Hd)). }
    rewrite Mkdir_fresh by done. split_and!; try done.
    + apply well_formed_insert; [done | apply Hd | by right].
    + apply grows_insert; [done | by destruct d].
    + split; [|apply lookup_node_insert; by destruct d].
      apply settled_child; [|done|].
      * eapply real_dir_grows; [|done]. apply grows_insert; [done | by destruct d].
      * intros t. by rewrite lookup_node_insert by (by destruct d).
    + intros p. destruct (decide (p = d ++ [b])) as [->|Hne].
      * rewrite lookup_insert_eq. intros _. split_and!; [done..|]. by exists [], [].
      * by rewrite lookup_insert_ne.
  - apply Forall_app in Hp as [Hs Hc]. apply Forall_cons in Hc as [Hc _].
    destruct (IH Hs) as (f1 & E1 & Hw1 & Hg1 & Hr1 & Hch). clear IH.
    assert (Hfull : d ++ b :: s ++ [c] = (d ++ b :: s) ++ [c]) by (by rewrite <- app_assoc).
    assert (Hn0 : f !! (d ++ b :: s ++ [c]) = None).
    { replace (d ++ b :: s ++ [c]) with ((d ++ [b]) ++ s ++ [c]) by (by rewrite <- app_assoc).
      apply well_formed_below; [done | by destruct d | done]. }
    assert (Hn1 : f1 !! ((d ++ b :: s) ++ [c]) = None).
    { destruct (decide (f1 !! ((d ++ b :: s) ++ [c]) = f !! ((d ++ b :: s) ++ [c]))) as [->|Hne].
      - by rewrite <- Hfull.
      - destruct (Hch _ Hne) as (_ & _ & r & t & He & Ht). exfalso.
        rewrite <- Hfull in He. apply app_inv_head in He. injection He as He. injection Ht as Ht.
        subst s. apply (f_equal length) in He. rewrite !length_app in He. simpl in He. lia. }
    exists (<[(d ++ b :: s) ++ [c] := NDir]> f1).
    rewrite Hfull, rev_app_distr. cbn [rev app mkdir_all]. rewrite rev_involutive.
    replace (rev (c :: rev (d ++ b :: s))) with ((d ++ b :: s) ++ [c]) by (simpl; by rewrite rev_involutive).
    rewrite <- Hfull at 1. rewrite Hmiss, E1, Mkdir_fresh by done.
    assert (Hg2 : grows f1 (<[(d ++ b :: s) ++ [c] := NDir]> f1)).
    { apply grows_insert; [done | by destruct d]. }
    split_and!; [done | | | |].
    + apply well_formed_insert; [done | apply Hr1 | by right].
    + intros p n Hp. by apply Hg2, Hg1.
    + split; [|apply lookup_node_insert; by destruct d].
      apply settled_child; [exact (real_dir_grows _ _ _ Hg2 Hr1) | exact Hc |].
      intros t. by rewrite lookup_node_insert by (by destruct d).
    + intros p. destruct (decide (p = (d ++ b :: s) ++ [c])) as [->|Hne].
      * rewrite lookup_insert_eq, <- Hfull. intros _. split_and!; [done..|]. exists (s ++ [c]), [].
        by rewrite app_nil_r.
      * rewrite lookup_insert_ne by done. intros H. destruct (Hch _ H) as (? & ? & r & t & -> & Ht).
        split_and!; [done..|]. exists r, (t ++ [c]). split; [done |].
        injection Ht as Ht. by rewrite Ht, <- app_assoc.
Qed.

Lemma mkdir_all_dir f d : real_dir f d → mkdir_all f (rev d) = (Ok tt, f).
Proof.
  intros Hd. destruct (rev d) as [|x y] eqn:Er; cbn [mkdir_all]; rewrite <- ?Er, ?rev_involutive.
  - assert (d = []) as -> by (by rewrite <- (rev_involutive d), Er).
    by rewrite (proj1 (real_dir_stat _ _ Hd)).
  - by rewrite (proj1 (real_dir_stat _ _ Hd)).
Qed.

(** What a write may change: the file itself, and directories on the way to it
    that did not exist. *)
Definition only_makes (f f' : fs) (full : apath) : Prop :=
  ∀ p, f' !! p ≠ f !! p →
    p = full ∨ (p ≠ [] ∧ f !! p = None ∧ f' !! p = Some NDir ∧ ∃ t, t ≠ [] ∧ full = p ++ t).

Lemma grows_refl f : grows f f.
Proof. by intros p n. Qed.
Lemma only_makes_refl f p : only_makes f f p.
Proof. by intros q []. Qed.
#[local] Hint Resolve grows_refl only_makes_refl : core.

(** Making the parent of a placed path leaves the path settled. *)
Lemma MkdirAll_parent f p :
  well_formed f → placed f p → lookup_node f p ≠ Some NDir →
  ∃ q b f1, p = q ++ [b] ∧ MkdirAll f (parent p) = (Ok tt, f1) ∧ well_formed f1 ∧ real_dir f1 q ∧
    settled f1 p ∧ lookup_node f1 p ≠ Some NDir ∧ grows f f1 ∧ only_makes f f1 p.
Proof.
  intros Hw (d & suffix & -> & Hd & He & Hp & Hm) Hnd.
  destruct suffix as [|b more].
  - rewrite app_nil_r in *. destruct d as [|x d _] using rev_ind; [done |].
    exists d, x, f. unfold MkdirAll, parent. rewrite removelast_last.
    pose proof (settled_parent f d x [] Hd) as Hr. rewrite mkdir_all_dir by done.
    split_and!; auto.
  - destruct Hm as [Hr Hn]. rewrite lookup_node_ne in Hn by (by destruct d).
    destruct more as [|c m _] using rev_ind.
    + exists d, b, f. unfold MkdirAll, parent. rewrite removelast_last, mkdir_all_dir by done.
      apply Forall_cons in Hp as [Hb _].
      assert (lookup_node f (d ++ [b]) = None) as Hn' by (by rewrite lookup_node_ne by (by destruct d)).
      split_and!; auto.
      apply settled_child; [done | done | by rewrite Hn'].
    + rewrite app_comm_cons in *. apply Forall_app in Hp as [Hp Hc]. apply Forall_cons in Hc as [Hc _].
      destruct (mkdir_all_fresh f d b m Hw Hr Hp Hn) as (f1 & E & Hw1 & Hg & Hr1 & Hch).
      exists (d ++ b :: m), c, f1. unfold MkdirAll, parent. rewrite app_assoc, removelast_last, E.
      assert (lookup_node f1 ((d ++ b :: m) ++ [c]) = None) as Hn1.
      { rewrite lookup_node_ne by (by destruct d).
        destruct (decide (f1 !! ((d ++ b :: m) ++ [c]) = f !! ((d ++ b :: m) ++ [c]))) as [->|Hne].
        - replace ((d ++ b :: m) ++ [c]) with ((d ++ [b]) ++ m ++ [c]) by (by rewrite <- !app_assoc).
          apply well_formed_below; [done | by destruct d | done].
        - destruct (Hch _ Hne) as (_ & _ & r & t & He' & Ht). exfalso.
          rewrite <- app_assoc in He'. apply app_inv_head in He'. injection He' as He'. injection Ht as Ht.
          subst m. apply (f_equal length) in He'. rewrite !length_app in He'. simpl in He'. lia. }
      split_and!; try done.
      * apply settled_child; [done | done | by rewrite Hn1].
      * by rewrite Hn1.
      * intros p Hne. destruct (Hch p Hne) as (? & ? & r & t & -> & Ht). right. split_and!; [by destruct d | done..|].
        exists (t ++ [c]). split; [by destruct t |]. injection Ht as ->.
        by rewrite <- !app_assoc, <- app_comm_cons, <- app_assoc.
Qed.

(** [f'] keeps the directories and links of [f], and files stay files. *)
Definition same_shape (f f' : fs) : Prop :=
  ∀ p n, lookup_node f p = Some n →
    lookup_node f' p = Some n ∨ ∃ b b', n = NFile b ∧ lookup_node f' p = Some (NFile b').

Lemma WriteWithin_does f wt rel body full :
  well_formed f → Resolve f wt rel = Ok full → lookup_node f full ≠ Some NDir →
  ∃ f', WriteWithin f wt rel body = (Ok tt, f') ∧ well_formed f' ∧ settled f' full ∧
    f' !! full = Some (NFile body) ∧ only_makes f f' full ∧
    same_shape f f'.
Proof.
  intros Hw HR Hnd. destruct (Resolve_placed _ _ _ _ HR) as (root & _ & _ & _ & Hpl & _).
  destruct (MkdirAll_parent f full Hw Hpl Hnd) as (q & b & f1 & Hq & E & Hw1 & Hr & Hs & Hnd1 & Hg & Ho).
  assert (Hne : full ≠ []) by (by rewrite Hq; destruct q).
  exists (<[full := NFile body]> f1). unfold WriteWithin. rewrite HR, E. unfold WriteFile.
  rewrite open_place_id by done.
  split_and!.
  - by destruct (lookup_node f1 full) as [[]|].
  - rewrite Hq. apply well_formed_insert; [done | apply Hr |]. left. by rewrite <- Hq.
  - destruct Hs as [Hp Hd Hn]. split; [done | |].
    + intros q' b' r Heq. rewrite lookup_node_insert_ne; [by eapply Hd |].
      intros ->. apply (f_equal length) in Heq. rewrite length_app in Heq. simpl in Heq. lia.
    + intros t. by rewrite lookup_node_insert.
  - by rewrite lookup_insert_eq.
  - intros p. destruct (decide (p = full)) as [->|Hpf]; [by left |].
    rewrite lookup_insert_ne by done. apply Ho.
  - intros p n Hn. destruct (decide (p = full)) as [->|Hpf].
    + right. apply Hg in Hn. destruct n as [|b0|t]; [done | | by destruct (settled_nolink _ _ Hs t)].
      exists b0, body. by rewrite lookup_node_insert.
    + left. rewrite lookup_node_insert_ne by done. by apply Hg.
Qed.

Lemma only_makes_below f f' root full s :
  settled f root → lookup_node f root ≠ None → full = root ++ s → only_makes f f' full →
  ∀ p, f' !! p ≠ f !! p → ∃ t, p = root ++ t.
Proof.
  intros Hs He -> Ho p Hp. destruct (Ho p Hp) as [->|(Hne & Hn & _ & t & _ & Heq)]; [eauto |].
  apply app_eq_inv in Heq as [(k & Hk & _)|(k & Hk & _)]; subst; [|eauto].
  destruct k as [|b k]; [exists []; by rewrite !app_nil_r |].
  pose proof (settled_dirs _ _ Hs p b k eq_refl) as H.
  rewrite lookup_node_ne in H by done. congruence.
Qed.

(** Writing a file through the confined writer, in a well-formed tree, to a
    name the resolver accepts and that is not a directory, always succeeds;
    afterwards the resolved file holds exactly the bytes written, and every
    other change to the file system is a directory made on the way to it, below
    the worktree's root: nothing outside the worktree changes. *)
Theorem WriteWithin_confined f wt rel body full :
  well_formed f → Resolve f wt rel = Ok full → lookup_node f full ≠ Some NDir →
  ∃ root f', EvalSymlinks f (path_of wt) = Ok root ∧
    WriteWithin f wt rel body = (Ok tt, f') ∧ well_formed f' ∧
    f' !! full = Some (NFile body) ∧
    ∀ p, f' !! p ≠ f !! p →
      (∃ t, p = root ++ t) ∧ (p = full ∨ (f !! p = None ∧ f' !! p = Some NDir)).
Proof.
  intros Hw HR Hnd. destruct (Resolve_placed _ _ _ _ HR) as (root & Hr & Hs & He & _ & s & Hfull).
  destruct (WriteWithin_does _ _ _ body _ Hw HR Hnd) as (f' & HW & Hw' & _ & Hf & Ho & _).
  exists root, f'. split_and!; [done..|]. intros p Hp. split.
  - by eapply only_makes_below.
  - destruct (Ho p Hp) as [?|(_ & ? & ? & _)]; auto.
Qed.

Lemma demo_well_formed : well_formed demo_fs.
Proof.
  intros p b Hp. unfold demo_fs in *.
  repeat (rewrite lookup_insert_Some in Hp || idtac).
  destruct (demo_fs !! (p ++ [b])) as [n|] eqn:E; [|done]. clear Hp.
  assert ((p ++ [b], n) ∈ map_to_list demo_fs) as H by (by apply elem_of_map_to_list).
  vm_compute in H.
  repeat (apply elem_of_cons in H as [H|H];
          [injection H as H _; destruct p as [|? [|? []]]; simplify_eq/=; done |]).
  by apply not_elem_of_nil in H.
Qed.

Lemma WriteWithin_confined_witness :
  ∃ root f', EvalSymlinks demo_fs (path_of "/wt") = Ok root ∧
    WriteWithin demo_fs "/wt" "in/new/a.go" "package a" = (Ok tt, f') ∧ well_formed f' ∧
    f' !! ["wt"; "sub"; "new"; "a.go"] = Some (NFile "package a") ∧
    ∀ p, f' !! p ≠ demo_fs !! p →
      (∃ t, p = root ++ t) ∧
      (p = ["wt"; "sub"; "new"; "a.go"] ∨ (demo_fs !! p = None ∧ f' !! p = Some NDir)).
Proof.
  apply (WriteWithin_confined demo_fs "/wt" "in/new/a.go").
  - apply demo_well_formed.
  - vm_compute. reflexivity.
  - vm_compute. discriminate.
Defined.

(** *** Reading back *)

Lemma walk_same_shape f f' links stack todo d :
  same_shape f f' → walk false f links stack todo = Ok d → walk false f' links stack todo = Ok d.
Proof.
  intros Hsh. revert stack todo. induction links as [links IHl] using lt_wf_ind.
  intros stack todo. revert stack. induction todo as [|x rest IH]; intros stack;
    rewrite (walk_eq _ f _ _ _), (walk_eq _ f' _ stack _); [done |].
  destruct (_ || _); [apply IH |]. destruct (String.eqb x ".."); [apply IH |].
  destruct (lookup_node f (rev (x :: stack))) as [n|] eqn:El; [|done].
  destruct (Hsh _ _ El) as [->|(b & b' & -> & ->)]; [|done].
  destruct n as [| |t]; [apply IH | done |].
  destruct links as [|links]; [done |]. apply IHl. lia.
Qed.

Lemma walk_app f links stack todo d suffix :
  walk false f links stack todo = Ok d → real_dir f (rev stack) → Forall slash_free todo →
  real_dir f d ∨ suffix = [] →
  settled f (d ++ suffix) → lookup_node f (d ++ suffix) ≠ None →
  walk false f links stack (todo ++ suffix) = Ok (d ++ suffix).
Proof.
  intros Hw Hs Hf Hd Hse He. destruct suffix as [|b more]; [by rewrite !app_nil_r|].
  destruct Hd as [Hd|]; [|done].
  revert stack todo Hw Hs Hf. induction links as [links IHl] using lt_wf_ind.
  intros stack todo. revert stack. induction todo as [|x rest IH]; intros stack; rewrite walk_eq.
  - intros [= <-] Hs _. apply walk_identity.
    + by apply settled_plain, Forall_app in Hse as [_ ?].
    + intros q c r Hq. eapply (settled_dirs _ _ Hse). by rewrite Hq, app_assoc.
    + apply Hse.
    + by right; left.
  - intros Hw Hs [Hx Hf]%Forall_cons. rewrite <- app_comm_cons, walk_eq. revert Hw.
    destruct (_ || _) eqn:E1; [by intros; apply IH |].
    destruct (String.eqb x "..") eqn:E2; [intros; apply IH; [done | by apply real_dir_tl | done] |].
    pose proof (split_char_plain x Hx E1 E2) as Hpl. simpl rev.
    destruct (lookup_node f (rev stack ++ [x])) as [[| |t]|] eqn:El; [| | |done].
    + intros; apply IH; [done | | done]. split; [|done]. simpl. apply settled_child; [done..|]. congruence.
    + destruct rest; [|done]. intros [= <-]. destruct Hd as [_ Hd]. simpl in Hd. congruence.
    + destruct links as [|links]; [done |]. intros. rewrite app_assoc. apply IHl; [lia | done | |].
      * destruct (is_abs t); [apply real_dir_root | done].
      * apply Forall_app. split; [apply split_char_slash_free | done].
Qed.

(** The path the upward search returns is found again from the start when it
    exists. *)
Lemma resolve_up_found f f' root rel ranc suffix full :
  Forall plain ranc → same_shape f f' → settled f' full → lookup_node f' full ≠ None →
  resolve_up f root rel ranc suffix = Ok full →
  ∃ up low d, rev ranc = up ++ low ∧ EvalSymlinks f up = Ok d ∧ full = d ++ low ++ suffix ∧
    EvalSymlinks f' (up ++ low ++ suffix) = Ok full.
Proof.
  intros Hranc Hsh Hset Hex. revert suffix. induction ranc as [|b ranc IH]; intros suffix; cbn [resolve_up].
  all: match goal with |- context [EvalSymlinks ?g ?x] => destruct (EvalSymlinks g x) as [d|e] eqn:E end.
  all: try (destruct (is_not_exist e); [|done]; cbn [negb]).
  2: by destruct (Lstat f _) as [[]|].
  1,2: destruct (inside root d) eqn:Ei; cbn [negb]; [|discriminate]; intros [= <-];
    match goal with E : EvalSymlinks ?g ?x = _ |- _ => exists x end; exists [], d;
    split_and!; [by rewrite app_nil_r | done | done |];
    apply walk_app; [by eapply walk_same_shape | apply real_dir_root | | | done | done].
  1,3: apply Forall_rev; eapply Forall_impl; [exact Hranc|]; by intros ? [? _].
  1,2: destruct suffix as [|c suffix]; [by right | left; by eapply settled_parent].
  apply Forall_cons in Hranc as [Hb Hranc].
  intros H. assert (resolve_up f root rel ranc (b :: suffix) = Ok full) as H'.
  { by destruct (Lstat f _) as [[]|]. }
  destruct (IH Hranc _ H') as (up & low & d & Hup & Hd & -> & Hf').
  exists up, (low ++ [b]), d. simpl. rewrite Hup, <- !app_assoc. done.
Qed.

Lemma inside_below root s : root ≠ [] → inside root (root ++ s) = true.
Proof.
  intros Hne. unfold inside. apply orb_true_iff. destruct s as [|c s].
  - left. rewrite app_nil_r. apply String.eqb_refl.
  - right. apply has_prefix_spec. exists (join "/" (c :: s)). unfold show_path, render_path.
    rewrite !app_str_assoc. f_equal.
    induction root as [|r root IH]; [done |]. destruct root as [|r' root].
    + done.
    + change (join "/" ((r :: r' :: root) ++ c :: s)) with (r +:+ "/" +:+ join "/" ((r' :: root) ++ c :: s))%string.
      change (join "/" (r :: r' :: root)) with (r +:+ "/" +:+ join "/" (r' :: root))%string.
      rewrite !app_str_assoc, IH by done. done.
Qed.

(** A write that succeeds was resolved, and not to a directory. *)
Lemma WriteWithin_ok f wt rel body f' :
  well_formed f → WriteWithin f wt rel body = (Ok tt, f') →
  ∃ full, Resolve f wt rel = Ok full ∧ lookup_node f full ≠ Some NDir.
Proof.
  intros Hw HW. unfold WriteWithin in HW. destruct (Resolve f wt rel) as [full|] eqn:HR; [|done].
  exists full. split; [done |]. intros Hdir.
  destruct (Resolve_placed _ _ _ _ HR) as (_ & _ & _ & _ & (d & suffix & -> & Hd & He & Hp & Hm) & _).
  destruct suffix as [|b more].
  - rewrite app_nil_r in *. revert HW.
    assert (MkdirAll f (parent d) = (Ok tt, f)) as ->.
    { unfold MkdirAll, parent. destruct d as [|x d _] using rev_ind; [apply (mkdir_all_dir f []), real_dir_root |].
      rewrite removelast_last. apply mkdir_all_dir. by eapply settled_parent. }
    unfold WriteFile. rewrite open_place_id by done. by rewrite Hdir.
  - destruct Hm as [Hr Hn]. rewrite lookup_node_ne in Hn, Hdir by (by destruct d).
    apply (well_formed_below f (d ++ [b]) more) in Hn; [|done | by destruct d].
    rewrite <- app_assoc in Hn. simpl in Hn. congruence.
Qed.

(** C22: What the confined writer stored is what the confined reader returns
    for the same name, through whatever links inside the worktree the name
    goes. *)
Theorem Write_then_read f f' wt rel body root :
  well_formed f → EvalSymlinks f (path_of wt) = Ok root → root ≠ [] →
  WriteWithin f wt rel body = (Ok tt, f') → ReadWithin f' wt rel = Ok body.
Proof.
  intros Hw Hroot Hne HW. destruct (WriteWithin_ok _ _ _ _ _ Hw HW) as (full & HR & Hnd).
  destruct (WriteWithin_does _ _ _ body _ Hw HR Hnd) as (f2 & HW2 & _ & Hset & Hfull & _ & Hsh).
  assert (f2 = f') as -> by congruence.
  destruct (Resolve_placed _ _ _ _ HR) as (root2 & Hr & Hrs & _ & Hpl & s & Hs).
  assert (root2 = root) as -> by congruence.
  assert (Hfne : full ≠ []) by (by rewrite Hs; destruct root).
  assert (Hex : lookup_node f' full ≠ None) by (rewrite lookup_node_ne by done; congruence).
  assert (Resolve f' wt rel = Ok full) as HR'.
  { unfold Resolve in *. destruct (String.eqb rel ""); [done |]. destruct (is_abs rel); [done |].
    rewrite Hroot in HR. unfold EvalSymlinks in *. rewrite (walk_same_shape _ _ _ _ _ _ Hsh Hroot).
    cbn in *. destruct (inside root _); [|done]. cbn [negb] in *.
    set (full0 := clean_comps _ _ _) in *.
    assert (Hpl0 : Forall plain full0).
    { apply clean_comps_plain; [apply Forall_rev, Hrs | apply split_char_slash_free]. }
    destruct (resolve_up_found f f' root rel (rev full0) [] full) as (up & low & d & Hup & _ & _ & Hev);
      [by apply Forall_rev | done..|].
    rewrite rev_involutive, app_nil_r in *. rewrite Hup. clear Hup.
    destruct (rev (up ++ low)) as [|x y] eqn:Er; cbn [resolve_up]; rewrite <- ?Er, ?rev_involutive.
    - assert (up ++ low = []) as E0 by (by rewrite <- (rev_involutive (up ++ low)), Er).
      rewrite !E0 in *. cbn [rev] in *. rewrite Hev, Hs, inside_below by done. simpl. by rewrite app_nil_r.
    - rewrite Hev, Hs, inside_below by done. simpl. by rewrite app_nil_r. }
  unfold ReadWithin. rewrite HR'. cbn. unfold ReadFile, Stat.
  rewrite EvalSymlinks_id by done. rewrite lookup_node_ne by done. by rewrite Hfull.
Qed.

Definition demo_after : fs := (WriteWithin demo_fs "/wt" "in/new/a.go" "package a").2.

Lemma Write_then_read_witness :
  ReadWithin demo_after "/wt" "in/new/a.go" = Ok "package a"%string.
Proof.
  apply (Write_then_read demo_fs demo_after "/wt" "in/new/a.go" "package a" ["wt"]).
  - apply demo_well_formed.
  - vm_compute. reflexivity.
  - discriminate.
  - apply run_to. vm_compute. reflexivity.
Defined.
