(* ===== verification/Files.v ===== *)
(** The calls of Go's [os] on files that the stores use and the checkouts do
    not, over the file system of [Worktree]: listing, removing, renaming. *)
From S2P Require Import Prelude GoStrings GoPath Worktree.
From Stdlib Require Import Ascii.

Open Scope string_scope.
Open Scope list_scope.
Open Scope nat_scope.

(** The components of an absolute path, cleaned: [filepath.Abs] with the process
    in [cwd]. *)
Definition abs_path (cwd : apath) (p : string) : apath :=
  if is_abs p then clean_comps true [] (split_char slash p) else clean_comps true (rev cwd) (split_char slash p).

(** [filepath.Join(dir, rel)] of an absolute directory. *)
Definition join_comps (dir : apath) (rel : string) : apath := clean_comps true (rev dir) (split_char slash rel).

(** The nodes strictly below a place. *)
Definition strictly_below (q p : apath) : bool :=
  match below q p with Some (_ :: _) => true | _ => false end.

(** [os.ReadDir]: the names, sorted, and whether each is a directory. *)
Definition ReadDir (f : fs) (p : apath) : result (list (string * bool)) :=
  q ← EvalSymlinks f p;
  match lookup_node f q with
  | None => Err ENOENT
  | Some NDir =>
      let entries := omap (λ e : apath * node, match below q e.1 with Some [b] => Some (b, bool_decide (e.2 = NDir)) | _ => None end)
                          (map_to_list f) in
      Ok (stable_sort (λ a b : string * bool, str_ltb a.1 b.1) entries)
  | Some _ => Err ENOTDIR
  end.

(** The order [filepath.WalkDir] goes in. *)
Fixpoint comps_less (a b : list string) : bool :=
  match a, b with
  | _, [] => false
  | [], _ :: _ => true
  | x :: a, y :: b => str_ltb x y || (String.eqb x y && comps_less a b)
  end.
Definition walk_dir (f : fs) (place : apath) : list (apath * node) :=
  stable_sort (λ a b, comps_less a.1 b.1)
    (omap (λ e, match below place e.1 with Some (c :: rel) => Some (c :: rel, e.2) | _ => None end) (map_to_list f)).

(** [os.RemoveAll]: what stands at the place, and everything below it. *)
Definition RemoveAll (f : fs) (p : apath) : result unit * fs :=
  match lstat_place f p with
  | Err e => if is_not_exist e then (Ok tt, f) else (Err e, f)
  | Ok q => (Ok tt, filter (λ e : apath * node, below q e.1 = None) f)
  end.

(** [os.Remove] of a file or a link. *)
Definition RemoveFile (f : fs) (p : apath) : result unit * fs :=
  match lstat_place f p with
  | Err e => (Err e, f)
  | Ok q => match lookup_node f q with
            | None => (Err ENOENT, f)
            | Some NDir => (Err (errorf "is a directory"), f)
            | Some _ => (Ok tt, delete q f)
            end
  end.

(** [os.Rename] of a file: what stood at the new name, unless it is a directory,
    is replaced. *)
Definition Rename (f : fs) (old new : apath) : result unit * fs :=
  match lstat_place f old with
  | Err e => (Err e, f)
  | Ok q =>
      match lookup_node f q with
      | None => (Err ENOENT, f)
      | Some NDir => (Err EISDIR, f)
      | Some n =>
          match lstat_place f new with
          | Err e => (Err e, f)
          | Ok q' => match lookup_node f q' with
                     | Some NDir => (Err EEXIST, f)
                     | _ => (Ok tt, <[q' := n]> (delete q f))
                     end
          end
      end
  end.

(** Deciding that a component is a name. *)
Definition plain_b (c : string) : bool :=
  negb (mem c [""; "."; ".."]) && forallb (λ a, negb (Ascii.eqb a slash)) (String.list_ascii_of_string c).

(** ** Their effects where no link is met *)

Lemma plain_b_ok c : plain_b c = true → plain c.
Proof.
  unfold plain_b. rewrite andb_true_iff, negb_true_iff, mem_false, forallb_forall. intros [Hn Hs].
  split_and!; [|intros ->; apply Hn; set_solver..]. intros Hin%list_elem_of_In. specialize (Hs _ Hin). by rewrite Ascii.eqb_refl in Hs.
Qed.

Lemma clean_comps_id stack l : Forall plain l → clean_comps true stack l = rev stack ++ l.
Proof.
  revert stack. induction l as [|c l IH]; intros stack Hl; cbn [clean_comps]; [by rewrite app_nil_r |].
  apply Forall_cons in Hl as [(_ & H1 & H2 & H3) Hl]. apply String.eqb_neq in H1, H2, H3. rewrite H1, H2, H3. cbn [orb].
  rewrite IH by done. cbn. by rewrite <- app_assoc.
Qed.


Lemma lstat_real f d b : real_dir f d → lstat_place f (d ++ [b]) = Ok (d ++ [b]).
Proof.
  intros Hd. unfold lstat_place. rewrite last_snoc. unfold parent. rewrite removelast_last.
  destruct (real_dir_stat f d Hd) as [HS HE]. rewrite HE. cbn [mbind result_bind].
  rewrite decide_True; [done |]. unfold Stat in HS. rewrite HE in HS. destruct (lookup_node f d); congruence.
Qed.

Lemma below_app root q : below root (root ++ q) = Some q.
Proof. unfold below. by rewrite take_app_length, decide_True, drop_app_length. Qed.
Lemma below_some root p q : below root p = Some q ↔ p = root ++ q.
Proof.
  split; [|intros ->; apply below_app]. unfold below. case_decide as H; [|done]. intros [= <-].
  rewrite <- H at 1. symmetry. apply take_drop.
Qed.
Lemma below_none root p : below root p = None ↔ ∀ q, p ≠ root ++ q.
Proof.
  split; [intros H q ->; by rewrite below_app in H |]. intros H. destruct (below root p) as [q|] eqn:E; [|done].
  apply below_some in E. by destruct (H q).
Qed.

Lemma RemoveAll_at f f' p q : lstat_place f p = Ok q → RemoveAll f p = (Ok tt, f') →
  ∀ x, f' !! x = if decide (below q x = None) then f !! x else None.
Proof.
  intros Hq. unfold RemoveAll. rewrite Hq. intros [= <-] x. case_decide as E.
  - destruct (f !! x) as [n|] eqn:Ex.
    + by apply map_lookup_filter_Some.
    + apply map_lookup_filter_None. by left.
  - apply map_lookup_filter_None. right. by intros n _ ?.
Qed.

Lemma Rename_real f d1 b1 d2 b2 n : real_dir f d1 → real_dir f d2 →
  f !! (d1 ++ [b1]) = Some n → n ≠ NDir → lookup_node f (d2 ++ [b2]) ≠ Some NDir →
  Rename f (d1 ++ [b1]) (d2 ++ [b2]) = (Ok tt, <[d2 ++ [b2] := n]> (delete (d1 ++ [b1]) f)).
Proof.
  intros H1 H2 Hn Hnd Hnew. unfold Rename. rewrite !lstat_real by done.
  rewrite lookup_node_ne by (by destruct d1). rewrite Hn. destruct n; [done | |];
    destruct (lookup_node f (d2 ++ [b2])) as [[]|]; naive_solver.
Qed.

Lemma elem_of_ReadDir f p q names : EvalSymlinks f p = Ok q → ReadDir f p = Ok names →
  ∀ b d, (b, d) ∈ names ↔ ∃ n, f !! (q ++ [b]) = Some n ∧ d = bool_decide (n = NDir).
Proof.
  intros Hq. unfold ReadDir. rewrite Hq. cbn [mbind result_bind]. destruct (lookup_node f q) as [[]|]; try done. intros [= <-] b d.
  rewrite elem_of_stable_sort, list_elem_of_omap. split.
  - intros ([x n] & Hin & Hb). apply elem_of_map_to_list in Hin. cbn in Hb. destruct (below q x) as [[|b' [|]]|] eqn:E; try done.
    injection Hb as -> <-. apply below_some in E as ->. by exists n.
  - intros (n & Hf & ->). exists (q ++ [b], n). split; [by apply elem_of_map_to_list |]. cbn. by rewrite below_app.
Qed.

Lemma abs_show cwd p : Forall plain p → abs_path cwd (show_path p) = p.
Proof.
  intros Hp. unfold abs_path. destruct p as [|c p]; [done |].
  assert (is_abs (show_path (c :: p)) = true) as -> by apply has_prefix_app. rewrite split_show by done.
  by apply (clean_comps_id [] (c :: p)).
Qed.

Lemma abs_path_free cwd p : Forall slash_free cwd → Forall slash_free (abs_path cwd p).
Proof.
  intros Hc. unfold abs_path. destruct (is_abs p); apply clean_comps_slash_free; try apply split_char_slash_free; [constructor | by apply Forall_rev].
Qed.

Lemma elem_of_walk_dir f place e : e ∈ walk_dir f place ↔ e.1 ≠ [] ∧ f !! (place ++ e.1) = Some e.2.
Proof.
  unfold walk_dir. rewrite stable_sort_perm, list_elem_of_omap. split.
  - intros ([p n] & Hp%elem_of_map_to_list & H). cbn in H. unfold below in H. destruct (decide _) as [E|]; [|done].
    rewrite <- (take_drop (length place) p), E in Hp. destruct (drop _ _) as [|c rel]; [done |]. injection H as <-. done.
  - intros [Hne Hf]. destruct e as [rel n]. exists (place ++ rel, n). split; [by apply elem_of_map_to_list |].
    cbn. unfold below. rewrite take_app_length, decide_True by done. rewrite drop_app_length. cbn in Hne. by destruct rel.
Qed.

(** A directory stays one where nothing at or above it is touched. *)
Lemma real_dir_ext f f' d : real_dir f d → (∀ q s, d = q ++ s → lookup_node f' q = lookup_node f q) → real_dir f' d.
Proof.
  intros [[Hp Hd Hn] He] H. assert (Hself : lookup_node f' d = lookup_node f d) by (apply (H d []); by rewrite app_nil_r).
  split; [|by rewrite Hself]. split; [done | |].
  - intros q b r Hq. rewrite (H q (b :: r) Hq). by eapply Hd.
  - intros t. rewrite Hself. apply Hn.
Qed.
Lemma real_dir_insert f d p n : real_dir f d → (∀ s, d ≠ p ++ s) → real_dir (<[p := n]> f) d.
Proof. intros Hd Hp. apply (real_dir_ext f); [done |]. intros q s Hq. apply lookup_node_insert_ne. intros ->. by apply (Hp s). Qed.
Lemma lookup_node_delete_ne f p q : p ≠ q → lookup_node (delete p f) q = lookup_node f q.
Proof. destruct q; [done |]. cbn. intros. by rewrite lookup_delete_ne. Qed.
Lemma real_dir_delete f d p : real_dir f d → (∀ s, d ≠ p ++ s) → real_dir (delete p f) d.
Proof. intros Hd Hp. apply (real_dir_ext f); [done |]. intros q s Hq. apply lookup_node_delete_ne. intros ->. by apply (Hp s). Qed.

(** A file beside which nothing is in the way. *)
Lemma ReadFile_real f d b body : real_dir f d → plain b → f !! (d ++ [b]) = Some (NFile body) → ReadFile f (d ++ [b]) = Ok body.
Proof.
  intros Hd Hb Hf. assert (Hn : lookup_node f (d ++ [b]) = Some (NFile body)) by (by rewrite lookup_node_ne by (by destruct d)).
  unfold ReadFile, Stat. rewrite (EvalSymlinks_id f (d ++ [b])).
  - by rewrite Hn.
  - apply settled_child; [done.. |]. intros t. by rewrite Hn.
  - by rewrite Hn.
Qed.
Lemma WriteFile_real f d b body : real_dir f d → plain b →
  (∀ n, f !! (d ++ [b]) = Some n → ∃ old, n = NFile old) →
  WriteFile f (d ++ [b]) body = (Ok tt, <[d ++ [b] := NFile body]> f).
Proof.
  intros Hd Hb Hf. unfold WriteFile. rewrite open_place_id.
  - rewrite lookup_node_ne by (by destruct d). destruct (f !! (d ++ [b])) as [n|] eqn:E; [|done]. by destruct (Hf n eq_refl) as [old ->].
  - apply settled_child; [done.. |]. intros t. rewrite lookup_node_ne by (by destruct d). intros H. by destruct (Hf _ H).
Qed.
Lemma app_snoc_ne (d : apath) b c : b ≠ c → d ++ [b] ≠ d ++ [c].
Proof. intros H E. apply app_inv_head in E. by injection E. Qed.
Lemma above_snoc (d : apath) b s : d ≠ (d ++ [b]) ++ s.
Proof. rewrite <- app_assoc. intros E. apply (f_equal length) in E. rewrite length_app in E. cbn in E. lia. Qed.

Lemma above_app (d : apath) b (c s : apath) : d ≠ d ++ b :: c ++ s.
Proof. intros E. apply (f_equal length) in E. rewrite length_app in E. cbn in E. lia. Qed.

(** A file written beside its place, then renamed there, while nothing else
    stands at either. *)
Lemma write_then_rename f d tmp b body : real_dir f d → plain tmp → plain b → tmp ≠ b →
  (∀ n, f !! (d ++ [tmp]) = Some n → ∃ old, n = NFile old) → lookup_node f (d ++ [b]) ≠ Some NDir →
  ∃ f1, WriteFile f (d ++ [tmp]) body = (Ok tt, f1) ∧
    Rename f1 (d ++ [tmp]) (d ++ [b]) = (Ok tt, <[d ++ [b] := NFile body]> (delete (d ++ [tmp]) f)).
Proof.
  intros Hd Ht Hb Hne Htmp Hdir. exists (<[d ++ [tmp] := NFile body]> f). split; [by apply WriteFile_real |].
  assert (Hd1 : real_dir (<[d ++ [tmp] := NFile body]> f) d) by (apply real_dir_insert; [done | intros s; apply above_snoc]).
  rewrite (Rename_real _ d tmp d b (NFile body)); try done.
  - by rewrite delete_insert_eq.
  - by rewrite lookup_insert_eq.
  - rewrite lookup_node_insert_ne; [done |]. by apply app_snoc_ne.
Qed.

(** A directory below a real one, made where it is missing. *)
Lemma real_dir_below f d b : real_dir f d → plain b → f !! (d ++ [b]) = Some NDir → real_dir f (d ++ [b]).
Proof.
  intros Hd Hb Hf. assert (Hl : lookup_node f (d ++ [b]) = Some NDir) by (by rewrite lookup_node_ne by (by destruct d)).
  split; [apply settled_child; [done | done | intros t; by rewrite Hl] | done].
Qed.
Lemma mkdir_below f d b : well_formed f → real_dir f d → plain b → f !! (d ++ [b]) = None ∨ f !! (d ++ [b]) = Some NDir →
  ∃ f1, MkdirAll f (d ++ [b]) = (Ok tt, f1) ∧ well_formed f1 ∧ real_dir f1 d ∧ real_dir f1 (d ++ [b]) ∧
    ∀ p, p ≠ d ++ [b] → f1 !! p = f !! p.
Proof.
  intros Hw Hd Hb [Hn|Hn]; unfold MkdirAll.
  - destruct (mkdir_all_fresh f d b [] Hw Hd) as (f1 & E & Hw1 & Hg & Hr & Hch); [by apply Forall_singleton | done |].
    exists f1. split_and!; [done | done | by eapply real_dir_grows | done |]. intros p Hp.
    destruct (decide (f1 !! p = f !! p)) as [|Hne]; [done |]. destruct (Hch p Hne) as (_ & _ & r & t & -> & [= [-> ->]%eq_sym%app_eq_nil]). naive_solver.
  - pose proof (real_dir_below f d b Hd Hb Hn). exists f. split_and!; [by apply mkdir_all_dir | done..].
Qed.

(** Deciding that what stands in a directory has that directory. *)
Definition well_formed_b (f : fs) : bool :=
  forallb (λ e : apath * node, bool_decide (lookup_node f (removelast e.1) = Some NDir)) (map_to_list f).
Lemma well_formed_b_ok f : well_formed_b f = true → well_formed f.
Proof.
  unfold well_formed_b. rewrite forallb_forall. intros H p b Hp. destruct (f !! (p ++ [b])) as [n|] eqn:E; [|done].
  apply elem_of_map_to_list, list_elem_of_In, H, bool_decide_eq_true in E. cbn in E. by rewrite removelast_last in E.
Qed.
