(* ===== verification/Workspace.v ===== *)
(** What a workspace is: [src/internal/workspace/identity.go] and [manifest.go].
    The identity derived from a root, a remote and a name; the marker file that
    pins it; finding, opening and creating a workspace.  The encoding that is
    hashed is injective, so where the digest tells two encodings apart two
    workspaces share an identity only if they are one; and what [Init] pins is
    what [Open] finds. *)
From S2P Require Import Prelude GoStrings GoPath GoRegexp Worktree Files.
From Stdlib Require Import Ascii.

Open Scope string_scope.
Open Scope list_scope.
Open Scope nat_scope.

(** [version/version.go:44-44 WorkspaceIDScheme] *)
Definition WorkspaceIDScheme : Z := 1.
(** [workspace/identity.go:29-29 IDLength] *)
Definition IDLength : nat := 26.
(** [workspace/identity.go:33-33 MarkerDir] *)
Definition MarkerDir : string := ".le".
(** [workspace/identity.go:34-34 MarkerFile] *)
Definition MarkerFile : string := "workspace.yaml".
(** [workspace/identity.go:41-41 ErrNotAWorkspace] *)
Definition ErrNotAWorkspace : error := mk_error (Some "workspace.ErrNotAWorkspace") "workspace: no .le/workspace.yaml found".

(** [workspace/identity.go:37-37 idPattern] *)
Definition id_char (c : ascii) : bool := in_range "a" "z" c || in_range "2" "7" c.
(** [workspace/identity.go:37-37 idPattern] *)
Definition idPattern : re := rseq [RBol; rexact 26 (RCls id_char); REol].
(** [workspace/identity.go:50-50 ID.Valid] *)
Definition Valid (id : string) : bool := match_string idPattern id.

(** ** The identity *)

(** [base32.StdEncoding.WithPadding(NoPadding)]: the bits of the bytes, the
    highest first, in groups of five; the last is filled up with zeros. *)
Definition byte_bits (c : ascii) : list bool :=
  match c with Ascii b0 b1 b2 b3 b4 b5 b6 b7 => [b7; b6; b5; b4; b3; b2; b1; b0] end.
Definition bits_of (s : string) : list bool := String.list_ascii_of_string s ≫= byte_bits.
Definition quintet (b4 b3 b2 b1 b0 : bool) : nat :=
  16 * Nat.b2n b4 + 8 * Nat.b2n b3 + 4 * Nat.b2n b2 + 2 * Nat.b2n b1 + Nat.b2n b0.
Definition base32_char (n : nat) : ascii := ascii_of_nat (if n <? 26 then 65 + n else 24 + n).
Fixpoint base32_bits (l : list bool) : string :=
  match l with
  | a :: b :: c :: d :: e :: l => String (base32_char (quintet a b c d e)) (base32_bits l)
  | [] => ""
  | [a] => String (base32_char (quintet a false false false false)) ""
  | [a; b] => String (base32_char (quintet a b false false false)) ""
  | [a; b; c] => String (base32_char (quintet a b c false false)) ""
  | [a; b; c; d] => String (base32_char (quintet a b c d false)) ""
  end.
Definition base32 (s : string) : string := base32_bits (bits_of s).

(** [binary.PutUvarint] of a 64-bit number: seven bits a byte, the lowest first,
    the top bit set on all but the last. *)
Fixpoint uvarint_fuel (fuel : nat) (n : Z) : string :=
  match fuel with
  | O => ""
  | S fuel =>
      if Z.ltb n 128 then String (ascii_of_nat (Z.to_nat n)) ""
      else String (ascii_of_nat (Z.to_nat (Z.lor (Z.land n 127) 128))) (uvarint_fuel fuel (Z.shiftr n 7))
  end.
(** At most [binary.MaxVarintLen64] bytes. *)
Definition uvarint (n : Z) : string := uvarint_fuel 10 n.

(** [workspace/identity.go:63-70 writeComponents] what it writes. *)
Definition writeComponents (parts : list string) : string :=
  foldr (λ p rest, uvarint (Z.of_nat (String.length p)) +:+ p +:+ rest) "" parts.

Section identity.
Context (sha256 : string → string).

(** [workspace/identity.go:85-85 DeriveID] *)
Definition derived (stream : string) : string := take_str IDLength (to_lower (base32 (sha256 stream))).

(** [workspace/identity.go:80-86 DeriveID] *)
Definition DeriveID (canonicalRoot gitRemote name : string) : string :=
  derived (writeComponents ["le-workspace-v" +:+ pretty WorkspaceIDScheme; canonicalRoot; gitRemote; name]).

(** [workspace/identity.go:90-96 DeriveRepositoryID] *)
Definition DeriveRepositoryID (ws relPath remote : string) : string :=
  derived (writeComponents ["le-repo-v" +:+ pretty WorkspaceIDScheme; ws; relPath; remote]).
End identity.

(** ** The manifest *)

(** [workspace/manifest.go:19-25 Repository] *)
Record Repository := mk_repository {
  Rp_ID : string; Rp_Name : string; Rp_Path : string; Rp_Remote : string; DefaultBranch : string }.
(** [workspace/manifest.go:41-45 Derivation] *)
Record Derivation := mk_derivation { CanonicalRoot_ : string; De_GitRemote : string; De_Name : string }.
(** [workspace/manifest.go:29-38 Manifest] the time in seconds. *)
Record Manifest := mk_manifest {
  SchemeVersion : Z; Ma_ID : string; Ma_Name : string; CreatedAt : Z; DerivedFrom : Derivation;
  Repositories : list Repository }.
(** [workspace/manifest.go:48-51 Workspace] *)
Record Workspace := mk_workspace { Ws_Root : apath; Ws_Manifest : Manifest }.
(** [workspace/manifest.go:53-53 Workspace.ID] *)
Definition Ws_ID (w : Workspace) : string := Ma_ID (Ws_Manifest w).
(** [workspace/manifest.go:54-54 Workspace.Name] *)
Definition Ws_Name (w : Workspace) : string := Ma_Name (Ws_Manifest w).

(** [workspace/manifest.go:57-57 MarkerPath] *)
Definition MarkerPath (root : apath) : apath := root ++ [MarkerDir; MarkerFile].

(** [workspace/manifest.go:60-67 Workspace.Repository] *)
Definition Repository_ (w : Workspace) (id : string) : option Repository :=
  find (λ r, String.eqb (Rp_ID r) id) (Repositories (Ws_Manifest w)).
(** [workspace/manifest.go:70-76 Workspace.RepositoryPath] *)
Definition RepositoryPath (w : Workspace) (id : string) : result apath :=
  match Repository_ w id with
  | None => Err (errorf ("workspace: no repository " +:+ quoted id +:+ " in workspace " +:+ Ws_ID w))
  | Some r => Ok (join_comps (Ws_Root w) (Rp_Path r))
  end.
(** [workspace/manifest.go:191-194 Workspace.Moved] *)
Definition Moved (w : Workspace) : bool :=
  let from := CanonicalRoot_ (DerivedFrom (Ws_Manifest w)) in
  negb (String.eqb from "") && negb (String.eqb from (show_path (Ws_Root w))).

(** [workspace/manifest.go:143-148 repoDisplayName] *)
Definition repoDisplayName (root : apath) (rel : string) : string :=
  if String.eqb rel "." then base_name (show_path root) else base_name rel.

(** [workspace/manifest.go:79-88 InitOptions] *)
Record InitOptions := mk_init { Io_Name : string; Io_Repositories : list string; Force : bool }.

#[export] Instance repository_eq_dec : EqDecision Repository.
Proof. solve_decision. Defined.
#[export] Instance derivation_eq_dec : EqDecision Derivation.
Proof. solve_decision. Defined.
#[export] Instance manifest_eq_dec : EqDecision Manifest.
Proof. solve_decision. Defined.

(** ** Finding and opening *)

Section open.
Context (cwd : apath).                              (* the process's directory *)
Context (parse_manifest : string → result Manifest). (* yaml, unknown fields refused *)

(** [workspace/identity.go:101-118 CanonicalRoot] *)
Definition CanonicalRoot (f : fs) (path : string) : result apath :=
  let abs := abs_path cwd path in
  resolved ← wrap_r ("workspace: resolve " +:+ show_path abs +:+ ": ") (EvalSymlinks f abs);
  st ← wrap_r ("workspace: stat " +:+ show_path resolved +:+ ": ") (Stat f resolved);
  match st with
  | NDir => Ok resolved
  | _ => Err (errorf ("workspace: " +:+ show_path resolved +:+ " is not a directory"))
  end.

(** [workspace/identity.go:169-178 FindRoot] its loop, the directory reversed. *)
Fixpoint find_up (f : fs) (rdir : apath) : result apath :=
  if is_ok (Stat f (MarkerPath (rev rdir))) then Ok (rev rdir)
  else match rdir with [] => Err ErrNotAWorkspace | _ :: up => find_up f up end.

(** [workspace/identity.go:164-179 FindRoot] *)
Definition FindRoot (f : fs) (start : string) : result apath := find_up f (rev (abs_path cwd start)).

(** [workspace/manifest.go:160-186 OpenRoot] *)
Definition OpenRoot (f : fs) (root : string) : result Workspace :=
  canonical ← CanonicalRoot f root;
  let marker := show_path (MarkerPath canonical) in
  match ReadFile f (MarkerPath canonical) with
  | Err e => if is_not_exist e
             then Err (mk_error (err_is ErrNotAWorkspace) (err_msg ErrNotAWorkspace +:+ " at " +:+ show_path canonical))
             else Err e
  | Ok data =>
      m ← wrap_r ("workspace: parse " +:+ marker +:+ ": ") (parse_manifest data);
      if negb (Valid (Ma_ID m)) then Err (errorf ("workspace: " +:+ marker +:+ " holds an invalid id " +:+ quoted (Ma_ID m)))
      else if Z.ltb WorkspaceIDScheme (SchemeVersion m)
      then Err (errorf ("workspace: " +:+ marker +:+ " uses identity scheme v" +:+ pretty (SchemeVersion m) +:+
                        ", this build understands v" +:+ pretty WorkspaceIDScheme +:+ "; upgrade local-engineer"))
      else Ok (mk_workspace canonical m)
  end.

(** [workspace/manifest.go:151-157 Open] *)
Definition Open_ (f : fs) (start : string) : result Workspace :=
  root ← FindRoot f start; OpenRoot f (show_path root).
End open.

(** ** Creating *)

Section init.
Context (cwd : apath) (sha256 : string → string).
Context (git : apath → list string → option string).   (* [git -C root], [None] when it failed *)
Context (encode_manifest : Manifest → result string).

(** [workspace/identity.go:134-148 gitOutput] *)
Definition gitOutput (root : apath) (args : list string) : string :=
  match git root args with Some out => trim_space out | None => "" end.
(** [workspace/identity.go:127-129 GitRemote] *)
Definition GitRemote (root : apath) : string := gitOutput root ["remote"; "get-url"; "origin"].
(** [workspace/identity.go:152-160 GitDefaultBranch] *)
Definition GitDefaultBranch (root : apath) : string :=
  let head := gitOutput root ["symbolic-ref"; "--short"; "refs/remotes/origin/HEAD"] in
  let current := gitOutput root ["branch"; "--show-current"] in
  if negb (String.eqb head "") then trim_prefix head "origin/"
  else if negb (String.eqb current "") then current else "main".

(** [workspace/manifest.go:215-218 writeManifest] *)
Definition manifest_header : string :=
  "# local-engineer workspace identity. Commit this file." +:+ nl +:+
  "# Moving the directory without it creates a NEW workspace on purpose;" +:+ nl +:+
  "# after a move run `le workspace adopt` to re-bind this id." +:+ nl.

(** [workspace/manifest.go:210-232 writeManifest] *)
Definition writeManifest (f : fs) (root : apath) (m : Manifest) : result unit * fs :=
  let dir := root ++ [MarkerDir] in
  match MkdirAll f dir with
  | (Err e, f) => (Err e, f)
  | (Ok _, f) =>
      match encode_manifest m with
      | Err e => (Err e, f)
      | Ok body =>
          match WriteFile f (dir ++ [MarkerFile +:+ ".tmp"]) (manifest_header +:+ body) with
          | (Err e, f) => (Err e, f)
          | (Ok _, f) => Rename f (dir ++ [MarkerFile +:+ ".tmp"]) (dir ++ [MarkerFile])
          end
      end
  end.

(** [workspace/manifest.go:120-134 Init] its loop over the repositories. *)
Fixpoint init_repositories (f : fs) (canonical : apath) (id : string) (paths : list string) : result (list Repository) :=
  match paths with
  | [] => Ok []
  | rel :: paths =>
      let rel := clean rel in
      let abs := join_comps canonical rel in
      match Stat f abs with
      | Ok NDir =>
          let remote := GitRemote abs in
          rest ← init_repositories f canonical id paths;
          Ok (mk_repository (DeriveRepositoryID sha256 id rel remote) (repoDisplayName canonical rel) rel remote (GitDefaultBranch abs) :: rest)
      | _ => Err (errorf ("workspace: repository path " +:+ quoted rel +:+ " is not a directory"))
      end
  end.

(** [workspace/manifest.go:91-140 Init] *)
Definition Init (f : fs) (root : string) (opts : InitOptions) (now : Z) : result Workspace * fs :=
  match CanonicalRoot cwd f root with
  | Err e => (Err e, f)
  | Ok canonical =>
      let marker := MarkerPath canonical in
      if is_ok (Stat f marker) && negb (Force opts)
      then (Err (errorf ("workspace: " +:+ show_path marker +:+ " already exists (use --force to overwrite)")), f) else
      let name := if String.eqb (Io_Name opts) "" then base_name (show_path canonical) else Io_Name opts in
      let remote := GitRemote canonical in
      let id := DeriveID sha256 (show_path canonical) remote name in
      let paths := match Io_Repositories opts with [] => ["."] | l => sort_strings l end in
      match init_repositories f canonical id paths with
      | Err e => (Err e, f)
      | Ok repos =>
          let m := mk_manifest WorkspaceIDScheme id name (now / 1000000000) (mk_derivation (show_path canonical) remote name) repos in
          match writeManifest f canonical m with
          | (Err e, f) => (Err e, f)
          | (Ok _, f) => (Ok (mk_workspace canonical m), f)
          end
      end
  end.

(** [workspace/manifest.go:199-207 Workspace.Adopt] *)
Definition adopted (w : Workspace) : Manifest :=
  let m := Ws_Manifest w in
  mk_manifest (SchemeVersion m) (Ma_ID m) (Ma_Name m) (CreatedAt m)
    (mk_derivation (show_path (Ws_Root w)) (GitRemote (Ws_Root w)) (De_Name (DerivedFrom m)))
    ((λ r, let abs := join_comps (Ws_Root w) (Rp_Path r) in
           mk_repository (Rp_ID r) (Rp_Name r) (Rp_Path r) (GitRemote abs) (GitDefaultBranch abs)) <$> Repositories m).

(** [workspace/manifest.go:199-208 Workspace.Adopt] *)
Definition Adopt (f : fs) (w : Workspace) : result Workspace * fs :=
  let m := adopted w in
  match writeManifest f (Ws_Root w) m with
  | (Err e, f) => (Err e, f)
  | (Ok _, f) => (Ok (mk_workspace (Ws_Root w) m), f)
  end.
End init.

(** ** The identity is a name of its own *)

Lemma ascii_of_nat_inj n m : n < 256 → m < 256 → ascii_of_nat n = ascii_of_nat m → n = m.
Proof. intros Hn Hm H. rewrite <- (nat_ascii_embedding n), <- (nat_ascii_embedding m), H by done. done. Qed.

Lemma low7 n : (0 ≤ n)%Z → Z.lor (Z.land n 127) 128 = (n mod 128 + 128)%Z.
Proof.
  intros Hn. change 127%Z with (Z.ones 7). rewrite Z.land_ones by lia. change (2 ^ 7)%Z with 128%Z.
  assert (H : forallb (λ k, Z.eqb (Z.lor (Z.of_nat k) 128) (Z.of_nat k + 128)) (seq 0 128) = true) by (vm_compute; reflexivity).
  rewrite forallb_forall in H. pose proof (Z.mod_pos_bound n 128 ltac:(lia)).
  rewrite <- (Z2Nat.id (n mod 128)) by lia. apply Z.eqb_eq, H, in_seq. lia.
Qed.

Lemma uvarint_prefix fuel : ∀ n m a b, (0 ≤ n < 128 ^ Z.of_nat fuel)%Z → (0 ≤ m < 128 ^ Z.of_nat fuel)%Z →
  uvarint_fuel fuel n +:+ a = uvarint_fuel fuel m +:+ b → n = m ∧ a = b.
Proof.
  induction fuel as [|fuel IH]; intros n m a b Hn Hm; [intros H; split; [cbn in Hn, Hm; lia | exact H] |].
  cbn [uvarint_fuel]. rewrite Nat2Z.inj_succ, Z.pow_succ_r in Hn, Hm by lia.
  assert (Hbyte : ∀ k, (0 ≤ k)%Z → Z.to_nat (Z.lor (Z.land k 127) 128) = Z.to_nat (k mod 128) + 128 ∧ Z.to_nat (k mod 128) < 128).
  { intros k Hk. rewrite low7 by done. pose proof (Z.mod_pos_bound k 128 ltac:(lia)). lia. }
  pose proof (Hbyte n ltac:(lia)) as [En Ln]. pose proof (Hbyte m ltac:(lia)) as [Em Lm].
  destruct (Z.ltb_spec n 128), (Z.ltb_spec m 128); rewrite ?En, ?Em; cbn [String.append]; intros [= H1 H2].
  - apply ascii_of_nat_inj in H1; [|lia..]. split; [lia | done].
  - apply ascii_of_nat_inj in H1; lia.
  - apply ascii_of_nat_inj in H1; lia.
  - apply ascii_of_nat_inj in H1; [|lia..]. rewrite !Z.shiftr_div_pow2 in H2 by lia. change (2 ^ 7)%Z with 128%Z in H2.
    assert (Hdiv : ∀ k, (128 ≤ k < 128 * 128 ^ Z.of_nat fuel)%Z → (0 ≤ k / 128 < 128 ^ Z.of_nat fuel)%Z).
    { intros k Hk. split; [apply Z.div_pos; lia |]. apply Z.div_lt_upper_bound; lia. }
    destruct (IH _ _ _ _ (Hdiv n ltac:(lia)) (Hdiv m ltac:(lia)) H2) as [Hd ->]. split; [|done].
    pose proof (Z.mod_pos_bound n 128 ltac:(lia)). pose proof (Z.mod_pos_bound m 128 ltac:(lia)).
    rewrite (Z.div_mod n 128), (Z.div_mod m 128), Hd by lia. lia.
Qed.

Lemma str_app_inj_len s t a b : String.length s = String.length t → s +:+ a = t +:+ b → s = t ∧ a = b.
Proof.
  revert t. induction s as [|c s IH]; intros [|d t] Hl; cbn in *; try done. intros [= -> H].
  apply IH in H as [-> ->]; [done | lia].
Qed.

(** A component of a 64-bit length. *)
Definition sized (p : string) : Prop := (Z.of_nat (String.length p) < 2 ^ 63)%Z.

Lemma writeComponents_cons_inj p q ps qs : sized p → sized q →
  writeComponents (p :: ps) = writeComponents (q :: qs) → p = q ∧ writeComponents ps = writeComponents qs.
Proof.
  unfold sized. intros Hp Hq. cbn [writeComponents foldr]. fold (writeComponents ps) (writeComponents qs). unfold uvarint.
  assert (Hmax : (2 ^ 63 < 128 ^ Z.of_nat 10)%Z) by (vm_compute; reflexivity).
  intros H. apply uvarint_prefix in H as [Hl H]; [|lia..]. apply str_app_inj_len in H; [done | lia].
Qed.

Lemma uvarint_not_empty n s : uvarint n +:+ s ≠ "".
Proof. unfold uvarint. cbn [uvarint_fuel]. by destruct (Z.ltb n 128). Qed.

(** What is hashed determines the components, however many and whatever they
    hold. *)
Lemma writeComponents_inj ps : ∀ qs, Forall sized ps → Forall sized qs → writeComponents ps = writeComponents qs → ps = qs.
Proof.
  induction ps as [|p ps IH]; intros [|q qs] Hp Hq H; [done | | |].
  - by destruct (uvarint_not_empty _ _ (eq_sym H)).
  - by destruct (uvarint_not_empty _ _ H).
  - apply Forall_cons in Hp as [Hp Hps], Hq as [Hq Hqs]. apply writeComponents_cons_inj in H as [-> H]; [|done..].
    by rewrite (IH qs).
Qed.

(** *** From bits to names *)

Lemma quintet_bound a b c d e : quintet a b c d e < 32.
Proof. destruct a, b, c, d, e; vm_compute; lia. Qed.
Lemma quintet_inj a b c d e a' b' c' d' e' : quintet a b c d e = quintet a' b' c' d' e' →
  [a; b; c; d; e] = [a'; b'; c'; d'; e'].
Proof. destruct a, b, c, d, e, a', b', c', d', e'; vm_compute; intros [=]; reflexivity. Qed.

(** The characters of an identity, one for each number below 32. *)
Definition id_chars : list ascii := (λ n, lower_ascii (base32_char n)) <$> seq 0 32.
Lemma id_chars_ok : forallb id_char id_chars = true ∧ NoDup id_chars.
Proof. split; [vm_compute; reflexivity |]. apply (bool_decide_unpack _). vm_compute. exact I. Qed.
Lemma lower_char_inj n m : n < 32 → m < 32 → lower_ascii (base32_char n) = lower_ascii (base32_char m) → n = m.
Proof.
  intros Hn Hm H. eapply (NoDup_lookup id_chars); [apply id_chars_ok | |];
    unfold id_chars; rewrite list_lookup_fmap, lookup_seq_lt by done; cbn; by rewrite ?H.
Qed.
Lemma lower_char_ok n : n < 32 → id_char (lower_ascii (base32_char n)) = true.
Proof.
  intros Hn. destruct id_chars_ok as [H _]. rewrite forallb_forall in H. apply H. apply list_elem_of_In, list_elem_of_fmap.
  exists n. split; [done |]. apply list_elem_of_In, in_seq. lia.
Qed.

Lemma to_lower_ascii c s : nat_of_ascii c < 128 → to_lower (String c s) = String (lower_ascii c) (to_lower s).
Proof.
  intros Hc. cbn [to_lower]. destruct s as [|d s]; [done |].
  rewrite (proj2 (Nat.eqb_neq (nat_of_ascii c) 196)), (proj2 (Nat.eqb_neq (nat_of_ascii c) 226)) by lia. by destruct s.
Qed.
Lemma base32_char_ascii n : n < 32 → nat_of_ascii (base32_char n) < 128.
Proof. intros Hn. unfold base32_char. rewrite nat_ascii_embedding by (destruct (n <? 26); lia). destruct (Nat.ltb_spec n 26); lia. Qed.

(** Five bits a character. *)
Lemma base32_five n : ∀ l, 5 * S n ≤ length l → ∃ a b c d e l', l = a :: b :: c :: d :: e :: l' ∧ 5 * n ≤ length l' ∧
  take_str (S n) (to_lower (base32_bits l)) =
  String (lower_ascii (base32_char (quintet a b c d e))) (take_str n (to_lower (base32_bits l'))).
Proof.
  intros l Hl. destruct l as [|a [|b [|c [|d [|e l]]]]]; cbn in Hl; try lia. exists a, b, c, d, e, l. split; [done |]. split; [lia |].
  cbn [base32_bits]. by rewrite to_lower_ascii by (apply base32_char_ascii, quintet_bound).
Qed.

Lemma id_bits n : ∀ l l', 5 * n ≤ length l → 5 * n ≤ length l' →
  take_str n (to_lower (base32_bits l)) = take_str n (to_lower (base32_bits l')) → take (5 * n) l = take (5 * n) l'.
Proof.
  induction n as [|n IH]; intros l l' Hl Hl'; [by rewrite !Nat.mul_0_r |].
  destruct (base32_five n l Hl) as (a & b & c & d & e & m & -> & Hm & ->).
  destruct (base32_five n l' Hl') as (a' & b' & c' & d' & e' & m' & -> & Hm' & ->).
  intros [= H1 H2]. apply lower_char_inj, quintet_inj in H1; [|apply quintet_bound..]. apply IH in H2; [|done..].
  injection H1 as -> -> -> -> ->. replace (5 * S n) with (S (S (S (S (S (5 * n)))))) by lia. cbn. do 5 f_equal. exact H2.
Qed.

Fixpoint all_chars (f : ascii → bool) (s : string) : bool :=
  match s with EmptyString => true | String c s => f c && all_chars f s end.

Lemma id_shape n : ∀ l, 5 * n ≤ length l →
  String.length (take_str n (to_lower (base32_bits l))) = n ∧ all_chars id_char (take_str n (to_lower (base32_bits l))) = true.
Proof.
  induction n as [|n IH]; intros l Hl; [by destruct (to_lower _) |].
  destruct (base32_five n l Hl) as (a & b & c & d & e & m & -> & Hm & ->). destruct (IH m Hm) as [H1 H2]. cbn.
  rewrite H1, H2, lower_char_ok by apply quintet_bound. done.
Qed.

Lemma match_exact n f : ∀ p cs k, match_re (rexact n (RCls f)) p cs k =
  if all_chars f (take_str n (p_rest p)) && (n <=? String.length (p_rest p))
  then k (mk_pos (match n with O => p_prev p | _ => last (String.list_ascii_of_string (take_str n (p_rest p))) end) (drop_str n (p_rest p))) cs
  else None.
Proof.
  induction n as [|n IH]; intros [prev s] cs k; cbn [rexact match_re p_rest p_prev].
  - by destruct s.
  - destruct s as [|c s]; [done |]. cbn [take_str all_chars String.length drop_str]. destruct (f c); [|done]. rewrite IH. cbn [p_rest p_prev andb].
    change (S n <=? S (String.length s)) with (n <=? String.length s). destruct (_ && _) eqn:E; [|done]. f_equal. f_equal.
    destruct n as [|n]; [by destruct s |]. destruct s as [|d s]; [by rewrite andb_false_r in E | done].
Qed.

Lemma find_from_anchored r s c : find_from (RSeq RBol r) (Some c) s = None.
Proof. revert c. induction s as [|d s IH]; intros c; cbn [find_from match_at match_re p_prev]; [done | by rewrite IH]. Qed.

(** An identity is valid exactly when it is twenty-six letters and digits of the
    alphabet. *)
Lemma Valid_ok id : Valid id = true ↔ String.length id = 26 ∧ all_chars id_char id = true.
Proof.
  unfold Valid, match_string, idPattern. cbn [rseq]. set (r := RSeq (rexact 26 (RCls id_char)) REol).
  assert (E : match_at (RSeq RBol r) (mk_pos None id) =
              if all_chars id_char (take_str 26 id) && (26 <=? String.length id) && String.eqb (drop_str 26 id) ""
              then Some (mk_pos (last (String.list_ascii_of_string (take_str 26 id))) (drop_str 26 id), []) else None).
  { unfold match_at, r. cbn [match_re p_prev]. rewrite match_exact. cbn [p_rest match_re at_end]. unfold at_end. cbn [p_rest].
    destruct (all_chars _ _ && _); cbn [andb]; [|done]. by destruct (String.eqb _ _). }
  assert (Hl : ∀ n s, (n <=? String.length s) && String.eqb (drop_str n s) "" = (String.length s =? n)).
  { clear. induction n as [|n IH]; intros [|c s]; cbn; done. }
  assert (Ht : String.length id = 26 → take_str 26 id = id).
  { clear. generalize 26. intros n H. subst n. induction id as [|c s IH]; cbn; [done | by rewrite IH]. }
  specialize (Hl 26 id). destruct id as [|c s]; [split; [done | intros [[=] _]] |].
  cbn [find_from]. rewrite E, <- andb_assoc, Hl. destruct (Nat.eqb_spec (String.length (String c s)) 26) as [H26|H26].
  - rewrite Ht, andb_true_r, find_from_anchored by done. destruct (all_chars id_char (String c s)) eqn:Ea; [by split |].
    split; [intros H; discriminate H | intros [_ H]; discriminate H].
  - rewrite andb_false_r, find_from_anchored. naive_solver.
Qed.

Section naming.
Context (sha256 : string → string) (digest_length : ∀ s, String.length (sha256 s) = 32).

Lemma digest_bits s : 5 * IDLength ≤ length (bits_of (sha256 s)).
Proof using digest_length.
  assert (H : ∀ l, length (l ≫= byte_bits) = 8 * length l).
  { induction l as [|[] l IH]; cbn [mbind list_bind]; [done |]. rewrite length_app, IH. cbn. lia. }
  unfold bits_of. rewrite H. assert (Hl : ∀ t, length (String.list_ascii_of_string t) = String.length t) by (induction t as [|c t IH]; cbn; [done | by rewrite IH]).
  rewrite Hl, digest_length. unfold IDLength. lia.
Qed.

Lemma derived_valid stream : Valid (derived sha256 stream) = true.
Proof using digest_length. apply Valid_ok. apply (id_shape IDLength). apply digest_bits. Qed.

(** The bits of a digest an identity keeps, 130 of 256. *)
Definition kept_bits (stream : string) : list bool := take (5 * IDLength) (bits_of (sha256 stream)).

Lemma derived_exact l s s' : collision_free kept_bits l → s ∈ l → s' ∈ l → derived sha256 s = derived sha256 s' ↔ s = s'.
Proof using digest_length.
  intros Hc Hs Hs'. split; [intros H | by intros ->]. apply Hc; [done | done |]. apply id_bits; [apply digest_bits.. | exact H].
Qed.

(** What the identities of a workspace and of a repository in one are digests of. *)
Definition workspace_components (w : string * string * string) : list string :=
  ["le-workspace-v" +:+ pretty WorkspaceIDScheme; w.1.1; w.1.2; w.2].
Definition repository_components (r : string * string * string) : list string :=
  ["le-repo-v" +:+ pretty WorkspaceIDScheme; r.1.1; r.1.2; r.2].

Lemma components_exact ps qs l : collision_free kept_bits l → writeComponents ps ∈ l → writeComponents qs ∈ l →
  Forall sized ps → Forall sized qs → derived sha256 (writeComponents ps) = derived sha256 (writeComponents qs) ↔ ps = qs.
Proof using digest_length.
  intros Hc Hp Hq Sp Sq. rewrite (derived_exact l) by done. split; [by apply writeComponents_inj | by intros ->].
Qed.

(** C23: An identity is a name of its own.  Every identity derived - of a workspace,
    of a repository in one - has the form a store accepts.  Where the digest
    tells apart the encodings of two workspaces and of two repositories, on the
    130 bits that are kept, two workspaces share an identity exactly when they
    have the same root, remote and name, two repositories exactly when they have
    the same workspace, path and remote, and no repository shares one with a
    workspace.  No choice of components, whatever bytes they hold, imitates
    another. *)
Theorem identities_distinct root remote name root' remote' name' ws path origin ws' path' origin' :
  Forall sized [root; remote; name; root'; remote'; name'; ws; path; origin; ws'; path'; origin'] →
  collision_free kept_bits (writeComponents <$>
    [workspace_components (root, remote, name); workspace_components (root', remote', name');
     repository_components (ws, path, origin); repository_components (ws', path', origin')]) →
  Valid (DeriveID sha256 root remote name) = true ∧ Valid (DeriveRepositoryID sha256 ws path origin) = true ∧
  (DeriveID sha256 root remote name = DeriveID sha256 root' remote' name' ↔ (root, remote, name) = (root', remote', name')) ∧
  (DeriveRepositoryID sha256 ws path origin = DeriveRepositoryID sha256 ws' path' origin' ↔ (ws, path, origin) = (ws', path', origin')) ∧
  DeriveRepositoryID sha256 ws path origin ≠ DeriveID sha256 root remote name.
Proof using digest_length.
  rewrite !Forall_cons. intros (H1 & H2 & H3 & H4 & H5 & H6 & H7 & H8 & H9 & H10 & H11 & H12 & _) Hc.
  split_and!; [apply derived_valid.. | | |]; unfold DeriveID, DeriveRepositoryID;
    rewrite (components_exact _ _ _ Hc);
    try (apply list_elem_of_fmap; eexists; split; [reflexivity | set_solver]);
    try (rewrite !Forall_cons; split_and!; try done; by vm_compute); [naive_solver | naive_solver | discriminate].
Qed.
End naming.

(** ** Finding the root *)

Definition marked (f : fs) (dir : apath) : Prop := is_ok (Stat f (MarkerPath dir)) = true.

Lemma find_up_spec f rdir r : find_up f rdir = Ok r ↔
  marked f r ∧ ∃ s, rev rdir = r ++ s ∧ ∀ s1 s2, s = s1 ++ s2 → s1 ≠ [] → ¬ marked f (r ++ s1).
Proof.
  unfold marked. induction rdir as [|b up IH]; cbn [find_up].
  - cbn [rev]. destruct (is_ok (Stat f (MarkerPath []))) eqn:E.
    + split; [intros [= <-]; split; [done |]; exists []; split; [done |]; intros [|] ?; naive_solver |].
      by intros (_ & s & [-> _]%eq_sym%app_eq_nil & _).
    + split; [done |]. intros (Hm & s & [-> _]%eq_sym%app_eq_nil & _). congruence.
  - cbn [rev] in *. destruct (is_ok (Stat f (MarkerPath (rev up ++ [b])))) eqn:E.
    + split.
      * intros [= <-]. split; [done |]. exists []. rewrite app_nil_r. split; [done |]. intros [|] ?; naive_solver.
      * intros (_ & s & Hs & Hn). destruct s as [|c s _] using rev_ind; [by rewrite app_nil_r in Hs; rewrite Hs |].
        destruct (Hn (s ++ [c]) []); [by rewrite app_nil_r | by destruct s | by rewrite <- Hs].
    + rewrite IH. split; intros (Hm & s & Hs & Hn); (split; [done |]).
      * exists (s ++ [b]). rewrite Hs, app_assoc. split; [done |]. intros s1 s2 H12 Hne.
        destruct s2 as [|c s2 _] using rev_ind; [rewrite app_nil_r in H12; subst s1; by rewrite app_assoc, <- Hs, E |].
        rewrite app_assoc in H12. apply app_inj_tail in H12 as [-> _]. by eapply Hn.
      * destruct s as [|c s _] using rev_ind; [rewrite app_nil_r in Hs; subst r; congruence |].
        rewrite app_assoc in Hs. apply app_inj_tail in Hs as [Hs ->]. exists s. split; [done |]. intros s1 s2 -> Hne.
        apply (Hn s1 (s2 ++ [c])); [by rewrite app_assoc | done].
Qed.

Lemma find_up_none f rdir : find_up f rdir = Err ErrNotAWorkspace ↔ ∀ q s, rev rdir = q ++ s → ¬ marked f q.
Proof.
  unfold marked. induction rdir as [|b up IH]; cbn [find_up rev]; destruct (is_ok _) eqn:E.
  - split; [done |]. intros H. by destruct (H [] [] eq_refl).
  - split; [|done]. intros _ q s [-> _]%eq_sym%app_eq_nil. by rewrite E.
  - split; [done |]. intros H. destruct (H (rev up ++ [b]) []); [by rewrite app_nil_r | done].
  - rewrite IH. split; intros H q s Hs.
    + destruct s as [|c s _] using rev_ind; [rewrite app_nil_r in Hs; subst q; by rewrite E |].
      rewrite app_assoc in Hs. apply app_inj_tail in Hs as [Hs _]. by eapply H.
    + apply (H q (s ++ [b])). by rewrite Hs, app_assoc.
Qed.

(** The root of a workspace is the nearest directory at or above the start that
    holds a marker, and there is none exactly when [ErrNotAWorkspace] is
    returned. *)
Theorem FindRoot_nearest cwd f start r :
  (FindRoot cwd f start = Ok r ↔
   marked f r ∧ ∃ s, abs_path cwd start = r ++ s ∧ ∀ s1 s2, s = s1 ++ s2 → s1 ≠ [] → ¬ marked f (r ++ s1)) ∧
  (FindRoot cwd f start = Err ErrNotAWorkspace ↔ ∀ q s, abs_path cwd start = q ++ s → ¬ marked f q).
Proof.
  unfold FindRoot. by rewrite find_up_spec, find_up_none, rev_involutive.
Qed.

(** ** What is pinned is found *)

Section pinned.
Context (cwd : apath) (cwd_free : Forall slash_free cwd).
Context (parse_manifest : string → result Manifest) (encode_manifest : Manifest → result string).
(* yaml reads the text it wrote, below the comment that heads it *)
Context (yaml_reads : ∀ m body, encode_manifest m = Ok body → parse_manifest (manifest_header +:+ body) = Ok m).

Lemma CanonicalRoot_real f root r : CanonicalRoot cwd f root = Ok r → real_dir f r.
Proof using cwd_free.
  unfold CanonicalRoot. destruct (EvalSymlinks f _) as [q|] eqn:E; [|done]. cbn [wrap_r mbind result_bind].
  destruct (Stat f q) as [n|] eqn:ES; [|done]. cbn [wrap_r mbind result_bind]. destruct n; try done. intros [= <-].
  apply EvalSymlinks_settled in E as [Hs Hn]; [|by apply abs_path_free]. split; [done |].
  revert ES. unfold Stat. rewrite EvalSymlinks_id by done. by destruct (lookup_node f q) as [[]|]; intros [=].
Qed.

(** Where the marker goes there is nothing in the way: its directory is absent
    or a directory, its file absent or a file, and so with the file it is
    written to first. *)
Definition place_for_marker (f : fs) (root : apath) : Prop :=
  (f !! (root ++ [MarkerDir]) = None ∨ f !! (root ++ [MarkerDir]) = Some NDir) ∧
  (∀ n, f !! (root ++ [MarkerDir; MarkerFile +:+ ".tmp"]) = Some n → ∃ old, n = NFile old) ∧
  f !! MarkerPath root ≠ Some NDir.

Lemma marker_names : plain MarkerDir ∧ plain MarkerFile ∧ plain (MarkerFile +:+ ".tmp").
Proof. split_and!; apply plain_b_ok; vm_compute; reflexivity. Qed.

Lemma writeManifest_writes f root m body : well_formed f → real_dir f root → place_for_marker f root →
  encode_manifest m = Ok body →
  ∃ f', writeManifest encode_manifest f root m = (Ok tt, f') ∧ real_dir f' root ∧ real_dir f' (root ++ [MarkerDir]) ∧
    f' !! MarkerPath root = Some (NFile (manifest_header +:+ body)).
Proof.
  intros Hw Hr (Hdir & Htmp & Hm) Hbody. destruct marker_names as (P1 & P2 & P3). unfold writeManifest. rewrite Hbody.
  destruct (mkdir_below f root MarkerDir Hw Hr P1 Hdir) as (f1 & -> & _ & Hr0 & Hr1 & Hother).
  assert (Hsame : ∀ b, f1 !! ((root ++ [MarkerDir]) ++ [b]) = f !! (root ++ [MarkerDir; b])).
  { intros b. rewrite Hother; [by rewrite <- app_assoc |]. rewrite <- app_assoc. intros H%app_inv_head. discriminate H. }
  destruct (write_then_rename f1 (root ++ [MarkerDir]) (MarkerFile +:+ ".tmp") MarkerFile (manifest_header +:+ body)) as (f2 & -> & HR);
    [done | done | done | done | rewrite Hsame; exact Htmp | rewrite lookup_node_ne, Hsame by (by destruct root); exact Hm |].
  eexists. split; [exact HR |]. unfold MarkerPath. split_and!.
  - apply real_dir_insert; [apply real_dir_delete; [done |] |]; intros s; rewrite <- !app_assoc; apply (above_app root _ [_] s).
  - apply real_dir_insert; [apply real_dir_delete; [done |] |]; intros s; apply above_snoc.
  - rewrite <- app_assoc. apply lookup_insert_eq.
Qed.

(** C24: What [Init] pins, [Open] finds.  A workspace created at a directory is the
    workspace opened from it and from every directory below that is not nearer
    to another marker: the same root, the same identity, the same manifest. *)
Theorem Init_then_Open sha256 git f root opts now canonical start :
  (∀ s, String.length (sha256 s) = 32) →
  well_formed f → CanonicalRoot cwd f root = Ok canonical → place_for_marker f canonical →
  ∀ w f', Init cwd sha256 git encode_manifest f root opts now = (Ok w, f') →
  (∃ s, abs_path cwd start = canonical ++ s ∧ ∀ s1 s2, s = s1 ++ s2 → s1 ≠ [] → ¬ marked f' (canonical ++ s1)) →
  Open_ cwd parse_manifest f' start = Ok w ∧ Ws_Root w = canonical ∧
  Ws_ID w = DeriveID sha256 (show_path canonical) (GitRemote git canonical)
              (if String.eqb (Io_Name opts) "" then base_name (show_path canonical) else Io_Name opts).
Proof using cwd_free yaml_reads.
  intros Hsha Hw Hc Hplace w f'. unfold Init. rewrite Hc. destruct (_ && _); [done |].
  destruct (init_repositories _ _ _ _ _ _) as [repos|]; [|done].
  set (name := if String.eqb (Io_Name opts) "" then _ else _).
  set (m := mk_manifest _ _ _ _ _ _). intros Hinit (s & Hs & Hnear).
  assert (Hreal : real_dir f canonical) by (by eapply CanonicalRoot_real).
  destruct (encode_manifest m) as [body|e] eqn:Ee.
  2: { revert Hinit. unfold writeManifest. rewrite Ee. by destruct (MkdirAll _ _) as [[] ?]. }
  destruct (writeManifest_writes f canonical m body Hw Hreal Hplace Ee) as (f1 & E & Hr1 & Hd1 & Hbody).
  rewrite E in Hinit. injection Hinit as <- <-. split; [|done].
  assert (Hread : ReadFile f1 (MarkerPath canonical) = Ok (manifest_header +:+ body)).
  { unfold MarkerPath in *. replace (canonical ++ [MarkerDir; MarkerFile]) with ((canonical ++ [MarkerDir]) ++ [MarkerFile]) in * by (by rewrite <- app_assoc).
    apply ReadFile_real; [done | apply marker_names | done]. }
  assert (Hmark : marked f1 canonical) by (unfold marked; revert Hread; unfold ReadFile; by destruct (Stat _ _)).
  unfold Open_. unfold FindRoot. rewrite (proj2 (find_up_spec f1 _ canonical)) by (rewrite rev_involutive; eauto). cbn [mbind result_bind].
  unfold OpenRoot, CanonicalRoot. rewrite abs_show by apply Hr1. destruct (real_dir_stat _ _ Hr1) as [HS HE].
  rewrite HE. cbn [wrap_r mbind result_bind]. rewrite HS. cbn [wrap_r mbind result_bind]. rewrite Hread, (yaml_reads _ _ Ee).
  cbn [wrap_r mbind result_bind]. change (Ma_ID m) with (DeriveID sha256 (show_path canonical) (GitRemote git canonical) name).
  unfold DeriveID. by rewrite derived_valid.
Qed.
End pinned.

(** ** A concrete workspace *)

(** A digest for the examples: the last bytes of a text. *)
Definition demo_sha (s : string) : string :=
  take_str 32 (String.string_of_list_ascii (rev (String.list_ascii_of_string s)) +:+ "................................").
Definition demo_tree : fs := {[ ["p"] := NDir; ["p"; "sub"] := NDir; ["p"; "sub"; "x.go"] := NFile "package sub" ]}.
Definition demo_git (root : apath) (args : list string) : option string := None.
(** A manifest as a text: its identity, its name, its root and its time. *)
Definition demo_encode (m : Manifest) : result string :=
  if decide (m = mk_manifest 1 (Ma_ID m) "p" 5 (mk_derivation "/p" "" "p")
                  [mk_repository (DeriveRepositoryID demo_sha (Ma_ID m) "." "") "p" "." "" "main"])
  then Ok (Ma_ID m) else Err (errorf "not the demo").
Definition demo_parse (s : string) : result Manifest :=
  let id := drop_str (String.length manifest_header) s in
  Ok (mk_manifest 1 id "p" 5 (mk_derivation "/p" "" "p")
        [mk_repository (DeriveRepositoryID demo_sha id "." "") "p" "." "" "main"]).

Lemma demo_sha_length s : String.length (demo_sha s) = 32.
Proof.
  unfold demo_sha. rewrite take_str_length, length_app_str. cbn [String.length]. lia.
Qed.

Lemma identities_distinct_witness :
  Valid (DeriveID demo_sha "/p" "" "p") = true ∧
  DeriveID demo_sha "/p" "" "p" ≠ DeriveID demo_sha "/p" "p" "" ∧
  DeriveRepositoryID demo_sha "w" "." "" ≠ DeriveRepositoryID demo_sha "w" "sub" "" ∧
  DeriveRepositoryID demo_sha "w" "." "" ≠ DeriveID demo_sha "/p" "" "p".
Proof.
  destruct (identities_distinct demo_sha demo_sha_length "/p" "" "p" "/p" "p" "" "w" "." "" "w" "sub" "") as (H1 & _ & H2 & H3 & H4).
  - by repeat (constructor; [vm_compute; reflexivity |]).
  - apply collision_free_b. vm_compute. reflexivity.
  - split_and!; [exact H1 | rewrite H2; congruence | rewrite H3; congruence | exact H4].
Defined.

Definition demo_init := Init [] demo_sha demo_git demo_encode demo_tree "/p" (mk_init "" [] false) 5000000000.

Lemma demo_init_ok : is_ok demo_init.1 = true ∧ is_ok (Stat demo_init.2 (MarkerPath ["p"; "sub"])) = false.
Proof. split; vm_compute; reflexivity. Qed.

Lemma Init_then_Open_witness :
  Open_ [] demo_parse demo_init.2 "/p/sub" = demo_init.1 ∧ is_ok demo_init.1 = true.
Proof.
  destruct demo_init_ok as [Hok Hsub]. destruct demo_init as [r f'] eqn:E. cbn [fst snd] in *. destruct r as [w|e]; [clear Hok | discriminate Hok].
  assert (Hs : ∃ s, abs_path [] "/p/sub" = ["p"] ++ s ∧ ∀ s1 s2, s = s1 ++ s2 → s1 ≠ [] → ¬ marked f' (["p"] ++ s1)).
  { exists ["sub"]. split; [reflexivity |]. intros [|b s1] s2 H Hne; [by destruct Hne |]. injection H as <- H.
    apply eq_sym, app_eq_nil in H as [-> ->]. unfold marked. cbn [app]. rewrite Hsub. discriminate. }
  destruct (Init_then_Open [] (Forall_nil_2 _) demo_parse demo_encode) with (sha256 := demo_sha) (git := demo_git) (f := demo_tree)
    (root := "/p") (opts := mk_init "" [] false) (now := 5000000000%Z) (canonical := ["p"]) (start := "/p/sub") (w := w) (f' := f')
    as (H1 & _ & _).
  - intros m body. unfold demo_encode. case_decide as Hm; [|done]. intros [= <-]. rewrite Hm at 2. vm_compute. reflexivity.
  - apply demo_sha_length.
  - apply well_formed_b_ok. vm_compute. reflexivity.
  - vm_compute. reflexivity.
  - unfold place_for_marker. split_and!; [left; vm_compute; reflexivity | | vm_compute; discriminate]. intros n. vm_compute. discriminate.
  - exact E.
  - exact Hs.
  - split; [exact H1 | reflexivity].
Defined.
