(* ===== verification/Blobs.v ===== *)
(** The stores of bytes under a workspace's directory: the namespaced blobs of
    [src/internal/store/blobs.go], the cache of analyses over them
    ([cache/cache.go]) and the content-addressed artifacts
    ([artifacts/artifacts.go]).  The cache refines a map from what was analysed
    to what was found; an artifact is what its name says. *)
From S2P Require Import Prelude GoStrings GoPath GoRegexp Worktree Files Workspace.
From Stdlib Require Import Ascii.

Open Scope string_scope.
Open Scope list_scope.
Open Scope nat_scope.

Notation FM := (M fs).

(** A call on the file system that answers with what it did. *)
Definition call {A : Type} (g : fs → result A * fs) : FM A := g.
(** A call that only looks. *)
Definition look {A : Type} (g : fs → result A) : FM A := λ f, (g f, f).
(** A deferred call: made last, whatever came of the rest. *)
Definition deferred {A : Type} (g : fs → fs) (m : FM A) : FM A := λ f, let '(r, f) := m f in (r, g f).

(** ** Blobs *)

(** [store/blobs.go:17-20 BlobDir] *)
Record BlobDir := mk_blobs { Bl_ws : string; Bl_dir : apath }.

(** [store/blobs.go:35-35 ErrNoBlob] *)
Definition ErrNoBlob : error := mk_error (Some "store.ErrNoBlob") "store: blob not found".

(** [filepath.Join(dir, a, b)]. *)
Definition join2 (dir : apath) (a b : string) : apath := clean_comps true (rev dir) (split_char slash a ++ split_char slash b).

(** [store/blobs.go:23-31 Store.Blobs] of a workspace whose cache directory is
    given. *)
Definition Blobs (ws : string) (cacheDir : apath) (namespace : string) : FM BlobDir :=
  if String.eqb namespace "" || negb (String.eqb (clean namespace) namespace) || is_abs namespace
  then throw (errorf ("store: " +:+ quoted namespace +:+ " is not a valid blob namespace"))
  else
    let dir := join_comps cacheDir namespace in
    _ ← call (λ f, MkdirAll f dir);
    mret (mk_blobs ws dir).

(** [store/blobs.go:37-43 BlobDir.path] *)
Definition blob_path (b : BlobDir) (key : string) : result apath :=
  if (String.length key <? 3) || negb (String.eqb (clean key) key) || is_abs key || negb (String.eqb (base_name key) key)
  then Err (errorf ("store: " +:+ quoted key +:+ " is not a valid blob key"))
  else Ok (join2 (Bl_dir b) (take_str 2 key) (drop_str 2 key)).

(** [store/blobs.go:46-59 BlobDir.Get] *)
Definition blob_get (b : BlobDir) (key : string) (f : fs) : result string :=
  p ← blob_path b key;
  match ReadFile f p with
  | Ok body => Ok body
  | Err e => if is_not_exist e then Err ErrNoBlob else Err e
  end.

(** [os.CreateTemp(dir, pattern)] with the random part it drew: a name that is
    taken is drawn again, here an error. *)
Definition CreateTemp (dir : apath) (random : string) : FM apath := λ f,
  let p := dir ++ [".tmp-" +:+ random] in
  match Lstat f p with
  | Some _ => (Err EEXIST, f)
  | None => let '(r, f) := WriteFile f p "" in ((_ ← r; Ok p), f)
  end.

(** [store/blobs.go:70-86 BlobDir.Put] the file is written beside its place and
    renamed; what is left of it is removed. *)
Definition put_file (p : apath) (body random : string) : FM unit :=
  tmp ← CreateTemp (parent p) random;
  deferred (λ f, (RemoveFile f tmp).2)
    (_ ← call (λ f, WriteFile f tmp body); call (λ f, Rename f tmp p)).

(** [store/blobs.go:62-87 BlobDir.Put] *)
Definition blob_put (b : BlobDir) (key body random : string) : FM unit :=
  p ← lift (blob_path b key);
  _ ← call (λ f, MkdirAll f (parent p));
  put_file p body random.

(** [store/blobs.go:90-97 BlobDir.Has] *)
Definition blob_has (b : BlobDir) (key : string) (f : fs) : bool :=
  match blob_path b key with Err _ => false | Ok p => is_ok (Stat f p) end.

(** [store/store.go:190-194 clearDir] its loop. *)
Fixpoint remove_entries (dir : apath) (names : list (string * bool)) : FM unit :=
  match names with
  | [] => mret tt
  | (name, _) :: names => _ ← call (λ f, RemoveAll f (dir ++ [name])); remove_entries dir names
  end.
(** [store/store.go:182-196 clearDir] *)
Definition clearDir (dir : apath) : FM unit := λ f,
  match ReadDir f dir with
  | Err e => ((if is_not_exist e then Ok tt else Err e), f)
  | Ok names => remove_entries dir names f
  end.

(** [store/blobs.go:103-103 BlobDir.Clear] *)
Definition blob_clear (b : BlobDir) : FM unit := clearDir (Bl_dir b).

(** [store/blobs.go:106-127 BlobDir.Size] the bytes and the files below it; links
    are not followed. *)
Definition blob_size (b : BlobDir) (f : fs) : Z * nat :=
  foldr (λ e acc, match below (Bl_dir b) e.1, e.2 with
                  | Some (_ :: _), NFile body => (fst acc + Z.of_nat (String.length body), S (snd acc))%Z
                  | Some (_ :: _), NLink target => (fst acc + Z.of_nat (String.length target), S (snd acc))%Z
                  | _, _ => acc end) (0%Z, 0) (map_to_list f).

(** ** The cache *)

(** [encoding/hex.EncodeToString] *)
Definition hex_pair (c : ascii) : string :=
  String (hex_digit_of (nat_of_ascii c / 16)) (String (hex_digit_of (nat_of_ascii c mod 16)) "").
Fixpoint hex_string (s : string) : string :=
  match s with EmptyString => "" | String c s => hex_pair c +:+ hex_string s end.

(** [version/version.go:40-40 IndexerVersion] *)
Definition IndexerVersion : Z := 1.

Section cache.
Context (sha256 : string → string).

(** [cache/cache.go:33-38 Cache] *)
Record Cache := mk_cache { Ca_ws : string; Ca_blobs : BlobDir; hits : Z; misses : Z }.

(** [cache/cache.go:30-30 ErrMiss] *)
Definition ErrMiss : error := mk_error (Some "cache.ErrMiss") "cache: miss".

(** [cache/cache.go:42-52 New] a malformed namespace, which [analysis] is not,
    panics, and so does a directory that cannot be made. *)
Definition New (ws : string) (cacheDir : apath) : FM Cache :=
  b ← Blobs ws cacheDir "analysis"; mret (mk_cache ws b 0 0).

(** [cache/cache.go:64-72 Cache.Key] *)
Definition Key (c : Cache) (namespace manifest : string) : string :=
  hex_string (sha256 (writeComponents ["le-cache-v" +:+ pretty IndexerVersion; Ca_ws c; namespace; manifest])).

(** [cache/cache.go:75-86 Cache.Get] *)
Definition Get (c : Cache) (namespace manifest : string) (f : fs) : result string * Cache :=
  match blob_get (Ca_blobs c) (Key c namespace manifest) f with
  | Ok body => (Ok body, mk_cache (Ca_ws c) (Ca_blobs c) (hits c + 1) (misses c))
  | Err e => if bool_decide (err_is e = err_is ErrNoBlob)
             then (Err ErrMiss, mk_cache (Ca_ws c) (Ca_blobs c) (hits c) (misses c + 1))
             else (Err e, c)
  end.

(** [cache/cache.go:89-91 Cache.Put] *)
Definition Put (c : Cache) (namespace manifest body random : string) : FM unit :=
  blob_put (Ca_blobs c) (Key c namespace manifest) body random.

(** [cache/cache.go:103-103 Cache.Clear] *)
Definition Clear (c : Cache) : FM unit := blob_clear (Ca_blobs c).

(** [cache/cache.go:108-119 ManifestOf] *)
Definition ManifestOf (pairs : gmap string string) : string :=
  let keys := sort_strings (fst <$> map_to_list pairs) in
  hex_string (sha256 (foldr (λ k rest, writeComponents [k; default "" (pairs !! k)] +:+ rest) "" keys)).

(** ** Artifacts *)

(** [artifacts/artifacts.go:23-23 ErrNotFound] *)
Definition ErrNotFound (hash : string) : error := mk_error (Some "artifacts.ErrNotFound") ("artifacts: not found: " +:+ hash).

(** [artifacts/artifacts.go:37-40 Store.path] *)
Definition artifact_path (dir : apath) (hash : string) : apath := join2 dir (take_str 2 hash) (drop_str 2 hash).

(** [artifacts/artifacts.go:44-76 Store.Put] *)
Definition artifact_put (dir : apath) (body random : string) : FM string :=
  let hash := hex_string (sha256 body) in
  let p := artifact_path dir hash in
  present ← gets (λ f, is_ok (Stat f p));
  if present : bool then mret hash else
  _ ← call (λ f, MkdirAll f (parent p));
  _ ← put_file p body random;
  mret hash.

(** [artifacts/artifacts.go:88-105 Store.Get] *)
Definition artifact_get (dir : apath) (hash : string) (f : fs) : result string :=
  if String.length hash <? 3 then Err (errorf ("artifacts: " +:+ quoted hash +:+ " is not a content hash")) else
  match ReadFile f (artifact_path dir hash) with
  | Err e => if is_not_exist e then Err (ErrNotFound hash) else Err e
  | Ok body =>
      let got := hex_string (sha256 body) in
      if String.eqb got hash then Ok body
      else Err (errorf ("artifacts: " +:+ hash +:+ " is corrupt (content hashes to " +:+ got +:+ ")"))
  end.

(** [artifacts/artifacts.go:108-114 Store.Has] *)
Definition artifact_has (dir : apath) (hash : string) (f : fs) : bool :=
  negb (String.length hash <? 3) && is_ok (Stat f (artifact_path dir hash)).
End cache.

(** ** Names *)

(** Neither a slash nor a dot. *)
Definition dotless (s : string) : bool := all_chars (λ c, negb (Ascii.eqb c slash) && negb (Ascii.eqb c ".")) s.

Lemma all_chars_in f s c : all_chars f s = true → c ∈ String.list_ascii_of_string s → f c = true.
Proof. induction s as [|d s IH]; cbn; [set_solver |]. rewrite andb_true_iff, elem_of_cons. intros [Hd Hs] [->|Hc]; auto. Qed.

Lemma dotless_plain s : dotless s = true → s ≠ "" → plain s.
Proof.
  intros Hs Hne. assert (H : ∀ c, c ∈ String.list_ascii_of_string s → c ≠ slash ∧ c ≠ "."%char).
  { intros c Hc. apply (all_chars_in _ _ _ Hs) in Hc. rewrite andb_true_iff, !negb_true_iff in Hc. by rewrite !Ascii.eqb_neq in Hc. }
  split_and!; [by intros [? _]%H | done | |]; intros ->; by destruct (H "."%char) as [_ []]; [left |].
Qed.

Lemma dotless_split n s : dotless s = true → dotless (take_str n s) = true ∧ dotless (drop_str n s) = true.
Proof.
  unfold dotless. revert n. induction s as [|c s IH]; intros [|n]; cbn; try done. rewrite !andb_true_iff. naive_solver.
Qed.

Lemma split_plain c : plain c → split_char slash c = [c].
Proof. intros [Hf _]. by apply split_char_free. Qed.

Lemma base_name_plain c : plain c → base_name c = c.
Proof.
  intros Hc. pose proof (split_plain c Hc) as Hs. destruct Hc as (_ & Hne & _). unfold base_name. rewrite Hs.
  rewrite (proj2 (String.eqb_neq c "")) by done. rewrite filter_cons_True by done. by rewrite filter_nil.
Qed.

Lemma not_abs_plain c : plain c → is_abs c = false.
Proof.
  intros [Hf _]. unfold is_abs. destruct (has_prefix c "/") eqn:E; [|done]. apply has_prefix_spec in E as [r ->].
  destruct Hf. cbn. by left.
Qed.

Lemma clean_plain c : plain c → clean c = c.
Proof.
  intros Hc. unfold clean. rewrite not_abs_plain, split_plain by done. cbn [clean_comps]. destruct Hc as (_ & H1 & H2 & H3).
  apply String.eqb_neq in H1, H2, H3. by rewrite H1, H2, H3.
Qed.

Lemma join2_plain dir a b : Forall plain dir → plain a → plain b → join2 dir a b = dir ++ [a; b].
Proof.
  intros Hd Ha Hb. unfold join2. rewrite !split_plain by done. cbn [app]. rewrite clean_comps_id, rev_involutive; [done |]. by apply Forall_cons; split; [|apply Forall_singleton].
Qed.

(** Where a key is kept. *)
Definition spot (dir : apath) (key : string) : apath := dir ++ [take_str 2 key; drop_str 2 key].

Lemma spot_inj dir key key' : spot dir key = spot dir key' → key = key'.
Proof.
  intros H%app_inv_head.
  assert (take_str 2 key = take_str 2 key' ∧ drop_str 2 key = drop_str 2 key') as [H1 H2] by (split; congruence).
  assert (E : ∀ n s, s = take_str n s +:+ drop_str n s).
  { clear. induction n as [|n IH]; intros [|c s]; [done..|]. cbn [take_str drop_str]. change (String c s = String c (take_str n s +:+ drop_str n s)). by rewrite <- IH. }
  etransitivity; [apply (E 2 key) |]. rewrite H1, H2. symmetry. apply E.
Qed.

Lemma spot_names key : dotless key = true → 3 ≤ String.length key → plain (take_str 2 key) ∧ plain (drop_str 2 key).
Proof.
  intros Hd Hl. destruct (dotless_split 2 key Hd) as [H1 H2]. destruct key as [|a [|b [|c key]]]; cbn in Hl; try lia.
  split; by apply dotless_plain.
Qed.

Lemma blob_path_spot b key : Forall plain (Bl_dir b) → dotless key = true → 3 ≤ String.length key → blob_path b key = Ok (spot (Bl_dir b) key).
Proof.
  intros Hdir Hd Hl. assert (Hp : plain key) by (apply dotless_plain; [done |]; by destruct key; cbn in Hl; [lia |]).
  destruct (spot_names key Hd Hl) as [H1 H2]. unfold blob_path. rewrite clean_plain, base_name_plain, not_abs_plain, String.eqb_refl by done.
  rewrite (proj2 (Nat.ltb_ge _ _)) by done. cbn [negb orb]. by rewrite join2_plain.
Qed.

Lemma hex_dotless s : dotless (hex_string s) = true ∧ String.length (hex_string s) = 2 * String.length s.
Proof.
  assert (Hd : ∀ n, n < 16 → negb (Ascii.eqb (hex_digit_of n) slash) && negb (Ascii.eqb (hex_digit_of n) ".") = true).
  { intros n Hn. do 16 (destruct n as [|n]; [vm_compute; reflexivity |]). lia. }
  induction s as [|c s [IH1 IH2]]; [done |]. cbn [hex_string]. unfold hex_pair.
  change (String ?a (String ?b "") +:+ ?t) with (String a (String b t)). unfold dotless in *. cbn [all_chars String.length].
  pose proof (nat_ascii_bounded c). rewrite !Hd, IH1, IH2; [cbn; lia.. |].
  all: try (apply Nat.mod_upper_bound; lia). apply Nat.Div0.div_lt_upper_bound; lia.
Qed.

Lemma hex_inj s s' : hex_string s = hex_string s' → s = s'.
Proof.
  assert (Hd : ∀ n m, n < 16 → m < 16 → hex_digit_of n = hex_digit_of m → n = m).
  { intros n m Hn Hm H. apply (f_equal nat_of_ascii) in H. unfold hex_digit_of in H. rewrite !nat_ascii_embedding in H by (repeat destruct (_ <? _); lia).
    destruct (Nat.ltb_spec n 10), (Nat.ltb_spec m 10); lia. }
  revert s'. induction s as [|c s IH]; intros [|c' s'] H; try done. cbn [hex_string] in H. unfold hex_pair in H.
  change (String ?a (String ?b "") +:+ ?t) with (String a (String b t)) in H.
  assert (H1 : hex_digit_of (nat_of_ascii c / 16) = hex_digit_of (nat_of_ascii c' / 16)) by congruence.
  assert (H2 : hex_digit_of (nat_of_ascii c mod 16) = hex_digit_of (nat_of_ascii c' mod 16)) by congruence.
  assert (H3 : hex_string s = hex_string s') by congruence. clear H.
  pose proof (nat_ascii_bounded c). pose proof (nat_ascii_bounded c').
  apply Hd in H1; [|apply Nat.Div0.div_lt_upper_bound; lia..]. apply Hd in H2; [|apply Nat.mod_upper_bound; lia..].
  rewrite (IH _ H3). f_equal. assert (Hn : nat_of_ascii c = nat_of_ascii c').
  { pose proof (Nat.div_mod_eq (nat_of_ascii c) 16). pose proof (Nat.div_mod_eq (nat_of_ascii c') 16). lia. }
  apply (f_equal ascii_of_nat) in Hn. by rewrite !ascii_nat_embedding in Hn.
Qed.

(** ** What the calls do to a directory of spots *)

(** A store's directory: it is real, holds directories, and those hold files. *)
Record shape (f : fs) (dir : apath) : Prop := {
  sh_wf : well_formed f;
  sh_dir : real_dir f dir;
  sh_fan : ∀ a n, f !! (dir ++ [a]) = Some n → n = NDir;
  sh_file : ∀ a b n, f !! (dir ++ [a; b]) = Some n → ∃ body, n = NFile body;
}.

(** A name [CreateTemp] draws. *)
Definition temp_name (random : string) : string := ".tmp-" +:+ random.
Definition drawn (random : string) : Prop := all_chars digit random = true.

Lemma temp_plain random : drawn random → plain (temp_name random).
Proof.
  intros Hd. split_and!; [|done..]. intros Hin. unfold temp_name in Hin. change (".tmp-" +:+ random) with (String "." (String "t" (String "m" (String "p" (String "-" random))))) in Hin.
  cbn in Hin. repeat (apply elem_of_cons in Hin as [[=]|Hin]). by apply (all_chars_in _ _ _ Hd) in Hin.
Qed.
Lemma temp_not_key random key : dotless key = true → temp_name random ≠ drop_str 2 key.
Proof. intros Hk E. destruct (dotless_split 2 key Hk) as [_ H]. by rewrite <- E in H. Qed.

Lemma Lstat_real f d b : real_dir f d → Lstat f (d ++ [b]) = f !! (d ++ [b]).
Proof.
  intros Hd. unfold Lstat, parent. rewrite last_snoc, removelast_last. destruct (real_dir_stat f d Hd) as [_ ->]. by rewrite lookup_node_ne by (by destruct d).
Qed.

(** Writing a file through a temporary one changes that file and nothing else;
    a temporary name that is taken changes nothing. *)
Lemma put_file_does f d b body random : real_dir f d → plain b → drawn random → temp_name random ≠ b →
  (∀ n, f !! (d ++ [b]) = Some n → ∃ old, n = NFile old) →
  put_file (d ++ [b]) body random f =
  match f !! (d ++ [temp_name random]) with Some _ => (Err EEXIST, f) | None => (Ok tt, <[d ++ [b] := NFile body]> f) end.
Proof.
  intros Hd Hb Hr Hne Hold. pose proof (temp_plain _ Hr) as Ht. unfold put_file, parent. rewrite removelast_last. unfold mbind, M_bind at 1.
  unfold CreateTemp. fold (temp_name random). rewrite Lstat_real by done. destruct (f !! (d ++ [temp_name random])) as [n|] eqn:E; [done |].
  rewrite WriteFile_real by (done || by rewrite E). cbn [mbind result_bind]. unfold deferred, mbind, M_bind, call.
  set (f1 := <[d ++ [temp_name random] := NFile ""]> f).
  assert (Hd1 : real_dir f1 d) by (apply real_dir_insert; [done | intros s; apply above_snoc]).
  destruct (write_then_rename f1 d (temp_name random) b body) as (f2 & -> & ->); try done.
  - intros n. unfold f1. rewrite lookup_insert_eq. intros [= <-]. eauto.
  - unfold f1. rewrite lookup_node_insert_ne by (by apply app_snoc_ne). rewrite lookup_node_ne by (by destruct d).
    intros H. by destruct (Hold _ H).
  - f_equal. unfold f1. rewrite delete_insert_eq, delete_id by done. set (f3 := <[d ++ [b] := NFile body]> f).
    assert (Hd3 : real_dir f3 d) by (apply real_dir_insert; [done | intros s; apply above_snoc]).
    unfold RemoveFile. rewrite lstat_real by done. rewrite lookup_node_ne by (by destruct d). unfold f3 at 1.
    by rewrite lookup_insert_ne, E by (apply app_snoc_ne; congruence).
Qed.

(** The directories on the way are made where they are missing. *)
Lemma mkdir_fan f dir a : shape f dir → plain a →
  ∃ f1, MkdirAll f (dir ++ [a]) = (Ok tt, f1) ∧ shape f1 dir ∧ real_dir f1 (dir ++ [a]) ∧
    ∀ x b, f1 !! (dir ++ [x; b]) = f !! (dir ++ [x; b]).
Proof.
  intros [Hw Hd Hfan Hfile] Ha. destruct (mkdir_below f dir a Hw Hd Ha) as (f1 & E & Hw1 & Hd1 & Hr & Hsame).
  { destruct (f !! (dir ++ [a])) as [n|] eqn:E; [right; by rewrite (Hfan a n E) | by left]. }
  assert (Htwo : ∀ x b, f1 !! (dir ++ [x; b]) = f !! (dir ++ [x; b])) by (intros x b; apply Hsame; by intros H%app_inv_head).
  exists f1. split_and!; [done | | done | done]. split; [done | done | |].
  - intros x n Hx. destruct (decide (x = a)) as [->|Hne].
    + destruct Hr as [_ Hr]. rewrite lookup_node_ne in Hr by (by destruct dir). congruence.
    + rewrite Hsame in Hx; [by eapply Hfan |]. intros H%app_inv_head. congruence.
  - intros x b n. rewrite Htwo. apply Hfile.
Qed.

Lemma shape_put f dir a b body : shape f dir → real_dir f (dir ++ [a]) → shape (<[dir ++ [a; b] := NFile body]> f) dir.
Proof.
  intros [Hw Hd Hfan Hfile] Ha. assert (E : dir ++ [a; b] = (dir ++ [a]) ++ [b]) by (by rewrite <- app_assoc). split.
  - rewrite E. apply well_formed_insert; [done | apply Ha |]. left. rewrite <- E, lookup_node_ne by (by destruct dir).
    intros H. by destruct (Hfile a b _ H).
  - apply real_dir_insert; [done |]. intros s. rewrite <- app_assoc. apply (above_app dir a [b] s).
  - intros x n. rewrite lookup_insert_ne; [apply Hfan |]. by intros H%app_inv_head.
  - intros x c n. destruct (decide (dir ++ [a; b] = dir ++ [x; c])) as [<-|Hne].
    + rewrite lookup_insert_eq. intros [= <-]. eauto.
    + rewrite lookup_insert_ne by done. apply Hfile.
Qed.

(** A put keeps the shape; it either sets its own spot and no other file, or
    sets none. *)
Lemma blob_put_does f b key body random : shape f (Bl_dir b) → dotless key = true → 3 ≤ String.length key → drawn random →
  ∃ r f', blob_put b key body random f = (r, f') ∧ shape f' (Bl_dir b) ∧
    ∀ k, f' !! spot (Bl_dir b) k = if decide (is_ok r = true ∧ k = key) then Some (NFile body) else f !! spot (Bl_dir b) k.
Proof.
  intros Hs Hk Hl Hr. pose proof (sh_dir _ _ Hs) as Hd. destruct (spot_names key Hk Hl) as [P1 P2].
  unfold blob_put. rewrite blob_path_spot by (done || apply Hd). unfold mbind, M_bind, lift, call.
  assert (E : spot (Bl_dir b) key = (Bl_dir b ++ [take_str 2 key]) ++ [drop_str 2 key]) by (unfold spot; by rewrite <- app_assoc).
  assert (Ep : parent (spot (Bl_dir b) key) = Bl_dir b ++ [take_str 2 key]) by (rewrite E; unfold parent; apply removelast_last).
  rewrite Ep. destruct (mkdir_fan f (Bl_dir b) (take_str 2 key) Hs P1) as (f1 & -> & Hs1 & Hr1 & Hsame).
  rewrite E, put_file_does; [|done | done | done | by apply temp_not_key |].
  2: { intros n. rewrite <- E. apply (sh_file _ _ Hs1). }
  destruct (f1 !! _); eexists _, _; (split; [reflexivity |]).
  - split; [done |]. intros k. rewrite decide_False by naive_solver. apply Hsame.
  - rewrite <- E. split; [by apply shape_put |]. intros k. case_decide as Hkey.
    + destruct Hkey as [_ ->]. apply lookup_insert_eq.
    + rewrite lookup_insert_ne; [apply Hsame |]. intros Hsp%spot_inj. naive_solver.
Qed.

(** What stands at a spot. *)
Lemma stat_spot f dir key : shape f dir → dotless key = true → 3 ≤ String.length key →
  Stat f (spot dir key) = match f !! spot dir key with Some (NFile body) => Ok (NFile body) | _ => Err ENOENT end.
Proof.
  intros Hs Hk Hl. pose proof (sh_dir _ _ Hs) as Hd. destruct (spot_names key Hk Hl) as [P1 P2]. unfold spot.
  set (a := take_str 2 key) in *. set (c := drop_str 2 key) in *. replace (dir ++ [a; c]) with ((dir ++ [a]) ++ [c]) by (by rewrite <- app_assoc).
  destruct (f !! (dir ++ [a])) as [n|] eqn:Ea.
  - pose proof (sh_fan _ _ Hs a n Ea) as ->. pose proof (real_dir_below f dir a Hd P1 Ea) as Hr.
    assert (Hset : ∀ n, f !! ((dir ++ [a]) ++ [c]) = n → (∀ t, n ≠ Some (NLink t)) → settled f ((dir ++ [a]) ++ [c])).
    { intros n Hn Hnl. apply settled_child; [done | done |]. intros t. rewrite lookup_node_ne by (by destruct dir). rewrite Hn. apply Hnl. }
    unfold Stat. destruct (f !! ((dir ++ [a]) ++ [c])) as [n|] eqn:Ec.
    + assert (∃ body, n = NFile body) as [body ->] by (apply (sh_file _ _ Hs a c); by rewrite <- Ec, <- app_assoc).
      assert (Hn : lookup_node f ((dir ++ [a]) ++ [c]) = Some (NFile body)) by (by rewrite lookup_node_ne by (by destruct dir)).
      by rewrite (EvalSymlinks_id f _ (Hset _ eq_refl ltac:(done))), Hn by (by rewrite Hn).
    + by rewrite (EvalSymlinks_missing f _ (Hset _ eq_refl ltac:(done))) by (by rewrite lookup_node_ne by (by destruct dir)).
  - assert (f !! ((dir ++ [a]) ++ [c]) = None) as ->.
    { destruct (f !! ((dir ++ [a]) ++ [c])) eqn:Ec; [|done]. pose proof (sh_wf _ _ Hs (dir ++ [a]) c) as Hw.
      rewrite Ec, lookup_node_ne in Hw by (by destruct dir). rewrite Ea in Hw. by discriminate Hw. }
    rewrite <- app_assoc. unfold Stat, EvalSymlinks. cbn [app]. destruct Hd as [[Hpl Hdirs _] Hdir].
    rewrite (walk_missing_below f 255 [] dir a [c]); [done.. |].
    cbn. by rewrite lookup_node_ne by (by destruct dir).
Qed.

(** What is read at a spot. *)
Lemma blob_get_spot f b key : shape f (Bl_dir b) → dotless key = true → 3 ≤ String.length key →
  blob_get b key f = match f !! spot (Bl_dir b) key with Some (NFile body) => Ok body | _ => Err ErrNoBlob end.
Proof.
  intros Hs Hk Hl. unfold blob_get. rewrite blob_path_spot by (done || apply (sh_dir _ _ Hs)). cbn [mbind result_bind].
  unfold ReadFile. rewrite stat_spot by done. by destruct (f !! _) as [[]|].
Qed.

(** Removing an entry removes what is below it, and leaves the rest. *)
Lemma remove_entry f dir b : shape f dir →
  ∃ f', RemoveAll f (dir ++ [b]) = (Ok tt, f') ∧ shape f' dir ∧
    (∀ s, f' !! (dir ++ b :: s) = None) ∧ ∀ x s, x ≠ b → f' !! (dir ++ x :: s) = f !! (dir ++ x :: s).
Proof.
  intros [Hw Hd Hfan Hfile]. pose proof (lstat_real f dir b Hd) as HL.
  eexists. split; [unfold RemoveAll; rewrite HL; reflexivity |].
  set (f' := filter _ f). assert (Hat : ∀ x, f' !! x = if decide (below (dir ++ [b]) x = None) then f !! x else None).
  { apply (RemoveAll_at f f' (dir ++ [b]) _ HL). unfold RemoveAll. by rewrite HL. }
  assert (Hin : ∀ s, f' !! (dir ++ b :: s) = None).
  { intros s. rewrite Hat, decide_False; [done |]. replace (dir ++ b :: s) with ((dir ++ [b]) ++ s) by (by rewrite <- app_assoc). by rewrite below_app. }
  assert (Hout : ∀ x s, x ≠ b → f' !! (dir ++ x :: s) = f !! (dir ++ x :: s)).
  { intros x s Hx. rewrite Hat, decide_True; [done |]. apply below_none. intros q. rewrite <- app_assoc. intros H%app_inv_head. cbn in H. congruence. }
  assert (Hsub : ∀ x n, f' !! x = Some n → f !! x = Some n) by (intros x n; rewrite Hat; by case_decide).
  split_and!; [|exact Hin | exact Hout]. split.
  - intros p c Hp. destruct (f' !! (p ++ [c])) as [n|] eqn:E; [|done]. pose proof (Hsub _ _ E) as Ef.
    assert (Hl : lookup_node f p = Some NDir) by (by apply (Hw p c); rewrite Ef). destruct p as [|x p]; [done |].
    change (f' !! (x :: p) = Some NDir). change (f !! (x :: p) = Some NDir) in Hl. rewrite Hat in E |- *.
    destruct (decide (below (dir ++ [b]) ((x :: p) ++ [c]) = None)) as [Hn|]; [|done]. rewrite decide_True; [done |].
    rewrite below_none in Hn |- *. intros q Hq. apply (Hn (q ++ [c])). by rewrite Hq, <- !app_assoc.
  - apply (real_dir_ext f); [done |]. intros q s Hq. destruct q as [|x q]; [done |]. change (f' !! (x :: q) = f !! (x :: q)).
    rewrite Hat, decide_True; [done |]. apply below_none. intros r Hr. rewrite Hr in Hq.
    apply (f_equal length) in Hq. rewrite !length_app in Hq. cbn in Hq. lia.
  - intros x n Hx%Hsub. by eapply Hfan.
  - intros x c n Hx%Hsub. by eapply Hfile.
Qed.

Lemma remove_entries_does dir names : ∀ f, shape f dir →
  ∃ f', remove_entries dir names f = (Ok tt, f') ∧ shape f' dir ∧
    ∀ x s, f' !! (dir ++ x :: s) = if decide (x ∈ fst <$> names) then None else f !! (dir ++ x :: s).
Proof.
  induction names as [|[b d] names IH]; intros f Hs.
  - exists f. split_and!; [done | done |]. intros x s. rewrite decide_False; [done |]. apply not_elem_of_nil.
  - destruct (remove_entry f dir b Hs) as (f1 & E1 & Hs1 & Hin & Hout). destruct (IH f1 Hs1) as (f2 & E2 & Hs2 & Hat).
    exists f2. cbn [remove_entries]. unfold mbind, M_bind, call. rewrite E1. split_and!; [exact E2 | done |].
    intros x s. rewrite Hat. cbn [fmap list_fmap fst]. destruct (decide (x = b)) as [->|Hx].
    + rewrite (decide_True (P := b ∈ b :: _)) by left. rewrite Hin. by case_decide.
    + rewrite Hout by done. destruct (decide (x ∈ fst <$> names)) as [H|H].
      * by rewrite decide_True by (by right).
      * rewrite decide_False; [done |]. intros [?|?]%elem_of_cons; done.
Qed.

Lemma clear_does f dir : shape f dir →
  ∃ f', clearDir dir f = (Ok tt, f') ∧ shape f' dir ∧ ∀ k, f' !! spot dir k = None.
Proof.
  intros Hs. pose proof (sh_dir _ _ Hs) as Hd. destruct (real_dir_stat f dir Hd) as [_ HE]. unfold clearDir.
  destruct (ReadDir f dir) as [names|e] eqn:ER.
  - destruct (remove_entries_does dir names f Hs) as (f' & E & Hs' & Hat). exists f'. split_and!; [done | done |].
    intros k. unfold spot. rewrite Hat. case_decide as Hin; [done |].
    destruct (f !! (dir ++ [take_str 2 k; drop_str 2 k])) as [n|] eqn:Ek; [|done]. destruct Hin.
    assert (Hl : lookup_node f (dir ++ [take_str 2 k]) = Some NDir).
    { apply (sh_wf _ _ Hs _ (drop_str 2 k)). rewrite <- app_assoc. cbn [app]. by rewrite Ek. }
    rewrite lookup_node_ne in Hl by (by destruct dir). apply list_elem_of_fmap. exists (take_str 2 k, true). split; [done |].
    apply (elem_of_ReadDir f dir dir names HE ER). by exists NDir.
  - exfalso. revert ER. unfold ReadDir. rewrite HE. cbn [mbind result_bind]. destruct Hd as [_ Hd]. by rewrite Hd.
Qed.

(** ** The cache refines a map *)

Section refines.
Context (sha256 : string → string) (digest_length : ∀ s, String.length (sha256 s) = 32).
Context (dir : apath).                     (* one directory, shared or not *)

(** What a cache entry is for: the workspace, the analyzer, the manifest. *)
Notation subject := (string * string * string)%type.
Definition cache_of (ws : string) : Cache := mk_cache ws (mk_blobs ws dir) 0 0.
Definition key_of (s : subject) : string := Key sha256 (cache_of s.1.1) s.1.2 s.2.

Inductive cache_op :=
| OPut (s : subject) (body random : string)
| OClear (ws : string).

Definition cache_step (o : cache_op) : FM unit :=
  match o with
  | OPut s body random => Put sha256 (cache_of s.1.1) s.1.2 s.2 body random
  | OClear ws => Clear (cache_of ws)
  end.
Definition map_step (o : cache_op) (m : gmap subject string) : gmap subject string :=
  match o with OPut s body _ => <[s := body]> m | OClear _ => ∅ end.

(** The file system after a history of operations, and the map after those that
    succeeded. *)
Fixpoint history (ops : list cache_op) (f : fs) (m : gmap subject string) : fs * gmap subject string :=
  match ops with
  | [] => (f, m)
  | o :: ops => let '(r, f) := cache_step o f in history ops f (match r with Ok _ => map_step o m | Err _ => m end)
  end.

Definition op_drawn (o : cache_op) : Prop := match o with OPut _ _ random => drawn random | OClear _ => True end.
Definition op_subject (o : cache_op) : list subject := match o with OPut s _ _ => [s] | OClear _ => [] end.

Lemma key_dotless s : dotless (key_of s) = true ∧ 3 ≤ String.length (key_of s).
Proof using digest_length.
  unfold key_of, Key. destruct (hex_dotless (sha256 (writeComponents ["le-cache-v" +:+ pretty IndexerVersion; Ca_ws (cache_of s.1.1); s.1.2; s.2]))) as [-> ->].
  rewrite digest_length. split; [done | lia].
Qed.

(** The directory holds the map, as far as the subjects [K] go. *)
Definition holds (K : subject → Prop) (f : fs) (m : gmap subject string) : Prop :=
  shape f dir ∧ ∀ s, K s → f !! spot dir (key_of s) = NFile <$> m !! s.

Lemma history_holds (K : subject → Prop) ops : (∀ s s', K s → K s' → key_of s = key_of s' → s = s') →
  Forall op_drawn ops → Forall (λ o, ∀ s, s ∈ op_subject o → K s) ops →
  ∀ f m, holds K f m → holds K (history ops f m).1 (history ops f m).2.
Proof using digest_length.
  intros Hinj. induction ops as [|o ops IH]; intros Hd HK f m Hh; [done |].
  apply Forall_cons in Hd as [Ho Hd], HK as [HKo HK]. cbn [history]. destruct Hh as [Hs Hm]. destruct o as [s body random|ws]; cbn [cache_step map_step].
  - destruct (key_dotless s) as [Hk Hl]. unfold Put. fold (key_of s).
    destruct (blob_put_does f (Ca_blobs (cache_of s.1.1)) (key_of s) body random Hs Hk Hl Ho) as (r & f' & -> & Hs' & Hat).
    apply IH; [done | done |]. split; [exact Hs' |]. intros s' Hs1. cbn [cache_of Ca_blobs Bl_dir] in Hat. rewrite Hat.
    assert (Ks : K s) by (apply HKo; by left).
    destruct (decide (is_ok r = true ∧ key_of s' = key_of s)) as [[Hr Hkk]|Hc].
    { assert (s' = s) as -> by (by apply Hinj). destruct r; [|done]. by rewrite lookup_insert_eq. }
    rewrite Hm by done. destruct r as [u|e]; [|done]. rewrite lookup_insert_ne; [done |]. intros ->. by destruct Hc.
  - unfold Clear, blob_clear. cbn [cache_of Ca_blobs Bl_dir]. destruct (clear_does f dir Hs) as (f' & -> & Hs' & Hat).
    apply IH; [done | done |]. split; [done |]. intros s' _. by rewrite Hat, lookup_empty.
Qed.

(** What a key is the digest of. *)
Definition key_stream (s : subject) : string :=
  writeComponents ["le-cache-v" +:+ pretty IndexerVersion; s.1.1; s.1.2; s.2].

(** Two subjects have one key only if they are the same, where the digest tells
    apart what they are written as. *)
Lemma key_shared l s s' : collision_free sha256 (key_stream <$> l) → s ∈ l → s' ∈ l →
  Forall sized [s.1.1; s.1.2; s.2] → Forall sized [s'.1.1; s'.1.2; s'.2] → key_of s = key_of s' → s = s'.
Proof using Type.
  rewrite !Forall_cons. intros Hc Hs Hs' (H1 & H2 & H3 & _) (H1' & H2' & H3' & _) H.
  assert (E : sha256 (key_stream s) = sha256 (key_stream s')) by (by apply hex_inj).
  apply Hc in E; [|by apply list_elem_of_fmap_2..]. apply writeComponents_inj in E; [| |];
    [|rewrite !Forall_cons; split_and!; [by vm_compute | done.. | by constructor]..].
  destruct s as [[w n] m], s' as [[w' n'] m']. cbn [fst snd] in E. by injection E as -> -> ->.
Qed.

(** C25: The cache is a map from what was analysed to what was found.  Over every
    history of puts and clears of any workspaces - even of workspaces that were
    given one directory - reading a subject gives what the last successful put
    of that subject wrote, if none was cleared since, and a miss otherwise: a
    put under another workspace, analyzer or manifest is never read.  The digest
    is assumed to tell apart the encodings of the subjects of this history, and
    nothing else of it. *)
Theorem cache_refines_map ops f s :
  shape f dir → (∀ k, f !! spot dir k = None) → Forall op_drawn ops →
  Forall (λ s', Forall sized [s'.1.1; s'.1.2; s'.2]) (s :: (ops ≫= op_subject)) →
  collision_free sha256 (key_stream <$> s :: (ops ≫= op_subject)) →
  (Get sha256 (cache_of s.1.1) s.1.2 s.2 (history ops f ∅).1).1 =
    match (history ops f ∅).2 !! s with Some body => Ok body | None => Err ErrMiss end.
Proof using digest_length.
  intros Hs Hempty Hd Hsized Hcf. set (K s' := s' ∈ s :: (ops ≫= op_subject)). rewrite Forall_forall in Hsized.
  assert (HK : ∀ a b, K a → K b → key_of a = key_of b → a = b).
  { intros a b Ha Hb. apply (key_shared _ a b Hcf Ha Hb); by apply Hsized. }
  assert (Hops : Forall (λ o, ∀ s', s' ∈ op_subject o → K s') ops).
  { apply Forall_forall. intros o Ho s' Hs'. right. apply list_elem_of_bind. by exists o. }
  destruct (history_holds K ops HK Hd Hops f ∅) as [Hs' Hm]; [split; [done | intros s' _; by rewrite Hempty, lookup_empty] |].
  destruct (key_dotless s) as [Hk Hl]. unfold Get. fold (key_of s). cbn [cache_of Ca_blobs].
  rewrite (blob_get_spot _ (mk_blobs s.1.1 dir)) by done. cbn [Bl_dir]. rewrite (Hm s) by left.
  by destruct ((history ops f ∅).2 !! s).
Qed.
End refines.

(** ** What invalidates an entry *)

Lemma writeComponents_app ps qs : writeComponents (ps ++ qs) = writeComponents ps +:+ writeComponents qs.
Proof. induction ps as [|p ps IH]; [done |]. cbn [writeComponents foldr app]. fold (writeComponents (ps ++ qs)) (writeComponents ps). rewrite IH. by rewrite !app_str_assoc. Qed.

Section manifest.
Context (sha256 : string → string).

Definition flat (l : list (string * string)) : list string := l ≫= λ e, [e.1; e.2].
Lemma flat_inj l : ∀ l', flat l = flat l' → l = l'.
Proof. induction l as [|[k v] l IH]; intros [|[k' v'] l']; cbn; try done. intros [= -> -> H]. by rewrite (IH l' H). Qed.

(** The pairs of a manifest, in the order of their paths. *)
Definition sorted_pairs (m : gmap string string) : list (string * string) :=
  (λ k, (k, default "" (m !! k))) <$> sort_strings (fst <$> map_to_list m).

Lemma manifest_stream m : foldr (λ k rest, writeComponents [k; default "" (m !! k)] +:+ rest) "" (sort_strings (fst <$> map_to_list m))
  = writeComponents (flat (sorted_pairs m)).
Proof.
  unfold sorted_pairs. induction (sort_strings _) as [|k l IH]; [done |]. cbn [foldr]. rewrite IH.
  change (flat ((λ k, (k, default "" (m !! k))) <$> (k :: l))) with ([k; default "" (m !! k)] ++ flat ((λ k, (k, default "" (m !! k))) <$> l)).
  by rewrite writeComponents_app.
Qed.

Lemma elem_of_sorted_pairs m e : e ∈ sorted_pairs m ↔ m !! e.1 = Some e.2.
Proof.
  unfold sorted_pairs. rewrite list_elem_of_fmap. destruct e as [k v]. cbn. split.
  - intros (k' & [= -> ->] & Hin). unfold sort_strings in Hin. rewrite elem_of_stable_sort in Hin.
    apply list_elem_of_fmap in Hin as ([k0 v0] & -> & Hin%elem_of_map_to_list). cbn. by rewrite Hin.
  - intros H. exists k. rewrite H. split; [done |]. unfold sort_strings. rewrite elem_of_stable_sort. apply list_elem_of_fmap.
    exists (k, v). split; [done |]. by apply elem_of_map_to_list.
Qed.

(** What the key of a manifest is the digest of. *)
Definition manifest_bytes (m : gmap string string) : string := writeComponents (flat (sorted_pairs m)).

(** Any change to what an analysis read invalidates its entry.  Two content
    manifests - paths, each with the digest of its content - have one key only
    if they are the same map, where the digest tells their encodings apart: no
    file added, removed or changed, and no renaming that makes their names run
    together, is missed. *)
Theorem ManifestOf_determines m m' :
  Forall sized (flat (sorted_pairs m)) → Forall sized (flat (sorted_pairs m')) →
  collision_free sha256 [manifest_bytes m; manifest_bytes m'] →
  ManifestOf sha256 m = ManifestOf sha256 m' ↔ m = m'.
Proof.
  intros Hm Hm' Hc. split; [|by intros ->]. intros H. unfold ManifestOf in H. rewrite !manifest_stream in H. apply hex_inj in H.
  apply Hc in H; [|set_solver..].
  apply writeComponents_inj, flat_inj in H; [|done..]. apply map_eq. intros k. apply option_eq. intros v.
  by rewrite <- (elem_of_sorted_pairs m (k, v)), <- (elem_of_sorted_pairs m' (k, v)), H.
Qed.
End manifest.

(** ** Artifacts *)

Section artifacts.
Context (sha256 : string → string) (digest_length : ∀ s, String.length (sha256 s) = 32).
Context (dir : apath).

(** Every artifact is what its name says. *)
Definition genuine (f : fs) : Prop :=
  shape f dir ∧ ∀ h body, f !! spot dir h = Some (NFile body) → dotless h = true → 3 ≤ String.length h → h = hex_string (sha256 body).

Lemma hash_name body : dotless (hex_string (sha256 body)) = true ∧ 3 ≤ String.length (hex_string (sha256 body)).
Proof using digest_length. destruct (hex_dotless (sha256 body)) as [-> ->]. rewrite digest_length. split; [done | lia]. Qed.

Lemma artifact_path_spot f h : shape f dir → dotless h = true → 3 ≤ String.length h → artifact_path dir h = spot dir h.
Proof using Type.
  intros Hs Hd Hl. destruct (spot_names h Hd Hl). unfold artifact_path. apply join2_plain; [|done..]. apply (sh_dir _ _ Hs).
Qed.

Lemma artifact_get_spot f h : shape f dir → dotless h = true → 3 ≤ String.length h →
  artifact_get sha256 dir h f = match f !! spot dir h with
    | Some (NFile body) => if String.eqb (hex_string (sha256 body)) h then Ok body
                           else Err (errorf ("artifacts: " +:+ h +:+ " is corrupt (content hashes to " +:+ hex_string (sha256 body) +:+ ")"))
    | _ => Err (ErrNotFound h) end.
Proof using Type.
  intros Hs Hd Hl. unfold artifact_get. rewrite (proj2 (Nat.ltb_ge _ _)) by done. rewrite (artifact_path_spot f) by done.
  unfold ReadFile. rewrite stat_spot by done. by destruct (f !! _) as [[]|].
Qed.

Lemma artifact_put_does f body random : genuine f → drawn random →
  ∃ r f', artifact_put sha256 dir body random f = (r, f') ∧ genuine f' ∧
    (∀ h, r = Ok h → h = hex_string (sha256 body) ∧ ∃ body', f' !! spot dir h = Some (NFile body') ∧ sha256 body' = sha256 body) ∧
    ∀ k n, f !! spot dir k = Some n → f' !! spot dir k = Some n.
Proof using digest_length.
  intros [Hs Hg] Hr. destruct (hash_name body) as [Hk Hl]. set (h := hex_string (sha256 body)) in *.
  destruct (spot_names h Hk Hl) as [P1 P2]. unfold artifact_put, mbind, M_bind, gets, call. fold h.
  rewrite (artifact_path_spot f) by done. rewrite stat_spot by done.
  assert (Hnofile : ∀ n, f !! spot dir h = Some n → ∃ old, n = NFile old) by (intros n; apply (sh_file _ _ Hs)).
  destruct (f !! spot dir h) as [n|] eqn:Eh.
  { destruct (Hnofile n eq_refl) as [old ->]. eexists _, f. split; [reflexivity |]. split; [done |]. split; [|done]. intros ? [= <-].
    split; [done |]. exists old. split; [done |]. apply hex_inj. symmetry. by apply (Hg h). }
  assert (E : spot dir h = (dir ++ [take_str 2 h]) ++ [drop_str 2 h]) by (unfold spot; by rewrite <- app_assoc).
  assert (Ep : parent (spot dir h) = dir ++ [take_str 2 h]) by (rewrite E; unfold parent; apply removelast_last).
  cbn [is_ok]. rewrite Ep. destruct (mkdir_fan f dir (take_str 2 h) Hs P1) as (f1 & -> & Hs1 & Hr1 & Hsame).
  assert (Hsp : ∀ k, f1 !! spot dir k = f !! spot dir k) by (intros k; apply Hsame).
  rewrite E, put_file_does; [|done | done | done | by apply temp_not_key |].
  2: { intros n. rewrite <- E, Hsp, Eh. done. }
  destruct (f1 !! _); eexists _, _; (split; [reflexivity |]).
  - split; [split; [done |]; intros k b; rewrite Hsp; apply Hg |]. split; [done |]. intros k n0. by rewrite Hsp.
  - rewrite <- E. split_and!.
    + split; [by apply shape_put |]. intros k b. destruct (decide (k = h)) as [->|Hne].
      * rewrite lookup_insert_eq. by intros [= <-] _ _.
      * rewrite lookup_insert_ne by (by intros ?%spot_inj). rewrite Hsp. apply Hg.
    + intros ? [= <-]. split; [done |]. exists body. split; [apply lookup_insert_eq | done].
    + intros k n0 Hkn. rewrite lookup_insert_ne; [by rewrite Hsp |]. intros Heq%spot_inj. rewrite <- Heq in Hkn. congruence.
Qed.

(** Evidence is kept as it was given.  In a store whose artifacts are what their
    names say, storing bytes that succeeds names them by their digest, and from
    then on - after any number of further puts, successful or not - that name
    gives bytes with that digest: the same, unless the hash collides.  Whatever
    the state of the store, what is read under a name has that digest, so a
    corrupted artifact is never served. *)
Theorem artifact_kept body random f h f1 later :
  genuine f → drawn random → Forall (λ p, drawn p.2) later →
  artifact_put sha256 dir body random f = (Ok h, f1) →
  h = hex_string (sha256 body) ∧
  (∃ body', artifact_get sha256 dir h (foldl (λ f p, (artifact_put sha256 dir p.1 p.2 f).2) f1 later) = Ok body' ∧ sha256 body' = sha256 body) ∧
  ∀ g h' body', artifact_get sha256 dir h' g = Ok body' → hex_string (sha256 body') = h'.
Proof using digest_length.
  intros Hg Hr Hlater Hput. destruct (artifact_put_does f body random Hg Hr) as (r & f' & E & Hg1 & Hstored & _).
  rewrite E in Hput. injection Hput as -> ->. destruct (Hstored h eq_refl) as (Hh & body' & Hf & Hsha). split; [done |]. split.
  - exists body'. split; [|done]. assert (Hkeep : ∀ g, genuine g → g !! spot dir h = Some (NFile body') →
      genuine (foldl (λ f p, (artifact_put sha256 dir p.1 p.2 f).2) g later) ∧
      foldl (λ f p, (artifact_put sha256 dir p.1 p.2 f).2) g later !! spot dir h = Some (NFile body')).
    { clear - Hlater digest_length. induction later as [|[b rnd] later IH]; intros g Hg Hb; [done |]. apply Forall_cons in Hlater as [Hd Hlater]. cbn [foldl fst snd].
      destruct (artifact_put_does g b rnd Hg Hd) as (r & g' & E & Hg' & _ & Hold). rewrite E. apply (IH Hlater); [done |]. by apply Hold. }
    destruct (Hkeep f1 Hg1 Hf) as [[Hs' _] Hat]. destruct (hash_name body) as [Hk Hl]. rewrite <- Hh in Hk, Hl.
    rewrite artifact_get_spot, Hat by done. by rewrite Hsha, <- Hh, String.eqb_refl.
  - intros g h' b. unfold artifact_get. destruct (_ <? _); [done |]. destruct (ReadFile _ _) as [c|e]; [|by destruct (is_not_exist e)].
    destruct (String.eqb_spec (hex_string (sha256 c)) h') as [<-|]; [|done]. by intros [= <-].
Qed.
End artifacts.

(** Names of blobs that are not names in their directory: the first two bytes
    become a directory, so a key that begins with two dots is kept one level
    above its namespace, and a namespace may itself climb. *)
Lemma dotted_key_escapes : blob_path (mk_blobs "w" ["d"; "cache"; "analysis"]) "..x" = Ok ["d"; "cache"; "x"] ∧
  (Blobs "w" ["d"; "workspaces"; "a"; "cache"] "../../b/cache/analysis"
     {[ ["d"] := NDir; ["d"; "workspaces"] := NDir; ["d"; "workspaces"; "b"] := NDir ]}).1 =
    Ok (mk_blobs "w" ["d"; "workspaces"; "b"; "cache"; "analysis"]).
Proof. split; vm_compute; reflexivity. Qed.

(** ** Examples *)

Definition cache_tree : fs := {[ ["c"] := NDir ]}.
Lemma cache_shape : shape cache_tree ["c"] ∧ ∀ k, cache_tree !! spot ["c"] k = None.
Proof.
  assert (Hone : ∀ p n, cache_tree !! p = Some n → p = ["c"] ∧ n = NDir) by (intros p n; unfold cache_tree; intros [<- <-]%lookup_singleton_Some; done).
  split; [split | intros k; destruct (cache_tree !! _) as [n|] eqn:E; [by destruct (Hone _ _ E) | done]].
  - apply well_formed_b_ok. vm_compute. reflexivity.
  - split; [|reflexivity]. apply (settled_child cache_tree [] "c"); [apply real_dir_root | apply plain_b_ok; vm_compute; reflexivity | vm_compute; discriminate].
  - intros a n H. by destruct (Hone _ _ H).
  - intros a b n H. by destruct (Hone _ _ H).
Qed.

(** Three puts - one subject written again, and another workspace's - and a read. *)
Definition demo_ops : list cache_op :=
  [OPut ("w1", "go", "m1") "first" "1"; OPut ("w2", "go", "m1") "other" "2"; OPut ("w1", "go", "m1") "second" "3"].

Lemma cache_refines_map_witness :
  (Get demo_sha (cache_of ["c"] "w1") "go" "m1" (history demo_sha ["c"] demo_ops cache_tree ∅).1).1 = Ok "second".
Proof.
  exact (cache_refines_map demo_sha demo_sha_length ["c"] demo_ops cache_tree ("w1", "go", "m1") (proj1 cache_shape) (proj2 cache_shape)
    ltac:(by repeat (apply Forall_cons; split; [vm_compute; reflexivity |]))
    ltac:(by repeat (apply Forall_cons; split; [repeat (apply Forall_cons; split; [vm_compute; reflexivity |]); apply Forall_nil_2 |]))
    ltac:(apply collision_free_b; vm_compute; reflexivity)).
Defined.

Definition demo_manifest : gmap string string := {["a.go" := "0a"; "b.go" := "0b"]}.
Definition demo_manifest' : gmap string string := {["a.go" := "0a"; "b.go" := "0c"]}.
Lemma ManifestOf_determines_witness : ManifestOf demo_sha demo_manifest ≠ ManifestOf demo_sha demo_manifest'.
Proof.
  assert (Hs : Forall sized (flat (sorted_pairs demo_manifest)) ∧ Forall sized (flat (sorted_pairs demo_manifest'))).
  { split; by repeat (apply Forall_cons; split; [vm_compute; reflexivity |]). }
  rewrite (ManifestOf_determines demo_sha demo_manifest demo_manifest' (proj1 Hs) (proj2 Hs)
             ltac:(apply collision_free_b; vm_compute; reflexivity)).
  intros H. apply (f_equal (λ m, m !! "b.go")) in H. vm_compute in H. discriminate H.
Defined.

Definition demo_stored := artifact_put demo_sha ["c"] "evidence" "1" cache_tree.
Definition demo_hash : string := hex_string (demo_sha "evidence").
Lemma artifact_kept_witness :
  demo_stored = (Ok demo_hash, demo_stored.2) ∧
  ∃ body', artifact_get demo_sha ["c"] demo_hash (foldl (λ f p, (artifact_put demo_sha ["c"] p.1 p.2 f).2) demo_stored.2 [("more", "2"); ("evidence", "3")]) = Ok body' ∧
           demo_sha body' = demo_sha "evidence".
Proof.
  assert (E : demo_stored = (Ok demo_hash, demo_stored.2)) by (apply run_to; vm_compute; reflexivity). split; [exact E |].
  destruct (artifact_kept demo_sha demo_sha_length ["c"] "evidence" "1" cache_tree demo_hash demo_stored.2 [("more", "2"); ("evidence", "3")]) as (_ & H & _).
  - split; [apply cache_shape |]. intros h b Hb. by rewrite (proj2 cache_shape) in Hb.
  - vm_compute. reflexivity.
  - by repeat (apply Forall_cons; split; [vm_compute; reflexivity |]).
  - exact E.
  - exact H.
Defined.
