(* ===== verification/Store.v ===== *)
(** A workspace's persistent state: [src/internal/store/paths.go], [store.go],
    [db.go], [migrate.go], the rest of [blobs.go], and [session/session.go].
    The layout of the data directory, the migration of a database and its
    workspace stamp, opening, switching, restoring and listing workspaces, and a
    session.  A database is a file; what SQLite makes of its bytes is a
    parameter.  Its write-ahead log is not modelled: every transaction is taken
    to be in the file. *)
From S2P Require Import Prelude GoStrings GoPath GoRegexp Worktree Files Workspace Blobs.
From Stdlib Require Import Ascii.

Open Scope string_scope.
Open Scope list_scope.
Open Scope nat_scope.

(** ** The layout *)

Section layout.
Context (root : apath).      (* the data directory *)

(** [store/paths.go:52-52 Layout.ConfigDir] *)
Definition ConfigDir : apath := root ++ ["config"].
(** [store/paths.go:53-53 Layout.ModelsDir] *)
Definition ModelsDir : apath := root ++ ["models"].
(** [store/paths.go:54-54 Layout.WorkspacesDir] *)
Definition WorkspacesDir : apath := root ++ ["workspaces"].
(** [store/paths.go:55-55 Layout.BackupsDir] *)
Definition BackupsDir : apath := root ++ ["backups"].
(** [store/paths.go:65-67 Layout.ProvisioningDir] *)
Definition ProvisioningDir (lane : string) : apath := join2 root "provisioning" lane.
(** [store/paths.go:85-87 Layout.WorkspaceDir] *)
Definition WorkspaceDir (id : string) : apath := join_comps WorkspacesDir id.
(** [store/paths.go:90-92 Layout.IndexDB] *)
Definition IndexDB (id : string) : apath := WorkspaceDir id ++ ["index.db"].
(** [store/paths.go:93-95 Layout.LedgerDB] *)
Definition LedgerDB (id : string) : apath := WorkspaceDir id ++ ["ledger.db"].
(** [store/paths.go:96-98 Layout.TelemetryDB] *)
Definition TelemetryDB (id : string) : apath := WorkspaceDir id ++ ["telemetry.db"].
(** [store/paths.go:99-101 Layout.ArtifactsDir] *)
Definition ArtifactsDir (id : string) : apath := WorkspaceDir id ++ ["artifacts"].
(** [store/paths.go:102-104 Layout.CacheDir] *)
Definition CacheDir (id : string) : apath := WorkspaceDir id ++ ["cache"].
(** [store/paths.go:108-110 Layout.OpenCodeDir] *)
Definition OpenCodeDir (id : string) : apath := WorkspaceDir id ++ ["opencode"].
(** [store/paths.go:114-116 Layout.SlotsDir] *)
Definition SlotsDir (id : string) : apath := WorkspaceDir id ++ ["slots"].
(** [store/paths.go:119-121 Layout.TmpDir] *)
Definition TmpDir (id : string) : apath := WorkspaceDir id ++ ["tmp"].
(** [store/paths.go:124-126 Layout.RecordPath] *)
Definition RecordPath (id : string) : apath := WorkspaceDir id ++ ["workspace.json"].
(** [store/paths.go:129-138 Layout.workspaceSubdirs] *)
Definition workspaceSubdirs (id : string) : list apath :=
  [WorkspaceDir id; ArtifactsDir id; CacheDir id; OpenCodeDir id; SlotsDir id; TmpDir id].
End layout.

(** A loop that makes directories, its error wrapped. *)
Fixpoint make_all (wrap_error : apath → error → error) (dirs : list apath) : FM unit :=
  match dirs with
  | [] => mret tt
  | d :: dirs => λ f, match MkdirAll f d with (Err e, f) => (Err (wrap_error d e), f) | (Ok _, f) => make_all wrap_error dirs f end
  end.
Definition store_create (d : apath) (e : error) : error := wrap ("store: create " +:+ show_path d +:+ ": ") e.

(** [store/paths.go:31-49 NewLayout] with what [$LE_DATA] holds. *)
Definition NewLayout (cwd : apath) (le_data dir : string) : FM apath :=
  let dir := if String.eqb dir "" then le_data else dir in
  let dir := if String.eqb dir "" then "/data" else dir in
  let root := abs_path cwd dir in
  _ ← make_all store_create [root; ConfigDir root; ModelsDir root; WorkspacesDir root; BackupsDir root];
  mret root.

(** [store/paths.go:72-81 Layout.EnsureProvisioning] *)
Definition EnsureProvisioning (root : apath) (lane : string) : FM (apath * apath) :=
  let cache := ProvisioningDir root lane in
  let tmp := cache ++ ["tmp"] in
  _ ← make_all (λ _ e, e) [cache; tmp];
  mret (cache, tmp).

(** [store/blobs.go:187-201 TaskDirs] *)
Record TaskDirs := mk_dirs { Worktrees : apath; GoBuildCache : apath; GoModCache : apath; Td_Tmp : apath }.
(** [store/blobs.go:204-217 Store.TaskDirs] *)
Definition Store_TaskDirs (root : apath) (id : string) : FM TaskDirs :=
  let d := mk_dirs (WorkspaceDir root id ++ ["worktrees"]) (CacheDir root id ++ ["go-build"]) (ProvisioningDir root "deps" ++ ["go-mod"]) (TmpDir root id) in
  _ ← make_all store_create [Worktrees d; GoBuildCache d; GoModCache d; Td_Tmp d];
  mret d.

(** ** Databases *)

(** [strconv.Atoi] of a decimal number that fits 64 bits. *)
Fixpoint atoi_digits (acc : Z) (s : string) : option Z :=
  match s with
  | EmptyString => Some acc
  | String c s => if digit c then atoi_digits (10 * acc + Z.of_nat (nat_of_ascii c - 48)) s else None
  end.
Definition Atoi (s : string) : option Z :=
  let '(neg, body) := match s with
    | String c s' => if Ascii.eqb c "-" then (true, s') else if Ascii.eqb c "+" then (false, s') else (false, s)
    | EmptyString => (false, s) end in
  if String.eqb body "" then None else
  n ← atoi_digits 0 body;
  let v := if neg : bool then Z.opp n else n in
  if Z.leb (- 2 ^ 63) v && Z.ltb v (2 ^ 63) then Some v else None.

(** [store/migrate.go:24-24 metaSchemaVersion] *)
Definition metaSchemaVersion : string := "schema_version".
(** [store/migrate.go:25-25 metaWorkspaceID] *)
Definition metaWorkspaceID : string := "workspace_id".
(** [store/migrate.go:26-26 metaCreatedBy] *)
Definition metaCreatedBy : string := "created_by".

(** [version/version.go:20-24 SchemaVersions] *)
Definition SchemaVersions (name : string) : option Z :=
  if String.eqb name "index" then Some 2%Z else if String.eqb name "ledger" then Some 5%Z
  else if String.eqb name "telemetry" then Some 1%Z else None.

(** [store/migrate.go:62-66 migration] *)
Record migration := mk_migration { mg_version : Z; mg_name : string; mg_sql : string }.

Section databases.
Context {D : Type}.     (* the rows of the tables other than [meta] *)

(** A database: the [meta] table, if it was created, and the rest. *)
Record database := mk_database { db_meta : option (gmap string string); db_rows : D }.

Context (sqlite_read : string → option database)      (* the bytes of a file, [None] when it fails its quick check *)
        (sqlite_write : database → string)            (* the bytes of a database *)
        (exec_sql : string → database → result database) (* the statements of a migration *)
        (migration_files : list (string * string)).   (* what the binary embeds: names and texts *)

(** [store/db.go:28-33 DB] *)
Record DB := mk_db { Db_ws : string; Db_name : string; Db_path : apath }.

(** The database in a file; one that is not there is created, empty. *)
Definition load (d : DB) (f : fs) : result database :=
  body ← ReadFile f (Db_path d);
  match sqlite_read body with Some db => Ok db | None => Err (errorf "database disk image is malformed") end.

(** [store/db.go:132-150 DB.Tx] what is done in it is stored, or nothing is. *)
Definition Tx (d : DB) (fn : database → result database) : FM unit := λ f,
  match load d f with
  | Err e => (Err (wrap ("store: begin on " +:+ Db_name d +:+ ": ") e), f)
  | Ok db => match fn db with
             | Err e => (Err e, f)
             | Ok db => WriteFile f (Db_path d) (sqlite_write db)
             end
  end.

(** [store/db.go:196-206 DB.metaGet] *)
Definition metaGet (d : DB) (key : string) (f : fs) : result (option string) :=
  db ← load d f;
  match db_meta db with Some meta => Ok (meta !! key) | None => Err (errorf "no such table: meta") end.

(** [store/db.go:208-212 metaSet] *)
Definition metaSet (key value : string) (db : database) : result database :=
  match db_meta db with
  | Some meta => Ok (mk_database (Some (<[key := value]> meta)) (db_rows db))
  | None => Err (errorf "no such table: meta")
  end.

(** [store/db.go:97-106 DB.quickCheck] *)
Definition quickCheck (d : DB) : FM unit := λ f,
  match load d f with
  | Ok _ => (Ok tt, f)
  | Err e => (Err (errorf ("store: " +:+ show_path (Db_path d) +:+ " failed quick_check: " +:+ err_msg e)), f)
  end.

(** [store/db.go:73-95 openDB] *)
Definition openDB (ws name : string) (path : apath) : FM DB := λ f,
  let d := mk_db ws name path in
  let '(created, f) := match ReadFile f path with
                       | Err e => if is_not_exist e then WriteFile f path "" else (Err e, f)
                       | Ok _ => (Ok tt, f) end in
  match created with
  | Err e => (Err (wrap ("store: ping " +:+ show_path path +:+ ": ") e), f)
  | Ok _ => (_ ← quickCheck d; mret d) f
  end.

(** [store/db.go:181-186 DB.Backup] [VACUUM INTO] refuses a file that holds
    something. *)
Definition Backup (d : DB) (dst : apath) : FM unit := λ f,
  match load d f with
  | Err e => (Err (wrap ("store: backup " +:+ Db_name d +:+ " to " +:+ show_path dst +:+ ": ") e), f)
  | Ok db =>
      let fresh := match ReadFile f dst with Ok body => String.eqb body "" | Err e => is_not_exist e end in
      if fresh then wrapM ("store: backup " +:+ Db_name d +:+ " to " +:+ show_path dst +:+ ": ")
                      (λ f, WriteFile f dst (sqlite_write db)) f
      else (Err (errorf ("store: backup " +:+ Db_name d +:+ " to " +:+ show_path dst +:+ ": output file already exists")), f)
  end.

(** *** Migration *)

(** [store/migrate.go:38-52 migrationsFor] its loop over the embedded files. *)
Fixpoint migration_steps (prefix : string) (files : list (string * string)) : result (list migration) :=
  match files with
  | [] => Ok []
  | (file, body) :: files =>
      if negb (has_prefix file prefix) || negb (has_suffix file ".sql") then migration_steps prefix files else
      match Atoi (trim_suffix (trim_prefix file prefix) ".sql") with
      | None => Err (errorf ("store: migration " +:+ file +:+ " has a non-numeric version"))
      | Some n => rest ← migration_steps prefix files; Ok (mk_migration n file body :: rest)
      end
  end.
(** [store/migrate.go:54-58 migrationsFor] *)
Definition contiguous (name : string) (i : nat) (m : migration) : result unit :=
  if negb (Z.eqb (mg_version m) (Z.of_nat i + 1))
  then Err (errorf ("store: migrations for " +:+ name +:+ " are not contiguous at " +:+ mg_name m)) else Ok tt.
(** [store/migrate.go:31-60 migrationsFor] *)
Definition migrationsFor (name : string) : result (list migration) :=
  steps ← migration_steps (name +:+ "_") migration_files;
  let steps := stable_sort (λ a b, Z.ltb (mg_version a) (mg_version b)) steps in
  _ ← each_i (contiguous name) 0 steps;
  Ok steps.

(** [store/migrate.go:133-152 DB.currentVersion] *)
Definition currentVersion (d : DB) (f : fs) : result Z :=
  match load d f with
  | Err e => Err (wrap ("store: probe " +:+ show_path (Db_path d) +:+ ": ") e)
  | Ok db =>
      match db_meta db with
      | None => Ok 0%Z
      | Some meta =>
          match meta !! metaSchemaVersion with
          | None => Ok 0%Z
          | Some v => match Atoi v with
                      | Some n => Ok n
                      | None => Err (errorf ("store: " +:+ show_path (Db_path d) +:+ " has an unreadable schema version " +:+ quoted v))
                      end
          end
      end
  end.

(** [store/migrate.go:158-170 DB.verifyWorkspaceStamp] *)
Definition verifyWorkspaceStamp (d : DB) (ws : string) (f : fs) : result unit :=
  got ← metaGet d metaWorkspaceID f;
  match got with
  | None => Err (errorf ("store: " +:+ show_path (Db_path d) +:+ " carries no workspace stamp"))
  | Some got => if String.eqb got ws then Ok tt
                else Err (errorf ("store: " +:+ show_path (Db_path d) +:+ " belongs to workspace " +:+ got +:+ " but was opened as " +:+ ws))
  end.

(** [store/migrate.go:184-200 DB.backupBeforeMigrating] [now] is the time in its
    file name. *)
Definition backupBeforeMigrating (now : string) (d : DB) (from to_ : Z) : FM unit :=
  let dir := parent (Db_path d) ++ ["pre-migration"] in
  _ ← wrapM "store: preparing the pre-migration backup directory: " (λ f, MkdirAll f dir);
  let dst := dir ++ [Db_name d +:+ ".v" +:+ pretty from +:+ "-" +:+ now +:+ ".db"] in
  wrapM ("store: refusing to migrate " +:+ Db_name d +:+ " from schema " +:+ pretty from +:+ " to " +:+ pretty to_ +:+ " without a backup: ")
    (Backup d dst).

(** [version/version.go:12-12 Version] *)
Definition Version : string := "0.0.0-dev".

(** [store/migrate.go:114-125 DB.migrate] one step, in one transaction. *)
Definition apply_step (ws : string) (step : migration) (db : database) : result database :=
  db ← wrap_r ("store: apply " +:+ mg_name step +:+ ": ") (exec_sql (mg_sql step) db);
  db ← metaSet metaSchemaVersion (pretty (mg_version step)) db;
  db ← metaSet metaWorkspaceID ws db;
  metaSet metaCreatedBy Version db.

(** [store/migrate.go:110-129 DB.migrate] *)
Fixpoint run_steps (d : DB) (ws : string) (current : Z) (steps : list migration) : FM unit :=
  match steps with
  | [] => mret tt
  | step :: steps =>
      if Z.leb (mg_version step) current then run_steps d ws current steps
      else _ ← Tx d (apply_step ws step); run_steps d ws current steps
  end.

(** [store/migrate.go:71-131 DB.migrate] *)
Definition migrate (now : string) (d : DB) (ws : string) : FM unit :=
  match SchemaVersions (Db_name d) with
  | None => throw (errorf ("store: no schema target registered for " +:+ quoted (Db_name d)))
  | Some target =>
      steps ← lift (migrationsFor (Db_name d));
      if negb (Z.eqb (Z.of_nat (length steps)) target)
      then throw (errorf ("store: " +:+ Db_name d +:+ " targets schema " +:+ pretty target +:+ " but " +:+
                          pretty (length steps) +:+ " migrations are embedded"))
      else
        current ← look (currentVersion d);
        if Z.ltb target current
        then throw (errorf ("store: " +:+ show_path (Db_path d) +:+ " is at schema " +:+ pretty current +:+ ", this build understands " +:+
               pretty target +:+ "; downgrades across schema versions are not supported, restore a backup or upgrade local-engineer"))
        else if Z.eqb current target then look (verifyWorkspaceStamp d ws)
        else
          _ ← (if Z.ltb 0 current then backupBeforeMigrating now d current target else mret tt);
          _ ← run_steps d ws current steps;
          look (verifyWorkspaceStamp d ws)
  end.

(** ** The data directory *)

(** [store/store.go:21-31 Root] the workspaces that are open, by their ids, and
    the one inference is serving. *)
Record Root := mk_root { Rt_layout : apath; Rt_open : list string; Rt_active : string }.
(** [store/store.go:60-70 Store] a handle: its databases are the files of its
    workspace. *)
Record Store := mk_store { St_id : string; St_root : apath }.

(** [store/store.go:34-40 OpenRoot] *)
Definition OpenRoot (cwd : apath) (le_data dir : string) : FM Root :=
  l ← NewLayout cwd le_data dir; mret (mk_root l [] "").

(** [store/store.go:129-129 Store.Index] *)
Definition St_index (s : Store) : DB := mk_db (St_id s) "index" (IndexDB (St_root s) (St_id s)).
(** [store/store.go:130-130 Store.Ledger] *)
Definition St_ledger (s : Store) : DB := mk_db (St_id s) "ledger" (LedgerDB (St_root s) (St_id s)).
(** [store/store.go:131-131 Store.Telemetry] *)
Definition St_telemetry (s : Store) : DB := mk_db (St_id s) "telemetry" (TelemetryDB (St_root s) (St_id s)).
(** [store/store.go:143-143 Store.DBs] *)
Definition DBs (s : Store) : list DB := [St_index s; St_ledger s; St_telemetry s].

(** [store/store.go:106-117 Root.OpenWorkspace] each database is opened, then
    brought forward. *)
Fixpoint open_databases (now : string) (dbs : list DB) : FM unit :=
  match dbs with
  | [] => mret tt
  | d :: dbs =>
      _ ← openDB (Db_ws d) (Db_name d) (Db_path d);
      _ ← migrate now d (Db_ws d);
      open_databases now dbs
  end.

(** [store/store.go:79-121 Root.OpenWorkspace] the handle, and the root that
    remembers it. *)
Definition OpenWorkspace (now : string) (r : Root) (id : string) : FM (Store * Root) :=
  let s := mk_store id (Rt_layout r) in
  if negb (Valid id) then throw (errorf ("store: " +:+ quoted id +:+ " is not a valid workspace id"))
  else if mem id (Rt_open r) then mret (s, r)
  else
    _ ← make_all store_create (workspaceSubdirs (Rt_layout r) id);
    _ ← open_databases now (DBs s);
    mret (s, mk_root (Rt_layout r) (id :: Rt_open r) (Rt_active r)).

(** [store/store.go:338-360 Root.SwitchTo] the workspace switched away from. *)
Definition SwitchTo (r : Root) (id : string) : FM (string * Root) :=
  let previous := Rt_active r in
  if String.eqb previous id then mret (previous, r) else
  _ ← (if String.eqb previous "" then mret tt
       else wrapM ("store: clearing " +:+ previous +:+ " slots on workspace switch: ") (clearDir (SlotsDir (Rt_layout r) previous)));
  mret (previous, mk_root (Rt_layout r) (Rt_open r) id).

(** [store/store.go:146-164 Store.RecordWorkspace] with the text of the record. *)
Definition RecordWorkspace (s : Store) (body : string) : FM unit :=
  let path := RecordPath (St_root s) (St_id s) in
  let tmp := WorkspaceDir (St_root s) (St_id s) ++ ["workspace.json.tmp"] in
  _ ← call (λ f, WriteFile f tmp (body +:+ nl));
  call (λ f, Rename f tmp path).

(** [store/store.go:173-175 Store.ClearSlots] *)
Definition ClearSlots (s : Store) : FM unit := clearDir (SlotsDir (St_root s) (St_id s)).
(** [store/store.go:178-180 Store.ClearTmp] *)
Definition ClearTmp (s : Store) : FM unit := clearDir (TmpDir (St_root s) (St_id s)).

(** [store/store.go:210-223 Store.Close] the root forgets the handle. *)
Definition Close (r : Root) (s : Store) : Root :=
  mk_root (Rt_layout r) (List.filter (λ id, negb (String.eqb id (St_id s))) (Rt_open r)) (Rt_active r).
(** [store/store.go:296-308 Root.CloseAll] *)
Definition CloseAll (r : Root) : Root := foldl (λ r id, Close r (mk_store id (Rt_layout r))) r (Rt_open r).

(** [store/store.go:315-323 Store.Backup] one database. *)
Definition backup_one (dir : apath) (d : DB) : FM unit :=
  let dst := dir ++ [Db_name d +:+ ".db"] in
  _ ← call (λ f, RemoveAll f dst); Backup d dst.
(** [store/store.go:311-325 Store.Backup] *)
Definition Store_Backup (s : Store) (dir : apath) : FM unit :=
  _ ← call (λ f, MkdirAll f dir);
  _ ← backup_one dir (St_index s); _ ← backup_one dir (St_ledger s); backup_one dir (St_telemetry s).

(** [store/blobs.go:164-168 Store.RestoreFrom] *)
Definition remove_sidecar (p : apath) : FM unit := λ f,
  match RemoveFile f p with
  | (Err e, f) => if is_not_exist e then (Ok tt, f) else (Err e, f)
  | ok => ok
  end.

(** [store/blobs.go:151-175 Store.RestoreFrom] its loop; the names restored so
    far are returned beside an error. *)
Fixpoint restore_files (s : Store) (srcDir : apath) (force : bool) (names restored : list string) : fs → (list string * option error) * fs := λ f,
  match names with
  | [] => ((restored, None), f)
  | name :: names =>
      match ReadFile f (srcDir ++ [name]) with
      | Err e => if is_not_exist e then restore_files s srcDir force names restored f else ((restored, Some e), f)
      | Ok body =>
          let dir := WorkspaceDir (St_root s) (St_id s) in
          let dst := dir ++ [name] in
          if is_ok (Stat f dst) && negb force
          then ((restored, Some (errorf ("store: " +:+ show_path dst +:+ " already exists; pass --force to overwrite"))), f) else
          match (_ ← remove_sidecar (dir ++ [name +:+ "-wal"]); _ ← remove_sidecar (dir ++ [name +:+ "-shm"]);
                 call (λ f, WriteFile f dst body)) f with
          | (Err e, f) => ((restored, Some e), f)
          | (Ok _, f) => restore_files s srcDir force names (restored ++ [name]) f
          end
      end
  end.

(** [store/blobs.go:137-180 Store.RestoreFrom] *)
Definition RestoreFrom (cwd : apath) (s : Store) (dir : string) (force : bool) : fs → (list string * option error) * fs := λ f,
  let srcDir := abs_path cwd (clean dir) in
  match Stat f srcDir with
  | Ok NDir =>
      let '(restored, err, f) := restore_files s srcDir force ["index.db"; "ledger.db"; "telemetry.db"] [] f in
      match err, restored with
      | None, [] => (([], Some (errorf ("store: " +:+ show_path srcDir +:+ " holds none of index.db, ledger.db, telemetry.db"))), f)
      | _, _ => ((restored, err), f)
      end
  | _ => (([], Some (errorf ("store: " +:+ show_path srcDir +:+ " is not a readable backup directory"))), f)
  end.

(** [store/migrate.go:205-221 PreMigrationBackups] the newest first. *)
Definition PreMigrationBackups (workspaceDir : apath) (f : fs) : result (list string) :=
  let dir := workspaceDir ++ ["pre-migration"] in
  match ReadDir f dir with
  | Err e => if is_not_exist e then Ok [] else Err e
  | Ok entries =>
      Ok (rev (sort_strings (omap (λ e : string * bool, if negb e.2 && has_suffix e.1 ".db" then Some (show_path (dir ++ [e.1])) else None) entries)))
  end.

(** [store/store.go:49-55 Record] *)
Record Record_ := mk_record { Re_ID : string; Re_Name : string; Re_Root : string; LastOpened : Z; Re_Scheme : Z }.

(** [store/store.go:270-290 Root.ListWorkspaces] one entry of the directory. *)
Definition list_one (decode_record : string → option Record_) (root : apath) (f : fs) (e : string * bool) : option Record_ :=
  if negb e.2 || negb (Valid e.1) then None else
  Some match ReadFile f (RecordPath root e.1) with
       | Err _ => mk_record e.1 "(no record)" "" 0 WorkspaceIDScheme
       | Ok body => match decode_record body with
                    | None => mk_record e.1 "(unreadable record)" "" 0 0
                    | Some rec => mk_record e.1 (Re_Name rec) (Re_Root rec) (LastOpened rec) (Re_Scheme rec)
                    end
       end.
(** [store/store.go:261-293 Root.ListWorkspaces] *)
Definition ListWorkspaces (decode_record : string → option Record_) (r : Root) (f : fs) : result (list Record_) :=
  match ReadDir f (WorkspacesDir (Rt_layout r)) with
  | Err e => if is_not_exist e then Ok [] else Err e
  | Ok entries => Ok (stable_sort (λ a b, str_ltb (Re_ID a) (Re_ID b)) (omap (list_one decode_record (Rt_layout r) f) entries))
  end.

(** ** A session *)

Context (cwd : apath) (le_data : string) (parse_manifest : string → result Manifest)
        (encode_record : Record_ → string).

(** [session/session.go:33-37 Session] *)
Record Session := mk_session { Se_Workspace : Workspace; Se_Root : Root; Se_Store : Store }.

(** [session/session.go:40-43 ErrNoWorkspace] *)
Definition ErrNoWorkspace (e : error) : error := mk_error (Some "session.ErrNoWorkspace") (err_msg e).

(** [session/session.go:51-79 Open] *)
Definition Session_Open (now : string) (seconds : Z) (dataDir path : string) : FM Session :=
  ws ← (λ f, match Open_ cwd parse_manifest f path with Ok ws => (Ok ws, f) | Err e => (Err (ErrNoWorkspace e), f) end);
  root ← OpenRoot cwd le_data dataDir;
  opened ← OpenWorkspace now root (Ws_ID ws);
  let '(st, root) := opened : Store * Root in
  switched ← SwitchTo root (Ws_ID ws);
  let '(previous, root) := switched : string * Root in
  _ ← wrapM "session: recording workspace identity: "
        (RecordWorkspace st (encode_record (mk_record (Ws_ID ws) (Ws_Name ws) (show_path (Ws_Root ws)) seconds (SchemeVersion (Ws_Manifest ws)))));
  mret (mk_session ws root st).

(** [session/session.go:82-87 Session.Close] *)
Definition Session_Close (s : Session) : Root := CloseAll (Se_Root s).
End databases.

(** ** What a migration does *)

Section migration.
Context {D : Type} (sqlite_read : string → option (@database D)) (sqlite_write : @database D → string)
        (exec_sql : string → @database D → result (@database D)) (migration_files : list (string * string))
        (written : ∀ db, sqlite_read (sqlite_write db) = Some db).

(** The version a database is at, [None] when it is unreadable. *)
Definition schema (db : @database D) : option Z :=
  match db_meta db with
  | None => Some 0%Z
  | Some meta => match meta !! metaSchemaVersion with None => Some 0%Z | Some v => Atoi v end
  end.
Definition stamp (db : @database D) : option string := meta ← db_meta db; meta !! metaWorkspaceID.

Definition pending (v : Z) (steps : list migration) : list migration := List.filter (λ s, Z.ltb v (mg_version s)) steps.
Fixpoint applied (ws : string) (steps : list migration) (db : @database D) : result (@database D) :=
  match steps with
  | [] => Ok db
  | s :: steps => db ← apply_step exec_sql ws s db; applied ws steps db
  end.

Lemma applied_snoc ws steps s db : applied ws (steps ++ [s]) db = db' ← applied ws steps db; apply_step exec_sql ws s db'.
Proof using Type.
  revert db. induction steps as [|t steps IH]; intros db; cbn [applied app].
  - cbn [mbind result_bind]. by destruct (apply_step exec_sql ws s db).
  - destruct (apply_step exec_sql ws t db); cbn [mbind result_bind]; [apply IH | done].
Qed.

Lemma metaSet_meta key value (db db' : @database D) : metaSet key value db = Ok db' →
  ∃ meta, db_meta db = Some meta ∧ db_meta db' = Some (<[key := value]> meta).
Proof using Type. unfold metaSet. destruct (db_meta db) as [meta|]; [|done]. intros [= <-]. by exists meta. Qed.

(** A step leaves its version and the workspace in the database. *)
Lemma apply_step_meta ws s db db' : apply_step exec_sql ws s db = Ok db' →
  ∃ meta, db_meta db' = Some meta ∧ meta !! metaSchemaVersion = Some (pretty (mg_version s)) ∧ meta !! metaWorkspaceID = Some ws.
Proof using Type.
  unfold apply_step. destruct (wrap_r _ _) as [d0|]; [|done]. cbn [mbind result_bind].
  destruct (metaSet metaSchemaVersion _ d0) as [d1|] eqn:E1; [|done]. cbn [mbind result_bind].
  destruct (metaSet metaWorkspaceID _ d1) as [d2|] eqn:E2; [|done]. cbn [mbind result_bind]. intros E3.
  apply metaSet_meta in E1 as (m & _ & H1), E2 as (m1 & H1' & H2), E3 as (m2 & H2' & H3).
  assert (m1 = <[metaSchemaVersion := pretty (mg_version s)]> m) as -> by congruence.
  assert (m2 = <[metaWorkspaceID := ws]> (<[metaSchemaVersion := pretty (mg_version s)]> m)) as -> by congruence.
  eexists. split_and!; [exact H3 | |]; by simplify_map_eq.
Qed.

(** The embedded migrations are numbered from one. *)
Lemma migrationsFor_numbered name steps : migrationsFor migration_files name = Ok steps →
  ∀ i s, steps !! i = Some s → mg_version s = (Z.of_nat i + 1)%Z.
Proof using Type.
  unfold migrationsFor. destruct (migration_steps _ _) as [l|]; [|done]. cbn [mbind result_bind].
  destruct (each_i _ _ _) as [[]|] eqn:E; [|done]. intros [= <-] i s Hi. rewrite each_i_ok in E. specialize (E i s Hi).
  unfold contiguous in E. rewrite Nat.add_0_l in E. destruct (Z.eqb_spec (mg_version s) (Z.of_nat i + 1)); [done | discriminate E].
Qed.

Context (dir : apath) (b : string) (Hb : plain b).

(** A database stands in its file. *)
Definition holds_db (f : fs) (p : apath) (db : @database D) : Prop := ∃ body, f !! p = Some (NFile body) ∧ sqlite_read body = Some db.

Lemma load_holds ws name f c db : real_dir f dir → plain c → holds_db f (dir ++ [c]) db →
  load sqlite_read (mk_db ws name (dir ++ [c])) f = Ok db.
Proof using Type. intros Hd Hc (body & Hf & Hr). unfold load. cbn [Db_path]. rewrite (ReadFile_real f dir c body) by done. cbn [mbind result_bind]. by rewrite Hr. Qed.

Lemma Tx_does ws name fn f db : real_dir f dir → holds_db f (dir ++ [b]) db →
  Tx sqlite_read sqlite_write (mk_db ws name (dir ++ [b])) fn f =
    match fn db with Ok db' => (Ok tt, <[dir ++ [b] := NFile (sqlite_write db')]> f) | Err e => (Err e, f) end.
Proof using Hb.
  intros Hd Hh. unfold Tx. rewrite (load_holds ws name f b db) by done. destruct (fn db); [|done]. cbn [Db_path].
  apply WriteFile_real; [done.. |]. destruct Hh as (body & -> & _). intros n [= <-]. by exists body.
Qed.

Lemma run_steps_does ws name v steps : ∀ f db, real_dir f dir → holds_db f (dir ++ [b]) db →
  ∃ dn rest db' f', pending v steps = dn ++ rest ∧ applied ws dn db = Ok db' ∧
    real_dir f' dir ∧ holds_db f' (dir ++ [b]) db' ∧ (∀ p, p ≠ dir ++ [b] → f' !! p = f !! p) ∧
    run_steps sqlite_read sqlite_write exec_sql (mk_db ws name (dir ++ [b])) ws v steps f =
      (match rest with [] => Ok tt | s :: _ => _ ← apply_step exec_sql ws s db'; Ok tt end, f') ∧
    match rest with [] => True | s :: _ => is_ok (apply_step exec_sql ws s db') = false end.
Proof using Hb written.
  induction steps as [|s steps IH]; intros f db Hd Hh.
  - exists [], [], db, f. done.
  - cbn [pending List.filter run_steps]. rewrite Z.leb_antisym. fold (pending v steps). destruct (Z.ltb v (mg_version s)); cbn [negb]; [|by apply IH].
    unfold mbind, M_bind. rewrite (Tx_does ws name _ f db) by done. destruct (apply_step exec_sql ws s db) as [db1|e] eqn:E.
    + destruct (IH (<[dir ++ [b] := NFile (sqlite_write db1)]> f) db1) as (dn & rest & db' & f' & Hp & Ha & Hd' & Hh' & Hs & Hr & Hrest).
      * apply real_dir_insert; [done | intros t; apply above_snoc].
      * exists (sqlite_write db1). split; [apply lookup_insert_eq | apply written].
      * exists (s :: dn), rest, db', f'. split_and!; [by rewrite Hp | cbn [applied]; by rewrite E | done.. | | exact Hr | exact Hrest].
        intros p Hne. rewrite Hs by done. by apply lookup_insert_ne.
    + exists [], (s :: pending v steps), db, f. rewrite E. done.
Qed.

Lemma pending_last v steps target s0 : (∀ i s, steps !! i = Some s → mg_version s = (Z.of_nat i + 1)%Z) →
  Z.of_nat (length steps) = target → (v < target)%Z → (0 < target)%Z →
  last (pending v steps) = Some s0 → mg_version s0 = target.
Proof using Type.
  intros Hn Hl Hv Ht. destruct steps as [|s steps _] using rev_ind; [cbn in Hl; lia |]. rewrite length_app in Hl. cbn [length] in Hl.
  assert (Hs : mg_version s = target) by (rewrite (Hn (length steps) s); [lia | by apply list_lookup_middle]).
  unfold pending. rewrite List.filter_app. cbn [List.filter]. rewrite (proj2 (Z.ltb_lt v (mg_version s))) by lia.
  rewrite last_snoc. by intros [= <-].
Qed.
Lemma pending_some v steps target : (∀ i s, steps !! i = Some s → mg_version s = (Z.of_nat i + 1)%Z) →
  Z.of_nat (length steps) = target → (v < target)%Z → (0 < target)%Z → pending v steps ≠ [].
Proof using Type.
  intros Hn Hl Hv Ht. destruct steps as [|s steps _] using rev_ind; [cbn in Hl; lia |]. rewrite length_app in Hl. cbn [length] in Hl.
  unfold pending. rewrite List.filter_app. cbn [List.filter]. rewrite (Hn (length steps) s) by (by apply list_lookup_middle).
  rewrite (proj2 (Z.ltb_lt v _)) by lia. by destruct (List.filter _ steps).
Qed.

Lemma target_written name target : SchemaVersions name = Some target → (0 < target)%Z ∧ Atoi (pretty target) = Some target.
Proof using Type. unfold SchemaVersions. repeat case_match; intros [= <-]; (split; [lia | vm_compute; reflexivity]). Qed.

(** After the last pending step the database is at the target, stamped. *)
Lemma applied_all ws name v steps target db db' : migrationsFor migration_files name = Ok steps → SchemaVersions name = Some target →
  Z.of_nat (length steps) = target → (v < target)%Z → applied ws (pending v steps) db = Ok db' →
  schema db' = Some target ∧ stamp db' = Some ws.
Proof using Type.
  intros Hsteps Htarget Hl Hv. destruct (target_written name target Htarget) as [Hpos Hwritten].
  pose proof (migrationsFor_numbered name steps Hsteps) as Hn.
  pose proof (pending_some v steps target Hn Hl Hv Hpos) as Hne. pose proof (λ s, pending_last v steps target s Hn Hl Hv Hpos) as Hlast.
  destruct (pending v steps) as [|s l _] using rev_ind; [done |]. rewrite applied_snoc. destruct (applied ws l db) as [db1|]; [|done].
  cbn [mbind result_bind]. intros (meta & Hm & Hver & Hws)%apply_step_meta. rewrite (Hlast s) in Hver by apply last_snoc.
  unfold schema, stamp. rewrite Hm, Hver. by cbn [mbind option_bind].
Qed.

Definition pre : apath := dir ++ ["pre-migration"].
Definition backup_file (name : string) (v : Z) (now : string) : string := name +:+ ".v" +:+ pretty v +:+ "-" +:+ now +:+ ".db".

Lemma verify_does ws name f db : real_dir f dir → holds_db f (dir ++ [b]) db →
  is_ok (verifyWorkspaceStamp sqlite_read (mk_db ws name (dir ++ [b])) ws f) = bool_decide (stamp db = Some ws).
Proof using Hb.
  intros Hd Hh. unfold verifyWorkspaceStamp, metaGet. rewrite (load_holds ws name f b db) by done. cbn [mbind result_bind].
  unfold stamp. destruct (db_meta db) as [meta|]; cbn [mbind option_bind result_bind]; [|by rewrite bool_decide_eq_false_2].
  destruct (meta !! metaWorkspaceID) as [got|]; [|by rewrite bool_decide_eq_false_2].
  destruct (String.eqb_spec got ws) as [->|Hne]; [by rewrite bool_decide_eq_true_2 |]. by rewrite bool_decide_eq_false_2 by congruence.
Qed.

Lemma currentVersion_does ws name f db v : real_dir f dir → holds_db f (dir ++ [b]) db → schema db = Some v →
  currentVersion sqlite_read (mk_db ws name (dir ++ [b])) f = Ok v.
Proof using Hb.
  intros Hd Hh. unfold currentVersion, schema. rewrite (load_holds ws name f b db) by done.
  destruct (db_meta db) as [meta|]; [|congruence]. destruct (meta !! metaSchemaVersion) as [w|]; [|congruence].
  destruct (Atoi w); congruence.
Qed.

(** The copy is made where nothing stands, and refused where something does. *)
Lemma backup_does ws name now v target f db : well_formed f → real_dir f dir → holds_db f (dir ++ [b]) db →
  f !! pre = None ∨ f !! pre = Some NDir → plain (backup_file name v now) →
  (∀ n, f !! (pre ++ [backup_file name v now]) = Some n → ∃ old, n = NFile old ∧ old ≠ "") →
  ∃ r f', backupBeforeMigrating sqlite_read sqlite_write now (mk_db ws name (dir ++ [b])) v target f = (r, f') ∧
    real_dir f' dir ∧ (∀ p, p ≠ pre → p ≠ pre ++ [backup_file name v now] → f' !! p = f !! p) ∧
    (is_ok r = true ↔ f !! (pre ++ [backup_file name v now]) = None) ∧
    (r = Ok tt → holds_db f' (pre ++ [backup_file name v now]) db).
Proof using Hb written.
  intros Hw Hd Hh Hpre Hplain Htaken. assert (Pp : plain "pre-migration") by (by apply plain_b_ok).
  unfold backupBeforeMigrating. cbn [Db_path Db_name]. unfold parent. rewrite removelast_last. fold pre (backup_file name v now).
  destruct (mkdir_below f dir "pre-migration" Hw Hd Pp Hpre) as (f1 & Em & Hw1 & Hd1 & Hp1 & Hsame). fold pre in Em, Hp1, Hsame.
  unfold mbind, M_bind, wrapM. rewrite Em. cbn [wrap_r].
  assert (Hf1 : holds_db f1 (dir ++ [b]) db).
  { destruct Hh as (body & Hf & Hr). exists body. split; [|done]. rewrite Hsame; [done |]. unfold pre. intros E. rewrite E in Hf. fold pre in Hf.
    destruct Hpre; congruence. }
  assert (Hback : pre ++ [backup_file name v now] ≠ pre) by (intros E; apply (above_snoc pre (backup_file name v now) []); by rewrite app_nil_r).
  unfold Backup. rewrite (load_holds ws name f1 b db) by done. cbn [Db_name].
  destruct (f !! (pre ++ [backup_file name v now])) as [n|] eqn:En.
  - destruct (Htaken n eq_refl) as (old & -> & Hold).
    rewrite (ReadFile_real f1 pre (backup_file name v now) old) by (done || by rewrite Hsame). apply String.eqb_neq in Hold. rewrite Hold.
    eexists _, f1. split; [reflexivity |]. split_and!; [done | intros p ? ?; by apply Hsame | done | done].
  - assert (is_ok (ReadFile f1 (pre ++ [backup_file name v now])) = false ∧
      (match ReadFile f1 (pre ++ [backup_file name v now]) with Ok body => String.eqb body "" | Err e => is_not_exist e end) = true) as [_ ->].
    { unfold ReadFile, Stat. assert (Hno : lookup_node f1 (pre ++ [backup_file name v now]) = None) by (rewrite lookup_node_ne by (by destruct pre); by rewrite Hsame).
      rewrite EvalSymlinks_missing; [done | apply settled_child; [done.. | by rewrite Hno] | done]. }
    unfold wrapM. rewrite WriteFile_real; [|done.. | rewrite Hsame, En by done; done]. cbn [wrap_r].
    eexists _, _. split; [reflexivity |]. split_and!.
    + apply real_dir_insert; [done |]. intros t. unfold pre. rewrite <- !app_assoc. apply (above_app dir "pre-migration" [_] t).
    + intros p H1 H2. rewrite lookup_insert_ne by done. by apply Hsame.
    + done.
    + intros _. exists (sqlite_write db). split; [apply lookup_insert_eq | apply written].
Qed.

Lemma migrate_eq now ws name f db v target steps : real_dir f dir → holds_db f (dir ++ [b]) db → schema db = Some v →
  SchemaVersions name = Some target → migrationsFor migration_files name = Ok steps → Z.of_nat (length steps) = target →
  let d := mk_db ws name (dir ++ [b]) in
  ∃ e, migrate sqlite_read sqlite_write exec_sql migration_files now d ws f =
    if Z.ltb target v then (Err e, f)
    else if Z.eqb v target then (verifyWorkspaceStamp sqlite_read d ws f, f)
    else match (if Z.ltb 0 v then backupBeforeMigrating sqlite_read sqlite_write now d v target else mret tt) f with
         | (Err e, f) => (Err e, f)
         | (Ok _, f) => match run_steps sqlite_read sqlite_write exec_sql d ws v steps f with
                        | (Err e, f) => (Err e, f)
                        | (Ok _, f) => (verifyWorkspaceStamp sqlite_read d ws f, f)
                        end
         end.
Proof using Hb.
  intros Hd Hh Hv Htarget Hsteps Hlen d. subst d. unfold migrate. cbn [Db_name Db_path]. rewrite Htarget, Hsteps.
  eexists. unfold mbind, M_bind, lift. rewrite Hlen, Z.eqb_refl. cbn [negb]. unfold look.
  rewrite (currentVersion_does ws name f db v) by done. destruct (Z.ltb target v); [reflexivity |].
  destruct (Z.eqb v target); reflexivity.
Qed.

(** The copy, where one is due. *)
Lemma copied ws name now v target f db : well_formed f → real_dir f dir → holds_db f (dir ++ [b]) db →
  f !! pre = None ∨ f !! pre = Some NDir → plain (backup_file name v now) →
  (∀ n, f !! (pre ++ [backup_file name v now]) = Some n → ∃ old, n = NFile old ∧ old ≠ "") →
  ∃ r f', (if Z.ltb 0 v then backupBeforeMigrating sqlite_read sqlite_write now (mk_db ws name (dir ++ [b])) v target else mret tt) f = (r, f') ∧
    real_dir f' dir ∧ holds_db f' (dir ++ [b]) db ∧
    (∀ p, p ≠ pre → p ≠ pre ++ [backup_file name v now] → f' !! p = f !! p) ∧
    is_ok r = negb (bool_decide ((0 < v)%Z ∧ f !! (pre ++ [backup_file name v now]) ≠ None)) ∧
    (r = Ok tt → (0 < v)%Z → holds_db f' (pre ++ [backup_file name v now]) db).
Proof using Hb written.
  clear exec_sql migration_files. intros Hw Hd Hh Hpre Hplain Htaken. destruct (Z.ltb_spec 0 v) as [Hv|Hv].
  - destruct (backup_does ws name now v target f db Hw Hd Hh Hpre Hplain Htaken) as (r & f' & E & Hd' & Hsame & Hok & Hcopy).
    exists r, f'. split_and!; [done | done | | done | | by intros H _; apply Hcopy].
    + destruct Hh as (body & Hf & Hr). exists body. split; [|done]. rewrite Hsame; [done | intros E'; rewrite E' in Hf; destruct Hpre; congruence |].
      unfold pre. intros E'. apply (f_equal length) in E'. rewrite !length_app in E'. cbn in E'. lia.
    + destruct (f !! (pre ++ _)) as [n|]; [rewrite bool_decide_eq_true_2 by (split; [done | discriminate]) | rewrite bool_decide_eq_false_2 by naive_solver]; destruct (is_ok r); naive_solver.
  - exists (Ok tt), f. split_and!; [done.. | by rewrite bool_decide_eq_false_2 by lia | lia].
Qed.

(** C26: What bringing a database forward does.  A newer database is refused and one
    at the version of this build is only checked for its workspace; neither is
    written.  An older one that holds anything is first copied beside itself -
    and left alone when the copy cannot be made - and then moved through the
    pending migrations in order: the file always holds the outcome of exactly
    the first few of them.  All of them leave it at the target, stamped with the
    workspace; a failure names the first that did not apply, and nothing of
    that one is kept.  No other file changes. *)
Theorem migrate_exact now ws name f db v target steps :
  well_formed f → real_dir f dir → holds_db f (dir ++ [b]) db → schema db = Some v →
  SchemaVersions name = Some target → migrationsFor migration_files name = Ok steps → Z.of_nat (length steps) = target →
  let copy := pre ++ [backup_file name v now] in
  let run := migrate sqlite_read sqlite_write exec_sql migration_files now (mk_db ws name (dir ++ [b])) ws f in
  ((target < v)%Z → is_ok run.1 = false ∧ run.2 = f) ∧
  (v = target → is_ok run.1 = bool_decide (stamp db = Some ws) ∧ run.2 = f) ∧
  ((v < target)%Z → f !! pre = None ∨ f !! pre = Some NDir → plain (backup_file name v now) →
   (∀ n, f !! copy = Some n → ∃ old, n = NFile old ∧ old ≠ "") →
   (∀ p, p ≠ dir ++ [b] → p ≠ pre → p ≠ copy → run.2 !! p = f !! p) ∧
   if bool_decide ((0 < v)%Z ∧ f !! copy ≠ None) then is_ok run.1 = false ∧ holds_db run.2 (dir ++ [b]) db
   else ((0 < v)%Z → holds_db run.2 copy db) ∧
     ∃ dn rest db', pending v steps = dn ++ rest ∧ applied ws dn db = Ok db' ∧ holds_db run.2 (dir ++ [b]) db' ∧
       match rest with
       | [] => run.1 = Ok tt ∧ schema db' = Some target ∧ stamp db' = Some ws
       | s :: _ => ∃ e, apply_step exec_sql ws s db' = Err e ∧ run.1 = Err e
       end).
Proof using Hb written.
  intros Hw Hd Hh Hv Htarget Hsteps Hlen copy run. subst run.
  destruct (migrate_eq now ws name f db v target steps) as [e ->]; [done.. |].
  split_and!; [intros Hgt; by rewrite (proj2 (Z.ltb_lt _ _)) by done | intros ->; rewrite Z.ltb_irrefl, Z.eqb_refl; cbn [fst snd]; by rewrite (verify_does ws name f db) |].
  intros Hlt Hpre Hplain Htaken. rewrite (proj2 (Z.ltb_ge target v)), (proj2 (Z.eqb_neq v target)) by lia.
  destruct (copied ws name now v target f db) as (r & f1 & -> & Hd1 & Hh1 & Hsame & Hok & Hcopied); [done.. |]. fold copy in Hsame, Hok, Hcopied.
  destruct r as [[]|e']; cbn [is_ok] in Hok; symmetry in Hok; [apply negb_true_iff in Hok | apply negb_false_iff in Hok]; rewrite Hok.
  2: { split; [intros p _ ? ?; by apply Hsame | done]. }
  destruct (run_steps_does ws name v steps f1 db Hd1 Hh1) as (dn & rest & db' & f2 & Hp & Ha & Hd2 & Hh2 & Hsame2 & -> & Hrest).
  assert (Hother : copy ≠ dir ++ [b]) by (intros E; apply (f_equal length) in E; unfold copy, pre in E; rewrite !length_app in E; cbn in E; lia).
  assert (Hkept : (0 < v)%Z → holds_db f2 copy db).
  { intros Hpos. destruct (Hcopied eq_refl Hpos) as (body & Hf & Hr). exists body. by rewrite Hsame2. }
  assert (Hframe : ∀ p, p ≠ dir ++ [b] → p ≠ pre → p ≠ copy → f2 !! p = f !! p) by (intros p ? ? ?; by rewrite Hsame2, Hsame).
  destruct rest as [|s rest].
  - rewrite app_nil_r in Hp. subst dn. destruct (applied_all ws name v steps target db db') as [Ht Hs]; [done.. |].
    pose proof (verify_does ws name f2 db' Hd2 Hh2) as Hver. rewrite (bool_decide_eq_true_2 _ Hs) in Hver.
    destruct (verifyWorkspaceStamp _ _ _ _) as [[]|]; [|done]. cbn [fst snd]. split; [done |]. split; [done |].
    exists (pending v steps), [], db'. by rewrite app_nil_r.
  - destruct (apply_step exec_sql ws s db') as [|e1] eqn:Es; [done |]. cbn [mbind result_bind fst snd]. split; [done |]. split; [done |].
    exists dn, (s :: rest), db'. split_and!; [done.. |]. by exists e1.
Qed.
End migration.

(** A database of an older schema is never asked whose it is: brought forward,
    it carries the stamp of whoever opened it.  One that is up to date and
    another workspace's is refused. *)
Lemma older_foreign_adopted {D} sqlite_read sqlite_write (exec_sql : string → @database D → result (@database D)) migration_files
  (written : ∀ db, sqlite_read (sqlite_write db) = Some db) dir b now ws name f db target steps :
  plain b → well_formed f → real_dir f dir → holds_db sqlite_read f (dir ++ [b]) db → schema db = Some (target - 1)%Z → (1 < target)%Z →
  SchemaVersions name = Some target → migrationsFor migration_files name = Ok steps → Z.of_nat (length steps) = target →
  f !! pre dir = None → plain (backup_file name (target - 1) now) → f !! (pre dir ++ [backup_file name (target - 1) now]) = None →
  ∀ s db', last steps = Some s → apply_step exec_sql ws s db = Ok db' →
  is_ok (migrate sqlite_read sqlite_write exec_sql migration_files now (mk_db ws name (dir ++ [b])) ws f).1 = true.
Proof.
  intros Hb Hw Hd Hh Hs Ht Htarget Hsteps Hlen Hpre Hplain Hcopy s db' Hlast Happly.
  destruct (migrate_eq sqlite_read sqlite_write exec_sql migration_files dir b Hb now ws name f db (target - 1) target steps) as [e ->]; [done.. |].
  rewrite (proj2 (Z.ltb_ge target _)), (proj2 (Z.eqb_neq _ target)) by lia.
  destruct (copied sqlite_read sqlite_write written dir b Hb ws name now (target - 1) target f db) as (r & f1 & -> & Hd1 & Hh1 & _ & Hok & _);
    [done.. | by left | done | by rewrite Hcopy |].
  rewrite bool_decide_eq_false_2 in Hok by naive_solver. destruct r as [[]|]; [|done].
  destruct (run_steps_does sqlite_read sqlite_write exec_sql written dir b Hb ws name (target - 1) steps f1 db Hd1 Hh1)
    as (dn & rest & db1 & f2 & Hp & Ha & Hd2 & Hh2 & _ & -> & Hrest).
  pose proof (migrationsFor_numbered migration_files name steps Hsteps) as Hn.
  assert (pending (target - 1) steps = [s]) as Hone.
  { destruct steps as [|s0 steps _] using rev_ind; [done |]. rewrite last_snoc in Hlast. injection Hlast as ->.
    rewrite length_app in Hlen. cbn in Hlen. unfold pending. rewrite List.filter_app. cbn [List.filter].
    rewrite (Hn (length steps) s), (proj2 (Z.ltb_lt _ _)) by (lia || by apply list_lookup_middle).
    replace (List.filter _ steps) with (@nil migration); [done |]. symmetry.
    assert (Hall : ∀ x, x ∈ steps → (mg_version x <= target - 1)%Z).
    { intros x [i Hi]%list_elem_of_lookup. rewrite (Hn i x) by (by apply lookup_app_l_Some). apply lookup_lt_Some in Hi. lia. }
    clear -Hall. induction steps as [|x l IH]; [done |]. cbn [List.filter]. rewrite (proj2 (Z.ltb_ge _ _)) by (apply Hall; left).
    apply IH. intros y Hy. apply Hall. by right. }
  destruct rest as [|s' rest].
  - rewrite app_nil_r in Hp. subst dn. rewrite Hone in Ha. cbn [applied] in Ha. rewrite Happly in Ha. injection Ha as <-.
    pose proof (verify_does sqlite_read dir b Hb ws name f2 db' Hd2 Hh2) as Hver. destruct (apply_step_meta exec_sql ws s db db' Happly) as (meta & Hm & _ & Hws).
    rewrite bool_decide_eq_true_2 in Hver; [|unfold stamp; by rewrite Hm]. by destruct (verifyWorkspaceStamp _ _ _ _).
  - rewrite Hone in Hp. destruct dn as [|s1 dn]; [|by destruct dn]. injection Hp as <- _. cbn [applied] in Ha. injection Ha as <-. by rewrite Happly in Hrest.
Qed.

(** A session's root is always a new one, so switching to its workspace never
    clears what another workspace left. *)
Lemma session_switch_clears_nothing {D} sqlite_read sqlite_write (exec_sql : string → @database D → result (@database D)) migration_files
  cwd le_data now dataDir id f f1 f2 r r' s :
  OpenRoot cwd le_data dataDir f = (Ok r, f1) →
  OpenWorkspace sqlite_read sqlite_write exec_sql migration_files now r id f1 = (Ok (s, r'), f2) →
  ∃ r'', SwitchTo r' id f2 = (Ok ("", r''), f2).
Proof.
  unfold OpenRoot, mbind, M_bind, mret, M_ret. destruct (NewLayout _ _ _ f) as [[l|] f0]; [|done]. intros [= <- <-].
  unfold OpenWorkspace. destruct (negb (Valid id)); [done |]. destruct (mem id _); [intros [= <- <- <-] |].
  - unfold SwitchTo. cbn [Rt_active]. destruct (String.eqb "" id); by eexists.
  - unfold mbind, M_bind, mret, M_ret. destruct (make_all _ _ _) as [[]?]; [|done]. destruct (open_databases _ _ _ _ _ _ _) as [[]?]; [|done].
    intros [= <- <- <-]. unfold SwitchTo. cbn [Rt_active]. destruct (String.eqb "" id); by eexists.
Qed.

(** ** Examples *)

(** A codec for databases whose rows are the statements that were run. *)
Fixpoint bits (p : positive) : string :=
  match p with xH => "" | xO p => String "0" (bits p) | xI p => String "1" (bits p) end.
Fixpoint unbits (s : string) : positive :=
  match s with EmptyString => xH | String c s => if Ascii.eqb c "0" then xO (unbits s) else xI (unbits s) end.
Lemma unbits_bits p : unbits (bits p) = p.
Proof. induction p as [p IH|p IH|]; cbn; by rewrite ?IH. Qed.

Definition demo_codec (db : @database (list string)) : option (gmap string string) * list string := (db_meta db, db_rows db).
Definition demo_write (db : @database (list string)) : string := bits (encode (demo_codec db)).
Definition demo_read (s : string) : option (@database (list string)) := (λ c, mk_database c.1 c.2) <$> decode (unbits s).
Lemma demo_written db : demo_read (demo_write db) = Some db.
Proof. unfold demo_read, demo_write. rewrite unbits_bits, decode_encode. by destruct db. Qed.
Definition demo_exec (sql : string) (db : @database (list string)) : result (@database (list string)) :=
  Ok (mk_database (Some (default ∅ (db_meta db))) (db_rows db ++ [sql])).
Definition demo_migrations : list (string * string) :=
  [("index_001.sql", "create files"); ("index_002.sql", "alter files"); ("telemetry_001.sql", "create events")].
Definition demo_old : @database (list string) :=
  mk_database (Some {[metaSchemaVersion := "1"; metaWorkspaceID := "lew_other"]}) ["create files"].
Definition demo_tree : fs := {[ ["ws"] := NDir; ["ws"; "index.db"] := NFile (demo_write demo_old) ]}.

Lemma demo_tree_ok : well_formed demo_tree ∧ real_dir demo_tree ["ws"] ∧ holds_db demo_read demo_tree (["ws"] ++ ["index.db"]) demo_old.
Proof.
  split_and!; [apply well_formed_b_ok; vm_compute; reflexivity | |].
  - apply (real_dir_below demo_tree [] "ws"); [apply real_dir_root | by apply plain_b_ok | reflexivity].
  - exists (demo_write demo_old). split; [reflexivity | apply demo_written].
Qed.
Definition demo_steps : list migration := [mk_migration 1 "index_001.sql" "create files"; mk_migration 2 "index_002.sql" "alter files"].
Lemma demo_steps_for : migrationsFor demo_migrations "index" = Ok demo_steps.
Proof. vm_compute. reflexivity. Qed.

Lemma migrate_exact_witness :
  let run := migrate demo_read demo_write demo_exec demo_migrations "20260101T000000Z" (mk_db "lew_mine" "index" ["ws"; "index.db"]) "lew_mine" demo_tree in
  holds_db demo_read run.2 ["ws"; "pre-migration"; "index.v1-20260101T000000Z.db"] demo_old ∧
  ∃ db', holds_db demo_read run.2 ["ws"; "index.db"] db' ∧ run.1 = Ok tt ∧ schema db' = Some 2%Z ∧ stamp db' = Some "lew_mine".
Proof.
  destruct demo_tree_ok as (H1 & H2 & H3).
  assert (Hp : plain "index.db") by (by apply plain_b_ok).
  pose proof (migrate_exact demo_read demo_write demo_exec demo_migrations demo_written ["ws"] "index.db" Hp
    "20260101T000000Z" "lew_mine" "index" demo_tree demo_old 1 2 demo_steps H1 H2 H3 eq_refl eq_refl demo_steps_for eq_refl) as (_ & _ & H).
  destruct H as (_ & H); [done | by left | by apply plain_b_ok | intros n; vm_compute; discriminate |].
  rewrite bool_decide_eq_false_2 in H by (intros [_ Hc]; by apply Hc).
  destruct H as [Hcopy (dn & rest & db' & Hpend & Happ & Hdb & Hend)]. split; [by apply Hcopy |]. exists db'. split; [exact Hdb |].
  destruct rest as [|s rest]; [exact Hend |]. exfalso. destruct Hend as (e & Hs & _). clear -Hs.
  unfold apply_step, demo_exec in Hs. cbn [wrap_r] in Hs. discriminate Hs.
Defined.
