(* ===== verification/Checkout.v ===== *)
(** The git side of a task's checkout: [Manager] and [Worktree] of
    [src/internal/worktree/worktree.go], over an arbitrary git command and the
    file system of [Worktree].  Timeouts and the environment of the command are
    not modelled. *)
From S2P Require Import Prelude GoStrings GoPath Policy Worktree.

Open Scope string_scope.
Open Scope list_scope.
Open Scope nat_scope.

(** What running a command gives: its output, its error stream and the error
    of [cmd.Run] when it failed. *)
Record exec_result := mk_exec { ex_stdout : string; ex_stderr : string; ex_err : option string }.

(** [worktree/worktree.go:31-42 Worktree] *)
Record Checkout := mk_checkout {
  W_ID : string; W_Path : string; W_Branch : string; W_Base : string; W_Repo : string }.

(** [worktree/worktree.go:365-370 SyncReport] *)
Record SyncReport := mk_sync { Applied : bool; Untracked : list string }.

Section git.
Context {G : Type}.
(** The git binary: its arguments and standard input, over the file system and
    whatever else it keeps. *)
Context (exec : list string → string → fs * G → exec_result * (fs * G)).

Notation GM := (M (fs * G)).

(** [worktree/worktree.go:251-270 git] *)
Definition git (dir : string) (args : list string) : GM string := fun s =>
  let '(r, s) := exec (["-C"; dir] ++ args) "" s in
  match ex_err r with
  | Some e =>
      let msg := trim_space (ex_stderr r) in
      let msg := if String.eqb msg "" then e else msg in
      (Err (errorf ("git " +:+ join " " args +:+ ": " +:+ msg)), s)
  | None => (Ok (trim_newlines (ex_stdout r)), s)
  end.

(** [worktree/worktree.go:392-406 gitRaw] *)
Definition gitRaw (dir : string) (args : list string) : GM string := fun s =>
  let '(r, s) := exec (["-C"; dir] ++ args) "" s in
  match ex_err r with
  | Some _ => (Err (errorf ("git " +:+ join " " args +:+ ": " +:+ trim_space (ex_stderr r))), s)
  | None => (Ok (ex_stdout r), s)
  end.

(** [worktree/worktree.go:409-422 gitApply] *)
Definition gitApply (dir patch : string) : GM unit := fun s =>
  let '(r, s) := exec ["-C"; dir; "apply"; "--whitespace=nowarn"; "-"] patch s in
  match ex_err r with
  | Some _ => (Err (errorf (trim_space (ex_stderr r))), s)
  | None => (Ok tt, s)
  end.

Definition stat (path : string) : GM (result node) := gets (λ s, Stat s.1 (path_of path)).
Definition fs_op (f : fs → result unit * fs) : GM unit := fun s =>
  let '(r, x) := f s.1 in (r, (x, s.2)).

(** [worktree/worktree.go:246-249 IsRepository] *)
Definition IsRepository (path : string) : GM bool :=
  out ← try (git path ["rev-parse"; "--is-inside-work-tree"]);
  mret (match out with Ok out => String.eqb (trim_space out) "true" | Err _ => false end).

(** [worktree/worktree.go:60-60 ErrNotARepository] *)
Definition ErrNotARepository (path : string) : error :=
  mk_error (Some "worktree: not a git repository") ("worktree: not a git repository: " +:+ path).

(** [worktree/worktree.go:67-91 Manager.Create] *)
Definition Create (root repoPath taskID : string) : GM Checkout :=
  repo ← IsRepository repoPath;
  if negb repo then throw (ErrNotARepository repoPath) else
  base ← wrapM "worktree: resolve HEAD: " (git repoPath ["rev-parse"; "HEAD"]);
  let id := "wt-" +:+ taskID in
  let branch := "le/task/" +:+ taskID in
  let path := join_path root id in
  st ← stat path;
  if is_ok st then throw (errorf ("worktree: " +:+ path +:+ " already exists; the previous task did not clean up"))
  else
    _ ← try (git repoPath ["worktree"; "prune"]);
    _ ← wrapM "worktree: add: " (git repoPath ["worktree"; "add"; "-b"; branch; path; base]);
    mret (mk_checkout id path branch base repoPath).

(** [worktree/worktree.go:95-103 Manager.Open] *)
Definition OpenCheckout (root repoPath taskID : string) : GM Checkout :=
  let id := "wt-" +:+ taskID in
  let path := join_path root id in
  st ← stat path;
  match st with
  | Err e => throw (wrap ("worktree: " +:+ path +:+ " does not exist: ") e)
  | Ok _ =>
      base ← try (git path ["rev-parse"; "HEAD"]);
      mret (mk_checkout id path ("le/task/" +:+ taskID)
              (match base with Ok b => b | Err _ => "" end) repoPath)
  end.

(** [os.RemoveAll] of the directory's canonical path. *)
Definition RemoveAll (path : string) (f : fs) : result unit * fs :=
  match EvalSymlinks f (parent (clean_comps true [] (path_of path))) with
  | Err e => (if is_not_exist e then Ok tt else Err e, f)
  | Ok d => let p := d ++ [base_name path] in
            (Ok tt, filter (λ kv, ¬ p `prefix_of` kv.1) f)
  end.

(** [worktree/worktree.go:110-126 Manager.Remove] *)
Definition Remove (wt : option Checkout) (keepBranch : bool) : GM unit :=
  match wt with
  | None => mret tt
  | Some wt =>
      r ← try (git (W_Repo wt) ["worktree"; "remove"; "--force"; W_Path wt]);
      _ ← match r with
          | Ok _ => mret tt
          | Err e =>
              rm ← try (fs_op (RemoveAll (W_Path wt)));
              match rm with
              | Err rmErr => throw (errorf (err_msg e +:+ nl +:+ err_msg rmErr))
              | Ok _ => _ ← try (git (W_Repo wt) ["worktree"; "prune"]); mret tt
              end
          end;
      if keepBranch then mret tt
      else _ ← try (git (W_Repo wt) ["branch"; "-D"; W_Branch wt]); mret tt
  end.

Definition commit_args (message : string) : list string :=
  ["-c"; "user.name=local-engineer"; "-c"; "user.email=le@localhost"; "commit"; "-q"; "-m"; message].

(** [worktree/worktree.go:135-150 Worktree.Commit] *)
Definition Commit (wt : Checkout) (message : string) : GM bool :=
  _ ← git (W_Path wt) ["add"; "-A"];
  quiet ← try (git (W_Path wt) ["diff"; "--cached"; "--quiet"]);
  if is_ok quiet then mret false
  else _ ← git (W_Path wt) (commit_args message); mret true.

(** [worktree/worktree.go:160-176 Worktree.ReadBase]: [None] is the nil body of
    a path the base does not have. *)
Definition ReadBase (wt : Checkout) (rel : string) : GM (option string) :=
  r ← gets (λ s, Resolve s.1 (W_Path wt) rel);
  match r with
  | Err e => throw e
  | Ok _ =>
      if Sensitive rel then throw (errorf "protected source path") else
      listed ← git (W_Path wt) ["ls-tree"; "--name-only"; W_Base wt; "--"; rel];
      if String.eqb listed "" then mret None
      else body ← git (W_Path wt) ["show"; W_Base wt +:+ ":" +:+ rel]; mret (Some body)
  end.

(** [worktree/worktree.go:181-192 Worktree.Diff] *)
Definition Diff (wt : Checkout) : GM string :=
  _ ← git (W_Path wt) ["add"; "-A"];
  git (W_Path wt) ["diff"; "--cached"; W_Base wt].

(** [worktree/worktree.go:197-212 Worktree.ChangedFiles] *)
Definition ChangedFiles (wt : Checkout) : GM (list string) :=
  _ ← git (W_Path wt) ["add"; "-A"];
  out ← git (W_Path wt) ["diff"; "--cached"; "--name-only"; W_Base wt];
  mret (filter (λ p, p ≠ "") (trim_space <$> split_char newline out)).

(** [worktree/worktree.go:216-232 Worktree.OutOfScope] *)
Definition OutOfScope (wt : Checkout) (allowed : list string) : GM (list string) :=
  changed ← ChangedFiles wt;
  match allowed with
  | [] => mret []
  | _ => mret (filter (λ f, Covers allowed f = false) changed)
  end.

(** [worktree/worktree.go:237-243 Worktree.Reset] *)
Definition ResetCheckout (wt : Checkout) : GM unit :=
  _ ← git (W_Path wt) ["reset"; "--hard"; W_Base wt];
  _ ← git (W_Path wt) ["clean"; "-fd"]; mret tt.

(** [worktree/worktree.go:306-329 Worktree.SyncFrom] its loop over the untracked files. *)
Fixpoint sync_untracked (wt : Checkout) (srcRepo : string) (others done_ : list string)
    : GM (list string) :=
  match others with
  | [] => mret done_
  | rel :: others =>
      if String.eqb rel "" then sync_untracked wt srcRepo others done_ else
      let src := join_path srcRepo rel in
      info ← stat src;
      match info with
      | Err _ | Ok NDir => sync_untracked wt srcRepo others done_
      | Ok _ =>
          body ← gets (λ s, ReadFile s.1 (path_of src));
          body ← lift body;
          let dst := clean_comps true [] (path_of (join_path (W_Path wt) rel)) in
          _ ← fs_op (λ f, MkdirAll f (parent dst));
          _ ← fs_op (λ f, WriteFile f dst body);
          sync_untracked wt srcRepo others (done_ ++ [rel])
      end
  end.

(** [worktree/worktree.go:284-331 Worktree.SyncFrom] *)
Definition SyncFrom (wt : Checkout) (srcRepo : string) : GM SyncReport :=
  diff ← wrapM "worktree: read uncommitted changes: " (gitRaw srcRepo ["diff"; "HEAD"; "--binary"]);
  applied ← (if blank diff then mret false
             else _ ← wrapM "worktree: apply uncommitted changes: " (gitApply (W_Path wt) diff);
                  mret true);
  others ← wrapM "worktree: list untracked files: "
             (git srcRepo ["ls-files"; "--others"; "--exclude-standard"; "-z"]);
  untracked ← sync_untracked wt srcRepo (split_char Ascii.zero others) [];
  mret (mk_sync applied untracked).

(** [worktree/worktree.go:342-361 Worktree.Rebase] *)
Definition Rebase (wt : Checkout) : GM Checkout :=
  _ ← git (W_Path wt) ["add"; "-A"];
  quiet ← try (git (W_Path wt) ["diff"; "--cached"; "--quiet"]);
  if is_ok quiet then mret wt else
  _ ← git (W_Path wt) (commit_args "le: baseline (the operator's uncommitted state)");
  head ← git (W_Path wt) ["rev-parse"; "HEAD"];
  mret (mk_checkout (W_ID wt) (W_Path wt) (W_Branch wt) head (W_Repo wt)).

(** [worktree/worktree.go:374-374 SyncReport.Clean] *)
Definition SyncClean (r : SyncReport) : bool :=
  negb (Applied r) && (length (Untracked r) =? 0).

(** [worktree/worktree.go:377-388 SyncReport.Describe] *)
Definition Describe (r : SyncReport) : string :=
  if SyncClean r then "the working tree was clean; this verifies the committed state"
  else if Applied r && (0 <? length (Untracked r)) then
    "verifying your uncommitted changes, including " +:+ pretty (length (Untracked r)) +:+ " untracked file(s)"
  else if Applied r then "verifying your uncommitted changes"
  else "verifying with " +:+ pretty (length (Untracked r)) +:+ " untracked file(s) included".

(** ** Scope *)

Lemma OutOfScope_spec wt allowed s out s' :
  OutOfScope wt allowed s = (Ok out, s') →
  ∃ changed, ChangedFiles wt s = (Ok changed, s') ∧
    out = if decide (allowed = []) then [] else filter (λ f, Covers allowed f = false) changed.
Proof.
  unfold OutOfScope, mbind, M_bind. destruct (ChangedFiles wt s) as [[changed|e] s1]; [|done].
  destruct allowed; intros [= <- <-]; eauto.
Qed.

(** The out-of-scope check reports exactly the changed files no declared
    pattern covers, whatever git answers, when a scope is declared; with no
    declared scope it reports none; a git failure is an error and never an
    empty answer. *)
Theorem OutOfScope_exact wt allowed s :
  match ChangedFiles wt s with
  | (Err e, s') => OutOfScope wt allowed s = (Err e, s')
  | (Ok changed, s') => ∃ out, OutOfScope wt allowed s = (Ok out, s') ∧
      (allowed = [] → out = []) ∧
      (allowed ≠ [] → ∀ f, f ∈ out ↔ f ∈ changed ∧
         ∀ pat, pat ∈ allowed → validScope pat = true →
           clean pat ≠ "." ∧ matches (clean pat) f = false)
  end.
Proof.
  unfold OutOfScope, mbind, M_bind. destruct (ChangedFiles wt s) as [[changed|e] s1]; [|done].
  destruct allowed as [|a allowed]; eexists; (split; [done |]); split; try done.
  intros _ f. rewrite list_elem_of_filter.
  assert (Covers (a :: allowed) f = false ↔ ∀ pat, pat ∈ a :: allowed → validScope pat = true →
           clean pat ≠ "." ∧ matches (clean pat) f = false) as ->; [|tauto].
  rewrite <- not_true_iff_false, Covers_spec. split.
  - intros H pat Hp Hv. split; [naive_solver | apply not_true_iff_false; naive_solver].
  - intros H (pat & Hp & Hv & Hm). destruct (H pat Hp Hv). destruct Hm; congruence.
Qed.

End git.
