(* ===== verification/Recipe.v ===== *)
(** Verification recipes: [src/internal/recipe/recipe.go], [presets.go] and the
    level tables of [builtin.go]. *)
From S2P Require Import Prelude GoStrings GoPath Policy Worktree.

From Stdlib Require Ascii.

Open Scope string_scope.
Open Scope list_scope.
Open Scope nat_scope.

(** ** Data *)

(** [recipe/recipe.go:33-46 Status] *)
Inductive Status := Pass | Fail | Error | Skipped.

(** [recipe/recipe.go:50-69 Kind] a string type; [KindOther] is any other
    string a configuration file may hold. *)
Inductive Kind :=
| KindBuild | KindVet | KindTest | KindRace | KindLint | KindAnalyzer | KindFormat
| KindGenerate | KindIntegration | KindCustom
| KindOther (s : string).

(** [recipe/builtin.go:13-26 Level] *)
Inductive Level := Low | Standard | High | LevelOther (s : string).

#[export] Instance status_eq_dec : EqDecision Status. Proof. solve_decision. Defined.
#[export] Instance kind_eq_dec : EqDecision Kind. Proof. solve_decision. Defined.
#[export] Instance level_eq_dec : EqDecision Level. Proof. solve_decision. Defined.

Definition show_status (s : Status) : string :=
  match s with Pass => "pass" | Fail => "fail" | Error => "error" | Skipped => "skipped" end.
Definition show_kind (k : Kind) : string :=
  match k with
  | KindBuild => "build" | KindVet => "vet" | KindTest => "test" | KindRace => "race"
  | KindLint => "lint" | KindAnalyzer => "analyzer" | KindFormat => "format"
  | KindGenerate => "generate" | KindIntegration => "integration" | KindCustom => "custom"
  | KindOther s => s
  end.
Definition show_level (l : Level) : string :=
  match l with Low => "low" | Standard => "standard" | High => "high" | LevelOther s => s end.

(** [recipe/builtin.go:29-35 ParseLevel] *)
Definition ParseLevel (s : string) : option Level :=
  if String.eqb s "low" then Some Low
  else if String.eqb s "standard" then Some Standard
  else if String.eqb s "high" then Some High else None.

(** [recipe/recipe.go:92-104 Finding] *)
Record Finding := mk_finding {
  F_File : string; F_Line : Z; F_Column : Z; F_Message : string; F_Test : string; F_Rule : string }.

(** [recipe/recipe.go:108-117 Summary] *)
Record Summary := mk_summary {
  Tests : gmap string Status; Headline : string; Findings : list Finding;
  Counts : gmap string Z; S_Truncated : bool }.

Definition headline_only (h : string) : Summary := mk_summary ∅ h [] ∅ false.

(** [recipe/recipe.go:127-141 Result] *)
Record Result := mk_result {
  R_Recipe : string; R_Kind : Kind; R_Status : Status; R_Summary : Summary; R_ExitCode : Z;
  R_Duration : Z; R_Candidate : string; ArtifactHash : string; R_Err : string }.

#[export] Instance finding_eq_dec : EqDecision Finding. Proof. solve_decision. Defined.
#[export] Instance summary_eq_dec : EqDecision Summary. Proof. solve_decision. Defined.
#[export] Instance result_eq_dec' : EqDecision Result. Proof. solve_decision. Defined.

(** [recipe/recipe.go:144-144 Result.Passed] *)
Definition Passed (r : Result) : bool := bool_decide (R_Status r = Pass).

(** [recipe/recipe.go:124-124 Summarizer] *)
Definition Summarizer : Type := Z → string → string → Status * Summary.

(** [recipe/recipe.go:72-89 Recipe]; [AppliesTo] looks at the file system. *)
Record Recipe := mk_recipe {
  Rec_Name : string; Rec_Kind : Kind; Argv : list string; Rec_Dir : string; Timeout : Z;
  Rec_Env : list string; Summarize : option Summarizer; AppliesTo : option (fs → string → bool) }.

(** ** Levels *)

(** [recipe/builtin.go:38-48 Level.Includes] *)
Definition Includes (l : Level) (k : Kind) : bool :=
  match l with
  | Low => bool_decide (k = KindBuild)
  | Standard => bool_decide (k ∈ [KindBuild; KindVet; KindTest; KindFormat])
  | High => true
  | LevelOther _ => false
  end.

(** [recipe/builtin.go:53-53 Level.IncludesDeclared] *)
Definition IncludesDeclared (l : Level) : bool := bool_decide (l = High).

(** [recipe/builtin.go:205-225 Required] *)
Definition Required (l : Level) : list Kind :=
  match l with
  | Low => [KindBuild]
  | Standard => [KindBuild; KindVet; KindTest; KindFormat]
  | High => [KindBuild; KindVet; KindTest; KindRace; KindFormat]
  | LevelOther _ => []
  end.

(** [recipe/builtin.go:234-236 ConditionalKinds] *)
Definition ConditionalKinds : list Kind := [KindLint; KindAnalyzer; KindGenerate; KindIntegration].

(** A level never demands a kind it does not run, and never a conditional one. *)
Lemma Required_included l k : k ∈ Required l → Includes l k = true ∧ k ∉ ConditionalKinds.
Proof.
  destruct l; simpl; intros H; try by apply not_elem_of_nil in H.
  all: repeat (apply elem_of_cons in H as [->|H]; [split; [done | set_solver] |]);
    by apply not_elem_of_nil in H.
Qed.

(** ** Bounded capture *)

(** [recipe/recipe.go:333-337 cappedBuffer] *)
Record cappedBuffer := mk_capped { cb_buf : string; cb_limit : Z; cb_truncated : bool }.

Definition zlen (s : string) : Z := Z.of_nat (String.length s).

(** [recipe/recipe.go:339-353 cappedBuffer.Write] the new buffer and the length
    reported to the writer. *)
Definition cb_write (c : cappedBuffer) (p : string) : cappedBuffer * Z :=
  let remaining := (cb_limit c - zlen (cb_buf c))%Z in
  (if Z.ltb 0 remaining then
     if Z.ltb remaining (zlen p)
     then mk_capped (cb_buf c +:+ take_str (Z.to_nat remaining) p) (cb_limit c) true
     else mk_capped (cb_buf c +:+ p) (cb_limit c) (cb_truncated c)
   else if Z.ltb 0 (zlen p) then mk_capped (cb_buf c) (cb_limit c) true else c,
   zlen p).

(** [recipe/recipe.go:355-361 cappedBuffer.String] *)
Definition cb_string (c : cappedBuffer) : string :=
  if cb_truncated c then cb_buf c +:+ nl +:+ "[output truncated]" else cb_buf c.

(** The writes a command makes, one after the other. *)
Definition cb_writes (c : cappedBuffer) (ps : list string) : cappedBuffer :=
  foldl (λ c p, fst (cb_write c p)) c ps.

(** ** Helpers of the summarizers *)

(** [recipe/recipe.go:121-121 MaxFindings] *)
Definition MaxFindings : nat := 20.

(** [recipe/recipe.go:364-369 trimFindings] *)
Definition trimFindings (f : list Finding) : list Finding * bool :=
  if length f <=? MaxFindings then (f, false) else (take MaxFindings f, true).

(** [recipe/recipe.go:371-385 countsOf] the nil map is the empty map. *)
Definition countsOf (kv : gmap string Z) : gmap string Z := filter (λ x, x.2 ≠ 0%Z) kv.

(** [recipe/recipe.go:390-398 sortFindings] the order. *)
Definition finding_less (a b : Finding) : bool :=
  if negb (String.eqb (F_File a) (F_File b)) then str_ltb (F_File a) (F_File b)
  else if negb (Z.eqb (F_Line a) (F_Line b)) then Z.ltb (F_Line a) (F_Line b)
  else str_ltb (F_Message a) (F_Message b).

(** [recipe/recipe.go:389-399 sortFindings] *)
Definition sortFindings : list Finding → list Finding := stable_sort finding_less.

(** [recipe/summarize.go:228-243 lastLines] *)
Definition lastLines (s : string) (n : nat) : list string :=
  if blank s then [] else
  let kept := trim_space <$> filter (λ l, blank l = false) (split_char newline (trim_newlines s)) in
  drop (length kept - n) kept.

(** The ellipsis, three bytes. *)
Definition ellipsis : string :=
  String (Ascii.ascii_of_nat 226) (String (Ascii.ascii_of_nat 128) (String (Ascii.ascii_of_nat 166) "")).

Fixpoint newlines_to_spaces (s : string) : string :=
  match s with
  | EmptyString => EmptyString
  | String c s => String (if Ascii.eqb c newline then Ascii.ascii_of_nat 32 else c) (newlines_to_spaces s)
  end.

(** [recipe/summarize.go:436-442 truncateLine] *)
Definition truncateLine (s : string) (n : nat) : string :=
  let s := trim_space (newlines_to_spaces s) in
  if String.length s <=? n then s else take_str (n - 1) s +:+ ellipsis.

(** [recipe/summarize.go:23-45 Generic] *)
Definition Generic : Summarizer := λ exitCode stdout stderr,
  if Z.eqb exitCode 0 then (Pass, headline_only "ok") else
  let combined := trim_space stderr in
  let combined := if String.eqb combined "" then trim_space stdout else combined in
  let lines := lastLines combined 5 in
  let head := "exited " +:+ pretty exitCode in
  let head := match lines with [] => head | l :: _ => head +:+ ": " +:+ truncateLine l 200 end in
  (Fail, mk_summary ∅ head ((λ l, mk_finding "" 0 0 (truncateLine l 200) "" "") <$> lines) ∅ false).

(** ** Running one recipe *)

(** How [cmd.Run] ended. *)
Inductive run_err :=
| RunOk
| ExitError (code : Z)
| ExecError (msg : string)             (* the command could not start *)
| OtherError (msg : string).

(** What one run of a command gave: its writes to each stream, its end, whether
    its context was done, and how long it took. *)
Record run_outcome := mk_outcome {
  o_stdout : list string; o_stderr : list string; o_err : run_err; o_ctx_done : bool; o_duration : Z }.

(** [sandbox/sandbox.go:55-98 Spec] *)
Record Spec := mk_spec {
  Sp_Network : string; Sp_ReadOnly : list string; Sp_ReadWrite : list string;
  Sp_TCPConnect : list Z; Sp_TCPBind : list Z; Sp_AllowEphemeralTCP : bool; Sp_TCPDeny : list Z;
  Sp_Env : list string; Sp_Dir : string; Sp_TmpDir : string }.

(** [sandbox/sandbox.go:102-110 Spec.Validate] *)
Definition Spec_Validate (s : Spec) : result unit :=
  match Sp_ReadWrite s with
  | [] => Err (errorf "sandbox: spec grants no writable path; a task needs at least its worktree")
  | _ => if String.eqb (Sp_Dir s) "" then Err (errorf "sandbox: spec has no working directory") else Ok tt
  end.

(** [recipe/recipe.go:166-166 DefaultMaxOutput] *)
Definition DefaultMaxOutput : Z := 8388608.

(** [recipe/recipe.go:311-320 exitCodeOf] *)
Definition exitCodeOf (e : run_err) : Z :=
  match e with RunOk => 0 | ExitError c => c | _ => -1 end.

Definition show_run_err (e : run_err) : string :=
  match e with
  | RunOk => "<nil>" | ExitError c => "exit status " +:+ pretty c | ExecError m | OtherError m => m
  end.

Section run.
Context {W : Type}.
(** [Sandbox.Command(ctx, spec, argv)] and the run of the command it returns:
    it acts on the world, the worktree above all. *)
Context (sandbox : option (Spec → list string → Z → W → result run_outcome * W)).
(** [Store.Put] of the artifact store, which may fail, and the rendering of a
    duration. *)
Context (put : option (string → W → result string * W)).
Context (show_duration : Z → string).
Context (file_system : W → fs).

(** [recipe/recipe.go:299-309 Runner.persist] *)
Definition persist (res : Result) (stdout stderr : string) (w : W) : Result * W :=
  match put with
  | None => (res, w)
  | Some put =>
      let body := "$ recipe " +:+ R_Recipe res +:+ " (" +:+ show_kind (R_Kind res) +:+ ")" +:+ nl +:+
        "exit " +:+ pretty (R_ExitCode res) +:+ " after " +:+ show_duration (R_Duration res) +:+ nl +:+ nl +:+
        "--- stdout ---" +:+ nl +:+ stdout +:+ nl +:+ "--- stderr ---" +:+ nl +:+ stderr +:+ nl in
      match put body w with
      | (Ok hash, w) =>
          (mk_result (R_Recipe res) (R_Kind res) (R_Status res) (R_Summary res) (R_ExitCode res)
             (R_Duration res) (R_Candidate res) hash (R_Err res), w)
      | (Err _, w) => (res, w)
      end
  end.

(** [recipe/recipe.go:189-201 Runner.Run] the specification and the timeout of the run. *)
Definition run_spec (spec : Spec) (rec : Recipe) (worktreePath : string) : Spec :=
  mk_spec (Sp_Network spec) (Sp_ReadOnly spec) (Sp_ReadWrite spec) (Sp_TCPConnect spec)
    (Sp_TCPBind spec) (Sp_AllowEphemeralTCP spec) (Sp_TCPDeny spec)
    (Sp_Env spec ++ Rec_Env rec)
    (if String.eqb (Rec_Dir rec) "" then worktreePath
     else worktreePath +:+ "/" +:+ trim_prefix (Rec_Dir rec) "/")
    (Sp_TmpDir spec).
Definition run_timeout (rec : Recipe) : Z :=
  if Z.leb (Timeout rec) 0 then 600 * 1000000000 else Timeout rec.

Definition capture (limit : Z) (ps : list string) : string :=
  cb_string (cb_writes (mk_capped "" limit false) ps).

(** [recipe/recipe.go:169-273 Runner.Run] *)
Definition Run (spec : Spec) (maxOutput : Z) (rec : Recipe) (worktreePath candidate : string) (w : W)
    : Result * W :=
  let base st sum code dur err := mk_result (Rec_Name rec) (Rec_Kind rec) st sum code dur candidate "" err in
  let none := headline_only "" in
  if match AppliesTo rec with Some f => negb (f (file_system w) worktreePath) | None => false end then
    (base Skipped (headline_only (Rec_Name rec +:+ " does not apply to this worktree")) 0%Z 0%Z "", w)
  else match Argv rec with
  | [] => (base Error none 0%Z 0%Z "recipe has no command", w)
  | argv =>
  match sandbox with
  | None => (base Error none 0%Z 0%Z "no sandbox runner configured; verification must not run unconfined", w)
  | Some command =>
  match command (run_spec spec rec worktreePath) argv (run_timeout rec) w with
  | (Err e, w) => (base Error none 0%Z 0%Z (err_msg e), w)
  | (Ok o, w) =>
      let limit := if Z.leb maxOutput 0 then DefaultMaxOutput else maxOutput in
      let stdout := capture limit (o_stdout o) in
      let stderr := capture limit (o_stderr o) in
      let code := exitCodeOf (o_err o) in
      if o_ctx_done o then
        let msg := Rec_Name rec +:+ " timed out after " +:+ show_duration (run_timeout rec) in
        persist (base Error (headline_only msg) code (o_duration o) msg) stdout stderr w
      else match o_err o with
      | ExecError m =>
          let msg := Rec_Name rec +:+ " could not run: " +:+ m in
          (base Error (headline_only msg) code (o_duration o) msg, w)
      | _ =>
          if Z.eqb code 126 || Z.eqb code 127 then
            let hint := if Z.eqb code 126
              then "found but not executable inside the sandbox — if it lives outside sandbox.read_only_paths, Landlock denies the exec"
              else "not found on PATH inside the sandbox" in
            let msg := Rec_Name rec +:+ " could not run (exit " +:+ pretty code +:+ "): " +:+ hint +:+ ": "
                       +:+ truncateLine stderr 200 in
            persist (base Error (headline_only msg) code (o_duration o) msg) stdout stderr w
          else
            let summarize := match Summarize rec with Some f => f | None => Generic end in
            let '(st, sum) := summarize code stdout stderr in
            persist (base st sum code (o_duration o) "") stdout stderr w
      end
  end end end.

(** [recipe/recipe.go:287-292 Runner.RunAll] the results of the recipes a build failure skips. *)
Definition skipped_result (candidate : string) (rec : Recipe) : Result :=
  mk_result (Rec_Name rec) (Rec_Kind rec) Skipped (headline_only "skipped: the code does not compile")
    0 0 candidate "" "".

(** [recipe/recipe.go:278-297 Runner.RunAll]; [ctx_done] says whether the
    caller's context is done when a recipe's turn comes. *)
Fixpoint RunAll (ctx_done : W → bool) (spec : Spec) (maxOutput : Z) (recipes : list Recipe)
    (worktreePath candidate : string) (w : W) : list Result * W :=
  match recipes with
  | [] => ([], w)
  | rec :: rest =>
      if ctx_done w then ([], w) else
      let '(res, w) := Run spec maxOutput rec worktreePath candidate w in
      if bool_decide (Rec_Kind rec = KindBuild) && bool_decide (R_Status res = Fail)
      then (res :: (skipped_result candidate <$> rest), w)
      else let '(out, w) := RunAll ctx_done spec maxOutput rest worktreePath candidate w in
           (res :: out, w)
  end.
End run.

(** ** Presets *)

(** [recipe/presets.go:20-27 Preset] *)
Record Preset := mk_preset {
  P_Name : string; P_Kind : Kind; P_Argv : list string; P_Dir : string;
  TimeoutSeconds : Z; P_Parser : string }.

#[export] Instance preset_eq_dec : EqDecision Preset. Proof. solve_decision. Defined.

Definition known_parsers : list string := [""; "generic"; "go_build"; "go_vet"; "go_test_json"; "gofmt"].

(** [recipe/presets.go:29-55 Preset.Validate] *)
Definition Preset_Validate (f : fs) (root : string) (p : Preset) : result unit :=
  if String.eqb (P_Name p) "" || match P_Argv p with [] => true | a :: _ => String.eqb a "" end
  then Err (errorf "verification preset needs name and argv")
  else match P_Kind p with
  | KindOther s => Err (errorf ("unknown preset kind " +:+ quoted s))
  | _ =>
  if Z.ltb (TimeoutSeconds p) 1 || Z.ltb 3600 (TimeoutSeconds p)
  then Err (errorf ("preset " +:+ P_Name p +:+ " timeout must be 1–3600 seconds"))
  else
  _ ← (if String.eqb (P_Dir p) "" then Ok tt else
       _ ← Resolve f root (P_Dir p);
       guard_err (Sensitive (P_Dir p)) (errorf "sensitive preset directory"));
  guard_err (negb (mem (P_Parser p) known_parsers)) (errorf ("unknown preset parser " +:+ quoted (P_Parser p)))
  end.

(** [recipe/presets.go:228-236 selectPresets] *)
Definition selectPresets (all : list Preset) (l : Level) : list Preset :=
  filter (λ p, Includes l (P_Kind p) = true ∨ (l = Standard ∧ P_Kind p = KindLint)) all.

(** [recipe/presets.go:242-245 CheckPresets] the last result of every name. *)
Definition by_name (results : list Result) : gmap string Result :=
  foldl (λ m r, <[R_Recipe r := r]> m) ∅ results.

(** [recipe/presets.go:247-250 CheckPresets] the test of one preset. *)
Definition preset_passed (results : list Result) (candidate : string) (p : Preset) : bool :=
  match by_name results !! P_Name p with
  | Some r => bool_decide (R_Status r = Pass) && String.eqb (R_Candidate r) candidate
  | None => false
  end.

(** [recipe/presets.go:240-256 CheckPresets] *)
Definition CheckPresets (presets : list Preset) (results : list Result) (candidate : string)
    : bool * list string :=
  let reasons :=
    ((λ p, "required preset did not pass on this candidate: " +:+ P_Name p) <$>
      filter (λ p, preset_passed results candidate p = false) presets)
    ++ match presets with [] => ["no required verification presets"] | _ => [] end in
  (length reasons =? 0, reasons).

(** ** What verification promises *)

Lemma zlen_app s t : zlen (s +:+ t) = (zlen s + zlen t)%Z.
Proof. unfold zlen. rewrite length_app_str. lia. Qed.

Lemma take_str_all n s : String.length s ≤ n → take_str n s = s.
Proof.
  revert n. induction s as [|c s IH]; intros [|n]; simpl; intros H; try done; try lia.
  rewrite IH by lia. done.
Qed.

Lemma take_str_app_split n s t :
  take_str n (s +:+ t) = take_str n s +:+ take_str (n - String.length s) t.
Proof.
  revert n. induction s as [|c s IH]; intros n.
  - rewrite Nat.sub_0_r. by destruct n.
  - destruct n as [|n]; [by destruct t |].
    change (String c (take_str n (s +:+ t)) = String c (take_str n s +:+ take_str (n - String.length s) t)).
    by rewrite IH.
Qed.

(** The buffer after the text [all] was written to it. *)
Definition holds (limit : Z) (c : cappedBuffer) (all : string) : Prop :=
  cb_limit c = limit ∧ cb_buf c = take_str (Z.to_nat limit) all ∧
  cb_truncated c = Z.ltb limit (zlen all).

Lemma cb_write_holds limit c all p :
  (0 ≤ limit)%Z → holds limit c all → holds limit (cb_write c p).1 (all +:+ p).
Proof.
  intros H0 (Hl & Hb & Ht). unfold holds, cb_write; cbn [fst].
  assert (Hbl : zlen (cb_buf c) = Z.min limit (zlen all)).
  { rewrite Hb. unfold zlen. rewrite take_str_length. lia. }
  rewrite zlen_app, take_str_app_split, Hl, Hbl. unfold zlen in *.
  destruct (Z.ltb_spec 0 (limit - Z.min limit (Z.of_nat (String.length all)))) as [Hr|Hr].
  - assert (cb_buf c = all) as -> by (rewrite Hb; apply take_str_all; lia).
    rewrite (take_str_all _ all) by lia.
    destruct (Z.ltb_spec (limit - Z.min limit (Z.of_nat (String.length all))) (Z.of_nat (String.length p))) as [Hp|Hp]; cbn.
    + split_and!; [done | do 2 f_equal; lia |]. symmetry. apply Z.ltb_lt. lia.
    + split_and!; [done | |].
      * f_equal. symmetry. apply take_str_all. lia.
      * rewrite Ht. destruct (Z.ltb_spec limit (Z.of_nat (String.length all))); [lia|].
        symmetry. apply Z.ltb_ge. lia.
  - assert (take_str (Z.to_nat limit - String.length all) p = "") as ->.
    { replace (Z.to_nat limit - String.length all) with 0 by lia. by destruct p. }
    rewrite app_str_nil. destruct (Z.ltb_spec 0 (Z.of_nat (String.length p))) as [Hp|Hp]; cbn.
    + split_and!; [done | done |]. symmetry. apply Z.ltb_lt. lia.
    + split_and!; [done | done |]. rewrite Ht. f_equal. lia.
Qed.

Lemma cb_writes_holds limit c all ps :
  (0 ≤ limit)%Z → holds limit c all → holds limit (cb_writes c ps) (all +:+ join "" ps).
Proof.
  intros H0. revert c all. induction ps as [|p ps IH]; intros c all Hc.
  - change (join "" []) with "". by rewrite app_str_nil.
  - replace (all +:+ join "" (p :: ps)) with ((all +:+ p) +:+ join "" ps).
    + apply IH. by apply cb_write_holds.
    + rewrite app_str_assoc. f_equal. destruct ps; [by rewrite app_str_nil | done].
Qed.

(** Output capture is bounded and honest: whatever the command writes and
    in however many pieces, the captured text is the first bytes of its output
    up to the limit, the truncation marker is appended exactly when something
    was lost, and every write reports its full length so the command cannot
    fail for our budget. *)
Theorem capture_exact limit ps :
  (0 ≤ limit)%Z →
  capture limit ps =
    take_str (Z.to_nat limit) (join "" ps) +:+
      (if Z.ltb limit (zlen (join "" ps)) then nl +:+ "[output truncated]" else "") ∧
  ∀ c p, (cb_write c p).2 = zlen p.
Proof.
  intros H0. split; [|done]. unfold capture, cb_string.
  destruct (cb_writes_holds limit (mk_capped "" limit false) "" ps H0) as (_ & Hb & Ht).
  { split_and!; [done | by destruct (Z.to_nat limit) |]. symmetry. apply Z.ltb_ge. unfold zlen. simpl. lia. }
  change ("" +:+ join "" ps) with (join "" ps) in *. rewrite Ht, Hb.
  destruct (Z.ltb _ _); [done | by rewrite app_str_nil].
Qed.

Lemma capture_exact_witness :
  capture 5 ["abc"; "defg"; "h"] = "abcde" +:+ nl +:+ "[output truncated]".
Proof. rewrite (proj1 (capture_exact 5 ["abc"; "defg"; "h"] ltac:(lia))). reflexivity. Defined.

Lemma persist_fields {W} (put : option (string → W → result string * W)) show res a b w res' w' :
  persist put show res a b w = (res', w') →
  R_Recipe res' = R_Recipe res ∧ R_Kind res' = R_Kind res ∧ R_Status res' = R_Status res ∧
  R_Summary res' = R_Summary res ∧ R_ExitCode res' = R_ExitCode res ∧ R_Candidate res' = R_Candidate res ∧
  R_Err res' = R_Err res.
Proof.
  unfold persist. destruct put as [put|]; [|by intros [= <- <-]].
  destruct (put _ w) as [[h|e] w2]; by intros [= <- <-].
Qed.

(** When a run is a verdict on the code: the command ran to its end and its
    summarizer said so. *)
Definition completed {W} (sandbox : option (Spec → list string → Z → W → result run_outcome * W))
    (spec : Spec) (maxOutput : Z) (rec : Recipe) (worktreePath : string) (w : W) (v : Status) (sum : Summary) : Prop :=
  ∃ command o w', sandbox = Some command ∧ Argv rec ≠ [] ∧
    command (run_spec spec rec worktreePath) (Argv rec) (run_timeout rec) w = (Ok o, w') ∧
    o_ctx_done o = false ∧ (∀ m, o_err o ≠ ExecError m) ∧
    exitCodeOf (o_err o) ≠ 126%Z ∧ exitCodeOf (o_err o) ≠ 127%Z ∧
    let limit := if Z.leb maxOutput 0 then DefaultMaxOutput else maxOutput in
    (v, sum) = (match Summarize rec with Some f => f | None => Generic end)
      (exitCodeOf (o_err o)) (capture limit (o_stdout o)) (capture limit (o_stderr o)).

Section run_facts.
Context {W : Type} (sandbox : option (Spec → list string → Z → W → result run_outcome * W)).
Context (put : option (string → W → result string * W)) (show_duration : Z → string) (file_system : W → fs).
Notation Run := (Run sandbox put show_duration file_system).
Notation RunAll := (RunAll sandbox put show_duration file_system).

Lemma Run_identity spec mx rec wt cand w res w' :
  Run spec mx rec wt cand w = (res, w') →
  R_Recipe res = Rec_Name rec ∧ R_Kind res = Rec_Kind rec ∧ R_Candidate res = cand.
Proof.
  unfold Recipe.Run. destruct (match AppliesTo rec with Some _ => _ | None => _ end); [by intros [= <- <-] |].
  destruct (Argv rec) as [|a argv]; [by intros [= <- <-] |].
  destruct sandbox as [command|]; [|by intros [= <- <-]].
  destruct (command _ _ _ w) as [[o|e] w1]; [|by intros [= <- <-]].
  destruct (o_ctx_done o); [by intros (-> & -> & _ & _ & _ & -> & _)%persist_fields |].
  destruct (o_err o); try (by intros [= <- <-]);
    cbn [exitCodeOf]; (destruct (_ || _); [by intros (-> & -> & _ & _ & _ & -> & _)%persist_fields |]);
    destruct (match Summarize rec with Some f => f | None => Generic end _ _ _) as [st sum];
    by intros (-> & -> & _ & _ & _ & -> & _)%persist_fields.
Qed.

Lemma Run_verdict spec mx rec wt cand w res w' :
  Run spec mx rec wt cand w = (res, w') → R_Status res = Pass ∨ R_Status res = Fail →
  completed sandbox spec mx rec wt w (R_Status res) (R_Summary res).
Proof.
  unfold Recipe.Run, completed. intros H Hst. revert H.
  destruct (match AppliesTo rec with Some _ => _ | None => _ end);
    [intros [= <- <-]; by destruct Hst |].
  destruct (Argv rec) as [|a argv] eqn:Ea; [intros [= <- <-]; by destruct Hst |].
  destruct sandbox as [command|]; [|intros [= <- <-]; by destruct Hst].
  destruct (command _ _ _ w) as [[o|e] w1] eqn:Ec; [|intros [= <- <-]; by destruct Hst].
  destruct (o_ctx_done o) eqn:Ed.
  { intros (_ & _ & Hs & _)%persist_fields. cbn in Hs. by destruct Hst; congruence. }
  destruct (o_err o) as [|c|m|m] eqn:Ee; try (intros [= <- <-]; by destruct Hst).
  all: cbn [exitCodeOf];
    (destruct (_ || _) eqn:E1; [intros (_ & _ & Hs & _)%persist_fields; cbn in Hs; by destruct Hst; congruence |]);
    apply orb_false_iff in E1 as [E1%Z.eqb_neq E2%Z.eqb_neq];
    destruct (match Summarize rec with Some f => f | None => Generic end _ _ _) as [st sum] eqn:Es;
    intros (_ & _ & Hs & Hsum & _)%persist_fields; cbn in Hs, Hsum;
    exists command, o, w1; rewrite Ee; cbn [exitCodeOf]; split_and!; try done; cbv zeta; rewrite Es; by rewrite Hs, Hsum.
Qed.

Lemma RunAll_identity ctx_done spec mx recipes wt cand w out w' :
  RunAll ctx_done spec mx recipes wt cand w = (out, w') →
  Forall2 (λ r rec, R_Recipe r = Rec_Name rec ∧ R_Kind r = Rec_Kind rec ∧ R_Candidate r = cand)
    out (take (length out) recipes).
Proof.
  revert w out w'. induction recipes as [|rec rest IH]; intros w out w'; cbn [Recipe.RunAll].
  { intros [= <- <-]. constructor. }
  destruct (ctx_done w); [intros [= <- <-]; constructor |].
  destruct (Run spec mx rec wt cand w) as [res w1] eqn:Er. apply Run_identity in Er.
  destruct (_ && _).
  - intros [= <- <-]. cbn [length take]. constructor; [done |].
    rewrite length_fmap, take_ge by done. clear. induction rest; constructor; done.
  - destruct (RunAll ctx_done spec mx rest wt cand w1) as [out2 w2] eqn:E2. intros [= <- <-].
    cbn [length take]. constructor; [done | by eapply IH].
Qed.

Lemma RunAll_length ctx_done spec mx recipes wt cand w out w' :
  (∀ w, ctx_done w = false) → RunAll ctx_done spec mx recipes wt cand w = (out, w') →
  length out = length recipes.
Proof.
  intros Hd. revert w out w'. induction recipes as [|rec rest IH]; intros w out w'; cbn [Recipe.RunAll].
  { by intros [= <- <-]. }
  rewrite Hd. destruct (Run spec mx rec wt cand w) as [res w1].
  destruct (_ && _).
  - intros [= <- <-]. simpl. by rewrite length_fmap.
  - destruct (RunAll ctx_done spec mx rest wt cand w1) as [out2 w2] eqn:E2. intros [= <- <-].
    simpl. f_equal. by eapply IH.
Qed.

Lemma RunAll_verdict ctx_done spec mx recipes wt cand w out w' r :
  RunAll ctx_done spec mx recipes wt cand w = (out, w') → r ∈ out →
  R_Status r = Pass ∨ R_Status r = Fail →
  ∃ rec w1, rec ∈ recipes ∧ Rec_Name rec = R_Recipe r ∧ Rec_Kind rec = R_Kind r ∧
    completed sandbox spec mx rec wt w1 (R_Status r) (R_Summary r).
Proof.
  revert w out w'. induction recipes as [|rec rest IH]; intros w out w'; cbn [Recipe.RunAll].
  { intros [= <- <-] []%not_elem_of_nil. }
  destruct (ctx_done w); [intros [= <- <-] []%not_elem_of_nil |].
  destruct (Run spec mx rec wt cand w) as [res w1] eqn:Er.
  assert (Hres : R_Status res = Pass ∨ R_Status res = Fail → ∃ rec0 w0, rec0 ∈ rec :: rest ∧
    Rec_Name rec0 = R_Recipe res ∧ Rec_Kind rec0 = R_Kind res ∧
    completed sandbox spec mx rec0 wt w0 (R_Status res) (R_Summary res)).
  { intros Hs. exists rec, w. destruct (Run_identity _ _ _ _ _ _ _ _ Er) as (? & ? & _).
    split_and!; [by left | done | done | by eapply Run_verdict]. }
  destruct (_ && _).
  - intros [= <- <-] [->|Hin]%elem_of_cons; [done |]. intros Hs. exfalso.
    apply list_elem_of_fmap in Hin as (x & -> & _). by destruct Hs.
  - destruct (RunAll ctx_done spec mx rest wt cand w1) as [out2 w2] eqn:E2.
    intros [= <- <-] [->|Hin]%elem_of_cons; [done |]. intros Hs.
    destruct (IH _ _ _ E2 Hin Hs) as (rec0 & w0 & ? & ?). exists rec0, w0. split; [by right | done].
Qed.

Lemma RunAll_short_circuit ctx_done spec mx recipes wt cand w out w' i j b r :
  RunAll ctx_done spec mx recipes wt cand w = (out, w') →
  out !! i = Some b → R_Kind b = KindBuild → R_Status b = Fail →
  i < j → out !! j = Some r → R_Status r = Skipped.
Proof.
  revert w out w' i j. induction recipes as [|rec rest IH]; intros w out w' i j; cbn [Recipe.RunAll].
  { intros [= <- <-]. done. }
  destruct (ctx_done w); [intros [= <- <-]; done |].
  destruct (Run spec mx rec wt cand w) as [res w1] eqn:Er.
  destruct (Run_identity _ _ _ _ _ _ _ _ Er) as (_ & Hk & _).
  destruct (_ && _) eqn:Eb.
  - intros [= <- <-] _ _ _ Hij. destruct j as [|j]; [lia |]. cbn. 
    intros Hj. apply list_lookup_fmap_Some in Hj as (x & Hx & _). by rewrite Hx.
  - destruct (RunAll ctx_done spec mx rest wt cand w1) as [out2 w2] eqn:E2. intros [= <- <-].
    destruct i as [|i]; cbn.
    + intros [= ->] Hb Hf. rewrite <- Hk, Hb, Hf, !bool_decide_true in Eb by done. done.
    + intros Hi Hb Hf Hij. destruct j as [|j]; [lia |]. cbn. eapply (IH _ _ _ i j); eauto with lia.
Qed.

(** Running a list of recipes yields, in order, one result per recipe
    attributed to that recipe and to the given candidate, all of them when the
    caller's context stays alive; a pass or a fail is only ever the verdict of
    a command that ran to its end inside the sandbox, was not timed out, could
    start, and did not exit with the exec-failure codes 126 or 127; and after a
    failed build every later recipe is reported skipped. *)
Theorem RunAll_evidence ctx_done spec mx recipes wt cand w out w' :
  RunAll ctx_done spec mx recipes wt cand w = (out, w') →
  Forall2 (λ r rec, R_Recipe r = Rec_Name rec ∧ R_Kind r = Rec_Kind rec ∧ R_Candidate r = cand)
    out (take (length out) recipes) ∧
  ((∀ w, ctx_done w = false) → length out = length recipes) ∧
  (∀ r, r ∈ out → R_Status r = Pass ∨ R_Status r = Fail →
     ∃ rec w1, rec ∈ recipes ∧ Rec_Name rec = R_Recipe r ∧ Rec_Kind rec = R_Kind r ∧
       completed sandbox spec mx rec wt w1 (R_Status r) (R_Summary r)) ∧
  (∀ i j b r, out !! i = Some b → R_Kind b = KindBuild → R_Status b = Fail →
     i < j → out !! j = Some r → R_Status r = Skipped).
Proof.
  intros H. split_and!.
  - by eapply RunAll_identity.
  - intros Hd. by eapply RunAll_length.
  - intros r. by eapply RunAll_verdict.
  - intros i j b r. by eapply RunAll_short_circuit.
Qed.
End run_facts.

Definition demo_recipe (n : string) (k : Kind) : Recipe := mk_recipe n k [n] "" 0 [] None None.
Definition demo_spec : Spec := mk_spec "" [] ["/wt"] [] [] false [] [] "" "".
Definition demo_sandbox : option (Spec → list string → Z → unit → result run_outcome * unit) :=
  Some (λ _ argv _ w, (Ok (mk_outcome ["out"] [] (if bool_decide (argv = ["go build"]) then ExitError 1 else RunOk) false 1), w)).

Lemma RunAll_evidence_witness :
  let recipes := [demo_recipe "go build" KindBuild; demo_recipe "go test" KindTest] in
  ∃ out, RunAll demo_sandbox None (λ _, "") (λ _, ∅) (λ _, false) demo_spec 0 recipes "/wt" "c1" tt = (out, tt) ∧
    R_Status <$> out = [Fail; Skipped] ∧
    (∀ r, r ∈ out → R_Status r = Pass ∨ R_Status r = Fail →
     ∃ rec w1, rec ∈ recipes ∧ Rec_Name rec = R_Recipe r ∧ Rec_Kind rec = R_Kind r ∧
       completed demo_sandbox demo_spec 0 rec "/wt" w1 (R_Status r) (R_Summary r)).
Proof.
  cbv zeta. eexists. split; [vm_compute; reflexivity |]. split; [reflexivity |].
  refine (proj1 (proj2 (proj2 (RunAll_evidence demo_sandbox None (λ _, "") (λ _, ∅) (λ _, false)
    demo_spec 0 [demo_recipe "go build" KindBuild; demo_recipe "go test" KindTest] "/wt" "c1" tt _ tt _)))).
  vm_compute. reflexivity.
Defined.

(** ** Frozen presets *)

Lemma by_name_app results r : by_name (results ++ [r]) = <[R_Recipe r := r]> (by_name results).
Proof. unfold by_name. by rewrite foldl_app. Qed.

Lemma by_name_last results n r :
  by_name results !! n = Some r ↔
  ∃ l1 l2, results = l1 ++ r :: l2 ∧ R_Recipe r = n ∧ ∀ x, x ∈ l2 → R_Recipe x ≠ n.
Proof.
  revert r. induction results as [|x l IH] using rev_ind; intros r.
  - split; [unfold by_name; cbn; by rewrite lookup_empty | intros ([] & ? & ? & _); done].
  - rewrite by_name_app. destruct (decide (R_Recipe x = n)) as [<-|Hne].
    + rewrite lookup_insert_eq. split.
      * intros [= ->]. exists l, []. split_and!; [done | done |]. by intros ? ?%not_elem_of_nil.
      * intros (l1 & l2 & Heq & Hn & Hl). destruct l2 as [|y l2 _] using rev_ind.
        -- apply app_inj_tail in Heq as [_ ->]. done.
        -- rewrite app_comm_cons, app_assoc in Heq. apply app_inj_tail in Heq as [_ ->].
           exfalso. apply (Hl y); [set_solver | done].
    + rewrite lookup_insert_ne, IH by done. split.
      * intros (l1 & l2 & -> & Hn & Hl). exists l1, (l2 ++ [x]). split_and!; [by rewrite <- app_assoc | done | set_solver].
      * intros (l1 & l2 & Heq & Hn & Hl). destruct l2 as [|y l2 _] using rev_ind.
        -- apply app_inj_tail in Heq as [_ ->]. done.
        -- rewrite app_comm_cons, app_assoc in Heq. apply app_inj_tail in Heq as [-> ->].
           exists l1, l2. split_and!; [done | done | set_solver].
Qed.

Lemma preset_passed_spec results cand p :
  preset_passed results cand p = true ↔
  ∃ r, by_name results !! P_Name p = Some r ∧ R_Status r = Pass ∧ R_Candidate r = cand.
Proof.
  unfold preset_passed. destruct (by_name results !! P_Name p) as [r|]; [|naive_solver].
  rewrite andb_true_iff, bool_decide_eq_true, String.eqb_eq. naive_solver.
Qed.

(** The preset check accepts exactly when there is at least one frozen
    preset and, for every one, the last result recorded under its name is a
    pass against the current candidate; otherwise it names each preset that
    failed the test. *)
Theorem CheckPresets_exact presets results cand :
  ((CheckPresets presets results cand).1 = true ↔
     presets ≠ [] ∧ ∀ p, p ∈ presets → ∃ l1 r l2, results = l1 ++ r :: l2 ∧ R_Recipe r = P_Name p ∧
       (∀ x, x ∈ l2 → R_Recipe x ≠ P_Name p) ∧ R_Status r = Pass ∧ R_Candidate r = cand) ∧
  (∀ p, p ∈ presets → preset_passed results cand p = false →
     ("required preset did not pass on this candidate: " +:+ P_Name p) ∈ (CheckPresets presets results cand).2).
Proof.
  assert (Hreq : ∀ p, preset_passed results cand p = true ↔ ∃ l1 r l2, results = l1 ++ r :: l2 ∧
    R_Recipe r = P_Name p ∧ (∀ x, x ∈ l2 → R_Recipe x ≠ P_Name p) ∧ R_Status r = Pass ∧ R_Candidate r = cand).
  { intros p. rewrite preset_passed_spec. setoid_rewrite by_name_last. naive_solver. }
  unfold CheckPresets; cbn [fst snd]. split.
  - rewrite Nat.eqb_eq, length_zero_iff_nil. split.
    + intros [Hf Hp]%app_eq_nil. destruct presets as [|p0 ps]; [done |]. split; [done |].
      intros p Hin. apply Hreq. destruct (preset_passed results cand p) eqn:E; [done |].
      apply fmap_nil_inv in Hf. exfalso. apply (not_elem_of_nil p). rewrite <- Hf.
      by apply list_elem_of_filter.
    + intros [Hne Hall]. destruct presets as [|p0 ps]; [done |]. rewrite app_nil_r.
      destruct (filter _ _) as [|q qs] eqn:E; [done |]. exfalso.
      assert (q ∈ filter (λ p, preset_passed results cand p = false) (p0 :: ps)) as Hq by (rewrite E; by left).
      apply list_elem_of_filter in Hq as [Hq Hin]. apply Hall, Hreq in Hin. congruence.
  - intros p Hp Hf. apply elem_of_app. left. apply list_elem_of_fmap. exists p. split; [done |].
    by apply list_elem_of_filter.
Qed.
