(* ===== verification/Summarize.v ===== *)
(** The summarizers of [src/internal/recipe/summarize.go] and the built-in
    recipes of [builtin.go].  The JSON reports of semgrep and golangci-lint are
    decoded by a parameter. *)
From S2P Require Import Prelude GoStrings GoPath GoRegexp Policy Worktree Recipe.

Open Scope string_scope.
Open Scope list_scope.
Open Scope nat_scope.

(** [strconv.Atoi] of a run of digits: a value out of range is the largest int. *)
Fixpoint digits_value (acc : Z) (s : string) : Z :=
  match s with
  | EmptyString => acc
  | String c s => digits_value (acc * 10 + (Z.of_nat (Ascii.nat_of_ascii c) - 48)) s
  end.

(** [recipe/recipe.go:401-404 atoi] *)
Definition atoi (s : string) : Z := Z.min (digits_value 0 s) (2 ^ 63 - 1).

Notation nonspace := (λ c, negb (re_space c)).

(** [recipe/summarize.go:19-19 goDiagnostic] *)
Definition goDiagnostic : re :=
  rseq [RBol; RGroup 1 (rseq [rplus_lazy (RCls nonspace); rlit ".go"]); rlit ":";
        RGroup 2 (rplus (RCls digit)); ropt (rseq [rlit ":"; RGroup 3 (rplus (RCls digit))]);
        rlit ":"; rplus (RCls re_space); RGroup 4 (rstar (RCls dot)); REol].

(** [recipe/summarize.go:108-115 testFailLine] *)
Definition testFailLine : re :=
  rseq [RBol; rstar (RCls re_space); rlit "--- FAIL: "; RGroup 1 (rplus (RCls nonspace))].
(** [recipe/summarize.go:110-110 testPanic] *)
Definition testPanic : re := rseq [RBol; rlit "panic: "; RGroup 1 (rstar (RCls dot))].
(** [recipe/summarize.go:111-111 pkgFailLine] *)
Definition pkgFailLine : re :=
  rseq [RBol; rlit "FAIL"; rplus (RCls re_space); RGroup 1 (rplus (RCls nonspace))].
(** [recipe/summarize.go:112-112 pkgOKLine] *)
Definition pkgOKLine : re :=
  rseq [RBol; rlit "ok"; rplus (RCls re_space); RGroup 1 (rplus (RCls nonspace))].
(** [recipe/summarize.go:113-113 testLocation] *)
Definition testLocation : re :=
  rseq [RBol; rplus (RCls re_space); RGroup 1 (rseq [rplus_lazy (RCls nonspace); rlit ".go"]);
        rlit ":"; RGroup 2 (rplus (RCls digit)); rlit ":"; rstar (RCls re_space);
        RGroup 3 (rstar (RCls dot)); REol].
(** [recipe/summarize.go:114-114 raceHeader] *)
Definition raceHeader : re := rseq [RBol; rlit "WARNING: DATA RACE"].

Definition finding_key (f : Finding) : string :=
  F_File f +:+ ":" +:+ pretty (F_Line f) +:+ ":" +:+ pretty (F_Column f) +:+ ":" +:+ F_Message f.

Fixpoint diagnostics_from (seen : list string) (lines : list string) : list Finding :=
  match lines with
  | [] => []
  | line :: lines =>
      match find_submatch goDiagnostic (trim_space line) with
      | None => diagnostics_from seen lines
      | Some m =>
          let f := mk_finding (group 1 m) (atoi (group 2 m)) (atoi (group 3 m)) (group 4 m) "" "" in
          if mem (finding_key f) seen then diagnostics_from seen lines
          else f :: diagnostics_from (finding_key f :: seen) lines
      end
  end.

(** [recipe/summarize.go:86-106 parseGoDiagnostics] *)
Definition parseGoDiagnostics (out : string) : list Finding :=
  diagnostics_from [] (split_char newline out).

Definition count1 (k : string) (n : nat) : gmap string Z := countsOf {[k := Z.of_nat n]}.

(** [recipe/summarize.go:48-64 GoBuild] *)
Definition GoBuild : Summarizer := λ exitCode stdout stderr,
  let findings := parseGoDiagnostics (stdout +:+ nl +:+ stderr) in
  if Z.eqb exitCode 0 then (Pass, headline_only "compiles") else
  match findings with
  | [] => Generic exitCode stdout stderr
  | _ =>
      let '(shown, truncated) := trimFindings (sortFindings findings) in
      (Fail, mk_summary ∅ (pretty (length findings) +:+ " compile error(s), first in " +:+
                match shown with f :: _ => F_File f | [] => "" end)
         shown (count1 "errors" (length findings)) truncated)
  end.

(** [recipe/summarize.go:68-84 GoVet] *)
Definition GoVet : Summarizer := λ exitCode stdout stderr,
  let findings := parseGoDiagnostics (stdout +:+ nl +:+ stderr) in
  if Z.eqb exitCode 0 then (Pass, headline_only "no vet findings") else
  match findings with
  | [] => Generic exitCode stdout stderr
  | _ =>
      let '(shown, truncated) := trimFindings (sortFindings findings) in
      (Fail, mk_summary ∅ (pretty (length findings) +:+ " vet finding(s)")
         shown (count1 "findings" (length findings)) truncated)
  end.

(** The state of the loop over the lines of a test log. *)
Record test_log := mk_log {
  tl_findings : list Finding; tl_current : string;
  tl_failed : nat; tl_ok : nat; tl_failed_pkgs : nat; tl_races : nat }.

(** Change the last element that satisfies [f]. *)
Fixpoint update_last {A} (f : A → bool) (g : A → A) (l : list A) : list A :=
  match l with
  | [] => []
  | x :: l => if existsb f l then x :: update_last f g l else if f x then g x :: l else x :: l
  end.

(** [recipe/summarize.go:149-158 GoTest] a located line completes the finding of the current test. *)
Definition locate (test file : string) (line : Z) (msg : string) (fs : list Finding) : list Finding :=
  update_last (λ f, String.eqb (F_Test f) test && String.eqb (F_File f) "")
    (λ f, mk_finding file line (F_Column f) (if String.eqb msg "" then F_Message f else msg) (F_Test f) (F_Rule f)) fs.

(** [recipe/summarize.go:129-160 GoTest] one line of the log. *)
Definition test_line (s : test_log) (line : string) : test_log :=
  let '(mk_log fs cur failed ok fpkgs races) := s in
  let add m t := fs ++ [mk_finding "" 0 0 m t ""] in
  if match_string raceHeader line then mk_log (add "data race detected" cur) cur failed ok fpkgs (S races) else
  match find_submatch testFailLine line with
  | Some m => mk_log (add "test failed" (group 1 m)) (group 1 m) (S failed) ok fpkgs races
  | None =>
  match find_submatch testPanic line with
  | Some m => mk_log (add ("panic: " +:+ group 1 m) cur) cur failed ok fpkgs races
  | None =>
  if match_string pkgFailLine line then mk_log fs cur failed ok (S fpkgs) races
  else if match_string pkgOKLine line then mk_log fs cur failed (S ok) fpkgs races
  else match find_submatch testLocation line with
  | Some m =>
      if String.eqb cur "" then s
      else mk_log (locate cur (group 1 m) (atoi (group 2 m)) (trim_space (group 3 m)) fs) cur failed ok fpkgs races
  | None => s
  end end end.

Definition read_log (out : string) : test_log :=
  foldl test_line (mk_log [] "" 0 0 0 0) (split_char newline out).

Definition log_counts (l : test_log) : gmap string Z :=
  countsOf {[ "failed_tests" := Z.of_nat (tl_failed l); "failed_packages" := Z.of_nat (tl_failed_pkgs l);
              "passed_packages" := Z.of_nat (tl_ok l); "races" := Z.of_nat (tl_races l) ]}.

(** [recipe/summarize.go:122-188 GoTest] *)
Definition GoTest : Summarizer := λ exitCode stdout stderr,
  let l := read_log (stdout +:+ nl +:+ stderr) in
  let counts := log_counts l in
  if Z.eqb exitCode 0 then
    (Pass, mk_summary ∅ (if tl_ok l =? 0 then "no test packages ran"
                         else pretty (tl_ok l) +:+ " package(s) passed") [] counts false)
  else match tl_findings l with
  | [] => let '(st, s) := Generic exitCode stdout stderr in
          (st, mk_summary (Tests s) (Headline s) (Findings s) counts (S_Truncated s))
  | findings =>
      let '(shown, truncated) := trimFindings (sortFindings findings) in
      let head := pretty (tl_failed l) +:+ " test(s) failed in " +:+ pretty (tl_failed_pkgs l) +:+ " package(s)" in
      let head := if 0 <? tl_races l then pretty (tl_races l) +:+ " data race(s) detected; " +:+ head else head in
      (Fail, mk_summary ∅ head shown counts truncated)
  end.

(** [recipe/summarize.go:192-201 GoRace] *)
Definition GoRace : Summarizer := λ exitCode stdout stderr,
  let '(status, summary) := GoTest exitCode stdout stderr in
  let races := default 0%Z (Counts summary !! "races") in
  if Z.ltb 0 races && bool_decide (status = Pass)
  then (Fail, mk_summary ∅ (pretty races +:+ " data race(s) detected") (Findings summary) (Counts summary) false)
  else (status, summary).

(** [recipe/summarize.go:205-226 Gofmt] *)
Definition Gofmt : Summarizer := λ exitCode stdout stderr,
  let findings := (λ p, mk_finding p 0 0 "not gofmt'd" "" "") <$>
                    filter (λ p, p ≠ "") (trim_space <$> split_char newline stdout) in
  match findings with
  | [] => if Z.eqb exitCode 0 then (Pass, headline_only "formatting is clean")
          else Generic exitCode stdout stderr
  | _ =>
      let '(shown, truncated) := trimFindings (sortFindings findings) in
      (Fail, mk_summary ∅ (pretty (length findings) +:+ " file(s) are not gofmt'd")
         shown (count1 "files" (length findings)) truncated)
  end.

(** [strings.ToLower(strings.ToUpper(s))]: two runes outside ASCII have an ASCII
    upper case, U+0131 and U+017F. *)
Fixpoint fold_case (s : string) : string :=
  match s with
  | EmptyString => EmptyString
  | String c s1 =>
      match s1 with
      | String d s2 =>
          let n := Ascii.nat_of_ascii c in let m := Ascii.nat_of_ascii d in
          if (n =? 196) && (m =? 177) then String (Ascii.ascii_of_nat 105) (fold_case s2)
          else if (n =? 197) && (m =? 191) then String (Ascii.ascii_of_nat 115) (fold_case s2)
          else String (lower_ascii c) (fold_case s1)
      | EmptyString => String (lower_ascii c) EmptyString
      end
  end.

Definition tally (keys : list string) : gmap string Z :=
  foldl (λ m k, <[k := (default 0%Z (m !! k) + 1)%Z]> m) ∅ keys.

(** [recipe/summarize.go:246-263 semgrepOutput] *)
Record semgrepResult := mk_sr { CheckID : string; SR_Path : string; SR_Line : Z; SR_Col : Z;
  SR_Message : string; Severity : string }.
Record semgrepOutput := mk_so { SO_Results : list semgrepResult; SO_Errors : list string }.

(** [recipe/summarize.go:337-351 golangciOutput] *)
Record golangciIssue := mk_gi { FromLinter : string; GI_Text : string; GI_File : string; GI_Line : Z; GI_Column : Z }.
Record golangciOutput := mk_go { Issues : list golangciIssue; Report_Error : string }.

(** [recipe/summarize.go:413-419 genericFindings] *)
Definition genericFindings (stderr : string) : list Finding :=
  (λ l, mk_finding "" 0 0 l "" "") <$> lastLines stderr 3.

Section json.
(** [decodeFirstJSON] of the trimmed output into the two shapes. *)
Context (decode_semgrep : string → option semgrepOutput).
Context (decode_golangci : string → option golangciOutput).

(** [recipe/summarize.go:276-332 Semgrep] *)
Definition Semgrep : Summarizer := λ exitCode stdout stderr,
  match decode_semgrep (trim_space stdout) with
  | None => Generic exitCode stdout stderr
  | Some out =>
      let n := length (SO_Results out) in
      if (n =? 0) && (length (SO_Errors out) =? 0) then (Pass, headline_only "no semgrep findings") else
      let findings := (λ r, let msg := trim_space (SR_Message r) in
        mk_finding (SR_Path r) (SR_Line r) (SR_Col r) (if String.eqb msg "" then CheckID r else msg) "" (CheckID r))
        <$> SO_Results out in
      match SO_Errors out with
      | e :: _ =>
          (Error, mk_summary ∅ ("semgrep could not complete: " +:+ truncateLine (trim_space e) 160) findings
             (countsOf {[ "errors" := Z.of_nat (length (SO_Errors out)); "findings" := Z.of_nat n ]}) false)
      | [] =>
          let '(shown, truncated) := trimFindings (sortFindings findings) in
          let counts := countsOf (tally ((λ r, fold_case (Severity r)) <$> SO_Results out)) in
          if Z.eqb exitCode 0
          then (Pass, mk_summary ∅ (pretty n +:+ " semgrep finding(s), none blocking") shown counts truncated)
          else (Fail, mk_summary ∅ (pretty n +:+ " semgrep finding(s)") shown counts truncated)
      end
  end.

(** [recipe/summarize.go:365-409 GolangciLint] *)
Definition GolangciLint : Summarizer := λ exitCode stdout stderr,
  match decode_golangci (trim_space stdout) with
  | None => Generic exitCode stdout stderr
  | Some out =>
      let e := trim_space (Report_Error out) in
      if negb (String.eqb e "")
      then (Error, headline_only ("golangci-lint could not complete: " +:+ truncateLine e 160)) else
      match Issues out with
      | [] =>
          if Z.eqb exitCode 0 then (Pass, headline_only "no golangci-lint issues")
          else (Error, mk_summary ∅ ("golangci-lint exited " +:+ pretty exitCode +:+ " with no issues reported")
                  (genericFindings stderr) ∅ false)
      | issues =>
          let findings := (λ i, let msg := trim_space (GI_Text i) in
            mk_finding (GI_File i) (GI_Line i) (GI_Column i)
              (if String.eqb msg "" then FromLinter i else msg) "" (FromLinter i)) <$> issues in
          let '(shown, truncated) := trimFindings (sortFindings findings) in
          (Fail, mk_summary ∅ (pretty (length findings) +:+ " golangci-lint issue(s)") shown
             (countsOf (tally (FromLinter <$> issues))) truncated)
      end
  end.

(** ** The JSON test stream *)

Record test_event := mk_event { Action : string; Package : string; E_Test : string; Output : string }.
Context (decode_event : string → option test_event).

(** The lines a [bufio.Scanner] yields, and whether one was too long for its
    buffer; the lines before that one are still read. *)
Definition scan_limit : Z := 8388608.
Fixpoint strip_cr (s : string) : string :=
  match s with
  | EmptyString => EmptyString
  | String c EmptyString => if Ascii.eqb c (Ascii.ascii_of_nat 13) then EmptyString else s
  | String c s => String c (strip_cr s)
  end.
Fixpoint scan_from (lines : list string) : list string * bool :=
  match lines with
  | [] => ([], false)
  | [l] => if String.eqb l "" then ([], false)
           else if Z.ltb (zlen l) scan_limit then ([strip_cr l], false) else ([], true)
  | l :: lines =>
      if Z.ltb (zlen l) scan_limit
      then let '(ls, e) := scan_from lines in (strip_cr l :: ls, e) else ([], true)
  end.

(** [recipe/test_json.go:16-33 GoTestJSON] one line of its loop. *)
Definition json_line (acc : string * gmap string Status) (line : string) : string * gmap string Status :=
  let '(text, tests) := acc in
  match decode_event line with
  | None => (text +:+ line +:+ nl, tests)
  | Some e =>
      let text := text +:+ Output e in
      let key := Package e +:+ "/" +:+ E_Test e in
      if String.eqb (E_Test e) "" then (text, tests)
      else if String.eqb (Action e) "pass" then (text, <[key := Pass]> tests)
      else if String.eqb (Action e) "fail" then (text, <[key := Fail]> tests)
      else if String.eqb (Action e) "skip" then (text, <[key := Skipped]> tests)
      else (text, tests)
  end.

(** [recipe/test_json.go:11-41 GoTestJSON] *)
Definition GoTestJSON : Summarizer := λ exit stdout stderr,
  let '(lines, too_long) := scan_from (split_char newline stdout) in
  let '(text, tests) := foldl json_line ("", ∅) lines in
  let '(status, summary) := GoTest exit text stderr in
  if too_long
  then (Error, mk_summary tests "test JSON exceeded capture limits" (Findings summary) (Counts summary) (S_Truncated summary))
  else (status, mk_summary tests (Headline summary) (Findings summary) (Counts summary) (S_Truncated summary)).

(** [recipe/presets.go:56-69 Preset.Recipe] *)
Definition Preset_Recipe (p : Preset) : Recipe :=
  let summarize : Summarizer :=
    if String.eqb (P_Parser p) "go_build" then GoBuild
    else if String.eqb (P_Parser p) "go_vet" then GoVet
    else if String.eqb (P_Parser p) "go_test_json" then GoTestJSON
    else if String.eqb (P_Parser p) "gofmt" then Gofmt
    else Generic in
  mk_recipe (P_Name p) (P_Kind p) (P_Argv p) (P_Dir p) (TimeoutSeconds p * 1000000000) []
    (Some summarize) None.

(** ** Built-in recipes *)

(** Whether a tool is on the path: [exec.LookPath]. *)
Context (look_path : string → bool).

(** [recipe/builtin.go:239-241 GolangciConfigNames] *)
Definition GolangciConfigNames : list string :=
  [".golangci.yml"; ".golangci.yaml"; ".golangci.toml"; ".golangci.json"].

(** [recipe/builtin.go:252-265 HasGolangciConfig] *)
Definition HasGolangciConfig (f : fs) (worktree : string) : bool :=
  existsb (λ name, match Stat f (path_of (join_path worktree name)) with
                   | Ok NDir | Err _ => false | Ok _ => true end) GolangciConfigNames
  && look_path "golangci-lint".

(** [recipe/builtin.go:268-268 SemgrepRuleDir] *)
Definition SemgrepRuleDir : string := "semgrep".

(** [recipe/builtin.go:277-297 HasSemgrepRules] *)
Definition HasSemgrepRules (f : fs) (worktree : string) : bool :=
  match EvalSymlinks f (path_of (join_path worktree SemgrepRuleDir)) with
  | Ok d =>
      bool_decide (lookup_node f d = Some NDir) &&
      existsb (λ kv, bool_decide (kv.1 ≠ [] ∧ parent kv.1 = d) &&
                     match kv.2 with NDir => false | _ => true end &&
                     match last kv.1 with
                     | Some b => mem (ext b) [".yaml"; ".yml"]
                     | None => false
                     end) (map_to_list f)
      && look_path "semgrep"
  | Err _ => false
  end.

(** [recipe/builtin.go:60-63 GoRecipes] *)
Definition isGo (f : fs) (worktree : string) : bool := is_ok (Stat f (path_of (join_path worktree "go.mod"))).

Definition minutes (n : Z) : Z := n * 60000000000.

(** [recipe/builtin.go:59-127 GoRecipes] *)
Definition GoRecipes (l : Level) : list Recipe :=
  filter (λ r, Includes l (Rec_Kind r) = true)
  [ mk_recipe "go build" KindBuild ["go"; "build"; "./..."] "" (minutes 5) [] (Some GoBuild) (Some isGo);
    mk_recipe "go vet" KindVet ["go"; "vet"; "./..."] "" (minutes 5) [] (Some GoVet) (Some isGo);
    mk_recipe "go test" KindTest ["go"; "test"; "./..."] "" (minutes 15) [] (Some GoTest) (Some isGo);
    mk_recipe "gofmt" KindFormat ["gofmt"; "-l"; "."] "" (minutes 1) [] (Some Gofmt) (Some isGo);
    mk_recipe "go test -race" KindRace ["go"; "test"; "-race"; "./..."] "" (minutes 25) [] (Some GoRace) (Some isGo);
    mk_recipe "golangci-lint" KindLint ["golangci-lint"; "run"; "--output.json.path"; "stdout"; "./..."]
      "" (minutes 10) [] (Some GolangciLint) (Some HasGolangciConfig);
    mk_recipe "semgrep" KindAnalyzer
      ["semgrep"; "--config"; SemgrepRuleDir; "--json"; "--quiet"; "--error"; "--disable-version-check"; "--metrics"; "off"; "."]
      "" (minutes 5) [] (Some Semgrep) (Some HasSemgrepRules) ].
End json.

(** ** A failed command is not a pass *)

(** A verdict against the change: the command found something wrong, or could not
    be read. *)
Definition against (st : Status) : Prop := st = Fail ∨ st = Error.

(** [refuses f]: the summarizer reads every failed command as a fail or an error. *)
Definition refuses (f : Summarizer) : Prop :=
  ∀ code out err, code ≠ 0%Z → against (f code out err).1.
#[local] Hint Extern 0 (against _) => solve [left; reflexivity | right; reflexivity] : core.

Lemma Generic_refuses : refuses Generic.
Proof. intros code out err Hc. unfold Generic. by destruct (Z.eqb_spec code 0). Qed.

Lemma GoBuild_refuses : refuses GoBuild.
Proof.
  intros code out err Hc. unfold GoBuild. destruct (Z.eqb_spec code 0); [done |].
  destruct (parseGoDiagnostics _); [by apply Generic_refuses |]. by destruct (trimFindings _).
Qed.

Lemma GoVet_refuses : refuses GoVet.
Proof.
  intros code out err Hc. unfold GoVet. destruct (Z.eqb_spec code 0); [done |].
  destruct (parseGoDiagnostics _); [by apply Generic_refuses |]. by destruct (trimFindings _).
Qed.

Lemma GoTest_refuses : refuses GoTest.
Proof.
  intros code out err Hc. unfold GoTest. destruct (Z.eqb_spec code 0); [done |].
  destruct (tl_findings _).
  - pose proof (Generic_refuses code out err Hc). by destruct (Generic code out err).
  - by destruct (trimFindings _).
Qed.

Lemma GoRace_refuses : refuses GoRace.
Proof.
  intros code out err Hc. unfold GoRace. pose proof (GoTest_refuses code out err Hc).
  destruct (GoTest code out err) as [st sm]. cbn in *. by destruct (_ && _).
Qed.

Lemma Gofmt_refuses : refuses Gofmt.
Proof.
  intros code out err Hc. unfold Gofmt. destruct (_ <$> _).
  - destruct (Z.eqb_spec code 0); [done |]. by apply Generic_refuses.
  - by destruct (trimFindings _).
Qed.

Lemma GolangciLint_refuses decode : refuses (GolangciLint decode).
Proof.
  intros code out err Hc. unfold GolangciLint. destruct (decode _) as [o|]; [|by apply Generic_refuses].
  destruct (negb _); [done |]. destruct (Issues o).
  - by destruct (Z.eqb_spec code 0).
  - by destruct (trimFindings _).
Qed.

Lemma GoTestJSON_refuses decode : refuses (GoTestJSON decode).
Proof.
  intros code out err Hc. unfold GoTestJSON. destruct (scan_from _) as [ls b].
  destruct (foldl _ _ ls) as [text tests]. pose proof (GoTest_refuses code text err Hc).
  destruct (GoTest code text err). by destruct b.
Qed.

(** C27: No preset the supervisor can freeze, and no built-in Go recipe other
    than semgrep's, ever reads a failed command as a pass: whatever the output,
    a non-zero exit code is summarised as a fail or an error.  For semgrep the
    pass on a non-zero exit happens exactly when its report decodes to neither
    results nor errors; otherwise it is a fail or an error too. *)
Theorem nonzero_exit_never_passes ds dg de (lookp : string → bool) l code out err :
  code ≠ 0%Z →
  (∀ p f, Summarize (Preset_Recipe de p) = Some f → against (f code out err).1) ∧
  (∀ r f, r ∈ GoRecipes ds dg lookp l → Rec_Kind r ≠ KindAnalyzer → Summarize r = Some f →
     against (f code out err).1) ∧
  ((Semgrep ds code out err).1 = Pass ↔
     ∃ o, ds (trim_space out) = Some o ∧ SO_Results o = [] ∧ SO_Errors o = []) ∧
  ((Semgrep ds code out err).1 = Pass ∨ against (Semgrep ds code out err).1).
Proof.
  intros Hc. split_and!.
  - intros p f. unfold Preset_Recipe; cbn. intros [= <-].
    repeat (match goal with |- context [if ?b then _ else _] => destruct b end);
      [by apply GoBuild_refuses | by apply GoVet_refuses | by apply GoTestJSON_refuses
      | by apply Gofmt_refuses | by apply Generic_refuses].
  - intros r f. unfold GoRecipes. rewrite list_elem_of_filter. intros [_ Hr] Hk.
    repeat (apply elem_of_cons in Hr as [->|Hr];
      [cbn in *; try (by destruct Hk); intros [= <-];
         first [by apply GoBuild_refuses | by apply GoVet_refuses | by apply GoTest_refuses
               | by apply Gofmt_refuses | by apply GoRace_refuses | by apply GolangciLint_refuses] |]).
    by apply not_elem_of_nil in Hr.
  - unfold Semgrep. destruct (ds (trim_space out)) as [o|].
    + destruct (SO_Results o) as [|r rs] eqn:Er; destruct (SO_Errors o) as [|e es] eqn:Ee; cbn [length Nat.eqb andb].
      * split; [intros _; by exists o | done].
      * split; [done |]. intros (o' & [= <-] & _ & ?). congruence.
      * destruct (trimFindings _). destruct (Z.eqb_spec code 0); [done |].
        split; [done |]. intros (o' & [= <-] & ? & _). congruence.
      * split; [done |]. intros (o' & [= <-] & ? & _). congruence.
    + split; [|by intros (? & [=] & _)]. destruct (Generic_refuses code out err Hc) as [->| ->]; discriminate.
  - unfold Semgrep. destruct (ds (trim_space out)) as [o|]; [|right; by apply Generic_refuses].
    destruct (_ && _); [by left |]. destruct (SO_Errors o); [|by right].
    destruct (trimFindings _). destruct (Z.eqb_spec code 0); [by left | by right].
Qed.

Lemma nonzero_exit_never_passes_witness :
  (Semgrep (λ _, Some (mk_so [] [])) 7%Z "{}" "").1 = Pass ∧ against (GoBuild 2%Z "" "x").1.
Proof.
  split.
  - apply (nonzero_exit_never_passes (λ _, Some (mk_so [] [])) (λ _, None) (λ _, None) (λ _, true) High 7%Z "{}" ""); [done |].
    by eexists.
  - destruct (nonzero_exit_never_passes (λ _, None) (λ _, None) (λ _, None) (λ _, true) Low 2%Z "" "x" ltac:(done))
      as (Hp & _).
    apply (Hp (mk_preset "b" KindBuild ["go"] "" 1 "go_build")). reflexivity.
Defined.

Example diag_1 : parseGoDiagnostics ("# pkg" +:+ nl +:+ "a/b.go:12:3: undefined: x" +:+ nl +:+ "a/b.go:12:3: undefined: x")
  = [mk_finding "a/b.go" 12 3 "undefined: x" "" ""].
Proof. reflexivity. Qed.
Example test_1 : (GoTest 1%Z ("--- FAIL: TestX (0.00s)" +:+ nl +:+ "    x_test.go:7: boom" +:+ nl +:+ "FAIL	p	0.1s") "").2
  = mk_summary ∅ "1 test(s) failed in 1 package(s)" [mk_finding "x_test.go" 7 0 "boom" "TestX" ""]
      {[ "failed_tests" := 1%Z; "failed_packages" := 1%Z ]} false.
Proof. vm_compute. reflexivity. Qed.
