(* ===== verification/Json.v ===== *)
(** The JSON values the ledger stores and what [encoding/json] reads from them
    into the one-field structs the code declares.  The text of a column is not
    modelled: the column holds the value [json.Marshal] was given. *)
From S2P Require Import Prelude GoStrings.

Open Scope string_scope.
Open Scope list_scope.
Open Scope nat_scope.

Inductive json :=
| JNull
| JBool (b : bool)
| JNum (z : Z)                            (* a whole number below 10^21 *)
| JFrac (whole : Z) (text : string)       (* any other number: its whole part, its text as Go writes it *)
| JStr (s : string)
| JArr (l : list json)
| JObj (l : list (string * json)).

(** Object keys match struct fields without regard to (ASCII) case. *)
Definition key_match (k name : string) : bool := String.eqb (to_lower k) (to_lower name).

(** [json.Unmarshal] into a struct, as far as one of its fields goes: every
    matching member is decoded in turn, a null leaves the field alone, and a
    value of the wrong type is an error. *)
Definition dec_field {A} (dec : json → option A) (zero : A) (name : string) (j : json) : option A :=
  match j with
  | JNull => Some zero
  | JObj l =>
      foldl (λ acc kv,
        a ← acc;
        if key_match kv.1 name then match kv.2 with JNull => Some a | v => dec v end else Some a)
        (Some zero) l
  | _ => None
  end.

Definition dec_string (j : json) : option string := match j with JStr s => Some s | _ => None end.
Definition dec_bool (j : json) : option bool := match j with JBool b => Some b | _ => None end.
(** Into an [int]: a number written with a fraction or an exponent is an error. *)
Definition dec_int (j : json) : option Z := match j with JNum z => Some z | _ => None end.
(** A null element of an array leaves the zero string. *)
Definition dec_strings (j : json) : option (list string) :=
  match j with
  | JArr l => mapM (λ j, match j with JNull => Some "" | _ => dec_string j end) l
  | _ => None
  end.

Definition get_string : string → json → option string := dec_field dec_string "".
Definition get_bool : string → json → option bool := dec_field dec_bool false.
Definition get_int : string → json → option Z := dec_field dec_int 0%Z.
Definition get_strings : string → json → option (list string) := dec_field dec_strings [].

(** ** What [json.Marshal] writes *)

Definition unicode_escape (n : nat) : string :=
  "\u00" +:+ String (hex_digit_of (n / 16)) (String (hex_digit_of (n mod 16)) "").

(** One byte of a string, with the HTML characters escaped. *)
Definition escape_byte (c : Ascii.ascii) : string :=
  match Ascii.nat_of_ascii c with
  | 34 => "\" +:+ dq
  | 92 => "\\"
  | 8 => "\b" | 9 => "\t" | 10 => "\n" | 12 => "\f" | 13 => "\r"
  | 38 | 60 | 62 => unicode_escape (Ascii.nat_of_ascii c)
  | n => if n <? 32 then unicode_escape n else String c ""
  end.

(** A valid UTF-8 string; U+2028 and U+2029 are the bytes 226 128 168 and 169. *)
Fixpoint escape (s : string) : string :=
  match s with
  | EmptyString => EmptyString
  | String c s' =>
      match s' with
      | String d (String e s3) =>
          if (Ascii.nat_of_ascii c =? 226) && (Ascii.nat_of_ascii d =? 128) && (Ascii.nat_of_ascii e / 2 =? 84)
          then (if Ascii.nat_of_ascii e =? 168 then "\u2028" else "\u2029") +:+ escape s3
          else escape_byte c +:+ escape s'
      | _ => escape_byte c +:+ escape s'
      end
  end.
Definition json_string (s : string) : string := dq +:+ escape s +:+ dq.

Definition key_less (a b : string * string) : bool := str_ltb a.1 b.1.
(** The members of a map: the last of equal keys, in the order of the keys. *)
Fixpoint last_wins (l : list (string * string)) : list (string * string) :=
  match l with
  | [] => []
  | kv :: l => if existsb (λ x, String.eqb x.1 kv.1) l then last_wins l else kv :: last_wins l
  end.

(** [json.Marshal] of a value [json.Unmarshal] made. *)
Fixpoint json_text (j : json) : string :=
  match j with
  | JNull => "null"
  | JBool b => if b then "true" else "false"
  | JNum z => pretty z
  | JFrac _ text => text
  | JStr s => json_string s
  | JArr l => "[" +:+ join "," (List.map json_text l) +:+ "]"
  | JObj l =>
      let members := List.map (λ kv, match kv with (k, v) => (k, json_text v) end) l in
      "{" +:+ join "," ((λ kv, json_string kv.1 +:+ ":" +:+ kv.2) <$> stable_sort key_less (last_wins members)) +:+ "}"
  end.

Example text_1 : json_text (JObj [("b", JNum 2); ("a", JStr "x<"); ("b", JArr [JNull; JBool true])]) =
  "{" +:+ dq +:+ "a" +:+ dq +:+ ":" +:+ dq +:+ "x\u003c" +:+ dq +:+ "," +:+ dq +:+ "b" +:+ dq +:+ ":[null,true]}".
Proof. reflexivity. Qed.
Example get_1 : get_string "gate" (JObj [("kind", JStr "apply"); ("Gate", JStr "g1")]) = Some "g1".
Proof. reflexivity. Qed.
Example get_2 : get_string "gate" (JObj [("gate", JNum 1)]) = None.
Proof. reflexivity. Qed.
