(* ===== verification/Declared.v ===== *)
(** What a repository declares to be checked: [src/internal/recipe/declared.go]
    and [declared_run.go].  The declaration, its validation and its recipes; the
    run of a declared step in the worktree; and the theorem that a generate
    check leaves the files it looked at as it found them. *)
From S2P Require Import Prelude GoStrings GoPath Policy Worktree Files Recipe Summarize Json.

Open Scope string_scope.
Open Scope list_scope.
Open Scope nat_scope.

(** ** The declaration *)

(** [recipe/declared.go:61-72 CheckStep] *)
Record CheckStep := mk_check { Ck_Name : string; Ck_Argv : list string; Requires : string; Ck_Minutes : Z }.

(** [recipe/declared.go:75-94 IntegrationStep] *)
Record IntegrationStep := mk_integration {
  In_Name : string; Up : list string; In_Test : list string; Down : list string; In_Ports : list Z; In_Minutes : Z }.

(** [recipe/declared.go:97-108 GenerateStep] *)
Record GenerateStep := mk_generate { Ge_Name : string; Ge_Argv : list string; Outputs : list string; Ge_Minutes : Z }.

(** [recipe/declared.go:42-58 Declared] *)
Record Declared := mk_declared {
  Version : Z; Integration : list IntegrationStep; Generate : list GenerateStep; Check_ : list CheckStep }.

(** [recipe/declared.go:39-39 DeclaredFile] *)
Definition DeclaredFile : string := ".le/verify.yaml".
(** [recipe/declared.go:111-111 ErrNoDeclaredFile] *)
Definition ErrNoDeclaredFile : error := mk_error (Some "recipe.ErrNoDeclaredFile") "recipe: no .le/verify.yaml".
(** [recipe/declared.go:115-115 MaxStepMinutes] *)
Definition MaxStepMinutes : Z := 60.

(** ** Validation *)

(** [recipe/declared.go:209-221 safeRelPath] *)
Definition safeRelPath (p : string) : result unit :=
  if String.eqb p "" then Err (errorf "is empty")
  else if is_abs p then Err (errorf "is absolute; outputs are relative to the worktree root")
  else if String.eqb (clean p) ".." || has_prefix (clean p) "../" then Err (errorf "escapes the worktree")
  else Ok tt.

(** [recipe/declared.go:143-148 Declared.Validate] one list of steps: each has a
    name no earlier step of the list has, and passes its own check. *)
Fixpoint validate_steps {A} (noun : string) (name : A → string) (check : A → result unit) (i : Z) (seen : list string)
    (l : list A) : result unit :=
  match l with
  | [] => Ok tt
  | s :: l =>
      if blank (name s) then Err (errorf (noun +:+ " step " +:+ pretty i +:+ " has no name"))
      else if mem (name s) seen then Err (errorf ("two " +:+ noun +:+ " steps are named " +:+ quoted (name s)))
      else match check s with
      | Err e => Err e
      | Ok _ => validate_steps noun name check (i + 1) (name s :: seen) l
      end
  end.

(** [recipe/declared.go:151-153 Declared.Validate] *)
Definition check_minutes (noun name : string) (minutes : Z) : result unit :=
  guard_err (Z.ltb MaxStepMinutes minutes)
    (errorf (noun +:+ " step " +:+ quoted name +:+ " asks for " +:+ pretty minutes +:+ " minutes; the cap is " +:+ pretty MaxStepMinutes)).

Definition valid_port (p : Z) : bool := Z.ltb 0 p && Z.leb p 65535.

(** [recipe/declared.go:149-159 Declared.Validate] *)
Definition validate_integration (s : IntegrationStep) : result unit :=
  _ ← guard_err (length (In_Test s) =? 0)
        (errorf ("integration step " +:+ quoted (In_Name s) +:+ " has no `test`; a step that checks nothing is a slow no-op"));
  _ ← check_minutes "integration" (In_Name s) (In_Minutes s);
  each (λ p, guard_err (negb (valid_port p))
               (errorf ("integration step " +:+ quoted (In_Name s) +:+ " declares port " +:+ pretty p))) (In_Ports s).

(** [recipe/declared.go:168-172 Declared.Validate] *)
Definition validate_check (s : CheckStep) : result unit :=
  _ ← guard_err (length (Ck_Argv s) =? 0) (errorf ("check step " +:+ quoted (Ck_Name s) +:+ " has no `argv`"));
  check_minutes "check" (Ck_Name s) (Ck_Minutes s).

(** [recipe/declared.go:182-199 Declared.Validate] *)
Definition validate_generate (s : GenerateStep) : result unit :=
  _ ← guard_err (length (Ge_Argv s) =? 0) (errorf ("generate step " +:+ quoted (Ge_Name s) +:+ " has no `argv`"));
  _ ← guard_err (length (Outputs s) =? 0)
        (errorf ("generate step " +:+ quoted (Ge_Name s) +:+ " declares no `outputs`; the check restores them afterwards and cannot guess which they are"));
  _ ← check_minutes "generate" (Ge_Name s) (Ge_Minutes s);
  each (λ o, wrap_r ("generate step " +:+ quoted (Ge_Name s) +:+ " output " +:+ quoted o +:+ ": ") (safeRelPath o)) (Outputs s).

(** [recipe/declared.go:138-202 Declared.Validate] *)
Definition Validate (d : Declared) : result unit :=
  _ ← guard_err (negb (Z.eqb (Version d) 1))
        (errorf ("version is " +:+ pretty (Version d) +:+ "; this build understands version 1"));
  _ ← validate_steps "integration" In_Name validate_integration 1 [] (Integration d);
  _ ← validate_steps "check" Ck_Name validate_check 1 [] (Check_ d);
  validate_steps "generate" Ge_Name validate_generate 1 [] (Generate d).

(** [recipe/declared.go:225-237 Declared.Ports] *)
Definition Ports (d : Declared) : list Z := dedup (List.filter valid_port (Integration d ≫= In_Ports)).

(** [recipe/declared.go:320-328 stepTimeout] in nanoseconds. *)
Definition minute : Z := 60000000000.
Definition stepTimeout (minutes fallback : Z) : Z :=
  if Z.leb minutes 0 then fallback else (Z.min minutes MaxStepMinutes * minute)%Z.

(** ** What a step prints *)

(** [recipe/declared_run.go:32-53 StepResult] *)
Record StepResult := mk_step {
  St_Kind : string; St_Name : string; St_Status : string; St_Headline : string; Changed : list string;
  St_Phase : string; St_ExitCode : Z; St_Output : string; Teardown : string }.

#[export] Instance StepResult_eq_dec : EqDecision StepResult.
Proof. solve_decision. Defined.

(** A member left out when it has the zero value. *)
Definition omit_empty {A} (zero : bool) (name : string) (f : A → json) (a : A) : list (string * json) :=
  if zero then [] else [(name, f a)].

(** [recipe/declared_run.go:456-459 WriteStepResult] the value it encodes. *)
Definition WriteStepResult (r : StepResult) : json :=
  JObj ([("kind", JStr (St_Kind r)); ("name", JStr (St_Name r)); ("status", JStr (St_Status r)); ("headline", JStr (St_Headline r))]
    ++ omit_empty (length (Changed r) =? 0) "changed" (λ l, JArr (JStr <$> l)) (Changed r)
    ++ omit_empty (String.eqb (St_Phase r) "") "phase" JStr (St_Phase r)
    ++ omit_empty (Z.eqb (St_ExitCode r) 0) "exit_code" JNum (St_ExitCode r)
    ++ omit_empty (String.eqb (St_Output r) "") "output" JStr (St_Output r)
    ++ omit_empty (String.eqb (Teardown r) "") "teardown" JStr (Teardown r)).

(** [json.Decoder.Decode] into a [StepResult]. *)
Definition decode_step (j : json) : option StepResult :=
  kind ← get_string "kind" j; name ← get_string "name" j; status ← get_string "status" j;
  headline ← get_string "headline" j; changed ← get_strings "changed" j; phase ← get_string "phase" j;
  code ← get_int "exit_code" j; output ← get_string "output" j; teardown ← get_string "teardown" j;
  Some (mk_step kind name status headline changed phase code output teardown).

Definition message_only (m : string) : Finding := mk_finding "" 0 0 m "" "".

(** [recipe/declared_run.go:427-440 DeclaredSummary] what it lists. *)
Definition step_findings (r : StepResult) : list Finding :=
  (if negb (String.eqb (Teardown r) "") && negb (has_suffix (Teardown r) "ok")
   then [message_only ("teardown: " +:+ Teardown r)] else [])
  ++ ((λ c, mk_finding c 0 0 "not what the generator produces" "" "") <$> Changed r)
  ++ (if String.eqb (St_Output r) "" then [] else (λ l, message_only (truncateLine l 200)) <$> lastLines (St_Output r) 5).
(** [recipe/declared_run.go:421-453 DeclaredSummary] [decode_json] gives the
    first JSON value of a text. *)
Definition DeclaredSummary (decode_json : string → option json) : Summarizer := λ exitCode stdout stderr,
  match decode_json (trim_space stdout) ≫= decode_step with
  | None => Generic exitCode stdout stderr
  | Some r =>
      let '(shown, truncated) := trimFindings (step_findings r) in
      (if String.eqb (St_Status r) "pass" then Pass else if String.eqb (St_Status r) "fail" then Fail else Error,
       mk_summary ∅ (St_Headline r) shown
         (if String.eqb (St_Phase r) "" then ∅ else countsOf {["failed_phase_" +:+ St_Phase r := 1%Z]}) truncated)
  end.

(** ** The recipes of a declaration *)

Section load.
(** [yaml.Unmarshal] into a declaration, and [exec.LookPath]. *)
Context (parse_yaml : string → result Declared) (look_path : string → bool).
Context (decode_json : string → option json).

(** [recipe/declared.go:118-135 LoadDeclared] *)
Definition LoadDeclared (f : fs) (worktree : string) : result Declared :=
  match ReadFile f (path_of (join_path worktree DeclaredFile)) with
  | Err e => if is_not_exist e then Err ErrNoDeclaredFile else Err e
  | Ok body =>
      d ← wrap_r ("recipe: " +:+ DeclaredFile +:+ ": ") (parse_yaml body);
      _ ← wrap_r ("recipe: " +:+ DeclaredFile +:+ ": ") (Validate d);
      Ok d
  end.

(** [recipe/declared.go:241-247 HasDeclaredVerification] *)
Definition HasDeclaredVerification (f : fs) (worktree : string) : bool :=
  match LoadDeclared f worktree with
  | Err _ => false
  | Ok d => (0 <? length (Integration d)) || (0 <? length (Generate d)) || (0 <? length (Check_ d))
  end.

(** [recipe/declared.go:270-276 DeclaredRecipes] a recipe that runs a step. *)
Definition declared_recipe (self prefix : string) (k : Kind) (kind name : string) (timeout : Z)
    (applies : fs → string → bool) : Recipe :=
  mk_recipe (prefix +:+ ": " +:+ name) k [self; "verify-declared"; "--kind"; kind; "--name"; name] "" timeout []
    (Some (DeclaredSummary decode_json)) (Some applies).
(** [recipe/declared.go:268-277 DeclaredRecipes] *)
Definition generate_recipe (self : string) (g : GenerateStep) : Recipe :=
  declared_recipe self "generate" KindGenerate "generate" (Ge_Name g) (stepTimeout (Ge_Minutes g) (10 * minute))
    HasDeclaredVerification.
(** [recipe/declared.go:281-302 DeclaredRecipes] *)
Definition check_recipe (self : string) (c : CheckStep) : Recipe :=
  let need := if String.eqb (Requires c) "" then default "" (head (Ck_Argv c)) else Requires c in
  declared_recipe self "check" KindAnalyzer "check" (Ck_Name c) (stepTimeout (Ck_Minutes c) (10 * minute))
    (λ f wt, HasDeclaredVerification f wt && look_path need).
(** [recipe/declared.go:306-315 DeclaredRecipes] *)
Definition integration_recipe (self : string) (i : IntegrationStep) : Recipe :=
  declared_recipe self "integration" KindIntegration "integration" (In_Name i) (stepTimeout (In_Minutes i) (20 * minute))
    HasDeclaredVerification.

(** [recipe/declared.go:256-318 DeclaredRecipes] *)
Definition DeclaredRecipes (f : fs) (level : Level) (worktree self : string) : list Recipe :=
  match LoadDeclared f worktree with
  | Err _ => []
  | Ok d =>
      (if Includes level KindGenerate then generate_recipe self <$> Generate d else [])
      ++ (if Includes level KindAnalyzer then check_recipe self <$> Check_ d else [])
      ++ (if Includes level KindIntegration then integration_recipe self <$> Integration d else [])
  end.
End load.

(** ** The worktree with its permissions *)

(** The components of a clean absolute path. *)
Definition comps_of (s : string) : apath := List.filter (λ c, negb (String.eqb c "")) (split_char slash s).

(** A file system with the permission bits of its files; one that has none here
    has [0o644]. *)
Record disk := mk_disk { d_fs : fs; d_mode : gmap (list string) Z }.
Definition mode_at (d : disk) (p : apath) : Z := default 420%Z (d_mode d !! p).

(** [os.Remove] *)
Definition remove_place (f : fs) (p : apath) : result apath :=
  q ← lstat_place f p;
  match lookup_node f q with
  | None => Err ENOENT
  | Some NDir =>
      if forallb (λ e, match below q e.1 with Some (_ :: _) => false | _ => true end) (map_to_list f)
      then Ok q else Err (errorf "directory not empty")
  | Some _ => Ok q
  end.
Definition Remove (d : disk) (p : apath) : result unit * disk :=
  match remove_place (d_fs d) p with
  | Err e => (Err e, d)
  | Ok q => (Ok tt, mk_disk (delete q (d_fs d)) (delete q (d_mode d)))
  end.

(** [os.MkdirAll] *)
Definition make_dirs (d : disk) (p : apath) : result unit * disk :=
  let '(r, f) := MkdirAll (d_fs d) p in (r, mk_disk f (d_mode d)).

(** [os.WriteFile] gives its mode, less the umask, to a file it creates. *)
Definition write_file (umask : Z) (d : disk) (p : apath) (body : string) (mode : Z) : result unit * disk :=
  match WriteFile (d_fs d) p body with
  | (Err e, f) => (Err e, mk_disk f (d_mode d))
  | (Ok _, f) =>
      (Ok tt, mk_disk f (match open_place (d_fs d) p with
                         | Ok q => if decide (lookup_node (d_fs d) q = None)
                                   then <[q := Z.land mode (Z.lnot umask)]> (d_mode d) else d_mode d
                         | Err _ => d_mode d
                         end))
  end.

(** [os.Chmod] follows links. *)
Definition chmod (d : disk) (p : apath) (mode : Z) : result unit * disk :=
  match EvalSymlinks (d_fs d) p with
  | Err e => (Err e, d)
  | Ok q => (Ok tt, mk_disk (d_fs d) (<[q := mode]> (d_mode d)))
  end.

(** ** Snapshots *)

(** [snapFile] and [snap] of [recipe/declared_run.go]: the bytes and the mode of
    every file below the outputs, by its path. *)
Notation snapFile := (string * Z)%type.
Notation snap := (gmap string snapFile).

(** [filepath.Rel(worktree, p)] of what stands at [rel] below an output. *)
Definition rel_key (output : string) (rel : apath) : string := join_path (clean output) (join "/" rel).

(** [recipe/declared_run.go:320-341 snapshot] a file the walk comes to; the
    permissions of a link are all set. *)
Definition snap_entry (d : disk) (output : string) (place : apath) (s : snap) (e : apath * node) : result snap :=
  match e.2 with
  | NDir => Ok s
  | NFile body => Ok (<[rel_key output e.1 := (body, mode_at d (place ++ e.1))]> s)
  | NLink _ => body ← ReadFile (d_fs d) (place ++ e.1); Ok (<[rel_key output e.1 := (body, 511%Z)]> s)
  end.

Definition fold_ok {A B} (f : B → A → result B) : list A → B → result B :=
  fix go l b := match l with [] => Ok b | x :: l => b' ← f b x; go l b' end.

(** [recipe/declared_run.go:300-344 snapshot] one output. *)
Definition snapshot_output (d : disk) (worktree : string) (s : snap) (output : string) : result snap :=
  let root := comps_of (join_path worktree (clean output)) in
  match EvalSymlinks (d_fs d) root with
  | Err e => if is_not_exist e then Ok s else Err e
  | Ok q =>
      match lookup_node (d_fs d) q with
      | Some NDir =>
          place ← lstat_place (d_fs d) root;
          match lookup_node (d_fs d) place with
          | Some NDir => fold_ok (snap_entry d output place) (walk_dir (d_fs d) place) s
          | _ => Err EISDIR                    (* the link itself is handed to the walk, and read *)
          end
      | _ => body ← ReadFile (d_fs d) root; Ok (<[clean output := (body, mode_at d q)]> s)
      end
  end.

(** [recipe/declared_run.go:298-347 snapshot] *)
Definition snapshot (d : disk) (worktree : string) (outputs : list string) : result snap :=
  fold_ok (snapshot_output d worktree) outputs ∅.

(** ** Comparing and restoring *)

Section steps.
Context (umask : Z) (sha : string → string).
(** The order in which Go ranges over a map. *)
Context (range : snap → list (string * snapFile)).

(** [recipe/declared_run.go:349-370 diffSnapshots] *)
Definition file_changed (before : snap) (e : string * snapFile) : option string :=
  match before !! e.1 with
  | None => Some (e.1 +:+ " (would be created)")
  | Some a => if negb (String.eqb (sha a.1) (sha e.2.1)) || negb (Z.eqb a.2 e.2.2) then Some e.1 else None
  end.
Definition file_removed (after : snap) (e : string * snapFile) : option string :=
  match after !! e.1 with None => Some (e.1 +:+ " (would be removed)") | Some _ => None end.
(** [recipe/declared_run.go:349-370 diffSnapshots] *)
Definition diffSnapshots (before after : snap) : list string :=
  sort_strings (omap (file_changed before) (range after) ++ omap (file_removed after) (range before)).

(** [recipe/declared_run.go:390-397 restore] what the generator created goes. *)
Definition remove_created (worktree : string) (before : snap) (d : disk) (e : string * snapFile) : result unit * disk :=
  match before !! e.1 with
  | Some _ => (Ok tt, d)
  | None =>
      match Remove d (comps_of (join_path worktree e.1)) with
      | (Err err, d) => if is_not_exist err then (Ok tt, d) else (Err err, d)
      | ok => ok
      end
  end.

(** [filepath.Dir] of a clean path. *)
Definition dir_of (p : string) : apath := parent (comps_of p).

(** [recipe/declared_run.go:398-416 restore] what it changed is put back. *)
Definition put_back (worktree : string) (d : disk) (e : string * snapFile) : result unit * disk :=
  let full := join_path worktree e.1 in
  match make_dirs d (dir_of full) with
  | (Err err, d) => (Err err, d)
  | (Ok _, d) =>
      let mode := if Z.eqb e.2.2 0 then 420%Z else e.2.2 in
      match write_file umask d (comps_of full) e.2.1 mode with
      | (Err err, d) => (Err err, d)
      | (Ok _, d) => chmod d (comps_of full) mode
      end
  end.

(** A loop whose body may fail. *)
Fixpoint each_disk (f : disk → string * snapFile → result unit * disk) (l : list (string * snapFile)) (d : disk)
    : result unit * disk :=
  match l with
  | [] => (Ok tt, d)
  | e :: l => match f d e with (Err err, d) => (Err err, d) | (Ok _, d) => each_disk f l d end
  end.

(** [recipe/declared_run.go:389-418 restore] *)
Definition restore (worktree : string) (before after : snap) (d : disk) : result unit * disk :=
  match each_disk (remove_created worktree before) (range after) d with
  | (Err err, d) => (Err err, d)
  | (Ok _, d) => each_disk (put_back worktree) (range before) d
  end.

(** ** Running a step *)

Context {G : Type}.
Notation W := (disk * G)%type.
(** [exec.CommandContext(ctx, argv...).Run()] in a directory: how it ended and
    what it wrote; [detached] says that the context is not the step's. *)
Context (command : bool → string → list string → W → (run_err * string) * W).

(** [recipe/declared_run.go:86-86 maxStepOutput] *)
Definition maxStepOutput : nat := 4000.

(** [recipe/declared_run.go:88-94 tail] *)
Definition tail (s : string) (n : nat) : string :=
  let s := trim_space s in
  if String.length s <=? n then s else ellipsis +:+ drop_str (String.length s - n) s.

(** [recipe/declared_run.go:97-115 runPhase] *)
Definition runPhase (detached : bool) (worktree : string) (argv : list string) (w : W) : (Z * string * option string) * W :=
  match argv with
  | [] => ((0%Z, "", None), w)
  | _ =>
      let '((e, out), w) := command detached worktree argv w in
      (match e with
       | RunOk => (0%Z, out, None)
       | ExitError c => (c, out, None)
       | _ => ((-1)%Z, out, Some (show_run_err e))
       end, w)
  end.

(** [recipe/declared_run.go:132-150 runCheck] *)
Definition runCheck (worktree : string) (c : CheckStep) (w : W) : StepResult * W :=
  let '((code, out, err), w) := runPhase false worktree (Ck_Argv c) w in
  let name := quoted (Ck_Name c) in
  (match err with
   | Some e => mk_step "analyzer" (Ck_Name c) "error" ("check " +:+ name +:+ " could not run: " +:+ e) [] "check" 0 (tail out maxStepOutput) ""
   | None =>
       if negb (Z.eqb code 0)
       then mk_step "analyzer" (Ck_Name c) "fail" ("check " +:+ name +:+ " reported findings") [] "check" code (tail out maxStepOutput) ""
       else mk_step "analyzer" (Ck_Name c) "pass" ("check " +:+ name +:+ " found nothing") [] "" 0 "" ""
   end, w).

(** [recipe/declared_run.go:194-212 teardown] in a context of its own. *)
Definition teardown (worktree : string) (s : IntegrationStep) (w : W) : string * W :=
  match Down s with
  | [] => ("", w)
  | _ =>
      let '((code, _, err), w) := runPhase true worktree (Down s) w in
      (match err with
       | Some e => "down failed to run: " +:+ e
       | None => if negb (Z.eqb code 0) then "down exited " +:+ pretty code +:+ "; something may still be running" else "down ok"
       end, w)
  end.

(** [recipe/declared_run.go:171-191 runIntegration] the test and its verdict. *)
Definition test_step (worktree : string) (s : IntegrationStep) (w : W) : StepResult * W :=
  let name := quoted (In_Name s) in
  let '((code, out, err), w) := runPhase false worktree (In_Test s) w in
  let '(down, w) := teardown worktree s w in
  (match err with
   | Some e => mk_step "integration" (In_Name s) "error" ("integration " +:+ name +:+ ": the test command could not run: " +:+ e) [] "test" 0 (tail out maxStepOutput) down
   | None =>
       if negb (Z.eqb code 0)
       then mk_step "integration" (In_Name s) "fail" ("integration " +:+ name +:+ " failed against a live runtime") [] "test" code (tail out maxStepOutput) down
       else mk_step "integration" (In_Name s) "pass" ("integration " +:+ name +:+ " passed against a live runtime") [] "" 0 "" down
   end, w).

(** [recipe/declared_run.go:153-192 runIntegration] *)
Definition runIntegration (worktree : string) (s : IntegrationStep) (w : W) : StepResult * W :=
  match Up s with
  | [] => test_step worktree s w
  | _ =>
      let '((code, out, err), w) := runPhase false worktree (Up s) w in
      if negb (bool_decide (err = None)) || negb (Z.eqb code 0) then
        let '(down, w) := teardown worktree s w in
        (mk_step "integration" (In_Name s) "error"
           ("integration " +:+ quoted (In_Name s) +:+ ": `up` failed" +:+ match err with Some e => ": " +:+ e | None => "" end)
           [] "up" code (tail out maxStepOutput) down, w)
      else test_step worktree s w
  end.

(** A restoration whose error nobody looks at; a snapshot that failed is the
    empty one. *)
Definition restore_anyway (worktree : string) (outputs : list string) (before : snap) (d : disk) : disk :=
  let partial := match snapshot d worktree outputs with Ok s => s | Err _ => ∅ end in
  (restore worktree before partial d).2.

(** [recipe/declared_run.go:221-285 runGenerate] *)
Definition runGenerate (worktree : string) (g : GenerateStep) (w : W) : StepResult * W :=
  let step st head changed phase code out := mk_step "generate" (Ge_Name g) st ("generate " +:+ quoted (Ge_Name g) +:+ ": " +:+ head) changed phase code out "" in
  match snapshot w.1 worktree (Outputs g) with
  | Err e => (step "error" ("could not read the declared outputs: " +:+ err_msg e) [] "snapshot" 0%Z "", w)
  | Ok before =>
      let '((code, out, err), w) := runPhase false worktree (Ge_Argv g) w in
      if negb (bool_decide (err = None)) || negb (Z.eqb code 0) then
        (step "error" ("the generator failed to run" +:+ match err with Some e => ": " +:+ e | None => "" end)
           [] "generate" code (tail out maxStepOutput),
         (restore_anyway worktree (Outputs g) before w.1, w.2))
      else
        match snapshot w.1 worktree (Outputs g) with
        | Err e =>
            (step "error" ("could not re-read the outputs: " +:+ err_msg e) [] "compare" 0%Z "",
             (restore_anyway worktree (Outputs g) before w.1, w.2))
        | Ok after =>
            let changed := diffSnapshots before after in
            match restore worktree before after w.1 with
            | (Err e, d) =>
                (step "fail" ("the worktree could NOT be restored and is now in an unknown state: " +:+ err_msg e) [] "restore" 0%Z "",
                 (d, w.2))
            | (Ok _, d) =>
                match changed with
                | [] => (step "pass" "the committed output is current" [] "" 0%Z "", (d, w.2))
                | _ => (step "fail" (pretty (length changed) +:+ " generated file(s) are not what the generator produces")
                          changed "compare" 0%Z "", (d, w.2))
                end
            end
        end
  end.

(** [recipe/declared_run.go:56-84 RunDeclared] *)
Definition RunDeclared (parse_yaml : string → result Declared) (worktree kind name : string) (w : W) : result StepResult * W :=
  match LoadDeclared parse_yaml (d_fs w.1) worktree with
  | Err e => (Err e, w)
  | Ok d =>
      let missing := Err (errorf ("recipe: no " +:+ kind +:+ " step named " +:+ quoted name +:+ " in " +:+ DeclaredFile)) in
      if String.eqb kind "generate" then
        match find (λ g, String.eqb (Ge_Name g) name) (Generate d) with
        | Some g => let '(r, w) := runGenerate worktree g w in (Ok r, w) | None => (missing, w) end
      else if String.eqb kind "integration" then
        match find (λ i, String.eqb (In_Name i) name) (Integration d) with
        | Some i => let '(r, w) := runIntegration worktree i w in (Ok r, w) | None => (missing, w) end
      else if String.eqb kind "check" then
        match find (λ c, String.eqb (Ck_Name c) name) (Check_ d) with
        | Some c => let '(r, w) := runCheck worktree c w in (Ok r, w) | None => (missing, w) end
      else (Err (errorf ("recipe: " +:+ quoted kind +:+ " is not a declared step kind")), w)
  end.

(** [cmd/le/verifydeclared.go:29-56 newVerifyDeclaredCmd] the exit code, and what
    it prints. *)
Definition verify_declared (parse_yaml : string → result Declared) (dir kind name : string) (w : W)
    : (Z * option json) * W :=
  if String.eqb kind "" || String.eqb name "" then ((1%Z, None), w) else
  match RunDeclared parse_yaml dir kind name w with
  | (Err _, w) => ((1%Z, None), w)
  | (Ok r, w) => ((if String.eqb (St_Status r) "pass" then 0%Z else 1%Z, Some (WriteStepResult r)), w)
  end.
End steps.

(** ** What a valid declaration is *)

Lemma validate_steps_ok {A} noun (name : A → string) check l : ∀ i seen,
  validate_steps noun name check i seen l = Ok tt ↔
  Forall (λ s, blank (name s) = false ∧ name s ∉ seen ∧ check s = Ok tt) l ∧ NoDup (name <$> l).
Proof.
  induction l as [|s l IH]; intros i seen; cbn [validate_steps fmap list_fmap]; [split; [split; constructor | done] |].
  rewrite Forall_cons, NoDup_cons.
  destruct (blank (name s)); [naive_solver |]. destruct (mem (name s) seen) eqn:Em; [apply mem_true in Em; naive_solver | apply mem_false in Em].
  destruct (check s) as [[]|] eqn:Ec; [|naive_solver]. rewrite IH, !Forall_forall. split.
  - intros [Hf Hn]. split; [split; [done |] | split; [|done]].
    + intros s' Hs'. destruct (Hf _ Hs') as (? & ? & ?). set_solver.
    + intros (s' & Es & Hs')%list_elem_of_fmap. destruct (Hf _ Hs') as (_ & Hin & _). set_solver.
  - intros [[_ Hf] [Hin Hn]]. split; [|done]. intros s' Hs'. destruct (Hf _ Hs') as (? & ? & ?). split_and!; [done | | done].
    intros [E|?]%elem_of_cons; [|done]. apply Hin. rewrite <- E. by apply list_elem_of_fmap_2.
Qed.

Lemma guard_err_ok b e : guard_err b e = Ok tt ↔ b = false.
Proof. by destruct b. Qed.
Lemma wrap_r_ok {A} p (r : result A) a : wrap_r p r = Ok a ↔ r = Ok a.
Proof. destruct r; cbn; naive_solver. Qed.
Lemma rbind_unit_ok {A} (m : result unit) (k : result A) a : (_ ← m; k) = Ok a ↔ m = Ok tt ∧ k = Ok a.
Proof. destruct m as [[]|]; cbn; naive_solver. Qed.
Lemma length_0 {A} (l : list A) : (length l =? 0) = false ↔ l ≠ [].
Proof. by destruct l. Qed.

Lemma Validate_parts d : Validate d = Ok tt →
  (∀ s, s ∈ Integration d → blank (In_Name s) = false) ∧ (∀ s, s ∈ Check_ d → blank (Ck_Name s) = false) ∧
  (∀ s, s ∈ Generate d → blank (Ge_Name s) = false).
Proof.
  unfold Validate. rewrite !rbind_unit_ok, !validate_steps_ok, !Forall_forall. intros (_ & (Hi & _) & (Hc & _) & Hg & _).
  split_and!; intros s Hs; [by apply Hi | by apply Hc | by apply Hg].
Qed.

(** A declaration is accepted exactly when it is of version 1 and every step can
    be run and bounded: it has a name of its own among the steps of its kind, a
    command (a test, for an integration step), at most an hour; an integration
    step declares only ports there are; and a generate step declares outputs,
    each a relative path that stays below the worktree. *)
Theorem Validate_exact d : Validate d = Ok tt ↔
  Version d = 1%Z ∧
  (Forall (λ s, blank (In_Name s) = false ∧ In_Test s ≠ [] ∧ (In_Minutes s ≤ MaxStepMinutes)%Z ∧
                Forall (λ p, 0 < p ≤ 65535)%Z (In_Ports s)) (Integration d) ∧ NoDup (In_Name <$> Integration d)) ∧
  (Forall (λ s, blank (Ck_Name s) = false ∧ Ck_Argv s ≠ [] ∧ (Ck_Minutes s ≤ MaxStepMinutes)%Z) (Check_ d) ∧ NoDup (Ck_Name <$> Check_ d)) ∧
  (Forall (λ s, blank (Ge_Name s) = false ∧ Ge_Argv s ≠ [] ∧ Outputs s ≠ [] ∧ (Ge_Minutes s ≤ MaxStepMinutes)%Z ∧
                Forall (λ o, safeRelPath o = Ok tt) (Outputs s)) (Generate d) ∧ NoDup (Ge_Name <$> Generate d)).
Proof.
  unfold Validate. rewrite !rbind_unit_ok, guard_err_ok, negb_false_iff, Z.eqb_eq, !validate_steps_ok.
  assert (HF : ∀ A (P Q : A → Prop) l, (∀ x, P x ↔ Q x) → Forall P l ↔ Forall Q l).
  { intros A P Q l H. rewrite !Forall_forall. setoid_rewrite H. done. }
  assert (Hmin : ∀ noun n m, check_minutes noun n m = Ok tt ↔ (m ≤ MaxStepMinutes)%Z).
  { intros. unfold check_minutes. by rewrite guard_err_ok, Z.ltb_ge. }
  rewrite (HF _ _ (λ s, blank (In_Name s) = false ∧ In_Test s ≠ [] ∧ (In_Minutes s ≤ MaxStepMinutes)%Z ∧ Forall (λ p, 0 < p ≤ 65535)%Z (In_Ports s)) (Integration d)),
    (HF _ _ (λ s, blank (Ck_Name s) = false ∧ Ck_Argv s ≠ [] ∧ (Ck_Minutes s ≤ MaxStepMinutes)%Z) (Check_ d)),
    (HF _ _ (λ s, blank (Ge_Name s) = false ∧ Ge_Argv s ≠ [] ∧ Outputs s ≠ [] ∧ (Ge_Minutes s ≤ MaxStepMinutes)%Z ∧ Forall (λ o, safeRelPath o = Ok tt) (Outputs s)) (Generate d)); [done |..].
  - intros s. unfold validate_generate. rewrite !rbind_unit_ok, !guard_err_ok, !length_0, Hmin, each_ok, Forall_forall. setoid_rewrite wrap_r_ok. set_solver.
  - intros s. unfold validate_check. rewrite rbind_unit_ok, guard_err_ok, length_0, Hmin. set_solver.
  - intros s. unfold validate_integration. rewrite !rbind_unit_ok, guard_err_ok, length_0, Hmin, each_ok, Forall_forall.
    setoid_rewrite guard_err_ok. setoid_rewrite negb_false_iff. unfold valid_port. setoid_rewrite andb_true_iff. setoid_rewrite Z.ltb_lt. setoid_rewrite Z.leb_le. set_solver.
Qed.

(** ** What a step prints is what is read *)

Lemma mapM_step_strings l : mapM (λ j, match j with JNull => Some "" | _ => dec_string j end) (JStr <$> l) = Some l.
Proof. induction l as [|s l IH]; [done |]. cbn. cbn in IH. by rewrite IH. Qed.

(** One member more in what is decoded. *)
Definition take_member {A} (dec : json → option A) (name : string) (acc : option A) (kv : string * json) : option A :=
  a ← acc; if key_match kv.1 name then match kv.2 with JNull => Some a | v => dec v end else Some a.

Lemma dec_members {A} (dec : json → option A) zero name l :
  dec_field dec zero name (JObj l) = foldl (take_member dec name) (Some zero) l.
Proof. reflexivity. Qed.

Lemma take_omitted {A B} (dec : json → option B) name k zero (f : A → json) a acc :
  foldl (take_member dec name) acc (omit_empty zero k f a) =
  if negb zero && key_match k name then v ← acc; match f a with JNull => Some v | j => dec j end else acc.
Proof.
  destruct zero; [done |]. cbn. unfold take_member. cbn [fst snd]. destruct acc as [v|]; cbn; [done |]. by destruct (key_match k name).
Qed.

Ltac decide_keys := repeat match goal with |- context [key_match ?a ?b] =>
  let v := eval vm_compute in (key_match a b) in change (key_match a b) with v end.

Lemma decode_written r : decode_step (WriteStepResult r) = Some r.
Proof.
  destruct r as [kind name status headline changed phase code output teardown].
  unfold WriteStepResult. cbn [St_Kind St_Name St_Status St_Headline Changed St_Phase St_ExitCode St_Output Teardown].
  unfold decode_step, get_string, get_strings, get_int. rewrite !dec_members, !foldl_app, !take_omitted.
  unfold take_member. cbn [foldl fst snd]. decide_keys. rewrite ?andb_false_r, ?andb_true_r. cbn [mbind option_bind].
  destruct changed as [|c changed]; cbn [length Nat.eqb negb dec_string dec_strings]; rewrite ?mapM_step_strings;
    destruct (String.eqb_spec phase ""), (Z.eqb_spec code 0), (String.eqb_spec output ""), (String.eqb_spec teardown ""); subst; reflexivity.
Qed.

(** ** Every recipe runs a step *)

Section recipes.
Context (umask : Z) (sha : string → string) (range : snap → list (string * snapFile)).
Context {G : Type} (command : bool → string → list string → disk * G → (run_err * string) * (disk * G)).
Context (parse_yaml : string → result Declared) (look_path : string → bool) (decode_json : string → option json).

(** The teardown is the last thing an integration step does, whatever came
    before it and however it ended. *)
Lemma runIntegration_ends wt s w : ∃ w', (runIntegration command wt s w).2 = (teardown command wt s w').2 ∧
  Teardown (runIntegration command wt s w).1 = (teardown command wt s w').1.
Proof.
  assert (Ht : ∀ w, ∃ w', (test_step command wt s w).2 = (teardown command wt s w').2 ∧ Teardown (test_step command wt s w).1 = (teardown command wt s w').1).
  { intros w0. unfold test_step. destruct (runPhase _ _ _ _ w0) as [[[code out] err] w1]. exists w1.
    destruct (teardown _ _ _ _) as [down w2]. by destruct err; [|destruct (negb _)]. }
  unfold runIntegration. destruct (Up s) as [|u up]; [apply Ht |].
  destruct (runPhase _ _ _ _ w) as [[[code out] err] w1]. destruct (_ || _); [|apply Ht].
  exists w1. by destruct (teardown _ _ _ _) as [down w2].
Qed.

(** What is brought up is torn down, and the verdict is the test's.  The last
    command an integration step runs is its [down], in a context of its own,
    whether [up] failed, the test failed, or nothing did.  The step passes
    exactly when [up] (if it has one) and the test exit with zero, fails exactly
    when the test, with everything up, exits with another code, and is an error
    of the check otherwise; how the teardown ended changes none of these. *)
Theorem runIntegration_exact wt s w :
  let '(res, w') := runIntegration command wt s w in
  (∀ d args, Down s = d :: args → ∃ w1, w' = (command true wt (Down s) w1).2 ∧ Teardown res ≠ "") ∧
  let up := runPhase command false wt (Up s) w in
  let test := runPhase command false wt (In_Test s) up.2 in
  let is_up := up.1.1.1 = 0%Z ∧ up.1.2 = None in
  (St_Status res = "pass" ↔ is_up ∧ test.1.1.1 = 0%Z ∧ test.1.2 = None) ∧
  (St_Status res = "fail" ↔ is_up ∧ test.1.1.1 ≠ 0%Z ∧ test.1.2 = None) ∧
  (St_Status res = "error" ↔ ¬ is_up ∨ is_up ∧ test.1.2 ≠ None).
Proof.
  pose proof (runIntegration_ends wt s w) as (w1 & Hw & Ht). destruct (runIntegration command wt s w) as [res w'] eqn:E. cbn in Hw, Ht. split.
  { intros d args Hd. exists w1. rewrite Hw, Ht. unfold teardown, runPhase. rewrite Hd. destruct (command _ _ _ _) as [[e out] w2].
    destruct e; cbn; (split; [done |]); [done | by destruct (negb _) | done..]. }
  clear Hw Ht w1. revert E. unfold runIntegration, test_step.
  destruct (Up s) as [|u up].
  - change (runPhase command false wt [] w) with ((0%Z, "", None : option string), w). destruct (runPhase command _ _ (In_Test s) w) as [[[code out] err] w1] eqn:ET. destruct (teardown command _ _ _) as [down w2].
    intros [= <- <-]. cbn. rewrite ET. cbn. destruct err as [e|]; [cbn; naive_solver |].
    destruct (Z.eqb_spec code 0); cbn; naive_solver.
  - destruct (runPhase command _ _ (u :: up) w) as [[[code out] err] w1] eqn:EU. cbn. destruct err as [e|]; cbn.
    { destruct (teardown command _ _ _) as [down w2]. intros [= <- <-]. cbn. naive_solver. }
    destruct (Z.eqb_spec code 0) as [->|Hc]; cbn.
    2:{ destruct (teardown command _ _ _) as [down w2]. intros [= <- <-]. cbn. naive_solver. }
    destruct (runPhase command _ _ (In_Test s) w1) as [[[code' out'] err'] w3] eqn:ET. destruct (teardown command _ _ _) as [down w2].
    intros [= <- <-]. cbn. destruct err' as [e|]; [cbn; naive_solver |]. destruct (Z.eqb_spec code' 0); cbn; naive_solver.
Qed.

(** The status [DeclaredSummary] makes of a step's. *)
Definition status_of (s : string) : Status :=
  if String.eqb s "pass" then Pass else if String.eqb s "fail" then Fail else Error.

Lemma find_named {A} (name : A → string) l x : x ∈ l → ∃ y, find (λ y, String.eqb (name y) (name x)) l = Some y ∧ name y = name x.
Proof.
  induction l as [|z l IH]; [set_solver |]. intros Hx. cbn. destruct (String.eqb_spec (name z) (name x)) as [E|Hne]; [by exists z |].
  apply elem_of_cons in Hx as [->|Hx]; [done | by apply IH].
Qed.

Lemma run_names wt w :
  (∀ g, St_Name (runGenerate umask sha range command wt g w).1 = Ge_Name g) ∧
  (∀ i, St_Name (runIntegration command wt i w).1 = In_Name i) ∧ (∀ c, St_Name (runCheck command wt c w).1 = Ck_Name c).
Proof.
  split_and!.
  - intros g. unfold runGenerate. destruct (snapshot _ _ _); [|done]. destruct (runPhase _ _ _ _ _) as [[[? ?] ?] ?].
    destruct (_ || _); [done |]. destruct (snapshot _ _ _); [|done]. destruct (restore _ _ _ _ _ _) as [[] ?]; [|done]. by destruct (diffSnapshots _ _ _ _).
  - intros i. assert (Ht : ∀ w, St_Name (test_step command wt i w).1 = In_Name i).
    { intros w0. unfold test_step. destruct (runPhase _ _ _ _ _) as [[[? ?] []] ?], (teardown _ _ _ _); [done |]. by destruct (negb _). }
    unfold runIntegration. destruct (Up i); [apply Ht |]. destruct (runPhase _ _ _ _ _) as [[[? ?] ?] ?].
    destruct (_ || _); [by destruct (teardown _ _ _ _) | apply Ht].
  - intros c. unfold runCheck. destruct (runPhase _ _ _ _ _) as [[[? ?] []] ?]; [done |]. by destruct (negb _).
Qed.

Lemma stepTimeout_bounds m fallback : (0 < fallback ≤ 60 * minute → 0 < stepTimeout m fallback ≤ 60 * minute)%Z.
Proof. unfold stepTimeout, MaxStepMinutes, minute. destruct (Z.leb_spec m 0); lia. Qed.

(** Every recipe made from a declaration runs a step that is there, in bounded
    time, and gets its verdict.  In the worktree the declaration was read from,
    the recipe's command finds the step it names and prints a result for it; it
    exits with zero exactly when the step passed; its timeout is positive and at
    most an hour; and what the recipe's summarizer concludes from the printed
    JSON is the step's own status. *)
Theorem declared_recipes_run f level wt self rec (w : disk * G) :
  rec ∈ DeclaredRecipes parse_yaml look_path decode_json f level wt self → d_fs w.1 = f →
  ∃ kind name r w' code, Argv rec = [self; "verify-declared"; "--kind"; kind; "--name"; name] ∧
    verify_declared umask sha range command parse_yaml wt kind name w = ((code, Some (WriteStepResult r)), w') ∧
    St_Name r = name ∧ (code = 0%Z ↔ St_Status r = "pass") ∧ (0 < Timeout rec ≤ 60 * minute)%Z ∧
    ∃ summarize, Summarize rec = Some summarize ∧
      ∀ stdout stderr, decode_json (trim_space stdout) = Some (WriteStepResult r) →
        (summarize code stdout stderr).1 = status_of (St_Status r).
Proof.
  unfold DeclaredRecipes. destruct (LoadDeclared parse_yaml f wt) as [d|] eqn:EL; [|set_solver]. intros Hrec Hf.
  assert (Hv : Validate d = Ok tt).
  { unfold LoadDeclared in EL. destruct (ReadFile _ _) as [body|e]; [|by destruct (is_not_exist e)].
    apply rbind_ok in EL as (d' & _ & [Hv [= ->]]%rbind_unit_ok). by apply wrap_r_ok in Hv. }
  apply Validate_parts in Hv as (Hi & Hc & Hg).
  assert (Hsum : ∀ r code, ∃ summarize, Some (DeclaredSummary decode_json) = Some summarize ∧ ∀ stdout stderr,
    decode_json (trim_space stdout) = Some (WriteStepResult r) → (summarize code stdout stderr).1 = status_of (St_Status r)).
  { intros r code. eexists. split; [done |]. intros stdout stderr E. unfold DeclaredSummary. rewrite E. cbn [mbind option_bind].
    rewrite decode_written. unfold status_of. by destruct (trimFindings _). }
  assert (Hrun : ∀ kind name res w' (t : Z) applies prefix kd, String.eqb kind "" = false → blank name = false →
    RunDeclared umask sha range command parse_yaml wt kind name w = (Ok res, w') → St_Name res = name → (0 < t ≤ 60 * minute)%Z →
    rec = declared_recipe decode_json self prefix kd kind name t applies →
    ∃ kind name r w' code, Argv rec = [self; "verify-declared"; "--kind"; kind; "--name"; name] ∧
    verify_declared umask sha range command parse_yaml wt kind name w = ((code, Some (WriteStepResult r)), w') ∧
    St_Name r = name ∧ (code = 0%Z ↔ St_Status r = "pass") ∧ (0 < Timeout rec ≤ 60 * minute)%Z ∧
    ∃ summarize, Summarize rec = Some summarize ∧ ∀ stdout stderr, decode_json (trim_space stdout) = Some (WriteStepResult r) →
      (summarize code stdout stderr).1 = status_of (St_Status r)).
  { intros kind name res w' t applies prefix kd Hk Hb HR Hn Ht ->. exists kind, name, res, w', (if String.eqb (St_Status res) "pass" then 0%Z else 1%Z).
    split; [done |]. unfold verify_declared. rewrite Hk, HR. destruct (String.eqb_spec name "") as [->|_]; [done |]. cbn [orb].
    split_and!; [done | done | | apply Ht | apply Ht | apply Hsum]. destruct (String.eqb_spec (St_Status res) "pass"); naive_solver. }
  assert (HR : ∀ kind name, RunDeclared umask sha range command parse_yaml wt kind name w = RunDeclared umask sha range command parse_yaml wt kind name w) by done.
  destruct (run_names wt w) as (Ng & Ni & Nc).
  rewrite !elem_of_app in Hrec. destruct Hrec as [Hrec|[Hrec|Hrec]].
  - destruct (Includes _ _); [|set_solver]. apply list_elem_of_fmap in Hrec as (g & -> & Hin). destruct (find_named Ge_Name _ _ Hin) as (g' & Ef & En).
    eapply (Hrun "generate" (Ge_Name g) _ _ (stepTimeout (Ge_Minutes g) (10 * minute)) _ "generate" KindGenerate); [done | by apply (Hg g) | | | apply stepTimeout_bounds; unfold minute; lia | done].
    + unfold RunDeclared. rewrite Hf, EL, Ef. cbn. rewrite (surjective_pairing (runGenerate _ _ _ _ _ _ _)). done.
    + by rewrite Ng.
  - destruct (Includes _ _); [|set_solver]. apply list_elem_of_fmap in Hrec as (c & -> & Hin). destruct (find_named Ck_Name _ _ Hin) as (c' & Ef & En).
    eapply (Hrun "check" (Ck_Name c) _ _ (stepTimeout (Ck_Minutes c) (10 * minute)) _ "check" KindAnalyzer); [done | by apply (Hc c) | | | apply stepTimeout_bounds; unfold minute; lia | done].
    + unfold RunDeclared. rewrite Hf, EL, Ef. cbn. rewrite (surjective_pairing (runCheck _ _ _ _)). done.
    + by rewrite Nc.
  - destruct (Includes _ _); [|set_solver]. apply list_elem_of_fmap in Hrec as (i & -> & Hin). destruct (find_named In_Name _ _ Hin) as (i' & Ef & En).
    eapply (Hrun "integration" (In_Name i) _ _ (stepTimeout (In_Minutes i) (20 * minute)) _ "integration" KindIntegration); [done | by apply (Hi i) | | | apply stepTimeout_bounds; unfold minute; lia | done].
    + unfold RunDeclared. rewrite Hf, EL, Ef. cbn. rewrite (surjective_pairing (runIntegration _ _ _ _)). done.
    + by rewrite Ni.
Qed.
End recipes.

(** ** What a generate check does to the worktree *)

Lemma filter_plain p : Forall plain p → List.filter (λ c, negb (String.eqb c "")) p = p.
Proof.
  induction 1 as [|b l (_ & Hb & _) _ IH]; [done |]. cbn [List.filter].
  apply String.eqb_neq in Hb. rewrite Hb, IH. done.
Qed.

Lemma comps_of_show p : Forall plain p → comps_of (show_path p) = p.
Proof.
  intros Hp. destruct p as [|c p]; [done |]. unfold comps_of. rewrite split_show by done.
  by apply (filter_plain (c :: p)).
Qed.

Lemma slash_free_plain l : Forall plain l → Forall slash_free l.
Proof. intros H. eapply Forall_impl; [exact H |]. by intros ? [? _]. Qed.

Lemma join_path_below root q : root ≠ [] → Forall plain root → Forall plain q →
  join_path (show_path root) (join "/" q) = show_path (root ++ q).
Proof.
  intros Hne Hr Hq. unfold join_path.
  assert (Hclean : ∀ l, Forall plain (l : list string) → l ≠ [] → ∀ s, split_char slash s = "" :: l → is_abs s = true → clean s = show_path l).
  { intros l Hl Hln s Hs Ha. unfold clean. rewrite Ha, Hs. cbn [clean_comps]. cbn [String.eqb orb]. by rewrite clean_comps_id. }
  destruct (String.eqb_spec (join "/" q) "") as [E|E].
  - assert (q = []) as ->.
    { destruct q as [|c q]; [done |]. apply Forall_cons in Hq as [(_ & ? & _) _].
      destruct q; cbn in E; [done |]. by destruct c. }
    rewrite app_nil_r. apply Hclean; [done..| by apply split_show | apply has_prefix_app].
  - assert (q ≠ []) by (by intros ->). apply Hclean; [by apply Forall_app | by destruct root | |].
    + rewrite split_char_app_slash, split_show by done. rewrite split_char_join by (done || by apply slash_free_plain). done.
    + unfold show_path, render_path, is_abs. rewrite !app_str_assoc. apply has_prefix_app.
Qed.

Lemma clean_comps_dot rooted stack l : clean_comps rooted stack (l ++ ["."]) = clean_comps rooted stack l.
Proof.
  revert stack. induction l as [|c l IH]; intros stack; cbn [app clean_comps]; [done |].
  destruct (_ || _); [done |]. destruct (String.eqb c ".."); [|done].
  destruct stack as [|top stack]; [by destruct rooted |]. by destruct (String.eqb top "..").
Qed.

(** The components an output names below the worktree. *)
Definition out_comps (o : string) : apath := clean_comps false [] (split_char slash o).

Lemma clean_comps_named rooted l : ∀ stack, Forall (λ c, c ≠ "" ∧ c ≠ ".") stack →
  Forall (λ c, c ≠ "" ∧ c ≠ ".") (clean_comps rooted stack l).
Proof.
  induction l as [|c l IH]; intros stack Hs; cbn [clean_comps]; [by apply Forall_rev |].
  destruct (String.eqb_spec c ""), (String.eqb_spec c "."); cbn [orb]; try by apply IH.
  destruct (String.eqb_spec c ".."); [|apply IH; by constructor].
  destruct stack as [|top stack]; [destruct rooted; apply IH; [constructor | by apply Forall_singleton] |].
  inversion Hs; subst. destruct (String.eqb top ".."); apply IH; [by apply Forall_cons | done].
Qed.

Lemma render_path_plain q : Forall plain q →
  split_char slash (render_path false q) = (if decide (q = []) then ["."] else q) ∧
  ∀ t, is_abs (render_path false q +:+ t) = false.
Proof.
  intros Hq. destruct q as [|c q]; [done |]. cbn [render_path]. split; [by apply split_char_join, slash_free_plain | intros t].
  apply Forall_cons in Hq as [(Hc & Hne & _) _]. destruct c as [|a c]; [done |].
  assert (Ascii.eqb slash a = false) as Ha.
  { destruct (Ascii.eqb_spec slash a) as [<-|Hn]; [|done]. exfalso. apply Hc. cbn. set_solver. }
  unfold is_abs. destruct q; (refine (eq_trans (y := Ascii.eqb slash a && has_prefix _ "") _ _); [reflexivity | by rewrite Ha]).
Qed.

Lemma safe_comps o : safeRelPath o = Ok tt → Forall plain (out_comps o) ∧ clean o = render_path false (out_comps o).
Proof.
  unfold safeRelPath. destruct (String.eqb o ""); [done |]. destruct (is_abs o) eqn:Ea; [done |].
  destruct (_ || _) eqn:E; [done |]. intros _. apply orb_false_iff in E as [E1%String.eqb_neq E2].
  assert (Hc : clean o = render_path false (out_comps o)) by (unfold clean; by rewrite Ea).
  split; [|done]. rewrite Hc in E1, E2.
  assert (Hsl : Forall slash_free (out_comps o)) by (apply clean_comps_slash_free; [constructor | apply split_char_slash_free]).
  assert (Hn : Forall (λ c, c ≠ "" ∧ c ≠ ".") (out_comps o)) by (apply clean_comps_named; constructor).
  destruct (clean_comps_dots_first (split_char slash o) 0 [] (not_elem_of_nil _)) as (n & r & Er & Hr).
  cbn [app replicate] in Er. fold (out_comps o) in Er. rewrite Er in *. destruct n as [|n].
  - cbn [replicate app] in *. apply Forall_forall. intros c Hin. rewrite !Forall_forall in *.
    split_and!; [by apply Hsl | by apply Hn..|]. by intros ->.
  - exfalso. cbn [replicate app render_path] in E1, E2. destruct (replicate n ".." ++ r) as [|y l] eqn:El; [done |].
    change (join "/" (".." :: y :: l)) with ("../" +:+ join "/" (y :: l)) in E2. by rewrite has_prefix_app in E2.
Qed.

Lemma clean_comps_rel_id stack l : Forall plain l → clean_comps false stack l = rev stack ++ l.
Proof.
  revert stack. induction l as [|c l IH]; intros stack Hl; cbn [clean_comps]; [by rewrite app_nil_r |].
  apply Forall_cons in Hl as [(_ & H1 & H2 & H3) Hl]. apply String.eqb_neq in H1, H2, H3. rewrite H1, H2, H3. cbn [orb].
  rewrite IH by done. cbn. by rewrite <- app_assoc.
Qed.

(** The key of a path below the worktree. *)
Definition key (q : apath) : string := join "/" q.

Lemma key_inj q q' : q ≠ [] → q' ≠ [] → Forall plain q → Forall plain q' → key q = key q' → q = q'.
Proof.
  intros Hne Hne' Hq Hq' E. unfold key in E. rewrite <- (split_char_join q), <- (split_char_join q') by (done || by apply slash_free_plain).
  by rewrite E.
Qed.

Lemma rel_key_eq o rel : safeRelPath o = Ok tt → rel ≠ [] → Forall plain rel → rel_key o rel = key (out_comps o ++ rel).
Proof.
  intros [Hq Hc]%safe_comps Hne Hr. unfold rel_key, join_path. rewrite Hc.
  destruct (String.eqb_spec (join "/" rel) "") as [E|_].
  { destruct rel as [|c rel]; [done |]. apply Forall_cons in Hr as [(_ & ? & _) _]. destruct rel; cbn in E; [done |]. by destruct c. }
  destruct (render_path_plain (out_comps o) Hq) as [Hs Ha].
  unfold clean. rewrite Ha, split_char_app_slash, Hs, split_char_join by (done || by apply slash_free_plain).
  assert (clean_comps false [] ((if decide (out_comps o = []) then ["."] else out_comps o) ++ rel) = out_comps o ++ rel) as ->.
  { destruct (decide _) as [E|];
      [rewrite E; change (clean_comps false [] (["."] ++ rel)) with (clean_comps false [] rel); by rewrite clean_comps_rel_id |]. rewrite clean_comps_rel_id; [done | by apply Forall_app]. }
  unfold render_path, key. by destruct (out_comps o); [destruct rel |].
Qed.

(** *** A worktree without symbolic links *)

(** A real tree: its directory is at [root], what stands in a directory has it,
    names are names, and below [root] there is no link. *)
Record shape (root : apath) (f : fs) : Prop := {
  shape_formed : well_formed f;
  shape_root : real_dir f root;
  shape_names : ∀ p, f !! p ≠ None → Forall plain p;
  shape_links : ∀ q t, lookup_node f (root ++ q) ≠ Some (NLink t) }.

(** The regular file at a path, with its permissions. *)
Definition fileat (d : disk) (p : apath) : option snapFile :=
  match lookup_node (d_fs d) p with Some (NFile b) => Some (b, mode_at d p) | _ => None end.

Lemma walk_past_file f links stack todo b more body : Forall plain todo →
  (∀ q c r, todo = q ++ c :: r → lookup_node f (rev stack ++ q) = Some NDir) → todo ≠ [] →
  lookup_node f (rev stack ++ todo) = Some (NFile body) → walk false f links stack (todo ++ b :: more) = Err ENOTDIR.
Proof.
  revert stack. induction todo as [|x rest IH]; intros stack Hp Hd Hne Hf; [done |]. rewrite walk_eq. cbn [app].
  apply Forall_cons in Hp as [(_ & H1 & H2 & H3) Hp]. apply String.eqb_neq in H1, H2, H3. rewrite H1, H2, H3. cbn [orb].
  destruct rest as [|y rest]; [cbn in *; by rewrite Hf |].
  change (rev (x :: stack)) with (rev stack ++ [x]). rewrite (Hd [x] y rest eq_refl). apply IH; [done | | done |].
  - intros q c r Hq. cbn. rewrite <- app_assoc. apply (Hd (x :: q) c r). by rewrite Hq.
  - cbn. by rewrite <- app_assoc.
Qed.

Section shape.
Context (root : apath).

Lemma shape_settled f q n : shape root f → lookup_node f (root ++ q) = Some n → settled f (root ++ q).
Proof.
  intros [Hw Hr Hn Hl] Hq. induction q as [|b q IH] using rev_ind in n, Hq |- *; [rewrite app_nil_r; apply Hr |].
  rewrite app_assoc in Hq |- *.
  assert (Hb : (root ++ q) ++ [b] ≠ []) by (by destruct (root ++ q)). rewrite lookup_node_ne in Hq by done.
  assert (Hd : lookup_node f (root ++ q) = Some NDir) by (apply (Hw _ b); congruence).
  apply settled_child; [split; [by eapply IH | done] | |].
  - assert (Hp : Forall plain ((root ++ q) ++ [b])) by (apply Hn; congruence). apply Forall_app in Hp as [_ Hp]. by inversion Hp.
  - intros t. rewrite <- app_assoc. apply Hl.
Qed.

Lemma shape_resolves f q n : shape root f → lookup_node f (root ++ q) = Some n → EvalSymlinks f (root ++ q) = Ok (root ++ q).
Proof. intros Hs Hq. apply EvalSymlinks_id; [by eapply shape_settled | congruence]. Qed.

Lemma shape_resolved f q p : shape root f → Forall plain q → EvalSymlinks f (root ++ q) = Ok p →
  p = root ++ q ∧ lookup_node f (root ++ q) ≠ None.
Proof.
  intros Hs Hq HE.
  assert (Hdec : lookup_node f (root ++ q) ≠ None).
  { intros Hnone. revert HE. assert (Hpl : Forall plain root) by apply Hs.
    (* the first component that is missing *)
    assert (∃ q1 q2, q = q1 ++ q2 ∧ q2 ≠ [] ∧ ∃ n, lookup_node f (root ++ q1) = Some n ∧ ∀ b r, q2 = b :: r → lookup_node f (root ++ q1 ++ [b]) = None) as (q1 & q2 & -> & Hne & n & Hn & Hmiss).
    { clear Hq. induction q as [|b q IH] using rev_ind.
      - exfalso. rewrite app_nil_r in Hnone. destruct (shape_root _ _ Hs) as [_ Hr]. congruence.
      - destruct (lookup_node f (root ++ q)) as [n|] eqn:E.
        + exists q, [b]. split_and!; [done | done |]. exists n. split; [done |]. intros ? ? [= -> <-]. by rewrite <- Hnone.
        + destruct IH as (q1 & q2 & -> & Hne & n & Hn & Hmiss); [done |]. exists q1, (q2 ++ [b]). split_and!; [by rewrite app_assoc | by destruct q2 |].
          exists n. split; [done |]. intros c r Hc. destruct q2 as [|c' q2]; [done |]. injection Hc as <- _. by eapply Hmiss. }
    destruct q2 as [|b r]; [done |]. specialize (Hmiss b r eq_refl).
    apply Forall_app in Hq as [Hq1 Hq2]. apply Forall_cons in Hq2 as [Hb Hq2].
    pose proof (shape_settled _ _ _ Hs Hn) as [Hp Hd Hl]. rewrite app_assoc. unfold EvalSymlinks.
    destruct n as [|body|t].
    - rewrite (walk_missing_below f 255 [] (root ++ q1) b r); [done..|]. cbn. by rewrite <- app_assoc.
    - rewrite (walk_past_file f 255 [] (root ++ q1) b r body); [done | done | done | by intros E; rewrite E in Hn | done].
    - by destruct (Hl t). }
  split; [|done]. destruct (lookup_node f (root ++ q)) eqn:E; [|done]. rewrite (shape_resolves _ _ _ Hs E) in HE. congruence.
Qed.

Lemma lstat_settled f p : settled f p → p ≠ [] → lstat_place f p = Ok p.
Proof.
  intros Hs Hne. destruct p as [|b p _] using rev_ind; [done |]. unfold lstat_place, parent. rewrite last_snoc, removelast_last.
  apply settled_parent in Hs as [Hp Hd]. rewrite (EvalSymlinks_id f p) by (done || congruence). cbn. by rewrite decide_True.
Qed.

(** [s] holds the files at the paths [P] picks. *)
Definition holds_files (d : disk) (P : apath → Prop) (s : snap) : Prop := ∀ k v,
  s !! k = Some v ↔ ∃ q, Forall plain q ∧ P q ∧ k = key q ∧ fileat d (root ++ q) = Some v.

Lemma fileat_below d q v : shape root (d_fs d) → fileat d (root ++ q) = Some v → q ≠ [] ∧ Forall plain q.
Proof.
  intros Hs Hf. unfold fileat in Hf. destruct (lookup_node _ _) as [[|b|]|] eqn:E; try done.
  pose proof (shape_settled _ _ _ Hs E) as [Hp _ _]. apply Forall_app in Hp as [_ Hp]. split; [|done].
  intros ->. rewrite app_nil_r in E. destruct (shape_root _ _ Hs) as [_ Hr]. congruence.
Qed.

Lemma holds_ext d P P' s : (∀ q, fileat d (root ++ q) ≠ None → P q ↔ P' q) → holds_files d P s → holds_files d P' s.
Proof.
  intros HP Hs k v. rewrite (Hs k v). split; intros (q & Hq & Hp & Hk & Hf); exists q; (split_and!; [done | | done | done]); (apply HP; [congruence | done]).
Qed.

Lemma holds_insert d P s q v : shape root (d_fs d) → holds_files d P s → fileat d (root ++ q) = Some v →
  holds_files d (λ q', P q' ∨ q' = q) (<[key q := v]> s).
Proof.
  intros Hsh Hs Hq k w. destruct (fileat_below _ _ _ Hsh Hq) as [Hne Hpl].
  destruct (decide (k = key q)) as [->|Hk].
  - rewrite lookup_insert_eq. split.
    + intros [= <-]. exists q. naive_solver.
    + intros (q' & Hq' & _ & Hk & Hf). destruct (fileat_below _ _ _ Hsh Hf) as [Hne' _].
      apply key_inj in Hk as ->; [congruence | done..].
  - rewrite lookup_insert_ne by done. rewrite (Hs k w). split.
    + intros (q' & ? & ? & ? & ?). exists q'. naive_solver.
    + intros (q' & ? & [?| ->] & -> & ?); [by exists q' | done].
Qed.

Lemma holds_unique d P s s' : holds_files d P s → holds_files d P s' → s = s'.
Proof.
  intros H H'. apply map_eq. intros k. destruct (s !! k) eqn:E.
  - symmetry. by apply H', H.
  - destruct (s' !! k) eqn:E'; [|done]. apply H', H in E'. congruence.
Qed.

Lemma walk_holds d output : shape root (d_fs d) → safeRelPath output = Ok tt →
  ∀ l, (∀ e, e ∈ l → e ∈ walk_dir (d_fs d) (root ++ out_comps output)) →
  ∀ P s s', holds_files d P s → fold_ok (snap_entry d output (root ++ out_comps output)) l s = Ok s' →
  holds_files d (λ q, P q ∨ ∃ e, e ∈ l ∧ q = out_comps output ++ e.1) s'.
Proof.
  intros Hsh Hsafe. induction l as [|e l IH]; intros Hl P s s' Hs; cbn [fold_ok].
  { intros [= <-]. eapply holds_ext; [|exact Hs]. intros q _. set_solver. }
  assert (He : e ∈ walk_dir (d_fs d) (root ++ out_comps output)) by (apply Hl; set_solver).
  apply elem_of_walk_dir in He as [Hne Hf]. rewrite <- app_assoc in Hf.
  intros (s1 & E1 & H)%rbind_ok. unfold snap_entry in E1.
  assert (Hlook : lookup_node (d_fs d) (root ++ out_comps output ++ e.1) = Some e.2).
  { rewrite lookup_node_ne; [done |]. intros E. apply app_nil in E as [_ E]. by apply app_nil in E as [_ E]. }
  destruct (safe_comps _ Hsafe) as [Hout _].
  assert (Hplain : Forall plain e.1).
  { assert (Hp : Forall plain (root ++ out_comps output ++ e.1)) by (apply (shape_names _ _ Hsh); congruence).
    apply Forall_app in Hp as [_ Hp]. by apply Forall_app in Hp as [_ Hp]. }
  destruct e as [rel n]. cbn [fst snd] in *. destruct n as [|body|t].
  - injection E1 as <-. eapply holds_ext; [|eapply IH; [set_solver | exact Hs | exact H]].
    intros q Hq. split; [set_solver |]. intros [?|(e & He & ->)]; [by left |]. apply elem_of_cons in He as [->|He]; [|set_solver].
    exfalso. apply Hq. unfold fileat. cbn [fst]. by rewrite Hlook.
  - injection E1 as <-. rewrite rel_key_eq in H by done. rewrite <- app_assoc in H.
    assert (Hat : fileat d (root ++ out_comps output ++ rel) = Some (body, mode_at d (root ++ out_comps output ++ rel))) by (unfold fileat; by rewrite Hlook).
    pose proof (holds_insert _ _ _ _ _ Hsh Hs Hat) as Hs1.
    eapply holds_ext; [|eapply IH; [set_solver | exact Hs1 | exact H]]. intros q _. cbn. set_solver.
  - by destruct (shape_links _ _ Hsh _ _ Hlook).
Qed.

Hypothesis root_ne : root ≠ [].

(** An output covers what stands at or below it. *)
Definition covers (outputs : list string) (q : apath) : Prop := ∃ o, o ∈ outputs ∧ ∃ rel, q = out_comps o ++ rel.

Lemma output_place o : safeRelPath o = Ok tt → Forall plain root →
  comps_of (join_path (show_path root) (clean o)) = root ++ out_comps o.
Proof.
  intros [Hq Hc]%safe_comps Hr. rewrite Hc. destruct (out_comps o) as [|c q] eqn:E.
  - rewrite app_nil_r. unfold join_path. cbn [render_path]. change (String.eqb "." "") with false. cbv iota.
    rewrite <- (comps_of_show root) at 2 by done. f_equal. unfold clean.
    assert (is_abs (show_path root +:+ "/" +:+ ".") = true) as ->
      by (unfold show_path, render_path, is_abs; rewrite !app_str_assoc; apply has_prefix_app).
    rewrite split_char_app_slash, split_show by done. change (split_char slash ".") with ["."].
    rewrite clean_comps_dot. change (clean_comps true [] ("" :: root)) with (clean_comps true [] root).
    by rewrite clean_comps_id.
  - change (render_path false (c :: q)) with (join "/" (c :: q)). rewrite join_path_below by done. apply comps_of_show. by apply Forall_app.
Qed.

Lemma covers_exists f o rel : shape root f → lookup_node f (root ++ out_comps o ++ rel) ≠ None →
  lookup_node f (root ++ out_comps o) ≠ None ∧ (rel = [] ∨ lookup_node f (root ++ out_comps o) = Some NDir).
Proof.
  intros Hs H. assert (Hne : root ++ out_comps o ≠ []) by (by destruct root). rewrite app_assoc in H.
  rewrite (lookup_node_ne _ (root ++ out_comps o)) by done. destruct rel as [|b rel]; [rewrite app_nil_r, lookup_node_ne in H by done; auto |].
  rewrite lookup_node_ne in H by (by destruct (root ++ out_comps o)).
  assert (Hd : lookup_node f (root ++ out_comps o) = Some NDir).
  { apply (shape_formed _ _ Hs _ b). intros E. apply H. replace ((root ++ out_comps o) ++ b :: rel) with (((root ++ out_comps o) ++ [b]) ++ rel) by (by rewrite <- app_assoc).
    apply well_formed_below; [apply Hs | by destruct (root ++ out_comps o) | done]. }
  rewrite lookup_node_ne in Hd by done. split; [congruence | by right].
Qed.

Lemma fileat_node d p : fileat d p ≠ None → lookup_node (d_fs d) p ≠ None.
Proof. unfold fileat. by destruct (lookup_node _ _). Qed.

Lemma output_holds d P s s' o : shape root (d_fs d) → safeRelPath o = Ok tt → holds_files d P s →
  snapshot_output d (show_path root) s o = Ok s' → holds_files d (λ q, P q ∨ ∃ rel, q = out_comps o ++ rel) s'.
Proof.
  intros Hs Ho HP. assert (Hr : Forall plain root) by apply Hs. destruct (safe_comps o Ho) as [Hq Hc].
  unfold snapshot_output. rewrite output_place by done.
  destruct (EvalSymlinks _ _) as [p|e] eqn:E.
  2:{ destruct (is_not_exist e); [|done]. intros [= <-]. eapply holds_ext; [|exact HP]. intros q Hf.
      split; [by left |]. intros [?|(rel & ->)]; [done |]. exfalso. apply fileat_node in Hf.
      destruct (covers_exists _ _ _ Hs Hf) as [He _]. destruct (lookup_node _ (root ++ out_comps o)) eqn:El; [|done].
      rewrite (shape_resolves _ _ _ Hs El) in E. done. }
  destruct (shape_resolved _ _ _ Hs Hq E) as [-> He]. destruct (lookup_node _ _) as [[|body|t]|] eqn:El; [| |by destruct (shape_links _ _ Hs _ _ El)|done].
  - rewrite lstat_settled by (by eapply shape_settled || by destruct root). cbn [mbind result_bind]. rewrite El. intros H.
    eapply walk_holds in H; [|done..|exact HP]. eapply holds_ext; [|exact H]. intros q Hf. cbn. split.
    + intros [?|(e & _ & ->)]; [by left | right; eauto].
    + intros [?|(rel & ->)]; [by left | right]. destruct rel as [|b rel].
      { exfalso. apply Hf. unfold fileat. by rewrite app_nil_r, El. }
      apply fileat_node in Hf. rewrite app_assoc, lookup_node_ne in Hf by (by destruct root).
      destruct (_ !! _) as [n|] eqn:En; [|done]. exists (b :: rel, n). split; [|done]. by apply elem_of_walk_dir.
  - intros (b & Hb & [= <-])%rbind_ok. unfold ReadFile, Stat in Hb. rewrite E, El in Hb. injection Hb as <-.
    assert (Hat : fileat d (root ++ out_comps o) = Some (body, mode_at d (root ++ out_comps o))) by (unfold fileat; by rewrite El).
    destruct (fileat_below _ _ _ Hs Hat) as [Hne _].
    assert (clean o = key (out_comps o)) as -> by (rewrite Hc; unfold render_path, key; by destruct (out_comps o)).
    eapply holds_ext; [|by apply (holds_insert _ _ _ _ _ Hs HP Hat)]. intros q Hf. cbn. split.
    + intros [?| ->]; [by left | right]. exists []. by rewrite app_nil_r.
    + intros [?|(rel & ->)]; [by left | right]. apply fileat_node in Hf. destruct (covers_exists _ _ _ Hs Hf) as [_ [->|Hd]]; [by rewrite app_nil_r | congruence].
Qed.

Lemma snapshot_holds d outputs s : shape root (d_fs d) → Forall (λ o, safeRelPath o = Ok tt) outputs →
  snapshot d (show_path root) outputs = Ok s → holds_files d (covers outputs) s.
Proof.
  intros Hs. unfold snapshot.
  assert (Hgen : ∀ outputs P s s', Forall (λ o, safeRelPath o = Ok tt) outputs → holds_files d P s →
    fold_ok (snapshot_output d (show_path root)) outputs s = Ok s' → holds_files d (λ q, P q ∨ covers outputs q) s').
  { clear outputs s. induction outputs as [|o l IH]; intros P s s' Hl HP; cbn [fold_ok].
    - intros [= <-]. eapply holds_ext; [|exact HP]. intros q _. unfold covers. set_solver.
    - apply Forall_cons in Hl as [Ho Hl]. intros (s1 & E1 & H)%rbind_ok.
      eapply output_holds in E1; [|done..|exact HP]. eapply IH in H; [|done|exact E1].
      eapply holds_ext; [|exact H]. intros q _. cbn. unfold covers. set_solver. }
  intros Ho H. apply (Hgen outputs (λ _, False) ∅ s Ho) in H.
  - eapply holds_ext; [|exact H]. intros q _. cbn. naive_solver.
  - intros k v. split; [done | by intros (? & _ & [] & _)].
Qed.

(** *** Changing one file *)

Lemma shape_file f f' p : shape root f → (∀ p', p' ≠ p → f' !! p' = f !! p') → lookup_node f p ≠ Some NDir →
  (f' !! p = None ∨ (∃ body, f' !! p = Some (NFile body)) ∧ ∃ r b, p = r ++ [b] ∧ lookup_node f r = Some NDir ∧ Forall plain p) →
  shape root f'.
Proof.
  intros [Hw Hr Hn Hl] Hsame Hp Hnew.
  assert (Hdir : ∀ r, lookup_node f r = Some NDir → lookup_node f' r = Some NDir).
  { intros [|c r] Hd; [done |]. cbn in *. rewrite Hsame; [done |]. intros <-. done. }
  split.
  - intros r b Hrb. apply Hdir. destruct (decide (r ++ [b] = p)) as [<-|Hne].
    + destruct Hnew as [?|[_ (r' & b' & E & Hd & _)]]; [done |]. by apply app_inj_tail in E as [-> _].
    + rewrite Hsame in Hrb by done. by eapply Hw.
  - destruct Hr as [[Hpl Hds Hnl] Hd]. split; [|by apply Hdir]. split; [done | |].
    + intros q b r E. apply Hdir. by eapply Hds.
    + intros t. rewrite (Hdir _ Hd). done.
  - intros p' Hp'. destruct (decide (p' = p)) as [->|Hne]; [|rewrite Hsame in Hp' by done; by apply Hn].
    destruct Hnew as [?|[_ (r' & b' & _ & _ & ?)]]; done.
  - intros q t Ht. destruct (decide (root ++ q = p)) as [E|Hne].
    + rewrite lookup_node_ne in Ht by (by destruct root). rewrite E in Ht. destruct Hnew as [?|[[? ?] _]]; congruence.
    + apply (Hl q t). rewrite lookup_node_ne in Ht |- * by (by destruct root). by rewrite <- Hsame.
Qed.

Lemma shape_dir f q b : shape root f → real_dir f (root ++ q) → plain b → f !! ((root ++ q) ++ [b]) = None →
  shape root (<[(root ++ q) ++ [b] := NDir]> f).
Proof.
  intros [Hw Hr Hn Hl] Hd Hb Hnone.
  assert (Hg : grows f (<[(root ++ q) ++ [b] := NDir]> f)) by (apply grows_insert; [done | by destruct root]).
  split.
  - apply well_formed_insert; [done | apply Hd | by right].
  - by eapply real_dir_grows.
  - intros p. destruct (decide (p = (root ++ q) ++ [b])) as [->|Hne]; [|rewrite lookup_insert_ne by done; apply Hn].
    intros _. apply Forall_app. split; [apply Hd | by apply Forall_singleton].
  - intros q' t. destruct (decide ((root ++ q) ++ [b] = root ++ q')) as [<-|Hne].
    + rewrite lookup_node_insert by (by destruct root, q). done.
    + rewrite lookup_node_insert_ne by done. apply Hl.
Qed.

Lemma mkdir_all_ok q : Forall plain q → ∀ f f', shape root f → mkdir_all f (rev (root ++ q)) = (Ok tt, f') →
  shape root f' ∧ real_dir f' (root ++ q) ∧ ∀ p, f' !! p ≠ f !! p → f !! p = None ∧ f' !! p = Some NDir.
Proof.
  induction q as [|b q IH] using rev_ind; intros Hq f f' Hs.
  { rewrite app_nil_r, mkdir_all_dir by apply Hs. intros [= <-]. split_and!; [done | apply Hs | done]. }
  pose proof Hq as [Hq' Hb]%Forall_app. apply Forall_cons in Hb as [Hb _]. rewrite app_assoc, rev_app_distr. cbn [rev app mkdir_all].
  rewrite rev_involutive, <- app_assoc.
  destruct (Stat f _) as [[| |]|] eqn:ES; [|done..|].
  - intros [= <-]. split_and!; [done | | done]. unfold Stat in ES. destruct (EvalSymlinks _ _) as [p|] eqn:E; [|done].
    apply shape_resolved in E as [-> _]; [|done..]. destruct (lookup_node _ _) eqn:El; [|done]. injection ES as ->.
    split; [by eapply shape_settled | done].
  - destruct (mkdir_all f _) as [[[]|e'] f1] eqn:EM; [|done]. apply IH in EM as (Hs1 & Hd1 & Hch); [|done..].
    rewrite (app_assoc root). destruct (f1 !! ((root ++ q) ++ [b])) as [n|] eqn:Eb.
    + unfold Mkdir, Lstat, parent. rewrite last_snoc, removelast_last. destruct (real_dir_stat _ _ Hd1) as [-> ->].
      assert (lookup_node f1 ((root ++ q) ++ [b]) = Some n) as El by (by rewrite lookup_node_ne by (by destruct root, q)).
      rewrite El. destruct (real_dir_stat _ _ Hd1) as [_ ->]. rewrite El. destruct n; [|done..]. intros [= <-]. split_and!; [done | | done].
      rewrite <- app_assoc in El |- *. split; [by eapply shape_settled | done].
    + rewrite Mkdir_fresh by done. intros [= <-]. pose proof (shape_dir _ _ _ Hs1 Hd1 Hb Eb) as Hs2.
      assert (Hnew : lookup_node (<[(root ++ q) ++ [b]:=NDir]> f1) ((root ++ q) ++ [b]) = Some NDir)
        by (apply lookup_node_insert; by destruct root, q).
      split_and!; [done | split; [|done] |].
      { pose proof (shape_settled _ (q ++ [b]) NDir Hs2) as Hset. rewrite app_assoc in Hset. by apply Hset. }
      intros p. destruct (decide (p = (root ++ q) ++ [b])) as [->|Hne]; [|rewrite lookup_insert_ne by done; apply Hch].
      rewrite lookup_insert_eq. intros Hne. split; [|done].
      destruct (decide (f1 !! ((root ++ q) ++ [b]) = f !! ((root ++ q) ++ [b]))) as [<-|Hc]; [done |]. by apply Hch in Hc as [? _].
Qed.

(** [d'] is [d] with the file at [p] replaced by [v], or removed. *)
Definition replaced (d d' : disk) (p : apath) (v : option snapFile) : Prop :=
  shape root (d_fs d') ∧ ∀ p', fileat d' p' = if decide (p' = p) then v else fileat d p'.

Lemma key_place q : Forall plain root → Forall plain q → comps_of (join_path (show_path root) (key q)) = root ++ q.
Proof.
  intros Hr Hq. unfold key. rewrite join_path_below by done. apply comps_of_show. by apply Forall_app.
Qed.

Lemma remove_created_does d before q v v' : shape root (d_fs d) → fileat d (root ++ q) = Some v' → before !! key q = None →
  ∃ d', remove_created (show_path root) before d (key q, v) = (Ok tt, d') ∧ replaced d d' (root ++ q) None.
Proof.
  intros Hs Hf Hb. destruct (fileat_below _ _ _ Hs Hf) as [Hne Hq]. assert (Hr : Forall plain root) by apply Hs.
  unfold remove_created. cbn [fst]. rewrite Hb, key_place by done. unfold fileat in Hf.
  destruct (lookup_node (d_fs d) (root ++ q)) as [[|body|]|] eqn:El; try done.
  unfold Remove, remove_place. rewrite lstat_settled by (by eapply shape_settled || by destruct root). cbn [mbind result_bind]. rewrite El.
  eexists. split; [done |]. split; cbn.
  - eapply (shape_file _ _ (root ++ q) Hs); [intros p' Hp; by rewrite lookup_delete_ne | by rewrite El | left; by rewrite lookup_delete_eq].
  - intros p'. unfold fileat, mode_at. cbn. destruct (decide (p' = root ++ q)) as [->|Hn].
    + rewrite lookup_node_ne, lookup_delete_eq by (by destruct root). done.
    + rewrite (lookup_delete_ne (d_mode d)) by done. destruct p'; [done |]. cbn. by rewrite lookup_delete_ne.
Qed.

(** Permissions of all zeroes are restored as [0o644]. *)
Definition put_mode (v : snapFile) : snapFile := (v.1, if Z.eqb v.2 0 then 420%Z else v.2).

Lemma put_back_does umask d q v d' : shape root (d_fs d) → Forall plain q → q ≠ [] →
  put_back umask (show_path root) d (key q, v) = (Ok tt, d') → replaced d d' (root ++ q) (Some (put_mode v)).
Proof.
  intros Hs Hq Hne. assert (Hr : Forall plain root) by apply Hs. unfold put_back, dir_of. cbn [fst snd]. rewrite key_place by done.
  destruct q as [|b q _] using rev_ind; [done |]. apply Forall_app in Hq as [Hq Hb]. apply Forall_cons in Hb as [Hb _].
  rewrite app_assoc. unfold parent. rewrite removelast_last. unfold make_dirs, MkdirAll.
  destruct (mkdir_all _ _) as [[[]|e] f1] eqn:EM; [|done]. apply mkdir_all_ok in EM as (Hs1 & Hd1 & Hch); [|done..].
  assert (Hset : settled f1 ((root ++ q) ++ [b])).
  { apply settled_child; [done..|]. intros t. rewrite <- app_assoc. apply (shape_links _ _ Hs1). }
  unfold write_file, WriteFile. cbn [d_fs d_mode]. rewrite open_place_id by done.
  destruct (decide (lookup_node f1 ((root ++ q) ++ [b]) = Some NDir)) as [E|E]; [by rewrite E |].
  set (f2 := <[(root ++ q) ++ [b] := NFile v.1]> f1).
  assert (Hs2 : shape root f2).
  { eapply (shape_file _ _ ((root ++ q) ++ [b]) Hs1); [intros p' Hp; by apply lookup_insert_ne | done |].
    right. split; [eexists; apply lookup_insert_eq |]. exists (root ++ q), b. split_and!; [done | apply Hd1 |].
    apply Forall_app. split; [apply Hd1 | by apply Forall_singleton]. }
  assert (Hl2 : lookup_node f2 ((root ++ q) ++ [b]) = Some (NFile v.1)) by (apply lookup_node_insert; by destruct root, q).
  assert (HE : EvalSymlinks f2 ((root ++ q) ++ [b]) = Ok ((root ++ q) ++ [b])).
  { rewrite <- app_assoc in Hl2 |- *. by eapply shape_resolves. }
  intros H.
  assert (Hd' : ∃ m, d' = mk_disk f2 (<[(root ++ q) ++ [b] := (put_mode v).2]> m) ∧ ∀ p', p' ≠ (root ++ q) ++ [b] → m !! p' = d_mode d !! p').
  { destruct (lookup_node f1 _) as [[| |]|]; try done; unfold chmod in H; cbn [d_fs d_mode] in H; rewrite HE in H;
      (eexists; split; [by injection H as <-|]); intros p' Hp; destruct (decide _); by rewrite ?lookup_insert_ne. }
  destruct Hd' as (m & -> & Hm). split; [done |]. intros p'. unfold fileat, mode_at. cbn [d_fs d_mode].
  destruct (decide (p' = (root ++ q) ++ [b])) as [->|Hn]; [rewrite Hl2, lookup_insert_eq; by destruct v |].
  rewrite lookup_insert_ne, Hm by done. unfold f2. rewrite lookup_node_insert_ne by done.
  destruct p' as [|x p']; [done |]. cbn. destruct (decide (f1 !! (x :: p') = d_fs d !! (x :: p'))) as [->|Hc]; [done |].
  apply Hch in Hc as [-> ->]. done.
Qed.

(** [q] is named by a key of [l]. *)
Definition keyed (l : list (string * snapFile)) (q : apath) : Prop := Forall plain q ∧ q ≠ [] ∧ key q ∈ l.*1.

Lemma keyed_cons e l q : Forall plain q → q ≠ [] → e.1 = key q → ∀ q', keyed (e :: l) q' ↔ q' = q ∨ keyed l q'.
Proof.
  intros Hq Hne He q'. unfold keyed. cbn. rewrite He, elem_of_cons. split; [|naive_solver].
  intros (? & ? & [E|?]); [left; by apply key_inj in E | by right].
Qed.

Lemma removes before l : ∀ d, shape root (d_fs d) → NoDup l.*1 →
  (∀ e, e ∈ l → before !! e.1 = None → ∃ q, e.1 = key q ∧ fileat d (root ++ q) = Some e.2) →
  ∃ d', each_disk (remove_created (show_path root) before) l d = (Ok tt, d') ∧ shape root (d_fs d') ∧
    (∀ q, keyed l q → before !! key q = None → fileat d' (root ++ q) = None) ∧
    ∀ p, (∀ q, p = root ++ q → keyed l q → before !! key q ≠ None) → fileat d' p = fileat d p.
Proof.
  induction l as [|[k v] l IH]; intros d Hs Hnd Hl; cbn [each_disk].
  { exists d. split_and!; [done..| |done]. intros q (_ & _ & ?). set_solver. }
  apply NoDup_cons in Hnd as [Hk Hnd]. destruct (before !! k) as [w|] eqn:Eb.
  - unfold remove_created at 1. cbn [fst]. rewrite Eb. destruct (IH d Hs Hnd) as (d' & E & Hs' & H1 & H2); [set_solver |].
    exists d'. split_and!; [done | done | |].
    + intros q (Hq & Hne & Hin) Hb. apply H1; [|done]. split_and!; [done | done |]. cbn in Hin. apply elem_of_cons in Hin as [<-|?]; [congruence | done].
    + intros p Hp. apply H2. intros q -> (Hq & Hne & Hin). apply Hp; [done |]. split_and!; [done | done |]. cbn. set_solver.
  - destruct (Hl (k, v)) as (q & Ek & Hf); [set_solver | done |]. cbn in Ek, Hf. subst k.
    destruct (fileat_below _ _ _ Hs Hf) as [Hne Hq].
    destruct (remove_created_does _ _ _ v _ Hs Hf Eb) as (d1 & -> & Hs1 & Hd1).
    destruct (IH d1 Hs1 Hnd) as (d' & E & Hs' & H1 & H2).
    { intros e He Hb. destruct (Hl e) as (q' & Ek' & Hf'); [set_solver | done |]. exists q'. split; [done |].
      rewrite Hd1, decide_False; [done |]. intros Heq%app_inv_head. subst q'. apply Hk. cbn. rewrite <- Ek'. apply list_elem_of_fmap. by exists e. }
    exists d'. split_and!; [done | done | |].
    + intros q' Hq'. apply (keyed_cons (key q, v) l q) in Hq'; [|done..]. intros Hb. destruct Hq' as [->|Hq']; [|by apply H1].
      rewrite H2, Hd1, decide_True; [done.. |]. intros q'' ->%app_inv_head (_ & _ & ?). done.
    + intros p Hp. rewrite H2, Hd1, decide_False.
      * done.
      * intros ->. apply (Hp q); [done | apply (keyed_cons (key q, v) l q); [done..|]; by left | done].
      * intros q' -> Hq'. apply Hp; [done |]. apply (keyed_cons (key q, v) l q); [done..|]. by right.
Qed.

Lemma puts umask l : ∀ d d', shape root (d_fs d) → NoDup l.*1 →
  (∀ e, e ∈ l → ∃ q, Forall plain q ∧ q ≠ [] ∧ e.1 = key q) →
  each_disk (put_back umask (show_path root)) l d = (Ok tt, d') →
  shape root (d_fs d') ∧
  (∀ q v, Forall plain q → q ≠ [] → (key q, v) ∈ l → fileat d' (root ++ q) = Some (put_mode v)) ∧
  ∀ p, (∀ q, p = root ++ q → ¬ keyed l q) → fileat d' p = fileat d p.
Proof.
  induction l as [|[k v] l IH]; intros d d' Hs Hnd Hl; cbn [each_disk].
  { intros [= <-]. split_and!; [done | set_solver | done]. }
  apply NoDup_cons in Hnd as [Hk Hnd]. destruct (Hl (k, v)) as (q & Hq & Hne & Ek); [set_solver |]. cbn in Ek. subst k.
  destruct (put_back _ _ _ _) as [[[]|] d1] eqn:E1; [|done]. apply put_back_does in E1 as [Hs1 Hd1]; [|done..].
  intros H. destruct (IH d1 d' Hs1 Hnd) as (Hs' & H1 & H2); [set_solver | done |]. split_and!; [done | |].
  - intros q' v' Hq' Hne' [[= Ek ->]|Hin]%elem_of_cons; [|by apply H1]. apply key_inj in Ek as ->; [|done..].
    rewrite H2, Hd1, decide_True; [done.. |]. intros q'' ->%app_inv_head (_ & _ & ?). done.
  - intros p Hp. rewrite H2, Hd1, decide_False.
    + done.
    + intros ->. apply (Hp q); [done |]. apply (keyed_cons (key q, v) l q); [done..|]. by left.
    + intros q' -> Hq'. apply (Hp q'); [done |]. apply (keyed_cons (key q, v) l q); [done..|]. by right.
Qed.

(** A path at or below an output. *)
Definition under (outputs : list string) (p : apath) : Prop := ∃ q, covers outputs q ∧ p = root ++ q.

Context (umask : Z) (range : snap → list (string * snapFile)).
Hypothesis range_all : ∀ m, range m ≡ₚ map_to_list m.

Lemma elem_of_range m e : e ∈ range m ↔ m !! e.1 = Some e.2.
Proof using range_all. rewrite range_all. destruct e. apply elem_of_map_to_list. Qed.
Lemma range_keys m k : k ∈ (range m).*1 ↔ is_Some (m !! k).
Proof using range_all.
  rewrite list_elem_of_fmap. split.
  - intros (e & -> & He%elem_of_range). eauto.
  - intros [v Hv]. exists (k, v). split; [done | by apply elem_of_range].
Qed.
Lemma range_NoDup m : NoDup (range m).*1.
Proof using range_all. rewrite range_all. apply NoDup_fst_map_to_list. Qed.

Lemma restore_restores outputs before after d0 d1 d3 : shape root (d_fs d0) → shape root (d_fs d1) →
  holds_files d0 (covers outputs) before → holds_files d1 (covers outputs) after →
  restore umask range (show_path root) before after d1 = (Ok tt, d3) →
  ∀ p, (under outputs p → fileat d3 p = put_mode <$> fileat d0 p) ∧ (¬ under outputs p → fileat d3 p = fileat d1 p).
Proof using range_all root_ne.
  intros Hs0 Hs1 Hb Ha. unfold restore.
  destruct (removes before (range after) d1 Hs1 (range_NoDup _)) as (d2 & -> & Hs2 & R1 & R2).
  { intros e He%elem_of_range _. apply Ha in He as (q & ? & ? & ? & ?). by exists q. }
  intros H. apply puts in H as (Hs3 & P1 & P2); [|done|apply range_NoDup|].
  2:{ intros e He%elem_of_range. apply Hb in He as (q & Hq & _ & Hk & Hf). exists q. split_and!; [done | by destruct (fileat_below _ _ _ Hs0 Hf) | done]. }
  assert (Hkeyed : ∀ d s q, shape root (d_fs d) → holds_files d (covers outputs) s → keyed (range s) q → covers outputs q ∧ fileat d (root ++ q) = s !! key q ∧ is_Some (s !! key q)).
  { intros d s q Hsh Hh (Hq & Hne & [v Hv]%range_keys). pose proof Hv as (q' & Hq' & Hc & Hk & Hf)%Hh.
    destruct (fileat_below _ _ _ Hsh Hf) as [Hne' _]. apply key_inj in Hk as ->; [|done..]. split_and!; [done | congruence | eauto]. }
  intros p. split.
  - intros (q & Hc & ->). destruct (fileat d0 (root ++ q)) as [v|] eqn:E0.
    + destruct (fileat_below _ _ _ Hs0 E0) as [Hne Hq]. cbn. apply P1; [done..|]. apply elem_of_range, Hb. by exists q.
    + cbn. rewrite P2. 2:{ intros q' ->%app_inv_head Hk. apply (Hkeyed d0) in Hk as (_ & E & [w Hw]); [congruence | done..]. }
      destruct (fileat d1 (root ++ q)) as [v|] eqn:E1.
      * destruct (fileat_below _ _ _ Hs1 E1) as [Hne Hq]. apply R1.
        -- split_and!; [done..|]. apply range_keys. exists v. apply Ha. by exists q.
        -- destruct (before !! key q) eqn:Ekb; [|done]. apply Hb in Ekb as (q' & ? & _ & Hk & Hf).
           destruct (fileat_below _ _ _ Hs0 Hf). apply key_inj in Hk as ->; [congruence | done..].
      * rewrite R2; [done |]. intros q' ->%app_inv_head Hk. apply (Hkeyed d1) in Hk as (_ & E & [w Hw]); [congruence | done..].
  - intros Hn. rewrite P2, R2; [done | |].
    + intros q -> Hk. apply (Hkeyed d1) in Hk as (Hc & _); [|done..]. exfalso. apply Hn. by exists q.
    + intros q -> Hk. apply (Hkeyed d0) in Hk as (Hc & _); [|done..]. apply Hn. by exists q.
Qed.

(** Two files with the same permissions and the same digest. *)
Definition same_file (sha : string → string) (a b : option snapFile) : Prop :=
  match a, b with
  | Some a, Some b => sha a.1 = sha b.1 ∧ a.2 = b.2
  | None, None => True
  | _, _ => False
  end.

Lemma diffSnapshots_nil sha before after :
  diffSnapshots sha range before after = [] ↔ ∀ k, same_file sha (before !! k) (after !! k).
Proof using range_all root_ne.
  unfold diffSnapshots, sort_strings.
  assert (∀ l, stable_sort str_ltb l = [] ↔ l = []) as ->.
  { intros l. split; [|by intros ->]. intros E. apply Permutation_nil_r. rewrite <- E. symmetry. apply stable_sort_perm. }
  rewrite app_nil, !omap_nil. split.
  - intros [H1 H2] k. unfold same_file. destruct (before !! k) as [a|] eqn:Ea, (after !! k) as [b|] eqn:Eb; [| | |done].
    + assert (Hin : (k, b) ∈ range after) by (by apply elem_of_range). apply H1 in Hin. unfold file_changed in Hin. cbn [fst snd] in Hin. rewrite Ea in Hin.
      destruct (String.eqb_spec (sha a.1) (sha b.1)), (Z.eqb_spec a.2 b.2); done.
    + assert (Hin : (k, a) ∈ range before) by (by apply elem_of_range). apply H2 in Hin. unfold file_removed in Hin. cbn [fst] in Hin. by rewrite Eb in Hin.
    + assert (Hin : (k, b) ∈ range after) by (by apply elem_of_range). apply H1 in Hin. unfold file_changed in Hin. cbn [fst] in Hin. by rewrite Ea in Hin.
  - intros H. split; intros [k v] Hin%elem_of_range; specialize (H k); cbn in Hin; unfold file_changed, file_removed; cbn; rewrite Hin in H.
    + destruct (before !! k) as [a|]; [|done]. destruct H as [-> ->]. by rewrite String.eqb_refl, Z.eqb_refl.
    + by destruct (after !! k).
Qed.

Lemma same_snapshots sha outputs d0 d1 before after : shape root (d_fs d0) → shape root (d_fs d1) →
  holds_files d0 (covers outputs) before → holds_files d1 (covers outputs) after →
  (∀ k, same_file sha (before !! k) (after !! k)) ↔ ∀ p, under outputs p → same_file sha (fileat d0 p) (fileat d1 p).
Proof using root_ne.
  intros Hs0 Hs1 Hb Ha.
  assert (Hat : ∀ d s q, shape root (d_fs d) → holds_files d (covers outputs) s → covers outputs q → Forall plain q → q ≠ [] → fileat d (root ++ q) = s !! key q).
  { intros d s q Hsh Hh Hc Hq Hne. destruct (s !! key q) as [v|] eqn:E.
    - apply Hh in E as (q' & ? & _ & Hk & Hf). destruct (fileat_below _ _ _ Hsh Hf). apply key_inj in Hk as ->; done.
    - destruct (fileat d (root ++ q)) eqn:Ef; [|done]. assert (s !! key q = Some p) by (apply Hh; by exists q); congruence. }
  split.
  - intros H p (q & Hc & ->). destruct (decide (q ≠ [] ∧ Forall plain q)) as [[Hne Hq]|Hn].
    + rewrite (Hat d0 before), (Hat d1 after) by done. apply H.
    + destruct (fileat d0 (root ++ q)) eqn:E0; [by destruct (Hn (fileat_below _ _ _ Hs0 E0)) |].
      destruct (fileat d1 (root ++ q)) eqn:E1; [by destruct (Hn (fileat_below _ _ _ Hs1 E1)) | done].
  - intros H k. destruct (before !! k) as [a|] eqn:Ea.
    + pose proof Ea as (q & Hq & Hc & -> & Hf)%Hb. destruct (fileat_below _ _ _ Hs0 Hf) as [Hne _].
      rewrite <- (Hat d1 after), <- Hf by done. apply H. by exists q.
    + destruct (after !! k) as [b|] eqn:Ek; [|done]. pose proof Ek as (q & Hq & Hc & -> & Hf)%Ha.
      destruct (fileat_below _ _ _ Hs1 Hf) as [Hne _]. specialize (H (root ++ q)). rewrite Hf, (Hat d0 before), Ea in H by done.
      apply H. by exists q.
Qed.

Context {G : Type} (command : bool → string → list string → disk * G → (run_err * string) * (disk * G)) (sha : string → string).

(** C28: A generate check leaves the worktree as it found it.  When the check comes
    to a verdict - the generator ran to its end, and what it made was put back -
    every declared output has the content and permissions it had before the
    generator ran (no permissions at all become [0o644]), a file the generator
    created among them is gone, and every other file is as the generator left
    it.  The verdict is a pass exactly when the generator had reproduced every
    declared output, up to the digest.  The checkout is taken to have no
    symbolic link, before the generator runs and after. *)
Theorem runGenerate_restores g w0 w1 ended res w3 :
  shape root (d_fs w0.1) → shape root (d_fs w1.1) → Forall (λ o, safeRelPath o = Ok tt) (Outputs g) →
  runPhase command false (show_path root) (Ge_Argv g) w0 = (ended, w1) →
  runGenerate umask sha range command (show_path root) g w0 = (res, w3) →
  St_Status res = "pass" ∨ St_Status res = "fail" ∧ St_Phase res = "compare" →
  (∀ p, (under (Outputs g) p → fileat w3.1 p = put_mode <$> fileat w0.1 p) ∧
        (¬ under (Outputs g) p → fileat w3.1 p = fileat w1.1 p)) ∧
  (St_Status res = "pass" ↔ ∀ p, under (Outputs g) p → same_file sha (fileat w0.1 p) (fileat w1.1 p)).
Proof using range_all root_ne.
  intros Hs0 Hs1 Hsafe Hrun. unfold runGenerate. destruct (snapshot w0.1 _ _) as [before|] eqn:Eb; [|intros [= <- <-]; naive_solver].
  rewrite Hrun. destruct ended as [[code out] err]. destruct (_ || _); [intros [= <- <-]; naive_solver |].
  destruct (snapshot w1.1 _ _) as [after|] eqn:Ea; [|intros [= <- <-]; naive_solver].
  apply snapshot_holds in Eb, Ea; [|done..].
  destruct (restore _ _ _ _ _ _) as [[[]|e] d] eqn:ER; [|intros [= <- <-]; naive_solver].
  pose proof (restore_restores _ _ _ _ _ _ Hs0 Hs1 Eb Ea ER) as HR.
  rewrite <- (same_snapshots sha (Outputs g) w0.1 w1.1 before after), <- diffSnapshots_nil by done.
  destruct (diffSnapshots sha range before after); intros [= <- <-] _; naive_solver.
Qed.
End shape.

(** Deciding that a file system has a shape: no links at all. *)
Definition entry_ok (f : fs) (e : apath * node) : bool :=
  negb (length e.1 =? 0) && forallb plain_b e.1 && bool_decide (lookup_node f (removelast e.1) = Some NDir) &&
  match e.2 with NLink _ => false | _ => true end.
Definition shape_b (root : apath) (f : fs) : bool :=
  forallb (entry_ok f) (map_to_list f) && bool_decide (lookup_node f root = Some NDir).

Lemma shape_b_ok root f : shape_b root f = true → shape root f.
Proof.
  unfold shape_b. rewrite andb_true_iff, forallb_forall, bool_decide_eq_true. intros [He Hr].
  assert (H : ∀ p n, f !! p = Some n → p ≠ [] ∧ Forall plain p ∧ lookup_node f (removelast p) = Some NDir ∧ ∀ t, n ≠ NLink t).
  { intros p n Hp%elem_of_map_to_list%list_elem_of_In. specialize (He _ Hp). unfold entry_ok in He. cbn in He.
    rewrite !andb_true_iff, negb_true_iff, bool_decide_eq_true, forallb_forall in He. destruct He as [[[Hne Hpl] Hd] Hn].
    split_and!; [by intros -> | | done | by intros t ->].
    apply Forall_forall. intros c Hc. apply plain_b_ok, Hpl. by apply list_elem_of_In. }
  assert (Hw : well_formed f).
  { intros p b Hp. destruct (f !! (p ++ [b])) as [n|] eqn:E; [|done]. destruct (H _ _ E) as (_ & _ & Hd & _). by rewrite removelast_last in Hd. }
  assert (Hdirs : ∀ q r, lookup_node f (q ++ r) ≠ None → r ≠ [] → lookup_node f q = Some NDir).
  { intros q r. induction r as [|b r IH] using rev_ind; [done |]. intros Hl _. rewrite app_assoc, lookup_node_ne in Hl by (by destruct q, r).
    apply Hw in Hl. destruct r as [|c r]; [by rewrite app_nil_r in Hl |]. apply IH; [congruence | done]. }
  assert (Hlinks : ∀ p t, lookup_node f p ≠ Some (NLink t)).
  { intros [|c p] t Hl; [done |]. cbn in Hl. by destruct (H _ _ Hl) as (_ & _ & _ & Hn); destruct (Hn t). }
  split; [done | | |].
  - split; [|done]. split; [| |done].
    + destruct root as [|c root]; [done |]. cbn in Hr. by destruct (H _ _ Hr) as (_ & ? & _).
    + intros q b r ->. apply (Hdirs q (b :: r)); [congruence | done].
  - intros p Hp. destruct (f !! p) as [n|] eqn:E; [|done]. by destruct (H _ _ E) as (_ & ? & _).
  - intros q t. apply Hlinks.
Qed.

(** ** Witnesses *)

(** A checkout with one generated script; the generator rewrites it without its
    permissions and makes a second file. *)
Definition demo_files : fs := {[ ["wt"] := NDir; ["wt"; "gen"] := NDir; ["wt"; "gen"; "a.sh"] := NFile "old"; ["wt"; "main.go"] := NFile "m" ]}.
Definition demo_disk : disk := mk_disk demo_files {[ ["wt"; "gen"; "a.sh"] := 493%Z ]}.
Definition demo_generator (detached : bool) (dir : string) (argv : list string) (w : disk * unit) : (run_err * string) * (disk * unit) :=
  ((RunOk, "generated"),
   (mk_disk (<[["wt"; "gen"; "b.sh"] := NFile "b"]> (<[["wt"; "gen"; "a.sh"] := NFile "new"]> (d_fs w.1)))
            (<[["wt"; "gen"; "a.sh"] := 420%Z]> (d_mode w.1)), w.2)).
Definition demo_step : GenerateStep := mk_generate "scripts" ["gen"] ["./gen/"] 0.
Definition demo_generate : StepResult * (disk * unit) :=
  runGenerate 18 (λ s, s) map_to_list demo_generator "/wt" demo_step (demo_disk, tt).

Lemma runGenerate_restores_witness :
  (St_Status demo_generate.1, Changed demo_generate.1) = ("fail", ["gen/a.sh"; "gen/b.sh (would be created)"]) ∧
  fileat demo_generate.2.1 ["wt"; "gen"; "a.sh"] = Some ("old", 493%Z) ∧
  ((∀ p, (under ["wt"] (Outputs demo_step) p → fileat demo_generate.2.1 p = put_mode <$> fileat demo_disk p) ∧
         (¬ under ["wt"] (Outputs demo_step) p → fileat demo_generate.2.1 p = fileat (runPhase demo_generator false "/wt" ["gen"] (demo_disk, tt)).2.1 p)) ∧
   (St_Status demo_generate.1 = "pass" ↔ ∀ p, under ["wt"] (Outputs demo_step) p →
      same_file (λ s, s) (fileat demo_disk p) (fileat (runPhase demo_generator false "/wt" ["gen"] (demo_disk, tt)).2.1 p))).
Proof.
  split; [vm_compute; reflexivity |]. split; [vm_compute; reflexivity |].
  apply (runGenerate_restores ["wt"] ltac:(done) 18 map_to_list (λ m, reflexivity _) demo_generator (λ s, s) demo_step (demo_disk, tt)
           (runPhase demo_generator false "/wt" ["gen"] (demo_disk, tt)).2 (runPhase demo_generator false "/wt" ["gen"] (demo_disk, tt)).1 demo_generate.1 demo_generate.2).
  - apply shape_b_ok. vm_compute. reflexivity.
  - apply shape_b_ok. vm_compute. reflexivity.
  - apply Forall_singleton. reflexivity.
  - apply surjective_pairing.
  - unfold demo_generate. apply surjective_pairing.
  - right. vm_compute. done.
Defined.

(** A generator that fails after it made a directory of its output: the output
    is lost, and the check only says that the generator did not run. *)
Definition demo_failing (detached : bool) (dir : string) (argv : list string) (w : disk * unit) : (run_err * string) * (disk * unit) :=
  ((ExitError 1, "boom"),
   (mk_disk (<[["wt"; "gen"; "a.sh"; "tmp"] := NFile "t"]> (<[["wt"; "gen"; "a.sh"] := NDir]> (d_fs w.1))) (d_mode w.1), w.2)).
Lemma failed_generator_unrestored :
  let '(res, (d, _)) := runGenerate 18 (λ s, s) map_to_list demo_failing "/wt" demo_step (demo_disk, tt) in
  (St_Status res, St_Phase res) = ("error", "generate") ∧
  fileat demo_disk ["wt"; "gen"; "a.sh"] = Some ("old", 493%Z) ∧ d_fs d !! ["wt"; "gen"; "a.sh"] = Some NDir.
Proof. vm_compute. done. Qed.

(** A link among the outputs: a generator that changes nothing passes, and the
    file the link points to has every permission afterwards. *)
Definition demo_linked : disk := mk_disk (<[["wt"; "gen"; "l"] := NLink "../main.go"]> demo_files) (d_mode demo_disk).
Lemma restored_link_opens_target :
  let '(res, (d, _)) := runGenerate 18 (λ s, s) map_to_list (λ _ _ _ w, ((RunOk, ""), w)) "/wt" demo_step (demo_linked, tt) in
  St_Status res = "pass" ∧ fileat demo_linked ["wt"; "main.go"] = Some ("m", 420%Z) ∧ fileat d ["wt"; "main.go"] = Some ("m", 511%Z).
Proof. vm_compute. done. Qed.

(** A declaration with one analyzer, and its recipe. *)
Definition demo_declared : Declared := mk_declared 1 [] [] [mk_check "vet" ["vet"; "./..."] "" 90].
Definition demo_declared' : Declared := mk_declared 1 [] [] [mk_check "vet" ["vet"; "./..."] "" 5].
Definition demo_repo : disk := mk_disk (<[["wt"; ".le"; "verify.yaml"] := NFile "v"]> (<[["wt"; ".le"] := NDir]> demo_files)) ∅.
Definition demo_json (_ : string) : option json :=
  Some (WriteStepResult (runCheck demo_failing "/wt" (mk_check "vet" ["vet"; "./..."] "" 5) (demo_repo, tt)).1).
Definition demo_recipe : Recipe :=
  declared_recipe demo_json "/bin/le" "check" KindAnalyzer "check" "vet" (stepTimeout 5 (10 * minute))
    (λ f wt, HasDeclaredVerification (λ _, Ok demo_declared') f wt && true).
Lemma declared_recipes_run_witness :
  Validate demo_declared = Err (errorf ("check step " +:+ quoted "vet" +:+ " asks for 90 minutes; the cap is 60")) ∧
  ∃ kind name r w' code, Argv demo_recipe = ["/bin/le"; "verify-declared"; "--kind"; kind; "--name"; name] ∧
    verify_declared 18 (λ s, s) map_to_list demo_failing (λ _, Ok demo_declared') "/wt" kind name (demo_repo, tt) = ((code, Some (WriteStepResult r)), w') ∧
    St_Name r = name ∧ (code = 0%Z ↔ St_Status r = "pass") ∧ (0 < Timeout demo_recipe ≤ 60 * minute)%Z ∧
    ∃ summarize, Summarize demo_recipe = Some summarize ∧
      ∀ stdout stderr, demo_json (trim_space stdout) = Some (WriteStepResult r) →
        (summarize code stdout stderr).1 = status_of (St_Status r).
Proof.
  split; [vm_compute; reflexivity |].
  apply (declared_recipes_run 18 (λ s, s) map_to_list demo_failing (λ _, Ok demo_declared') (λ _, true) demo_json
           (d_fs demo_repo) High "/wt" "/bin/le" demo_recipe (demo_repo, tt)); [|reflexivity].
  apply list_elem_of_In. left. reflexivity.
Defined.
