(* ===== verification/Discover.v ===== *)
(** The verification presets of a repository: [src/internal/recipe/presets.go].
    A configuration file says which commands verify the repository; without one
    they are read off its manifests - [go.mod], [Cargo.toml], [package.json] -
    in the order the directory walk finds them. *)
From S2P Require Import Prelude GoStrings GoPath Policy Worktree Files Recipe Json Declared.

Open Scope string_scope.
Open Scope list_scope.
Open Scope nat_scope.

(** ** Configured presets *)

(** [recipe/presets.go:89-98 DiscoverPresets] *)
Fixpoint validate_presets (f : fs) (root : string) (seen : list string) (l : list Preset) : result unit :=
  match l with
  | [] => Ok tt
  | p :: l =>
      _ ← Preset_Validate f root p;
      _ ← guard_err (mem (P_Name p) seen) (errorf ("duplicate preset " +:+ quoted (P_Name p)));
      validate_presets f root (P_Name p :: seen) l
  end.

(** [recipe/presets.go:79-99 DiscoverPresets] the file's version and presets. *)
Definition configured (f : fs) (root : string) (level : Level) (config : Z * list Preset) : result (list Preset) :=
  _ ← guard_err (negb (Z.eqb config.1 1) || (length config.2 =? 0)) (errorf "verify.toml requires version=1 and nonempty presets");
  _ ← validate_presets f root [] config.2;
  Ok (selectPresets config.2 level).

(** ** Discovered presets *)

(** What discovery has found: the presets, and the roots of the Node and Cargo
    workspaces. *)
Record found := mk_found { fo_presets : list Preset; fo_node : list string; fo_cargo : list string }.

(** [recipe/presets.go:105-112 DiscoverPresets] *)
Definition under_root (dir : string) (roots : list string) : bool :=
  existsb (λ parent, String.eqb dir parent || has_prefix dir (parent +:+ "/") || String.eqb parent ".") roots.

(** [recipe/presets.go:121-125 DiscoverPresets] *)
Definition not_walked : list string :=
  [".git"; ".le"; ".agent"; "vendor"; "node_modules"; "target"; "dist"; ".nuxt"; ".output"].

(** [recipe/presets.go:132-138 DiscoverPresets] *)
Definition new_preset (dir name : string) (kind : Kind) (parser : string) (argv : list string) : Preset :=
  mk_preset (dir +:+ ": " +:+ name) kind argv dir
    (if bool_decide (kind = KindTest ∨ kind = KindRace) then 600 else 120)%Z parser.

(** [recipe/presets.go:140-145 DiscoverPresets] *)
Definition go_presets (dir : string) : list Preset :=
  [new_preset dir "go build" KindBuild "go_build" ["go"; "build"; "./..."];
   new_preset dir "go vet" KindVet "go_vet" ["go"; "vet"; "./..."];
   new_preset dir "go test" KindTest "go_test_json" ["go"; "test"; "-json"; "./..."];
   new_preset dir "gofmt" KindFormat "gofmt" ["gofmt"; "-l"; "."];
   new_preset dir "go race" KindRace "go_test_json" ["go"; "test"; "-race"; "-json"; "./..."]].

(** [recipe/presets.go:151-154 DiscoverPresets] *)
Definition cargo_presets (dir : string) : list Preset :=
  [new_preset dir "cargo check" KindBuild "" ["cargo"; "check"; "--workspace"; "--offline"; "--jobs"; "2"];
   new_preset dir "cargo clippy" KindVet "" ["cargo"; "clippy"; "--workspace"; "--offline"; "--jobs"; "2"; "--"; "-D"; "warnings"];
   new_preset dir "cargo test" KindTest "" ["cargo"; "test"; "--workspace"; "--offline"; "--jobs"; "2"];
   new_preset dir "cargo fmt" KindFormat "" ["cargo"; "fmt"; "--all"; "--"; "--check"]].

(** [recipe/presets.go:183-186 DiscoverPresets] the scripts that verify. *)
Definition node_specs : list (string * Kind) :=
  [("build", KindBuild); ("typecheck", KindVet); ("test", KindTest); ("lint", KindLint); ("format:check", KindFormat)].

(** A member of an object into a [map[string]string]: a null is the empty
    string, and a repeated member adds to the map. *)
Definition dec_scripts (acc : option (gmap string string)) (j : json) : option (gmap string string) :=
  m ← acc;
  match j with
  | JNull => Some ∅
  | JObj l => foldl (λ acc kv, m ← acc; match kv.2 with JNull => Some (<[kv.1 := ""]> m) | JStr s => Some (<[kv.1 := s]> m) | _ => None end)
                (Some m) l
  | _ => None
  end.

(** [recipe/presets.go:166-173 DiscoverPresets] what is read of a manifest: the
    package manager it names, its scripts, and whether it says anything of
    workspaces. *)
Definition decode_package (j : json) : option (string * gmap string string * bool) :=
  match j with
  | JNull => Some ("", ∅, false)
  | JObj l =>
      manager ← get_string "packageManager" j;
      scripts ← foldl (λ acc kv, if key_match kv.1 "scripts" then dec_scripts acc kv.2 else acc) (Some ∅) l;
      Some (manager, scripts, existsb (λ kv, key_match kv.1 "workspaces") l)
  | _ => None
  end.

(** [recipe/presets.go:174-179 DiscoverPresets] *)
Definition manager_of (packageManager : string) : string :=
  if has_prefix packageManager "pnpm@" then "pnpm" else if has_prefix packageManager "yarn@" then "yarn" else "npm".

(** [recipe/presets.go:187-190 DiscoverPresets] *)
Definition node_presets (dir manager : string) (scripts : gmap string string) : list Preset :=
  omap (λ spec, if String.eqb (default "" (scripts !! spec.1)) "" then None
                else Some (new_preset dir (manager +:+ " " +:+ spec.1) spec.2 "" [manager; "run"; spec.1])) node_specs.

Section discover.
(** [toml.Decoder.Decode] of the configuration, unknown fields refused, and
    [json.Unmarshal]. *)
Context (parse_toml : string → result (Z * list Preset)) (unmarshal : string → result json).

(** [filepath.Dir] of a path below the root. *)
Definition dir_below (rel : apath) : string := render_path false (removelast rel).

(** [recipe/presets.go:162-190 DiscoverPresets] a [package.json]. *)
Definition visit_package (rel : apath) (body : string) (st : found) : result found :=
  let dir := dir_below rel in
  let failed msg := errorf (join "/" rel +:+ ": " +:+ msg) in
  match unmarshal body with
  | Err e => Err (wrap (join "/" rel +:+ ": ") e)
  | Ok j =>
      match decode_package j with
      | None => Err (failed "json: cannot unmarshal")
      | Some (packageManager, scripts, workspaces) =>
          let manager := manager_of packageManager in
          Ok (mk_found (fo_presets st ++ node_presets dir manager scripts)
                (if workspaces || String.eqb manager "pnpm" then fo_node st ++ [dir] else fo_node st) (fo_cargo st))
      end
  end.

(** [recipe/presets.go:139-191 DiscoverPresets] a file the walk comes to. *)
Definition visit_manifest (rel : apath) (body : string) (st : found) : result found :=
  let dir := dir_below rel in
  let name := List.last rel "" in
  if String.eqb name "go.mod" then Ok (mk_found (fo_presets st ++ go_presets dir) (fo_node st) (fo_cargo st))
  else if String.eqb name "Cargo.toml" then
    if under_root dir (fo_cargo st) then Ok st
    else Ok (mk_found (fo_presets st ++ cargo_presets dir) (fo_node st) (fo_cargo st ++ [dir]))
  else if String.eqb name "package.json" then
    if under_root dir (fo_node st) then Ok st else visit_package rel body st
  else Ok st.

(** The manifests of a workspace that is already covered return before the
    limit is looked at, and add nothing. *)
(** [recipe/presets.go:192-194 DiscoverPresets] *)
Definition limited (st : found) : result found :=
  _ ← guard_err (2000 <? length (fo_presets st)) (errorf "verification discovery exceeds 2000 presets"); Ok st.

(** Whether the walk from a directory called [name] gets to [rel]: no directory
    on the way is left out. *)
Definition visited (name : string) (rel : apath) : bool :=
  forallb (λ c, negb (mem c not_walked)) (name :: removelast rel).

(** [recipe/presets.go:113-196 DiscoverPresets] one entry of the walk; links and
    directories give nothing. *)
Definition visit (root_name : string) (st : found) (e : apath * node) : result found :=
  match e.2 with
  | NFile body => if visited root_name e.1 then visit_manifest e.1 body st ≫= limited else Ok st
  | _ => Ok st
  end.

(** [recipe/presets.go:204-216 DiscoverPresets] commands of a member of a
    workspace are the workspace's. *)
Definition roots_for (st : found) (p : Preset) : list string :=
  match P_Argv p with
  | a :: _ => if String.eqb a "cargo" then fo_cargo st else if mem a ["go"; "gofmt"] then [] else fo_node st
  | [] => fo_node st
  end.
Definition nested (st : found) (p : Preset) : bool :=
  existsb (λ parent, negb (String.eqb (P_Dir p) parent) && under_root (P_Dir p) [parent]) (roots_for st p).

(** [recipe/presets.go:103-225 DiscoverPresets] *)
Definition discovered (f : fs) (root : string) (level : Level) : result (list Preset) :=
  place ← lstat_place f (comps_of (clean root));
  match lookup_node f place with
  | None => Err ENOENT
  | Some n =>
      st ← match n with
           | NDir => fold_ok (visit (base_name root)) (walk_dir f place) (mk_found [] [] [])
           | _ => Ok (mk_found [] [] [])
           end;
      match List.filter (λ p, negb (nested st p)) (fo_presets st) with
      | [] => Err (errorf "no verification presets: declare .agent/verify.toml")
      | out => Ok (selectPresets out level)
      end
  end.

(** [recipe/presets.go:73-226 DiscoverPresets] *)
Definition DiscoverPresets (f : fs) (root : string) (level : Level) : result (list Preset) :=
  configPath ← Resolve f root ".agent/verify.toml";
  match ReadFile f configPath with
  | Ok body => config ← parse_toml body; configured f root level config
  | Err e => if is_not_exist e then discovered f root level else Err e
  end.
End discover.

(** ** What is discovered

    The walk looks at the manifests in its own order, and what it does at one
    depends on those it has seen; the result does not. *)

Section exact.
Context (unmarshal : string → result json).
Context (f : fs) (place : apath) (root_name : string).
Hypothesis names : ∀ p, f !! p ≠ None → Forall plain p.

(** A manifest called [name] that the walk visits, in the directory [dir]. *)
Definition manifest (name : string) (dir : apath) (body : string) : Prop :=
  f !! (place ++ dir ++ [name]) = Some (NFile body) ∧ visited root_name (dir ++ [name]) = true.

(** [d] is strictly above [d']. *)
Definition above (d d' : apath) : Prop := ∃ c rest, d' = d ++ c :: rest.

Definition package_of (body : string) : option (string * gmap string string * bool) :=
  match unmarshal body with Ok j => decode_package j | Err _ => None end.
Definition is_workspace (body : string) : Prop :=
  ∃ pm scripts ws, package_of body = Some (pm, scripts, ws) ∧ ws || String.eqb (manager_of pm) "pnpm" = true.

Definition show_dir (d : apath) : string := render_path false d.

(** The presets a repository has, said without an order: the five commands of
    every Go module; those of the topmost Cargo manifests; and the verifying
    scripts of every package that is not below a workspace. *)
Inductive has_preset : Preset → Prop :=
| has_go dir body p : manifest "go.mod" dir body → p ∈ go_presets (show_dir dir) → has_preset p
| has_cargo dir body p : manifest "Cargo.toml" dir body → p ∈ cargo_presets (show_dir dir) →
    (∀ dir' body', manifest "Cargo.toml" dir' body' → ¬ above dir' dir) → has_preset p
| has_node dir body pm scripts ws p : manifest "package.json" dir body → package_of body = Some (pm, scripts, ws) →
    p ∈ node_presets (show_dir dir) (manager_of pm) scripts →
    (∀ dir' body', manifest "package.json" dir' body' → is_workspace body' → ¬ above dir' dir) → has_preset p.

Lemma has_prefix_dir q q' : Forall plain q → Forall plain q' → q' ≠ [] →
  has_prefix (show_dir q) (show_dir q' +:+ "/") = true ↔ above q' q.
Proof.
  intros Hq Hq' Hne. unfold show_dir. rewrite has_prefix_spec.
  assert (Hs : ∀ l, Forall plain l → l ≠ [] → split_char slash (render_path false l) = l).
  { intros l Hl Hln. destruct (render_path_plain l Hl) as [-> _]. by rewrite decide_False. }
  split.
  - intros (t & E). rewrite app_str_assoc in E. apply (f_equal (split_char slash)) in E. rewrite split_char_app_slash, (Hs q') in E by done.
    assert (Hqn : q ≠ []).
    { intros ->. change (split_char slash (render_path false [])) with ["."] in E. destruct q' as [|c q']; [done |].
      injection E as <- _. apply Forall_cons in Hq' as [(_ & _ & ? & _) _]. done. }
    rewrite Hs in E by done. destruct (split_char slash t) as [|c rest] eqn:Et; [by destruct (split_char_ne slash t) |]. by exists c, rest.
  - intros (c & rest & ->). exists (join "/" (c :: rest)). rewrite app_str_assoc.
    destruct q' as [|x q']; [done |]. cbn [app]. unfold render_path. clear.
    revert x. induction q' as [|y q' IH]; intros x; [done |].
    change (join "/" (x :: (y :: q') ++ c :: rest)) with (x +:+ "/" +:+ join "/" (y :: q' ++ c :: rest)).
    change (join "/" (x :: y :: q')) with (x +:+ "/" +:+ join "/" (y :: q')). rewrite (IH y), !app_str_assoc. done.
Qed.

Lemma show_dir_inj q q' : Forall plain q → Forall plain q' → show_dir q = show_dir q' → q = q'.
Proof.
  intros Hq Hq' E. apply (f_equal (split_char slash)) in E. unfold show_dir in E.
  destruct (render_path_plain q Hq) as [E1 _], (render_path_plain q' Hq') as [E2 _]. rewrite E1, E2 in E.
  destruct (decide (q = [])) as [->|], (decide (q' = [])) as [->|]; [done | | |done].
  - subst q'. by apply Forall_cons in Hq' as [(_ & _ & ? & _) _].
  - subst q. by apply Forall_cons in Hq as [(_ & _ & ? & _) _].
Qed.

(** A directory is under a root when the root is it or above it. *)
Lemma under_root_dir q q' : Forall plain q → Forall plain q' →
  under_root (show_dir q) [show_dir q'] = true ↔ q = q' ∨ above q' q.
Proof.
  intros Hq Hq'. unfold under_root. cbn [existsb]. rewrite orb_false_r, !orb_true_iff, !String.eqb_eq.
  destruct q' as [|c q'].
  - split; [intros _; destruct q as [|c q]; [by left | right; by exists c, q] | by right].
  - rewrite has_prefix_dir by done. split.
    + intros [[E|?]|E]; [left; by apply show_dir_inj in E | by right |].
      change "." with (show_dir []) in E. by apply show_dir_inj in E.
    + intros [->|?]; [by left; left | by left; right].
Qed.

Lemma under_roots dir roots : under_root dir roots = true ↔ ∃ r, r ∈ roots ∧ under_root dir [r] = true.
Proof.
  unfold under_root. rewrite existsb_exists. cbn [existsb]. setoid_rewrite orb_false_r. by setoid_rewrite list_elem_of_In.
Qed.

Lemma dir_below_snoc dir name : dir_below (dir ++ [name]) = show_dir dir.
Proof. unfold dir_below, show_dir. by rewrite removelast_last. Qed.

Lemma manifest_plain name dir body : manifest name dir body → Forall plain dir.
Proof using names.
  intros [Hf _]. assert (Hp : Forall plain (place ++ dir ++ [name])) by (apply names; congruence).
  apply Forall_app in Hp as [_ Hp]. by apply Forall_app in Hp as [? _].
Qed.

(** The walk has come to the manifest. *)
Definition seen_at (done : list (apath * node)) (name : string) (dir : apath) (body : string) : Prop :=
  (dir ++ [name], NFile body) ∈ done ∧ manifest name dir body.

(** What holds of what was found after the entries [l] of the walk. *)
Record found_inv (l : list (apath * node)) (st : found) : Prop := {
  inv_sound : ∀ p, p ∈ fo_presets st → ∃ name dir body, seen_at l name dir body ∧
    (name = "go.mod" ∧ p ∈ go_presets (show_dir dir) ∨ name = "Cargo.toml" ∧ p ∈ cargo_presets (show_dir dir) ∨
     name = "package.json" ∧ ∃ pm scripts ws, package_of body = Some (pm, scripts, ws) ∧ p ∈ node_presets (show_dir dir) (manager_of pm) scripts);
  inv_go : ∀ dir body p, seen_at l "go.mod" dir body → p ∈ go_presets (show_dir dir) → p ∈ fo_presets st;
  inv_cargo_root : ∀ r, r ∈ fo_cargo st → ∃ dir body, r = show_dir dir ∧ seen_at l "Cargo.toml" dir body ∧
    ∀ p, p ∈ cargo_presets (show_dir dir) → p ∈ fo_presets st;
  inv_cargo : ∀ dir body, seen_at l "Cargo.toml" dir body → under_root (show_dir dir) (fo_cargo st) = true;
  inv_node_root : ∀ r, r ∈ fo_node st → ∃ dir body, r = show_dir dir ∧ seen_at l "package.json" dir body ∧ is_workspace body ∧
    ∀ pm scripts ws p, package_of body = Some (pm, scripts, ws) → p ∈ node_presets (show_dir dir) (manager_of pm) scripts → p ∈ fo_presets st;
  inv_workspace : ∀ dir body, seen_at l "package.json" dir body → is_workspace body → under_root (show_dir dir) (fo_node st) = true;
  inv_node : ∀ dir body, seen_at l "package.json" dir body → under_root (show_dir dir) (fo_node st) = true ∨
    ∀ pm scripts ws p, package_of body = Some (pm, scripts, ws) → p ∈ node_presets (show_dir dir) (manager_of pm) scripts → p ∈ fo_presets st }.

Lemma seen_more l l' name dir body : seen_at l name dir body → seen_at (l ++ l') name dir body.
Proof. intros [? ?]. split; [|done]. set_solver. Qed.
Lemma under_more dir roots more : under_root dir roots = true → under_root dir (roots ++ more) = true.
Proof. intros (r & ? & ?)%under_roots. apply under_roots. exists r. split; [set_solver | done]. Qed.

(** An entry that is no manifest the walk knows, or not visited, changes nothing. *)
Lemma inv_skip l st e : found_inv l st →
  (∀ name dir body, name ∈ ["go.mod"; "Cargo.toml"; "package.json"] → e = (dir ++ [name], NFile body) → ¬ manifest name dir body) →
  found_inv (l ++ [e]) st.
Proof.
  intros [H1 H2 H3 H4 H5 H6 H7] Hno.
  assert (Hold : ∀ name dir body, name ∈ ["go.mod"; "Cargo.toml"; "package.json"] → seen_at (l ++ [e]) name dir body → seen_at l name dir body).
  { intros name dir body Hn [Hin Hm]. apply elem_of_app in Hin as [Hin|Hin]; [by split |]. apply list_elem_of_singleton in Hin. by destruct (Hno _ _ _ Hn (eq_sym Hin)). }
  split.
  - intros p Hp. destruct (H1 p Hp) as (name & dir & body & Hs & Hk). exists name, dir, body. split; [by apply seen_more | done].
  - intros dir body p Hs. apply (H2 dir body). apply Hold; [set_solver | done].
  - intros r Hr. destruct (H3 r Hr) as (dir & body & ? & ? & ?). exists dir, body. split_and!; [done | by apply seen_more | done].
  - intros dir body Hs. apply (H4 dir body). apply Hold; [set_solver | done].
  - intros r Hr. destruct (H5 r Hr) as (dir & body & ? & ? & ?). exists dir, body. split_and!; [done | by apply seen_more | naive_solver..].
  - intros dir body Hs. apply (H6 dir body). apply Hold; [set_solver | done].
  - intros dir body Hs. apply (H7 dir body). apply Hold; [set_solver | done].
Qed.

Definition kind_of (name : string) (dir : apath) (body : string) (p : Preset) : Prop :=
  name = "go.mod" ∧ p ∈ go_presets (show_dir dir) ∨ name = "Cargo.toml" ∧ p ∈ cargo_presets (show_dir dir) ∨
  name = "package.json" ∧ ∃ pm scripts ws, package_of body = Some (pm, scripts, ws) ∧ p ∈ node_presets (show_dir dir) (manager_of pm) scripts.

(** One manifest more, which adds presets and roots of its own. *)
Lemma inv_add l st name dir body ps ns cs : found_inv l st → manifest name dir body →
  (∀ p, p ∈ ps → kind_of name dir body p) →
  (name = "go.mod" → ∀ p, p ∈ go_presets (show_dir dir) → p ∈ ps) →
  (∀ r, r ∈ cs → r = show_dir dir ∧ name = "Cargo.toml" ∧ ∀ p, p ∈ cargo_presets (show_dir dir) → p ∈ ps) →
  (name = "Cargo.toml" → under_root (show_dir dir) (fo_cargo st ++ cs) = true) →
  (∀ r, r ∈ ns → r = show_dir dir ∧ name = "package.json" ∧ is_workspace body ∧
     ∀ pm scripts ws p, package_of body = Some (pm, scripts, ws) → p ∈ node_presets (show_dir dir) (manager_of pm) scripts → p ∈ ps) →
  (name = "package.json" → is_workspace body → under_root (show_dir dir) (fo_node st ++ ns) = true) →
  (name = "package.json" → under_root (show_dir dir) (fo_node st ++ ns) = true ∨
     ∀ pm scripts ws p, package_of body = Some (pm, scripts, ws) → p ∈ node_presets (show_dir dir) (manager_of pm) scripts → p ∈ ps) →
  found_inv (l ++ [(dir ++ [name], NFile body)]) (mk_found (fo_presets st ++ ps) (fo_node st ++ ns) (fo_cargo st ++ cs)).
Proof.
  intros [H1 H2 H3 H4 H5 H6 H7] Hm Hps Hgo Hcs Hc Hns Hw Hn.
  assert (Hnew : seen_at (l ++ [(dir ++ [name], NFile body)]) name dir body) by (split; [set_solver | done]).
  assert (Hold : ∀ n d b, seen_at (l ++ [(dir ++ [name], NFile body)]) n d b → seen_at l n d b ∨ n = name ∧ d = dir ∧ b = body).
  { intros n d b [Hin Hmd]. apply elem_of_app in Hin as [Hin|Hin]; [by left |]. apply list_elem_of_singleton in Hin.
    injection Hin as E ->. apply app_inj_tail in E as [-> ->]. by right. }
  split; cbn.
  - intros p [Hp|Hp]%elem_of_app; [|exists name, dir, body; by split; [|apply Hps]].
    destruct (H1 p Hp) as (n & d & b & Hs & Hk). exists n, d, b. split; [by apply seen_more | done].
  - intros d b p Hs Hp. apply elem_of_app. apply Hold in Hs as [Hs|(<- & -> & ->)]; [left; by eapply H2 | right; by apply Hgo].
  - intros r [Hr|Hr]%elem_of_app.
    + destruct (H3 r Hr) as (d & b & ? & ? & Hin). exists d, b. split_and!; [done | by apply seen_more |]. intros p ?. apply elem_of_app. left. by apply Hin.
    + destruct (Hcs r Hr) as (-> & -> & Hin). exists dir, body. split_and!; [done..|]. intros p ?. apply elem_of_app. right. by apply Hin.
  - intros d b Hs. apply Hold in Hs as [Hs|(<- & -> & ->)]; [apply under_more; by eapply H4 | by apply Hc].
  - intros r [Hr|Hr]%elem_of_app.
    + destruct (H5 r Hr) as (d & b & ? & ? & ? & Hin). exists d, b. split_and!; [done | by apply seen_more | done |].
      intros. apply elem_of_app. left. by eapply Hin.
    + destruct (Hns r Hr) as (-> & -> & ? & Hin). exists dir, body. split_and!; [done..|]. intros. apply elem_of_app. right. by eapply Hin.
  - intros d b Hs Hwb. apply Hold in Hs as [Hs|(<- & -> & ->)]; [apply under_more; by eapply H6 | by apply Hw].
  - intros d b Hs. apply Hold in Hs as [Hs|(<- & -> & ->)].
    + destruct (H7 d b Hs) as [?|Hin]; [left; by apply under_more | right]. intros. apply elem_of_app. left. by eapply Hin.
    + destruct (Hn eq_refl) as [?|Hin]; [by left | right]. intros. apply elem_of_app. right. by eapply Hin.
Qed.

Lemma limited_ok st st' : limited st = Ok st' → st' = st.
Proof. unfold limited. destruct (2000 <? _); [done |]. by intros [= ->]. Qed.

Lemma under_self d roots : Forall plain d → under_root (show_dir d) (roots ++ [show_dir d]) = true.
Proof. intros Hd. apply under_roots. exists (show_dir d). split; [set_solver |]. apply under_root_dir; [done..|]. by left. Qed.

Lemma visit_inv l st st' e : found_inv l st → e ∈ walk_dir f place → visit unmarshal root_name st e = Ok st' → found_inv (l ++ [e]) st'.
Proof using names.
  intros Hinv He. apply elem_of_walk_dir in He as [Hne Hf]. destruct e as [rel n]. cbn [fst snd] in *. unfold visit. cbn [fst snd].
  destruct rel as [|name dir _] using rev_ind; [done |].
  destruct n as [|body|t]; [intros [= <-]; apply inv_skip; [done | by intros ? ? ? _ [= _]] | | intros [= <-]; apply inv_skip; [done | by intros ? ? ? _ [= _]]].
  destruct (visited root_name (dir ++ [name])) eqn:Ev.
  2:{ intros [= <-]. apply inv_skip; [done |]. intros n' d' b' _ [= E ->]. apply app_inj_tail in E as [<- <-]. intros [_ ?]. congruence. }
  assert (Hm : manifest name dir body) by done. pose proof (manifest_plain _ _ _ Hm) as Hpl.
  intros (st1 & H & ->%limited_ok)%rbind_ok. revert H. unfold visit_manifest. rewrite dir_below_snoc, last_last.
  destruct (String.eqb_spec name "go.mod") as [->|N1].
  { intros [= <-]. rewrite <- (app_nil_r (fo_node st)), <- (app_nil_r (fo_cargo st)).
    apply inv_add; [done | done | by left | done | set_solver | done | set_solver | done | done]. }
  destruct (String.eqb_spec name "Cargo.toml") as [->|N2].
  { destruct (under_root (show_dir dir) (fo_cargo st)) eqn:Eu; intros [= <-].
    - replace st with (mk_found (fo_presets st ++ []) (fo_node st ++ []) (fo_cargo st ++ [])) by (rewrite !app_nil_r; by destruct st).
      apply inv_add; [done | done | set_solver | done | set_solver | intros _; by rewrite app_nil_r | set_solver | done | done].
    - rewrite <- (app_nil_r (fo_node st)).
      apply inv_add; [done | done | by right; left | done | intros r ->%list_elem_of_singleton; done | intros _; by apply under_self | set_solver | done | done]. }
  destruct (String.eqb_spec name "package.json") as [->|N3].
  2:{ intros [= <-]. apply inv_skip; [done |]. intros n' d' b' Hn [= E ->]. apply app_inj_tail in E as [<- <-]. exfalso. set_solver. }
  destruct (under_root (show_dir dir) (fo_node st)) eqn:Eu.
  { intros [= <-]. replace st with (mk_found (fo_presets st ++ []) (fo_node st ++ []) (fo_cargo st ++ [])) by (rewrite !app_nil_r; by destruct st).
    apply inv_add; [done | done | set_solver | done | set_solver | done | set_solver | intros _ _; by rewrite app_nil_r | intros _; left; by rewrite app_nil_r]. }
  unfold visit_package. destruct (unmarshal body) as [j|] eqn:Ej; [|done]. destruct (decode_package j) as [[[pm scripts] ws]|] eqn:Ed; [|done].
  intros [= <-]. rewrite dir_below_snoc, <- (app_nil_r (fo_cargo st)).
  assert (Hpk : package_of body = Some (pm, scripts, ws)) by (unfold package_of; by rewrite Ej).
  assert (Hps : ∀ pm' scripts' ws' p, package_of body = Some (pm', scripts', ws') → p ∈ node_presets (show_dir dir) (manager_of pm') scripts' →
    p ∈ node_presets (show_dir dir) (manager_of pm) scripts) by (intros ????; rewrite Hpk; by intros [= <- <- <-]).
  destruct (ws || String.eqb (manager_of pm) "pnpm") eqn:Ew; [|rewrite <- (app_nil_r (fo_node st))].
  - apply inv_add; [done | done | | done | set_solver | done | | intros _ _; by apply under_self | by right].
    + intros p Hp. right. right. naive_solver.
    + intros r ->%list_elem_of_singleton. split_and!; [done | done | | done]. by exists pm, scripts, ws.
  - apply inv_add; [done | done | | done | set_solver | done | set_solver | | by right].
    + intros p Hp. right. right. naive_solver.
    + intros _ (pm' & scripts' & ws' & E & Ew'). rewrite Hpk in E. injection E as <- <- <-. congruence.
Qed.

Lemma walk_inv entries : (∀ e, e ∈ entries → e ∈ walk_dir f place) → ∀ l st st', found_inv l st →
  fold_ok (visit unmarshal root_name) entries st = Ok st' → found_inv (l ++ entries) st'.
Proof using names.
  induction entries as [|e entries IH]; intros Hin l st st' Hinv; cbn [fold_ok]; [intros [= <-]; by rewrite app_nil_r |].
  intros (st1 & E1 & H)%rbind_ok. rewrite (cons_middle e l entries), app_assoc. eapply IH; [set_solver | | exact H].
  eapply visit_inv; [done | apply Hin; set_solver | done].
Qed.

Lemma inv_start : found_inv [] (mk_found [] [] []).
Proof.
  assert (∀ name dir body, ¬ seen_at [] name dir body) by (intros ??? [? _]; set_solver).
  split; cbn; try set_solver; intros; naive_solver.
Qed.

(** Every manifest is come to. *)
Lemma manifest_seen name dir body : manifest name dir body → seen_at (walk_dir f place) name dir body.
Proof. intros Hm. split; [|done]. apply elem_of_walk_dir. split; [by destruct dir | apply Hm]. Qed.

Lemma preset_dir name dir body p : kind_of name dir body p → P_Dir p = show_dir dir ∧
  match P_Argv p with
  | a :: _ => (name = "Cargo.toml" ↔ a = "cargo") ∧ (name = "go.mod" ↔ a ∈ ["go"; "gofmt"])
  | [] => False
  end.
Proof.
  intros [[-> Hp]|[[-> Hp]|[-> (pm & scripts & ws & _ & Hp)]]].
  - unfold go_presets in Hp. repeat (apply elem_of_cons in Hp as [->|Hp]; [cbn; split; [done |]; split; [done | set_solver] |]). by apply not_elem_of_nil in Hp.
  - unfold cargo_presets in Hp. repeat (apply elem_of_cons in Hp as [->|Hp]; [cbn; split; [done |]; split; [done | set_solver] |]). by apply not_elem_of_nil in Hp.
  - unfold node_presets in Hp. apply list_elem_of_omap in Hp as (spec & _ & E). destruct (String.eqb _ _); [done |]. injection E as <-. cbn.
    split; [done |]. unfold manager_of. destruct (has_prefix pm "pnpm@"), (has_prefix pm "yarn@"); (split; [done | set_solver]).
Qed.

Lemma above_irrefl d : ¬ above d d.
Proof. intros (c & rest & E). apply (f_equal length) in E. rewrite length_app in E. cbn in E. lia. Qed.

(** A preset is nested when a root of its kind is strictly above its directory. *)
Lemma nested_spec st p dir : Forall plain dir → P_Dir p = show_dir dir → (∀ r, r ∈ roots_for st p → ∃ d, Forall plain d ∧ r = show_dir d) →
  nested st p = true ↔ ∃ d, show_dir d ∈ roots_for st p ∧ Forall plain d ∧ above d dir.
Proof.
  intros Hd Hp Hroots. unfold nested. rewrite existsb_exists, Hp. split.
  - intros (r & Hr%list_elem_of_In & [Hne Hu]%andb_true_iff). destruct (Hroots r Hr) as (d & Hpl & ->). exists d.
    apply under_root_dir in Hu as [->|Ha]; [by rewrite String.eqb_refl in Hne | done..].
  - intros (d & Hin & Hpl & Ha). exists (show_dir d). split; [by apply list_elem_of_In |]. apply andb_true_iff. split.
    + apply negb_true_iff, String.eqb_neq. intros ->%show_dir_inj; [by apply above_irrefl in Ha | done..].
    + apply under_root_dir; [done..|]. by right.
Qed.

Lemma found_exact st p : found_inv (walk_dir f place) st → p ∈ fo_presets st ∧ nested st p = false ↔ has_preset p.
Proof using names.
  intros [H1 H2 H3 H4 H5 H6 H7].
  assert (Hseen : ∀ n d b, seen_at (walk_dir f place) n d b ↔ manifest n d b) by (split; [by intros [_ ?] | apply manifest_seen]).
  assert (Hroots : ∀ r, r ∈ roots_for st p → ∃ d, Forall plain d ∧ r = show_dir d).
  { intros r Hr. assert (r ∈ fo_cargo st ∨ r ∈ fo_node st) as [Hc|Hn].
    { unfold roots_for in Hr. destruct (P_Argv p) as [|a ?]; [by right |]. destruct (String.eqb a "cargo"); [by left |]. destruct (mem _ _); [set_solver | by right]. }
    - destruct (H3 r Hc) as (d & b & -> & [_ Hm] & _). exists d. split; [by eapply manifest_plain | done].
    - destruct (H5 r Hn) as (d & b & -> & [_ Hm] & _). exists d. split; [by eapply manifest_plain | done]. }
  assert (Hcargo : ∀ dir' body', manifest "Cargo.toml" dir' body' → ∃ d, show_dir d ∈ fo_cargo st ∧ Forall plain d ∧ (dir' = d ∨ above d dir')).
  { intros d' b' Hm. assert (Hu : under_root (show_dir d') (fo_cargo st) = true) by (apply (H4 d' b'), Hseen, Hm).
    apply under_roots in Hu as (r & Hr & Hu). destruct (H3 r Hr) as (d & b & -> & [_ Hmd] & _). exists d.
    assert (Forall plain d) by (by eapply manifest_plain). split_and!; [done..|]. apply under_root_dir in Hu; [done | by eapply manifest_plain | done]. }
  assert (Hnode : ∀ dir', under_root (show_dir dir') (fo_node st) = true → Forall plain dir' → ∃ d, show_dir d ∈ fo_node st ∧ Forall plain d ∧ (dir' = d ∨ above d dir')).
  { intros d' Hu Hp'. apply under_roots in Hu as (r & Hr & Hu). destruct (H5 r Hr) as (d & b & -> & [_ Hmd] & _). exists d.
    assert (Forall plain d) by (by eapply manifest_plain). split_and!; [done..|]. by apply under_root_dir in Hu. }
  assert (Htrans : ∀ a b c, (b = a ∨ above a b) → above b c → above a c).
  { intros a b c [->|(x & r & ->)] (y & r' & ->); [by exists y, r' | exists x, (r ++ y :: r'); by rewrite <- app_assoc]. }
  split.
  - intros [Hp Hnest]. destruct (H1 p Hp) as (name & dir & body & [_ Hm] & Hk). destruct (preset_dir _ _ _ _ Hk) as [Hdir Hargv].
    pose proof (manifest_plain _ _ _ Hm) as Hpl.
    assert (Hno : ∀ d, show_dir d ∈ roots_for st p → Forall plain d → ¬ above d dir).
    { intros d Hin Hpd Ha. assert (nested st p = true); [|congruence]. apply (nested_spec st p dir); [done..|]. by exists d. }
    unfold roots_for in Hno. destruct (P_Argv p) as [|a argv]; [done |]. destruct Hargv as [Hac Hag]. destruct Hk as [[-> Hk]|[[-> Hk]|[-> (pm & sc & ws & Hpk & Hk)]]].
    + by eapply has_go.
    + rewrite (proj1 Hac eq_refl) in Hno. cbn in Hno. eapply has_cargo; [done..|]. intros d' b' Hm' Ha.
      destruct (Hcargo d' b' Hm') as (d & Hin & Hpd & Hd). apply (Hno d Hin Hpd). by eapply Htrans.
    + destruct (String.eqb_spec a "cargo") as [->|_]; [by destruct Hac as [_ ?]; naive_solver |].
      destruct (mem a ["go"; "gofmt"]) eqn:Em; [apply mem_true in Em; by destruct Hag as [_ ?]; naive_solver |].
      eapply has_node; [done..|]. intros d' b' Hm' Hw Ha.
      destruct (Hnode d') as (d & Hin & Hpd & Hd); [by apply (H6 d' b'), Hw; apply Hseen | by eapply manifest_plain |].
      apply (Hno d Hin Hpd). by eapply Htrans.
  - intros Hhas. revert Hroots. destruct Hhas as [dir body q Hm Hk|dir body q Hm Hk Htop|dir body pm sc ws q Hm Hpk Hk Htop]; intros Hroots.
    + split; [eapply H2; [by apply Hseen | done] |]. destruct (preset_dir "go.mod" dir body q) as [_ Hargv]; [by left |].
      unfold nested, roots_for. destruct (P_Argv q) as [|a argv]; [done |]. destruct Hargv as [Hac Hag]. destruct (String.eqb_spec a "cargo") as [->|_]; [by destruct Hac as [_ ?]; naive_solver |].
      assert (mem a ["go"; "gofmt"] = true) as -> by (by apply mem_true, Hag). done.
    + pose proof (manifest_plain _ _ _ Hm) as Hpl. destruct (preset_dir "Cargo.toml" dir body q) as [Hdir Hargv]; [by right; left |]. split.
      * destruct (Hcargo _ _ Hm) as (d & Hin & Hpd & Hd). destruct (H3 _ Hin) as (d2 & b2 & E & [_ Hm2] & Hps). apply show_dir_inj in E as <-; [|done | by eapply manifest_plain].
        destruct Hd as [->|Ha]; [by apply Hps | by destruct (Htop _ _ Hm2)].
      * apply not_true_iff_false. rewrite (nested_spec st q dir) by done. intros (d & Hin & Hpd & Ha). unfold roots_for in Hin.
        destruct (P_Argv q) as [|a argv]; [done |]. destruct Hargv as [Hac _]. rewrite (proj1 Hac eq_refl) in Hin. cbn in Hin.
        destruct (H3 _ Hin) as (d2 & b2 & E & [_ Hm2] & _). apply show_dir_inj in E as <-; [by destruct (Htop _ _ Hm2) | done | by eapply manifest_plain].
    + pose proof (manifest_plain _ _ _ Hm) as Hpl. destruct (preset_dir "package.json" dir body q) as [Hdir Hargv]; [right; right; naive_solver |].
      assert (Hroot : ∀ d, show_dir d ∈ fo_node st → Forall plain d → ¬ above d dir).
      { intros d Hin Hpd Ha. destruct (H5 _ Hin) as (d2 & b2 & E & [_ Hm2] & Hw & _). apply show_dir_inj in E as <-; [by destruct (Htop _ _ Hm2 Hw) | done | by eapply manifest_plain]. }
      split.
      * destruct (H7 dir body) as [Hu|Hps]; [by apply Hseen | | by eapply Hps].
        destruct (Hnode dir Hu Hpl) as (d & Hin & Hpd & [->|Ha]); [|by destruct (Hroot d Hin Hpd)].
        destruct (H5 _ Hin) as (d2 & b2 & E & [_ Hm2] & _ & Hps). apply show_dir_inj in E as <-; [|done | by eapply manifest_plain].
        assert (b2 = body) as -> by (destruct Hm as [Hm _], Hm2 as [Hm2 _]; congruence). by eapply Hps.
      * apply not_true_iff_false. rewrite (nested_spec st q dir) by done. intros (d & Hin & Hpd & Ha). unfold roots_for in Hin.
        destruct (P_Argv q) as [|a argv]; [done |]. destruct Hargv as [Hac Hag]. destruct (String.eqb_spec a "cargo") as [->|_]; [by destruct Hac as [_ ?]; naive_solver |].
        destruct (mem a ["go"; "gofmt"]); [set_solver |]. by destruct (Hroot d Hin Hpd).
Qed.
End exact.

(** C29: A repository without a configuration is verified by exactly the presets its
    manifests declare, whatever the order in which the walk comes to them: the
    commands of every Go module; those of every Cargo manifest with none above
    it; and the verifying scripts of every package with no workspace above it -
    of these, the ones the level asks for.  Manifests in directories the walk
    leaves out, and links, count for nothing. *)
Theorem DiscoverPresets_exact parse_toml unmarshal f root level config e place ps :
  (∀ p, f !! p ≠ None → Forall plain p) →
  Resolve f root ".agent/verify.toml" = Ok config → ReadFile f config = Err e → is_not_exist e = true →
  lstat_place f (comps_of (clean root)) = Ok place → lookup_node f place = Some NDir →
  DiscoverPresets parse_toml unmarshal f root level = Ok ps →
  ∀ p, p ∈ ps ↔ (Includes level (P_Kind p) = true ∨ level = Standard ∧ P_Kind p = KindLint) ∧
                has_preset unmarshal f place (base_name root) p.
Proof.
  intros Hnames HR HF He Hplace Hdir. unfold DiscoverPresets. rewrite HR. cbn [mbind result_bind]. rewrite HF, He.
  unfold discovered. rewrite Hplace. cbn [mbind result_bind]. rewrite Hdir. intros (st & Hst & H)%rbind_ok p.
  eapply (walk_inv unmarshal f place (base_name root) Hnames) in Hst; [|by intros ? | apply (inv_start unmarshal f place (base_name root))].
  rewrite <- (found_exact unmarshal f place (base_name root) Hnames st p Hst).
  destruct (List.filter _ _) as [|x out] eqn:Eo; [done |]. injection H as <-. unfold selectPresets. rewrite list_elem_of_filter, <- Eo.
  rewrite (list_elem_of_In (List.filter _ _)), filter_In, <- list_elem_of_In, negb_true_iff. done.
  exact Hnames.
Qed.

(** ** Witnesses *)

Definition demo_tree : fs := {[
  ["r"] := NDir; ["r"; "go.mod"] := NFile "module r"; ["r"; "package.json"] := NFile "root"; ["r"; "web"] := NDir;
  ["r"; "web"; "package.json"] := NFile "member"; ["r"; "vendor"] := NDir; ["r"; "vendor"; "Cargo.toml"] := NFile "" ]}.
Definition demo_packages (body : string) : result json :=
  if String.eqb body "root" then Ok (JObj [("workspaces", JArr [JStr "web"])])
  else Ok (JObj [("scripts", JObj [("test", JStr "vitest"); ("dev", JStr "vite")])]).
Definition demo_discovered : list Preset :=
  match DiscoverPresets (λ _, Err (errorf "toml")) demo_packages demo_tree "/r" Standard with Ok ps => ps | Err _ => [] end.

(** The repository's package tests are run by none of its presets: the workspace
    above them has no script of its own. *)
Lemma workspace_members_unverified :
  has_preset demo_packages (delete ["r"; "package.json"] demo_tree) ["r"] "r" (new_preset "web" "npm test" KindTest "" ["npm"; "run"; "test"]) ∧
  P_Name <$> demo_discovered = [".: go build"; ".: go vet"; ".: go test"; ".: gofmt"].
Proof.
  split; [|vm_compute; reflexivity].
  eapply (has_node _ _ _ _ ["web"]); [by split | reflexivity | apply list_elem_of_In; left; reflexivity |].
  intros dir body [Hf Hv] Hw (c & rest & E). destruct dir as [|d dir]; [by vm_compute in Hf |]. injection E as <- E. by destruct dir.
Qed.

Lemma DiscoverPresets_exact_witness :
  length demo_discovered = 4 ∧
  ∀ p, p ∈ demo_discovered ↔ (Includes Standard (P_Kind p) = true ∨ Standard = Standard ∧ P_Kind p = KindLint) ∧
    has_preset demo_packages demo_tree ["r"] "r" p.
Proof.
  split; [vm_compute; reflexivity |].
  apply (DiscoverPresets_exact (λ _, Err (errorf "toml")) demo_packages demo_tree "/r" Standard ["r"; ".agent"; "verify.toml"] ENOENT ["r"] demo_discovered).
  - assert (Hs : shape ["r"] demo_tree) by (apply shape_b_ok; vm_compute; reflexivity). apply (shape_names _ _ Hs).
  - vm_compute. reflexivity.
  - vm_compute. reflexivity.
  - reflexivity.
  - vm_compute. reflexivity.
  - vm_compute. reflexivity.
  - vm_compute. reflexivity.
Defined.

(** A module in a directory with a sensitive name: discovery offers commands
    there, and the validation every verification starts with refuses them. *)
Lemma discovered_sensitive :
  let f := {[ ["r"] := NDir; ["r"; "credentials"] := NDir; ["r"; "credentials"; "go.mod"] := NFile "module c" ]} in
  DiscoverPresets (λ _, Err (errorf "toml")) demo_packages f "/r" Low =
    Ok [new_preset "credentials" "go build" KindBuild "go_build" ["go"; "build"; "./..."]] ∧
  Preset_Validate f "/r" (new_preset "credentials" "go build" KindBuild "go_build" ["go"; "build"; "./..."]) =
    Err (errorf "sensitive preset directory").
Proof. vm_compute. done. Qed.
