(* ===== verification/Contract.v ===== *)
(** The completion contract: [Accept] of [src/internal/task/runner.go] and the
    ranking of candidates of [src/internal/task/candidates.go]. *)
From S2P Require Import Prelude GoStrings GoPath Policy Worktree Recipe.

Open Scope string_scope.
Open Scope list_scope.
Open Scope nat_scope.

(** [task/runner.go:921-929 Effect] *)
Record Effect := mk_effect { Made : bool; Expected : bool }.

(** [task/runner.go:1059-1062 worse] *)
Definition rank (s : Status) : nat :=
  match s with Pass => 0 | Skipped => 1 | Error => 2 | Fail => 3 end.
Definition worse (a b : Status) : bool := rank b <? rank a.

(** [task/runner.go:970-977 Accept] the entry of [byKind] for a kind: the first
    of the worst results. *)
Definition keep_worst (k : Kind) (acc : option Result) (r : Result) : option Result :=
  if decide (R_Kind r = k) then
    match acc with
    | None => Some r
    | Some prev => if worse (R_Status r) (R_Status prev) then Some r else acc
    end
  else acc.
Definition worst (k : Kind) (results : list Result) : option Result :=
  foldl (keep_worst k) None results.

(** [task/runner.go:1064-1069 shortHash] *)
Definition shortHash (h : string) : string := if 12 <? String.length h then take_str 12 h else h.

(** The evidence is about another candidate. *)
Definition stale (candidate : string) (r : Result) : bool :=
  negb (String.eqb candidate "") && negb (String.eqb (R_Candidate r) "")
  && negb (String.eqb (R_Candidate r) candidate).

(** [task/runner.go:991-1014 Accept] the verdict on one required kind. *)
Definition judge_required (l : Level) (candidate : string) (results : list Result) (kind : Kind) : bool * string :=
  match worst kind results with
  | None => (false, show_level l +:+ " verification requires " +:+ show_kind kind +:+ ", which did not run")
  | Some res =>
      match R_Status res with
      | Skipped => (false, show_kind kind +:+ " was skipped: " +:+ Headline (R_Summary res))
      | Error => (false, show_kind kind +:+ " could not run: " +:+ R_Err res)
      | Fail => (false, show_kind kind +:+ " failed: " +:+ Headline (R_Summary res))
      | Pass =>
          if stale candidate res
          then (false, show_kind kind +:+ " passed, but against an older candidate (" +:+
                       shortHash (R_Candidate res) +:+ "); the worktree has changed since")
          else (true, show_kind kind +:+ " passed: " +:+ Headline (R_Summary res))
      end
  end.

(** [task/runner.go:1019-1029 Accept] the kinds that ran without being required. *)
Definition extra_kinds (l : Level) (results : list Result) : list Kind :=
  stable_sort (λ a b, str_ltb (show_kind a) (show_kind b))
    (filter (λ k, k ∉ Required l) (dedup (R_Kind <$> results))).

(** [task/runner.go:1030-1042 Accept] the reason an extra kind disqualifies, if it does. *)
Definition judge_extra (candidate : string) (results : list Result) (kind : Kind) : option string :=
  match worst kind results with
  | Some res =>
      if bool_decide (R_Status res = Fail) && negb (stale candidate res)
      then Some (show_kind kind +:+ " failed: " +:+ Headline (R_Summary res)) else None
  | None => None
  end.

(** [task/runner.go:967-1056 Accept] *)
Definition Accept (l : Level) (results : list Result) (candidate : string)
    (outOfScope : list string) (effect : Effect) : bool * list string :=
  let idle := Expected effect && negb (Made effect) in
  let required := judge_required l candidate results <$> Required l in
  let extra := omap (judge_extra candidate results) (extra_kinds l results) in
  let sorted := sort_strings outOfScope in
  (negb idle && forallb fst required && bool_decide (extra = []) && bool_decide (outOfScope = []),
   (if idle then ["the task changed nothing: every check below passed against the unmodified worktree, so they describe the baseline rather than the work"] else [])
   ++ required.*2 ++ extra
   ++ match outOfScope with
      | [] => []
      | _ => [pretty (length outOfScope) +:+ " file(s) changed outside the task's declared scope: " +:+
              join ", " (take 5 sorted)]
      end).

(** ** The worst result of a kind *)

Definition of_kind (k : Kind) (results : list Result) : list Result :=
  filter (λ r, R_Kind r = k) results.

(** The first result of the highest rank. *)
Definition first_worst (r : Result) (l : list Result) : Prop :=
  ∃ l1 l2, l = l1 ++ r :: l2 ∧
    (∀ x, x ∈ l1 → rank (R_Status x) < rank (R_Status r)) ∧
    (∀ x, x ∈ l2 → rank (R_Status x) ≤ rank (R_Status r)).

Lemma worst_spec k results :
  match worst k results with
  | None => of_kind k results = []
  | Some r => first_worst r (of_kind k results)
  end.
Proof.
  unfold worst. induction results as [|x l IH] using rev_ind; [done |].
  rewrite foldl_app. cbn [foldl]. unfold of_kind in *. rewrite filter_app.
  unfold keep_worst at 1. case_decide as Hk.
  - rewrite (filter_cons_True _ x) by done. rewrite filter_nil.
    destruct (foldl _ None l) as [r|].
    + destruct IH as (l1 & l2 & -> & H1 & H2). unfold worse. destruct (Nat.ltb_spec (rank (R_Status r)) (rank (R_Status x))).
      * exists (l1 ++ r :: l2), []. split_and!; [done | | by intros ? ?%not_elem_of_nil].
        intros y [Hy|[->|Hy]%elem_of_cons]%elem_of_app; [specialize (H1 y Hy) | | specialize (H2 y Hy)]; lia.
      * exists l1, (l2 ++ [x]). split_and!; [by rewrite <- app_assoc | done |].
        intros y [Hy|Hy%list_elem_of_singleton]%elem_of_app; [auto | subst y; lia].
    + rewrite IH. exists [], []. split_and!; [done | | ]; by intros ? ?%not_elem_of_nil.
  - rewrite filter_cons_False, filter_nil, app_nil_r by done. apply IH.
Qed.

Lemma elem_of_of_kind r k results : r ∈ of_kind k results ↔ r ∈ results ∧ R_Kind r = k.
Proof. unfold of_kind. rewrite list_elem_of_filter. tauto. Qed.

Lemma worst_elem k results r : worst k results = Some r → r ∈ results ∧ R_Kind r = k.
Proof.
  intros H. pose proof (worst_spec k results) as Hw. rewrite H in Hw.
  destruct Hw as (l1 & l2 & Heq & _). apply elem_of_of_kind. rewrite Heq. set_solver.
Qed.

Lemma worst_max k results r x :
  worst k results = Some r → x ∈ results → R_Kind x = k → rank (R_Status x) ≤ rank (R_Status r).
Proof.
  intros H Hx Hk. pose proof (worst_spec k results) as Hw. rewrite H in Hw.
  destruct Hw as (l1 & l2 & Heq & H1 & H2).
  assert (x ∈ of_kind k results) as Hin by (by apply elem_of_of_kind).
  rewrite Heq in Hin. apply elem_of_app in Hin as [Hin|[->|Hin]%elem_of_cons]; [|done|auto].
  specialize (H1 _ Hin). lia.
Qed.

Lemma worst_none k results : worst k results = None ↔ ∀ r, r ∈ results → R_Kind r ≠ k.
Proof.
  pose proof (worst_spec k results) as Hw. destruct (worst k results) as [r|] eqn:E.
  - split; [done |]. intros H. apply worst_elem in E as [? ?]. by destruct (H r).
  - split; [|done]. intros _ r Hr Hk. assert (r ∈ of_kind k results) as Hin by (by apply elem_of_of_kind).
    rewrite Hw in Hin. by apply not_elem_of_nil in Hin.
Qed.

(** ** The contract *)

Lemma elem_of_extra_kinds l results k :
  k ∈ extra_kinds l results ↔ k ∉ Required l ∧ ∃ r, r ∈ results ∧ R_Kind r = k.
Proof.
  unfold extra_kinds. rewrite elem_of_stable_sort, list_elem_of_filter, elem_of_dedup, list_elem_of_fmap.
  naive_solver.
Qed.

Lemma judge_required_ok l cand results k :
  (judge_required l cand results k).1 = true ↔
  ∃ r, worst k results = Some r ∧ R_Status r = Pass ∧ stale cand r = false.
Proof.
  unfold judge_required. destruct (worst k results) as [r|]; [|naive_solver].
  destruct (R_Status r) eqn:E; [destruct (stale cand r) eqn:Es | ..]; cbn;
    (split; [intros; by exists r || done | intros (r' & [= <-] & ? & ?); congruence]).
Qed.

Lemma judge_extra_none cand results k :
  judge_extra cand results k = None ↔
  ∀ r, worst k results = Some r → R_Status r = Fail → stale cand r = true.
Proof.
  unfold judge_extra. destruct (worst k results) as [r|]; [|naive_solver].
  destruct (decide (R_Status r = Fail)) as [Hf|Hf].
  - rewrite bool_decide_true by done. destruct (stale cand r) eqn:Es; cbn.
    + split; [by intros _ r' [= <-] _ | done].
    + split; [done | intros H; specialize (H r eq_refl Hf); congruence].
  - rewrite bool_decide_false by done. cbn. split; [intros _ r' [= <-]; done | done].
Qed.

Lemma Accept_spec l results cand oos eff :
  (Accept l results cand oos eff).1 = true ↔
  (Expected eff = true → Made eff = true) ∧ oos = [] ∧
  (∀ k, k ∈ Required l → ∃ r, worst k results = Some r ∧ R_Status r = Pass ∧ stale cand r = false) ∧
  (∀ k r, k ∉ Required l → worst k results = Some r → R_Status r = Fail → stale cand r = true).
Proof.
  unfold Accept. cbn [fst]. rewrite !andb_true_iff, !bool_decide_eq_true.
  rewrite omap_nil, forallb_forall.
  assert ((∀ x, In x (judge_required l cand results <$> Required l) → x.1 = true) ↔
          ∀ k, k ∈ Required l → ∃ r, worst k results = Some r ∧ R_Status r = Pass ∧ stale cand r = false) as ->.
  { setoid_rewrite <- judge_required_ok. split.
    - intros H k Hk. apply H, list_elem_of_In, list_elem_of_fmap_2; done.
    - intros H x Hx%list_elem_of_In. apply list_elem_of_fmap in Hx as (k & -> & Hk). auto. }
  assert ((∀ k, k ∈ extra_kinds l results → judge_extra cand results k = None) ↔
          ∀ k r, k ∉ Required l → worst k results = Some r → R_Status r = Fail → stale cand r = true) as ->.
  { setoid_rewrite elem_of_extra_kinds. setoid_rewrite judge_extra_none. split; [|naive_solver].
    intros H k r Hk Hw. eapply H; [|done]. split; [done |]. apply worst_elem in Hw. naive_solver. }
  destruct (Expected eff), (Made eff); cbn; naive_solver.
Qed.

(** C30: The contract accepts exactly when a task expected to change the
    worktree changed it, nothing changed out of scope, every kind the level
    requires has evidence and its worst result is a pass that is not about
    another candidate, and no other kind that ran has as its worst result a
    failure about this candidate.  Nothing else can make it accept or refuse. *)
Theorem Accept_exact l results cand oos eff :
  (Accept l results cand oos eff).1 = true ↔
  (Expected eff = true → Made eff = true) ∧ oos = [] ∧
  (∀ k, k ∈ Required l → ∃ r, first_worst r (of_kind k results) ∧ R_Status r = Pass ∧ stale cand r = false) ∧
  (∀ k r, k ∉ Required l → first_worst r (of_kind k results) → R_Status r = Fail → stale cand r = true).
Proof.
  assert (Huniq : ∀ k r, first_worst r (of_kind k results) ↔ worst k results = Some r).
  { intros k r. split.
    - intros (l1 & l2 & Heq & H1 & H2). pose proof (worst_spec k results) as Hw.
      destruct (worst k results) as [r'|]; [|rewrite Heq in Hw; by destruct l1].
      destruct Hw as (m1 & m2 & Heq' & H1' & H2'). f_equal. rewrite Heq in Heq'.
      assert (length l1 = length m1) as Hlen.
      { destruct (lt_eq_lt_dec (length l1) (length m1)) as [[Hlt|?]|Hlt]; [exfalso | done | exfalso].
        - assert (m1 !! length l1 = Some r) as Hm.
          { rewrite <- (lookup_app_l m1 (r' :: m2)) by done. rewrite <- Heq'. by rewrite list_lookup_middle. }
          pose proof (H1' _ (list_elem_of_lookup_2 _ _ _ Hm)) as Hr.
          assert (r' ∈ l1 ++ r :: l2) as Hin by (rewrite Heq'; set_solver).
          apply elem_of_app in Hin as [Hin|[->|Hin]%elem_of_cons]; [apply H1 in Hin | | apply H2 in Hin]; lia.
        - assert (l1 !! length m1 = Some r') as Hm.
          { rewrite <- (lookup_app_l l1 (r :: l2)) by done. rewrite Heq'. by rewrite list_lookup_middle. }
          pose proof (H1 _ (list_elem_of_lookup_2 _ _ _ Hm)) as Hr.
          assert (r ∈ m1 ++ r' :: m2) as Hin by (rewrite <- Heq'; set_solver).
          apply elem_of_app in Hin as [Hin|[->|Hin]%elem_of_cons]; [apply H1' in Hin | | apply H2' in Hin]; lia. }
      apply app_inj_1 in Heq' as [_ ?]; [congruence | done].
    - intros H. pose proof (worst_spec k results) as Hw. by rewrite H in Hw. }
  rewrite Accept_spec. setoid_rewrite Huniq. done.
Qed.

Lemma stale_false cand r :
  stale cand r = false ↔ cand = "" ∨ R_Candidate r = "" ∨ R_Candidate r = cand.
Proof.
  unfold stale. destruct (String.eqb_spec cand ""), (String.eqb_spec (R_Candidate r) ""),
    (String.eqb_spec (R_Candidate r) cand); cbn; naive_solver.
Qed.

(** On the evidence one verification run produces, where every result is
    about the candidate being judged, an accepted candidate has for every
    required kind at least one result and only passes, and no result of any
    kind is a failure: no failing check that ran can be outvoted, skipped over
    or reported as stale. *)
Theorem Accept_one_run l results cand oos eff :
  (∀ r, r ∈ results → R_Candidate r = cand) →
  (Accept l results cand oos eff).1 = true ↔
  (Expected eff = true → Made eff = true) ∧ oos = [] ∧
  (∀ k, k ∈ Required l → (∃ r, r ∈ results ∧ R_Kind r = k) ∧
                         (∀ r, r ∈ results → R_Kind r = k → R_Status r = Pass)) ∧
  (∀ r, r ∈ results → R_Status r ≠ Fail).
Proof.
  intros Hc. rewrite Accept_spec.
  assert (Hfresh : ∀ r, r ∈ results → stale cand r = false).
  { intros r Hr. apply stale_false. auto. }
  split; intros (He & Ho & Hreq & Hex); split_and!; try done.
  - intros k Hk. destruct (Hreq k Hk) as (r & Hw & Hp & _). split.
    + exists r. by apply worst_elem.
    + intros x Hx Hkx. pose proof (worst_max _ _ _ _ Hw Hx Hkx) as Hle.
      rewrite Hp in Hle. cbn in Hle. destruct (R_Status x); cbn in Hle; (done || lia).
  - intros r Hr Hf. destruct (worst (R_Kind r) results) as [w|] eqn:Ew.
    2:{ apply (proj1 (worst_none _ _) Ew r Hr). done. }
    pose proof (worst_max _ _ _ _ Ew Hr eq_refl) as Hle. rewrite Hf in Hle.
    assert (R_Status w = Fail) as Hwf by (destruct (R_Status w); cbn in Hle; (done || lia)).
    destruct (worst_elem _ _ _ Ew) as [Hin _].
    destruct (decide (R_Kind r ∈ Required l)) as [Hk|Hk].
    + destruct (Hreq _ Hk) as (r' & Hw' & Hp & _). congruence.
    + specialize (Hex _ _ Hk Ew Hwf). rewrite Hfresh in Hex; done.
  - intros k Hk. destruct (Hreq k Hk) as [(r & Hr & Hkr) Hall].
    destruct (worst k results) as [w|] eqn:Ew; [|by apply (proj1 (worst_none _ _) Ew r Hr) in Hkr].
    destruct (worst_elem _ _ _ Ew) as [Hin Hkw]. exists w. split_and!; auto.
  - intros k r Hk Hw Hf. apply worst_elem in Hw as [Hin _]. by apply Hex in Hf.
Qed.

Definition demo_result (k : Kind) (s : Status) : Result :=
  mk_result (show_kind k) k s (headline_only "h") 0 0 "c1" "" "".

Lemma Accept_one_run_witness :
  (Accept Low [demo_result KindBuild Pass; demo_result KindLint Fail] "c1" [] (mk_effect true true)).1 = false ∧
  (Accept Low [demo_result KindBuild Pass; demo_result KindLint Pass] "c1" [] (mk_effect true true)).1 = true.
Proof.
  split.
  - apply not_true_iff_false. rewrite Accept_one_run.
    + intros (_ & _ & _ & H). apply (H (demo_result KindLint Fail)); [set_solver | reflexivity].
    + intros r Hr. repeat (apply elem_of_cons in Hr as [->|Hr]; [reflexivity |]). by apply not_elem_of_nil in Hr.
  - apply Accept_one_run.
    + intros r Hr. repeat (apply elem_of_cons in Hr as [->|Hr]; [reflexivity |]). by apply not_elem_of_nil in Hr.
    + split_and!; [done | done | |].
      * intros k Hk. apply list_elem_of_singleton in Hk as ->. split.
        -- exists (demo_result KindBuild Pass). split; [by left | reflexivity].
        -- intros r Hr. repeat (apply elem_of_cons in Hr as [->|Hr]; [done |]). by apply not_elem_of_nil in Hr.
      * intros r Hr. repeat (apply elem_of_cons in Hr as [->|Hr]; [done |]). by apply not_elem_of_nil in Hr.
Defined.

(** ** Ranking *)

(** [task/candidates.go:25-39 Candidate] *)
Record Candidate := mk_candidate {
  Label : string; Manifest : string; C_Results : list Result; C_OutOfScope : list string;
  C_Branch : string; DiffBytes : Z }.

(** [task/candidates.go:42-51 Ranking] *)
Record Ranking := mk_ranking { Best : option Candidate; Reasons : list string; Tied : bool }.

(** [task/candidates.go:154-162 passingKinds] *)
Definition passingKinds (results : list Result) : nat :=
  length (dedup (R_Kind <$> filter (λ r, R_Status r = Pass) results)).

(** [task/candidates.go:164-169 firstReason] *)
Definition firstReason (reasons : list string) : string :=
  match reasons with [] => "no reason recorded" | r :: _ => r end.

(** [task/candidates.go:73-78 Rank] *)
Record scored := mk_scored { sc_c : Candidate; acceptable : bool; passing : nat; why : list string }.

(** [task/candidates.go:80-91 Rank] *)
Definition score (l : Level) (c : Candidate) : scored :=
  let '(ok, reasons) := Accept l (C_Results c) (Manifest c) (C_OutOfScope c) (mk_effect true true) in
  mk_scored c ok (passingKinds (C_Results c)) reasons.

(** [task/candidates.go:111-123 Rank] the order of the viable candidates. *)
Definition better (a b : scored) : bool :=
  let na := length (C_OutOfScope (sc_c a)) in
  let nb := length (C_OutOfScope (sc_c b)) in
  if negb (na =? nb) then na <? nb
  else if negb (passing a =? passing b) then passing b <? passing a
  else Z.ltb (DiffBytes (sc_c a)) (DiffBytes (sc_c b)).

(** [task/candidates.go:66-152 Rank] *)
Definition Rank (l : Level) (candidates : list Candidate) : Ranking :=
  match candidates with
  | [] => mk_ranking None ["no candidates were produced"] false
  | _ =>
  let all := score l <$> candidates in
  let viable := stable_sort better (filter (λ s, acceptable s = true) all) in
  let scope s := length (C_OutOfScope (sc_c s)) in
  match viable with
  | [] =>
      mk_ranking None
        (("none of the " +:+ pretty (length all) +:+ " candidate(s) satisfied the completion contract")
         :: (s ← all; (λ r, Label (sc_c s) +:+ ": " +:+ r) <$> why s)) false
  | best :: more =>
      let first := Label (sc_c best) +:+ " chosen: " +:+ pretty (passing best) +:+ " passing verification kind(s), "
        +:+ pretty (scope best) +:+ " out-of-scope change(s), " +:+ pretty (DiffBytes (sc_c best)) +:+ " bytes of diff" in
      let '(tied, second) :=
        match more with
        | [] => (false, [])
        | second :: _ =>
            if (scope second =? scope best) && (passing second =? passing best)
            then (true, [Label (sc_c second) +:+ " produced the same evidence; the smaller diff decided. Equal evidence usually means the objective admitted more than one reading, which is worth knowing about the request rather than the code."])
            else (false, [Label (sc_c second) +:+ " was rejected: " +:+ pretty (passing second) +:+
                          " passing kind(s), " +:+ pretty (scope second) +:+ " out-of-scope change(s)"])
        end in
      mk_ranking (Some (sc_c best))
        (first :: second ++
         ((λ s, Label (sc_c s) +:+ " did not satisfy the contract: " +:+ firstReason (why s))
            <$> filter (λ s, acceptable s = false) all)) tied
  end end.

Lemma better_asym a b : better a b = true → better b a = false.
Proof.
  unfold better. rewrite (Nat.eqb_sym (length (C_OutOfScope (sc_c b)))), (Nat.eqb_sym (passing b)).
  destruct (Nat.eqb_spec (length (C_OutOfScope (sc_c a))) (length (C_OutOfScope (sc_c b)))); cbn [negb].
  - destruct (Nat.eqb_spec (passing a) (passing b)); cbn [negb].
    + rewrite Z.ltb_lt, Z.ltb_ge. lia.
    + rewrite Nat.ltb_lt, Nat.ltb_ge. lia.
  - rewrite Nat.ltb_lt, Nat.ltb_ge. lia.
Qed.

Lemma better_false a b :
  better a b = false ↔
  length (C_OutOfScope (sc_c b)) < length (C_OutOfScope (sc_c a)) ∨
  (length (C_OutOfScope (sc_c b)) = length (C_OutOfScope (sc_c a)) ∧
   (passing a < passing b ∨
    (passing a = passing b ∧ (DiffBytes (sc_c b) ≤ DiffBytes (sc_c a))%Z))).
Proof.
  unfold better.
  destruct (Nat.eqb_spec (length (C_OutOfScope (sc_c a))) (length (C_OutOfScope (sc_c b)))); cbn [negb].
  - destruct (Nat.eqb_spec (passing a) (passing b)); cbn [negb]; [rewrite Z.ltb_ge | rewrite Nat.ltb_ge]; lia.
  - rewrite Nat.ltb_ge. lia.
Qed.

Lemma better_trans a b c : not_less better a b → not_less better b c → not_less better a c.
Proof. unfold not_less. rewrite !better_false. lia. Qed.

Lemma Accept_in_scope l results cand oos eff : (Accept l results cand oos eff).1 = true → oos = [].
Proof. rewrite Accept_spec. naive_solver. Qed.

Lemma score_fields l c :
  sc_c (score l c) = c ∧ passing (score l c) = passingKinds (C_Results c) ∧
  acceptable (score l c) = (Accept l (C_Results c) (Manifest c) (C_OutOfScope c) (mk_effect true true)).1.
Proof. unfold score. by destruct (Accept _ _ _ _ _). Qed.

(** Ranking chooses on evidence alone and never lowers the bar: the chosen
    candidate is one of those given and satisfies the completion contract; no
    other acceptable candidate has more passing kinds, nor as many with a
    smaller diff; and a candidate is chosen whenever one is acceptable. *)
Theorem Rank_best l candidates :
  let ok c := (Accept l (C_Results c) (Manifest c) (C_OutOfScope c) (mk_effect true true)).1 = true in
  match Best (Rank l candidates) with
  | Some c => c ∈ candidates ∧ ok c ∧
      ∀ c', c' ∈ candidates → ok c' →
        passingKinds (C_Results c') < passingKinds (C_Results c) ∨
        (passingKinds (C_Results c') = passingKinds (C_Results c) ∧ (DiffBytes c ≤ DiffBytes c')%Z)
  | None => ∀ c, c ∈ candidates → ¬ ok c
  end.
Proof.
  intros ok. unfold Rank. destruct candidates as [|c0 cs] eqn:Ecs; [by intros ? ?%not_elem_of_nil |].
  rewrite <- Ecs. clear Ecs c0 cs. cbv zeta.
  set (viable := filter (λ s, acceptable s = true) (score l <$> candidates)).
  assert (Hin : ∀ s, s ∈ viable ↔ ∃ c, s = score l c ∧ c ∈ candidates ∧ ok c).
  { intros s. unfold viable. rewrite list_elem_of_filter, list_elem_of_fmap. split.
    - intros [Ha (c & -> & Hc)]. exists c. split_and!; [done | done |]. unfold ok.
      by rewrite <- (proj2 (proj2 (score_fields l c))).
    - intros (c & -> & Hc & Hok). split; [|by exists c]. by rewrite (proj2 (proj2 (score_fields l c))). }
  destruct (stable_sort better viable) as [|best more] eqn:Es.
  - cbn. intros c Hc Hok. assert (score l c ∈ stable_sort better viable) as H.
    { rewrite elem_of_stable_sort. apply Hin. by exists c. }
    rewrite Es in H. by apply not_elem_of_nil in H.
  - assert (best ∈ viable) as Hb by (rewrite <- (elem_of_stable_sort better), Es; by left).
    apply Hin in Hb as (c & -> & Hc & Hok).
    destruct (match more with [] => _ | _ :: _ => _ end) as [tied second]. cbn [Best].
    destruct (score_fields l c) as (-> & _ & _). split_and!; [done | done |].
    intros c' Hc' Hok'. assert (score l c' ∈ viable) as Hv by (apply Hin; by exists c').
    pose proof (stable_sort_head better better_asym better_trans (score l c) viable (score l c')) as Hh.
    rewrite Es in Hh. specialize (Hh eq_refl Hv). apply better_false in Hh.
    destruct (score_fields l c) as (E1 & E2 & _), (score_fields l c') as (E1' & E2' & _).
    rewrite E1, E2, E1', E2' in Hh. apply Accept_in_scope in Hok, Hok'.
    rewrite Hok, Hok' in Hh. cbn in Hh. lia.
Qed.
