(* ===== verification/Graph.v ===== *)
(** The code graph: [src/internal/graph].  Evidence, edges and nodes, the
    bounded traversal over the edge table, and the impact report built from it. *)
From S2P Require Import Prelude GoStrings Policy.

Open Scope string_scope.
Open Scope list_scope.
Open Scope nat_scope.

(** ** Data *)

(** [graph/types.go:21-34 Evidence]; [EvOther] is any other string. *)
Inductive Evidence := Resolved | Declared | Inferred | Observed | Unknown | EvOther (s : string).

#[export] Instance evidence_eq_dec : EqDecision Evidence. Proof. solve_decision. Defined.

Definition show_evidence (e : Evidence) : string :=
  match e with
  | Resolved => "resolved" | Declared => "declared" | Inferred => "inferred"
  | Observed => "observed" | Unknown => "unknown" | EvOther s => s
  end.

(** [graph/types.go:37-37 AllEvidence] *)
Definition AllEvidence : list Evidence := [Resolved; Declared; Inferred; Observed; Unknown].

(** [graph/types.go:40-47 Evidence.Valid] *)
Definition Valid (e : Evidence) : bool := mem e AllEvidence.

(** [graph/types.go:52-52 Evidence.Certain] *)
Definition Certain (e : Evidence) : bool := bool_decide (e = Resolved ∨ e = Declared).

(** [graph/types.go:109-138 EdgeKind] the kinds the verdict table names; a kind
    is a string. *)
Definition EdgeKind := string.
Definition EdgeCalls := "calls".
Definition EdgeUsesType := "uses_type".
Definition EdgeReferences := "references".
Definition EdgeImplements := "implements".
Definition EdgeImports := "imports".
Definition EdgeExtends := "extends".
Definition EdgeEmbeds := "embeds".
Definition EdgeReadsConfig := "reads_config".
Definition EdgeReturns := "returns".
Definition EdgeAccepts := "accepts".
Definition EdgeTests := "tests".
Definition EdgeReadsSchema := "reads_schema".
Definition EdgeWritesSchema := "writes_schema".
Definition EdgeDeploys := "deploys".
Definition EdgeProvisions := "provisions".
Definition EdgeRoutesTo := "routes_to".
Definition EdgeHandles := "handles".

(** [graph/types.go:141-157 Node] *)
Record Node := mk_full_node {
  N_ID : Z; N_Workspace : string; N_Repository : string; N_Worktree : string; N_Kind : string; N_Name : string;
  N_FQN : string; N_FileID : Z; N_Path : string; N_StartLine : Z; N_EndLine : Z; N_Signature : string;
  N_Visibility : string; N_ContentHash : string; N_Attrs : string }.
(** A node with nothing but its identity and its place. *)
Definition mk_node (id : Z) (ws repo kind name fqn path : string) : Node :=
  mk_full_node id ws repo "" kind name fqn 0 path 0 0 "" "" "" "".

(** [graph/types.go:160-170 Edge] *)
Record Edge := mk_edge {
  E_ID : Z; E_Workspace : string; Src : Z; Dst : Z; E_Kind : EdgeKind; E_Evidence : Evidence; Source : string }.

#[export] Instance node_eq_dec : EqDecision Node. Proof. solve_decision. Defined.
#[export] Instance edge_eq_dec : EqDecision Edge. Proof. solve_decision. Defined.

(** [graph/types.go:175-186 Edge.Validate] *)
Definition Edge_Validate (e : Edge) : result unit :=
  if Z.eqb (Src e) 0 || Z.eqb (Dst e) 0
  then Err (errorf ("graph: edge " +:+ E_Kind e +:+ " has an unset endpoint"))
  else if negb (Valid (E_Evidence e))
  then Err (errorf ("graph: edge " +:+ E_Kind e +:+ " carries invalid evidence " +:+ quoted (show_evidence (E_Evidence e))))
  else if String.eqb (Source e) ""
  then Err (errorf ("graph: edge " +:+ E_Kind e +:+ " from " +:+ pretty (Src e) +:+ " to " +:+ pretty (Dst e) +:+ " has no source analyzer"))
  else Ok tt.

(** [graph/impact.go:12-31 ChangeKind] *)
Inductive ChangeKind :=
| ChangeSignature | ChangeBehaviour | ChangeRemove | ChangeRename
| ChangeAddField | ChangeSchema | ChangeConfig | ChangeRoute
| ChangeOther (s : string).

(** [graph/impact.go:34-47 Verdict] *)
Inductive Verdict := Breaking | Compiles | Compatible | Undetermined.

#[export] Instance change_eq_dec : EqDecision ChangeKind. Proof. solve_decision. Defined.
#[export] Instance verdict_eq_dec : EqDecision Verdict. Proof. solve_decision. Defined.

Definition show_change (k : ChangeKind) : string :=
  match k with
  | ChangeSignature => "signature" | ChangeBehaviour => "behaviour" | ChangeRemove => "remove"
  | ChangeRename => "rename" | ChangeAddField => "add_field" | ChangeSchema => "schema"
  | ChangeConfig => "config" | ChangeRoute => "route" | ChangeOther s => s
  end.

(** [graph/impact.go:211-214 ChangeKinds] *)
Definition ChangeKinds : list ChangeKind :=
  [ChangeSignature; ChangeBehaviour; ChangeRemove; ChangeRename;
   ChangeAddField; ChangeSchema; ChangeConfig; ChangeRoute].

(** [graph/impact.go:217-224 ParseChangeKind] *)
Definition ParseChangeKind (s : string) : result ChangeKind :=
  match find (λ k, String.eqb (show_change k) s) ChangeKinds with
  | Some k => Ok k
  | None => Err (errorf ("graph: unknown change kind " +:+ quoted s))
  end.

(** [graph/impact.go:50-58 Consumer] *)
Record Consumer := mk_consumer {
  Co_Node : Node; Co_Depth : nat; Co_Via : EdgeKind; Co_Evidence : Evidence;
  Co_Verdict : Verdict; Migration : string }.

(** [graph/impact.go:62-74 Impact]; a missing count is zero. *)
Record Impact := mk_impact {
  Changed : list Node; I_Kind : ChangeKind; Consumers : list Consumer;
  I_Counts : Verdict → nat; I_Truncated : bool; Caveat : string }.

(** [graph/types.go:219-228 Reached] *)
Record Reached := mk_reached { Re_Node : Node; Depth : nat; Via : EdgeKind; Re_Evidence : Evidence }.

(** [graph/impact.go:77-78 ImpactCaveat] *)
Definition ImpactCaveat : string :=
  "A missing edge means 'not discovered', not 'does not exist'. Consumers reached by inferred or unknown evidence are listed and treated as present.".

(** ** The verdict table *)

(** [graph/impact.go:82-151 verdictFor] *)
Definition verdictFor (change : ChangeKind) (via : EdgeKind) (ev : Evidence) : Verdict * string :=
  if negb (Certain ev)
  then (Undetermined, "verify manually: relationship evidence is " +:+ show_evidence ev)
  else
  match change with
  | ChangeRemove => (Breaking, "remove or redirect this reference before deleting the definition")
  | ChangeRename =>
      if mem via [EdgeCalls; EdgeUsesType; EdgeReferences; EdgeImplements; EdgeImports; EdgeExtends; EdgeEmbeds]
      then (Breaking, "update the reference to the new name")
      else if mem via [EdgeReadsConfig]
      then (Breaking, "update the configuration key and every deployment that sets it")
      else (Compiles, "no source change expected; re-run this consumer's tests")
  | ChangeSignature =>
      if mem via [EdgeCalls; EdgeReturns; EdgeAccepts] then (Breaking, "update the call site to the new signature")
      else if mem via [EdgeImplements]
      then (Breaking, "update the implementation to satisfy the new interface method set")
      else if mem via [EdgeTests] then (Breaking, "update the test to the new signature")
      else (Compiles, "re-run this consumer's tests")
  | ChangeAddField =>
      if mem via [EdgeImplements] then (Breaking, "implement the new interface member")
      else if mem via [EdgeUsesType]
      then (Compiles, "check for exhaustive switches and struct literals without field names")
      else (Compatible, "")
  | ChangeBehaviour =>
      if mem via [EdgeTests] then (Breaking, "the test encodes the old behaviour; update or confirm it")
      else (Compiles, "re-run this consumer's tests: behaviour changed, the signature did not")
  | ChangeSchema =>
      if mem via [EdgeReadsSchema; EdgeWritesSchema]
      then (Breaking, "write a migration and update the queries that touch this object")
      else if mem via [EdgeTests] then (Breaking, "update fixtures and golden data")
      else (Compiles, "re-run this consumer's tests")
  | ChangeConfig =>
      if mem via [EdgeReadsConfig] then (Breaking, "update the key here and in every deployment manifest that sets it")
      else if mem via [EdgeDeploys; EdgeProvisions] then (Breaking, "update the deployment or infrastructure definition")
      else (Compiles, "")
  | ChangeRoute =>
      if mem via [EdgeRoutesTo; EdgeHandles] then (Breaking, "update the handler registration")
      else if mem via [EdgeReferences] then (Breaking, "update the client call site and any generated client")
      else if mem via [EdgeTests] then (Breaking, "update the route under test")
      else (Compiles, "")
  | ChangeOther _ => (Undetermined, "unclassified change kind")
  end.

(** [graph/impact.go:172-180 buildImpact] one consumer. *)
Definition consumer_of (kind : ChangeKind) (r : Reached) : Consumer :=
  let '(v, migration) := verdictFor kind (Via r) (Re_Evidence r) in
  mk_consumer (Re_Node r) (Depth r) (Via r) (Re_Evidence r) v migration.

(** [graph/impact.go:185-198 buildImpact] the order. *)
Definition verdict_order (v : Verdict) : nat :=
  match v with Breaking => 0 | Undetermined => 1 | Compiles => 2 | Compatible => 3 end.
Definition path_less (a b : Consumer) : bool :=
  if negb (String.eqb (N_Path (Co_Node a)) (N_Path (Co_Node b)))
  then str_ltb (N_Path (Co_Node a)) (N_Path (Co_Node b))
  else str_ltb (N_FQN (Co_Node a)) (N_FQN (Co_Node b)).
Definition depth_less (a b : Consumer) : bool :=
  if negb (Co_Depth a =? Co_Depth b) then Co_Depth a <? Co_Depth b else path_less a b.
Definition consumer_less (a b : Consumer) : bool :=
  let va := verdict_order (Co_Verdict a) in let vb := verdict_order (Co_Verdict b) in
  if negb (va =? vb) then va <? vb else depth_less a b.

Definition count_verdict (cs : list Consumer) (v : Verdict) : nat :=
  length (filter (λ c, Co_Verdict c = v) cs).

(** [graph/impact.go:156-200 buildImpact] *)
Definition buildImpact (changed : list Node) (kind : ChangeKind) (reached : list Reached) (truncated : bool) : Impact :=
  let consumers := consumer_of kind <$> filter (λ r, N_ID (Re_Node r) ∉ (N_ID <$> changed)) reached in
  mk_impact changed kind (stable_sort consumer_less consumers) (count_verdict consumers) truncated ImpactCaveat.

(** [graph/impact.go:203-208 Impact.Summary] *)
Definition Impact_Summary (i : Impact) : string :=
  pretty (length (Consumers i)) +:+ " consumers: " +:+ pretty (I_Counts i Breaking) +:+ " breaking, " +:+
  pretty (I_Counts i Undetermined) +:+ " undetermined, " +:+ pretty (I_Counts i Compiles) +:+ " behaviour-only, " +:+
  pretty (I_Counts i Compatible) +:+ " compatible" +:+
  (if I_Truncated i then " (truncated: lower bound)" else "").

(** [graph/public.go:7-26 PublicImpact] *)
Definition PublicImpact (i : Impact) : Impact :=
  let consumers := filter (λ c, Sensitive (N_Path (Co_Node c)) = false) (Consumers i) in
  mk_impact (filter (λ n, Sensitive (N_Path n) = false) (Changed i)) (I_Kind i) consumers
    (count_verdict consumers)
    (I_Truncated i || existsb (λ c, Sensitive (N_Path (Co_Node c))) (Consumers i)) (Caveat i).

(** ** Traversal *)

(** [graph/types.go:189-197 Direction] *)
Inductive Direction := Forward | Reverse.

#[export] Instance direction_eq_dec : EqDecision Direction. Proof. solve_decision. Defined.

(** [graph/types.go:201-210 Query] *)
Record Query := mk_query {
  Start : list Z; Dir : Direction; Kinds : list EdgeKind; MaxDepth : Z; MaxNodes : Z; MinEvidence : list Evidence }.

(** [graph/types.go:213-216 MaxTraversalDepth] *)
Definition MaxTraversalDepth : Z := 6.
Definition DefaultMaxNodes : nat := 5000.

(** [graph/traverse.go:14-16 evidenceRankSQL] *)
Definition evidence_rank (e : Evidence) : nat :=
  match e with Resolved => 0 | Declared => 1 | Inferred => 2 | Observed => 3 | _ => 4 end.
(** [graph/traverse.go:18-18 rankToEvidence] *)
Definition rankToEvidence (r : nat) : Evidence :=
  match r with 0 => Resolved | 1 => Declared | 2 => Inferred | 3 => Observed | _ => Unknown end.

(** [graph/traverse.go:124-128 pathState] *)
Record pathState := mk_path { ps_depth : nat; ps_rank : nat; ps_via : EdgeKind }.

(** [graph/traverse.go:133-133 expandBatch] *)
Definition expandBatch : nat := 400.

(** The graph's tables, as one workspace's handle sees them. *)
Record tables := mk_tables { t_workspace : string; t_nodes : gmap Z Node; t_edges : list Edge }.

(** [graph/traverse.go:139-142 expand] the two columns. *)
Definition from_of (d : Direction) (e : Edge) : Z := match d with Forward => Src e | Reverse => Dst e end.
Definition to_of (d : Direction) (e : Edge) : Z := match d with Forward => Dst e | Reverse => Src e end.

(** [graph/traverse.go:158-187 expand] the condition of the query. *)
Definition wanted (q : Query) (chunk : list Z) (e : Edge) : bool :=
  mem (from_of (Dir q) e) chunk
  && match Kinds q with [] => true | ks => mem (E_Kind e) ks end
  && match MinEvidence q with [] => true | evs => mem (E_Evidence e) evs end.

Notation best_map := (gmap Z pathState).

(** [graph/traverse.go:216-241 fetchHop] one row: the nodes found so far, the
    map, and whether the node cap stopped the walk. *)
Fixpoint fetch_rows (d : Direction) (depth limit : nat) (rows : list Edge)
    (found : list Z) (best : best_map) : list Z * best_map * bool :=
  match rows with
  | [] => (found, best, false)
  | e :: rows =>
      let parent := default (mk_path 0 0 "") (best !! from_of d e) in
      let rank := Nat.max (ps_rank parent) (evidence_rank (E_Evidence e)) in
      let to_ := to_of d e in
      let st := mk_path depth rank (E_Kind e) in
      match best !! to_ with
      | Some prev =>
          if (ps_depth prev <? depth) || ((ps_depth prev =? depth) && (ps_rank prev <=? rank))
          then fetch_rows d depth limit rows found best
          else fetch_rows d depth limit rows found (<[to_ := st]> best)
      | None =>
          if limit <=? size best then (found, best, true)
          else fetch_rows d depth limit rows (found ++ [to_]) (<[to_ := st]> best)
      end
  end.

Fixpoint chunks_fuel {A} (fuel n : nat) (l : list A) : list (list A) :=
  match fuel, l with
  | S fuel, _ :: _ => take n l :: chunks_fuel fuel n (drop n l)
  | _, _ => []
  end.
Definition chunks {A} (n : nat) (l : list A) : list (list A) := chunks_fuel (length l) n l.

Section traverse.
(** SQLite's answer to a query whose matching rows are given: an error, or the
    rows in an order of its own; a LIMIT keeps a prefix. *)
Context (run_query : list Edge → result (list Edge)).
Context (t : tables).

(** [graph/traverse.go:137-202 expand] over the batches of the frontier. *)
Fixpoint expand (q : Query) (depth limit : nat) (batches : list (list Z)) (next : list Z) (best : best_map)
    : result (list Z * best_map * bool) :=
  match batches with
  | [] => Ok (next, best, false)
  | chunk :: batches =>
      let remaining := limit - size best in
      if remaining =? 0 then Ok (next, best, true) else
      let rowCap := remaining * 4 in
      match run_query (filter (λ e, wanted q chunk e = true) (t_edges t)) with
      | Err e => Err (mk_error (err_is e) ("graph: expand depth " +:+ pretty depth +:+ ": " +:+ err_msg e))
      | Ok rows =>
          let rows := take rowCap rows in
          let '(found, best, capped) := fetch_rows (Dir q) depth limit rows [] best in
          let next := next ++ found in
          if capped then Ok (next, best, true)
          else if rowCap <=? length rows then Ok (next, best, true)
          else expand q depth limit batches next best
      end
  end.

(** [graph/traverse.go:69-86 Traverse] the level loop: [n] levels are left and
    [depth] is the next one. *)
Fixpoint levels (q : Query) (limit n depth : nat) (frontier : list Z) (best : best_map) (truncated : bool)
    : result (list Z * best_map * bool) :=
  match n with
  | O => Ok (frontier, best, truncated)
  | S n =>
      match frontier with
      | [] => Ok (frontier, best, truncated)
      | _ =>
          if limit <=? size best then Ok (frontier, best, true) else
          '(next, best, hitCap) ← expand q depth limit (chunks expandBatch frontier) [] best;
          levels q limit n (S depth) next best (truncated || hitCap)
      end
  end.

(** [graph/sqlite.go:189-198 verify] *)
Definition verify (n : Node) : result Node :=
  if negb (String.eqb (N_Workspace n) (t_workspace t))
  then Err (errorf ("graph: row for workspace " +:+ N_Workspace n +:+ " surfaced from the " +:+
                    t_workspace t +:+ " handle; refusing to serve it"))
  else Ok n.

(** [graph/sqlite.go:131-138 sqliteGraph.Node] *)
Definition get_node (id : Z) : result Node :=
  match t_nodes t !! id with
  | None => Err (mk_error (Some "graph: node not found") ("graph: node not found: id " +:+ pretty id))
  | Some n => verify n
  end.

(** Rows in order, up to the first one that does not pass. *)
Fixpoint verify_all {A} (check : A → result A) (rows : list A) : result (list A) :=
  match rows with
  | [] => Ok []
  | n :: rows => n ← check n; ns ← verify_all check rows; mret (n :: ns)
  end.

Definition kind_fqn_less (a b : Node) : bool :=
  if String.eqb (N_Kind a) (N_Kind b) then str_ltb (N_FQN a) (N_FQN b) else str_ltb (N_Kind a) (N_Kind b).
(** [graph/sqlite.go:150-184 sqliteGraph.NodesByName] [run_nodes] is SQLite's
    answer with the rows that match, in an order of its own. *)
Definition NodesByName (run_nodes : list Node → result (list Node)) (name : string) (kinds : list string) (limit : Z)
    : result (list Node) :=
  let limit := if Z.leb limit 0 then 100%Z else limit in
  rows ← run_nodes (filter (λ n, N_Name n = name ∧ (kinds = [] ∨ N_Kind n ∈ kinds)) (map_to_list (t_nodes t)).*2);
  verify_all verify (take (Z.to_nat limit) (stable_sort kind_fqn_less rows)).

(** [graph/sqlite.go:230-233 sqliteGraph.Neighbors] a row of another workspace. *)
Definition verify_edge (e : Edge) : result Edge :=
  if negb (String.eqb (E_Workspace e) (t_workspace t))
  then Err (errorf ("graph: edge " +:+ pretty (E_ID e) +:+ " belongs to workspace " +:+ E_Workspace e +:+
                    ", handle is " +:+ t_workspace t))
  else Ok e.
Definition edge_less (a b : Edge) : bool :=
  if String.eqb (E_Kind a) (E_Kind b) then Z.ltb (E_ID a) (E_ID b) else str_ltb (E_Kind a) (E_Kind b).
(** [graph/sqlite.go:200-237 sqliteGraph.Neighbors] *)
Definition Neighbors (id : Z) (d : Direction) (kinds : list EdgeKind) : result (list Edge) :=
  rows ← run_query (filter (λ e, from_of d e = id ∧ (kinds = [] ∨ E_Kind e ∈ kinds)) (t_edges t));
  verify_all verify_edge (stable_sort edge_less rows).

(** [graph/traverse.go:247-261 loadNodes] the rows found, each verified. *)
Fixpoint loadNodes (ids : list Z) : result (list Node) :=
  match ids with
  | [] => Ok []
  | id :: ids =>
      match t_nodes t !! id with
      | None => loadNodes ids
      | Some n => n ← verify n; ns ← loadNodes ids; mret (n :: ns)
      end
  end.

(** [graph/traverse.go:107-115 Traverse] the order of the result. *)
Definition reached_less (a b : Reached) : bool :=
  if negb (Depth a =? Depth b) then Depth a <? Depth b
  else if negb (String.eqb (N_Kind (Re_Node a)) (N_Kind (Re_Node b)))
  then str_ltb (N_Kind (Re_Node a)) (N_Kind (Re_Node b))
  else str_ltb (N_FQN (Re_Node a)) (N_FQN (Re_Node b)).

(** [graph/traverse.go:97-106 Traverse] one result. *)
Definition reached_of (best : best_map) (n : Node) : Reached :=
  let st := default (mk_path 0 0 "") (best !! N_ID n) in
  mk_reached n (ps_depth st) (ps_via st)
    (if ps_depth st =? 0 then Resolved else rankToEvidence (ps_rank st)).

Definition init_best (start : list Z) : best_map :=
  foldl (λ m id, <[id := mk_path 0 0 ""]> m) ∅ start.

(** [graph/traverse.go:59-86 Traverse] the walk: the map it fills and whether it
    was cut short. *)
Definition search_graph (q : Query) (limit depth : nat) : result (best_map * bool) :=
  '(frontier, best, truncated) ← levels q limit depth 1 (dedup (Start q)) (init_best (Start q)) false;
  mret (best, truncated || (negb (length frontier =? 0) && (limit <=? size best))).

(** [graph/traverse.go:38-120 Traverse] *)
Definition Traverse (q : Query) : result (list Reached) :=
  match Start q with
  | [] => Ok []
  | _ =>
      let maxDepth := if Z.leb (MaxDepth q) 0 then 1%Z else MaxDepth q in
      if Z.ltb MaxTraversalDepth maxDepth
      then Err (errorf ("graph: max depth " +:+ pretty maxDepth +:+ " exceeds the supported bound of 6 (DR-2 commits to shallow traversals)"))
      else
      let limit := if Z.leb (MaxNodes q) 0 then DefaultMaxNodes else Z.to_nat (MaxNodes q) in
      _ ← each (λ ev, guard_err (negb (Valid ev)) (errorf ("graph: invalid evidence filter " +:+ quoted (show_evidence ev)))) (MinEvidence q);
      '(best, truncated) ← search_graph q limit (Z.to_nat maxDepth);
      nodes ← loadNodes (map_to_list best).*1;
      let out := stable_sort reached_less (reached_of best <$> nodes) in
      mret (if truncated && (limit <? length out) then take limit out else out)
  end.

Fixpoint get_nodes (ids : list Z) : result (list Node) :=
  match ids with
  | [] => Ok []
  | id :: ids => n ← get_node id; ns ← get_nodes ids; mret (n :: ns)
  end.

(** [graph/traverse.go:296-323 ImpactOf] *)
Definition ImpactOf (changed : list Z) (kind : ChangeKind) : result Impact :=
  match changed with
  | [] => Ok (mk_impact [] kind [] (λ _, 0) false ImpactCaveat)
  | _ =>
      changedNodes ← get_nodes changed;
      reached ← Traverse (mk_query changed Reverse [] 3 (Z.of_nat DefaultMaxNodes) []);
      mret (buildImpact changedNodes kind reached (DefaultMaxNodes <=? length reached))
  end.
End traverse.

(** ** The impact report *)

Lemma consumer_of_fields kind r :
  Co_Node (consumer_of kind r) = Re_Node r ∧ Co_Depth (consumer_of kind r) = Depth r ∧
  Co_Via (consumer_of kind r) = Via r ∧ Co_Evidence (consumer_of kind r) = Re_Evidence r ∧
  (Co_Verdict (consumer_of kind r), Migration (consumer_of kind r)) = verdictFor kind (Via r) (Re_Evidence r).
Proof. unfold consumer_of. by destruct (verdictFor _ _ _). Qed.

Lemma consumer_less_asym a b : consumer_less a b = true → consumer_less b a = false.
Proof.
  unfold consumer_less, depth_less, path_less.
  rewrite (Nat.eqb_sym (verdict_order (Co_Verdict b))), (Nat.eqb_sym (Co_Depth b)), (String.eqb_sym (N_Path (Co_Node b))).
  destruct (_ =? _) eqn:E1; cbn [negb].
  - destruct (Co_Depth a =? Co_Depth b) eqn:E2; cbn [negb].
    + destruct (String.eqb _ _); cbn [negb]; apply str_ltb_asym.
    + rewrite Nat.ltb_lt, Nat.ltb_ge. lia.
  - rewrite Nat.ltb_lt, Nat.ltb_ge. lia.
Qed.

(** A lexicographic step: compare by a number first. *)
Lemma lex_trans {A} (key : A → nat) (rest : A → A → bool) :
  (∀ a b c, rest b a = false → rest c b = false → rest c a = false) →
  ∀ a b c,
    (if negb (key b =? key a) then key b <? key a else rest b a) = false →
    (if negb (key c =? key b) then key c <? key b else rest c b) = false →
    (if negb (key c =? key a) then key c <? key a else rest c a) = false.
Proof.
  intros Ht a b c.
  destruct (Nat.eqb_spec (key b) (key a)), (Nat.eqb_spec (key c) (key b)), (Nat.eqb_spec (key c) (key a));
    cbn [negb]; rewrite ?Nat.ltb_ge; try lia; eauto.
Qed.

Lemma consumer_less_trans a b c :
  not_less consumer_less a b → not_less consumer_less b c → not_less consumer_less a c.
Proof.
  unfold not_less, consumer_less. apply (lex_trans (λ x, verdict_order (Co_Verdict x)) depth_less).
  clear. intros a b c. unfold depth_less. apply (lex_trans Co_Depth path_less).
  clear. intros a b c. unfold path_less.
  destruct (String.eqb_spec (N_Path (Co_Node b)) (N_Path (Co_Node a))) as [E1|E1],
    (String.eqb_spec (N_Path (Co_Node c)) (N_Path (Co_Node b))) as [E2|E2],
    (String.eqb_spec (N_Path (Co_Node c)) (N_Path (Co_Node a))) as [E3|E3]; cbn [negb]; try congruence.
  - apply str_not_less_trans.
  - intros H1 H2. exfalso. rewrite E3 in H2. apply E1. symmetry. by apply str_ltb_total.
  - apply str_not_less_trans.
Qed.

(** The impact report drops no consumer: every node the traversal reached,
    other than the changed ones, appears exactly once with the depth, edge and
    evidence it was reached by, whatever that evidence; a consumer reached by
    heuristic evidence is labelled undetermined, and one is called breaking,
    compiling or compatible only on resolved or declared evidence; the counts
    are those of the listed consumers, breaking ones come first, and the
    caveat and the truncation mark are kept. *)
Theorem buildImpact_complete changed kind reached truncated :
  let imp := buildImpact changed kind reached truncated in
  Consumers imp ≡ₚ consumer_of kind <$> filter (λ r, N_ID (Re_Node r) ∉ (N_ID <$> changed)) reached ∧
  (∀ c, c ∈ Consumers imp → Certain (Co_Evidence c) = false → Co_Verdict c = Undetermined) ∧
  (∀ c, c ∈ Consumers imp → (Co_Verdict c, Migration c) = verdictFor kind (Co_Via c) (Co_Evidence c)) ∧
  (∀ v, I_Counts imp v = length (filter (λ c, Co_Verdict c = v) (Consumers imp))) ∧
  StronglySorted (λ a b, consumer_less b a = false) (Consumers imp) ∧
  Caveat imp = ImpactCaveat ∧ I_Truncated imp = truncated ∧ Changed imp = changed.
Proof.
  intros imp. unfold imp, buildImpact; cbn.
  set (cs := consumer_of kind <$> _).
  assert (Hc : ∀ c, c ∈ cs → (Co_Verdict c, Migration c) = verdictFor kind (Co_Via c) (Co_Evidence c)).
  { intros c (r & -> & _)%list_elem_of_fmap.
    destruct (consumer_of_fields kind r) as (_ & _ & -> & -> & ->). done. }
  split_and!; try done.
  - apply stable_sort_perm.
  - intros c Hin Hcert. rewrite elem_of_stable_sort in Hin. specialize (Hc c Hin).
    unfold verdictFor in Hc. rewrite Hcert in Hc. by injection Hc.
  - intros c Hin. rewrite elem_of_stable_sort in Hin. auto.
  - intros v. unfold count_verdict. apply Permutation_length. by rewrite stable_sort_perm.
  - apply stable_sort_sorted; [apply consumer_less_asym | apply consumer_less_trans].
Qed.

(** The model-visible report never carries a protected path, neither among
    the changed nodes nor the consumers; it keeps every other consumer in
    order, counts only what it shows, and is marked as a lower bound whenever
    a consumer was withheld. *)
Theorem PublicImpact_safe i :
  let p := PublicImpact i in
  (∀ n, n ∈ Changed p ↔ n ∈ Changed i ∧ Sensitive (N_Path n) = false) ∧
  Consumers p = filter (λ c, Sensitive (N_Path (Co_Node c)) = false) (Consumers i) ∧
  (∀ v, I_Counts p v = length (filter (λ c, Co_Verdict c = v) (Consumers p))) ∧
  (I_Truncated p = true ↔ I_Truncated i = true ∨ ∃ c, c ∈ Consumers i ∧ c ∉ Consumers p).
Proof.
  intros p. unfold p, PublicImpact; cbn. split_and!; try done.
  - intros n. rewrite list_elem_of_filter. tauto.
  - rewrite orb_true_iff, existsb_exists. setoid_rewrite <- list_elem_of_In.
    setoid_rewrite list_elem_of_filter. setoid_rewrite <- not_true_iff_false.
    split; (intros [?|(c & ? & Hc)]; [by left | right; exists c; split; [done |]]).
    + naive_solver.
    + destruct (Sensitive (N_Path (Co_Node c))); [done |]. naive_solver.
Qed.

(** ** What a traversal finds *)

(** The edge filter of a query, without the frontier. *)
Definition passes (q : Query) (e : Edge) : bool :=
  match Kinds q with [] => true | ks => mem (E_Kind e) ks end
  && match MinEvidence q with [] => true | evs => mem (E_Evidence e) evs end.

Lemma wanted_spec q chunk e :
  wanted q chunk e = true ↔ from_of (Dir q) e ∈ chunk ∧ passes q e = true.
Proof. unfold wanted, passes. rewrite <- andb_assoc, andb_true_iff, mem_true. done. Qed.

(** [walk q edges n v r]: some path of [n] edges leads from a start node to [v],
    and its weakest edge has rank [r]. *)
Inductive walk (q : Query) (edges : list Edge) : nat → Z → nat → Prop :=
| walk_start v : v ∈ Start q → walk q edges 0 v 0
| walk_edge n e r :
    walk q edges n (from_of (Dir q) e) r → e ∈ edges → passes q e = true →
    walk q edges (S n) (to_of (Dir q) e) (Nat.max r (evidence_rank (E_Evidence e))).

(** What the map holds after [k] levels. *)
Record inv (q : Query) (edges : list Edge) (k : nat) (frontier : list Z) (best : best_map) : Prop := {
  inv_sound : ∀ v st, best !! v = Some st → ps_depth st ≤ k ∧ walk q edges (ps_depth st) v (ps_rank st);
  inv_complete : ∀ n v r, n ≤ k → walk q edges n v r →
    ∃ st, best !! v = Some st ∧ ps_depth st ≤ n ∧ (ps_depth st = n → ps_rank st ≤ r);
  inv_frontier : ∀ v, v ∈ frontier ↔ ∃ st, best !! v = Some st ∧ ps_depth st = k;
}.

(** Inside a level: what holds once the edges [seen] were read. *)
Record level_inv (q : Query) (edges : list Edge) (k : nat) (best0 best : best_map)
    (found : list Z) (seen : list Edge) : Prop := {
  li_keep : ∀ v st, best0 !! v = Some st → best !! v = Some st;
  li_new : ∀ v st, best !! v = Some st → best0 !! v = None →
    ps_depth st = S k ∧ walk q edges (S k) v (ps_rank st) ∧ v ∈ found;
  li_found : ∀ v, v ∈ found → best0 !! v = None ∧ ∃ st, best !! v = Some st;
  li_seen : ∀ e st0, e ∈ seen → best0 !! from_of (Dir q) e = Some st0 →
    ∃ st, best !! to_of (Dir q) e = Some st ∧
      (best0 !! to_of (Dir q) e = None → ps_rank st ≤ Nat.max (ps_rank st0) (evidence_rank (E_Evidence e)));
}.

Lemma level_inv_nil q edges k best : level_inv q edges k best best [] [].
Proof.
  split; try done.
  - congruence.
  - by intros v ?%not_elem_of_nil.
  - by intros e st0 ?%not_elem_of_nil.
Qed.

Lemma fetch_rows_level q edges k frontier limit best0 rows found best found' best' seen :
  inv q edges k frontier best0 →
  (∀ e, e ∈ rows → e ∈ edges ∧ passes q e = true ∧ from_of (Dir q) e ∈ frontier) →
  level_inv q edges k best0 best found seen →
  fetch_rows (Dir q) (S k) limit rows found best = (found', best', false) →
  level_inv q edges k best0 best' found' (seen ++ rows).
Proof.
  intros Hinv. revert found best seen. induction rows as [|e rows IH]; intros found best seen Hrows Hli; cbn [fetch_rows].
  { intros [= <- <-]. by rewrite app_nil_r. }
  destruct (Hrows e ltac:(by left)) as (He & Hpass & Hfr).
  assert (Hrows' : ∀ e, e ∈ rows → e ∈ edges ∧ passes q e = true ∧ from_of (Dir q) e ∈ frontier).
  { intros e' He'. apply Hrows. by right. }
  apply (inv_frontier _ _ _ _ _ Hinv) in Hfr as (st0 & Hst0 & Hd0).
  destruct (inv_sound _ _ _ _ _ Hinv _ _ Hst0) as [_ Hwalk0]. rewrite Hd0 in Hwalk0.
  rewrite (li_keep _ _ _ _ _ _ _ Hli _ _ Hst0). cbn [default from_option id].
  set (st := mk_path (S k) _ _).
  pose proof (walk_edge q edges k e _ Hwalk0 He Hpass) as Hwalk.
  replace (seen ++ e :: rows) with ((seen ++ [e]) ++ rows) by (by rewrite <- app_assoc).
  assert (Hseen : ∀ (best2 : best_map) st2, best2 !! to_of (Dir q) e = Some st2 →
     (best0 !! to_of (Dir q) e = None → ps_rank st2 ≤ ps_rank st) →
     (∀ v stv, best !! v = Some stv → ∃ stv2, best2 !! v = Some stv2 ∧ (best0 !! v = None → ps_rank stv2 ≤ ps_rank stv)) →
     ∀ e' st0', e' ∈ seen ++ [e] → best0 !! from_of (Dir q) e' = Some st0' →
       ∃ st', best2 !! to_of (Dir q) e' = Some st' ∧
         (best0 !! to_of (Dir q) e' = None → ps_rank st' ≤ Nat.max (ps_rank st0') (evidence_rank (E_Evidence e')))).
  { intros best2 st2 Hb2 Hr2 Hmono e' st0' [Hin|Hin%list_elem_of_singleton]%elem_of_app Hfrom.
    - destruct (li_seen _ _ _ _ _ _ _ Hli e' st0' Hin Hfrom) as (s1 & Hs1 & Hr1).
      destruct (Hmono _ _ Hs1) as (s2 & Hs2 & Hr). exists s2. split; [done |]. intros Hn.
      specialize (Hr Hn). specialize (Hr1 Hn). lia.
    - subst e'. exists st2. split; [done |]. intros Hn. rewrite Hst0 in Hfrom. injection Hfrom as <-.
      apply Hr2 in Hn. exact Hn. }
  destruct (best !! to_of (Dir q) e) as [prev|] eqn:Eprev.
  - destruct (_ || _) eqn:Eskip.
    + apply IH; [done |]. destruct Hli as [Hk Hnew Hf Hsn]. split; [done.. |].
      apply (Hseen best prev Eprev); [|by intros v stv; eauto].
      intros Hn. destruct (Hnew _ _ Eprev Hn) as (Hdp & _ & _).
      apply orb_true_iff in Eskip as [H%Nat.ltb_lt|[_ H%Nat.leb_le]%andb_true_iff]; [lia | exact H].
    + apply orb_false_iff in Eskip as [H1%Nat.ltb_ge H2].
      destruct (best0 !! to_of (Dir q) e) as [p0|] eqn:E0.
      { exfalso. pose proof (li_keep _ _ _ _ _ _ _ Hli _ _ E0) as Hk. rewrite Eprev in Hk. injection Hk as ->.
        destruct (inv_sound _ _ _ _ _ Hinv _ _ E0) as [? _]. lia. }
      destruct (li_new _ _ _ _ _ _ _ Hli _ _ Eprev E0) as (Hdp & _ & Hfnd).
      assert (Hlt : ps_rank st < ps_rank prev).
      { apply andb_false_iff in H2 as [H2%Nat.eqb_neq|H2%Nat.leb_gt]; [lia | exact H2]. }
      apply IH; [done |]. destruct Hli as [Hk Hnew Hf Hsn]. split.
      * intros v stv Hv. rewrite lookup_insert_ne; [auto |]. intros <-. congruence.
      * intros v stv. destruct (decide (v = to_of (Dir q) e)) as [->|Hne].
        -- rewrite lookup_insert_eq. intros [= <-] _. done.
        -- rewrite lookup_insert_ne by done. apply Hnew.
      * intros v Hv. destruct (Hf v Hv) as [? [stv ?]]. split; [done |].
        destruct (decide (v = to_of (Dir q) e)) as [->|Hne]; [rewrite lookup_insert_eq | rewrite lookup_insert_ne by done]; eauto.
      * apply (Hseen _ st); [by rewrite lookup_insert_eq | done |]. intros v stv Hv.
        destruct (decide (v = to_of (Dir q) e)) as [->|Hne].
        -- rewrite lookup_insert_eq. exists st. split; [done |]. intros _. rewrite Eprev in Hv. injection Hv as <-. lia.
        -- rewrite lookup_insert_ne by done. eauto.
  - destruct (limit <=? size best); [done |].
    assert (E0 : best0 !! to_of (Dir q) e = None).
    { destruct (best0 !! to_of (Dir q) e) eqn:E0; [|done]. apply (li_keep _ _ _ _ _ _ _ Hli) in E0. congruence. }
    apply IH; [done |]. destruct Hli as [Hk Hnew Hf Hsn]. split.
    * intros v stv Hv. rewrite lookup_insert_ne; [auto |]. intros <-. congruence.
    * intros v stv. destruct (decide (v = to_of (Dir q) e)) as [->|Hne].
      -- rewrite lookup_insert_eq. intros [= <-] _. split_and!; [done | exact Hwalk | set_solver].
      -- rewrite lookup_insert_ne by done. intros H1 H2. destruct (Hnew _ _ H1 H2) as (? & ? & ?). set_solver.
    * intros v [Hv|Hv%list_elem_of_singleton]%elem_of_app.
      -- destruct (Hf v Hv) as [? [stv ?]]. split; [done |].
         destruct (decide (v = to_of (Dir q) e)) as [->|Hne]; [rewrite lookup_insert_eq | rewrite lookup_insert_ne by done]; eauto.
      -- subst v. split; [done |]. rewrite lookup_insert_eq. eauto.
    * apply (Hseen _ st); [by rewrite lookup_insert_eq | done |]. intros v stv Hv.
      destruct (decide (v = to_of (Dir q) e)) as [->|Hne]; [congruence |]. rewrite lookup_insert_ne by done. eauto.
Qed.

Lemma fetch_rows_found d depth limit rows found pre best found' best' c :
  fetch_rows d depth limit rows found best = (found', best', c) →
  fetch_rows d depth limit rows (pre ++ found) best = (pre ++ found', best', c).
Proof.
  revert found best. induction rows as [|e rows IH]; intros found best; cbn [fetch_rows].
  { by intros [= <- <- <-]. }
  destruct (best !! to_of d e).
  - destruct (_ || _); apply IH.
  - destruct (limit <=? size best); [by intros [= <- <- <-] |]. rewrite <- app_assoc. apply IH.
Qed.

Lemma chunks_fuel_concat {A} fuel n (l : list A) :
  0 < n → length l ≤ fuel → concat (chunks_fuel fuel n l) = l.
Proof.
  intros Hn. revert l. induction fuel as [|fuel IH]; intros l Hl.
  - destruct l; [done | simpl in Hl; lia].
  - destruct l as [|x l]; [done |]. cbn [chunks_fuel concat].
    rewrite IH; [by rewrite take_drop |]. rewrite length_drop. simpl in *. lia.
Qed.

Lemma chunks_concat {A} n (l : list A) : 0 < n → concat (chunks n l) = l.
Proof. intros. by apply chunks_fuel_concat. Qed.

Section exact.
Context (run_query : list Edge → result (list Edge)) (t : tables).
(** SQLite answers a query with the matching rows, in some order. *)
Context (run_query_rows : ∀ l l', run_query l = Ok l' → l' ≡ₚ l).

Lemma expand_level q k frontier limit best0 batches next best next' best' seen :
  inv q (t_edges t) k frontier best0 →
  (∀ v, v ∈ concat batches → v ∈ frontier) →
  level_inv q (t_edges t) k best0 best next seen →
  expand run_query t q (S k) limit batches next best = Ok (next', best', false) →
  ∃ seen', level_inv q (t_edges t) k best0 best' next' seen' ∧
    ∀ e, e ∈ seen ∨ (e ∈ t_edges t ∧ passes q e = true ∧ from_of (Dir q) e ∈ concat batches) → e ∈ seen'.
Proof using run_query_rows.
  intros Hinv. revert next best seen. induction batches as [|chunk batches IH]; intros next best seen Hb Hli; cbn [expand].
  { intros [= <- <-]. exists seen. split; [done |]. intros e [?|(_ & _ & ?%not_elem_of_nil)]; done. }
  destruct (limit - size best =? 0); [done |].
  destruct (run_query _) as [rows|] eqn:Erun; [|done]. apply run_query_rows in Erun.
  destruct (fetch_rows _ _ _ _ _ _) as [[found b2] capped] eqn:Ef. destruct capped; [done |].
  destruct (_ <=? _) eqn:Ecap; [done |]. apply Nat.leb_gt in Ecap. rewrite length_take in Ecap.
  rewrite take_ge in Ef by lia. intros Hexp.
  apply (fetch_rows_found _ _ _ _ _ next) in Ef. rewrite app_nil_r in Ef.
  assert (Hrows : ∀ e, e ∈ rows ↔ e ∈ t_edges t ∧ passes q e = true ∧ from_of (Dir q) e ∈ chunk).
  { intros e. rewrite Erun, list_elem_of_filter, wanted_spec. tauto. }
  assert (Hli2 : level_inv q (t_edges t) k best0 b2 (next ++ found) (seen ++ rows)).
  { eapply fetch_rows_level; [done | | done | exact Ef]. intros e (? & ? & ?)%Hrows. split_and!; try done.
    apply Hb. cbn [concat]. set_solver. }
  destruct (IH _ _ _ ltac:(intros v Hv; apply Hb; cbn [concat]; set_solver) Hli2 Hexp) as (seen' & Hs & Hin).
  exists seen'. split; [done |]. intros e [He|(He & Hp & Hf)].
  - apply Hin. left. set_solver.
  - cbn [concat] in Hf. apply elem_of_app in Hf as [Hf|Hf]; apply Hin; [left | right; done].
    apply elem_of_app. right. by apply Hrows.
Qed.

Lemma inv_step q k frontier best next best' seen :
  inv q (t_edges t) k frontier best →
  level_inv q (t_edges t) k best best' next seen →
  (∀ e, e ∈ t_edges t → passes q e = true → from_of (Dir q) e ∈ frontier → e ∈ seen) →
  inv q (t_edges t) (S k) next best'.
Proof.
  intros Hinv Hli Hseen. split.
  - intros v st Hv. destruct (best !! v) as [st0|] eqn:E0.
    + pose proof (li_keep _ _ _ _ _ _ _ Hli _ _ E0) as Hk. rewrite Hv in Hk. injection Hk as <-.
      destruct (inv_sound _ _ _ _ _ Hinv _ _ E0). split; [lia | done].
    + destruct (li_new _ _ _ _ _ _ _ Hli _ _ Hv E0) as (Hd & Hw & _). rewrite Hd. split; [lia | done].
  - intros n v r Hn Hw. destruct (decide (n ≤ k)) as [Hle|Hgt].
    + destruct (inv_complete _ _ _ _ _ Hinv n v r Hle Hw) as (st & Hst & ? & ?).
      exists st. split; [by apply (li_keep _ _ _ _ _ _ _ Hli) | done].
    + assert (n = S k) as -> by lia. inversion Hw as [|n' e r0 Hw0 He Hp]; subst n'.
      destruct (inv_complete _ _ _ _ _ Hinv k _ r0 (le_n k) Hw0) as (su & Hsu & Hdu & Hru).
      destruct (decide (ps_depth su = k)) as [Hdk|Hdk].
      * assert (Hf : from_of (Dir q) e ∈ frontier) by (apply (inv_frontier _ _ _ _ _ Hinv); eauto).
        destruct (li_seen _ _ _ _ _ _ _ Hli e su (Hseen e He Hp Hf) Hsu) as (st & Hst & Hr).
        exists st. split; [done |]. destruct (best !! to_of (Dir q) e) as [s0|] eqn:E0.
        -- pose proof (li_keep _ _ _ _ _ _ _ Hli _ _ E0) as Hk. rewrite Hst in Hk. injection Hk as <-.
           destruct (inv_sound _ _ _ _ _ Hinv _ _ E0). split; lia.
        -- destruct (li_new _ _ _ _ _ _ _ Hli _ _ Hst E0) as (Hd & _ & _). split; [lia |].
           intros _. specialize (Hr eq_refl). specialize (Hru Hdk). lia.
      * (* a shorter way to the predecessor gives a shorter way here *)
        destruct (inv_sound _ _ _ _ _ Hinv _ _ Hsu) as [_ Hwu].
        assert (Hle : S (ps_depth su) ≤ k) by lia.
        destruct (inv_complete _ _ _ _ _ Hinv _ _ _ Hle (walk_edge _ _ _ _ _ Hwu He Hp)) as (st & Hst & ? & _).
        exists st. split; [by apply (li_keep _ _ _ _ _ _ _ Hli) |]. split; lia.
  - intros v. split.
    + intros Hv. destruct (li_found _ _ _ _ _ _ _ Hli v Hv) as (E0 & st & Hst).
      exists st. split; [done |]. by destruct (li_new _ _ _ _ _ _ _ Hli _ _ Hst E0).
    + intros (st & Hst & Hd). destruct (best !! v) as [s0|] eqn:E0.
      * pose proof (li_keep _ _ _ _ _ _ _ Hli _ _ E0) as Hk. rewrite Hst in Hk. injection Hk as <-.
        destruct (inv_sound _ _ _ _ _ Hinv _ _ E0). lia.
      * by destruct (li_new _ _ _ _ _ _ _ Hli _ _ Hst E0) as (_ & _ & ?).
Qed.

(** Nothing lies beyond an empty frontier. *)
Lemma inv_exhausted q k best : inv q (t_edges t) k [] best → ∀ k', k ≤ k' → inv q (t_edges t) k' [] best.
Proof.
  intros Hinv k' Hk.
  assert (Hnone : ∀ v st, best !! v = Some st → ps_depth st < k).
  { intros v st Hst. destruct (inv_sound _ _ _ _ _ Hinv _ _ Hst) as [? _].
    destruct (decide (ps_depth st = k)) as [Hd|]; [|lia]. exfalso.
    apply (not_elem_of_nil v). apply (inv_frontier _ _ _ _ _ Hinv). eauto. }
  assert (Hall : ∀ n v r, walk q (t_edges t) n v r → ∃ st, best !! v = Some st ∧ ps_depth st ≤ n ∧ (ps_depth st = n → ps_rank st ≤ r)).
  { intros n. induction n as [n IH] using lt_wf_ind. intros v r Hw.
    destruct (decide (n ≤ k)) as [Hle|Hgt]; [by apply (inv_complete _ _ _ _ _ Hinv) |].
    inversion Hw as [|n' e r0 Hw0 He Hp]; subst; [lia |].
    destruct (IH n' ltac:(lia) _ _ Hw0) as (su & Hsu & _ & _).
    destruct (inv_sound _ _ _ _ _ Hinv _ _ Hsu) as [_ Hwu]. pose proof (Hnone _ _ Hsu).
    destruct (IH (S (ps_depth su)) ltac:(lia) _ _ (walk_edge _ _ _ _ _ Hwu He Hp)) as (st & Hst & ? & _).
    exists st. split; [done |]. split; lia. }
  split.
  - intros v st Hst. destruct (inv_sound _ _ _ _ _ Hinv _ _ Hst). split; [lia | done].
  - intros n v r _. apply Hall.
  - intros v. split; [by intros ?%not_elem_of_nil |]. intros (st & Hst & Hd). specialize (Hnone _ _ Hst). lia.
Qed.

Lemma levels_exact q limit n k frontier best frontier' best' :
  inv q (t_edges t) k frontier best →
  levels run_query t q limit n (S k) frontier best false = Ok (frontier', best', false) →
  inv q (t_edges t) (k + n) frontier' best'.
Proof using run_query_rows.
  revert k frontier best. induction n as [|n IH]; intros k frontier best Hinv; cbn [levels].
  { intros [= <- <-]. by rewrite Nat.add_0_r. }
  destruct frontier as [|v0 fr].
  { intros [= <- <-]. eapply inv_exhausted; [done | lia]. }
  set (frontier := v0 :: fr) in *.
  destruct (limit <=? size best); [done |].
  destruct (expand _ _ _ _ _ _ _ _) as [[[next b2] hit]|] eqn:Ex; [|done]. cbn [mbind result_bind].
  destruct hit; cbn [orb].
  { intros H. exfalso. clear -H. assert (Ht : ∀ n k fr b fr' b', levels run_query t q limit n k fr b true = Ok (fr', b', false) → False).
    { clear. intros n. induction n as [|n IH]; intros k fr b fr' b'; cbn [levels]; [done |].
      destruct fr; [done |]. destruct (limit <=? size b); [done |].
      destruct (expand _ _ _ _ _ _ _ _) as [[[? ?] ?]|]; [|done]. cbn. apply IH. }
    by eapply Ht. }
  intros Hl. destruct (expand_level q k frontier limit best (chunks expandBatch frontier) [] best next b2 [] Hinv) as (seen' & Hli & Hseen);
    [ | apply level_inv_nil | exact Ex |].
  { intros v. by rewrite chunks_concat by (unfold expandBatch; lia). }
  rewrite <- Nat.add_succ_comm. eapply IH; [|exact Hl].
  eapply inv_step; [done | done |]. intros e He Hp Hf. apply Hseen. right.
  rewrite chunks_concat by (unfold expandBatch; lia). done.
Qed.

Lemma init_best_lookup start v :
  init_best start !! v = if decide (v ∈ start) then Some (mk_path 0 0 "") else None.
Proof.
  unfold init_best. induction start as [|x start IH] using rev_ind.
  { rewrite decide_False by apply not_elem_of_nil. done. }
  rewrite foldl_app. cbn [foldl]. destruct (decide (v = x)) as [->|Hne].
  - rewrite lookup_insert_eq, decide_True by set_solver. done.
  - rewrite lookup_insert_ne, IH by done. repeat case_decide; set_solver.
Qed.

Lemma init_inv q : inv q (t_edges t) 0 (dedup (Start q)) (init_best (Start q)).
Proof.
  split.
  - intros v st. rewrite init_best_lookup. case_decide; [|done]. intros [= <-]. cbn. split; [lia |].
    by constructor.
  - intros n v r Hn Hw. assert (n = 0) as -> by lia. inversion Hw; subst.
    rewrite init_best_lookup, decide_True by done. eexists. split; [done |]. cbn. lia.
  - intros v. rewrite elem_of_dedup, init_best_lookup. case_decide; [|naive_solver].
    split; [|done]. intros _. eexists. split; done.
Qed.

(** C34: When the walk reports that nothing cut it short, it is exact: a node
    is recorded if and only if some path within the depth bound reaches it, at
    the length of its shortest path, and with the strongest evidence any path
    of that length has, a path being as strong as its weakest edge.  No edge
    category and no node is dropped, and a node reported with strong evidence
    has a path that justifies it. *)
Theorem search_graph_exact q limit depth best :
  search_graph run_query t q limit depth = Ok (best, false) →
  ∀ v d r,
    (∃ via, best !! v = Some (mk_path d r via)) ↔
    d ≤ depth ∧ walk q (t_edges t) d v r ∧
    (∀ d' r', walk q (t_edges t) d' v r' → d ≤ d' ∧ (d' = d → r ≤ r')).
Proof using run_query_rows.
  unfold search_graph. destruct (levels _ _ _ _ _ _ _ _ _) as [[[fr b] tr]|] eqn:El; [|done].
  cbn [mbind result_bind]. intros [= -> Htr] v d r. apply orb_false_iff in Htr as [-> _].
  pose proof (levels_exact q limit depth 0 _ _ _ _ (init_inv q) El) as Hinv. rewrite Nat.add_0_l in Hinv.
  assert (Hmin : ∀ st, best !! v = Some st →
    ∀ d' r', walk q (t_edges t) d' v r' → ps_depth st ≤ d' ∧ (d' = ps_depth st → ps_rank st ≤ r')).
  { intros st Hst d' r' Hw. destruct (inv_sound _ _ _ _ _ Hinv _ _ Hst) as [Hle _].
    destruct (decide (d' ≤ depth)) as [Hd|Hd].
    - destruct (inv_complete _ _ _ _ _ Hinv _ _ _ Hd Hw) as (st' & Hst' & ? & Hr).
      rewrite Hst in Hst'. injection Hst' as <-. split; [done | eauto].
    - split; lia. }
  split.
  - intros [via Hst]. destruct (inv_sound _ _ _ _ _ Hinv _ _ Hst) as [Hle Hw].
    split_and!; [done | done |]. by apply (Hmin _ Hst).
  - intros (Hle & Hw & Hm). destruct (inv_complete _ _ _ _ _ Hinv _ _ _ Hle Hw) as (st & Hst & Hd & Hr).
    destruct (inv_sound _ _ _ _ _ Hinv _ _ Hst) as [_ Hw'].
    destruct (Hm _ _ Hw') as [H1 H2]. assert (ps_depth st = d) as E by lia.
    specialize (Hr E). specialize (H2 E). destruct st as [d0 r0 via]. cbn in *. subst d0.
    assert (r0 = r) as -> by lia. by exists via.
Qed.
End exact.

Definition demo_edge (i src dst : Z) (k : EdgeKind) (ev : Evidence) : Edge := mk_edge i "w" src dst k ev "go".
(** 1 calls 2 twice over, 3 calls 1: who depends on 2? *)
Definition demo_tables : tables :=
  mk_tables "w" (list_to_map ((λ i, (i, mk_node i "w" "r" "function" "f" ("f" +:+ pretty i) "a.go")) <$> [1; 2; 3]%Z))
    [demo_edge 1 1 2 "calls" Inferred; demo_edge 2 1 2 "references" Resolved; demo_edge 3 3 1 "calls" Observed].

Definition demo_query : Query := mk_query [2%Z] Reverse [] 3 100 [].
Definition demo_best : best_map :=
  match search_graph Ok demo_tables demo_query 100 3 with Ok (b, _) => b | Err _ => ∅ end.

Lemma ok_rows (l l' : list Edge) : Ok l = Ok l' → l' ≡ₚ l.
Proof. by intros [= ->]. Qed.

Lemma search_graph_exact_witness :
  (∃ via, demo_best !! 3%Z = Some (mk_path 2 3 via)) ∧ walk demo_query (t_edges demo_tables) 2 3%Z 3.
Proof.
  assert (H : ∃ via, demo_best !! 3%Z = Some (mk_path 2 3 via)) by (eexists; vm_compute; reflexivity).
  split; [exact H |].
  apply (search_graph_exact Ok demo_tables ok_rows demo_query 100 3 demo_best) in H.
  - apply H.
  - vm_compute. reflexivity.
Defined.

(** ** A cut the report does not mention *)

(** One hot pair: as many relationships between nodes 2 and 1 as a hop may
    fetch, each from its own analyzer, and one direct consumer of node 1, node 3. *)
Definition hot_edges : list Edge :=
  ((λ i, mk_edge (Z.of_nat i) "w" 2 1 "calls" Resolved (pretty i)) <$> seq 0 8)
  ++ [mk_edge 20 "w" 3 1 "calls" Resolved "go"].
Definition hot_tables : tables := mk_tables "w" (t_nodes demo_tables) hot_edges.
Definition hot_query : Query := mk_query [1%Z] Reverse [] 3 3 [].

Definition edge_key (e : Edge) : Z * Z * EdgeKind * string := (Src e, Dst e, E_Kind e, Source e).

(** A traversal knows that it was cut short and does not say so: the mark
    is not part of its answer, and the caller's own test (as many nodes as the
    limit, as [ImpactOf] does) does not replace it.  A hop that hits its row cap
    drops relationships too: on a graph whose rows satisfy the table's
    uniqueness constraint, the walk from node 1 is cut short and returns fewer
    nodes than its limit, and a direct consumer of node 1 is not among them. *)
Theorem Traverse_cut_unreported :
  NoDup (edge_key <$> t_edges hot_tables) ∧
  walk hot_query (t_edges hot_tables) 1 3%Z 0 ∧
  match search_graph Ok hot_tables hot_query 3 3, Traverse Ok hot_tables hot_query with
  | Ok (_, cut), Ok reached =>
      cut = true ∧ length reached < 3 ∧ (N_ID ∘ Re_Node <$> reached) = [1%Z; 2%Z]
  | _, _ => False
  end.
Proof.
  split_and!.
  - apply (bool_decide_eq_true_1 (NoDup (edge_key <$> hot_edges))). vm_compute. reflexivity.
  - refine (walk_edge hot_query hot_edges 0 (mk_edge 20 "w" 3 1 "calls" Resolved "go") 0 _ _ _).
    + constructor. by left.
    + unfold hot_edges. set_solver.
    + reflexivity.
  - vm_compute. split; [done | split; [apply le_n | done]].
Qed.
