(* ===== verification/IndexDB.v ===== *)
(** The index database of a workspace: the tables of
    [src/internal/store/migrations/index_001.sql] the indexer writes, with their
    keys, references and checks, and the graph's writes and lookups in
    [src/internal/graph/sqlite.go].  A statement that breaks a constraint fails,
    and with it the transaction it is in. *)
From S2P Require Import Prelude GoStrings GoPath Graph.

Open Scope string_scope.
Open Scope list_scope.
Open Scope nat_scope.

(** ** Tables *)

(** [store/migrations/index_001.sql:12-19 repositories] *)
Record RepositoryRow := mk_repo_row { Rr_ws : string; Rr_name : string; Rr_path : string; Rr_remote : string; Rr_branch : string }.
(** [store/migrations/index_001.sql:31-44 files] *)
Record FileRow := mk_file_row {
  Fr_id : Z; Fr_ws : string; Fr_repo : string; Fr_wt : string; Fr_path : string; Fr_lang : string; Fr_size : Z; Fr_hash : string; Fr_at : Z }.
(** [store/migrations/index_001.sql:77-92 edges] the rows of the graph, with their
    attributes. *)
Record EdgeRow := mk_edge_row { Er_edge : Edge; Er_attrs : string }.
(** [store/migrations/index_001.sql:96-107 chunks] with the columns of
    [chunks_fts] of the same row. *)
Record ChunkRow := mk_chunk_row {
  Cr_id : Z; Cr_ws : string; Cr_repo : string; Cr_file : Z; Cr_start : Z; Cr_end : Z; Cr_hash : string; Cr_tokens : Z;
  Cr_body : string; Cr_path : string; Cr_symbol : string }.
(** [store/migrations/index_001.sql:131-142 index_keys] *)
Record KeyRow := mk_key_row { Kr_manifest : string; Kr_lock : string; Kr_toolchain : string; Kr_dirty : bool; Kr_at : Z }.

(** The database of the workspace [Ix_ws]; the rows of [nodes] by their ids, the
    other tables in the order of theirs. *)
Record index_db := mk_index {
  Ix_ws : string; Ix_repos : gmap string RepositoryRow; Ix_files : list FileRow; Ix_nodes : gmap Z Node; Ix_edges : list EdgeRow;
  Ix_chunks : list ChunkRow; Ix_keys : gmap (string * string) KeyRow }.
Definition with_repos v d := mk_index (Ix_ws d) v (Ix_files d) (Ix_nodes d) (Ix_edges d) (Ix_chunks d) (Ix_keys d).
Definition with_files v d := mk_index (Ix_ws d) (Ix_repos d) v (Ix_nodes d) (Ix_edges d) (Ix_chunks d) (Ix_keys d).
Definition with_nodes v d := mk_index (Ix_ws d) (Ix_repos d) (Ix_files d) v (Ix_edges d) (Ix_chunks d) (Ix_keys d).
Definition with_edges v d := mk_index (Ix_ws d) (Ix_repos d) (Ix_files d) (Ix_nodes d) v (Ix_chunks d) (Ix_keys d).
Definition with_chunks v d := mk_index (Ix_ws d) (Ix_repos d) (Ix_files d) (Ix_nodes d) (Ix_edges d) v (Ix_keys d).
Definition with_keys v d := mk_index (Ix_ws d) (Ix_repos d) (Ix_files d) (Ix_nodes d) (Ix_edges d) (Ix_chunks d) v.

(** The id SQLite gives the next row of an [INTEGER PRIMARY KEY]. *)
Definition next_id (ids : list Z) : Z := (1 + foldr Z.max 0 ids)%Z.

(** [store/migrations/index_001.sql:54-58 nodes] *)
Definition node_kinds : list string :=
  ["file"; "directory"; "package"; "module"; "service"; "api"; "route"; "handler"; "type"; "function"; "method"; "class"; "interface";
   "field"; "variable"; "constant"; "dependency"; "config_key"; "infra_resource"; "deployment"; "test"; "build_target"; "schema"; "table";
   "column"; "commit"; "doc"].
(** [store/migrations/index_001.sql:82-85 edges] *)
Definition edge_kinds : list string :=
  ["contains"; "imports"; "depends_on"; "calls"; "implements"; "uses_type"; "references"; "routes_to"; "handles"; "reads_config";
   "writes_schema"; "reads_schema"; "tests"; "builds"; "deploys"; "provisions"; "touches"; "extends"; "embeds"; "returns"; "accepts"].

Definition constraint_failed (what : string) : error := errorf ("constraint failed: " +:+ what).

(** One transaction. *)
Definition index_tx {A : Type} (fn : index_db → result (A * index_db)) : M index_db A := λ d,
  match fn d with Ok (a, d') => (Ok a, d') | Err e => (Err e, d) end.

(** ** Nodes *)

Notation node_key := (string * string * string * string)%type.
(** [store/migrations/index_001.sql:69-69 nodes] the columns of the unique key. *)
Definition key_of_node (n : Node) : node_key := (N_Repository n, N_Worktree n, N_Kind n, N_FQN n).
Definition node_at (k : node_key) (nodes : gmap Z Node) : option Z :=
  fst <$> head (List.filter (λ e : Z * Node, bool_decide (key_of_node e.2 = k)) (map_to_list nodes)).

(** The row of a node: its path is that of its file, and not kept. *)
Definition node_row (id : Z) (ws : string) (n : Node) : Node :=
  mk_full_node id ws (N_Repository n) (N_Worktree n) (N_Kind n) (N_Name n) (N_FQN n) (N_FileID n) "" (N_StartLine n) (N_EndLine n)
    (N_Signature n) (N_Visibility n) (N_ContentHash n) (if String.eqb (N_Attrs n) "" then "{}" else N_Attrs n).

(** [graph/sqlite.go:58-75 sqliteGraph.UpsertNodes] one node: a row with its key
    keeps its id and its workspace. *)
Definition put_node (i : nat) (n : Node) (d : index_db) : result (Z * index_db) :=
  if String.eqb (N_Kind n) "" || String.eqb (N_FQN n) "" then Err (errorf ("graph: node " +:+ pretty i +:+ " has no kind or fqn"))
  else if negb (mem (N_Kind n) node_kinds) || bool_decide (Ix_repos d !! N_Repository n = None)
          || negb (Z.eqb (N_FileID n) 0) && negb (existsb (λ f, Z.eqb (Fr_id f) (N_FileID n)) (Ix_files d))
  then Err (wrap ("graph: upsert node " +:+ N_FQN n +:+ ": ") (constraint_failed "nodes"))
  else
    match node_at (key_of_node n) (Ix_nodes d) with
    | Some id =>
        let ws := from_option N_Workspace (Ix_ws d) (Ix_nodes d !! id) in
        Ok (id, with_nodes (<[id := node_row id ws n]> (Ix_nodes d)) d)
    | None =>
        let id := next_id (fst <$> map_to_list (Ix_nodes d)) in
        Ok (id, with_nodes (<[id := node_row id (Ix_ws d) n]> (Ix_nodes d)) d)
    end.

Fixpoint put_nodes (i : nat) (ns : list Node) (d : index_db) : result (list Z * index_db) :=
  match ns with
  | [] => Ok ([], d)
  | n :: ns =>
      x ← put_node i n d;
      y ← put_nodes (S i) ns x.2;
      Ok (x.1 :: y.1, y.2)
  end.

(** [graph/sqlite.go:39-79 sqliteGraph.UpsertNodes] *)
Definition UpsertNodes (ns : list Node) : M index_db (list Z) := index_tx (put_nodes 0 ns).
(** [graph/sqlite.go:31-37 sqliteGraph.UpsertNode] *)
Definition UpsertNode (n : Node) : M index_db Z := ids ← UpsertNodes [n]; mret (default 0%Z (head ids)).

(** ** Edges *)

Notation edge_key := (Z * Z * EdgeKind * string)%type.
(** [store/migrations/index_001.sql:91-91 edges] the columns of the unique key. *)
Definition key_of_edge (e : Edge) : edge_key := (Src e, Dst e, E_Kind e, Source e).

(** [graph/sqlite.go:97-110 sqliteGraph.UpsertEdges] one edge: a row with its key
    keeps its id and its workspace. *)
Definition put_edge (e : EdgeRow) (d : index_db) : result index_db :=
  let attrs := if String.eqb (Er_attrs e) "" then "{}" else Er_attrs e in
  let g := Er_edge e in
  if negb (mem (E_Kind g) edge_kinds) || bool_decide (Ix_nodes d !! Src g = None) || bool_decide (Ix_nodes d !! Dst g = None)
  then Err (wrap ("graph: upsert edge " +:+ E_Kind g +:+ " " +:+ pretty (Src g) +:+ "->" +:+ pretty (Dst g) +:+ ": ") (constraint_failed "edges"))
  else if existsb (λ r, bool_decide (key_of_edge (Er_edge r) = key_of_edge g)) (Ix_edges d)
  then Ok (with_edges ((λ r, if bool_decide (key_of_edge (Er_edge r) = key_of_edge g)
                             then mk_edge_row (mk_edge (E_ID (Er_edge r)) (E_Workspace (Er_edge r)) (Src g) (Dst g) (E_Kind g) (E_Evidence g) (Source g)) attrs
                             else r) <$> Ix_edges d) d)
  else Ok (with_edges (Ix_edges d ++ [mk_edge_row (mk_edge (next_id ((λ r, E_ID (Er_edge r)) <$> Ix_edges d)) (Ix_ws d) (Src g) (Dst g)
                                                      (E_Kind g) (E_Evidence g) (Source g)) attrs]) d).
Fixpoint put_edges (es : list EdgeRow) (d : index_db) : result index_db :=
  match es with
  | [] => Ok d
  | e :: es => d ← put_edge e d; put_edges es d
  end.
(** [graph/sqlite.go:81-112 sqliteGraph.UpsertEdges] *)
Definition UpsertEdges (es : list EdgeRow) : M index_db unit :=
  _ ← lift (each (λ e, Edge_Validate (Er_edge e)) es);
  index_tx (λ d, d ← put_edges es d; Ok (tt, d)).

(** ** Lookups *)

(** [graph/sqlite.go:115-129 scanNode] the path of a node is its file's. *)
Definition scan_row (d : index_db) (n : Node) : Node :=
  let path := default "" (Fr_path <$> find (λ f, Z.eqb (Fr_id f) (N_FileID n)) (Ix_files d)) in
  mk_full_node (N_ID n) (N_Workspace n) (N_Repository n) (N_Worktree n) (N_Kind n) (N_Name n) (N_FQN n) (N_FileID n) path (N_StartLine n)
    (N_EndLine n) (N_Signature n) (N_Visibility n) (N_ContentHash n) (N_Attrs n).

(** The tables the graph's queries read. *)
Definition graph_tables (d : index_db) : tables :=
  mk_tables (Ix_ws d) (scan_row d <$> Ix_nodes d) (Er_edge <$> Ix_edges d).

(** [graph/sqlite.go:140-148 sqliteGraph.NodeByFQN] the first row that matches. *)
Definition NodeByFQN (d : index_db) (repositoryID kind fqn : string) : result Node :=
  match List.filter (λ e : Z * Node, String.eqb (N_Repository e.2) repositoryID && String.eqb (N_Kind e.2) kind && String.eqb (N_FQN e.2) fqn)
          (map_to_list (Ix_nodes d)) with
  | [] => Err (mk_error (Some "graph: node not found") ("graph: node not found: " +:+ kind +:+ " " +:+ fqn))
  | e :: _ => verify (graph_tables d) (scan_row d e.2)
  end.

(** [index/index.go:777-783 Indexer.clearGraph] nodes take their edges with them. *)
Definition delete_nodes (repositoryID : string) (d : index_db) : index_db :=
  let nodes := filter (λ e : Z * Node, N_Repository e.2 ≠ repositoryID) (Ix_nodes d) in
  let stays := λ id, bool_decide (is_Some (nodes !! id)) in
  with_edges (List.filter (λ r, stays (Src (Er_edge r)) && stays (Dst (Er_edge r))) (Ix_edges d)) (with_nodes nodes d).

(** ** What the tables keep *)

(** Every row is of this workspace, of a repository and a file there is; a key
    names one row; an edge joins two nodes. *)
Record index_ok (d : index_db) : Prop := {
  ok_id : ∀ id n, Ix_nodes d !! id = Some n → N_ID n = id ∧ (0 < id)%Z;
  ok_key : ∀ id id' n n', Ix_nodes d !! id = Some n → Ix_nodes d !! id' = Some n' → key_of_node n = key_of_node n' → id = id';
  ok_node : ∀ id n, Ix_nodes d !! id = Some n → N_Workspace n = Ix_ws d ∧ is_Some (Ix_repos d !! N_Repository n) ∧
              N_Kind n ∈ node_kinds ∧ (N_FileID n = 0%Z ∨ ∃ f, f ∈ Ix_files d ∧ Fr_id f = N_FileID n);
  ok_edge : ∀ r, r ∈ Ix_edges d → E_Workspace (Er_edge r) = Ix_ws d ∧ is_Some (Ix_nodes d !! Src (Er_edge r)) ∧
              is_Some (Ix_nodes d !! Dst (Er_edge r)) ∧ E_Kind (Er_edge r) ∈ edge_kinds ∧ Graph.Valid (E_Evidence (Er_edge r)) = true;
  ok_edge_key : NoDup ((λ r, key_of_edge (Er_edge r)) <$> Ix_edges d);
  ok_file : ∀ f, f ∈ Ix_files d → Fr_ws f = Ix_ws d ∧ is_Some (Ix_repos d !! Fr_repo f);
  ok_file_key : NoDup ((λ f, (Fr_repo f, Fr_wt f, Fr_path f)) <$> Ix_files d) ∧ NoDup (Fr_id <$> Ix_files d);
  ok_chunk : ∀ c, c ∈ Ix_chunks d → Cr_ws c = Ix_ws d ∧ is_Some (Ix_repos d !! Cr_repo c) ∧ ∃ f, f ∈ Ix_files d ∧ Fr_id f = Cr_file c
}.

Lemma fresh_row_id ids id : id ∈ ids → (id < next_id ids)%Z.
Proof.
  unfold next_id. induction ids as [|i ids IH]; [by intros ?%not_elem_of_nil |]. cbn [foldr].
  intros [->|H]%elem_of_cons; [lia | specialize (IH H); lia].
Qed.
Lemma next_id_pos ids : (0 < next_id ids)%Z.
Proof. unfold next_id. induction ids as [|i ids IH]; cbn [foldr]; lia. Qed.
Lemma next_node_id (nodes : gmap Z Node) id n : nodes !! id = Some n → (id < next_id (fst <$> map_to_list nodes))%Z.
Proof. intros H. apply fresh_row_id, list_elem_of_fmap. exists (id, n). split; [done | by apply elem_of_map_to_list]. Qed.

Lemma head_filter_some {A : Type} (p : A → bool) l x : head (List.filter p l) = Some x → x ∈ l ∧ p x = true.
Proof.
  intros H. assert (Hin : x ∈ List.filter p l) by (destruct (List.filter p l); [done |]; injection H as ->; left).
  apply list_elem_of_In, filter_In in Hin as [? ?]. split; [by apply list_elem_of_In | done].
Qed.
Lemma head_filter_none {A : Type} (p : A → bool) l x : head (List.filter p l) = None → x ∈ l → p x = false.
Proof.
  intros H Hx. destruct (p x) eqn:E; [|done]. assert (Hin : x ∈ List.filter p l) by (apply list_elem_of_In, filter_In; split; [by apply list_elem_of_In | done]).
  destruct (List.filter p l); [by apply not_elem_of_nil in Hin | done].
Qed.

Lemma node_at_some k nodes id : node_at k nodes = Some id → ∃ n, nodes !! id = Some n ∧ key_of_node n = k.
Proof.
  unfold node_at. destruct (head _) as [[i n]|] eqn:E; [|done]. intros [= ->]. apply head_filter_some in E as [Hin Hk].
  exists n. split; [by apply elem_of_map_to_list | by apply bool_decide_eq_true in Hk].
Qed.
Lemma node_at_none k nodes id n : node_at k nodes = None → nodes !! id = Some n → key_of_node n ≠ k.
Proof.
  unfold node_at. destruct (head _) as [e|] eqn:E; [done |]. intros _ Hn Hk.
  apply (head_filter_none _ _ (id, n)) in E; [|by apply elem_of_map_to_list]. by apply bool_decide_eq_false in E.
Qed.
Lemma node_at_ok d k id n : index_ok d → Ix_nodes d !! id = Some n → key_of_node n = k → node_at k (Ix_nodes d) = Some id.
Proof.
  intros Hd Hn Hk. destruct (node_at k (Ix_nodes d)) as [i|] eqn:E.
  - apply node_at_some in E as (m & Hm & Hkm). f_equal. apply (ok_key d Hd i id m n); congruence.
  - by destruct (node_at_none _ _ _ _ E Hn).
Qed.

(** The row a key names. *)
Definition row_at (d : index_db) (k : node_key) : option Node := id ← node_at k (Ix_nodes d); Ix_nodes d !! id.
Lemma row_at_some d k n : index_ok d → row_at d k = Some n ↔ ∃ id, Ix_nodes d !! id = Some n ∧ key_of_node n = k.
Proof.
  intros Hd. unfold row_at. split.
  - destruct (node_at k (Ix_nodes d)) as [id|] eqn:E; [|done]. cbn. intros H. apply node_at_some in E as (m & Hm & Hk). exists id. split; congruence.
  - intros (id & Hn & Hk). by rewrite (node_at_ok d k id n).
Qed.

(** What writing leaves of several writes to a key: the newest. *)
Definition newest {K V : Type} `{EqDecision K} (k : K) (l : list (K * V)) (old : option V) : option V :=
  foldl (λ v e, if decide (e.1 = k) then Some e.2 else v) old l.
Lemma newest_app {K V : Type} `{EqDecision K} (k : K) (l l' : list (K * V)) old : newest k (l ++ l') old = newest k l' (newest k l old).
Proof. apply foldl_app. Qed.
Lemma newest_none {K V : Type} `{EqDecision K} (k : K) (l : list (K * V)) old : k ∉ l.*1 → newest k l old = old.
Proof.
  revert old. induction l as [|[k' v] l IH]; intros old Hk; [done |]. cbn [newest foldl fst snd].
  rewrite decide_False by (intros ->; apply Hk; left). apply IH. intros H. apply Hk. by right.
Qed.
Lemma newest_some {K V : Type} `{EqDecision K} (k : K) (l : list (K * V)) old v : newest k l old = Some v → (k, v) ∈ l ∨ (k ∉ l.*1 ∧ old = Some v).
Proof.
  revert old. induction l as [|[k' v'] l IH]; intros old; cbn [newest foldl fst snd]; [intros ->; right; split; [apply not_elem_of_nil | done] |].
  intros [H|[Hn H]]%IH; [left; by right |]. case_decide as E.
  - left. injection H as ->. subst k'. left.
  - right. split; [|done]. cbn. by apply not_elem_of_cons.
Qed.
Lemma newest_is_some {K V : Type} `{EqDecision K} (k : K) (l : list (K * V)) old : k ∈ l.*1 → is_Some (newest k l old).
Proof.
  revert old. induction l as [|[k' v'] l IH]; intros old; [by intros ?%not_elem_of_nil |]. cbn [newest foldl fst snd].
  destruct (decide (k ∈ l.*1)) as [H|H]; [by intros; apply IH |]. intros [->|?]%elem_of_cons; [|done].
  rewrite decide_True by done. change (is_Some (newest k' l (Some v'))). by rewrite newest_none.
Qed.

(** What a node says, whatever its id and workspace. *)
Definition content (n : Node) : Node := node_row 0 "" n.
Lemma content_row id ws n : content (node_row id ws n) = content n.
Proof. unfold content, node_row. cbn. f_equal. destruct (String.eqb (N_Attrs n) "") eqn:E; [done | by rewrite E]. Qed.
Lemma key_of_row id ws n : key_of_node (node_row id ws n) = key_of_node n.
Proof. done. Qed.

(** The same tables but for the nodes, the edges. *)
Definition same_but_nodes (d d' : index_db) : Prop := d' = with_nodes (Ix_nodes d') d.
Definition same_but_edges (d d' : index_db) : Prop := d' = with_edges (Ix_edges d') d.

Lemma put_node_inv i n d id d' : put_node i n d = Ok (id, d') →
  N_Kind n ∈ node_kinds ∧ is_Some (Ix_repos d !! N_Repository n) ∧
  (N_FileID n = 0%Z ∨ ∃ f, f ∈ Ix_files d ∧ Fr_id f = N_FileID n) ∧
  ((∃ old, Ix_nodes d !! id = Some old ∧ key_of_node old = key_of_node n ∧
      d' = with_nodes (<[id := node_row id (N_Workspace old) n]> (Ix_nodes d)) d) ∨
   (node_at (key_of_node n) (Ix_nodes d) = None ∧ id = next_id (fst <$> map_to_list (Ix_nodes d)) ∧
      d' = with_nodes (<[id := node_row id (Ix_ws d) n]> (Ix_nodes d)) d)).
Proof.
  unfold put_node. destruct (_ || _); [done |]. destruct (_ || _) eqn:E; [done |].
  apply orb_false_iff in E as [[Ek Er]%orb_false_iff Ef]. apply negb_false_iff, mem_true in Ek. apply bool_decide_eq_false, not_eq_None_Some in Er.
  assert (Hfile : N_FileID n = 0%Z ∨ ∃ f, f ∈ Ix_files d ∧ Fr_id f = N_FileID n).
  { destruct (Z.eqb_spec (N_FileID n) 0) as [?|?]; [by left | right]. cbn [negb andb] in Ef. apply negb_false_iff, existsb_exists in Ef as (f & Hin & Hf).
    exists f. split; [by apply list_elem_of_In | by apply Z.eqb_eq]. }
  destruct (node_at _ _) as [i'|] eqn:En; intros [= <- <-]; (split_and!; [done.. |]).
  - left. apply node_at_some in En as (old & Hold & Hk). exists old. by rewrite Hold.
  - by right.
Qed.

Lemma put_node_ok i n d id d' : index_ok d → put_node i n d = Ok (id, d') →
  index_ok d' ∧ same_but_nodes d d' ∧ Ix_nodes d' !! id = Some (node_row id (Ix_ws d) n) ∧
  (∀ id', id' ≠ id → Ix_nodes d' !! id' = Ix_nodes d !! id') ∧
  (∀ old, Ix_nodes d !! id = Some old → key_of_node old = key_of_node n) ∧
  (∀ id' m, Ix_nodes d !! id' = Some m → key_of_node m = key_of_node n → id' = id).
Proof.
  intros Hd Hput. apply put_node_inv in Hput as (Hkind & Hrepo & Hfile & Hcase).
  assert (Hrow : d' = with_nodes (<[id := node_row id (Ix_ws d) n]> (Ix_nodes d)) d ∧ (0 < id)%Z ∧
    (∀ old, Ix_nodes d !! id = Some old → key_of_node old = key_of_node n) ∧
    (∀ id' m, Ix_nodes d !! id' = Some m → key_of_node m = key_of_node n → id' = id)).
  { destruct Hcase as [(old & Hold & Hk & ->)|(Hnone & Hid & ->)].
    - destruct (ok_id d Hd _ _ Hold) as [_ Hpos]. destruct (ok_node d Hd _ _ Hold) as [-> _]. split_and!; [done | done | congruence |].
      intros id' m Hm Hkm. apply (ok_key d Hd id' id m old); congruence.
    - split_and!; [done | rewrite Hid; apply next_id_pos | |].
      + intros old Hold%next_node_id. rewrite <- Hid in Hold. lia.
      + intros id' m Hm Hkm. by destruct (node_at_none _ _ _ _ Hnone Hm). }
  destruct Hrow as (-> & Hpos & Hsame & Huniq). cbn [with_nodes Ix_nodes].
  split; [|split_and!; [done | apply lookup_insert_eq | intros; by apply lookup_insert_ne | done | done]].
  split; cbn [with_nodes Ix_nodes Ix_ws Ix_repos Ix_files Ix_edges Ix_chunks]; try apply Hd.
  - intros id' m. destruct (decide (id' = id)) as [->|Hne]; [rewrite lookup_insert_eq; by intros [= <-] | rewrite lookup_insert_ne by done; apply Hd].
  - intros i1 i2 m1 m2. destruct (decide (i1 = id)) as [->|H1], (decide (i2 = id)) as [->|H2]; rewrite ?lookup_insert_eq, ?lookup_insert_ne by done.
    + done.
    + intros [= <-] Hm Hk. symmetry. by apply (Huniq i2 m2).
    + intros Hm [= <-] Hk. by apply (Huniq i1 m1).
    + apply Hd.
  - intros id' m. destruct (decide (id' = id)) as [->|Hne]; [rewrite lookup_insert_eq; by intros [= <-] | rewrite lookup_insert_ne by done; apply Hd].
  - intros r (Hw & Hs & Ht & H)%(ok_edge d Hd). split_and!; [done | | | apply H..]; apply lookup_insert_is_Some; destruct (decide (id = Src (Er_edge r))), (decide (id = Dst (Er_edge r))); auto.
Qed.

Lemma index_ok_nodes_only d d' : same_but_nodes d d' → Ix_ws d' = Ix_ws d ∧ Ix_repos d' = Ix_repos d ∧ Ix_files d' = Ix_files d ∧
  Ix_edges d' = Ix_edges d ∧ Ix_chunks d' = Ix_chunks d ∧ Ix_keys d' = Ix_keys d.
Proof. by intros ->. Qed.
Lemma index_ok_edges_only d d' : same_but_edges d d' → Ix_ws d' = Ix_ws d ∧ Ix_repos d' = Ix_repos d ∧ Ix_files d' = Ix_files d ∧
  Ix_nodes d' = Ix_nodes d ∧ Ix_chunks d' = Ix_chunks d ∧ Ix_keys d' = Ix_keys d.
Proof. by intros ->. Qed.
Lemma same_but_nodes_trans d1 d2 d3 : same_but_nodes d1 d2 → same_but_nodes d2 d3 → same_but_nodes d1 d3.
Proof. unfold same_but_nodes. intros H1 H2. rewrite H2, H1. done. Qed.
Lemma same_but_edges_trans d1 d2 d3 : same_but_edges d1 d2 → same_but_edges d2 d3 → same_but_edges d1 d3.
Proof. unfold same_but_edges. intros H1 H2. rewrite H2, H1. done. Qed.

Definition written (ns : list Node) : list (node_key * Node) := (λ n, (key_of_node n, content n)) <$> ns.

(** One node is written over the row of its key and no other. *)
Lemma put_node_row i n d id d' k : index_ok d → put_node i n d = Ok (id, d') →
  content <$> row_at d' k = newest k (written [n]) (content <$> row_at d k).
Proof.
  intros Hd Hput. destruct (put_node_ok i n d id d' Hd Hput) as (Hd' & _ & Hid & Hother & Hsame & Huniq). cbn [newest foldl written fmap list_fmap fst snd].
  case_decide as E.
  - assert (row_at d' k = Some (node_row id (Ix_ws d) n)) as ->; [|cbn; by rewrite content_row]. apply row_at_some; [done |]. by exists id.
  - f_equal. apply option_eq. intros m. rewrite !row_at_some by done. split; intros (id' & Hm & Hk); exists id'; (split; [|done]).
    + rewrite Hother in Hm; [done |]. intros ->. rewrite Hid in Hm. injection Hm as <-. by rewrite key_of_row in Hk.
    + rewrite Hother; [done |]. intros ->. specialize (Hsame m Hm). congruence.
Qed.

Lemma put_nodes_ok ns : ∀ i d ids d', index_ok d → put_nodes i ns d = Ok (ids, d') →
  index_ok d' ∧ same_but_nodes d d' ∧ length ids = length ns ∧
  (∀ k, content <$> row_at d' k = newest k (written ns) (content <$> row_at d k)) ∧
  (∀ id n, Ix_nodes d !! id = Some n → ∃ n', Ix_nodes d' !! id = Some n' ∧ key_of_node n' = key_of_node n) ∧
  (∀ id n, Ix_nodes d !! id = Some n → key_of_node n ∉ (written ns).*1 → Ix_nodes d' !! id = Some n) ∧
  (∀ id n', Ix_nodes d' !! id = Some n' → Ix_nodes d !! id = None → key_of_node n' ∈ (written ns).*1) ∧
  (∀ j n id, ns !! j = Some n → ids !! j = Some id → node_at (key_of_node n) (Ix_nodes d') = Some id).
Proof.
  induction ns as [|n ns IH]; intros i d ids d' Hd; cbn [put_nodes].
  - intros [= <- <-]. split_and!; try done; [by destruct d | by intros; eexists | congruence].
  - destruct (put_node i n d) as [[id d1]|] eqn:E1; [|done]. cbn [mbind result_bind snd fst].
    destruct (put_nodes (S i) ns d1) as [[ids1 d2]|] eqn:E2; [|done]. cbn [mbind result_bind snd fst]. intros [= <- <-].
    pose proof (put_node_row i n d id d1) as Hrow. destruct (put_node_ok i n d id d1 Hd E1) as (Hd1 & Hs1 & Hid & Hother & Hsame & Huniq).
    destruct (IH (S i) d1 ids1 d2 Hd1 E2) as (Hd2 & Hs2 & Hlen & Hrows & Hkeys & Hkeep & Hnew & Hids). split_and!.
    + done.
    + by eapply same_but_nodes_trans.
    + cbn. by rewrite Hlen.
    + intros k. rewrite Hrows, (Hrow k) by done. symmetry. apply (newest_app k (written [n]) (written ns)).
    + intros id' m Hm. destruct (decide (id' = id)) as [->|Hne].
      * destruct (Hkeys _ _ Hid) as (n' & Hn' & Hk). exists n'. split; [done |]. rewrite Hk, key_of_row. symmetry. by apply Hsame.
      * apply Hkeys. by rewrite Hother.
    + intros id' m Hm Hk. cbn in Hk. apply not_elem_of_cons in Hk as [Hk1 Hk2]. apply Hkeep; [|done]. rewrite Hother; [done |]. intros ->. by apply Hk1, Hsame.
    + intros id' n' Hn' Hnone. cbn. destruct (decide (id' = id)) as [->|Hne].
      * destruct (Hkeys _ _ Hid) as (n2 & Hn2 & Hk). rewrite Hn2 in Hn'. injection Hn' as ->. rewrite Hk, key_of_row. left.
      * right. apply (Hnew id' n'); [done |]. by rewrite Hother.
    + intros [|j] m id'; cbn.
      * intros [= <-] [= <-]. destruct (Hkeys _ _ Hid) as (n' & Hn' & Hk). apply (node_at_ok d2 _ _ n'); [done.. | by rewrite Hk, key_of_row].
      * apply Hids.
Qed.

(** *** Edges *)

Definition edge_says (e : EdgeRow) : Evidence * string := (E_Evidence (Er_edge e), if String.eqb (Er_attrs e) "" then "{}" else Er_attrs e).
Definition edge_writes (es : list EdgeRow) : list (edge_key * (Evidence * string)) := (λ e, (key_of_edge (Er_edge e), edge_says e)) <$> es.
(** What the edge of a key says. *)
Definition edge_at (d : index_db) (k : edge_key) : option (Evidence * string) :=
  edge_says <$> head (List.filter (λ r, bool_decide (key_of_edge (Er_edge r) = k)) (Ix_edges d)).

Lemma edge_at_none d k : edge_at d k = None ↔ k ∉ (λ r, key_of_edge (Er_edge r)) <$> Ix_edges d.
Proof.
  unfold edge_at. rewrite fmap_None. split.
  - intros H (r & -> & Hr)%list_elem_of_fmap. apply (head_filter_none _ _ r) in H; [|done]. by apply bool_decide_eq_false in H.
  - intros H. destruct (head _) as [r|] eqn:E; [|done]. apply head_filter_some in E as [Hr Hk]. destruct H. apply bool_decide_eq_true in Hk as <-.
    apply list_elem_of_fmap. by exists r.
Qed.

Lemma put_edge_at e d d' k : put_edge e d = Ok d' → edge_at d' k = newest k (edge_writes [e]) (edge_at d k).
Proof.
  unfold put_edge. destruct (_ || _); [done |]. cbn [newest foldl edge_writes fmap list_fmap fst snd].
  destruct (existsb _ _) eqn:Ex; intros [= <-]; unfold edge_at; cbn [with_edges Ix_edges].
  - clear -Ex. induction (Ix_edges d) as [|r l IH]; [done |]. cbn [fmap list_fmap List.filter]. cbn [existsb] in Ex.
    destruct (bool_decide (key_of_edge (Er_edge r) = key_of_edge (Er_edge e))) eqn:Er.
    + apply bool_decide_eq_true in Er. cbn [Er_edge]. change (key_of_edge (mk_edge _ _ (Src (Er_edge e)) (Dst (Er_edge e)) (E_Kind (Er_edge e)) _ (Source (Er_edge e)))) with (key_of_edge (Er_edge e)).
      rewrite Er. case_decide as E.
      * rewrite bool_decide_eq_true_2 by done. cbn [head fmap option_fmap option_map]. unfold edge_says. cbn [Er_edge Er_attrs E_Evidence].
        destruct (String.eqb (Er_attrs e) "") eqn:Ea; [done | by rewrite Ea].
      * rewrite bool_decide_eq_false_2 by done. f_equal. f_equal. clear -E. induction l as [|r l IH]; [done |]. cbn [fmap list_fmap List.filter].
        destruct (bool_decide (key_of_edge (Er_edge r) = key_of_edge (Er_edge e))) eqn:Er.
        -- apply bool_decide_eq_true in Er. cbn [Er_edge]. rewrite Er, bool_decide_eq_false_2 by done.
           change (key_of_edge (mk_edge _ _ (Src (Er_edge e)) (Dst (Er_edge e)) (E_Kind (Er_edge e)) _ (Source (Er_edge e)))) with (key_of_edge (Er_edge e)).
           by rewrite bool_decide_eq_false_2.
        -- destruct (bool_decide (key_of_edge (Er_edge r) = k)); [by rewrite IH | done].
    + cbn [orb] in Ex. specialize (IH Ex). case_decide as E.
      * subst k. by rewrite Er.
      * destruct (bool_decide (key_of_edge (Er_edge r) = k)); [done | exact IH].
  - rewrite List.filter_app. cbn [List.filter Er_edge]. change (key_of_edge (mk_edge _ _ (Src (Er_edge e)) (Dst (Er_edge e)) (E_Kind (Er_edge e)) _ (Source (Er_edge e)))) with (key_of_edge (Er_edge e)).
    case_decide as E.
    + rewrite bool_decide_eq_true_2 by done.
      assert (List.filter (λ r, bool_decide (key_of_edge (Er_edge r) = k)) (Ix_edges d) = []) as ->.
      { subst k. clear -Ex. induction (Ix_edges d) as [|r l IH]; [done |]. cbn [existsb List.filter] in *. apply orb_false_iff in Ex as [-> Hl]. by apply IH. }
      cbn. unfold edge_says. cbn [Er_edge Er_attrs E_Evidence]. destruct (String.eqb (Er_attrs e) "") eqn:Ea; [done | by rewrite Ea].
    + rewrite bool_decide_eq_false_2 by done. by rewrite app_nil_r.
Qed.

Lemma put_edge_ok e d d' : index_ok d → Graph.Valid (E_Evidence (Er_edge e)) = true → put_edge e d = Ok d' →
  index_ok d' ∧ same_but_edges d d' ∧ is_Some (Ix_nodes d !! Src (Er_edge e)) ∧ is_Some (Ix_nodes d !! Dst (Er_edge e)).
Proof.
  intros Hd Hev. unfold put_edge. destruct (_ || _) eqn:E; [done |].
  apply orb_false_iff in E as [[Ek Es]%orb_false_iff Et]. apply negb_false_iff, mem_true in Ek.
  apply bool_decide_eq_false, not_eq_None_Some in Es, Et.
  destruct (existsb _ _) eqn:Ex; intros [= <-]; (split; [|done]).
  - split; try apply Hd; cbn [with_edges Ix_edges Ix_ws Ix_nodes].
    + intros r (r0 & -> & Hr0)%list_elem_of_fmap. case_bool_decide; cbn [Er_edge E_Workspace Src Dst E_Kind E_Evidence]; [|by apply Hd].
      split_and!; [by apply Hd | done..].
    + rewrite <- list_fmap_compose. erewrite list_fmap_ext; [apply (ok_edge_key d Hd) |]. intros i r _. cbn. by case_bool_decide.
  - split; try apply Hd; cbn [with_edges Ix_edges Ix_ws Ix_nodes].
    + intros r [Hr| ->%list_elem_of_singleton]%elem_of_app; [by apply Hd | done].
    + rewrite fmap_app. apply NoDup_app. split_and!; [apply (ok_edge_key d Hd) | | apply NoDup_singleton].
      intros k (r & -> & Hr)%list_elem_of_fmap Hin%list_elem_of_singleton. apply list_elem_of_In in Hr.
      assert (existsb (λ r, bool_decide (key_of_edge (Er_edge r) = key_of_edge (Er_edge e))) (Ix_edges d) = true); [|congruence].
      apply existsb_exists. exists r. split; [done | by apply bool_decide_eq_true].
Qed.

Lemma put_edges_ok es : ∀ d d', index_ok d → (∀ e, e ∈ es → Graph.Valid (E_Evidence (Er_edge e)) = true) → put_edges es d = Ok d' →
  index_ok d' ∧ same_but_edges d d' ∧ ∀ k, edge_at d' k = newest k (edge_writes es) (edge_at d k).
Proof.
  induction es as [|e es IH]; intros d d' Hd Hev; cbn [put_edges]; [intros [= <-]; split_and!; [done | by destruct d | done] |].
  destruct (put_edge e d) as [d1|] eqn:E; [|done]. cbn [mbind result_bind]. intros H.
  destruct (put_edge_ok e d d1) as (Hd1 & Hs1 & _); [done | apply Hev; left | done |].
  destruct (IH d1 d' Hd1) as (Hd' & Hs' & Hat); [intros ? ?; apply Hev; by right | done |]. split_and!; [done | by eapply same_but_edges_trans |].
  intros k. rewrite Hat, (put_edge_at e d d1 k E). symmetry. apply (newest_app k (edge_writes [e]) (edge_writes es)).
Qed.

(** *** Clearing a repository *)

Lemma delete_nodes_lookup repo d id n : Ix_nodes (delete_nodes repo d) !! id = Some n ↔ Ix_nodes d !! id = Some n ∧ N_Repository n ≠ repo.
Proof. unfold delete_nodes. cbn [with_edges with_nodes Ix_nodes]. rewrite map_lookup_filter_Some. done. Qed.

Lemma elem_of_filter_b {A : Type} (p : A → bool) l x : x ∈ List.filter p l ↔ x ∈ l ∧ p x = true.
Proof. rewrite !list_elem_of_In. apply filter_In. Qed.

Lemma delete_nodes_ok repo d : index_ok d → index_ok (delete_nodes repo d).
Proof.
  intros Hd. assert (Hsub : ∀ id n, Ix_nodes (delete_nodes repo d) !! id = Some n → Ix_nodes d !! id = Some n) by (by intros id n [? _]%delete_nodes_lookup).
  split; try apply Hd.
  - intros id n Hn%Hsub. by apply Hd.
  - intros i1 i2 n1 n2 H1%Hsub H2%Hsub. by apply Hd.
  - intros id n Hn%Hsub. by apply (ok_node d Hd id).
  - intros r Hr. unfold delete_nodes in Hr. cbn [with_edges Ix_edges] in Hr. apply elem_of_filter_b in Hr as [Hr [Hs%bool_decide_eq_true Ht%bool_decide_eq_true]%andb_true_iff].
    destruct (ok_edge d Hd r Hr) as (Hw & _ & _ & H). split_and!; [done | exact Hs | exact Ht | apply H..].
  - unfold delete_nodes. cbn [with_edges Ix_edges]. generalize (ok_edge_key d Hd). generalize (Ix_edges d). intros l. induction l as [|r l IH]; [done |].
    cbn [fmap list_fmap List.filter]. intros [Hn Hl]%NoDup_cons. destruct (_ && _); [|by apply IH]. cbn [fmap list_fmap]. apply NoDup_cons. split; [|by apply IH].
    intros (r' & E & [Hr' _]%elem_of_filter_b)%list_elem_of_fmap. apply Hn, list_elem_of_fmap. by exists r'.
Qed.

Lemma delete_nodes_row repo d k : index_ok d →
  row_at (delete_nodes repo d) k = if String.eqb k.1.1.1 repo then None else row_at d k.
Proof.
  intros Hd. pose proof (delete_nodes_ok repo d Hd) as Hd'. apply option_eq. intros n. rewrite row_at_some by done.
  setoid_rewrite delete_nodes_lookup. destruct (String.eqb_spec k.1.1.1 repo) as [E|E].
  - split; [|done]. intros (id & [_ Hn] & <-). by destruct Hn.
  - rewrite row_at_some by done. split; [intros (id & [Hn _] & Hk); by exists id | intros (id & Hn & <-); exists id; split_and!; done].
Qed.

Lemma delete_nodes_edge repo d k : index_ok d →
  edge_at (delete_nodes repo d) k =
    if bool_decide (is_Some (Ix_nodes (delete_nodes repo d) !! k.1.1.1)) && bool_decide (is_Some (Ix_nodes (delete_nodes repo d) !! k.1.1.2)) then edge_at d k else None.
Proof.
  intros Hd. unfold edge_at. set (stays := λ id, bool_decide (is_Some (Ix_nodes (delete_nodes repo d) !! id))).
  change (Ix_edges (delete_nodes repo d)) with (List.filter (λ r, stays (Src (Er_edge r)) && stays (Dst (Er_edge r))) (Ix_edges d)).
  fold (stays k.1.1.1) (stays k.1.1.2). induction (Ix_edges d) as [|r l IH]; [by destruct (_ && _) |]. cbn [List.filter].
  destruct (bool_decide (key_of_edge (Er_edge r) = k)) eqn:Ek.
  - apply bool_decide_eq_true in Ek. subst k. cbn [key_of_edge fst snd] in *.
    destruct (stays (Src (Er_edge r)) && stays (Dst (Er_edge r))) eqn:Es.
    + cbn [List.filter]. by rewrite bool_decide_eq_true_2.
    + exact IH.
  - destruct (stays (Src (Er_edge r)) && stays (Dst (Er_edge r))); [cbn [List.filter]; rewrite Ek |]; exact IH.
Qed.

(** A lookup by name finds the row of the key, when the repository has one
    checkout. *)
Lemma NodeByFQN_ok d repo kind fqn : index_ok d → (∀ id n, Ix_nodes d !! id = Some n → N_Repository n = repo → N_Worktree n = "") →
  match NodeByFQN d repo kind fqn with
  | Ok n => node_at (repo, "", kind, fqn) (Ix_nodes d) = Some (N_ID n)
  | Err _ => node_at (repo, "", kind, fqn) (Ix_nodes d) = None
  end.
Proof.
  intros Hd Hwt. unfold NodeByFQN. destruct (List.filter _ _) as [|[id n] l] eqn:E.
  - destruct (node_at _ _) as [id|] eqn:En; [|done]. apply node_at_some in En as (n & Hn & Hk). exfalso.
    assert (Hin : (id, n) ∈ List.filter (λ e : Z * Node, String.eqb (N_Repository e.2) repo && String.eqb (N_Kind e.2) kind && String.eqb (N_FQN e.2) fqn) (map_to_list (Ix_nodes d))).
    { apply elem_of_filter_b. split; [by apply elem_of_map_to_list |]. unfold key_of_node in Hk. injection Hk as <- _ <- <-. cbn [snd]. by rewrite !String.eqb_refl. }
    rewrite E in Hin. by apply not_elem_of_nil in Hin.
  - assert (Hin : (id, n) ∈ (id, n) :: l) by left. rewrite <- E in Hin. apply elem_of_filter_b in Hin as [Hn%elem_of_map_to_list Hk]. cbn [snd] in Hk.
    apply andb_true_iff in Hk as [[Hr%String.eqb_eq Hki%String.eqb_eq]%andb_true_iff Hf%String.eqb_eq].
    unfold verify. cbn [scan_row snd N_Workspace graph_tables t_workspace N_ID]. destruct (ok_node d Hd id n Hn) as [-> _]. rewrite String.eqb_refl. cbn [negb scan_row snd N_ID].
    destruct (ok_id d Hd id n Hn) as [-> _]. apply (node_at_ok d _ id n); [done.. |]. unfold key_of_node. rewrite (Hwt id n Hn Hr). congruence.
Qed.

(** ** The graph by names

    An edge as the analyzers state it: by the keys of its ends. *)
Notation named := (node_key * node_key * EdgeKind * string)%type.
Definition ids_of (d : index_db) (k : named) : option edge_key :=
  let '(src, dst, kind, source) := k in
  s ← node_at src (Ix_nodes d); t ← node_at dst (Ix_nodes d); Some (s, t, kind, source).
(** What the graph says of an edge. *)
Definition edge_between (d : index_db) (k : named) : option (Evidence * string) := i ← ids_of d k; edge_at d i.

Lemma ids_of_inj d k k' i : ids_of d k = Some i → ids_of d k' = Some i → k = k'.
Proof.
  destruct k as [[[s t] e] o], k' as [[[s' t'] e'] o']. unfold ids_of.
  destruct (node_at s _) as [a|] eqn:Ea; [|done]; destruct (node_at t _) as [b|] eqn:Eb; [|done].
  destruct (node_at s' _) as [a'|] eqn:Ea'; [|done]; destruct (node_at t' _) as [b'|] eqn:Eb'; [|done]. cbn. intros [= <-] [= -> -> -> ->].
  apply node_at_some in Ea as (? & ? & <-), Eb as (? & ? & <-), Ea' as (? & ? & <-), Eb' as (? & ? & <-). congruence.
Qed.

(** Writes by ids are writes by names. *)
Lemma newest_ids d l k i old : ids_of d k = Some i →
  newest i (omap (λ e : named * (Evidence * string), (λ j, (j, e.2)) <$> ids_of d e.1) l) old = newest k l old.
Proof.
  intros Hk. revert old. unfold newest. induction l as [|[k' v] l IH]; intros old; [done |]. cbn [omap list_omap fst snd].
  assert (Hkk : k' = k ↔ ids_of d k' = Some i) by (split; [by intros -> | intros H; by eapply ids_of_inj]).
  destruct (ids_of d k') as [j|] eqn:Ej; cbn [fmap option_fmap option_map foldl fst snd]; rewrite IH; f_equal.
  - destruct (decide (j = i)) as [->|Hne]; [by rewrite decide_True by (by apply Hkk) | rewrite decide_False; [done |]]. intros H%Hkk. congruence.
  - rewrite decide_False; [done |]. intros H%Hkk. congruence.
Qed.

(** An edge there is joins two nodes there are. *)
Lemma edge_at_ends d i : index_ok d → is_Some (edge_at d i) → is_Some (Ix_nodes d !! i.1.1.1) ∧ is_Some (Ix_nodes d !! i.1.1.2).
Proof.
  intros Hd [v Hv]. destruct (decide (i ∈ (λ r, key_of_edge (Er_edge r)) <$> Ix_edges d)) as [Hin|Hin]; [|apply edge_at_none in Hin; congruence].
  apply list_elem_of_fmap in Hin as (r & -> & Hr). destruct (ok_edge d Hd r Hr) as (_ & Hs & Ht & _). done.
Qed.

(** Nodes written leave every edge, in name, as it was. *)
Lemma put_nodes_edges i ns d ids d' k : index_ok d → put_nodes i ns d = Ok (ids, d') → edge_between d' k = edge_between d k.
Proof.
  intros Hd Hput. destruct (put_nodes_ok ns i d ids d' Hd Hput) as (Hd' & Hs & _ & _ & Hkeys & _ & _ & _).
  assert (Hat : ∀ i, edge_at d' i = edge_at d i) by (intros j; unfold edge_at; apply index_ok_nodes_only in Hs as (_ & _ & _ & -> & _); done).
  assert (Hnode : ∀ q, node_at q (Ix_nodes d) ≠ None → node_at q (Ix_nodes d') = node_at q (Ix_nodes d)).
  { intros q Hq. destruct (node_at q (Ix_nodes d)) as [id|] eqn:E; [|done]. apply node_at_some in E as (n & Hn & <-).
    destruct (Hkeys id n Hn) as (n' & Hn' & Hk). by apply (node_at_ok d' _ id n'). }
  assert (Hnew : ∀ q id, node_at q (Ix_nodes d) = None → node_at q (Ix_nodes d') = Some id → Ix_nodes d !! id = None).
  { intros q id Hq Hid. destruct (Ix_nodes d !! id) as [n|] eqn:E; [|done]. destruct (Hkeys id n E) as (n' & Hn' & Hk).
    apply node_at_some in Hid as (n2 & Hn2 & Hk2). destruct (node_at_none _ _ id n Hq E). congruence. }
  destruct k as [[[s t] e] o]. unfold edge_between, ids_of.
  assert (Hgone : ∀ a b, Ix_nodes d !! a = None ∨ Ix_nodes d !! b = None → edge_at d (a, b, e, o) = None).
  { intros a b Hab. destruct (edge_at d (a, b, e, o)) eqn:E; [|done]. destruct (edge_at_ends d (a, b, e, o) Hd) as [[? H1] [? H2]]; [by rewrite E |].
    cbn in H1, H2. destruct Hab; congruence. }
  destruct (node_at s (Ix_nodes d)) as [a|] eqn:Ea.
  - rewrite (Hnode s) by congruence. rewrite Ea. cbn. destruct (node_at t (Ix_nodes d)) as [b|] eqn:Eb.
    + rewrite (Hnode t) by congruence. rewrite Eb. cbn. apply Hat.
    + cbn. destruct (node_at t (Ix_nodes d')) as [b|] eqn:Eb'; [|done]. cbn. rewrite Hat. apply Hgone. right. by eapply Hnew.
  - cbn. destruct (node_at s (Ix_nodes d')) as [a|] eqn:Ea'; [|done]. cbn. destruct (node_at t (Ix_nodes d')) as [b|] eqn:Eb'; [|done]. cbn.
    rewrite Hat. apply Hgone. left. by eapply Hnew.
Qed.

Lemma ids_of_same d d' k : Ix_nodes d' = Ix_nodes d → ids_of d' k = ids_of d k.
Proof. intros H. unfold ids_of. by rewrite H. Qed.

(** Edges written by names. *)
Lemma put_edges_named es l d d' : index_ok d → (∀ e, e ∈ es → Graph.Valid (E_Evidence (Er_edge e)) = true) → put_edges es d = Ok d' →
  edge_writes es = omap (λ e : named * (Evidence * string), (λ j, (j, e.2)) <$> ids_of d e.1) l →
  index_ok d' ∧ same_but_edges d d' ∧
  ∀ k, edge_between d' k = if ids_of d k then newest k l (edge_between d k) else None.
Proof.
  intros Hd Hev Hput Hl. destruct (put_edges_ok es d d' Hd Hev Hput) as (Hd' & Hs & Hat). split_and!; [done.. |]. intros k.
  unfold edge_between. rewrite (ids_of_same d d') by (by rewrite Hs). destruct (ids_of d k) as [i|] eqn:Ei; [|done]. cbn.
  rewrite Hat, Hl. by apply newest_ids.
Qed.

(** Clearing a repository. *)
Lemma delete_nodes_between repo d k : index_ok d →
  edge_between (delete_nodes repo d) k =
    if String.eqb k.1.1.1.1.1.1 repo || String.eqb k.1.1.2.1.1.1 repo then None else edge_between d k.
Proof.
  intros Hd. pose proof (delete_nodes_ok repo d Hd) as Hd'. destruct k as [[[s t] e] o]. cbn [fst snd].
  assert (Hnode : ∀ q : node_key, node_at q (Ix_nodes (delete_nodes repo d)) = if String.eqb q.1.1.1 repo then None else node_at q (Ix_nodes d)).
  { intros q. destruct (node_at q (Ix_nodes (delete_nodes repo d))) as [id|] eqn:E.
    - apply node_at_some in E as (n & [Hn Hr]%delete_nodes_lookup & <-). apply String.eqb_neq in Hr. cbn. rewrite Hr. symmetry. by apply (node_at_ok d _ id n).
    - destruct (String.eqb_spec q.1.1.1 repo) as [|Hr]; [done |]. destruct (node_at q (Ix_nodes d)) as [id|] eqn:E'; [|done].
      apply node_at_some in E' as (n & Hn & <-). exfalso. apply (node_at_none _ _ id n E); [|done]. by apply delete_nodes_lookup. }
  unfold edge_between, ids_of. rewrite !Hnode. destruct (String.eqb s.1.1.1 repo) eqn:Es; [done |].
  destruct (String.eqb t.1.1.1 repo) eqn:Et; [by destruct (node_at s (Ix_nodes d)) |]. cbn [orb].
  destruct (node_at s (Ix_nodes d)) as [a|] eqn:Ea; [|done]. destruct (node_at t (Ix_nodes d)) as [b|] eqn:Eb; [|done]. cbn.
  rewrite delete_nodes_edge by done. cbn [fst snd].
  pose proof (Hnode s) as Ha. pose proof (Hnode t) as Hb. rewrite Es, Ea in Ha. rewrite Et, Eb in Hb.
  apply node_at_some in Ha as (n & Hn & _), Hb as (n' & Hn' & _). by rewrite Hn, Hn', !bool_decide_eq_true_2.
Qed.
