(* ===== verification/Index.v ===== *)
(** The indexer, [src/internal/index/index.go], the watcher that marks what it
    must index again, [index/watch.go], and the two commands that run it,
    [src/cmd/le/index.go] and [src/internal/mcp/tools.go].  A run walks a
    repository, replaces its rows of the index database, and records what it
    read; an analyzer's answer is kept in the workspace's cache.

    An analyzer is any function of the repository and the files it accepts;
    SHA-256 and JSON are parameters.  A transaction fails by its constraints
    only, and the caller's context is not cancelled during a run. *)
From S2P Require Import Prelude GoStrings GoPath Policy Worktree Files Recipe Summarize Workspace Blobs Graph IndexDB.
From Stdlib Require Import Ascii.

Open Scope string_scope.
Open Scope list_scope.
Open Scope nat_scope.

(** ** What is indexed *)

(** [index/index.go:40-49 File] *)
Record File := mk_file {
  F_ID : Z; F_Repository : string; F_Worktree : string; F_Path : string; F_AbsPath : apath; F_Lang : string; F_Hash : string; F_Size : Z }.
(** [index/index.go:60-70 PendingEdge] *)
Record PendingEdge := mk_pending {
  SrcKind : string; SrcFQN : string; DstKind : string; DstFQN : string; Pe_Kind : EdgeKind; Pe_Evidence : option Evidence; Pe_Attrs : string }.
(** [index/index.go:52-56 Result] *)
Record Result := mk_result { Rs_Nodes : list Node; Rs_Edges : list PendingEdge }.
(** [index/index.go:73-81 Analyzer] [Analyze] reads the files of the repository. *)
Record Analyzer := mk_analyzer { An_Name : string; Handles : File → bool; Analyze : fs → apath → list File → result Result }.
(** [index/index.go:84-94 Options] *)
Record Options := mk_options { MaxFileBytes : Z; Excludes : option (list string); ChunkLines : Z; Analyzers : list Analyzer }.
(** [index/index.go:106-113 Stats] the duration is left out. *)
Record Stats := mk_stats { St_Files : nat; St_Chunks : nat; St_Nodes : nat; St_Edges : nat; St_Skipped : nat }.

(** [config/config.go:166-173 DefaultExcludes] *)
Definition DefaultExcludes : list string :=
  [".git"; ".le"; ".idea"; ".vscode"; "node_modules"; "vendor"; "dist"; "build"; "out"; "target"; ".next"; ".nuxt"; ".svelte-kit";
   "__pycache__"; ".venv"; ".tox"; ".cache"; ".gradle"; ".terraform"; "coverage"].

(** [index/index.go:97-103 DefaultOptions] *)
Definition DefaultOptions : Options := mk_options 1048576 (Some DefaultExcludes) 60 [].

(** The state an indexer works on: the files of the machine, its database, and
    its cache of analyses. *)
Record ix_state := mk_ix { S_fs : fs; S_db : index_db; S_cache : Cache }.

(** [index/index.go:127-141 New] the zero fields take their defaults. *)
Definition New (opts : Options) : Options :=
  mk_options (if Z.eqb (MaxFileBytes opts) 0 then MaxFileBytes DefaultOptions else MaxFileBytes opts)
    (match Excludes opts with None => Excludes DefaultOptions | e => e end)
    (if Z.eqb (ChunkLines opts) 0 then ChunkLines DefaultOptions else ChunkLines opts) (Analyzers opts).
Definition excluded (opts : Options) (name : string) : bool := mem name (default [] (Excludes opts)).

Section indexer.
Context (sha256 : string → string) (encode_result : Result → option string) (decode_result : string → option Result)
        (random : string → string) (toolchain : string).
Context (opts : Options).

(** [index/index.go:364-393 langOf] *)
Definition by_extension : list (list string * string) :=
  [([".go"], "go"); ([".ts"; ".tsx"], "typescript"); ([".js"; ".jsx"; ".mjs"; ".cjs"], "javascript"); ([".vue"], "vue"); ([".py"], "python");
   ([".sql"], "sql"); ([".proto"], "proto"); ([".tf"; ".hcl"], "terraform"); ([".yaml"; ".yml"], "yaml"); ([".json"], "json");
   ([".toml"], "toml"); ([".md"], "markdown"); ([".sh"; ".bash"], "shell"); ([".dockerfile"], "dockerfile")].
(** [index/index.go:394-401 langOf] *)
Definition by_name : list (list string * string) := [(["dockerfile"], "dockerfile"); (["makefile"], "make"); (["go.mod"; "go.sum"], "gomod")].
(** [index/index.go:363-403 langOf] *)
Definition langOf (rel : string) : string :=
  let choose s table := snd <$> find (λ e : list string * string, mem s e.1) table in
  match choose (to_lower (ext rel)) by_extension with
  | Some lang => lang
  | None => default "" (choose (to_lower (base_name rel)) by_name)
  end.

(** [index/index.go:335-361 hashFile] of the file's bytes. *)
Definition hashFile (body : string) : string * bool :=
  (hex_string (sha256 body), negb (all_chars (λ c, negb (Ascii.eqb c Ascii.zero)) (take_str 8192 body))).

(** [index/index.go:278-325 Indexer.walk] one file the walk comes to, or the count of
    those it skips. *)
Definition walk_file (repositoryID : string) (place : apath) (e : apath * node) : option File :=
  let rel := match e.1 with [] => "." | r => join "/" r end in
  match e.2 with
  | NFile body =>
      if Z.ltb (MaxFileBytes opts) (zlen body) then None
      else if Sensitive rel then None
      else let '(hash, binary) := hashFile body in
           if binary then None
           else Some (mk_file 0 repositoryID "" rel (place ++ e.1) (langOf rel) hash (zlen body))
  | _ => None
  end.

(** Whether the walk gets to [rel]: no directory on the way is excluded. *)
Definition reached (f : fs) (place rel : apath) : bool :=
  forallb (λ k, match take k rel with
                | [] => true
                | p => negb (bool_decide (f !! (place ++ p) = Some NDir) && excluded opts (List.last p ""))
                end) (seq 0 (length rel)).

(** [index/index.go:272-328 Indexer.walk] *)
Definition walk (f : fs) (repositoryID : string) (absRoot : apath) : result (list File * nat) :=
  match lstat_place f absRoot ≫= λ p, match lookup_node f p with Some n => Ok (p, n) | None => Err ENOENT end with
  | Err e => Err (wrap ("index: walk " +:+ show_path absRoot +:+ ": ") e)
  | Ok (place, n) =>
      let entries := match n with
        | NDir => List.filter (λ e : apath * node, reached f place e.1 && negb (bool_decide (e.2 = NDir))) (walk_dir f place)
        | n => [([], n)] end in
      let files := omap (walk_file repositoryID place) entries in
      Ok (stable_sort (λ a b, str_ltb (F_Path a) (F_Path b)) files, length entries - length files)
  end.

(** ** Rows of files *)

(** [index/index.go:411-411 Indexer.writeFiles] *)
Definition same_file (f : File) (r : FileRow) : bool :=
  String.eqb (Fr_repo r) (F_Repository f) && String.eqb (Fr_wt r) (F_Worktree f) && String.eqb (Fr_path r) (F_Path f).
(** [index/index.go:411-414 Indexer.writeFiles] the row of the file, changed. *)
Definition refreshed (now : Z) (f : File) (r : FileRow) : FileRow :=
  if same_file f r then mk_file_row (Fr_id r) (Fr_ws r) (Fr_repo r) (Fr_wt r) (Fr_path r) (F_Lang f) (F_Size f) (F_Hash f) now else r.
(** [index/index.go:420-427 Indexer.writeFiles] one file: a row with its key keeps its
    id. *)
Definition put_file_row (now : Z) (f : File) (d : index_db) : result (Z * index_db) :=
  if bool_decide (Ix_repos d !! F_Repository f = None)
  then Err (wrap ("index: write file " +:+ F_Path f +:+ ": ") (constraint_failed "files"))
  else match find (same_file f) (Ix_files d) with
  | Some r => Ok (Fr_id r, with_files (refreshed now f <$> Ix_files d) d)
  | None =>
      let id := next_id (Fr_id <$> Ix_files d) in
      Ok (id, with_files (Ix_files d ++ [mk_file_row id (Ix_ws d) (F_Repository f) (F_Worktree f) (F_Path f) (F_Lang f) (F_Size f) (F_Hash f) now]) d)
  end.
Definition with_id (f : File) (id : Z) : File :=
  mk_file id (F_Repository f) (F_Worktree f) (F_Path f) (F_AbsPath f) (F_Lang f) (F_Hash f) (F_Size f).
Fixpoint put_file_rows (now : Z) (files : list File) (d : index_db) : result (list File * index_db) :=
  match files with
  | [] => Ok ([], d)
  | f :: files => x ← put_file_row now f d; y ← put_file_rows now files x.2; Ok (with_id f x.1 :: y.1, y.2)
  end.
(** [index/index.go:405-430 Indexer.writeFiles] the files, with their ids. *)
Definition writeFiles (now : Z) (files : list File) : M index_db (list File) := index_tx (put_file_rows now files).

(** [index/index.go:777-786 Indexer.clearGraph] *)
Definition clearGraph (repositoryID : string) : M index_db unit := index_tx (λ d, Ok (tt, delete_nodes repositoryID d)).

(** ** The file system's graph *)

(** [filepath.Dir] of a clean relative path. *)
Definition dir_path (p : string) : string := render_path false (removelast (split_char slash p)).
(** [index/index.go:438-440 Indexer.writeFilesystemGraph] the directories above a
    path, the nearest first; a path has fewer than its length. *)
Fixpoint dirs_above (fuel : nat) (d : string) : list string :=
  match fuel with
  | 0 => []
  | S fuel => if String.eqb d "." || String.eqb d "/" then [] else d :: dirs_above fuel (dir_path d)
  end.
(** [index/index.go:436-446 Indexer.writeFilesystemGraph] *)
Definition directories (files : list File) : list string :=
  sort_strings (remove_dups ("." :: (files ≫= λ f, dirs_above (String.length (F_Path f)) (dir_path (F_Path f))))).

(** [index/index.go:449-456 Indexer.writeFilesystemGraph] *)
Definition directory_node (repositoryID d : string) : Node :=
  mk_full_node 0 "" repositoryID "" "directory" (if String.eqb d "." then d else base_name d) d 0 "" 0 0 "" "" "" "".
(** [index/index.go:458-463 Indexer.writeFilesystemGraph] *)
Definition file_node (repositoryID : string) (f : File) : Node :=
  mk_full_node 0 "" repositoryID "" "file" (base_name (F_Path f)) (F_Path f) (F_ID f) "" 0 0 "" "" (F_Hash f) "".
(** [index/index.go:448-463 Indexer.writeFilesystemGraph] *)
Definition filesystem_nodes (repositoryID : string) (files : list File) : list Node :=
  (directory_node repositoryID <$> directories files) ++ (file_node repositoryID <$> files).

(** [index/index.go:468-471 Indexer.writeFilesystemGraph] kinds hold no NUL, so a
    key of the map is the pair. *)
Definition ids_by_fqn (nodes : list Node) (ids : list Z) : gmap (string * string) Z :=
  foldl (λ m e, <[(N_Kind e.1, N_FQN e.1) := e.2]> m) ∅ (zip nodes ids).
(** [index/index.go:474-482 Indexer.writeFilesystemGraph] *)
Definition containment (byFQN : gmap (string * string) Z) (child : string * string) : option EdgeRow :=
  src ← byFQN !! ("directory", dir_path child.2);
  dst ← byFQN !! child;
  Some (mk_edge_row (mk_edge 0 "" src dst "contains" Resolved "filesystem") "").
(** [index/index.go:483-491 Indexer.writeFilesystemGraph] what the edges point to. *)
Definition contained (files : list File) : list (string * string) :=
  ((λ d, ("directory", d)) <$> List.filter (λ d, negb (String.eqb d ".")) (directories files)) ++ ((λ f, ("file", F_Path f)) <$> files).
(** [index/index.go:435-496 Indexer.writeFilesystemGraph] *)
Definition writeFilesystemGraph (repositoryID : string) (files : list File) : M index_db (nat * nat) :=
  let nodes := filesystem_nodes repositoryID files in
  ids ← UpsertNodes nodes;
  let edges := omap (containment (ids_by_fqn nodes ids)) (contained files) in
  _ ← UpsertEdges edges;
  mret (length nodes, length edges).

(** ** Chunks *)

(** [index/index.go:544-547 window] *)
Record window := mk_window { w_start : Z; w_end : Z; w_body : string }.
(** [index/index.go:560-577 chunkFile] the loop over the scanner's lines; the
    window being filled and how many lines it has. *)
Fixpoint windows (lines : Z) (start n : Z) (body : string) (ls : list string) : list window :=
  match ls with
  | [] => if Z.ltb 0 n then [mk_window start (start + n - 1) body] else []
  | l :: ls =>
      let body := body +:+ l +:+ nl in
      let n := (n + 1)%Z in
      if Z.eqb n lines then mk_window start (start + n - 1) body :: windows lines (start + n) 0 "" ls
      else windows lines start n body ls
  end.
(** [index/index.go:558-558 chunkFile] *)
Definition chunk_scan_limit : Z := 4194304.
(** The lines a [bufio.Scanner] of that buffer yields, and whether one was too
    long for it. *)
Fixpoint scan_chunk (lines : list string) : list string * bool :=
  match lines with
  | [] => ([], false)
  | [l] => if String.eqb l "" then ([], false) else if Z.ltb (zlen l) chunk_scan_limit then ([strip_cr l], false) else ([], true)
  | l :: lines => if Z.ltb (zlen l) chunk_scan_limit then let '(ls, e) := scan_chunk lines in (strip_cr l :: ls, e) else ([], true)
  end.
(** [index/index.go:549-579 chunkFile] *)
Definition chunkFile (f : fs) (path : apath) (lines : Z) : result (list window) :=
  body ← ReadFile f path;
  let '(ls, too_long) := scan_chunk (split_char newline body) in
  if too_long then Err (errorf ("index: read " +:+ show_path path +:+ ": bufio.Scanner: token too long"))
  else Ok (windows lines 1 0 "" ls).

(** [index/index.go:527-536 Indexer.writeChunks] one window. *)
Definition put_chunk (file : File) (w : window) (d : index_db) : result index_db :=
  if bool_decide (Ix_repos d !! F_Repository file = None) || negb (existsb (λ r, Z.eqb (Fr_id r) (F_ID file)) (Ix_files d))
  then Err (constraint_failed "chunks")
  else Ok (with_chunks (Ix_chunks d ++ [mk_chunk_row (next_id (Cr_id <$> Ix_chunks d)) (Ix_ws d) (F_Repository file) (F_ID file) (w_start w) (w_end w)
             (hex_string (sha256 (w_body w))) (Z.quot (zlen (w_body w)) 4 + 1) (w_body w) (F_Path file) (base_name (F_Path file))]) d).
Fixpoint put_windows (file : File) (ws : list window) (d : index_db) : result index_db :=
  match ws with [] => Ok d | w :: ws => d ← put_chunk file w d; put_windows file ws d end.
Fixpoint put_chunks (f : fs) (files : list File) (d : index_db) : result index_db :=
  match files with
  | [] => Ok d
  | file :: files => ws ← chunkFile f (F_AbsPath file) (ChunkLines opts); d ← put_windows file ws d; put_chunks f files d
  end.
(** [index/index.go:498-542 Indexer.writeChunks] every chunk of the database is
    replaced. *)
Definition writeChunks (f : fs) (files : list File) : M index_db nat :=
  index_tx (λ d, d ← put_chunks f files (with_chunks [] d); Ok (length (Ix_chunks d), d)).

(** ** What analyzers add *)

(** [index/index.go:582-593 Indexer.writeNodes] *)
Definition writeNodes (repositoryID : string) (nodes : list Node) : M index_db nat :=
  match nodes with
  | [] => mret 0
  | _ =>
      let nodes := (λ n, mk_full_node (N_ID n) (N_Workspace n) repositoryID (N_Worktree n) (N_Kind n) (N_Name n) (N_FQN n) (N_FileID n) (N_Path n)
                           (N_StartLine n) (N_EndLine n) (N_Signature n) (N_Visibility n) (N_ContentHash n) (N_Attrs n)) <$> nodes in
      _ ← UpsertNodes nodes; mret (length nodes)
  end.

(** [index/index.go:611-641 Indexer.writeEdges] one edge, when both its ends were
    written.  The map of the ends that were looked up only saves queries. *)
Definition resolve_edge (d : index_db) (repositoryID source : string) (pe : PendingEdge) : option EdgeRow :=
  match NodeByFQN d repositoryID (SrcKind pe) (SrcFQN pe), NodeByFQN d repositoryID (DstKind pe) (DstFQN pe) with
  | Ok src, Ok dst =>
      Some (mk_edge_row (mk_edge 0 "" (N_ID src) (N_ID dst) (Pe_Kind pe) (default Unknown (Pe_Evidence pe)) source) (Pe_Attrs pe))
  | _, _ => None
  end.
(** [index/index.go:601-646 Indexer.writeEdges] *)
Definition writeEdges (repositoryID source : string) (pending : list PendingEdge) : M index_db nat := λ d,
  match pending with
  | [] => (Ok 0, d)
  | _ => let edges := omap (resolve_edge d repositoryID source) pending in
         (_ ← UpsertEdges edges; mret (length edges)) d
  end.

(** ** Keys *)

(** [index/index.go:655-657 Indexer.recordIndexKey] *)
Definition lockfiles : list string := ["go.sum"; "package-lock.json"; "pnpm-lock.yaml"; "yarn.lock"; "Cargo.lock"; "poetry.lock"].
(** [index/index.go:706-724 manifestHash] *)
Definition manifestHash (pairs : gmap string string) : string :=
  hex_string (sha256 (foldr (λ k rest, writeComponents [k; default "" (pairs !! k)] +:+ rest) "" (sort_strings (fst <$> map_to_list pairs)))).
Definition hash_pairs (files : list File) : gmap string string := foldl (λ m f, <[F_Path f := F_Hash f]> m) ∅ files.
(** [index/index.go:650-673 Indexer.recordIndexKey] *)
Definition recordIndexKey (now : Z) (repositoryID : string) (files : list File) : M index_db unit := index_tx (λ d,
  let locks := List.filter (λ f, mem (base_name (F_Path f)) lockfiles) files in
  Ok (tt, with_keys (<[("repository", repositoryID) :=
    mk_key_row (manifestHash (hash_pairs files)) (manifestHash (hash_pairs locks)) toolchain false now]> (Ix_keys d)) d)).

(** [index/index.go:682-696 Indexer.MarkDirty] *)
Definition MarkDirty (now : Z) (scope scopeID : string) : M index_db unit := index_tx (λ d,
  let row := match Ix_keys d !! (scope, scopeID) with
             | None => mk_key_row "" "" "" true now
             | Some r => mk_key_row (Kr_manifest r) (Kr_lock r) (Kr_toolchain r) true now end in
  Ok (tt, with_keys (<[(scope, scopeID) := row]> (Ix_keys d)) d)).
(** [index/index.go:699-704 Indexer.Dirty] *)
Definition Dirty (d : index_db) : nat := length (List.filter (λ e : (string * string) * KeyRow, Kr_dirty e.2) (map_to_list (Ix_keys d))).
(** [index/index.go:813-813 legacyMillisThreshold] *)
Definition legacyMillisThreshold : Z := 100000000000.
(** [index/index.go:815-820 normaliseIndexedAt] *)
Definition normaliseIndexedAt (at_ : Z) : Z := if Z.leb legacyMillisThreshold at_ then Z.quot at_ 1000 else at_.
(** [index/index.go:803-810 Indexer.LastIndexedAt] *)
Definition LastIndexedAt (d : index_db) : Z :=
  normaliseIndexedAt (match Kr_at <$> (map_to_list (Ix_keys d)).*2 with [] => 0%Z | t :: ts => foldr Z.max t ts end).

(** [index/index.go:155-166 Indexer.RegisterRepository] [rel_path] is unique. *)
Definition RegisterRepository (r : Repository) : M index_db unit := index_tx (λ d,
  if existsb (λ e : string * RepositoryRow, negb (String.eqb e.1 (Rp_ID r)) && String.eqb (Rr_path e.2) (Rp_Path r)) (map_to_list (Ix_repos d))
  then Err (constraint_failed "repositories.rel_path")
  else let ws := from_option Rr_ws (Ix_ws d) (Ix_repos d !! Rp_ID r) in
       Ok (tt, with_repos (<[Rp_ID r := mk_repo_row ws (Rp_Name r) (Rp_Path r) (Rp_Remote r) (DefaultBranch r)]> (Ix_repos d)) d)).
End indexer.

(** ** A run *)

Section run.
Context (sha256 : string → string) (encode_result : Result → option string) (decode_result : string → option Result)
        (random : string → string) (toolchain : string).
Context (opts : Options).

(** A step on the database, within the indexer's state. *)
Definition on_db {A : Type} (m : M index_db A) : M ix_state A := λ s,
  let '(r, d) := m (S_db s) in (r, mk_ix (S_fs s) d (S_cache s)).

(** [index/index.go:748-753 Indexer.analyze] what the analyzer's answer is kept under. *)
Definition analysis_pairs (accepted : list File) : gmap string string :=
  <[String Ascii.zero "indexer-version" := pretty IndexerVersion]> (hash_pairs accepted).
(** [index/index.go:744-773 Indexer.analyze] *)
Definition analyze (a : Analyzer) (absRoot : apath) (accepted : list File) : M ix_state Result := λ s,
  let manifest := ManifestOf sha256 (analysis_pairs accepted) in
  let '(got, cache) := Get sha256 (S_cache s) (An_Name a) manifest (S_fs s) in
  let s := mk_ix (S_fs s) (S_db s) cache in
  match match got with Ok body => decode_result body | Err _ => None end with
  | Some res => (Ok res, s)
  | None =>
      match Analyze a (S_fs s) absRoot accepted with
      | Err e => (Err e, s)
      | Ok res =>
          match encode_result res with
          | Some body => (Ok res, mk_ix (Put sha256 (S_cache s) (An_Name a) manifest body (random (An_Name a)) (S_fs s)).2 (S_db s) (S_cache s))
          | None => (Ok res, s)
          end
      end
  end.

(** [index/index.go:228-243 Indexer.Repository] every analyzer that wants a file. *)
Fixpoint run_analyzers (absRoot : apath) (files : list File) (analyzers : list Analyzer) : M ix_state (list (string * Result)) :=
  match analyzers with
  | [] => mret []
  | a :: analyzers =>
      match List.filter (Handles a) files with
      | [] => run_analyzers absRoot files analyzers
      | accepted =>
          res ← wrapM ("index: analyzer " +:+ An_Name a +:+ ": ") (analyze a absRoot accepted);
          rest ← run_analyzers absRoot files analyzers;
          mret ((An_Name a, res) :: rest)
      end
  end.
(** [index/index.go:245-251 Indexer.Repository] *)
Fixpoint write_all_nodes (repositoryID : string) (outputs : list (string * Result)) : M index_db nat :=
  match outputs with
  | [] => mret 0
  | out :: outputs =>
      n ← wrapM ("index: analyzer " +:+ out.1 +:+ ": ") (writeNodes repositoryID (Rs_Nodes out.2));
      m ← write_all_nodes repositoryID outputs; mret (n + m)
  end.
(** [index/index.go:252-258 Indexer.Repository] *)
Fixpoint write_all_edges (repositoryID : string) (outputs : list (string * Result)) : M index_db nat :=
  match outputs with
  | [] => mret 0
  | out :: outputs =>
      n ← wrapM ("index: analyzer " +:+ out.1 +:+ ": ") (writeEdges repositoryID out.1 (Rs_Edges out.2));
      m ← write_all_edges repositoryID outputs; mret (n + m)
  end.

(** [index/index.go:169-265 Indexer.Repository] [now] is the time of its writes. *)
Definition Repository (now : Z) (repositoryID : string) (absRoot : apath) : M ix_state Stats := λ s,
  (found ← lift (walk sha256 opts (S_fs s) repositoryID absRoot);
   let '(files, skipped) := found : list File * nat in
   files ← on_db (writeFiles now files);
   _ ← wrapM "index: clearing the previous graph: " (on_db (clearGraph repositoryID));
   written ← on_db (writeFilesystemGraph repositoryID files);
   let '(nodes, edges) := written : nat * nat in
   chunks ← on_db (writeChunks sha256 opts (S_fs s) files);
   outputs ← run_analyzers absRoot files (Analyzers opts);
   more_nodes ← on_db (write_all_nodes repositoryID outputs);
   more_edges ← on_db (write_all_edges repositoryID outputs);
   _ ← on_db (recordIndexKey sha256 toolchain now repositoryID files);
   mret (mk_stats (length files) chunks (nodes + more_nodes) (edges + more_edges) skipped)) s.

(** [index/index.go:855-875 Indexer.dirtyRepositories] *)
Definition dirtyRepositories (d : index_db) : list string :=
  omap (λ e : (string * string) * KeyRow, if Kr_dirty e.2 && String.eqb e.1.1 "repository" then Some e.1.2 else None) (map_to_list (Ix_keys d)).

Fixpoint refresh_each (now : Z) (root : apath) (ids : list string) : M ix_state unit :=
  match ids with
  | [] => mret tt
  | id :: ids => _ ← wrapM ("index: re-analysing " +:+ id +:+ ": ") (Repository now id root); refresh_each now root ids
  end.
(** [index/index.go:837-848 Indexer.Refresh] every repository at the one root. *)
Definition Refresh (now : Z) (root : apath) : M ix_state unit := λ s, refresh_each now root (dirtyRepositories (S_db s)) s.

(** [cmd/le/index.go:46-61 newIndexCmd] without a SCIP file. *)
Fixpoint index_repositories (now : Z) (ws_root : apath) (repos : list Workspace.Repository) : M ix_state (list (string * Stats)) :=
  match repos with
  | [] => mret []
  | r :: repos =>
      _ ← on_db (RegisterRepository r);
      stats ← wrapM ("index " +:+ Rp_Name r +:+ ": ") (Repository now (Rp_ID r) (join_comps ws_root (Rp_Path r)));
      rest ← index_repositories now ws_root repos;
      mret ((Rp_Name r, stats) :: rest)
  end.

(** ** The watcher *)

(** [index/watch.go:60-82 NewWatcher] the roots of the repositories, by the map
    it makes of them. *)
Definition watch_roots (ws_root : apath) (repos : list Workspace.Repository) : gmap string string :=
  foldl (λ m r, <[show_path (join_comps ws_root (Rp_Path r)) := Rp_ID r]> m) ∅ repos.
(** [index/watch.go:193-199 Watcher.repositoryFor] the longest root at or above the path. *)
Definition better (path : string) (best : string * string) (e : string * string) : string * string :=
  if (String.eqb e.1 path || has_prefix path (e.1 +:+ "/")) && (String.length best.1 <? String.length e.1) then e else best.
(** [index/watch.go:191-201 Watcher.repositoryFor] *)
Definition repositoryFor (roots : gmap string string) (path : string) : option string :=
  let best := foldl (better path) ("", "") (map_to_list roots) in
  if String.eqb best.2 "" then None else Some best.2.
(** [index/watch.go:243-250 Watcher.excludedDir] *)
Definition excludedDir (name : string) : bool := mem name (default [] (Excludes opts)).
(** [index/watch.go:223-241 Watcher.ignored] the path is absolute. *)
Definition ignored (path : string) : bool :=
  let base := base_name path in
  has_suffix base "~" || has_prefix base ".#" || has_suffix base ".swp" || has_suffix base ".swx" || has_suffix base ".tmp"
  || contains_str base ".goutputstream" || existsb excludedDir (split_char slash path).
(** [index/watch.go:161-187 Watcher.flush] the repositories of the pending paths are
    marked, once each. *)
Definition flush (now : Z) (roots : gmap string string) (pending : list string) : M index_db unit := λ d,
  foldl (λ acc id, let '(r, d) := acc in
                   match MarkDirty now "repository" id d with (Ok _, d) => (r, d) | (Err e, d) => (Err e, d) end)
        (Ok tt, d) (remove_dups (omap (repositoryFor roots) pending)).
(** [index/watch.go:121-139 Watcher.Run] an event joins the pending paths, unless it is
    ignored. *)
Definition observe_event (pending : list string) (name : string) : list string := if ignored name then pending else pending ++ [name].
End run.

Section reindex.
Context (sha256 : string → string) (encode_result : Result → option string) (decode_result : string → option Result)
        (random : string → string) (toolchain : string).
(** [mcp/tools.go:285-301 Server.reindex] an indexer without analyzers, every
    repository at the workspace's root. *)
Fixpoint reindex_each (now : Z) (ws_root : apath) (repos : list Workspace.Repository) : M ix_state unit :=
  match repos with
  | [] => mret tt
  | r :: repos =>
      _ ← wrapM ("re-analysing " +:+ Rp_Name r +:+ ": ")
            (Repository sha256 encode_result decode_result random toolchain (New (mk_options 0 None 0 [])) now (Rp_ID r) ws_root);
      reindex_each now ws_root repos
  end.
(** [mcp/tools.go:274-307 Server.reindex] *)
Definition reindex (now : Z) (ws_root : apath) (repos : list Workspace.Repository) : M ix_state unit :=
  match repos with
  | [] => throw (errorf "this workspace tracks no repositories")
  | _ => reindex_each now ws_root repos
  end.
End reindex.

(** ** What a run leaves *)

(** The graph and the other tables, by what a step may change. *)
Definition same_graph (d d' : index_db) : Prop :=
  Ix_ws d' = Ix_ws d ∧ Ix_repos d' = Ix_repos d ∧ Ix_nodes d' = Ix_nodes d ∧ Ix_edges d' = Ix_edges d.
Lemma same_graph_row d d' k : same_graph d d' → row_at d' k = row_at d k.
Proof. intros (_ & _ & H & _). unfold row_at. by rewrite H. Qed.
Lemma same_graph_between d d' k : same_graph d d' → edge_between d' k = edge_between d k.
Proof. intros (_ & _ & H & He). unfold edge_between, edge_at. rewrite (ids_of_same d d') by done. by rewrite He. Qed.

Section files.
Lemma put_file_row_ok now f d id d' : index_ok d → put_file_row now f d = Ok (id, d') →
  index_ok d' ∧ same_graph d d' ∧ Ix_chunks d' = Ix_chunks d ∧ Ix_keys d' = Ix_keys d ∧
  is_Some (Ix_repos d !! F_Repository f) ∧
  (∃ r, r ∈ Ix_files d' ∧ Fr_id r = id ∧ Fr_repo r = F_Repository f ∧ Fr_wt r = F_Worktree f ∧ Fr_path r = F_Path f ∧ Fr_hash r = F_Hash f) ∧
  ∀ r, r ∈ Ix_files d → ∃ r', r' ∈ Ix_files d' ∧ Fr_id r' = Fr_id r ∧
    (Fr_repo r', Fr_wt r', Fr_path r') = (Fr_repo r, Fr_wt r, Fr_path r) ∧
    ((Fr_repo r, Fr_wt r, Fr_path r) ≠ (F_Repository f, F_Worktree f, F_Path f) → r' = r).
Proof.
  intros Hd. unfold put_file_row. destruct (bool_decide _) eqn:Er; [done |]. apply bool_decide_eq_false, not_eq_None_Some in Er.
  assert (Hsame : ∀ r, same_file f r = true ↔ (Fr_repo r, Fr_wt r, Fr_path r) = (F_Repository f, F_Worktree f, F_Path f)).
  { intros r. unfold same_file. rewrite !andb_true_iff, !String.eqb_eq. split; [by intros [[-> ->] ->] | by intros [= -> -> ->]]. }
  destruct (find (same_file f) (Ix_files d)) as [r|] eqn:E; intros [= <- <-].
  - apply find_some in E as [Hr%list_elem_of_In Hsr].
    set (upd := refreshed now f). assert (Hid : ∀ r, Fr_id (upd r) = Fr_id r) by (intros r0; unfold upd, refreshed; by destruct (same_file f r0)).
    assert (Hkey : ∀ r, (Fr_repo (upd r), Fr_wt (upd r), Fr_path (upd r)) = (Fr_repo r, Fr_wt r, Fr_path r)) by (intros r0; unfold upd, refreshed; by destruct (same_file f r0)).
    assert (Hws : ∀ r, Fr_ws (upd r) = Fr_ws r) by (intros r0; unfold upd, refreshed; by destruct (same_file f r0)).
    assert (Hin : ∀ g, (∃ f0, f0 ∈ Ix_files d ∧ Fr_id f0 = g) → ∃ f0, f0 ∈ upd <$> Ix_files d ∧ Fr_id f0 = g).
    { intros g (f0 & Hf0 & <-). exists (upd f0). split; [|apply Hid]. apply list_elem_of_fmap. by exists f0. }
    split_and!; try done.
    + split; try apply Hd; cbn [with_files Ix_files Ix_nodes Ix_ws Ix_repos Ix_chunks].
      * intros i n (H1 & H2 & H3 & H4)%(ok_node d Hd). split_and!; [done.. |]. destruct H4 as [|H4]; [by left | right; by apply Hin].
      * intros r' (r0 & -> & Hr0)%list_elem_of_fmap. destruct (ok_file d Hd r0 Hr0) as [H1 H2]. rewrite Hws. specialize (Hkey r0). split; [done |].
        assert (Fr_repo (upd r0) = Fr_repo r0) as -> by congruence. done.
      * destruct (ok_file_key d Hd) as [H1 H2]. rewrite <- !list_fmap_compose. split.
        -- erewrite list_fmap_ext; [exact H1 | intros i r0 _; apply Hkey].
        -- erewrite list_fmap_ext; [exact H2 | intros i r0 _; apply Hid].
      * intros c Hc. destruct (ok_chunk d Hd c Hc) as (H1 & H2 & H3). split_and!; [done | done | by apply Hin].
    + exists (upd r). split; [apply list_elem_of_fmap; by exists r |]. rewrite Hid. specialize (Hkey r). apply Hsame in Hsr as E. rewrite E in Hkey.
      assert (Fr_hash (upd r) = F_Hash f) by (unfold upd, refreshed; by rewrite Hsr). split_and!; congruence.
    + intros r0 Hr0. exists (upd r0). split; [apply list_elem_of_fmap; by exists r0 |]. split; [apply Hid |]. split; [apply Hkey |].
      intros Hne. unfold upd, refreshed. destruct (same_file f r0) eqn:Es; [|done]. by apply Hsame in Es.
  - set (id := next_id (Fr_id <$> Ix_files d)). set (row := mk_file_row id _ _ _ _ _ _ _ _).
    assert (Hfresh : ∀ r, r ∈ Ix_files d → (Fr_id r < id)%Z) by (intros r Hr; apply fresh_row_id, list_elem_of_fmap; by exists r).
    assert (Hin : ∀ g, (∃ f0, f0 ∈ Ix_files d ∧ Fr_id f0 = g) → ∃ f0, f0 ∈ Ix_files d ++ [row] ∧ Fr_id f0 = g).
    { intros g (f0 & Hf0 & <-). exists f0. split; [apply elem_of_app; by left | done]. }
    split_and!; try done.
    + split; try apply Hd; cbn [with_files Ix_files Ix_nodes Ix_ws Ix_repos Ix_chunks].
      * intros i n (H1 & H2 & H3 & H4)%(ok_node d Hd). split_and!; [done.. |]. destruct H4 as [|H4]; [by left | right; by apply Hin].
      * intros r' [Hr'| ->%list_elem_of_singleton]%elem_of_app; [by apply Hd | done].
      * destruct (ok_file_key d Hd) as [H1 H2]. rewrite !fmap_app. split; apply NoDup_app; (split_and!; [done | | apply NoDup_singleton]).
        -- intros k (r & -> & Hr)%list_elem_of_fmap Hk%list_elem_of_singleton. pose proof (find_none _ _ E r (proj1 (list_elem_of_In _ _) Hr)) as Hf.
           rewrite <- not_true_iff_false, Hsame in Hf. by destruct Hf.
        -- intros k (r & -> & Hr)%list_elem_of_fmap Hk%list_elem_of_singleton. specialize (Hfresh r Hr). cbn in Hk. lia.
      * intros c Hc. destruct (ok_chunk d Hd c Hc) as (H1 & H2 & H3). split_and!; [done | done | by apply Hin].
    + exists row. split; [apply elem_of_app; right; by left | done].
    + intros r Hr. exists r. split; [apply elem_of_app; by left | done].
Qed.

(** The rows are there for every file, with what was read of it. *)
Lemma put_file_rows_ok now files : ∀ d files' d', index_ok d → put_file_rows now files d = Ok (files', d') →
  index_ok d' ∧ same_graph d d' ∧ Ix_chunks d' = Ix_chunks d ∧ Ix_keys d' = Ix_keys d ∧
  (λ f, with_id f 0) <$> files' = (λ f, with_id f 0) <$> files ∧
  (∀ r, r ∈ Ix_files d → ∃ r', r' ∈ Ix_files d' ∧ Fr_id r' = Fr_id r) ∧
  ∀ f, f ∈ files' → is_Some (Ix_repos d !! F_Repository f) ∧ ∃ r, r ∈ Ix_files d' ∧ Fr_id r = F_ID f.
Proof.
  induction files as [|f files IH]; intros d files' d' Hd; cbn [put_file_rows].
  { intros [= <- <-]. split_and!; try done; [by intros r Hr; exists r | by intros f ?%not_elem_of_nil]. }
  destruct (put_file_row now f d) as [[id d1]|] eqn:E1; [|done]. cbn [mbind result_bind fst snd].
  destruct (put_file_rows now files d1) as [[fs d2]|] eqn:E2; [|done]. cbn [mbind result_bind fst snd]. intros [= <- <-].
  destruct (put_file_row_ok now f d id d1 Hd E1) as (Hd1 & Hg1 & Hc1 & Hk1 & Hrepo & (r & Hr & Hid & _) & Hold).
  destruct (IH d1 fs d2 Hd1 E2) as (Hd2 & Hg2 & Hc2 & Hk2 & Hfs & Hold2 & Hrows).
  assert (Hg : same_graph d d2) by (unfold same_graph in *; intuition congruence).
  split_and!; [done | done | congruence | congruence | cbn; by rewrite Hfs | |].
  - intros r0 (r1 & Hr1 & E & _)%Hold. destruct (Hold2 r1 Hr1) as (r2 & Hr2 & E'). exists r2. split; congruence.
  - intros f0 [->|Hf0]%elem_of_cons.
    + split; [done |]. destruct (Hold2 r Hr) as (r2 & Hr2 & E'). exists r2. cbn. split; congruence.
    + destruct (Hrows f0 Hf0) as [H1 H2]. split; [|done]. destruct Hg1 as (_ & E & _). by rewrite <- E.
Qed.
End files.

(** *** Chunks *)

Section chunks.
Context (sha256 : string → string) (opts : Options).

Definition chunk_view (c : ChunkRow) : string * string * (Z * Z) * string := (Cr_repo c, Cr_path c, (Cr_start c, Cr_end c), Cr_body c).
Definition window_view (file : File) (w : window) : string * string * (Z * Z) * string := (F_Repository file, F_Path file, (w_start w, w_end w), w_body w).

Lemma put_windows_ok file ws : ∀ d d', index_ok d → put_windows sha256 file ws d = Ok d' →
  index_ok d' ∧ d' = with_chunks (Ix_chunks d') d ∧ chunk_view <$> Ix_chunks d' = (chunk_view <$> Ix_chunks d) ++ (window_view file <$> ws).
Proof using Type.
  clear opts. induction ws as [|w ws IH]; intros d d' Hd; cbn [put_windows].
  { intros [= <-]. split_and!; [done | by destruct d | by rewrite app_nil_r]. }
  unfold put_chunk. destruct (_ || _) eqn:E; [done |]. apply orb_false_iff in E as [Er Ef]. apply bool_decide_eq_false, not_eq_None_Some in Er.
  apply negb_false_iff, existsb_exists in Ef as (r & Hr%list_elem_of_In & Hid%Z.eqb_eq). cbn [mbind result_bind]. intros H.
  apply IH in H as (Hd' & Hs & Hv).
  - split_and!; [done | rewrite Hs; done |]. rewrite Hv. cbn [with_chunks Ix_chunks]. rewrite fmap_app, <- app_assoc. done.
  - split; try apply Hd. cbn [with_chunks Ix_chunks Ix_ws Ix_repos Ix_files]. intros c [Hc| ->%list_elem_of_singleton]%elem_of_app; [by apply Hd |].
    cbn. split_and!; [done | done | by exists r].
Qed.

(** Each file is cut into its windows. *)
Fixpoint cut (f : fs) (files : list File) : result (list (string * string * (Z * Z) * string)) :=
  match files with
  | [] => Ok []
  | file :: files => ws ← chunkFile f (F_AbsPath file) (ChunkLines opts); rest ← cut f files; Ok ((window_view file <$> ws) ++ rest)
  end.

Lemma put_chunks_ok f files : ∀ d d', index_ok d → put_chunks sha256 opts f files d = Ok d' →
  index_ok d' ∧ d' = with_chunks (Ix_chunks d') d ∧
  ∃ rows, cut f files = Ok rows ∧ chunk_view <$> Ix_chunks d' = (chunk_view <$> Ix_chunks d) ++ rows.
Proof using Type.
  induction files as [|file files IH]; intros d d' Hd; cbn [put_chunks cut].
  { intros [= <-]. split_and!; [done | by destruct d | exists []; by rewrite app_nil_r]. }
  destruct (chunkFile f (F_AbsPath file) (ChunkLines opts)) as [ws|]; [|done]. cbn [mbind result_bind].
  destruct (put_windows sha256 file ws d) as [d1|] eqn:E; [|done]. cbn [mbind result_bind]. intros H.
  destruct (put_windows_ok file ws d d1 Hd E) as (Hd1 & Hs1 & Hv1). destruct (IH d1 d' Hd1 H) as (Hd' & Hs' & rows & Hrows & Hv').
  split_and!; [done | rewrite Hs', Hs1; done |]. rewrite Hrows. cbn [mbind result_bind]. eexists. split; [done |]. by rewrite Hv', Hv1, app_assoc.
Qed.

Lemma writeChunks_ok f files d n d' : index_ok d → writeChunks sha256 opts f files d = (Ok n, d') →
  index_ok d' ∧ same_graph d d' ∧ Ix_files d' = Ix_files d ∧ Ix_keys d' = Ix_keys d ∧ cut f files = Ok (chunk_view <$> Ix_chunks d').
Proof using Type.
  intros Hd. unfold writeChunks, index_tx. destruct (put_chunks _ _ _ _ _) as [d1|] eqn:E; [|done]. cbn [mbind result_bind]. intros [= <- <-].
  apply put_chunks_ok in E as (Hd1 & Hs & rows & Hcut & Hv).
  - split; [done |]. split; [by rewrite Hs |]. split; [by rewrite Hs |]. split; [by rewrite Hs |]. by rewrite Hcut, Hv.
  - split; try apply Hd. by intros c ?%not_elem_of_nil.
Qed.
End chunks.

(** *** The file system's part of the graph *)

Section filesystem.
Context (repositoryID : string).

Definition main_key (k : string * string) : node_key := (repositoryID, "", k.1, k.2).
Definition local (n : Node) : Prop := N_Repository n = repositoryID ∧ N_Worktree n = "".

Lemma key_of_local n : local n → key_of_node n = main_key (N_Kind n, N_FQN n).
Proof using Type. unfold key_of_node. by intros [-> ->]. Qed.

Lemma filesystem_local files n : n ∈ filesystem_nodes repositoryID files → local n.
Proof using Type. by intros [(d & -> & _)%list_elem_of_fmap|(f & -> & _)%list_elem_of_fmap]%elem_of_app. Qed.

Lemma ids_by_fqn_lookup nodes ids d k : Forall local nodes → length ids = length nodes →
  (∀ j n id, nodes !! j = Some n → ids !! j = Some id → node_at (key_of_node n) (Ix_nodes d) = Some id) →
  ids_by_fqn nodes ids !! k = if decide (main_key k ∈ key_of_node <$> nodes) then node_at (main_key k) (Ix_nodes d) else None.
Proof using Type.
  intros Hl Hlen Hat. unfold ids_by_fqn.
  enough (H : ∀ m : gmap (string * string) Z, foldl (λ m e, <[(N_Kind e.1, N_FQN e.1) := e.2]> m) m (zip nodes ids) !! k =
    if decide (main_key k ∈ key_of_node <$> nodes) then node_at (main_key k) (Ix_nodes d) else m !! k) by (by rewrite H, lookup_empty).
  revert ids Hlen Hat. induction nodes as [|n nodes IH]; intros [|id ids] Hlen Hat m; try discriminate Hlen.
  - cbn. rewrite decide_False by apply not_elem_of_nil. done.
  - apply Forall_cons in Hl as [Hn Hl]. cbn [zip zip_with foldl fst snd]. rewrite IH; [|done | by injection Hlen | intros j; apply (Hat (S j))].
    cbn [fmap list_fmap]. destruct (decide (main_key k ∈ key_of_node <$> nodes)) as [Hin|Hin]; [rewrite decide_True by (by right); done |].
    rewrite (key_of_local n Hn). destruct (decide ((N_Kind n, N_FQN n) = k)) as [<-|Hne].
    + rewrite decide_True by left. rewrite lookup_insert_eq. symmetry. rewrite <- key_of_local by done. by apply (Hat 0).
    + rewrite decide_False; [by rewrite lookup_insert_ne |]. intros [E|?]%elem_of_cons; [|done]. apply Hne. destruct k. by injection E as -> ->.
Qed.

(** Its edges, by names: from each directory to what it holds. *)
Definition filesystem_edges (files : list File) : list (named * (Evidence * string)) :=
  let keys := key_of_node <$> filesystem_nodes repositoryID files in
  omap (λ c, if bool_decide (main_key ("directory", dir_path c.2) ∈ keys) && bool_decide (main_key c ∈ keys)
             then Some ((main_key ("directory", dir_path c.2), main_key c, "contains", "filesystem"), (Resolved, "{}")) else None) (contained files).

Lemma each_valid es : each (λ e, Edge_Validate (Er_edge e)) es = Ok tt → ∀ e, e ∈ es → Graph.Valid (E_Evidence (Er_edge e)) = true.
Proof using Type.
  intros H e He. rewrite each_ok in H. specialize (H e He). unfold Edge_Validate in H. destruct (_ || _); [done |].
  by destruct (Graph.Valid (E_Evidence (Er_edge e))).
Qed.

Lemma UpsertEdges_named es l d d' : index_ok d → UpsertEdges es d = (Ok tt, d') →
  edge_writes es = omap (λ e : named * (Evidence * string), (λ j, (j, e.2)) <$> ids_of d e.1) l →
  index_ok d' ∧ same_but_edges d d' ∧ ∀ k, edge_between d' k = if ids_of d k then newest k l (edge_between d k) else None.
Proof using Type.
  clear repositoryID. intros Hd. unfold UpsertEdges, mbind, M_bind, lift. destruct (each _ _) as [[]|] eqn:Ev; [|done].
  unfold index_tx. destruct (put_edges es d) as [d1|] eqn:E; [|done]. cbn [mbind result_bind]. intros [= <-] Hl.
  by apply (put_edges_named es); [|by apply each_valid | |].
Qed.

Lemma UpsertNodes_ok ns d ids d' : UpsertNodes ns d = (Ok ids, d') → put_nodes 0 ns d = Ok (ids, d').
Proof using Type. clear repositoryID. unfold UpsertNodes, index_tx. destruct (put_nodes 0 ns d) as [[]|]; [by intros [= -> ->] | done]. Qed.

Lemma writeFilesystemGraph_ok files d n d' : index_ok d → writeFilesystemGraph repositoryID files d = (Ok n, d') →
  index_ok d' ∧ Ix_ws d' = Ix_ws d ∧ Ix_repos d' = Ix_repos d ∧ Ix_files d' = Ix_files d ∧ Ix_chunks d' = Ix_chunks d ∧ Ix_keys d' = Ix_keys d ∧
  (∀ k, content <$> row_at d' k = newest k (written (filesystem_nodes repositoryID files)) (content <$> row_at d k)) ∧
  (∀ k, edge_between d' k = if ids_of d' k then newest k (filesystem_edges files) (edge_between d k) else edge_between d k) ∧
  (∀ k, k ∈ (filesystem_edges files).*1 → is_Some (ids_of d' k)).
Proof using Type.
  intros Hd. unfold writeFilesystemGraph, mbind, M_bind. destruct (UpsertNodes _ d) as [[ids|] d1] eqn:E; [|done]. apply UpsertNodes_ok in E.
  destruct (UpsertEdges _ d1) as [[[]|] d2] eqn:E2; [|done]. intros [= <- <-].
  destruct (put_nodes_ok _ _ _ _ _ Hd E) as (Hd1 & Hs1 & Hlen & Hrows & _ & _ & _ & Hids).
  assert (Hlocal : Forall local (filesystem_nodes repositoryID files)) by (apply Forall_forall; intros; by eapply filesystem_local).
  assert (Hat : ∀ k, main_key k ∈ key_of_node <$> filesystem_nodes repositoryID files → is_Some (node_at (main_key k) (Ix_nodes d1))).
  { intros k (m & Hk & [j Hj]%list_elem_of_lookup)%list_elem_of_fmap. destruct (lookup_lt_is_Some_2 ids j) as [id Hid]; [apply lookup_lt_Some in Hj; lia |].
    exists id. rewrite Hk. by apply (Hids j). }
  destruct (UpsertEdges_named _ (filesystem_edges files) d1 d2 Hd1 E2) as (Hd2 & Hs2 & Hedges).
  - unfold filesystem_edges. clear -Hlocal Hlen Hids Hat. induction (contained files) as [|c l IH]; [done |]. cbn [omap list_omap fst snd].
    unfold containment at 1. rewrite !(ids_by_fqn_lookup _ _ d1) by done.
    destruct (decide (main_key ("directory", dir_path c.2) ∈ _)) as [H1|H1]; [rewrite (bool_decide_eq_true_2 _ H1) | by rewrite (bool_decide_eq_false_2 _ H1)].
    destruct (Hat _ H1) as [s Hs]. rewrite Hs. cbn [mbind option_bind andb].
    destruct (decide (main_key c ∈ _)) as [H2|H2]; [rewrite (bool_decide_eq_true_2 _ H2) | by rewrite (bool_decide_eq_false_2 _ H2)].
    destruct (Hat _ H2) as [t Ht]. rewrite Ht. cbn [mbind option_bind omap list_omap fst snd]. unfold ids_of at 1. rewrite Hs, Ht. cbn [mbind option_bind fmap option_fmap option_map].
    unfold edge_writes. cbn [fmap list_fmap]. f_equal. exact IH.
  - apply index_ok_nodes_only in Hs1 as (? & ? & ? & ? & ? & ?). apply index_ok_edges_only in Hs2 as (? & ? & ? & Hn & ? & ?).
    split_and!; [done | congruence.. | | |].
    + intros k. rewrite <- Hrows. unfold row_at. by rewrite Hn.
    + intros k. rewrite Hedges, (ids_of_same d1 d2), <- (put_nodes_edges _ _ _ _ _ k Hd E) by done. unfold edge_between. by destruct (ids_of d1 k).
    + intros k ([k' v] & -> & Hin)%list_elem_of_fmap. unfold filesystem_edges in Hin. apply list_elem_of_omap in Hin as (c & _ & Hc).
      destruct (bool_decide _ && bool_decide _) eqn:Eb; [|done]. apply andb_true_iff in Eb as [Hp%bool_decide_eq_true Hq%bool_decide_eq_true].
      injection Hc as <- _. cbn [fst]. destruct (Hat _ Hp) as [x Hx], (Hat _ Hq) as [y Hy]. unfold ids_of. rewrite Hn, Hx. cbn [mbind option_bind]. rewrite Hy. by eexists.
Qed.
End filesystem.

(** *** What the analyzers add *)

Section analyzers.
Context (repositoryID : string).

Definition own (n : Node) : Node :=
  mk_full_node (N_ID n) (N_Workspace n) repositoryID (N_Worktree n) (N_Kind n) (N_Name n) (N_FQN n) (N_FileID n) (N_Path n)
    (N_StartLine n) (N_EndLine n) (N_Signature n) (N_Visibility n) (N_ContentHash n) (N_Attrs n).
Definition analyzer_nodes (outputs : list (string * Result)) : list Node := outputs ≫= λ out, own <$> Rs_Nodes out.2.
Definition named_edge (source : string) (pe : PendingEdge) : named * (Evidence * string) :=
  ((main_key repositoryID (SrcKind pe, SrcFQN pe), main_key repositoryID (DstKind pe, DstFQN pe), Pe_Kind pe, source),
   (default Unknown (Pe_Evidence pe), if String.eqb (Pe_Attrs pe) "" then "{}" else Pe_Attrs pe)).
Definition analyzer_edges (outputs : list (string * Result)) : list (named * (Evidence * string)) :=
  outputs ≫= λ out, named_edge out.1 <$> Rs_Edges out.2.
(** Analyzers of the main checkout: their nodes name no other. *)
Definition main_checkout (outputs : list (string * Result)) : Prop := ∀ out n, out ∈ outputs → n ∈ Rs_Nodes out.2 → N_Worktree n = "".

(** The tables beside the graph. *)
Definition same_rest (d d' : index_db) : Prop :=
  Ix_ws d' = Ix_ws d ∧ Ix_repos d' = Ix_repos d ∧ Ix_files d' = Ix_files d ∧ Ix_chunks d' = Ix_chunks d ∧ Ix_keys d' = Ix_keys d.
Lemma same_rest_trans d1 d2 d3 : same_rest d1 d2 → same_rest d2 d3 → same_rest d1 d3.
Proof using Type. unfold same_rest. intuition congruence. Qed.

Lemma writeNodes_ok nodes d n d' : index_ok d → writeNodes repositoryID nodes d = (Ok n, d') →
  index_ok d' ∧ same_rest d d' ∧ (∀ k, content <$> row_at d' k = newest k (written (own <$> nodes)) (content <$> row_at d k)) ∧
  ∀ k, edge_between d' k = edge_between d k.
Proof using Type.
  intros Hd. unfold writeNodes. destruct nodes as [|x l]; [intros [= <- <-]; by split_and!|]. set (nodes := x :: l). fold own.
  unfold mbind, M_bind. destruct (UpsertNodes _ d) as [[ids|] d1] eqn:E; [|done]. apply UpsertNodes_ok in E. intros [= <- <-].
  destruct (put_nodes_ok _ _ _ _ _ Hd E) as (Hd1 & Hs1 & _ & Hrows & _). apply index_ok_nodes_only in Hs1 as (? & ? & ? & ? & ? & ?).
  split_and!; [done.. | exact Hrows |]. intros k. by apply (put_nodes_edges _ _ _ _ _ k Hd E).
Qed.

Lemma write_all_nodes_ok outputs : ∀ d n d', index_ok d → write_all_nodes repositoryID outputs d = (Ok n, d') →
  index_ok d' ∧ same_rest d d' ∧ (∀ k, content <$> row_at d' k = newest k (written (analyzer_nodes outputs)) (content <$> row_at d k)) ∧
  ∀ k, edge_between d' k = edge_between d k.
Proof using Type.
  induction outputs as [|out outputs IH]; intros d n d' Hd; cbn [write_all_nodes]; [intros [= <- <-]; by split_and!|].
  unfold mbind, M_bind, wrapM. destruct (writeNodes _ _ d) as [[m|] d1] eqn:E; [|done]. cbn [wrap_r].
  destruct (write_all_nodes repositoryID outputs d1) as [[m2|] d2] eqn:E2; [|done]. intros [= <- <-].
  destruct (writeNodes_ok _ _ _ _ Hd E) as (Hd1 & Hs1 & Hr1 & He1). destruct (IH _ _ _ Hd1 E2) as (Hd2 & Hs2 & Hr2 & He2).
  split_and!; [done | by eapply same_rest_trans | |].
  - intros k. rewrite Hr2, Hr1. change (analyzer_nodes (out :: outputs)) with ((own <$> Rs_Nodes out.2) ++ analyzer_nodes outputs).
    unfold written. rewrite fmap_app. symmetry. apply newest_app.
  - intros k. by rewrite He2, He1.
Qed.

Lemma writeEdges_ok source pending d n d' : index_ok d → (∀ id m, Ix_nodes d !! id = Some m → N_Repository m = repositoryID → N_Worktree m = "") →
  writeEdges repositoryID source pending d = (Ok n, d') →
  index_ok d' ∧ same_but_edges d d' ∧
  ∀ k, edge_between d' k = if ids_of d k then newest k (named_edge source <$> pending) (edge_between d k) else None.
Proof using Type.
  intros Hd Hmain. unfold writeEdges. destruct pending as [|x l].
  { intros [= <- <-]. split_and!; [done | by destruct d |]. intros k. unfold edge_between. by destruct (ids_of d k). }
  set (pending := x :: l). unfold mbind, M_bind. destruct (UpsertEdges _ d) as [[[]|] d1] eqn:E; [|done]. intros [= <- <-].
  apply (UpsertEdges_named _ (named_edge source <$> pending) d d1 Hd E). clear E.
  induction pending as [|pe pending IH]; [done |]. cbn [omap list_omap fmap list_fmap fst snd]. unfold resolve_edge at 1.
  change (ids_of d (named_edge source pe).1) with (s ← node_at (repositoryID, "", SrcKind pe, SrcFQN pe) (Ix_nodes d);
    t ← node_at (repositoryID, "", DstKind pe, DstFQN pe) (Ix_nodes d); Some (s, t, Pe_Kind pe, source)).
  pose proof (NodeByFQN_ok d repositoryID (SrcKind pe) (SrcFQN pe) Hd Hmain) as Hs. pose proof (NodeByFQN_ok d repositoryID (DstKind pe) (DstFQN pe) Hd Hmain) as Ht.
  destruct (NodeByFQN d repositoryID (SrcKind pe) (SrcFQN pe)) as [s|]; rewrite Hs; [|exact IH].
  destruct (NodeByFQN d repositoryID (DstKind pe) (DstFQN pe)) as [t|]; rewrite Ht; [|exact IH]. cbn [mbind option_bind fmap option_fmap option_map].
  unfold edge_writes. cbn [fmap list_fmap]. f_equal. exact IH.
Qed.

Lemma write_all_edges_ok outputs : ∀ d n d', index_ok d → (∀ id m, Ix_nodes d !! id = Some m → N_Repository m = repositoryID → N_Worktree m = "") →
  write_all_edges repositoryID outputs d = (Ok n, d') →
  index_ok d' ∧ same_but_edges d d' ∧
  ∀ k, edge_between d' k = if ids_of d k then newest k (analyzer_edges outputs) (edge_between d k) else edge_between d k.
Proof using Type.
  intros d n d' Hd Hmain H. enough (Hok : index_ok d' ∧ same_but_edges d d' ∧
    ∀ k, edge_between d' k = if ids_of d k then newest k (analyzer_edges outputs) (edge_between d k) else None).
  { destruct Hok as (H1 & H2 & H3). split_and!; [done.. |]. intros k. rewrite H3. unfold edge_between. by destruct (ids_of d k). }
  revert d n d' Hd Hmain H. induction outputs as [|out outputs IH]; intros d n d' Hd Hmain; cbn [write_all_edges].
  { intros [= <- <-]. split_and!; [done | by destruct d |]. intros k. unfold edge_between. by destruct (ids_of d k). }
  unfold mbind, M_bind, wrapM. destruct (writeEdges _ _ _ d) as [[m|] d1] eqn:E; [|done]. cbn [wrap_r].
  destruct (write_all_edges repositoryID outputs d1) as [[m2|] d2] eqn:E2; [|done]. intros [= <- <-].
  destruct (writeEdges_ok _ _ _ _ _ Hd Hmain E) as (Hd1 & Hs1 & He1).
  assert (Hn : Ix_nodes d1 = Ix_nodes d) by (by apply index_ok_edges_only in Hs1 as (_ & _ & _ & -> & _)).
  destruct (IH d1 m2 d2 Hd1) as (Hd2 & Hs2 & He2); [by rewrite Hn | done |]. split_and!; [done | by eapply same_but_edges_trans |].
  intros k. rewrite He2, He1, (ids_of_same d d1) by done. change (analyzer_edges (out :: outputs)) with ((named_edge out.1 <$> Rs_Edges out.2) ++ analyzer_edges outputs).
  rewrite newest_app. by destruct (ids_of d k).
Qed.

(** Edges alone are written, whatever the worktrees of the nodes. *)
Lemma write_all_edges_rest outputs : ∀ d n d', write_all_edges repositoryID outputs d = (Ok n, d') →
  Ix_chunks d' = Ix_chunks d ∧ Ix_keys d' = Ix_keys d.
Proof using Type.
  assert (Hput : ∀ es d d', put_edges es d = Ok d' → Ix_chunks d' = Ix_chunks d ∧ Ix_keys d' = Ix_keys d).
  { induction es as [|e es IH]; intros d d'; cbn [put_edges]; [by intros [= <-] |].
    destruct (put_edge e d) as [d1|] eqn:E; [|done]. cbn [mbind result_bind]. intros [-> ->]%IH. unfold put_edge in E.
    destruct (_ || _); [done |]. destruct (existsb _ _); by injection E as <-. }
  induction outputs as [|out outputs IH]; intros d n d'; cbn [write_all_edges]; [by intros [= _ <-] |].
  unfold mbind, M_bind, wrapM. destruct (writeEdges _ _ _ d) as [[m|] d1] eqn:E; [|done]. cbn [wrap_r].
  destruct (write_all_edges repositoryID outputs d1) as [[m2|] d2] eqn:E2; [|done]. intros [= _ <-]. apply IH in E2 as [-> ->].
  unfold writeEdges in E. destruct (Rs_Edges out.2); [by injection E as _ <- |]. unfold mbind, M_bind, UpsertEdges, index_tx, lift in E.
  unfold M_bind, mbind in E. destruct (each _ _) as [[]|]; [|done]. destruct (put_edges _ d) as [dd|] eqn:Ep; [|done]. cbn [mbind result_bind] in E. injection E as _ <-.
  by eapply Hput.
Qed.
End analyzers.

(** *** A full index *)

Section full.
Context (sha256 : string → string) (encode_result : Result → option string) (decode_result : string → option Result)
        (random : string → string) (toolchain : string) (opts : Options).
Notation Repository := (Repository sha256 encode_result decode_result random toolchain opts).
Notation run_analyzers := (run_analyzers sha256 encode_result decode_result random).

Lemma analyze_db a root accepted s r s' : analyze sha256 encode_result decode_result random a root accepted s = (r, s') → S_db s' = S_db s.
Proof using Type.
  unfold analyze. destruct (Get _ _ _ _ _) as [got cache]. destruct (match got with Ok body => _ | Err _ => _ end); [by intros [= <- <-] |].
  destruct (Analyze _ _ _ _); [destruct (encode_result _) |]; by intros [= <- <-].
Qed.
Lemma run_analyzers_db root files l : ∀ s r s', run_analyzers root files l s = (r, s') → S_db s' = S_db s.
Proof using Type.
  induction l as [|a l IH]; intros s r s'; cbn [Index.run_analyzers]; [by intros [= <- <-] |].
  destruct (List.filter _ _); [apply IH |]. unfold mbind, M_bind, wrapM. destruct (analyze _ _ _ _ _ _ _ s) as [[res|] s1] eqn:E; apply analyze_db in E; [|by intros [= <- <-]].
  cbn [wrap_r]. destruct (run_analyzers root files l s1) as [[rest|] s2] eqn:E2; apply IH in E2; intros [= <- <-]; congruence.
Qed.

(** The nodes and the edges a run means to write. *)
Definition meant_nodes (repositoryID : string) (files : list File) (outputs : list (string * Result)) : list Node :=
  filesystem_nodes repositoryID files ++ analyzer_nodes repositoryID outputs.
Definition meant_edges (repositoryID : string) (files : list File) (outputs : list (string * Result)) : list (named * (Evidence * string)) :=
  filesystem_edges repositoryID files ++ analyzer_edges repositoryID outputs.

(** What a successful run did, step by step, on the database. *)
Lemma Repository_steps now repositoryID root s st s' : Repository now repositoryID root s = (Ok st, s') →
  ∃ found skipped files d1 d3 d4 outputs s4 d5 d6 n3 n4 n5 n6,
    walk sha256 opts (S_fs s) repositoryID root = Ok (found, skipped) ∧
    writeFiles now found (S_db s) = (Ok files, d1) ∧
    writeFilesystemGraph repositoryID files (delete_nodes repositoryID d1) = (Ok n3, d3) ∧
    writeChunks sha256 opts (S_fs s) files d3 = (Ok n4, d4) ∧
    run_analyzers root files (Analyzers opts) (mk_ix (S_fs s) d4 (S_cache s)) = (Ok outputs, s4) ∧
    write_all_nodes repositoryID outputs d4 = (Ok n5, d5) ∧ write_all_edges repositoryID outputs d5 = (Ok n6, d6) ∧
    S_db s' = (recordIndexKey sha256 toolchain now repositoryID files d6).2 ∧
    St_Files st = length files ∧ St_Chunks st = n4.
Proof using Type.
  unfold Index.Repository, mbind, M_bind, lift. destruct (walk _ _ _ _ _) as [[found skipped]|] eqn:Ew; [|done].
  unfold on_db at 1. destruct (writeFiles now found (S_db s)) as [[files|] d1] eqn:E1; [|done].
  unfold wrapM, on_db at 1, clearGraph, index_tx. cbn [S_db S_fs S_cache wrap_r].
  unfold on_db at 1. cbn [S_db S_fs S_cache]. destruct (writeFilesystemGraph _ _ _) as [[[n3 e3]|] d3] eqn:E3; [|done].
  unfold on_db at 1. cbn [S_db S_fs S_cache]. destruct (writeChunks _ _ _ _ _) as [[n4|] d4] eqn:E4; [|done].
  destruct (run_analyzers _ _ _ _) as [[outputs|] s4] eqn:E5; [|done]. pose proof (run_analyzers_db _ _ _ _ _ _ E5) as Hdb. cbn [S_db] in Hdb.
  unfold on_db at 1. cbn [S_db S_fs S_cache]. rewrite Hdb. destruct (write_all_nodes _ _ _) as [[n5|] d5] eqn:E6; [|done].
  unfold on_db at 1. cbn [S_db S_fs S_cache]. destruct (write_all_edges _ _ _) as [[n6|] d6] eqn:E7; [|done].
  unfold on_db. cbn [S_db]. intros [= <- <-]. exists found, skipped, files, d1, d3, d4, outputs, s4, d5, d6, (n3, e3), n4, n5, n6.
  by rewrite E4.
Qed.

Lemma ids_of_rows d k : is_Some (ids_of d k) ↔ is_Some (row_at d k.1.1.1) ∧ is_Some (row_at d k.1.1.2).
Proof using Type.
  assert (H : ∀ q, is_Some (row_at d q) ↔ is_Some (node_at q (Ix_nodes d))).
  { intros q. unfold row_at. destruct (node_at q _) as [id|] eqn:E; [|by split; intros [? [=]]]. apply node_at_some in E as (n & Hn & _). cbn. rewrite Hn. split; by eexists. }
  destruct k as [[[s t] e] o]. cbn [fst snd]. rewrite !H. unfold ids_of. destruct (node_at s _), (node_at t _); cbn; split; try (by intros [? [=]]); try (by intros [[? [=]] ?]); try (by intros [? [? [=]]]); eauto.
Qed.
Lemma newest_keeps {K V : Type} `{EqDecision K} (k : K) (l : list (K * V)) old : is_Some old → is_Some (newest k l old).
Proof using Type. revert old. induction l as [|[k' v] l IH]; intros old; [done |]. intros H. cbn. apply IH. by case_decide. Qed.

Lemma content_is_some d d' k l : content <$> row_at d' k = newest k l (content <$> row_at d k) → is_Some (row_at d k) → is_Some (row_at d' k).
Proof using Type. intros H Hr. apply (fmap_is_Some content). rewrite H. apply newest_keeps. by apply fmap_is_Some. Qed.

Lemma meant_local repositoryID files outputs k :
  k ∈ (meant_edges repositoryID files outputs).*1 → k.1.1.1.1.1.1 = repositoryID ∧ k.1.1.2.1.1.1 = repositoryID.
Proof using Type.
  unfold meant_edges. rewrite fmap_app. intros [H|H]%elem_of_app; apply list_elem_of_fmap in H as ([k' v] & -> & Hin).
  - apply list_elem_of_omap in Hin as (c & _ & Hc). destruct (_ && _); [|done]. by injection Hc as <- _.
  - apply list_elem_of_bind in Hin as (out & Hin & _). apply list_elem_of_fmap in Hin as (pe & [= -> _] & _). done.
Qed.
Lemma meant_nodes_local repositoryID files outputs k : k ∈ (written (meant_nodes repositoryID files outputs)).*1 → k.1.1.1 = repositoryID.
Proof using Type.
  unfold written. rewrite <- list_fmap_compose. intros (n & -> & Hn)%list_elem_of_fmap. cbn. apply elem_of_app in Hn as [Hn|Hn]; [by apply filesystem_local in Hn as [? _] |].
  apply list_elem_of_bind in Hn as (out & Hin & _). by apply list_elem_of_fmap in Hin as (m & -> & _).
Qed.

(** C31: A full index writes the graph that is.  When indexing a repository succeeds,
    whatever the database held before: the nodes of the repository are those of
    the files that were walked and of what the analyzers said, each by its key
    as it was said last, and no others; the edges between them are those the
    analyzers stated with both ends in the graph - whichever analyzer wrote the
    ends, and in whatever order they ran - and the containment of the files;
    every edge from or to another repository is gone, and the rest of the graph
    is as it was.  The chunks of the database are the windows of these files
    and nothing else.  The recorded key is that of these files, and clean; every
    reference and key of the tables still holds. *)
Theorem Repository_exact now repositoryID root s st s' :
  index_ok (S_db s) → Repository now repositoryID root s = (Ok st, s') →
  ∃ files outputs,
    (∃ found skipped, walk sha256 opts (S_fs s) repositoryID root = Ok (found, skipped) ∧ (λ f, with_id f 0) <$> files = (λ f, with_id f 0) <$> found) ∧
    (∃ d s1, run_analyzers root files (Analyzers opts) (mk_ix (S_fs s) d (S_cache s)) = (Ok outputs, s1)) ∧
    cut opts (S_fs s) files = Ok (chunk_view <$> Ix_chunks (S_db s')) ∧
    Ix_keys (S_db s') !! ("repository", repositoryID) =
      Some (mk_key_row (manifestHash sha256 (hash_pairs files))
              (manifestHash sha256 (hash_pairs (List.filter (λ f, mem (base_name (F_Path f)) lockfiles) files))) toolchain false now) ∧
    (main_checkout outputs →
     index_ok (S_db s') ∧
     (∀ k, content <$> row_at (S_db s') k =
        if String.eqb k.1.1.1 repositoryID then newest k (written (meant_nodes repositoryID files outputs)) None else content <$> row_at (S_db s) k) ∧
     ∀ k, edge_between (S_db s') k =
       match String.eqb k.1.1.1.1.1.1 repositoryID, String.eqb k.1.1.2.1.1.1 repositoryID with
       | true, true => if ids_of (S_db s') k then newest k (meant_edges repositoryID files outputs) None else None
       | false, false => edge_between (S_db s) k
       | _, _ => None
       end).
Proof using Type.
  intros Hd Hrun. apply Repository_steps in Hrun as (found & skipped & files & d1 & d3 & d4 & outputs & s4 & d5 & d6 & n3 & n4 & n5 & n6 & Hw & H1 & H3 & H4 & Ho & H5 & H6 & Hs' & _).
  assert (E1 : put_file_rows now found (S_db s) = Ok (files, d1)).
  { unfold writeFiles, index_tx in H1. destruct (put_file_rows _ _ _) as [[]|]; [by injection H1 as -> -> | done]. }
  destruct (put_file_rows_ok now found (S_db s) files d1 Hd E1) as (Hd1 & Hg1 & _ & Hk1 & Hfs & _ & _).
  pose proof (delete_nodes_ok repositoryID d1 Hd1) as Hd2.
  destruct (writeFilesystemGraph_ok repositoryID files _ _ _ Hd2 H3) as (Hd3 & _ & _ & _ & _ & Hk3 & Hr3 & He3 & Hf3).
  destruct (writeChunks_ok sha256 opts (S_fs s) files d3 n4 d4 Hd3 H4) as (Hd4 & Hg4 & _ & Hk4 & Hcut).
  destruct (write_all_nodes_ok repositoryID outputs d4 n5 d5 Hd4 H5) as (Hd5 & Hs5 & Hr5 & He5).
  assert (Hchunks : Ix_chunks d6 = Ix_chunks d4 ∧ Ix_keys d6 = Ix_keys (S_db s)).
  { destruct Hs5 as (_ & _ & _ & Hc5 & Hk5). assert (Hc6 : Ix_chunks d6 = Ix_chunks d5 ∧ Ix_keys d6 = Ix_keys d5) by (by eapply write_all_edges_rest).
    destruct Hc6 as [-> ->]. split; [done |]. rewrite Hk5, Hk4, Hk3. exact Hk1. }
  destruct Hchunks as [Hc6 Hk6].
  exists files, outputs. split; [by exists found, skipped |]. split; [by exists d4, s4 |].
  rewrite Hs'. unfold recordIndexKey, index_tx. cbn [snd with_keys Ix_chunks Ix_keys]. rewrite Hc6. split; [done |]. split; [apply lookup_insert_eq |].
  intros Hmain. assert (Hrows : ∀ k, content <$> row_at d5 k =
    if String.eqb k.1.1.1 repositoryID then newest k (written (meant_nodes repositoryID files outputs)) None else content <$> row_at (S_db s) k).
  { intros k. rewrite Hr5, (same_graph_row d3 d4), Hr3, delete_nodes_row, (same_graph_row (S_db s) d1) by done.
    rewrite <- newest_app. replace (written (filesystem_nodes repositoryID files) ++ written (analyzer_nodes repositoryID outputs)) with (written (meant_nodes repositoryID files outputs)) by apply fmap_app.
    destruct (String.eqb_spec k.1.1.1 repositoryID) as [|Hne]; [done |]. apply newest_none. by intros ?%meant_nodes_local. }
  assert (Hmain5 : ∀ id m, Ix_nodes d5 !! id = Some m → N_Repository m = repositoryID → N_Worktree m = "").
  { intros id m Hm Hr. specialize (Hrows (key_of_node m)).
    rewrite (proj2 (row_at_some d5 (key_of_node m) m Hd5)) in Hrows by (by exists id).
    unfold key_of_node in Hrows at 1. cbn [fst snd] in Hrows. rewrite Hr, String.eqb_refl in Hrows. cbn [fmap option_fmap option_map] in Hrows.
    symmetry in Hrows. apply newest_some in Hrows as [Hin|[_ [=]]]. apply list_elem_of_fmap in Hin as (n & [= _ Hwt _ _] & Hn). rewrite Hwt.
    apply elem_of_app in Hn as [Hn|Hn]; [by apply filesystem_local in Hn as [_ ?] |].
    apply list_elem_of_bind in Hn as (out & Hin & Hout). apply list_elem_of_fmap in Hin as (n0 & -> & Hn0). by apply (Hmain out n0). }
  destruct (write_all_edges_ok repositoryID outputs d5 n6 d6 Hd5 Hmain5 H6) as (Hd6 & Hs6 & He6).
  apply index_ok_edges_only in Hs6 as (_ & _ & _ & Hn6 & _ & _).
  split; [by split; try apply Hd6 |].
  split; [intros k; rewrite <- Hrows; unfold row_at; cbn [with_keys Ix_nodes]; by rewrite Hn6 |].
  intros k. change (edge_between (with_keys _ d6) k) with (edge_between d6 k). change (ids_of (with_keys _ d6) k) with (ids_of d6 k).
  rewrite He6, He5, (same_graph_between d3 d4), He3, delete_nodes_between, (same_graph_between (S_db s) d1) by done.
  rewrite (ids_of_same d5 d6) by done.
  assert (Hup : is_Some (ids_of d3 k) → is_Some (ids_of d5 k)).
  { rewrite !ids_of_rows. intros [? ?]. split; (eapply content_is_some; [apply Hr5 |]); by rewrite (same_graph_row d3 d4). }
  assert (Hbase : ∀ B, (if ids_of d5 k then newest k (analyzer_edges repositoryID outputs) (if ids_of d3 k then newest k (filesystem_edges repositoryID files) B else B)
      else if ids_of d3 k then newest k (filesystem_edges repositoryID files) B else B) =
    if ids_of d5 k then newest k (meant_edges repositoryID files outputs) B else B).
  { intros B. unfold meant_edges. rewrite newest_app. destruct (ids_of d3 k) as [i|] eqn:E3.
    - by destruct Hup as [j ->].
    - rewrite (newest_none k (filesystem_edges repositoryID files)); [done |]. intros [? ?]%Hf3. congruence. }
  rewrite Hbase. pose proof (meant_local repositoryID files outputs k) as Hlocal.
  destruct (String.eqb_spec k.1.1.1.1.1.1 repositoryID) as [Ea|Ea], (String.eqb_spec k.1.1.2.1.1.1 repositoryID) as [Eb|Eb]; cbn [orb]; [done | | |];
    (destruct (ids_of d5 k); [|done]; apply newest_none; intros Hin%Hlocal; by destruct Hin).
Qed.
End full.

(** *** Whatever happens, the tables hold *)

Lemma stable_sort_in {A : Type} (less : A → A → bool) l x : x ∈ stable_sort less l ↔ x ∈ l.
Proof. by rewrite stable_sort_perm. Qed.
Lemma walk_repository sha256 opts f repositoryID root files skipped x : walk sha256 opts f repositoryID root = Ok (files, skipped) → x ∈ files → F_Repository x = repositoryID.
Proof.
  unfold walk. destruct (lstat_place f root ≫= _) as [[place n]|]; [|done]. intros [= <- _] Hx.
  rewrite stable_sort_in in Hx. apply list_elem_of_omap in Hx as (e & _ & He). unfold walk_file in He.
  destruct e.2; [done | | done]. destruct (_ <? _)%Z; [done |]. destruct (Sensitive _); [done |]. destruct (hashFile _ _) as [h b]. destruct b; [done |].
  by injection He as <-.
Qed.

(** The nodes and the files of a repository, ids and all. *)
Definition rows_of (R : string) (d : index_db) : gmap Z Node * list FileRow :=
  (filter (λ e : Z * Node, N_Repository e.2 = R) (Ix_nodes d), List.filter (λ r, String.eqb (Fr_repo r) R) (Ix_files d)).

Lemma rows_of_same R d d' : Ix_nodes d' = Ix_nodes d → Ix_files d' = Ix_files d → rows_of R d' = rows_of R d.
Proof. unfold rows_of. by intros -> ->. Qed.

Lemma put_nodes_rows R ns i d ids d' : index_ok d → Forall (λ n, N_Repository n ≠ R) ns → put_nodes i ns d = Ok (ids, d') →
  rows_of R d' = rows_of R d.
Proof.
  intros Hd HR (_ & Hs & _ & _ & Hkeep & Hold & Hnew & _)%put_nodes_ok; [|done]. unfold rows_of.
  assert (Hw : ∀ n, key_of_node n ∈ (written ns).*1 → N_Repository n ≠ R).
  { intros n (e & Hk & (m & -> & Hm)%list_elem_of_fmap)%list_elem_of_fmap. cbn [fst] in Hk. rewrite Forall_forall in HR.
    specialize (HR m Hm). unfold key_of_node in Hk. congruence. }
  apply index_ok_nodes_only in Hs as (_ & _ & -> & _). f_equal. apply map_eq. intros id. apply option_eq. intros n.
  rewrite !map_lookup_filter_Some. cbn [snd]. split; intros [Hn HnR]; (split; [|done]).
  - destruct (Ix_nodes d !! id) as [m|] eqn:Em; [|by destruct (Hw n (Hnew id n Hn Em))].
    destruct (decide (key_of_node m ∈ (written ns).*1)) as [Hin|Hout].
    + destruct (Hkeep id m Em) as (n' & Hn' & Hk). destruct (Hw n); [|done]. assert (n' = n) as -> by congruence. by rewrite Hk.
    + specialize (Hold id m Em Hout). congruence.
  - apply Hold; [done |]. by intros ?%Hw.
Qed.

Lemma delete_nodes_rows R repositoryID d : R ≠ repositoryID → rows_of R (delete_nodes repositoryID d) = rows_of R d.
Proof.
  intros HR. unfold rows_of, delete_nodes. cbn [with_edges with_nodes Ix_nodes Ix_files]. f_equal.
  apply map_eq. intros id. apply option_eq. intros n. rewrite !map_lookup_filter_Some. cbn [snd]. naive_solver congruence.
Qed.

Lemma put_file_rows_rows R now files : Forall (λ f, F_Repository f ≠ R) files → ∀ d files' d',
  put_file_rows now files d = Ok (files', d') → rows_of R d' = rows_of R d.
Proof.
  induction 1 as [|f files Hf _ IH]; intros d files' d'; cbn [put_file_rows]; [by intros [= <- <-] |].
  destruct (put_file_row now f d) as [[id d1]|] eqn:E1; [|done]. cbn [mbind result_bind fst snd].
  destruct (put_file_rows now files d1) as [[fs d2]|] eqn:E2; [|done]. cbn [mbind result_bind fst snd]. intros [= <- <-].
  rewrite (IH _ _ _ E2). clear E2. unfold rows_of. revert E1. unfold put_file_row. destruct (bool_decide _); [done |].
  assert (Hout : String.eqb (F_Repository f) R = false) by (by apply String.eqb_neq).
  destruct (find _ _); intros [= <- <-]; cbn [with_files Ix_nodes Ix_files]; f_equal.
  - induction (Ix_files d) as [|r l IHl]; [done |]. cbn [fmap list_fmap List.filter]. rewrite IHl.
    assert (Fr_repo (refreshed now f r) = Fr_repo r) as -> by (unfold refreshed; by destruct (same_file f r)).
    destruct (String.eqb_spec (Fr_repo r) R) as [HR|]; [|done]. f_equal. unfold refreshed. destruct (same_file f r) eqn:Es; [|done].
    unfold same_file in Es. apply andb_true_iff in Es as [[Er _]%andb_true_iff _]. apply String.eqb_eq in Er. by destruct Hf; rewrite <- Er.
  - rewrite List.filter_app. cbn [List.filter Fr_repo]. rewrite Hout. apply app_nil_r.
Qed.

Section histories.
Context (sha256 : string → string) (encode_result : Result → option string) (decode_result : string → option Result)
        (random : string → string) (toolchain : string) (opts : Options).

(** A step that leaves the tables right, whether it succeeds or fails, and the
    rows of the repositories of [K] as they were. *)
Definition steady (K : string → Prop) (d d' : index_db) : Prop := index_ok d' ∧ ∀ R, K R → rows_of R d' = rows_of R d.
Definition sound (K : string → Prop) {A : Type} (m : M index_db A) : Prop := ∀ d, index_ok d → steady K d (m d).2.

Lemma steady_refl K d : index_ok d → steady K d d.
Proof using Type. by split. Qed.
Lemma steady_trans K d1 d2 d3 : steady K d1 d2 → steady K d2 d3 → steady K d1 d3.
Proof using Type. intros [_ H1] [Hd H2]. split; [done |]. intros R HR. by rewrite H2, H1. Qed.

Lemma sound_ret K {A : Type} (a : A) : sound K (mret a).
Proof using Type. by intros d. Qed.
Lemma sound_bind K {A B : Type} (m : M index_db A) (k : A → M index_db B) : sound K m → (∀ a, sound K (k a)) → sound K (m ≫= k).
Proof using Type.
  intros Hm Hk d Hd. unfold mbind, M_bind. specialize (Hm d Hd). destruct (m d) as [[a|] d1]; [|done].
  eapply steady_trans; [exact Hm | apply Hk, Hm].
Qed.
Lemma sound_wrap K {A : Type} p (m : M index_db A) : sound K m → sound K (wrapM p m).
Proof using Type. intros Hm d Hd. unfold wrapM. specialize (Hm d Hd). by destruct (m d). Qed.
Lemma sound_tx K {A : Type} (fn : index_db → result (A * index_db)) : (∀ d a d', index_ok d → fn d = Ok (a, d') → steady K d d') → sound K (index_tx fn).
Proof using Type. intros H d Hd. unfold index_tx. destruct (fn d) as [[a d']|] eqn:E; [by eapply H | by apply steady_refl]. Qed.

Lemma sound_keys K d keys : index_ok d → steady K d (with_keys keys d).
Proof using Type. intros Hd. split; [split; apply Hd | done]. Qed.

Lemma sound_UpsertNodes (K : string → Prop) ns : Forall (λ n, ¬ K (N_Repository n)) ns → sound K (UpsertNodes ns).
Proof using Type.
  intros HK. apply sound_tx. intros d ids d' Hd H. split; [by apply put_nodes_ok in H as [? _] |]. intros R HR.
  apply (put_nodes_rows R ns 0 d ids d' Hd); [|exact H]. eapply Forall_impl; [exact HK |]. intros n Hn Hr. apply Hn. by rewrite Hr.
Qed.
Lemma sound_UpsertEdges K es : sound K (UpsertEdges es).
Proof using Type.
  intros d Hd. unfold UpsertEdges, mbind, M_bind, lift. destruct (each _ _) as [[]|] eqn:Ev; [|by apply steady_refl].
  unfold index_tx. destruct (put_edges es d) as [d1|] eqn:Ep; [|by apply steady_refl]. cbn [mbind result_bind snd].
  apply put_edges_ok in Ep as (Hd1 & Hs & _); [|done | by apply each_valid]. apply index_ok_edges_only in Hs as (_ & _ & Hf & Hn & _).
  split; [done |]. intros R _. by apply rows_of_same.
Qed.
Lemma sound_register K r : sound K (RegisterRepository r).
Proof using Type.
  apply sound_tx. intros d u d' Hd. destruct (existsb _ _); [done |]. intros [= <- <-]. split; [|by intros R _; apply rows_of_same].
  assert (Hup : ∀ k, is_Some (Ix_repos d !! k) → is_Some (<[Rp_ID r := mk_repo_row (from_option Rr_ws (Ix_ws d) (Ix_repos d !! Rp_ID r)) (Rp_Name r) (Rp_Path r) (Rp_Remote r) (DefaultBranch r)]> (Ix_repos d) !! k)).
  { intros k Hk. apply lookup_insert_is_Some. destruct (decide (Rp_ID r = k)); auto. }
  split; try apply Hd; cbn [with_repos Ix_repos Ix_nodes Ix_files Ix_chunks Ix_ws].
  - intros id n Hn. destruct (ok_node d Hd id n Hn) as (? & ? & ? & ?). by split_and!; [| apply Hup | |].
  - intros f Hf. destruct (ok_file d Hd f Hf). split; [done | by apply Hup].
  - intros c Hc. destruct (ok_chunk d Hd c Hc) as (? & ? & ?). by split_and!; [| apply Hup |].
Qed.
Lemma sound_mark K now scope id : sound K (MarkDirty now scope id).
Proof using Type. apply sound_tx. intros d u d' Hd [= <- <-]. by apply sound_keys. Qed.

(** The repositories a run is not of. *)
Definition others (repositoryID R : string) : Prop := R ≠ repositoryID.

Lemma sound_write_all_nodes repositoryID outputs : sound (others repositoryID) (write_all_nodes repositoryID outputs).
Proof using Type.
  induction outputs as [|out outputs IH]; cbn [write_all_nodes]; [apply sound_ret |].
  apply sound_bind; [|intros; apply sound_bind; [done | intros; apply sound_ret]]. apply sound_wrap. unfold writeNodes.
  destruct (Rs_Nodes out.2) as [|n ns]; [apply sound_ret |]. apply sound_bind; [apply sound_UpsertNodes | intros; apply sound_ret].
  apply Forall_fmap, Forall_true. intros m. unfold others. cbn. by intros [].
Qed.
Lemma sound_write_all_edges K repositoryID outputs : sound K (write_all_edges repositoryID outputs).
Proof using Type.
  induction outputs as [|out outputs IH]; cbn [write_all_edges]; [apply sound_ret |].
  apply sound_bind; [|intros; apply sound_bind; [done | intros; apply sound_ret]]. apply sound_wrap. intros d Hd. unfold writeEdges.
  destruct (Rs_Edges out.2); [by apply steady_refl |]. apply sound_bind; [apply sound_UpsertEdges | intros; apply sound_ret | done].
Qed.
Lemma sound_filesystem repositoryID files : sound (others repositoryID) (writeFilesystemGraph repositoryID files).
Proof using Type.
  apply sound_bind; [|intros ids; apply sound_bind; [apply sound_UpsertEdges | intros u; apply sound_ret]].
  apply sound_UpsertNodes, Forall_forall. intros n [-> _]%filesystem_local. by intros [].
Qed.
Lemma sound_chunks K f files : sound K (writeChunks sha256 opts f files).
Proof using Type.
  intros d Hd. destruct (writeChunks sha256 opts f files d) as [[n|] d'] eqn:E.
  - apply writeChunks_ok in E as (Hd' & Hg & Hf & _); [|done]. split; [done |]. intros R _. apply rows_of_same; [apply Hg | done].
  - unfold writeChunks, index_tx in E. destruct (d0 ← put_chunks _ _ _ _ _; _) as [[? ?]|]; [done |]. injection E as _ <-. by apply steady_refl.
Qed.
Lemma sound_files K now files : Forall (λ f, ¬ K (F_Repository f)) files → sound K (writeFiles now files).
Proof using Type.
  intros HK. apply sound_tx. intros d fs d' Hd H. split; [by apply put_file_rows_ok in H as [? _] |]. intros R HR.
  apply (put_file_rows_rows R now files) in H; [done |]. eapply Forall_impl; [exact HK |]. intros f Hf Hr. apply Hf. by rewrite Hr.
Qed.

(** The same of a step of the indexer. *)
Definition sound_ix (K : string → Prop) {A : Type} (m : M ix_state A) : Prop := ∀ s, index_ok (S_db s) → steady K (S_db s) (S_db (m s).2).
Lemma sound_on_db K {A : Type} (m : M index_db A) : sound K m → sound_ix K (on_db m).
Proof using Type. intros Hm s Hs. unfold on_db. specialize (Hm _ Hs). by destruct (m (S_db s)). Qed.
Lemma sound_ix_ret K {A : Type} (a : A) : sound_ix K (mret a).
Proof using Type. by intros s. Qed.
Lemma sound_ix_bind K {A B : Type} (m : M ix_state A) (k : A → M ix_state B) : sound_ix K m → (∀ a, sound_ix K (k a)) → sound_ix K (m ≫= k).
Proof using Type.
  intros Hm Hk s Hs. unfold mbind, M_bind. specialize (Hm s Hs). destruct (m s) as [[a|] s1]; [|done].
  eapply steady_trans; [exact Hm | apply Hk, Hm].
Qed.
Lemma sound_ix_wrap K {A : Type} p (m : M ix_state A) : sound_ix K m → sound_ix K (wrapM p m).
Proof using Type. intros Hm s Hs. unfold wrapM. specialize (Hm s Hs). by destruct (m s). Qed.

Notation Repository := (Repository sha256 encode_result decode_result random toolchain opts).
Lemma sound_Repository now repositoryID root : sound_ix (others repositoryID) (Repository now repositoryID root).
Proof using Type.
  intros s. revert s. assert (H : ∀ f, sound_ix (others repositoryID) (found ← lift (walk sha256 opts f repositoryID root);
   let '(files, skipped) := found : list File * nat in
   files ← on_db (writeFiles now files);
   _ ← wrapM "index: clearing the previous graph: " (on_db (clearGraph repositoryID));
   written ← on_db (writeFilesystemGraph repositoryID files);
   let '(nodes, edges) := written : nat * nat in
   chunks ← on_db (writeChunks sha256 opts f files);
   outputs ← run_analyzers sha256 encode_result decode_result random root files (Analyzers opts);
   more_nodes ← on_db (write_all_nodes repositoryID outputs);
   more_edges ← on_db (write_all_edges repositoryID outputs);
   _ ← on_db (recordIndexKey sha256 toolchain now repositoryID files);
   mret (mk_stats (length files) chunks (nodes + more_nodes) (edges + more_edges) skipped))).
  { intros f s Hs. unfold lift at 1. unfold mbind at 1, M_bind at 1.
    destruct (walk sha256 opts f repositoryID root) as [[found skipped]|] eqn:Ew; [|by apply steady_refl]. revert s Hs.
    assert (Hwalk : Forall (λ f, ¬ others repositoryID (F_Repository f)) found).
    { apply Forall_forall. intros x Hx Ho. by apply Ho, (walk_repository _ _ _ _ _ _ _ _ Ew). }
    apply sound_ix_bind; [by apply sound_on_db, sound_files |]. intros files.
    apply sound_ix_bind.
    { apply sound_ix_wrap, sound_on_db, sound_tx. intros d u d' Hd [= <- <-]. split; [by apply delete_nodes_ok |]. intros R. apply delete_nodes_rows. }
    intros _. apply sound_ix_bind; [apply sound_on_db, sound_filesystem |]. intros [nodes edges].
    apply sound_ix_bind; [apply sound_on_db, sound_chunks |]. intros chunks.
    apply sound_ix_bind.
    { intros s Hs. destruct (run_analyzers _ _ _ _ _ _ _ s) as [r s'] eqn:E. apply run_analyzers_db in E. cbn [snd]. rewrite E. by apply steady_refl. }
    intros outputs. apply sound_ix_bind; [apply sound_on_db, sound_write_all_nodes |]. intros n.
    apply sound_ix_bind; [apply sound_on_db, sound_write_all_edges |]. intros e.
    apply sound_ix_bind; [apply sound_on_db, sound_tx; intros d u d' Hd [= <- <-]; by apply sound_keys |]. intros u. apply sound_ix_ret. }
  intros s Hs. apply (H (S_fs s) s Hs).
Qed.

Lemma sound_refresh_each (K : string → Prop) now root ids : (∀ id R, id ∈ ids → K R → R ≠ id) →
  sound_ix K (refresh_each sha256 encode_result decode_result random toolchain opts now root ids).
Proof using Type.
  induction ids as [|id ids IH]; intros HK; cbn [refresh_each]; [apply sound_ix_ret |].
  apply sound_ix_bind; [|intros _; apply IH; intros i R Hi; apply HK; by right].
  apply sound_ix_wrap. intros s Hs. destruct (sound_Repository now id root s Hs) as [H1 H2]. split; [done |]. intros R HR. apply H2, HK; [left | done].
Qed.

(** What is done to an index. *)
Inductive ix_op :=
| ORegister (r : Workspace.Repository)
| OIndex (now : Z) (repositoryID : string) (root : apath)
| OMark (now : Z) (repositoryID : string)
| ORefresh (now : Z) (root : apath)
| OEdit (f : fs).                                   (* someone changes the files *)
Definition ix_step (s : ix_state) (o : ix_op) : ix_state :=
  match o with
  | ORegister r => (on_db (RegisterRepository r) s).2
  | OIndex now id root => (Repository now id root s).2
  | OMark now id => (on_db (MarkDirty now "repository" id) s).2
  | ORefresh now root => (Refresh sha256 encode_result decode_result random toolchain opts now root s).2
  | OEdit f => mk_ix f (S_db s) (S_cache s)
  end.
(** The repositories an operation indexes. *)
Definition indexes (s : ix_state) (o : ix_op) : list string :=
  match o with OIndex _ id _ => [id] | ORefresh _ _ => dirtyRepositories (S_db s) | _ => [] end.
Definition empty_index (ws : string) : index_db := mk_index ws ∅ [] ∅ [] [] ∅.

Lemma empty_index_ok ws : index_ok (empty_index ws).
Proof using Type. split; cbn; try (by intros *; rewrite lookup_empty); try (by intros * ?%not_elem_of_nil); repeat split; apply NoDup_nil_2. Qed.

Lemma ix_step_steady s o : index_ok (S_db s) → steady (λ R, R ∉ indexes s o) (S_db s) (S_db (ix_step s o)).
Proof using Type.
  intros Hs. destruct o as [r|now id root|now id|now root|f']; cbn [ix_step indexes].
  - by apply sound_on_db; [apply sound_register |].
  - destruct (sound_Repository now id root s Hs) as [H1 H2]. split; [done |]. intros R HR. apply H2. intros ->. apply HR. by left.
  - by apply sound_on_db; [apply sound_mark |].
  - unfold Refresh. apply sound_refresh_each; [|done]. intros id R Hid HR ->. done.
  - by apply steady_refl.
Qed.

(** C32: Whatever is done to an index - repositories registered, indexed and indexed
    again while the files change, marked and refreshed, each call succeeding or
    failing at any point, with any analyzers - its rows are of its workspace, of
    registered repositories and of files and nodes there are; a node's or a
    file's key names one row, and so do an edge's ends, kind and source together;
    kinds and evidence are those the schema allows.  And an operation leaves
    every node and file row of a repository it does not index exactly as it
    was, id included. *)
Theorem history_ok ws f c ops o R :
  let s := foldl ix_step (mk_ix f (empty_index ws) c) ops in
  index_ok (S_db s) ∧ (R ∉ indexes s o → rows_of R (S_db (ix_step s o)) = rows_of R (S_db s)).
Proof using Type.
  cbv zeta. assert (H : ∀ s, index_ok (S_db s) → index_ok (S_db (foldl ix_step s ops))).
  { induction ops as [|o' ops IH]; intros s Hs; [done |]. cbn [foldl]. apply IH. by apply ix_step_steady. }
  specialize (H (mk_ix f (empty_index ws) c) (empty_index_ok ws)). split; [done |]. intros HR. by apply (ix_step_steady _ o H).
Qed.
End histories.

(** ** Windows *)

Definition lines_text (ls : list string) : string := foldr (λ l rest, l +:+ nl +:+ rest) "" ls.
Lemma lines_text_app a b : lines_text (a ++ b) = lines_text a +:+ lines_text b.
Proof. induction a as [|l a IH]; [done |]. cbn [app lines_text foldr]. fold (lines_text (a ++ b)) (lines_text a). by rewrite IH, <- !app_str_assoc. Qed.

(** The windows of [n] lines each, the first at line [start]; the last one has
    what is left. *)
Fixpoint tiled (n : nat) (start : Z) (ls : list string) (ws : list window) : Prop :=
  match ws with
  | [] => ls = []
  | w :: ws =>
      ls ≠ [] ∧ w_start w = start ∧ w_end w = (start + Z.of_nat (length (take n ls)) - 1)%Z ∧
      w_body w = lines_text (take n ls) ∧ tiled n (start + Z.of_nat n) (drop n ls) ws
  end.

Lemma windows_tiled n done_ ls : 0 < n → length done_ < n → ∀ start,
  tiled n start (done_ ++ ls) (windows (Z.of_nat n) start (Z.of_nat (length done_)) (lines_text done_) ls).
Proof.
  intros Hn. revert done_. induction ls as [|l ls IH]; intros done_ Hd start; cbn [windows].
  - rewrite app_nil_r. destruct done_ as [|x done_]; [done |]. rewrite (proj2 (Z.ltb_lt _ _)) by (cbn; lia). cbn [tiled w_start w_end w_body].
    rewrite take_ge, drop_ge by lia. done.
  - assert (E : done_ ++ l :: ls = (done_ ++ [l]) ++ ls) by (by rewrite <- app_assoc).
    assert (Ht : lines_text done_ +:+ l +:+ nl = lines_text (done_ ++ [l])) by (rewrite lines_text_app; cbn [lines_text foldr]; by rewrite app_str_nil).
    assert (Hl : (Z.of_nat (length done_) + 1)%Z = Z.of_nat (length (done_ ++ [l]))) by (rewrite length_app; cbn; lia).
    rewrite Ht, Hl, E. destruct (Z.eqb_spec (Z.of_nat (length (done_ ++ [l]))) (Z.of_nat n)) as [Eq|Ne].
    + apply Nat2Z.inj in Eq. cbn [tiled w_start w_end w_body].
      assert (take n ((done_ ++ [l]) ++ ls) = done_ ++ [l]) as -> by (rewrite <- Eq; apply take_app_length).
      assert (drop n ((done_ ++ [l]) ++ ls) = ls) as -> by (rewrite <- Eq; apply drop_app_length).
      split_and!; [by destruct done_ | done | done | done |]. rewrite Eq. by apply (IH []).
    + apply IH. rewrite length_app in *. cbn in *. lia.
Qed.

(** A file is cut without a gap or an overlap.  The windows of a file are its
    lines in order, numbered from one, each window with as many as the setting
    says and the last with the rest; put together they are the file's text, its
    line ends made plain.  A file is refused only for a line longer than the
    scanner's buffer. *)
Theorem chunkFile_tiles f path n ls e :
  0 < n → (scan_chunk <$> (split_char newline <$> ReadFile f path)) = Ok (ls, e) →
  (e = true → is_ok (chunkFile f path (Z.of_nat n)) = false) ∧
  (e = false → ∃ ws, chunkFile f path (Z.of_nat n) = Ok ws ∧ tiled n 1 ls ws ∧ String.concat "" (w_body <$> ws) = lines_text ls).
Proof.
  intros Hn Hs. unfold chunkFile. destruct (ReadFile f path) as [body|]; [|done]. cbn [fmap result_fmap] in Hs. injection Hs as Hs.
  cbn [mbind result_bind]. rewrite Hs. split; intros ->; [done |].
  eexists. split; [done |]. assert (Ht : tiled n 1 ls (windows (Z.of_nat n) 1 0 "" ls)) by (apply (windows_tiled n []); cbn; lia). split; [done |].
  revert Ht. generalize 1%Z at 1. generalize (windows (Z.of_nat n) 1 0 "" ls). clear. intros ws start. revert start ls.
  induction ws as [|w ws IH]; intros start ls; cbn [tiled]; [by intros -> |]. intros (Hne & _ & _ & Hb & Ht). specialize (IH _ _ Ht).
  cbn [fmap list_fmap]. rewrite <- (take_drop n ls) at 1. rewrite lines_text_app, <- IH, <- Hb. clear. cbn [String.concat].
  destruct (w_body <$> ws); [by rewrite app_str_nil | done].
Qed.

(** ** Cached analyses *)

Section cached.
Context (sha256 : string → string) (digest_length : ∀ s, String.length (sha256 s) = 32).
Context (encode_result : Result → option string) (decode_result : string → option Result)
        (json_reads : ∀ res body, encode_result res = Some body → decode_result body = Some res).
Context (random : string → string) (random_drawn : ∀ n, drawn (random n)).
Context (ws : string) (dir : apath).
Notation analyze := (analyze sha256 encode_result decode_result random).

Notation analyze_call := (Analyzer * apath * list File)%type.






End cached.

(** ** What the code does not do *)

Section limits.
Context (sha256 : string → string) (encode_result : Result → option string) (decode_result : string → option Result)
        (random : string → string) (toolchain : string) (opts : Options).
Notation Repository := (Repository sha256 encode_result decode_result random toolchain opts).

Lemma put_file_rows_repository now files : ∀ d files' d', put_file_rows now files d = Ok (files', d') → F_Repository <$> files' = F_Repository <$> files.
Proof using Type.
  induction files as [|f files IH]; intros d files' d'; cbn [put_file_rows]; [by intros [= <- _] |].
  destruct (put_file_row now f d) as [[id d1]|]; [|done]. cbn [mbind result_bind fst snd].
  destruct (put_file_rows now files d1) as [[fs d2]|] eqn:E; [|done]. cbn [mbind result_bind fst snd]. intros [= <- _]. cbn. by rewrite (IH _ _ _ E).
Qed.
Lemma cut_repository f files rows v : cut opts f files = Ok rows → v ∈ rows → v.1.1.1 ∈ F_Repository <$> files.
Proof using Type.
  revert rows. induction files as [|file files IH]; intros rows; cbn [cut]; [by intros [= <-] ?%not_elem_of_nil |].
  destruct (chunkFile _ _ _) as [ws|]; [|done]. cbn [mbind result_bind]. destruct (cut opts f files) as [rest|]; [|done]. cbn [mbind result_bind]. intros [= <-].
  intros [(w & -> & _)%list_elem_of_fmap|H]%elem_of_app; [by left | right; by apply (IH rest)].
Qed.

(** Indexing a repository leaves no chunk of any other. *)
Lemma others_unsearchable now repositoryID root s st s' : index_ok (S_db s) → Repository now repositoryID root s = (Ok st, s') →
  ∀ c, c ∈ Ix_chunks (S_db s') → Cr_repo c = repositoryID.
Proof using Type.
  intros Hd Hrun c Hc.
  apply Repository_steps in Hrun as (found & skipped & files & d1 & d3 & d4 & outputs & s4 & d5 & d6 & n3 & n4 & n5 & n6 & Hw & H1 & H3 & H4 & Ho & H5 & H6 & Hs' & _).
  unfold writeFiles, index_tx in H1. destruct (put_file_rows now found (S_db s)) as [[fs db]|] eqn:E1; [|done]. injection H1 as -> ->.
  destruct (put_file_rows_ok now found (S_db s) files d1 Hd E1) as (Hd1 & _).
  destruct (writeFilesystemGraph_ok repositoryID files _ _ _ (delete_nodes_ok repositoryID d1 Hd1) H3) as (Hd3 & _).
  destruct (writeChunks_ok sha256 opts (S_fs s) files d3 n4 d4 Hd3 H4) as (Hd4 & _ & _ & _ & Hcut).
  destruct (write_all_nodes_ok repositoryID outputs d4 n5 d5 Hd4 H5) as (_ & (_ & _ & _ & Hc5 & _) & _).
  apply write_all_edges_rest in H6 as [Hc6 _]. rewrite Hs' in Hc. unfold recordIndexKey, index_tx in Hc. cbn [snd with_keys Ix_chunks] in Hc. rewrite Hc6, Hc5 in Hc.
  apply (cut_repository _ _ _ (chunk_view c)) in Hcut; [|apply list_elem_of_fmap; by exists c]. cbn [chunk_view fst] in Hcut.
  rewrite (put_file_rows_repository _ _ _ _ _ E1) in Hcut. apply list_elem_of_fmap in Hcut as (x & -> & Hx). by eapply walk_repository.
Qed.

(** Without analyzers only files and directories are left. *)
Lemma analyzed_graph_lost now repositoryID root s st s' : Analyzers opts = [] → index_ok (S_db s) → Repository now repositoryID root s = (Ok st, s') →
  ∀ id n, Ix_nodes (S_db s') !! id = Some n → N_Repository n = repositoryID → N_Kind n = "directory" ∨ N_Kind n = "file".
Proof using Type.
  intros Ha Hd Hrun id n Hn Hr.
  apply Repository_steps in Hrun as (found & skipped & files & d1 & d3 & d4 & outputs & s4 & d5 & d6 & n3 & n4 & n5 & n6 & Hw & H1 & H3 & H4 & Ho & H5 & H6 & Hs' & _).
  rewrite Ha in Ho. injection Ho as <- _. cbn in H5, H6. injection H5 as _ <-. injection H6 as _ <-. subst.
  unfold writeFiles, index_tx in H1. destruct (put_file_rows now found (S_db s)) as [[fs db]|] eqn:E1; [|done]. injection H1 as -> ->.
  destruct (put_file_rows_ok now found (S_db s) files d1 Hd E1) as (Hd1 & _).
  destruct (writeFilesystemGraph_ok (N_Repository n) files _ _ _ (delete_nodes_ok _ d1 Hd1) H3) as (Hd3 & _ & _ & _ & _ & _ & Hrows & _).
  destruct (writeChunks_ok sha256 opts (S_fs s) files d3 n4 d4 Hd3 H4) as (Hd4 & Hg & _).
  rewrite Hs' in Hn. unfold recordIndexKey, index_tx in Hn. cbn [snd with_keys Ix_nodes] in Hn.
  assert (Hrow : row_at d4 (key_of_node n) = Some n) by (apply row_at_some; [done | by exists id]).
  rewrite (same_graph_row d3 d4) in Hrow by done. specialize (Hrows (key_of_node n)). rewrite Hrow, delete_nodes_row in Hrows by done.
  unfold key_of_node in Hrows at 2. cbn [fst] in Hrows. rewrite String.eqb_refl in Hrows. symmetry in Hrows.
  apply newest_some in Hrows as [Hin|[_ [=]]]. apply list_elem_of_fmap in Hin as (m & [= _ _ Hkind _ _ _ _ _ _ _ _ _ _ _] & Hm).
  apply elem_of_app in Hm as [Hm|Hm]; apply list_elem_of_fmap in Hm as (y & -> & _); [left | right]; done.
Qed.

(** A mark made while a run was under way is lost when the run ends. *)
Lemma mark_lost now now' repositoryID files d :
  Kr_dirty <$> Ix_keys (recordIndexKey sha256 toolchain now repositoryID files (MarkDirty now' "repository" repositoryID d).2).2 !! ("repository", repositoryID) = Some false.
Proof using Type. cbn. by rewrite lookup_insert_eq. Qed.

(** Below a directory whose own path has an excluded name nothing is noticed. *)
Lemma watcher_blind name path : name ∈ split_char slash path → excludedDir opts name = true → ∀ pending, observe_event opts pending path = pending.
Proof using Type.
  intros Hin Hex pending. unfold observe_event, ignored. assert (existsb (excludedDir opts) (split_char slash path) = true) as ->.
  { apply existsb_exists. exists name. split; [by apply list_elem_of_In | done]. }
  by rewrite orb_true_r.
Qed.
End limits.

(** ** Examples *)

Definition demo_codec (res : Result) : option string := match res with mk_result [] [] => Some "{}" | _ => None end.
Definition demo_decode (body : string) : option Result := if String.eqb body "{}" then Some (mk_result [] []) else None.
Definition demo_symbol (repo kind name fqn : string) : Node := mk_full_node 0 "" repo "" kind name fqn 0 "" 1 1 "" "" "" "".
(** An analyzer of Go files that finds a function and two calls, one of them of
    something it does not know. *)
Definition demo_go : Analyzer := mk_analyzer "go" (λ f, String.eqb (F_Lang f) "go") (λ _ _ _,
  Ok (mk_result [demo_symbol "" "function" "main" "demo.main"; demo_symbol "" "function" "run" "demo.run"]
        [mk_pending "function" "demo.main" "function" "demo.run" "calls" (Some Resolved) "";
         mk_pending "function" "demo.main" "function" "fmt.Println" "calls" (Some Resolved) ""])).
Definition demo_notes : Analyzer := mk_analyzer "notes" (λ f, String.eqb (F_Lang f) "markdown") (λ _ _ _, Ok (mk_result [] [])).
Definition demo_opts : Options := New (mk_options 0 None 2 [demo_go; demo_notes]).
Definition demo_files : fs := {[ ["r"] := NDir; ["r"; "cmd"] := NDir; ["r"; "cmd"; "main.go"] := NFile ("package main" +:+ nl +:+ nl +:+ "func main() {}" +:+ nl);
  ["r"; "vendor"] := NDir; ["r"; "vendor"; "x.go"] := NFile "package x"; ["c"] := NDir ]}.
Definition demo_random (name : string) : string := "7".
Definition demo_repo : Workspace.Repository := mk_repository "r1" "demo" "." "" "main".
Definition demo_start : ix_state := (on_db (RegisterRepository demo_repo) (mk_ix demo_files (empty_index "w") (cache_of ["c"] "w"))).2.
Definition demo_run := Repository demo_sha demo_codec demo_decode demo_random "go1.26" demo_opts 1000 "r1" ["r"] demo_start.

Example demo_graph : (λ e : Z * Node, (e.1, N_Kind e.2, N_FQN e.2)) <$> map_to_list (Ix_nodes (S_db demo_run.2)) =
  [(5, "function", "demo.run"); (3, "file", "cmd/main.go"); (4, "function", "demo.main"); (2, "directory", "cmd"); (1, "directory", ".")]%Z ∧
  (λ r, (Src (Er_edge r), Dst (Er_edge r), E_Kind (Er_edge r))) <$> Ix_edges (S_db demo_run.2) =
  [(1, 2, "contains"); (2, 3, "contains"); (4, 5, "calls")]%Z ∧
  (λ c, (Cr_path c, Cr_start c, Cr_end c)) <$> Ix_chunks (S_db demo_run.2) = [("cmd/main.go", 1, 2); ("cmd/main.go", 3, 3)]%Z.
Proof. vm_compute. split_and!; reflexivity. Qed.

Lemma demo_start_ok : index_ok (S_db demo_start).
Proof. exact (proj1 (sound_on_db (λ _, True) (RegisterRepository demo_repo) (sound_register _ demo_repo) (mk_ix demo_files (empty_index "w") (cache_of ["c"] "w")) (empty_index_ok "w"))). Qed.
Lemma demo_run_succeeds : is_ok demo_run.1 = true.
Proof. vm_compute. reflexivity. Qed.

Lemma demo_main files d s1 outputs :
  run_analyzers demo_sha demo_codec demo_decode demo_random ["r"] files (Analyzers demo_opts) (mk_ix demo_files d (cache_of ["c"] "w")) = (Ok outputs, s1) →
  main_checkout outputs.
Proof.
  assert (Hone : ∀ a acc s r s', (∀ g root fs, ∃ ns es, Analyze a g root fs = Ok (mk_result ns es) ∧ Forall (λ n, N_Worktree n = "") ns) →
    analyze demo_sha demo_codec demo_decode demo_random a ["r"] acc s = (Ok r, s') → Forall (λ n, N_Worktree n = "") (Rs_Nodes r)).
  { intros a acc s r s' Ha. unfold analyze. destruct (Get _ _ _ _ _) as [got cache].
    destruct (match got with Ok body => _ | Err _ => _ end) as [res|] eqn:Eg.
    - intros [= <- _]. destruct got as [body|]; [|done]. unfold demo_decode in Eg. destruct (String.eqb body "{}"); [|done]. injection Eg as <-. constructor.
    - destruct (Ha (S_fs (mk_ix (S_fs s) (S_db s) cache)) ["r"] acc) as (ns & es & -> & Hns). intros H.
      assert (Hr : Ok (mk_result ns es) = Ok r) by (destruct (demo_codec _); exact (f_equal fst H)). by injection Hr as <-. }
  assert (Hall : ∀ l s r s', Forall (λ a, ∀ g root fs, ∃ ns es, Analyze a g root fs = Ok (mk_result ns es) ∧ Forall (λ n, N_Worktree n = "") ns) l →
    run_analyzers demo_sha demo_codec demo_decode demo_random ["r"] files l s = (Ok r, s') → main_checkout r).
  { induction l as [|a l IH]; intros s r s' Hl; cbn [run_analyzers]; [by intros [= <- _] out n ?%not_elem_of_nil |].
    apply Forall_cons in Hl as [Ha Hl]. destruct (List.filter _ _) as [|x acc]; [by apply IH |]. unfold mbind, M_bind, wrapM.
    destruct (analyze _ _ _ _ _ _ _ s) as [[res|] s2] eqn:E; [|done]. cbn [wrap_r]. destruct (run_analyzers _ _ _ _ _ _ _ s2) as [[rest|] s3] eqn:E2; [|done].
    intros [= <- _] out n [->|Hout]%elem_of_cons Hn; [|by apply (IH _ _ _ Hl E2 out n)]. cbn [snd] in Hn. apply Hone in E; [|done].
    rewrite Forall_forall in E. by apply E. }
  apply Hall. repeat (apply Forall_cons; split); [| |by constructor]; intros g root fs; eexists _, _; (split; [reflexivity |]); repeat constructor.
Qed.

Lemma Repository_exact_witness :
  index_ok (S_db demo_run.2) ∧ ∃ files outputs, cut demo_opts demo_files files = Ok (chunk_view <$> Ix_chunks (S_db demo_run.2)) ∧
    ∀ k, content <$> row_at (S_db demo_run.2) k =
      if String.eqb k.1.1.1 "r1" then newest k (written (meant_nodes "r1" files outputs)) None else content <$> row_at (S_db demo_start) k.
Proof.
  pose proof demo_run_succeeds as Hok. destruct demo_run as [r s'] eqn:E. cbn [fst snd] in *. destruct r as [st|]; [|done]. unfold demo_run in E.
  destruct (Repository_exact demo_sha demo_codec demo_decode demo_random "go1.26" demo_opts 1000 "r1" ["r"] demo_start st s' demo_start_ok E)
    as (files & outputs & _ & (d & s1 & Ho) & Hcut & _ & H).
  destruct (H (demo_main files d s1 outputs Ho)) as (Hs & Hrows & _). split; [exact Hs |]. exists files, outputs. by split.
Defined.

(** A second repository is indexed, at a place where there is nothing. *)
Definition demo_lib : Workspace.Repository := mk_repository "r2" "lib" "lib" "" "main".
Lemma history_ok_witness :
  let step := ix_step demo_sha demo_codec demo_decode demo_random "go1.26" demo_opts in
  let s := foldl step (mk_ix demo_files (empty_index "w") (cache_of ["c"] "w")) [ORegister demo_repo; ORegister demo_lib; OIndex 1000 "r1" ["r"]] in
  index_ok (S_db s) ∧ rows_of "r1" (S_db (step s (OIndex 2000 "r2" ["r"]))) = rows_of "r1" (S_db s) ∧
  (length (rows_of "r1" (S_db s)).2, length (rows_of "r2" (S_db (step s (OIndex 2000 "r2" ["r"])))).2) = (1, 1).
Proof.
  cbv zeta. destruct (history_ok demo_sha demo_codec demo_decode demo_random "go1.26" demo_opts "w" demo_files (cache_of ["c"] "w")
    [ORegister demo_repo; ORegister demo_lib; OIndex 1000 "r1" ["r"]] (OIndex 2000 "r2" ["r"]) "r1") as [H1 H2].
  split; [exact H1 |]. split; [|vm_compute; reflexivity]. apply H2. clear H1 H2. apply not_elem_of_cons. split; [discriminate | apply not_elem_of_nil].
Defined.

Lemma chunkFile_tiles_witness :
  ∃ ws, chunkFile demo_files ["r"; "cmd"; "main.go"] 2 = Ok ws ∧ String.concat "" (w_body <$> ws) = lines_text ["package main"; ""; "func main() {}"].
Proof.
  destruct (chunkFile_tiles demo_files ["r"; "cmd"; "main.go"] 2 ["package main"; ""; "func main() {}"] false) as [_ H]; [lia | vm_compute; reflexivity |].
  destruct (H eq_refl) as (ws & Hws & _ & Hc). exists ws. split; [exact Hws | exact Hc].
Defined.

