(* ===== verification/Llm.v ===== *)
(** The provider boundary, [src/internal/llm/provider.go]: what is sent to a
    model and what comes back.  The providers themselves talk HTTP to a model
    server and are parameters of the components that call them. *)
From S2P Require Import Prelude GoStrings.

Open Scope string_scope.
Open Scope list_scope.
Open Scope nat_scope.

(** [llm/provider.go:145-154 ToolCall] the arguments are the raw JSON text. *)
Record ToolCall := mk_call { TC_ID : string; TC_Name : string; TC_Arguments : string }.

(** [llm/provider.go:106-121 Message] without images, which no modelled code
    attaches. *)
Record Message := mk_llm_message {
  Role : string; Content : string; M_Name : string; ToolCallID : string; ToolCalls : list ToolCall }.

(** A message with a role and a content only. *)
Definition mk_message (role content : string) : Message := mk_llm_message role content "" "" [].

(** [llm/provider.go:134-142 ToolDef] the schema is JSON text. *)
Record ToolDef := mk_tool { Td_Name : string; Td_Description : string; Td_Schema : string }.

(** [llm/provider.go:184-212 ChatResponse] the fields its callers read. *)
Record ChatResponse := mk_chatr {
  Cr_Content : string; Cr_Reasoning : string; Cr_PromptTokens : Z; Cr_OutputTokens : Z; Cr_FinishReason : string;
  Cr_ToolCalls : list ToolCall }.

(** [llm/provider.go:215-215 ChatResponse.WantsTools] *)
Definition WantsTools (r : ChatResponse) : bool := negb (length (Cr_ToolCalls r) =? 0).

#[export] Instance ToolCall_eq_dec : EqDecision ToolCall.
Proof. solve_decision. Defined.
#[export] Instance Message_eq_dec : EqDecision Message.
Proof. solve_decision. Defined.
