(* ===== verification/ContextPack.v ===== *)
(** The frozen-prefix, append-only request of [src/internal/contextpack]. *)
From S2P Require Import Prelude GoStrings Trust Llm.

Open Scope string_scope.
Open Scope list_scope.
Open Scope nat_scope.

(** ** Data *)

(** [contextpack/pack.go:36-49 Prefix] *)
Record Prefix := mk_prefix { PolicyText : string; RepoCard : string; RepoMap : string; TaskCard : string }.

(** [contextpack/pack.go:52-62 BlockKind] *)
Inductive BlockKind := KindEvidence | KindToolResult | KindModelTurn.
#[export] Instance blockkind_eq_dec : EqDecision BlockKind. Proof. solve_decision. Defined.

Definition show_block_kind (k : BlockKind) : string :=
  match k with KindEvidence => "evidence" | KindToolResult => "tool_result" | KindModelTurn => "model_turn" end.

(** [contextpack/pack.go:67-74 Block] *)
Record Block := mk_block { B_Kind : BlockKind; Origin : string; B_Body : string }.

(** [contextpack/pack.go:77-84 Budget] *)
Record Budget := mk_pbudget { B_Prefix : Z; B_Log : Z; B_Output : Z }.

(** [contextpack/pack.go:87-95 Pack] *)
Record Pack := mk_pack { p_prefix : Prefix; p_fence : Fence; p_budget : Budget; p_log : list Block; logTokens : Z }.

(** [contextpack/pack.go:145-153 Tail] *)
Record Tail := mk_tail { Instruction : string; TokensUsed : Z; TokensRemaining : Z; Retry : Z }.

(** ** Truncation and estimates *)

Definition headLines : nat := 60.
Definition tailLines : nat := 40.
Definition markerLines : nat := 3.

(** [contextpack/pack.go:272-290 Truncate] *)
Definition Truncate (kind : BlockKind) (body : string) : string :=
  if bool_decide (kind ≠ KindToolResult) then body else
  let lines := split_char newline body in
  if length lines <=? headLines + tailLines + markerLines then body else
  let omitted := length lines - headLines - tailLines in
  join nl (take headLines lines) +:+
  nl +:+ nl +:+ "... " +:+ pretty omitted +:+ " lines omitted at fetch time ..." +:+ nl +:+ nl +:+
  join nl (drop (length lines - tailLines) lines).

(** [contextpack/pack.go:298-303 EstimateTokens] *)
Definition EstimateTokens (s : string) : Z :=
  if String.eqb s "" then 0 else (Z.of_nat (String.length s) / 4 + 1)%Z.

(** ** Rendering *)

(** [contextpack/pack.go:155-163 Tail.render] *)
Definition render_tail (t : Tail) : string :=
  Instruction t +:+
  (if Z.ltb 0 (TokensUsed t) || Z.ltb 0 (TokensRemaining t) || Z.ltb 0 (Retry t)
   then nl +:+ nl +:+ "Budget: " +:+ pretty (TokensUsed t) +:+ " tokens used, " +:+ pretty (TokensRemaining t) +:+
        " remaining, attempt " +:+ pretty (Retry t + 1)%Z +:+ "."
   else "").

(** [contextpack/pack.go:192-209 Pack.frozenUser] *)
Definition frozenUser (p : Prefix) : string :=
  foldl (λ acc s, if blank s.2 then acc
                  else (if String.eqb acc "" then acc else acc +:+ nl +:+ nl) +:+ "## " +:+ s.1 +:+ nl +:+ s.2)
    "" [("REPOSITORY", RepoCard p); ("REPOSITORY MAP", RepoMap p); ("TASK", TaskCard p)].

(** [contextpack/pack.go:213-222 Pack.render] *)
Definition render (f : Fence) (b : Block) : string :=
  if decide (B_Kind b = KindModelTurn) then B_Body b
  else Wrap f (if String.eqb (Origin b) "" then show_block_kind (B_Kind b) else Origin b) (B_Body b).

(** [contextpack/pack.go:225-227 Pack.PrefixTokens] *)
Definition PrefixTokens (p : Pack) : Z :=
  (EstimateTokens (PolicyText (p_prefix p)) + EstimateTokens (Preamble (p_fence p)) + EstimateTokens (frozenUser (p_prefix p)))%Z.

(** ** Operations *)

(** [contextpack/pack.go:121-121 ErrLogFull] *)
Definition ErrLogFull : error :=
  mk_error (Some "contextpack.ErrLogFull") "contextpack: append-only log is full; take a phase boundary".

(** [contextpack/pack.go:100-112 New] *)
Definition New (prefix : Prefix) (fence : Fence) (budget : Budget) : result Pack :=
  if negb (Fence_Valid fence)
  then Err (errorf "contextpack: a pack needs a valid fence; unfenced evidence reads as instruction")
  else if Z.leb (B_Prefix budget) 0 || Z.leb (B_Log budget) 0
  then Err (errorf "contextpack: phase budget must reserve prefix and log room")
  else
    let p := mk_pack prefix fence budget [] 0 in
    if Z.ltb (B_Prefix budget) (PrefixTokens p)
    then Err (errorf ("contextpack: frozen prefix is " +:+ pretty (PrefixTokens p) +:+
                      " tokens, over the phase budget of " +:+ pretty (B_Prefix budget)))
    else Ok p.

Definition truncated (b : Block) : Block := mk_block (B_Kind b) (Origin b) (Truncate (B_Kind b) (B_Body b)).

(** [contextpack/pack.go:124-133 Pack.Append] *)
Definition Append (p : Pack) (b : Block) : result Pack :=
  let b := truncated b in
  let cost := EstimateTokens (render (p_fence p) b) in
  if Z.ltb (B_Log (p_budget p)) (logTokens p + cost) then Err ErrLogFull
  else Ok (mk_pack (p_prefix p) (p_fence p) (p_budget p) (p_log p ++ [b]) (logTokens p + cost)).

(** [contextpack/pack.go:138-141 Pack.Fits] *)
Definition Fits (p : Pack) (b : Block) : bool :=
  Z.leb (logTokens p + EstimateTokens (render (p_fence p) (truncated b))) (B_Log (p_budget p)).

Definition block_message (f : Fence) (b : Block) : Message :=
  mk_message (if decide (B_Kind b = KindModelTurn) then "assistant" else "user") (render f b).

(** [contextpack/pack.go:172-174 Pack.Messages] the frozen messages. *)
Definition frozen (p : Pack) : list Message :=
  [mk_message "system" (PolicyText (p_prefix p) +:+ nl +:+ nl +:+ Preamble (p_fence p));
   mk_message "user" (frozenUser (p_prefix p))].

(** [contextpack/pack.go:171-187 Pack.Messages] *)
Definition Messages (p : Pack) (t : Tail) : list Message * nat :=
  (frozen p ++ (block_message (p_fence p) <$> p_log p) ++
   (if blank (render_tail t) then [] else [mk_message "user" (render_tail t)]), length (frozen p)).

(** [contextpack/pack.go:248-254 Pack.Repack] *)
Definition Repack (p : Pack) (taskCard : string) (budget : Budget) : result Pack :=
  let next := p_prefix p in
  New (if blank taskCard then next else mk_prefix (PolicyText next) (RepoCard next) (RepoMap next) taskCard)
    (p_fence p) budget.

(** ** The task card *)

(** [contextpack/compaction.go:37-43 Fact], [Change] and [Tests]. *)
Record Fact := mk_fact { Fact_ : string; F_Evidence : string; F_Commit : string }.
Record Change := mk_change { Ch_File : string; Ch_Symbol : string; Ch_Summary : string }.
Record TestStatus := mk_tests { Ran : list string; PassedN : Z; FailedN : Z }.

(** [contextpack/compaction.go:20-34 Card] *)
Record Card := mk_card {
  C_Objective : string; ConfirmedFacts : list Fact; FilesExamined : list string; C_Symbols : list string;
  C_Hypothesis : string; Changes : list Change; C_Tests : TestStatus; OpenFailures : list string;
  C_Decisions : list string; C_NextAction : string }.

Definition when (b : bool) (s : string) : string := if b then s else "".
Definition each_line {A} (f : A → string) (l : list A) : string := foldr (λ x s, f x +:+ s) "" l.
Definition some {A} (l : list A) : bool := negb (length l =? 0).

(** [contextpack/compaction.go:61-109 Card.Render] *)
Definition Render (c : Card) : string :=
  trim_newlines (
    "Objective: " +:+ C_Objective c +:+ nl +:+
    when (negb (String.eqb (C_Hypothesis c) "")) ("Root cause so far: " +:+ C_Hypothesis c +:+ nl) +:+
    when (some (ConfirmedFacts c))
      (nl +:+ "Established by tools (not by reasoning):" +:+ nl +:+
       each_line (λ f, "- " +:+ Fact_ f +:+ " [" +:+ F_Evidence f +:+ "]" +:+ nl) (ConfirmedFacts c)) +:+
    when (some (C_Symbols c)) (nl +:+ "Relevant symbols: " +:+ join ", " (C_Symbols c) +:+ nl) +:+
    when (some (FilesExamined c)) ("Files examined: " +:+ join ", " (FilesExamined c) +:+ nl) +:+
    when (some (Changes c))
      (nl +:+ "Changes already on disk:" +:+ nl +:+
       each_line (λ ch, "- " +:+ Ch_File ch +:+
         (if String.eqb (Ch_Symbol ch) "" then "" else " (" +:+ Ch_Symbol ch +:+ ")") +:+ ": " +:+ Ch_Summary ch +:+ nl)
         (Changes c)) +:+
    when (some (Ran (C_Tests c)) || Z.ltb 0 (FailedN (C_Tests c)))
      (nl +:+ "Verification: " +:+ pretty (PassedN (C_Tests c)) +:+ " passed, " +:+ pretty (FailedN (C_Tests c)) +:+ " failed" +:+
       when (some (Ran (C_Tests c))) (" (" +:+ join ", " (Ran (C_Tests c)) +:+ ")") +:+ nl) +:+
    when (some (OpenFailures c)) ("Open failures: " +:+ join ", " (OpenFailures c) +:+ nl) +:+
    when (some (C_Decisions c)) (nl +:+ "Decisions:" +:+ nl +:+ each_line (λ d, "- " +:+ d +:+ nl) (C_Decisions c)) +:+
    when (negb (String.eqb (C_NextAction c) "")) (nl +:+ "Next: " +:+ C_NextAction c +:+ nl)).

(** [contextpack/compaction.go:126-141 sortUnique] *)
Definition sortUnique (l : list string) : list string := sort_strings (dedup (filter (λ s, s ≠ "") l)).

(** [contextpack/compaction.go:119-124 Card.Normalize] *)
Definition Card_Normalize (c : Card) : Card :=
  mk_card (C_Objective c) (ConfirmedFacts c) (sortUnique (FilesExamined c)) (sortUnique (C_Symbols c)) (C_Hypothesis c)
    (Changes c) (mk_tests (sortUnique (Ran (C_Tests c))) (PassedN (C_Tests c)) (FailedN (C_Tests c)))
    (sortUnique (OpenFailures c)) (C_Decisions c) (C_NextAction c).

(** ** Truncation happens once *)

Lemma length_split_cons sep c s :
  length (split_char sep (String c s)) = length (split_char sep s) + (if Ascii.eqb c sep then 1 else 0).
Proof.
  cbn [split_char]. destruct (Ascii.eqb c sep); cbn [length]; [lia |].
  pose proof (split_char_ne sep s). destruct (split_char sep s); [done | cbn; lia].
Qed.

(** Joining two texts joins the last line of one to the first of the other. *)
Lemma length_split_app sep a b :
  length (split_char sep (a +:+ b)) = length (split_char sep a) + length (split_char sep b) - 1.
Proof.
  induction a as [|c a IH].
  - change ("" +:+ b) with b. cbn. lia.
  - change (String c a +:+ b) with (String c (a +:+ b)). rewrite !length_split_cons, IH.
    pose proof (split_char_ne sep a). pose proof (split_char_ne sep b).
    destruct (split_char sep a), (split_char sep b); cbn in *; try done; lia.
Qed.

Definition line_free (s : string) : Prop := length (split_char newline s) = 1.

Lemma split_lines_free s : Forall line_free (split_char newline s).
Proof.
  unfold line_free. induction s as [|c s IH]; cbn [split_char]; [by repeat constructor |].
  destruct (Ascii.eqb c newline) eqn:E; [by constructor |].
  destruct (split_char newline s) as [|h t]; inversion IH as [|? ? Hh Ht]; subst.
  - by repeat constructor; rewrite length_split_cons, E.
  - constructor; [|done]. rewrite length_split_cons, E. lia.
Qed.

Lemma length_split_join l : l ≠ [] → Forall line_free l → length (split_char newline (join nl l)) = length l.
Proof.
  induction 2 as [|x l Hx Hl IH]; [done |]. destruct l as [|y l]; [done |].
  change (join nl (x :: y :: l)) with (x +:+ nl +:+ join nl (y :: l)).
  change (nl +:+ join nl (y :: l)) with (String newline (join nl (y :: l))).
  rewrite length_split_app, length_split_cons, Ascii.eqb_refl, IH by done. rewrite Hx. cbn [length]. lia.
Qed.

Lemma line_free_app a b : line_free a → line_free b → line_free (a +:+ b).
Proof. unfold line_free. rewrite length_split_app. lia. Qed.

Lemma pretty_digit_free (n : nat) : line_free (pretty n).
Proof.
  assert (Hd : ∀ m s, line_free s → line_free (pretty_N_go m s)).
  { induction m as [m IH] using (well_founded_induction N.lt_wf_0). intros s Hs.
    destruct (decide (0 < m)%N) as [Hm|Hm].
    - rewrite pretty_N_go_step by done. apply IH; [by apply N.div_lt |].
      unfold line_free. rewrite length_split_cons. rewrite Hs.
      assert (E : Ascii.eqb (pretty_N_char (m `mod` 10)) newline = false); [|by rewrite E].
      unfold pretty_N_char. by repeat case_match.
    - assert (m = 0%N) as -> by lia. by rewrite pretty_N_go_0. }
  unfold pretty, pretty_nat, pretty, pretty_N. case_decide; [done |]. by apply Hd.
Qed.

Lemma Truncate_lines body : length (split_char newline (Truncate KindToolResult body)) ≤ headLines + tailLines + markerLines.
Proof.
  unfold Truncate. rewrite bool_decide_false by (by intros []). cbv zeta.
  destruct (length (split_char newline body) <=? headLines + tailLines + markerLines) eqn:E; [by apply Nat.leb_le |].
  apply Nat.leb_gt in E. pose proof (split_lines_free body) as Hf. set (lines := split_char newline body) in *.
  unfold headLines, tailLines, markerLines in *.
  repeat match goal with |- context [nl +:+ ?x] => change (nl +:+ x) with (String newline x) end.
  repeat rewrite ?length_split_app, ?length_split_cons. rewrite Ascii.eqb_refl.
  assert (Hh : length (split_char newline (join nl (take 60 lines))) = 60).
  { rewrite length_split_join, length_take; [lia | | by apply Forall_take]. intros H. apply (f_equal length) in H.
    rewrite length_take in H. cbn [length] in H. lia. }
  assert (Ht : length (split_char newline (join nl (drop (length lines - 40) lines))) = 40).
  { rewrite length_split_join, length_drop; [lia | | by apply Forall_drop]. intros H. apply (f_equal length) in H.
    rewrite length_drop in H. cbn [length] in H. lia. }
  rewrite Hh, Ht, (pretty_digit_free _). cbn [split_char Ascii.eqb]. vm_compute. lia.
Qed.

(** A tool result is cut when it enters the log and never again: what
    truncation keeps has at most 103 lines, and truncating it a second time
    changes nothing.  Evidence and model turns are never cut. *)
Theorem Truncate_once kind body :
  Truncate kind (Truncate kind body) = Truncate kind body ∧
  (kind = KindToolResult → length (split_char newline (Truncate kind body)) ≤ 103) ∧
  (kind ≠ KindToolResult → Truncate kind body = body).
Proof.
  split_and!.
  - destruct (decide (kind = KindToolResult)) as [->|Hk].
    + unfold Truncate at 1. rewrite bool_decide_false by (by intros []). cbv zeta.
      by rewrite (proj2 (Nat.leb_le _ _) (Truncate_lines body)).
    + unfold Truncate at 1. by rewrite bool_decide_true.
  - intros ->. apply Truncate_lines.
  - intros Hk. unfold Truncate. by rewrite bool_decide_true.
Qed.

(** ** The log only grows *)

Definition appended (p q : Pack) : Prop := ∃ b, Append p b = Ok q.

Definition log_cost (f : Fence) (l : list Block) : Z := foldr Z.add 0%Z ((λ b, EstimateTokens (render f b)) <$> l).

Record pack_ok (p : Pack) : Prop := {
  pack_fence : Fence_Valid (p_fence p) = true;
  pack_prefix_fits : (PrefixTokens p ≤ B_Prefix (p_budget p))%Z;
  pack_cost : logTokens p = log_cost (p_fence p) (p_log p);
  pack_log_fits : (logTokens p ≤ B_Log (p_budget p))%Z;
  pack_truncated : Forall (λ b, truncated b = b) (p_log p) }.

Lemma EstimateTokens_nonneg s : (0 ≤ EstimateTokens s)%Z.
Proof. unfold EstimateTokens. destruct (String.eqb s ""); [done |]. pose proof (Z.div_pos (Z.of_nat (String.length s)) 4). lia. Qed.

Lemma log_cost_app f l1 l2 : log_cost f (l1 ++ l2) = (log_cost f l1 + log_cost f l2)%Z.
Proof. unfold log_cost. rewrite fmap_app. induction l1; cbn in *; lia. Qed.

Lemma New_ok prefix fence budget p : New prefix fence budget = Ok p →
  p = mk_pack prefix fence budget [] 0 ∧ pack_ok p.
Proof.
  unfold New. destruct (Fence_Valid fence) eqn:Hf; [|done]. cbn [negb].
  destruct (Z.leb (B_Prefix budget) 0 || Z.leb (B_Log budget) 0) eqn:Hb; [done |].
  apply orb_false_iff in Hb as [_ Hl%Z.leb_gt].
  destruct (Z.ltb (B_Prefix budget) (PrefixTokens (mk_pack prefix fence budget [] 0))) eqn:Hp; [done |].
  apply Z.ltb_ge in Hp. intros [= <-]. split; [done |]. split; cbn; [done | done | done | lia | constructor].
Qed.

Lemma truncated_once b : truncated (truncated b) = truncated b.
Proof. unfold truncated. cbn. by rewrite (proj1 (Truncate_once (B_Kind b) (B_Body b))). Qed.

Lemma Append_ok p b q : Append p b = Ok q ↔ Fits p b = true ∧
  q = mk_pack (p_prefix p) (p_fence p) (p_budget p) (p_log p ++ [truncated b])
        (logTokens p + EstimateTokens (render (p_fence p) (truncated b))).
Proof.
  unfold Append, Fits. rewrite Z.leb_le.
  destruct (Z.ltb_spec (B_Log (p_budget p)) (logTokens p + EstimateTokens (render (p_fence p) (truncated b)))).
  - split; [done | intros []; lia].
  - split; [intros [= <-]; done | by intros [_ ->]].
Qed.

Lemma appended_ok p q : appended p q → pack_ok p → pack_ok q.
Proof.
  intros [b [Hf ->]%Append_ok] []. unfold Fits in Hf. apply Z.leb_le in Hf.
  split; cbn [p_prefix p_fence p_budget p_log logTokens]; try done.
  - rewrite log_cost_app, pack_cost0. f_equal. unfold log_cost. cbn. lia.
  - apply Forall_app. split; [done |]. repeat constructor. apply truncated_once.
Qed.

Lemma appended_all_ok p q : rtc appended p q → pack_ok p → pack_ok q.
Proof. induction 1 as [|x y z H _ IH]; [done |]. intros Hx. by apply IH, (appended_ok x). Qed.

Lemma appended_same p q : rtc appended p q →
  p_prefix q = p_prefix p ∧ p_fence q = p_fence p ∧ p_budget q = p_budget p ∧ p_log p `prefix_of` p_log q.
Proof.
  induction 1 as [p|p p1 q [b [_ ->]%Append_ok] _ IH]; [done |]. cbn in IH.
  destruct IH as (-> & -> & -> & H). split_and!; try done. etrans; [|exact H]. by apply prefix_app_r.
Qed.

(** Within a phase a request is never rewritten.  From a new pack, however
    many blocks are appended, the frozen prefix, the fence and the budget stay
    as they were; the request built later is the earlier one, without its tail,
    followed by more messages, so the part the caller names as cacheable is the
    same two messages every time; the log's cost is the sum of its blocks' and
    never passes the log budget, nor the prefix its own; and every block is kept
    as it was cut on the way in.  A block is admitted exactly when [Fits] says
    so, and one that is not leaves an error instead of a shorter log. *)
Theorem pack_append_only prefix fence budget p q r t b :
  New prefix fence budget = Ok p → rtc appended p q → rtc appended q r →
  p_prefix r = prefix ∧ p_fence r = fence ∧ p_budget r = budget ∧
  frozen r = frozen p ∧ (Messages r t).2 = length (frozen p) ∧
  (frozen q ++ (block_message (p_fence q) <$> p_log q)) `prefix_of` (Messages r t).1 ∧
  pack_ok r ∧
  (is_ok (Append r b) = Fits r b) ∧ (Fits r b = false → Append r b = Err ErrLogFull).
Proof.
  intros Hn Hq Hr. apply New_ok in Hn as [-> Hp].
  assert (Hok : pack_ok r) by (apply (appended_all_ok (mk_pack prefix fence budget [] 0) r); [by etrans | done]).
  apply appended_same in Hq as (Q1 & Q2 & Q3 & _). apply appended_same in Hr as (R1 & R2 & R3 & R4).
  cbn in Q1, Q2, Q3. rewrite Q1 in R1. rewrite Q2 in R2. rewrite Q3 in R3.
  split_and!; try done.
  - unfold frozen. by rewrite R1, R2.
  - unfold Messages. cbn [fst]. destruct R4 as [l ->]. unfold frozen. rewrite R1, R2, Q1, Q2, fmap_app.
    exists ((block_message fence <$> l) ++ (if blank (render_tail t) then [] else [mk_message "user" (render_tail t)])).
    by rewrite <- !app_assoc.
  - unfold Append, Fits. destruct (Z.leb_spec (logTokens r + EstimateTokens (render (p_fence r) (truncated b))) (B_Log (p_budget r))).
    + by rewrite (proj2 (Z.ltb_ge _ _)).
    + by rewrite (proj2 (Z.ltb_lt _ _)).
  - unfold Append, Fits. intros H%Z.leb_gt. by rewrite (proj2 (Z.ltb_lt _ _)).
Qed.

Definition demo_prefix : Prefix := mk_prefix "policy" "go module" "map" "fix it".
Definition demo_block : Block := mk_block KindToolResult "" "ok".
Definition demo_pack : result Pack := New demo_prefix demo_fence (mk_pbudget 1000 100 100).
Definition demo_pack0 : Pack := mk_pack demo_prefix demo_fence (mk_pbudget 1000 100 100) [] 0.
Definition demo_pack1 : Pack :=
  mk_pack demo_prefix demo_fence (mk_pbudget 1000 100 100) [demo_block]
    (EstimateTokens (render demo_fence demo_block)).

Lemma pack_append_only_witness :
  (frozen demo_pack0 ++ []) `prefix_of` (Messages demo_pack1 (mk_tail "go on" 0 0 0)).1 ∧
  Append demo_pack1 (mk_block KindModelTurn "" "done") ≠ Err ErrLogFull.
Proof.
  assert (H0 : New demo_prefix demo_fence (mk_pbudget 1000 100 100) = Ok demo_pack0) by (vm_compute; reflexivity).
  assert (H1 : appended demo_pack0 demo_pack1) by (exists demo_block; vm_compute; reflexivity).
  destruct (pack_append_only demo_prefix demo_fence (mk_pbudget 1000 100 100) demo_pack0 demo_pack0 demo_pack1
    (mk_tail "go on" 0 0 0) (mk_block KindModelTurn "" "done") H0 (rtc_refl _ _) (rtc_once _ _ H1))
    as (_ & _ & _ & _ & _ & H & _ & Hf & _).
  split; [exact H |]. intros E. rewrite E in Hf. vm_compute in Hf. discriminate.
Defined.
