(* ===== verification/Memory.v ===== *)
(** The durable notes of a repository, [src/internal/memory/memory.go] and
    [project.go]: what a note must carry, the caps that keep the store small,
    and the project cards that are loaded into a packet.  YAML is a parameter. *)
From S2P Require Import Prelude GoStrings GoPath Policy Worktree.

Open Scope string_scope.
Open Scope list_scope.
Open Scope nat_scope.

(** ** Notes *)

(** [memory/memory.go:37-49 Kind] *)
Definition Kind := string.
Definition KindIntent : Kind := "intent".
Definition KindObservation : Kind := "observation".
Definition KindAdvice : Kind := "advice".

(** [memory/memory.go:52-52 Kinds] *)
Definition Kinds : list Kind := [KindIntent; KindObservation; KindAdvice].

(** [memory/memory.go:55-62 Kind.Valid] *)
Definition Kind_Valid (k : Kind) : bool := mem k Kinds.

(** [memory/memory.go:65-76 Provenance]; the time in nanoseconds, 0 for the zero time. *)
Record Provenance := mk_prov { Pv_Source : string; Pv_Evidence : string; At : Z }.

(** [memory/memory.go:79-88 Note] *)
Record Note := mk_note { Nt_ID : string; Nt_Kind : Kind; Nt_Text : string; Nt_Prov : Provenance; Nt_Tags : list string }.

(** [memory/memory.go:91-99 Caps] *)
Record Caps := mk_caps { PerKind : Z; MaxTextBytes : Z }.

(** [memory/memory.go:102-102 DefaultCaps] *)
Definition DefaultCaps : Caps := mk_caps 50 1000.

(** [memory/memory.go:105-108 ErrNoProvenance] and [ErrTooLong]. *)
Definition ErrNoProvenance : error :=
  mk_error (Some "memory.ErrNoProvenance") "memory: a note must record where it came from".
Definition ErrTooLong (msg : string) : error :=
  mk_error (Some "memory.ErrTooLong") ("memory: the note is longer than the cap: " +:+ msg).

Definition text_len (n : Note) : Z := Z.of_nat (String.length (Nt_Text n)).

(** [memory/memory.go:111-125 Note.Validate] *)
Definition Note_Validate (n : Note) (caps : Caps) : result unit :=
  if negb (Kind_Valid (Nt_Kind n))
  then Err (errorf ("memory: " +:+ quoted (Nt_Kind n) +:+ " is not one of intent, observation, advice"))
  else if blank (Nt_Text n) then Err (errorf "memory: a note needs text")
  else if Z.ltb 0 (MaxTextBytes caps) && Z.ltb (MaxTextBytes caps) (text_len n)
  then Err (ErrTooLong (pretty (text_len n) +:+ " bytes, cap is " +:+ pretty (MaxTextBytes caps)))
  else if blank (Pv_Source (Nt_Prov n)) then Err ErrNoProvenance
  else Ok tt.

(** ** The store *)

(** [memory/memory.go:133-136 Store] *)
Record Store := mk_store { St_dir : string; St_caps : Caps }.

(** [memory/memory.go:140-148 Open] *)
Definition Open (repoRoot : string) (caps : Caps) : Store :=
  mk_store (join_path (join_path repoRoot ".le") "memory")
    (mk_caps (if Z.leb (PerKind caps) 0 then PerKind DefaultCaps else PerKind caps)
             (if Z.leb (MaxTextBytes caps) 0 then MaxTextBytes DefaultCaps else MaxTextBytes caps)).

(** [memory/memory.go:153-153 Store.path] *)
Definition Store_path (s : Store) (k : Kind) : string := join_path (St_dir s) (k +:+ ".yaml").

Definition older (a b : Note) : bool := Z.ltb (At (Nt_Prov a)) (At (Nt_Prov b)).
Definition with_kind (k : Kind) (n : Note) : Note := mk_note (Nt_ID n) k (Nt_Text n) (Nt_Prov n) (Nt_Tags n).

(** The directory entry a path names: its parent resolved, its last component not. *)
Definition dir_entry (f : fs) (p : apath) : result apath :=
  match last p with
  | None => Ok []
  | Some b => d ← EvalSymlinks f (parent p); Ok (d ++ [b])
  end.

(** [os.Rename] of a file or a link; the code renames nothing else. *)
Definition Rename (f : fs) (old new : apath) : result unit * fs :=
  match dir_entry f old, dir_entry f new with
  | Ok o, Ok n =>
      match lookup_node f o, lookup_node f n with
      | None, _ => (Err ENOENT, f)
      | Some NDir, _ => (Err EISDIR, f)
      | _, Some NDir => (Err EEXIST, f)
      | Some x, _ => (Ok tt, <[n := x]> (delete o f))
      end
  | Err e, _ | _, Err e => (Err e, f)
  end.

Section store.
Context (yaml_read : string → result (list Note)) (yaml_write : list Note → result string).

(** [memory/memory.go:156-178 Store.List] *)
Definition List_ (f : fs) (s : Store) (k : Kind) : result (list Note) :=
  if negb (Kind_Valid k) then Err (errorf ("memory: " +:+ quoted k +:+ " is not a kind")) else
  match ReadFile f (path_of (Store_path s k)) with
  | Err e => if is_not_exist e then Ok [] else Err e
  | Ok body =>
      notes ← wrap_r ("memory: " +:+ Store_path s k +:+ " is not readable: ") (yaml_read body);
      Ok (stable_sort older (with_kind k <$> notes))
  end.

(** [memory/memory.go:181-191 Store.All] the notes of each kind, in reading order. *)
Definition All (f : fs) (s : Store) : result (list (Kind * list Note)) :=
  mapM (λ k, notes ← List_ f s k; Ok (k, notes)) Kinds.

(** [memory/memory.go:260-262 newID] *)
Definition newID (k : Kind) (at_ : Z) (n : nat) : string :=
  let i := pretty (S n) in
  take_str 3 k +:+ "-" +:+ pretty (Z.div at_ 1000000000) +:+ "-" +:+ (if String.length i <? 2 then "0" +:+ i else i).

Definition yaml_header (k : Kind) : string :=
  "# " +:+ k +:+ " notes (design v3 §8.2)." +:+ nl +:+
  "# Kept in the repository so they travel with it. Every note records where" +:+ nl +:+
  "# it came from: a rule with no source cannot be judged." +:+ nl.

(** [memory/memory.go:242-258 Store.write] a new file takes the old one's place. *)
Definition write (f : fs) (s : Store) (k : Kind) (notes : list Note) : result unit * fs :=
  match MkdirAll f (path_of (St_dir s)) with
  | (Err e, f) => (Err e, f)
  | (Ok _, f) =>
      match yaml_write notes with
      | Err e => (Err e, f)
      | Ok body =>
          let tmp := path_of (Store_path s k +:+ ".tmp") in
          match WriteFile f tmp (yaml_header k +:+ body) with
          | (Err e, f) => (Err e, f)
          | (Ok _, f) => Rename f tmp (path_of (Store_path s k))
          end
      end
  end.

(** [memory/memory.go:194-219 Store.Add] a note without a time gets [now], in
    whole seconds. *)
Definition stamped (now : Z) (n : Note) : Note :=
  if Z.eqb (At (Nt_Prov n)) 0
  then mk_note (Nt_ID n) (Nt_Kind n) (Nt_Text n)
         (mk_prov (Pv_Source (Nt_Prov n)) (Pv_Evidence (Nt_Prov n)) (Z.div now 1000000000 * 1000000000)) (Nt_Tags n)
  else n.
Definition named (n : Note) (count : nat) : Note :=
  if String.eqb (Nt_ID n) ""
  then mk_note (newID (Nt_Kind n) (At (Nt_Prov n)) count) (Nt_Kind n) (Nt_Text n) (Nt_Prov n) (Nt_Tags n) else n.
(** [memory/memory.go:215-217 Store.Add] the newest [PerKind] are kept. *)
Definition capped (caps : Caps) (notes : list Note) : list Note :=
  if Z.ltb 0 (PerKind caps) && Z.ltb (PerKind caps) (Z.of_nat (length notes))
  then drop (length notes - Z.to_nat (PerKind caps)) notes else notes.

(** [memory/memory.go:194-219 Store.Add] *)
Definition Add (f : fs) (s : Store) (now : Z) (n : Note) : result Note * fs :=
  let n := stamped now n in
  match Note_Validate n (St_caps s) with
  | Err e => (Err e, f)
  | Ok _ =>
      match List_ f s (Nt_Kind n) with
      | Err e => (Err e, f)
      | Ok notes =>
          let n := named n (length notes) in
          if existsb (λ x, String.eqb (Nt_ID x) (Nt_ID n)) notes
          then (Err (errorf ("memory: a note with id " +:+ Nt_ID n +:+ " already exists")), f)
          else match write f s (Nt_Kind n) (capped (St_caps s) (notes ++ [n])) with
               | (Ok _, f) => (Ok n, f)
               | (Err e, f) => (Err e, f)
               end
      end
  end.

(** [memory/memory.go:222-236 Store.Remove] *)
Definition Remove (f : fs) (s : Store) (k : Kind) (id : string) : result bool * fs :=
  match List_ f s k with
  | Err e => (Err e, f)
  | Ok notes =>
      if negb (existsb (λ x, String.eqb (Nt_ID x) id) notes) then (Ok false, f)
      else match write f s k (List.filter (λ x, negb (String.eqb (Nt_ID x) id)) notes) with
           | (Ok _, f) => (Ok true, f)
           | (Err e, f) => (Err e, f)
           end
  end.
End store.

(** ** Project cards *)

(** [memory/project.go:15-21 ProjectHeader]; a zero time is 0. *)
Record ProjectHeader := mk_header {
  Ph_RepoID : string; Ph_UpdatedAt : Z; Ph_Commit : string; Ph_Source : string; Ph_Symbols : list string }.

(** [memory/project.go:22-28 ProjectNote] *)
Record ProjectNote := mk_project {
  Pn_Header : ProjectHeader; Pn_File : string; Pn_Text : string; Stale : bool; Stale_Reason : string }.

Definition front_mark : string := "---" +:+ nl.

(** [strings.SplitN(s, sep, 3)] when it has three parts. *)
Fixpoint cut_str (sep s : string) : option (string * string) :=
  if has_prefix s sep then Some ("", drop_str (String.length sep) s) else
  match s with
  | EmptyString => None
  | String c s => '(a, b) ← cut_str sep s; Some (String c a, b)
  end.
Definition split3 (sep s : string) : option (string * string * string) :=
  '(a, rest) ← cut_str sep s; '(b, c) ← cut_str sep rest; Some (a, b, c).

Definition project_names : list string := ["project"; "architecture"; "conventions"; "constraints"; "decisions"; "glossary"].

Section project.
Context (yaml_header_of : string → result ProjectHeader).

(** [memory/project.go:63-70 LoadProject] which provenance makes a card stale;
    a symbol that does not resolve does too. *)
Definition provenance_reason (repoID : string) (h : ProjectHeader) : option string :=
  if negb (String.eqb (Ph_Source h) "user") && negb (String.eqb (Ph_Source h) "model_accepted") && negb (String.eqb (Ph_Source h) "tool")
  then Some "unreviewed source"
  else if negb (String.eqb (Ph_RepoID h) repoID) || String.eqb (Ph_Commit h) "" || Z.eqb (Ph_UpdatedAt h) 0
  then Some "missing or mismatched provenance"
  else None.

(** [memory/project.go:71-80 LoadProject] the symbols, in order; the last one
    that does not resolve names the reason. *)
Fixpoint unresolved (resolve : string → result bool) (symbols : list string) (reason : option string) : result (option string) :=
  match symbols with
  | [] => Ok reason
  | s :: symbols =>
      found ← resolve s;
      unresolved resolve symbols (if (found : bool) then reason else Some ("unresolved symbol: " +:+ s))
  end.

(** [memory/project.go:35-81 LoadProject] one card; [None] when it is not there. *)
Definition load_card (f : fs) (root repoID : string) (resolve : string → result bool) (name : string) : result (option ProjectNote) :=
  let file := ".agent/" +:+ name +:+ ".md" in
  full ← Resolve f root file;
  match Stat f full with
  | Err e => if is_not_exist e then Ok None else Err e
  | Ok (NFile body) =>
      if 16000 <? String.length body then Err (errorf ("memory card " +:+ file +:+ " exceeds 16KB")) else
      match split3 front_mark body with
      | Some ("", front, text) =>
          h ← yaml_header_of front;
          reason ← unresolved resolve (Ph_Symbols h) (provenance_reason repoID h);
          Ok (Some (mk_project h file (trim_space text) (match reason with Some _ => true | None => false end) (default "" reason)))
      | _ => Err (errorf ("memory card " +:+ file +:+ " requires YAML front matter"))
      end
  | Ok _ => Err (errorf ("memory card " +:+ file +:+ " exceeds 16KB"))
  end.

(** [memory/project.go:32-84 LoadProject] *)
Fixpoint load_cards (f : fs) (root repoID : string) (resolve : string → result bool) (names : list string) : result (list ProjectNote) :=
  match names with
  | [] => Ok []
  | n :: names =>
      card ← load_card f root repoID resolve n;
      rest ← load_cards f root repoID resolve names;
      Ok (match card with Some c => c :: rest | None => rest end)
  end.
Definition LoadProject (f : fs) (root repoID : string) (resolve : string → result bool) : result (list ProjectNote) :=
  load_cards f root repoID resolve project_names.
End project.

(** ** What is kept, and what is trusted *)

Lemma capped_suffix caps l : ∃ old, l = old ++ capped caps l.
Proof.
  unfold capped. destruct (_ && _); [|by exists []].
  eexists. symmetry. apply take_drop.
Qed.
Lemma capped_length caps l : (0 < PerKind caps)%Z → (Z.of_nat (length (capped caps l)) ≤ PerKind caps)%Z.
Proof.
  intros Hp. unfold capped. destruct (Z.ltb_spec 0 (PerKind caps)); [|lia]. cbn [andb].
  destruct (Z.ltb_spec (PerKind caps) (Z.of_nat (length l))); [rewrite length_drop |]; lia.
Qed.
Lemma capped_keeps_new caps l n : n ∈ capped caps (l ++ [n]).
Proof.
  unfold capped. destruct (Z.ltb_spec 0 (PerKind caps)); cbn [andb]; [|set_solver].
  destruct (Z.ltb _ _); [|set_solver]. rewrite length_app. cbn [length].
  rewrite drop_app_le by lia. set_solver.
Qed.

Lemma Note_Validate_ok n caps : Note_Validate n caps = Ok tt →
  Nt_Kind n ∈ Kinds ∧ blank (Nt_Text n) = false ∧ blank (Pv_Source (Nt_Prov n)) = false ∧
  ((0 < MaxTextBytes caps)%Z → (text_len n ≤ MaxTextBytes caps)%Z).
Proof.
  unfold Note_Validate. destruct (Kind_Valid _) eqn:Ek; [|done]. destruct (blank (Nt_Text n)) eqn:Et; [done |]. cbn [negb].
  destruct (_ && _) eqn:El; [done |]. destruct (blank (Pv_Source _)) eqn:Es; [done |]. intros _.
  split_and!; [by apply mem_true | done..|]. intros Hm. apply andb_false_iff in El as [El%Z.ltb_ge|El%Z.ltb_ge]; lia.
Qed.

Section kept.
Context (yaml_read : string → result (list Note)) (yaml_write : list Note → result string).

Lemma named_same n i : Nt_Kind (named n i) = Nt_Kind n ∧ Nt_Text (named n i) = Nt_Text n ∧ Nt_Prov (named n i) = Nt_Prov n.
Proof. unfold named. by destruct (String.eqb _ _). Qed.

(** What [Add] stores: the notes there were and the new one, which says where it
    came from and has an id of its own, less the ones at the front that the cap
    has no room for. *)
Theorem Add_stores f s now n n' f' : Add yaml_read yaml_write f s now n = (Ok n', f') →
  ∃ notes, List_ yaml_read f s (Nt_Kind n) = Ok notes ∧
    write yaml_write f s (Nt_Kind n) (capped (St_caps s) (notes ++ [n'])) = (Ok tt, f') ∧
    Nt_ID n' ∉ Nt_ID <$> notes ∧ blank (Pv_Source (Nt_Prov n')) = false ∧ blank (Nt_Text n') = false ∧
    Nt_Kind n' = Nt_Kind n ∧ Nt_Kind n' ∈ Kinds.
Proof.
  unfold Add. destruct (Note_Validate (stamped now n) (St_caps s)) as [[]|] eqn:Ev; [|done].
  assert (Hk : Nt_Kind (stamped now n) = Nt_Kind n) by (unfold stamped; by destruct (Z.eqb _ _)). rewrite Hk.
  destruct (List_ _ f s _) as [notes|] eqn:El; [|done].
  destruct (existsb _ notes) eqn:Ex; [done |].
  destruct (named_same (stamped now n) (length notes)) as (Nk & Nt & Np). rewrite Nk, Hk.
  destruct (write _ _ _ _ _) as [[[]|e] f1] eqn:Ew; [|done]. intros [= <- <-].
  apply Note_Validate_ok in Ev as (Hkk & Htt & Hss & _). rewrite Nk, Nt, Np.
  exists notes. split_and!; try done.
  intros (x & Hx & Hin)%list_elem_of_fmap. apply not_true_iff_false in Ex. apply Ex, existsb_exists.
  exists x. split; [by apply list_elem_of_In |]. by rewrite Hx, String.eqb_refl.
Qed.
End kept.

Section trusted.
Context (yaml_header_of : string → result ProjectHeader).

Lemma unresolved_none resolve symbols reason : unresolved resolve symbols reason = Ok None →
  reason = None ∧ Forall (λ s, resolve s = Ok true) symbols.
Proof.
  revert reason. induction symbols as [|s symbols IH]; intros reason; cbn [unresolved]; [by intros [= ->] |].
  unfold mbind, result_bind. destruct (resolve s) as [[]|] eqn:E; [| |done].
  - intros [-> ?]%IH. split; [done | by constructor].
  - by intros [[=] _]%IH.
Qed.

Lemma load_cards_elem f root repoID resolve names cards c :
  load_cards yaml_header_of f root repoID resolve names = Ok cards → c ∈ cards →
  ∃ n, n ∈ names ∧ load_card yaml_header_of f root repoID resolve n = Ok (Some c).
Proof.
  revert cards. induction names as [|n names IH]; intros cards; cbn [load_cards]; [by intros [= <-] ?%not_elem_of_nil |].
  unfold mbind, result_bind. destruct (load_card _ f root repoID resolve n) as [o|] eqn:E; [|done].
  destruct (load_cards _ _ _ _ _ _) as [rest|] eqn:E2; [|done]. intros [= <-].
  destruct o as [c0|]; [intros [->|H]%elem_of_cons|intros H].
  - exists n. split; [constructor | done].
  - destruct (IH _ eq_refl H) as (m & ? & ?). exists m. split; [by constructor | done].
  - destruct (IH _ eq_refl H) as (m & ? & ?). exists m. split; [by constructor | done].
Qed.

(** A project card that is shown as current was written by a person, by a tool
    or by an accepted change of this very repository, and every symbol it speaks
    of is still there. *)
Theorem LoadProject_current f root repoID resolve cards c :
  LoadProject yaml_header_of f root repoID resolve = Ok cards → c ∈ cards → Stale c = false →
  Ph_Source (Pn_Header c) ∈ ["user"; "model_accepted"; "tool"] ∧ Ph_RepoID (Pn_Header c) = repoID ∧
  Ph_Commit (Pn_Header c) ≠ "" ∧ Forall (λ s, resolve s = Ok true) (Ph_Symbols (Pn_Header c)).
Proof.
  intros Hl Hc Hs. destruct (load_cards_elem _ _ _ _ _ _ _ Hl Hc) as (n & _ & H). revert H. unfold load_card.
  unfold mbind at 1, result_bind at 1. destruct (Resolve f root _) as [full|]; [|done].
  destruct (Stat f full) as [nd|e]; [|by destruct (is_not_exist e)]. destruct nd as [body| |]; try done.
  destruct (_ <? _); [done |]. destruct (split3 _ _) as [[[[|] front] text]|]; [|done|done].
  unfold mbind, result_bind. destruct (yaml_header_of front) as [h|]; [|done].
  destruct (unresolved _ _ _) as [reason|] eqn:Eu; [|done]. intros [= <-]. cbn in *.
  destruct reason; [done |]. apply unresolved_none in Eu as [Hp Hf]. revert Hp. unfold provenance_reason.
  destruct (_ && _ && _) eqn:E1; [done |]. destruct (_ || _ || _) eqn:E2; [done |]. intros _.
  apply orb_false_iff in E2 as [[E2%negb_false_iff%String.eqb_eq E3%String.eqb_neq]%orb_false_iff _].
  split_and!; [|done..].
  apply andb_false_iff in E1 as [[E1%negb_false_iff%String.eqb_eq|E1%negb_false_iff%String.eqb_eq]%andb_false_iff|E1%negb_false_iff%String.eqb_eq];
    rewrite E1; set_solver.
Qed.
End trusted.
