(* ===== verification/Lessons.v ===== *)
(** Lessons carried from one repository to another,
    [src/internal/memory/lessons.go]: a bundle of notes that is exported, read by a
    person, and imported when that person confirms.  YAML is a parameter; the clock
    is asked for every imported note. *)
From S2P Require Import Prelude GoStrings GoPath Worktree Memory.

Open Scope string_scope.
Open Scope list_scope.
Open Scope nat_scope.

(** [memory/lessons.go:30-38 Bundle] the time in nanoseconds. *)
Record Bundle := mk_bundle { Bu_Version : Z; Bu_From : string; ExportedAt : Z; Bu_Notes : list Note }.
(** [memory/lessons.go:41-41 BundleVersion] *)
Definition BundleVersion : Z := 1.
(** [memory/lessons.go:104-104 ErrNotConfirmed] *)
Definition ErrNotConfirmed : error := mk_error (Some "memory.ErrNotConfirmed") "memory: the import was not confirmed".
(** [memory/lessons.go:107-114 ImportOptions] *)
Record ImportOptions := mk_import { Confirmed : bool; Im_Kinds : list Kind }.

Definition in_seconds (now : Z) : Z := (Z.div now 1000000000 * 1000000000)%Z.

(** [memory/lessons.go:207-212 orDefault] *)
Definition orDefault (s d : string) : string := if String.eqb (trim_space s) "" then d else s.

(** [memory/lessons.go:199-205 truncate] *)
Definition truncate (s : string) (n : nat) : string :=
  let s := trim_space (str_replace_all nl " " s) in
  if String.length s <=? n then s else take_str (n - 1) s +:+ "…".

(** [memory/lessons.go:58-63 Store.Export] the order of a bundle. *)
Definition bundle_less (a b : Note) : bool :=
  if negb (String.eqb (Nt_Kind a) (Nt_Kind b)) then str_ltb (Nt_Kind a) (Nt_Kind b)
  else Z.ltb (At (Nt_Prov a)) (At (Nt_Prov b)).

(** [memory/lessons.go:72-78 WriteBundle] the header. *)
Definition bundle_header : string :=
  "# Exported lessons (design v3 §2.2)." +:+ nl +:+
  "# This file is meant to be read before it is imported. Importing copies" +:+ nl +:+
  "# these notes into another repository's memory, where they will steer work." +:+ nl +:+
  "# There is no automatic channel between projects; this file is the channel." +:+ nl.

(** [memory/lessons.go:125-134 Store.Import] what of a bundle is taken: no kinds
    stand for all. *)
Definition wanted (kinds : list Kind) (n : Note) : bool := (length kinds =? 0) || mem (Nt_Kind n) kinds.

(** [memory/lessons.go:135-150 Store.Import] the note as it is stored here. *)
Definition imported_note (from : string) (now : Z) (n : Note) : Note :=
  let origin := if String.eqb from "" then "an unnamed export" else from in
  mk_note "" (Nt_Kind n) (Nt_Text n)
    (mk_prov ("imported from " +:+ origin +:+ " (originally: " +:+ Pv_Source (Nt_Prov n) +:+ ")") (Pv_Evidence (Nt_Prov n)) (in_seconds now))
    (Nt_Tags n ++ ["imported"]).

Section lessons.
Context (yaml_read : string → result (list Note)) (yaml_write : list Note → result string).
Context (bundle_write : Bundle → result string) (bundle_read : string → result Bundle) (show_time : Z → string).

(** [memory/lessons.go:46-65 Store.Export] *)
Definition Export (f : fs) (s : Store) (now : Z) (from : string) (kinds : list Kind) : result Bundle :=
  let kinds := if length kinds =? 0 then [KindAdvice] else kinds in
  notes ← mapM (List_ yaml_read f s) kinds;
  Ok (mk_bundle BundleVersion from (in_seconds now) (stable_sort bundle_less (concat notes))).

(** [memory/lessons.go:68-79 WriteBundle] *)
Definition WriteBundle (b : Bundle) : result string := body ← bundle_write b; Ok (bundle_header +:+ body).

(** [memory/lessons.go:82-99 ReadBundle] *)
Definition ReadBundle (body : string) : result Bundle :=
  b ← wrap_r "memory: the bundle is not readable: " (bundle_read body);
  if Z.eqb (Bu_Version b) 0 then Err (errorf "memory: the bundle declares no version")
  else if Z.ltb BundleVersion (Bu_Version b)
  then Err (errorf ("memory: the bundle is version " +:+ pretty (Bu_Version b) +:+ "; this build understands " +:+ pretty BundleVersion))
  else Ok b.

(** [memory/lessons.go:130-157 Store.Import] the loop: the notes stored so far
    are returned beside an error. *)
Fixpoint import_notes (s : Store) (from : string) (kinds : list Kind) (clock : nat → Z) (notes : list Note) (f : fs) : list Note * option error * fs :=
  match notes with
  | [] => ([], None, f)
  | n :: notes =>
      if negb (wanted kinds n) then import_notes s from kinds (clock ∘ S) notes f else
      match Add yaml_read yaml_write f s (clock 0) (imported_note from (clock 0) n) with
      | (Err e, f) => ([], Some (wrap ("memory: importing " +:+ quoted (truncate (Nt_Text n) 40) +:+ ": ") e), f)
      | (Ok stored, f) =>
          let '(added, err, f) := import_notes s from kinds (clock ∘ S) notes f in (stored :: added, err, f)
      end
  end.
(** [memory/lessons.go:124-158 Store.Import] *)
Definition Import (f : fs) (s : Store) (clock : nat → Z) (b : Bundle) (opts : ImportOptions) : list Note * option error * fs :=
  if negb (Confirmed opts) then ([], Some ErrNotConfirmed, f)
  else import_notes s (Bu_From b) (Im_Kinds opts) clock (Bu_Notes b) f.

(** [memory/lessons.go:183-187 Preview] one note. *)
Definition preview_note (n : Note) : string :=
  "  - " +:+ truncate (Nt_Text n) 100 +:+ nl +:+ "    from " +:+ orDefault (Pv_Source (Nt_Prov n)) "(no source)" +:+ nl.
(** [memory/lessons.go:173-178 Preview] the notes of one kind. *)
Definition preview_group (b : Bundle) (kinds : list Kind) (k : Kind) : list Note :=
  List.filter (λ n, String.eqb (Nt_Kind n) k && ((length kinds =? 0) || mem k kinds)) (Bu_Notes b).
(** [memory/lessons.go:162-197 Preview] *)
Definition Preview (b : Bundle) (kinds : list Kind) : string :=
  let shown := Kinds ≫= preview_group b kinds in
  "Bundle from " +:+ orDefault (Bu_From b) "(unnamed)" +:+ ", exported " +:+ show_time (ExportedAt b) +:+ nl +:+ nl +:+
  join "" ((λ k, let group := preview_group b kinds k in
                 if length group =? 0 then ""
                 else k +:+ " (" +:+ pretty (length group) +:+ ")" +:+ nl +:+ join "" (preview_note <$> group) +:+ nl) <$> Kinds) +:+
  (if length shown =? 0 then "Nothing in this bundle matches the selected kinds." +:+ nl
   else "These will be copied into this repository's memory, where they steer" +:+ nl +:+
        "future work. Every one will be marked as imported, with its original source kept." +:+ nl).

(** [memory/lessons.go:215-222 ExportTo]; the file is opened, and emptied, before
    the bundle is written. *)
Definition ExportTo (f : fs) (path : apath) (b : Bundle) : result unit * fs :=
  match WriteFile f path "" with
  | (Err e, f) => (Err e, f)
  | (Ok _, f) => match WriteBundle b with Err e => (Err e, f) | Ok body => WriteFile f path body end
  end.
(** [memory/lessons.go:225-232 ImportFrom] *)
Definition ImportFrom (f : fs) (path : apath) : result Bundle := body ← ReadFile f path; ReadBundle body.

(** ** An imported note says so *)

(** The note of this repository that a bundle's note became. *)
Definition carried (from : string) (n a : Note) : Prop :=
  Nt_Kind a = Nt_Kind n ∧ Nt_Text a = Nt_Text n ∧ Nt_Tags a = Nt_Tags n ++ ["imported"] ∧
  Pv_Source (Nt_Prov a) = "imported from " +:+ (if String.eqb from "" then "an unnamed export" else from) +:+
                          " (originally: " +:+ Pv_Source (Nt_Prov n) +:+ ")" ∧
  Nt_Kind a ∈ Kinds ∧ blank (Nt_Text a) = false.

Lemma named_tags n i : Nt_Tags (named n i) = Nt_Tags n.
Proof. unfold named. by destruct (String.eqb _ _). Qed.

Lemma stamped_tags now n : Nt_Tags (stamped now n) = Nt_Tags n ∧ Nt_Text (stamped now n) = Nt_Text n ∧ Pv_Source (Nt_Prov (stamped now n)) = Pv_Source (Nt_Prov n).
Proof. unfold stamped. by destruct (Z.eqb _ _). Qed.

Lemma Add_carried f s now from n a f' :
  Add yaml_read yaml_write f s now (imported_note from now n) = (Ok a, f') → carried from n a.
Proof.
  intros H. destruct (Add_stores _ _ _ _ _ _ _ _ H) as (_ & _ & _ & _ & _ & Ht & Hk & Hin).
  assert (Hn : ∃ i, a = named (stamped now (imported_note from now n)) i).
  { revert H. unfold Add. destruct (Note_Validate _ _); [|done]. destruct (List_ _ _ _ _) as [notes|]; [|done].
    destruct (existsb _ _); [done |]. destruct (write _ _ _ _ _) as [[[]|] ?]; [|done]. intros [= <- _]. by eexists. }
  destruct Hn as [i ->]. destruct (named_same (stamped now (imported_note from now n)) i) as (_ & Htx & Hp).
  destruct (stamped_tags now (imported_note from now n)) as (Hg & Htx2 & Hs).
  unfold carried. rewrite Hk, Htx, Htx2, named_tags, Hg, Hp, Hs. split_and!; try done; [by rewrite <- Hk|by rewrite <- Htx2, <- Htx].
Qed.

Lemma import_carried s from kinds notes : ∀ clock f added err f',
  import_notes s from kinds clock notes f = (added, err, f') →
  Forall2 (carried from) (take (length added) (List.filter (wanted kinds) notes)) added ∧
  (err = None → length added = length (List.filter (wanted kinds) notes)).
Proof.
  induction notes as [|n notes IH]; intros clock f added err f'; cbn [import_notes List.filter]; [intros [= <- <- <-]; split; [constructor | done] |].
  destruct (wanted kinds n); cbn [negb]; [|by apply IH].
  destruct (Add _ _ f s _ _) as [[a|e] f1] eqn:EA; [|intros [= <- <- _]; split; [constructor | done]].
  destruct (import_notes s from kinds (clock ∘ S) notes f1) as [[l o] f2] eqn:EI. intros [= <- <- <-].
  destruct (IH _ _ _ _ _ EI) as [H1 H2]. cbn [length take]. split; [|intros Ho; f_equal; by apply H2].
  constructor; [by eapply Add_carried | done].
Qed.

(** An import that was not confirmed copies nothing.  What a confirmed one adds is
    the notes of the wanted kinds, in the bundle's order and as far as it came, each
    with its text and tags, marked as imported and with its origin and its first
    source in its provenance; without an error that is all of them. *)
Theorem Import_marked f s clock b opts added err f' : Import f s clock b opts = (added, err, f') →
  (Confirmed opts = false → added = [] ∧ err = Some ErrNotConfirmed ∧ f' = f) ∧
  Forall2 (carried (Bu_From b)) (take (length added) (List.filter (wanted (Im_Kinds opts)) (Bu_Notes b))) added ∧
  (err = None → length added = length (List.filter (wanted (Im_Kinds opts)) (Bu_Notes b))).
Proof.
  unfold Import. destruct (Confirmed opts); cbn [negb]; intros H.
  - split; [done |]. by eapply import_carried.
  - injection H as <- <- <-. split; [done |]. split; [constructor | done].
Qed.

(** *** Where the import and its preview fall short *)

(** Into a store that is full, only the first of two notes of a kind goes in a
    second: the second is given the first one's id. *)
Lemma full_store_collides f s now k n1 n2 a f1 notes : (1 ≤ PerKind (St_caps s))%Z → now ≠ 0%Z →
  Nt_Kind n1 = k → Nt_Kind n2 = k → Nt_ID n1 = "" → Nt_ID n2 = "" → At (Nt_Prov n1) = now → At (Nt_Prov n2) = now →
  List_ yaml_read f s k = Ok notes → Z.of_nat (length notes) = PerKind (St_caps s) →
  Add yaml_read yaml_write f s now n1 = (Ok a, f1) →
  List_ yaml_read f1 s k = Ok (capped (St_caps s) (notes ++ [a])) →
  is_ok (Add yaml_read yaml_write f1 s now n2).1 = false.
Proof.
  intros Hc Hnow Hk1 Hk2 Hi1 Hi2 Ha1 Ha2 Hl Hlen HA Hl1.
  assert (Hst : ∀ n, At (Nt_Prov n) = now → stamped now n = n) by (intros n <-; unfold stamped; by destruct (Z.eqb_spec (At (Nt_Prov n)) 0)).
  assert (Ea : Nt_ID a = newID k now (length notes)).
  { revert HA. unfold Add. rewrite Hst by done. destruct (Note_Validate _ _); [|done]. rewrite Hk1, Hl. destruct (existsb _ _); [done |].
    destruct (write _ _ _ _ _) as [[[]|] ?]; [|done]. intros [= <- _]. unfold named. by rewrite Hi1, Hk1, Ha1. }
  unfold Add. rewrite Hst by done. destruct (Note_Validate _ _); [|done]. rewrite Hk2, Hl1.
  assert (Hlen2 : length (capped (St_caps s) (notes ++ [a])) = length notes).
  { unfold capped. rewrite length_app. cbn [length]. destruct (Z.ltb_spec 0 (PerKind (St_caps s))); [|lia]. cbn [andb].
    destruct (Z.ltb_spec (PerKind (St_caps s)) (Z.of_nat (length notes + 1))); [|lia]. rewrite length_drop, length_app. cbn [length]. lia. }
  assert (En : Nt_ID (named n2 (length (capped (St_caps s) (notes ++ [a])))) = Nt_ID a).
  { unfold named. by rewrite Hi2, Ea, Hk2, Ha2, Hlen2. }
  destruct (existsb _ _) eqn:Ex; [done |]. exfalso. apply not_true_iff_false in Ex. apply Ex, existsb_exists. exists a.
  split; [apply list_elem_of_In, capped_keeps_new | by rewrite En, String.eqb_refl].
Qed.
End lessons.

(** A person is shown the first hundred bytes of a note, all of which is copied. *)
Lemma preview_hides_text :
  let long tail := mk_note "n" KindAdvice (String.concat "" (replicate 100 "a") +:+ tail) (mk_prov "user" "" 5) [] in
  let show tail := Preview (λ _, "") (mk_bundle 1 "there" 5 [long tail]) [] in
  show " and always run this first" = show " and never run that" ∧
  Nt_Text (imported_note "there" 5 (long " and always run this first")) ≠ Nt_Text (imported_note "there" 5 (long " and never run that")).
Proof. split; [vm_compute; reflexivity | vm_compute; discriminate]. Qed.
