(* ===== verification/Retrieval.v ===== *)
(** Retrieval, [src/internal/retrieval/slice.go], [retriever.go] and
    [repomap.go]: lexical anchors, graph expansion and mandatory impact slots,
    packed under a budget into the packet an engine is shown.  The full-text
    query, the graph's rows and the notes' YAML are parameters. *)
From Stdlib Require QArith.
From S2P Require Import Memory.
From S2P Require Import Prelude GoStrings GoPath Policy Worktree Graph.

Open Scope string_scope.
Open Scope list_scope.
Open Scope nat_scope.

(** A relevance score, a float64 in the code: only compared. *)
Notation relevance := QArith_base.Q.
Definition score_gt (a b : relevance) : bool := match QArith_base.Qcompare a b with Gt => true | _ => false end.

(** ** Slices *)

(** [retrieval/slice.go:21-34 Origin] *)
Definition Origin := string.
Definition OriginAnchor : Origin := "lexical_anchor".
Definition OriginGraph : Origin := "graph_expansion".
Definition OriginImpact : Origin := "impact_mandatory".
Definition OriginExplicit : Origin := "explicit".

(** [retrieval/slice.go:36-60 Slice] *)
Record Slice := mk_full_slice {
  Sl_Workspace : string; Sl_Repository : string; Sl_Worktree : string; Sl_Path : string; Sl_Symbol : string;
  Sl_Hash : string; Sl_Index : Z; Sl_Node : Z; Sl_Kind : string; StartLine : Z; EndLine : Z;
  Sl_Signature : string; Sl_Body : string; Sl_Origin : Origin; Sl_Score : relevance; Sl_Depth : nat;
  Sl_Via : string; Sl_Evidence : string }.
Definition with_body (body : string) (s : Slice) : Slice :=
  mk_full_slice (Sl_Workspace s) (Sl_Repository s) (Sl_Worktree s) (Sl_Path s) (Sl_Symbol s) (Sl_Hash s) (Sl_Index s)
    (Sl_Node s) (Sl_Kind s) (StartLine s) (EndLine s) (Sl_Signature s) body (Sl_Origin s) (Sl_Score s) (Sl_Depth s)
    (Sl_Via s) (Sl_Evidence s).

Definition str_len (s : string) : Z := Z.of_nat (String.length s).

(** [retrieval/slice.go:65-68 Slice.TokenEstimate] *)
Definition TokenEstimate (s : Slice) : Z :=
  (str_len (Sl_Signature s) + str_len (Sl_Body s) + str_len (Sl_Path s) + str_len (Sl_Symbol s)) / 4 + 8.

(** [retrieval/slice.go:71-87 Slice.Validate] *)
Definition Slice_Validate (s : Slice) : result unit :=
  let has := "retrieval: slice " +:+ Sl_Path s +:+ " has no " in
  if String.eqb (Sl_Workspace s) "" then Err (errorf (has +:+ "workspace_id"))
  else if String.eqb (Sl_Repository s) "" then Err (errorf (has +:+ "repository_id"))
  else if String.eqb (Sl_Path s) "" then Err (errorf ("retrieval: slice for " +:+ Sl_Symbol s +:+ " has no path"))
  else if String.eqb (Sl_Hash s) "" then Err (errorf (has +:+ "content hash"))
  else if Z.eqb (Sl_Index s) 0 then Err (errorf (has +:+ "index version"))
  else if String.eqb (Sl_Origin s) "" then Err (errorf (has +:+ "origin"))
  else Ok tt.

(** [retrieval/slice.go:92-96 ForeignSliceError] *)
Definition ForeignSliceError (active : string) (s : Slice) : error :=
  errorf ("retrieval: slice " +:+ Sl_Path s +:+ " belongs to workspace " +:+ Sl_Workspace s +:+
          ", active task is in " +:+ active +:+ "; rejected").

(** [retrieval/slice.go:109-123 Guard] one slice. *)
Definition guard_slice (active : string) (s : Slice) : result unit :=
  if negb (String.eqb (Sl_Workspace s) active) then Err (ForeignSliceError active s) else Slice_Validate s.

(** [retrieval/slice.go:109-123 Guard] *)
Fixpoint Guard (active : string) (l : list Slice) : list Slice * list error :=
  match l with
  | [] => ([], [])
  | s :: l =>
      let '(kept, rejected) := Guard active l in
      match guard_slice active s with Ok _ => (s :: kept, rejected) | Err e => (kept, e :: rejected) end
  end.

(** ** Requests and packets *)

(** [retrieval/retriever.go:109-128 Request] *)
Record RRequest := mk_full_request {
  Rq_Root : string; Rq_Query : string; Rq_Symbols : list string; Rq_MaxAnchors : Z; Rq_ExpandDepth : Z;
  Rq_ExpandKinds : list EdgeKind; Rq_ImpactOf : list string; Rq_ImpactChange : option ChangeKind; Rq_TokenBudget : Z }.
(** A request that leaves the number of anchors and the edge kinds to the default. *)
Definition mk_rrequest (root query : string) (symbols : list string) (depth : Z) (impactOf : list string)
    (change : option ChangeKind) (budget : Z) : RRequest :=
  mk_full_request root query symbols 0 depth [] impactOf change budget.

(** [retrieval/retriever.go:133-133 DefaultTokenBudget] *)
Definition DefaultTokenBudget : Z := 6000.

(** [retrieval/retriever.go:137-161 Packet] *)
Record Packet := mk_full_packet {
  Pk_ProjectNotes : list ProjectNote; Pk_Workspace : string; Pk_Slices : list Slice; Pk_Tokens : Z; Pk_Budget : Z;
  Pk_Rejected : list string; Pk_Dropped : nat; Pk_Impact : option Impact; Pk_Notes : list Note; Pk_NotesDropped : nat }.
(** A packet of slices without notes. *)
Definition mk_packet (slices : list Slice) (tokens : Z) (rejected : list string) (impact : option Impact) : Packet :=
  mk_full_packet [] "" slices tokens 0 rejected 0 impact [] 0.
Definition set_slices (slices : list Slice) (p : Packet) : Packet :=
  mk_full_packet (Pk_ProjectNotes p) (Pk_Workspace p) slices (Pk_Tokens p) (Pk_Budget p) (Pk_Rejected p) (Pk_Dropped p)
    (Pk_Impact p) (Pk_Notes p) (Pk_NotesDropped p).

(** ** The full-text query *)

(** [retrieval/retriever.go:359-362 ftsQuery] which characters a term may hold;
    the bytes of a rune outside ASCII separate like any other. *)
Definition term_char (c : Ascii.ascii) : bool :=
  let n := Ascii.nat_of_ascii c in
  contains_str "_./-" (String c "") ||
  (97 <=? n) && (n <=? 122) || (65 <=? n) && (n <=? 90) || (48 <=? n) && (n <=? 57).
(** [strings.FieldsFunc(s, not a term character)]. *)
Fixpoint term_fields (word : string) (s : string) : list string :=
  match s with
  | EmptyString => if String.eqb word "" then [] else [word]
  | String c s => if term_char c then term_fields (word +:+ String c "") s
                  else (if String.eqb word "" then id else cons word) (term_fields "" s)
  end.
Definition fts_term (f : string) : string := dq +:+ str_replace_all dq (dq +:+ dq) f +:+ dq.
(** [retrieval/retriever.go:356-372 ftsQuery] *)
Definition ftsQuery (q : string) : string :=
  join " OR " (fts_term <$> List.filter (λ f, 2 <=? String.length f) (term_fields "" q)).

(** ** Building a packet *)

(** [retrieval/retriever.go:396-414 Retriever.sliceFromNode] *)
Definition IndexerVersion : Z := 1.
(** [retrieval/retriever.go:396-414 Retriever.sliceFromNode] *)
Definition sliceFromNode (n : Node) (origin : Origin) (score : relevance) (depth : nat) (via ev : string) : Slice :=
  mk_full_slice (N_Workspace n) (N_Repository n) (N_Worktree n)
    (if String.eqb (N_Path n) "" then N_FQN n else N_Path n) (N_Name n)
    (if String.eqb (N_ContentHash n) "" then "fqn:" +:+ N_FQN n else N_ContentHash n) IndexerVersion (N_ID n) (N_Kind n)
    (N_StartLine n) (N_EndLine n) (N_Signature n) "" origin score depth via ev.

(** [retrieval/retriever.go:416-426 nodeIDs] *)
Definition nodeIDs (slices : list Slice) : list Z := dedup (List.filter (λ i, negb (Z.eqb i 0)) (Sl_Node <$> slices)).

(** [retrieval/retriever.go:496-503 sortByScore] *)
Definition score_less (a b : Slice) : bool :=
  if negb (String.eqb (Sl_Origin a) (Sl_Origin b)) then false else score_gt (Sl_Score a) (Sl_Score b).
Definition sortByScore : list Slice → list Slice := stable_sort score_less.

(** [retrieval/retriever.go:485-487 noteTokens] *)
Definition noteTokens (n : Note) : Z :=
  (str_len (Nt_Text n) + str_len (Pv_Source (Nt_Prov n)) + str_len (Nt_Kind n)) / 4 + 8.

(** [retrieval/retriever.go:50-50 MemoryBudgetFraction] of a budget, truncated;
    the product of a float64 with 0.15 has the same integer part. *)
Definition memory_share (budget : Z) : Z := budget * 15 / 100.
(** [retrieval/retriever.go:65-65 GraphBudgetFraction] of a budget, truncated. *)
Definition graph_share (budget : Z) : Z := budget * 33 / 100.

(** A row of the full-text query. *)
Record anchor_row := mk_anchor {
  An_Repository : string; An_Path : string; An_Start : Z; An_End : Z; An_Hash : string; An_Index : Z; An_Worktree : string;
  An_Body : string; An_Score : relevance }.

(** [retrieval/retriever.go:338-349 Retriever.anchors] one row. *)
Definition anchor_slice (ws : string) (r : anchor_row) : Slice :=
  mk_full_slice ws (An_Repository r) (An_Worktree r) (An_Path r) (An_Path r) (An_Hash r) (An_Index r) 0 "" (An_Start r) (An_End r)
    "" (An_Body r) OriginAnchor (An_Score r) 0 "" "".

(** What the packing loop keeps: the packet, the nodes seen, the tokens the
    expansion has taken. *)
Record packing := mk_packing { pg_packet : Packet; pg_seen : list Z; pg_graph : Z }.

Definition packed (s : Slice) (p : Packet) : Packet :=
  mk_full_packet (Pk_ProjectNotes p) (Pk_Workspace p) (Pk_Slices p ++ [s]) (Pk_Tokens p + TokenEstimate s) (Pk_Budget p)
    (Pk_Rejected p) (Pk_Dropped p) (Pk_Impact p) (Pk_Notes p) (Pk_NotesDropped p).
Definition dropped (p : Packet) : Packet :=
  mk_full_packet (Pk_ProjectNotes p) (Pk_Workspace p) (Pk_Slices p) (Pk_Tokens p) (Pk_Budget p)
    (Pk_Rejected p) (S (Pk_Dropped p)) (Pk_Impact p) (Pk_Notes p) (Pk_NotesDropped p).
Definition noted (n : Note) (p : Packet) : Packet :=
  mk_full_packet (Pk_ProjectNotes p) (Pk_Workspace p) (Pk_Slices p) (Pk_Tokens p + noteTokens n) (Pk_Budget p)
    (Pk_Rejected p) (Pk_Dropped p) (Pk_Impact p) (Pk_Notes p ++ [n]) (Pk_NotesDropped p).
Definition note_dropped (p : Packet) : Packet :=
  mk_full_packet (Pk_ProjectNotes p) (Pk_Workspace p) (Pk_Slices p) (Pk_Tokens p) (Pk_Budget p)
    (Pk_Rejected p) (Pk_Dropped p) (Pk_Impact p) (Pk_Notes p) (S (Pk_NotesDropped p)).

(** [retrieval/retriever.go:281-311 Retriever.Build] one slice. *)
Definition pack_one (budget : Z) (st : packing) (s : Slice) : packing :=
  let cost := TokenEstimate s in
  let drop := mk_packing (dropped (pg_packet st)) in
  if Sensitive (Sl_Path s) then drop (pg_seen st) (pg_graph st)
  else if negb (Z.eqb (Sl_Node s) 0) && mem (Sl_Node s) (pg_seen st) then st
  else
    let seen := if Z.eqb (Sl_Node s) 0 then pg_seen st else Sl_Node s :: pg_seen st in
    let expanded := String.eqb (Sl_Origin s) OriginGraph in
    if expanded && Z.ltb (graph_share budget) (pg_graph st + cost) then drop seen (pg_graph st)
    else if negb (String.eqb (Sl_Origin s) OriginImpact) && Z.ltb budget (Pk_Tokens (pg_packet st) + cost)
    then drop seen (pg_graph st)
    else mk_packing (packed s (pg_packet st)) seen (if expanded then pg_graph st + cost else pg_graph st).

(** [retrieval/retriever.go:467-478 Retriever.addNotes] one note; [spent] so far. *)
Definition add_note (budget : Z) (st : Packet * Z) (n : Note) : Packet * Z :=
  let '(p, spent) := st in
  if Z.ltb budget (spent + noteTokens n) then (note_dropped p, spent) else (noted n p, spent + noteTokens n)%Z.

(** [retrieval/retriever.go:229-237 Retriever.Build] one project card. *)
Definition add_card (budget : Z) (st : list ProjectNote * nat * Z) (n : ProjectNote) : list ProjectNote * nat * Z :=
  let '(kept, lost, spent) := st in
  let cost := (str_len (Pn_Text n) / 3 + 100)%Z in
  if Stale n || Z.ltb (memory_share budget) (spent + cost) then (kept, S lost, spent) else (kept ++ [n], lost, spent + cost)%Z.

Section retriever.
Context (run_query : list Edge → result (list Edge)) (run_nodes : list Node → result (list Node)).
Context (fts : string → Z → result (list anchor_row)).         (* the full-text query *)
Context (repository : result string).                          (* the first repository's id *)
Context (yaml_read : string → result (list Note)) (yaml_header_of : string → result ProjectHeader).
Context (t : tables) (f : fs) (notes : option Store).

Notation NodesByName := (NodesByName t run_nodes).
Notation ws := (t_workspace t).

(** [retrieval/retriever.go:317-352 Retriever.anchors] *)
Definition anchors (query : string) (limit : Z) : result (list Slice) :=
  let match_ := ftsQuery query in
  if String.eqb match_ "" then Ok [] else
  wrap_r "retrieval: lexical anchors: " (fts match_ limit) ≫= λ rows : list anchor_row, Ok (anchor_slice ws <$> rows).

(** The nodes of each name in turn, ten at most. *)
Fixpoint named_nodes (symbols : list string) : result (list Node) :=
  match symbols with
  | [] => Ok []
  | s :: symbols => ns ← NodesByName s [] 10; rest ← named_nodes symbols; Ok (ns ++ rest)
  end.

(** [retrieval/retriever.go:176-192 Retriever.Build] the anchors, then the named symbols. *)
Definition seeds_of (req : RRequest) : result (list Slice) :=
  let limit := if Z.leb (Rq_MaxAnchors req) 0 then 20%Z else Rq_MaxAnchors req in
  found ← (if String.eqb (Rq_Query req) "" then Ok [] else anchors (Rq_Query req) limit);
  ns ← named_nodes (Rq_Symbols req);
  Ok (found ++ ((λ n, sliceFromNode n OriginExplicit (QArith_base.inject_Z 1) 0 "" "") <$> ns)).

(** [retrieval/retriever.go:209-210 Retriever.Build] a reached node. *)
Definition expanded_slice (r : Reached) : Slice :=
  sliceFromNode (Re_Node r) OriginGraph (QArith_base.Qmake 1 (Pos.of_nat (2 * Depth r))) (Depth r) (Via r) (show_evidence (Re_Evidence r)).

(** [retrieval/retriever.go:195-212 Retriever.Build] *)
Definition expansion (req : RRequest) (candidates : list Slice) : result (list Slice) :=
  if Z.leb (Rq_ExpandDepth req) 0 then Ok [] else
  match nodeIDs candidates with
  | [] => Ok []
  | seeds =>
      reached ← Traverse run_query t (mk_query seeds Forward (Rq_ExpandKinds req) (Rq_ExpandDepth req) 500 []);
      Ok (expanded_slice <$> List.filter (λ r, negb (Depth r =? 0)) reached)
  end.

(** [retrieval/retriever.go:216-239 Retriever.Build] the project cards. *)
Definition cards (req : RRequest) (budget : Z) : result (list ProjectNote * nat * Z) :=
  if String.eqb (Rq_Root req) "" then Ok ([], 0, 0%Z) else
  repoID ← repository;
  loaded ← LoadProject yaml_header_of f (Rq_Root req) repoID (λ name, ns ← NodesByName name [] 1; Ok (negb (length ns =? 0)));
  Ok (foldl (add_card budget) ([], 0, 0%Z) loaded).

(** [retrieval/retriever.go:374-394 Retriever.impact] *)
Definition impact (symbols : list string) (change : option ChangeKind) : result Impact :=
  ns ← named_nodes symbols;
  imp ← ImpactOf run_query t (N_ID <$> ns) (default ChangeBehaviour change);
  Ok (PublicImpact imp).

(** [retrieval/retriever.go:252-254 Retriever.Build] a consumer's slot. *)
Definition consumer_slice (c : Consumer) : Slice :=
  sliceFromNode (Co_Node c) OriginImpact (QArith_base.inject_Z 1) (Co_Depth c) (Co_Via c) (show_evidence (Co_Evidence c)).

(** [retrieval/retriever.go:452-480 Retriever.addNotes] newest first within a kind. *)
Definition addNotes (budget : Z) (p : Packet) : Packet :=
  match notes with
  | Some s =>
      if Z.leb budget 0 then p else
      match All yaml_read f s with
      | Err _ => p
      | Ok all => (foldl (add_note budget) (p, 0%Z) (concat ((λ kn, rev kn.2) <$> all))).1
      end
  | None => p
  end.

(** [retrieval/retriever.go:165-313 Retriever.Build] *)
Definition Build (req : RRequest) : result Packet :=
  let budget := if Z.leb (Rq_TokenBudget req) 0 then DefaultTokenBudget else Rq_TokenBudget req in
  seeds ← seeds_of req;
  reached ← expansion req seeds;
  '(kept_cards, lost, spent) ← cards req budget;
  imp ← (match Rq_ImpactOf req with [] => Ok None | symbols => i ← impact symbols (Rq_ImpactChange req); Ok (Some i) end);
  let mandatory := match imp with Some i => consumer_slice <$> Consumers i | None => [] end in
  let '(kept, rejected) := Guard ws (mandatory ++ sortByScore (seeds ++ reached)) in
  let p := mk_full_packet kept_cards ws [] spent budget (err_msg <$> rejected) 0 imp [] lost in
  let p := addNotes (memory_share budget) p in
  Ok (pg_packet (foldl (pack_one budget) (mk_packing p [] 0) kept)).

(** [retrieval/retriever.go:90-106 Retriever.skeletonOf] *)
Definition skeletonOf (path : string) : result (list Slice) :=
  rows ← run_nodes (filter (λ n, N_FileID n ≠ 0%Z ∧ N_Path n = path) (map_to_list (t_nodes t)).*2);
  let less a b := if Z.eqb (N_StartLine a) (N_StartLine b) then Z.ltb (N_ID a) (N_ID b) else Z.ltb (N_StartLine a) (N_StartLine b) in
  Ok ((λ n, mk_full_slice "" "" "" path (N_Name n) "" 0 0 "" (N_StartLine n) (N_EndLine n) (N_Signature n) "" "" (QArith_base.inject_Z 0) 0 "" "")
        <$> take 500 (stable_sort less rows)).
(** [retrieval/retriever.go:72-85 Retriever.Skeleton] *)
Fixpoint Skeleton (paths : list string) : result (list Slice) :=
  match paths with
  | [] => Ok []
  | p :: paths =>
      if Sensitive p then Skeleton paths
      else slices ← skeletonOf p; rest ← Skeleton paths; Ok (slices ++ rest)
  end.
End retriever.

(** ** Isolation *)

Lemma Guard_elem active l s : s ∈ (Guard active l).1 ↔ s ∈ l ∧ guard_slice active s = Ok tt.
Proof.
  induction l as [|x l IH]; cbn [Guard]; [set_solver |].
  destruct (Guard active l) as [kept rejected]. cbn [fst] in IH. destruct (guard_slice active x) as [[]|e] eqn:E; cbn [fst].
  - rewrite !elem_of_cons, IH. naive_solver.
  - rewrite IH, elem_of_cons. split; [naive_solver |]. intros [[->|?] ?]; [congruence | done].
Qed.
Lemma Guard_app active l k : (Guard active (l ++ k)).1 = (Guard active l).1 ++ (Guard active k).1.
Proof.
  induction l as [|x l IH]; cbn [app Guard]; [done |].
  destruct (Guard active (l ++ k)) as [a b], (Guard active l) as [c d]. cbn [fst] in IH.
  destruct (guard_slice active x); cbn [fst]; by rewrite IH.
Qed.
Lemma Guard_all active l : length (Guard active l).1 + length (Guard active l).2 = length l.
Proof.
  induction l as [|x l IH]; cbn [Guard]; [done |]. destruct (Guard active l) as [a b].
  cbn [fst snd] in IH. destruct (guard_slice active x); cbn [fst snd length]; lia.
Qed.
Lemma guard_slice_ok active s : guard_slice active s = Ok tt → Sl_Workspace s = active ∧ Slice_Validate s = Ok tt.
Proof. unfold guard_slice. destruct (String.eqb_spec (Sl_Workspace s) active); [done | by intros [=]]. Qed.

Lemma sortByScore_elem s l : s ∈ sortByScore l ↔ s ∈ l.
Proof. apply elem_of_stable_sort. Qed.

(** ** Packing *)

Definition cost_of (l : list Slice) : Z := foldr (λ s n, TokenEstimate s + n)%Z 0%Z l.
Lemma cost_of_app l k : cost_of (l ++ k) = (cost_of l + cost_of k)%Z.
Proof. induction l as [|s l IH]; cbn; [done |]. fold (cost_of (l ++ k)) (cost_of l). rewrite IH. lia. Qed.
(** What the notes of a packet cost, and its project cards. *)
Definition notes_cost (l : list Note) : Z := foldr (λ n c, noteTokens n + c)%Z 0%Z l.
Definition cards_cost (l : list ProjectNote) : Z := foldr (λ n c, str_len (Pn_Text n) / 3 + 100 + c)%Z 0%Z l.
Lemma notes_cost_snoc l n : notes_cost (l ++ [n]) = (notes_cost l + noteTokens n)%Z.
Proof. induction l as [|m l IH]; cbn; [lia |]. fold (notes_cost (l ++ [n])) (notes_cost l). rewrite IH. lia. Qed.
Lemma cards_cost_snoc l n : cards_cost (l ++ [n]) = (cards_cost l + (str_len (Pn_Text n) / 3 + 100))%Z.
Proof. induction l as [|m l IH]; cbn; [lia |]. fold (cards_cost (l ++ [n])) (cards_cost l). rewrite IH. lia. Qed.
Definition is_graph (s : Slice) : Prop := Sl_Origin s = OriginGraph.
Definition is_impact (s : Slice) : Prop := Sl_Origin s = OriginImpact.
#[export] Instance is_graph_dec s : Decision (is_graph s). Proof. unfold is_graph. apply _. Defined.
#[export] Instance is_impact_dec s : Decision (is_impact s). Proof. unfold is_impact. apply _. Defined.

(** The packing loop after the slices [done] were offered to it. *)
Record packing_inv (budget base : Z) (done : list Slice) (st : packing) : Prop := {
  pi_from : Forall (λ s, s ∈ done ∧ Sensitive (Sl_Path s) = false) (Pk_Slices (pg_packet st));
  pi_tokens : Pk_Tokens (pg_packet st) = (base + cost_of (Pk_Slices (pg_packet st)))%Z;
  pi_graph : pg_graph st = cost_of (filter is_graph (Pk_Slices (pg_packet st)));
  pi_share : (pg_graph st ≤ graph_share budget)%Z;
  pi_fits : (Pk_Tokens (pg_packet st) ≤ budget)%Z ∨ Forall is_impact (Pk_Slices (pg_packet st)) }.

Lemma packing_inv_more budget base done done' st : done ⊆ done' → packing_inv budget base done st → packing_inv budget base done' st.
Proof.
  intros Hs [H1 H2 H3 H4 H5]. split; [|done..]. eapply Forall_impl; [exact H1 |]. intros s [? ?]. split; [by apply Hs | done].
Qed.

(** Dropping a slice or skipping it leaves the slices and the tokens alone. *)
Lemma packing_inv_same budget base done st st' :
  Pk_Slices (pg_packet st') = Pk_Slices (pg_packet st) → Pk_Tokens (pg_packet st') = Pk_Tokens (pg_packet st) →
  pg_graph st' = pg_graph st → packing_inv budget base done st → packing_inv budget base done st'.
Proof. intros E1 E2 E3 [H1 H2 H3 H4 H5]. by split; rewrite ?E1, ?E2, ?E3. Qed.

Lemma pack_one_inv budget base done s st :
  packing_inv budget base done st → (is_impact s → Forall is_impact (Pk_Slices (pg_packet st))) →
  packing_inv budget base (done ++ [s]) (pack_one budget st s).
Proof.
  intros Hi Himp. assert (Hm : packing_inv budget base (done ++ [s]) st) by (eapply packing_inv_more; [|exact Hi]; set_solver).
  unfold pack_one. destruct (Sensitive _) eqn:Es; [by eapply packing_inv_same; [..|exact Hm] |].
  destruct (_ && mem _ _); [done |]. set (seen := if Z.eqb (Sl_Node s) 0 then pg_seen st else Sl_Node s :: pg_seen st).
  destruct (String.eqb_spec (Sl_Origin s) OriginGraph) as [Hg|Hg]; cbn [andb].
  - destruct (Z.ltb_spec (graph_share budget) (pg_graph st + TokenEstimate s)); [by eapply packing_inv_same; [..|exact Hm] |].
    rewrite Hg. cbn [String.eqb negb andb]. destruct (Z.ltb_spec budget (Pk_Tokens (pg_packet st) + TokenEstimate s)).
    { by eapply packing_inv_same; [..|exact Hm]. }
    destruct Hm as [H1 H2 H3 H4 H5]. split; cbn.
    + apply Forall_app_2; [done |]. constructor; [|done]. split; [set_solver | done].
    + rewrite cost_of_app. cbn. lia.
    + rewrite filter_app, cost_of_app, filter_cons_True by done. cbn. lia.
    + lia.
    + left. lia.
  - destruct (negb _ && _) eqn:Eb; [by eapply packing_inv_same; [..|exact Hm] |].
    destruct Hm as [H1 H2 H3 H4 H5]. split; cbn.
    + apply Forall_app_2; [done |]. constructor; [|done]. split; [set_solver | done].
    + rewrite cost_of_app. cbn. lia.
    + rewrite filter_app, cost_of_app, filter_cons_False by done. cbn. lia.
    + done.
    + destruct (String.eqb_spec (Sl_Origin s) OriginImpact) as [Ho|Ho]; cbn [negb andb] in Eb.
      * right. apply Forall_app_2; [by apply Himp | by constructor].
      * apply Z.ltb_ge in Eb. by left.
Qed.

Lemma pack_impact budget base done l st :
  packing_inv budget base done st → Forall is_impact (Pk_Slices (pg_packet st)) → Forall is_impact l →
  packing_inv budget base (done ++ l) (foldl (pack_one budget) st l) ∧
  Forall is_impact (Pk_Slices (pg_packet (foldl (pack_one budget) st l))).
Proof.
  revert done st. induction l as [|s l IH]; intros done st Hi Hf Hl; cbn [foldl]; [by rewrite app_nil_r |].
  apply Forall_cons in Hl as [Hs Hl]. assert (Ha : done ++ s :: l = (done ++ [s]) ++ l) by (by rewrite <- app_assoc). rewrite Ha.
  apply IH; [by apply pack_one_inv | | done]. unfold pack_one.
  destruct (Sensitive _); [done |]. destruct (_ && mem _ _); [done |]. destruct (_ && Z.ltb _ _); [done |].
  destruct (_ && _); [done |]. cbn. apply Forall_app_2; [done | by constructor].
Qed.
Lemma pack_others budget base done l st :
  packing_inv budget base done st → Forall (λ s, ¬ is_impact s) l →
  packing_inv budget base (done ++ l) (foldl (pack_one budget) st l).
Proof.
  revert done st. induction l as [|s l IH]; intros done st Hi Hl; cbn [foldl]; [by rewrite app_nil_r |].
  apply Forall_cons in Hl as [Hs Hl]. assert (Ha : done ++ s :: l = (done ++ [s]) ++ l) by (by rewrite <- app_assoc). rewrite Ha.
  apply IH; [|done]. by apply pack_one_inv.
Qed.

(** Every slot was filled: by the slice itself or by an earlier one of its node. *)
Definition covered (slices : list Slice) (s : Slice) : Prop :=
  ∃ x, x ∈ slices ∧ (x = s ∨ (Sl_Node s ≠ 0%Z ∧ Sl_Node x = Sl_Node s)).

Lemma covered_more l k s : l ⊆ k → covered l s → covered k s.
Proof. intros H (x & Hx & Ho). exists x. split; [by apply H | done]. Qed.

Lemma pack_one_grows budget st s : Pk_Slices (pg_packet st) ⊆ Pk_Slices (pg_packet (pack_one budget st s)).
Proof.
  unfold pack_one. destruct (Sensitive _); [done |]. destruct (_ && mem _ _); [done |].
  destruct (_ && Z.ltb _ _); [done |]. destruct (_ && _); [done |]. cbn. set_solver.
Qed.
Lemma pack_grows budget l st : Pk_Slices (pg_packet st) ⊆ Pk_Slices (pg_packet (foldl (pack_one budget) st l)).
Proof.
  revert st. induction l as [|s l IH]; intros st; cbn [foldl]; [done |].
  etransitivity; [apply pack_one_grows | apply IH].
Qed.

(** A mandatory slot that is neither sensitive nor seen is packed. *)
Lemma pack_one_impact budget st s :
  is_impact s → Sensitive (Sl_Path s) = false → (negb (Z.eqb (Sl_Node s) 0) && mem (Sl_Node s) (pg_seen st)) = false →
  pack_one budget st s = mk_packing (packed s (pg_packet st)) (if Z.eqb (Sl_Node s) 0 then pg_seen st else Sl_Node s :: pg_seen st) (pg_graph st).
Proof. unfold is_impact, pack_one. intros -> -> ->. reflexivity. Qed.

Lemma pack_impact_covers budget l st :
  Forall is_impact l → (∀ i, i ∈ pg_seen st → i ≠ 0%Z ∧ i ∈ Sl_Node <$> Pk_Slices (pg_packet st)) →
  ∀ s, s ∈ l → Sensitive (Sl_Path s) = false → covered (Pk_Slices (pg_packet (foldl (pack_one budget) st l))) s.
Proof.
  revert st. induction l as [|x l IH]; intros st Hl Hseen s Hs Hv; [by apply not_elem_of_nil in Hs |].
  apply Forall_cons in Hl as [Hx Hl]. cbn [foldl].
  assert (Hx' : ∀ i, i ∈ pg_seen (pack_one budget st x) → i ≠ 0%Z ∧ i ∈ Sl_Node <$> Pk_Slices (pg_packet (pack_one budget st x))).
  { destruct (Sensitive (Sl_Path x)) eqn:Ex; [unfold pack_one; by rewrite Ex |].
    destruct (negb (Z.eqb (Sl_Node x) 0) && mem (Sl_Node x) (pg_seen st)) eqn:Em; [unfold pack_one; by rewrite Ex, Em |].
    rewrite (pack_one_impact _ _ _ Hx Ex Em). cbn [pg_packet packed Pk_Slices pg_seen]. intros i Hi.
    rewrite fmap_app, elem_of_app. destruct (Z.eqb_spec (Sl_Node x) 0); [destruct (Hseen i Hi); by auto |].
    apply elem_of_cons in Hi as [->|Hi]; [split; [done | right; by apply list_elem_of_singleton] | destruct (Hseen i Hi); by auto]. }
  apply elem_of_cons in Hs as [->|Hs]; [|by apply IH].
  eapply covered_more; [apply pack_grows |].
  destruct (negb (Z.eqb (Sl_Node x) 0) && mem (Sl_Node x) (pg_seen st)) eqn:Em.
  - unfold pack_one. rewrite Hv, Em. apply andb_true_iff in Em as [Hn%negb_true_iff%Z.eqb_neq Hm%mem_true]. destruct (Hseen _ Hm) as [_ (y & Hy & Hin)%list_elem_of_fmap].
    exists y. split; [done | by right].
  - rewrite (pack_one_impact _ _ _ Hx Hv Em). exists x. split; [cbn; set_solver | by left].
Qed.

(** Packing slices leaves the rest of the packet alone. *)
Definition frame (p : Packet) := (Pk_Impact p, Pk_Budget p, Pk_Notes p, Pk_ProjectNotes p).
Lemma pack_keeps budget l st : frame (pg_packet (foldl (pack_one budget) st l)) = frame (pg_packet st).
Proof.
  revert st. induction l as [|s l IH]; intros st; cbn [foldl]; [done |]. rewrite IH. unfold pack_one.
  destruct (Sensitive _); [done |]. destruct (_ && mem _ _); [done |]. destruct (_ && Z.ltb _ _); [done |]. by destruct (_ && _).
Qed.

Lemma add_notes_keep budget l p spent : let q := (foldl (add_note budget) (p, spent) l).1 in
  Pk_Slices q = Pk_Slices p ∧ Pk_Impact q = Pk_Impact p ∧ Pk_Budget q = Pk_Budget p ∧ Pk_ProjectNotes q = Pk_ProjectNotes p ∧
  (Pk_Tokens q - Pk_Tokens p = (foldl (add_note budget) (p, spent) l).2 - spent)%Z ∧
  (notes_cost (Pk_Notes q) - notes_cost (Pk_Notes p) = (foldl (add_note budget) (p, spent) l).2 - spent)%Z ∧
  ((spent ≤ budget)%Z → ((foldl (add_note budget) (p, spent) l).2 ≤ budget)%Z).
Proof.
  revert p spent. induction l as [|n l IH]; intros p spent; cbn [foldl]; cbn zeta; [cbn; split_and!; try done; lia |].
  assert (E : add_note budget (p, spent) n = if Z.ltb budget (spent + noteTokens n) then (note_dropped p, spent) else (noted n p, spent + noteTokens n)%Z) by done.
  rewrite !E. destruct (Z.ltb_spec budget (spent + noteTokens n)).
  - destruct (IH (note_dropped p) spent) as (-> & -> & -> & -> & Ht & Hn & Hb). cbn [Pk_Tokens Pk_Notes note_dropped] in Ht, Hn. done.
  - destruct (IH (noted n p) (spent + noteTokens n)%Z) as (-> & -> & -> & -> & Ht & Hn & Hb). cbn [Pk_Tokens Pk_Notes noted] in Ht, Hn.
    rewrite notes_cost_snoc in Hn. split_and!; try done; [lia | lia |]. intros _. by apply Hb.
Qed.

Section built.
Context (run_query : list Edge → result (list Edge)) (run_nodes : list Node → result (list Node)).
Context (fts : string → Z → result (list anchor_row)) (repository : result string).
Context (yaml_read : string → result (list Note)) (yaml_header_of : string → result ProjectHeader).
Context (t : tables) (f : fs) (notes : option Store).
Notation Build := (Build run_query run_nodes fts repository yaml_read yaml_header_of t f notes).
Notation addNotes := (addNotes yaml_read f notes).

Lemma addNotes_keeps budget p : let q := addNotes budget p in
  Pk_Slices q = Pk_Slices p ∧ Pk_Impact q = Pk_Impact p ∧ Pk_Budget q = Pk_Budget p ∧ Pk_ProjectNotes q = Pk_ProjectNotes p ∧
  (Pk_Tokens q - Pk_Tokens p = notes_cost (Pk_Notes q) - notes_cost (Pk_Notes p))%Z ∧
  ((0 ≤ budget)%Z → (Pk_Tokens q ≤ Pk_Tokens p + budget)%Z).
Proof.
  unfold Retrieval.addNotes. destruct notes as [s|]; [|cbn; split_and!; try done; lia].
  destruct (Z.leb_spec budget 0); [cbn; split_and!; try done; lia |].
  destruct (All _ _ _) as [all|]; [|cbn; split_and!; try done; lia].
  destruct (add_notes_keep budget (concat ((λ kn : Kind * list Note, rev kn.2) <$> all)) p 0) as (E1 & E2 & E3 & E4 & Et & En & Eb).
  cbv zeta. split_and!; try done; [lia |]. intros Hb. apply Eb in Hb. lia.
Qed.

Lemma seeds_origin req l : seeds_of run_nodes fts t req = Ok l → Forall (λ s, ¬ is_impact s) l.
Proof.
  unfold seeds_of. intros (found & Hf & (ns & _ & [= <-])%rbind_ok)%rbind_ok. apply Forall_app_2.
  - destruct (String.eqb _ _); [by injection Hf as <- |]. unfold anchors in Hf.
    destruct (String.eqb _ _); [by injection Hf as <- |]. apply rbind_ok in Hf as (rows & _ & [= <-]).
    apply Forall_fmap, Forall_true. done.
  - apply Forall_fmap, Forall_true. done.
Qed.
Lemma expansion_origin req seeds l : expansion run_query t req seeds = Ok l → Forall (λ s, ¬ is_impact s) l.
Proof.
  unfold expansion. destruct (Z.leb _ _); [by intros [= <-] |]. destruct (nodeIDs seeds); [by intros [= <-] |].
  intros (reached & _ & [= <-])%rbind_ok. apply Forall_fmap, Forall_true. done.
Qed.

Lemma add_cards_cost budget l st : (0 ≤ memory_share budget)%Z → (st.2 ≤ memory_share budget)%Z → st.2 = cards_cost st.1.1 →
  ((foldl (add_card budget) st l).2 ≤ memory_share budget)%Z ∧ (foldl (add_card budget) st l).2 = cards_cost (foldl (add_card budget) st l).1.1.
Proof.
  intros Hb. revert st. induction l as [|n l IH]; intros [[kept lost] spent] Hs Hc; cbn [foldl]; [done |].
  cbn [fst snd] in Hs, Hc. unfold add_card at 2 4 6. destruct (Stale n); [by apply IH |]. cbn [orb].
  destruct (Z.ltb_spec (memory_share budget) (spent + (str_len (Pn_Text n) / 3 + 100))); [by apply IH |].
  apply IH; cbn [fst snd]; [lia |]. rewrite cards_cost_snoc. lia.
Qed.

(** A built packet, taken apart: the mandatory slots are packed first, into a
    packet that holds no slice, then everything else. *)
Lemma Build_parts req p : Build req = Ok p → ∃ budget mandatory others p0,
  (0 < budget)%Z ∧ Pk_Budget p = budget ∧ (budget = Rq_TokenBudget req ∨ budget = DefaultTokenBudget) ∧
  mandatory = (match Pk_Impact p with Some i => consumer_slice <$> Consumers i | None => [] end) ∧
  Forall (λ s, ¬ is_impact s) others ∧ Pk_Slices p0 = [] ∧
  Pk_Tokens p0 = (cards_cost (Pk_ProjectNotes p) + notes_cost (Pk_Notes p))%Z ∧
  (cards_cost (Pk_ProjectNotes p) ≤ memory_share budget)%Z ∧ (notes_cost (Pk_Notes p) ≤ memory_share budget)%Z ∧
  p = pg_packet (foldl (pack_one budget) (foldl (pack_one budget) (mk_packing p0 [] 0) (Guard (t_workspace t) mandatory).1)
                   (Guard (t_workspace t) others).1).
Proof.
  unfold Retrieval.Build. set (budget := if Z.leb _ _ then _ else _).
  assert (Hb : (0 < budget)%Z ∧ (budget = Rq_TokenBudget req ∨ budget = DefaultTokenBudget)).
  { unfold budget. destruct (Z.leb_spec (Rq_TokenBudget req) 0); unfold DefaultTokenBudget; split; auto; lia. }
  intros (seeds & Hs & (reached & Hr & (((kept_cards & lost) & spent) & Hc & (imp & Hi & H)%rbind_ok)%rbind_ok)%rbind_ok)%rbind_ok.
  set (mandatory := match imp with Some i => consumer_slice <$> Consumers i | None => [] end) in H.
  set (others := sortByScore (seeds ++ reached)) in H.
  pose proof (Guard_app (t_workspace t) mandatory others) as Hg. destruct (Guard _ (mandatory ++ others)) as [kept rejected].
  injection H as <-. cbn [fst] in Hg. subst kept. rewrite foldl_app.
  set (p1 := mk_full_packet _ _ _ _ _ _ _ _ _ _). set (p0 := addNotes (memory_share budget) p1).
  destruct (addNotes_keeps (memory_share budget) p1) as (E1 & E2 & E3 & E4 & E5 & E6). fold p0 in E1, E2, E3, E4, E5, E6.
  assert (Hsh : (0 ≤ memory_share budget)%Z) by (unfold memory_share; apply Z.div_pos; lia).
  assert (Hcards : (spent ≤ memory_share budget)%Z ∧ spent = cards_cost kept_cards).
  { revert Hc. unfold cards. destruct (String.eqb _ _); [by intros [= <- <- <-] |].
    intros (repoID & _ & (loaded & _ & [= H])%rbind_ok)%rbind_ok.
    destruct (add_cards_cost budget loaded ([], 0, 0%Z) Hsh Hsh eq_refl) as [H1 H2]. rewrite H in H1, H2. done. }
  specialize (E6 Hsh). cbn [Pk_Tokens Pk_Notes Pk_ProjectNotes p1] in E4, E5, E6. change (notes_cost []) with 0%Z in E5.
  pose proof (pack_keeps budget (Guard (t_workspace t) others).1
              (foldl (pack_one budget) (mk_packing p0 [] 0) (Guard (t_workspace t) mandatory).1)) as K.
  rewrite (pack_keeps budget (Guard (t_workspace t) mandatory).1) in K. unfold frame in K. injection K as Ki Kb Kn Kp. cbn [pg_packet] in Ki, Kb, Kn, Kp.
  exists budget, mandatory, others, p0. rewrite Ki, Kb, Kn, Kp, E2, E3, E4.
  split_and!; try done; [apply Hb | apply Hb | | | |]; [|lia..].
  unfold others. apply Forall_forall. intros s [Hin|Hin]%sortByScore_elem%elem_of_app.
  - by apply (proj1 (Forall_forall _ _) (seeds_origin _ _ Hs)).
  - by apply (proj1 (Forall_forall _ _) (expansion_origin _ _ _ Hr)).
Qed.

(** The two halves of the packing loop, with their invariants. *)
Lemma Build_packed req p : Build req = Ok p → ∃ budget mandatory others p0,
  Pk_Budget p = budget ∧ (budget = Rq_TokenBudget req ∨ budget = DefaultTokenBudget) ∧
  mandatory = (match Pk_Impact p with Some i => consumer_slice <$> Consumers i | None => [] end) ∧
  Pk_Tokens p0 = (cards_cost (Pk_ProjectNotes p) + notes_cost (Pk_Notes p))%Z ∧
  (cards_cost (Pk_ProjectNotes p) ≤ memory_share budget)%Z ∧ (notes_cost (Pk_Notes p) ≤ memory_share budget)%Z ∧
  (∃ st, pg_packet st = p ∧ packing_inv budget (Pk_Tokens p0) (Guard (t_workspace t) (mandatory ++ others)).1 st) ∧
  ∀ s, s ∈ mandatory → guard_slice (t_workspace t) s = Ok tt → Sensitive (Sl_Path s) = false → covered (Pk_Slices p) s.
Proof.
  intros (budget & mandatory & others & p0 & Hpos & Hbud & Hor & Hm & Ho & Hs0 & Ht0 & Hcs & Hns & Hp)%Build_parts.
  exists budget, mandatory, others, p0. split_and!; try done.
  - set (st1 := foldl (pack_one budget) (mk_packing p0 [] 0) (Guard (t_workspace t) mandatory).1) in Hp.
    eexists. split; [symmetry; exact Hp |]. rewrite Guard_app.
    assert (Hmi : Forall is_impact (Guard (t_workspace t) mandatory).1).
    { apply Forall_forall. intros s [Hin _]%Guard_elem. rewrite Hm in Hin.
      destruct (Pk_Impact p); [|by apply not_elem_of_nil in Hin]. by apply list_elem_of_fmap in Hin as (c & -> & _). }
    assert (H0 : packing_inv budget (Pk_Tokens p0) [] (mk_packing p0 [] 0)).
    { split; cbn; rewrite ?Hs0; [done | cbn; lia | done | apply Z.div_pos; lia | by right]. }
    destruct (pack_impact budget (Pk_Tokens p0) [] _ _ H0 ltac:(by cbn; rewrite Hs0) Hmi) as [H1 _]. fold st1 in H1.
    rewrite app_nil_l in H1. apply pack_others; [done |].
    apply Forall_forall. intros s [Hin _]%Guard_elem. by apply (proj1 (Forall_forall _ _) Ho).
  - intros s Hin Hg Hsens. subst p. eapply covered_more; [apply pack_grows |]. apply pack_impact_covers; [| | |done].
    + apply Forall_forall. intros x [Hx _]%Guard_elem. rewrite Hm in Hx.
      destruct (Pk_Impact _); [|by apply not_elem_of_nil in Hx]. by apply list_elem_of_fmap in Hx as (c & -> & _).
    + intros i Hi. by apply not_elem_of_nil in Hi.
    + by apply Guard_elem.
Qed.

(** C39: A packet never crosses a workspace.  Every slice of a packet that is built
    belongs to the workspace of the retriever, carries its whole provenance and
    does not come from a file that may hold secrets - whatever the index, the
    full-text query and the graph returned. *)
Theorem Build_isolated req p s : Build req = Ok p → s ∈ Pk_Slices p →
  Sl_Workspace s = t_workspace t ∧ Slice_Validate s = Ok tt ∧ Sensitive (Sl_Path s) = false.
Proof.
  intros (budget & mandatory & others & p0 & _ & _ & _ & _ & _ & _ & (st & <- & [Hf _ _ _ _]) & _)%Build_packed Hs.
  apply (proj1 (Forall_forall _ _) Hf) in Hs as [[_ Hg]%Guard_elem Hv]. by apply guard_slice_ok in Hg as [? ?].
Qed.

(** C40: A packet stays within its budget, and what must be in it is.  Its tokens are
    exactly what its project cards, its notes and its slices cost, and the cards
    and the notes each take at most their share.  They exceed the budget only
    where nothing but mandatory slots was packed and those, with the cards and
    the notes, cost more than the budget - on their own, more than what the
    shares of the cards and the notes leave of it.  The expansion never takes
    more than its share; and every consumer of the planned change that may be
    shown has its slot. *)
Theorem Build_packs req p : Build req = Ok p →
  Pk_Tokens p = (cards_cost (Pk_ProjectNotes p) + notes_cost (Pk_Notes p) + cost_of (Pk_Slices p))%Z ∧
  (cards_cost (Pk_ProjectNotes p) ≤ memory_share (Pk_Budget p))%Z ∧ (notes_cost (Pk_Notes p) ≤ memory_share (Pk_Budget p))%Z ∧
  ((Pk_Tokens p ≤ Pk_Budget p)%Z ∨
   (Forall is_impact (Pk_Slices p) ∧ (Pk_Budget p - 2 * memory_share (Pk_Budget p) < cost_of (Pk_Slices p))%Z)) ∧
  (cost_of (filter is_graph (Pk_Slices p)) ≤ graph_share (Pk_Budget p))%Z ∧
  ∀ i c, Pk_Impact p = Some i → c ∈ Consumers i → guard_slice (t_workspace t) (consumer_slice c) = Ok tt →
    Sensitive (Sl_Path (consumer_slice c)) = false → covered (Pk_Slices p) (consumer_slice c).
Proof.
  intros (budget & mandatory & others & p0 & Hbud & _ & Hm & Ht0 & Hcs & Hns & (st & Hst & [_ Ht Hg Hsh Hf]) & Hc)%Build_packed.
  rewrite Hst in *. subst budget. split_and!; [lia | lia | lia | | lia |].
  - destruct Hf as [Hf|Hf]; [by left |]. destruct (Z.le_gt_cases (Pk_Tokens p) (Pk_Budget p)); [by left | right]. split; [done | lia].
  - intros i c Hi Hin Hok Hv. apply Hc; [|done..]. rewrite Hm, Hi. by apply list_elem_of_fmap_2.
Qed.
End built.

(** ** The query is never syntax *)

Definition term_text (s : string) : Prop := Forall (λ c, term_char c = true) (String.list_ascii_of_string s).

Lemma list_ascii_app a b : String.list_ascii_of_string (a +:+ b) = String.list_ascii_of_string a ++ String.list_ascii_of_string b.
Proof. induction a as [|c a IH]; [done |]. cbn. by rewrite <- IH. Qed.

Lemma term_fields_text word s : term_text word → Forall term_text (term_fields word s).
Proof.
  revert word. induction s as [|c s IH]; intros word Hw; cbn [term_fields].
  - destruct (String.eqb _ _); [done | by constructor].
  - destruct (term_char c) eqn:Ec.
    + apply IH. unfold term_text. rewrite list_ascii_app. apply Forall_app_2; [done |]. cbn. by constructor.
    + destruct (String.eqb _ _); cbn [id]; [apply IH; constructor | constructor; [done | apply IH; constructor]].
Qed.

Lemma replace_quote_text f : term_text f → str_replace_all dq (dq +:+ dq) f = f.
Proof.
  intros Hf. revert Hf. unfold str_replace_all. generalize (S (String.length f)) as n.
  intros n Hf. revert f Hf. induction n as [|n IH]; intros f Hf; [done |].
  destruct f as [|c f]; [done |]. apply Forall_cons in Hf as [Hc Hf]. cbn [str_replace_fuel].
  assert (Hd : has_prefix (String c f) dq = false).
  { destruct (Ascii.eqb_spec c (Ascii.ascii_of_nat 34)) as [->|Hne]; [discriminate Hc |]. apply not_true_iff_false. intros [r Hr]%has_prefix_spec.
    apply Hne. by injection Hr. }
  rewrite Hd. by rewrite IH.
Qed.

(** A query can never reach the full-text engine as syntax: what is sent is a
    list of quoted terms joined by OR, and a term holds letters, digits and
    path characters only - no quote, no operator, no space. *)
Theorem ftsQuery_quoted q : ∃ terms, ftsQuery q = join " OR " ((λ t, dq +:+ t +:+ dq) <$> terms) ∧
  Forall (λ t, term_text t ∧ 2 ≤ String.length t) terms.
Proof.
  exists (List.filter (λ f, 2 <=? String.length f) (term_fields "" q)).
  assert (Ht : Forall term_text (term_fields "" q)) by (by apply term_fields_text; constructor).
  unfold ftsQuery. set (l := List.filter _ _).
  assert (Hl : Forall (λ t, term_text t ∧ 2 ≤ String.length t) l).
  { apply Forall_forall. intros t [Hin Hlen]%list_elem_of_In%List.filter_In. split; [|by apply Nat.leb_le].
    apply (proj1 (Forall_forall _ _) Ht). by apply list_elem_of_In. }
  split; [|done]. f_equal. clearbody l. induction Hl as [|t l [Hx _] _ IH]; [done |]. rewrite !fmap_cons, IH. f_equal.
  unfold fts_term. by rewrite replace_quote_text.
Qed.

(** ** A packet *)

Definition demo_row : anchor_row := mk_anchor "r" "b.go" 1 4 "h" 1 "" "func g() { f() }" (QArith_base.inject_Z 3).
Definition call_tables : tables :=
  mk_tables "w" (list_to_map [(1%Z, mk_node 1 "w" "r" "function" "f" "pkg.f" "a.go"); (2%Z, mk_node 2 "w" "r" "function" "g" "pkg.g" "b.go")])
    [demo_edge 1 2 1 EdgeCalls Resolved].
Definition demo_Build : result Packet :=
  Build Ok Ok (λ _ _, Ok [demo_row; mk_anchor "r" ".env" 1 1 "h" 1 "" "KEY=1" (QArith_base.inject_Z 9)]) (Ok "r") (λ _, Ok []) (λ _, Err (errorf "no card"))
    call_tables ∅ None (mk_rrequest "" "fix f" ["f"] 1 ["f"] None 0).
Definition demo_packet : Packet := match demo_Build with Ok p => p | Err _ => mk_packet [] 0 [] None end.
Lemma demo_built : demo_Build = Ok demo_packet.
Proof. vm_compute. reflexivity. Qed.

Example demo_slices : ((λ s, (Sl_Path s, Sl_Origin s)) <$> Pk_Slices demo_packet, Pk_Tokens demo_packet, Pk_Dropped demo_packet) =
  ([("b.go", OriginImpact); ("b.go", OriginAnchor); ("a.go", OriginExplicit)], 32%Z, 1).
Proof. vm_compute. reflexivity. Qed.

Lemma Build_isolated_witness :
  demo_row.(An_Path) = "b.go" ∧ Sl_Workspace (anchor_slice "w" demo_row) = t_workspace call_tables ∧
  Slice_Validate (anchor_slice "w" demo_row) = Ok tt ∧ Sensitive (Sl_Path (anchor_slice "w" demo_row)) = false.
Proof.
  split; [done |]. pose proof demo_built as Hb. unfold demo_Build in Hb.
  eapply Build_isolated in Hb; [exact Hb |]. vm_compute. right. left.
Defined.
Definition demo_impact : Impact := default (mk_impact [] ChangeBehaviour [] (λ _, 0) false "") (Pk_Impact demo_packet).
Definition demo_consumer : Consumer := mk_consumer (mk_node 2 "w" "r" "function" "g" "pkg.g" "b.go") 1 EdgeCalls Resolved Undetermined "".
Lemma Build_packs_witness :
  (N_Name ∘ Co_Node <$> Consumers demo_impact) = ["g"] ∧
  Pk_Tokens demo_packet = (cards_cost (Pk_ProjectNotes demo_packet) + notes_cost (Pk_Notes demo_packet) + cost_of (Pk_Slices demo_packet))%Z ∧
  (cards_cost (Pk_ProjectNotes demo_packet) ≤ memory_share (Pk_Budget demo_packet))%Z ∧
  (notes_cost (Pk_Notes demo_packet) ≤ memory_share (Pk_Budget demo_packet))%Z ∧
  ((Pk_Tokens demo_packet ≤ Pk_Budget demo_packet)%Z ∨
   (Forall is_impact (Pk_Slices demo_packet) ∧ (Pk_Budget demo_packet - 2 * memory_share (Pk_Budget demo_packet) < cost_of (Pk_Slices demo_packet))%Z)) ∧
  (cost_of (filter is_graph (Pk_Slices demo_packet)) ≤ graph_share (Pk_Budget demo_packet))%Z ∧
  ∀ i c, Pk_Impact demo_packet = Some i → c ∈ Consumers i → guard_slice "w" (consumer_slice c) = Ok tt →
    Sensitive (Sl_Path (consumer_slice c)) = false → covered (Pk_Slices demo_packet) (consumer_slice c).
Proof.
  split; [vm_compute; reflexivity |]. pose proof demo_built as Hb. unfold demo_Build in Hb. apply Build_packs in Hb. exact Hb.
Defined.
