(* ===== verification/Workflow.v ===== *)
(** The phase contract of [src/internal/workflow]: the phases and their allowed
    moves, plans and what makes one valid, the impact obligations, changed
    signatures, and the classification of failures.  Parsing Go
    ([go/parser]), formatting syntax, tree-sitter and the fingerprint's hash are
    parameters. *)
From S2P Require Import Prelude GoStrings GoPath GoRegexp Policy Worktree Firewall Recipe Graph Trust Llm ContextPack.

Open Scope string_scope.
Open Scope list_scope.
Open Scope nat_scope.

(** ** Phases *)

(** [workflow/state.go:17-28 Phase]; [PhaseOther] is any other string a stored
    state may hold. *)
Inductive Phase :=
| Intake | Localize | PImpact | Planning | Edit | Verify | Review | Finalize
| PhaseOther (s : string).
#[export] Instance phase_eq_dec : EqDecision Phase. Proof. solve_decision. Defined.

Definition show_phase (p : Phase) : string :=
  match p with
  | Intake => "INTAKE" | Localize => "LOCALIZE" | PImpact => "IMPACT" | Planning => "PLAN"
  | Edit => "EDIT" | Verify => "VERIFY" | Review => "REVIEW" | Finalize => "FINALIZE"
  | PhaseOther s => s
  end.

(** [workflow/state.go:31-35 Transition] the map [allowed]. *)
Definition allowed (from : Phase) : list Phase :=
  match from with
  | Intake => [Localize] | Localize => [PImpact] | PImpact => [Planning] | Planning => [Edit]
  | Edit => [Verify; Planning; Localize]
  | Verify => [Edit; Review; Localize; Planning]
  | Review => [Edit; Localize; Finalize]
  | Finalize | PhaseOther _ => []
  end.

(** [workflow/state.go:30-42 Transition] *)
Definition Transition (from to : Phase) : result unit :=
  if mem to (allowed from) then Ok tt
  else Err (errorf ("workflow: forbidden transition " +:+ show_phase from +:+ " -> " +:+ show_phase to)).

(** ** Plans *)

(** [workflow/state.go:44-49 Obligation] *)
Record Obligation := mk_obligation {
  O_Symbol : string; O_Path : string; O_Reason : string; Resolution : string }.

(** [workflow/state.go:51-65 Plan] *)
Record Plan := mk_plan {
  RootCause : string; Files : list string; Symbols : list string; PTests : list string;
  Contracts : list string; WriteAllowlist : list string; Risks : list string;
  Obligations : list Obligation; Regenerate : list string }.

(** [workflow/state.go:70-70 Plan.RegeneratesGenerated] *)
Definition RegeneratesGenerated (p : Plan) : bool := 0 <? length (Regenerate p).

(** [workflow/state.go:75-92 Plan.ValidateRegeneration] *)
Definition ValidateRegeneration (p : Plan) (presets : list Preset) : result unit :=
  each (λ name,
    match find (λ q, String.eqb (P_Name q) name) presets with
    | None => Err (errorf ("plan declares regeneration by " +:+ quoted name +:+ ", which is not a frozen verification preset"))
    | Some found =>
        if decide (P_Kind found = KindGenerate) then Ok tt
        else Err (errorf ("plan declares regeneration by " +:+ quoted name +:+ ", whose kind is "
                          +:+ quoted (show_kind (P_Kind found)) +:+ " rather than generate"))
    end) (Regenerate p).

(** [workflow/state.go:101-113 Plan.Validate] one file grant. *)
Definition validate_grant (operatorScope : list string) (f : string) : result unit :=
  if String.eqb f "." || is_abs f || negb (String.eqb (clean f) f) || contains_any f "*?[\" ||
     String.eqb f ".." || has_prefix f "../" || Sensitive f || has_prefix f ".git/"
  then Err (errorf ("plan contains invalid file grant " +:+ quoted f))
  else if Generated f
  then Err (errorf ("plan grants writes to generated file " +:+ quoted f +:+ "; declare its generator under regenerate instead"))
  else if (0 <? length operatorScope) && negb (Covers operatorScope f)
  then Err (errorf ("plan file " +:+ quoted f +:+ " exceeds operator scope"))
  else Ok tt.

(** [workflow/state.go:94-124 Plan.Validate] *)
Definition Plan_Validate (p : Plan) (operatorScope : list string) : result unit :=
  if blank (RootCause p) || (length (Files p) =? 0) || (length (WriteAllowlist p) =? 0) || (length (PTests p) =? 0)
  then Err (errorf "plan requires a hypothesis, files, write allowlist and tests")
  else
    _ ← each (validate_grant operatorScope) (Files p ++ WriteAllowlist p);
    each (λ f, guard_err (negb (mem f (Files p)))
                 (errorf ("write grant " +:+ quoted f +:+ " is not a declared file"))) (WriteAllowlist p).

(** ** Impact obligations *)

(** [workflow/signatures.go:112-120 Plan.ValidateObligations] what one obligation
    does for one consumer. *)
Definition resolves (p : Plan) (c : Consumer) (o : Obligation) : bool :=
  if negb (String.eqb (O_Path o) (N_Path (Co_Node c))) ||
     (negb (String.eqb (O_Symbol o) (N_FQN (Co_Node c))) && negb (String.eqb (O_Symbol o) (N_Name (Co_Node c))))
  then false
  else (String.eqb (Resolution o) "edit" && Covers (WriteAllowlist p) (O_Path o)) ||
       (has_prefix (Resolution o) "no change needed:" &&
        (0 <? String.length (trim_space (trim_prefix (Resolution o) "no change needed:")))).

(** [workflow/signatures.go:102-127 Plan.ValidateObligations] *)
Definition ValidateObligations (p : Plan) (impact : option Impact) : result unit :=
  match impact with
  | None => Ok tt
  | Some impact =>
      each (λ c,
        if String.eqb (N_Path (Co_Node c)) "" then Ok tt
        else if existsb (resolves p c) (Obligations p) then Ok tt
        else Err (errorf ("unresolved impact obligation: " +:+ N_FQN (Co_Node c) +:+ " in " +:+ N_Path (Co_Node c))))
        (Consumers impact)
  end.

(** ** Changed signatures *)

Section signatures.
(** Go syntax as [go/ast] gives it: the type expressions stay abstract. *)
Context {Ty : Type}.

Record Field := mk_field { Names : list string; F_Type : Ty; F_Doc : option string; F_Comment : option string }.
Record FuncType := mk_func { TypeParams : option (list Field); Params : option (list Field); Results : option (list Field) }.
Inductive decl :=
| FuncDecl (name : string) (recv : option (list Field)) (type : FuncType)
| GenDecl (specs : list (option (string * Ty))).     (* [Some]: a type spec *)

Context (parse_file : string → result (list decl)).    (* parser.ParseFile *)
Context (format_func : FuncType → string).             (* format.Node *)
Context (format_type : Ty → string).
Context (is_exported : string → bool).                 (* ast.IsExported *)

(** [workflow/signatures.go:55-69 goSignatures] the closure [clearNames]. *)
Definition clearNames (fs : option (list Field)) : option (list Field) :=
  match fs with
  | None => None
  | Some l => Some (field ← l; replicate (max 1 (length (Names field))) (mk_field [] (F_Type field) None None))
  end.

(** [workflow/signatures.go:71-86 goSignatures] the entry of a function. *)
Definition func_signature (name : string) (recv : option (list Field)) (t : FuncType) : string * string :=
  let t := mk_func (TypeParams t) (clearNames (Params t)) (clearNames (Results t)) in
  (match recv with Some (r :: _) => format_type (F_Type r) +:+ "." +:+ name | _ => name end, format_func t).

(** [workflow/signatures.go:70-96 goSignatures] the entries of one declaration. *)
Definition decl_signatures (d : decl) : list (string * string) :=
  match d with
  | FuncDecl name recv t => if is_exported name then [func_signature name recv t] else []
  | GenDecl specs =>
      spec ← specs;
      match spec with
      | Some (name, ty) => if is_exported name then [(name, format_type ty)] else []
      | None => []
      end
  end.

(** [workflow/signatures.go:45-98 goSignatures]; a later entry of a name
    replaces an earlier one. *)
Definition goSignatures (body : string) : result (gmap string string) :=
  if String.eqb body "" then Ok ∅ else
  decls ← parse_file body;
  mret (foldl (λ m e, <[e.1 := e.2]> m) ∅ (decls ≫= decl_signatures)).

(** [workflow/signatures.go:20-44 ChangedGoSignatures]; the order of the map is
    lost in the sort. *)
Definition ChangedGoSignatures (before after : string) : result (list string) :=
  old ← goSignatures before;
  next ← goSignatures after;
  mret (sort_strings (dedup (after_last_dot <$>
    (filter (λ e, default "" (next !! e.1) ≠ e.2) (map_to_list old)).*1))).

Context (treesitter_ChangedSignatures : string → string → string → result (list string)).
Context (treesitter_Supports : string → bool).

(** [workflow/signatures.go:139-151 ChangedSignatures] *)
Definition ChangedSignatures (file before after : string) : result (list string) :=
  if has_suffix file ".go" then ChangedGoSignatures before after
  else match treesitter_ChangedSignatures file before after with
       | Err e => if decide (err_is e = Some "treesitter.ErrUnsupported") then Ok [] else Err e
       | Ok names => Ok names
       end.

(** [workflow/signatures.go:155-157 SignaturesSupported] *)
Definition SignaturesSupported (file : string) : bool :=
  has_suffix file ".go" || treesitter_Supports file.
End signatures.

(** ** Failures *)

(** [workflow/failure.go:16-22 noise] *)
Definition noise : list re :=
  [ rseq [rlit "0x"; rplus (RCls hexdigit)];
    rseq [RBoundary; rplus (RCls digit); ropt (rseq [rlit "."; rplus (RCls digit)]); ralts ["ms"; "µs"; "ns"; "s"]; RBoundary];
    rseq [RBoundary; rexact 4 (RCls digit); rlit "-"; rexact 2 (RCls digit); rlit "-"; rexact 2 (RCls digit);
          RCls (one_of "T "); rplus (RCls (λ c, digit c || one_of ":.+Z-" c))];
    rseq [rlit "goroutine "; rplus (RCls digit)];
    rseq [rlit "/tmp/"; rplus (RCls (λ c, negb (Ascii.eqb c slash) && negb (re_space c)))] ].

(** [workflow/failure.go:24-32 Normalize] *)
Definition Normalize (text root : string) : string :=
  let text := if String.eqb root "" then text else str_replace_all (root +:+ "/") "" text in
  join " " (fields (foldl (λ text r, replace_all r "<volatile>" text) text noise)).

(** [workflow/failure.go:95-95 Environmental] *)
Definition environmental_patterns : list string :=
  ["no space left"; "network unreachable"; "network is unreachable"; "address already in use";
   "module lookup disabled"; "module not found in cache"; "executable file not found"; "permission denied"].

(** [workflow/failure.go:90-101 Environmental] *)
Definition Environmental (r : Result) : bool :=
  let text := foldl (λ text f, text +:+ " " +:+ to_lower (F_Message f))
                (to_lower (R_Err r +:+ " " +:+ Headline (R_Summary r))) (Findings (R_Summary r)) in
  existsb (contains_str text) environmental_patterns || bool_decide (R_Status r = Error).

(** [workflow/failure.go:103-120 Regression] *)
Definition Regression (r : Result) (baseline : list Result) : bool :=
  bool_decide (R_Status r = Fail) &&
  existsb (λ old,
    (String.eqb (R_Recipe old) (R_Recipe r) &&
       existsb (λ e, bool_decide (e.2 = Fail) && bool_decide (Tests (R_Summary old) !! e.1 = Some Pass))
         (map_to_list (Tests (R_Summary r))))
    || (String.eqb (R_Recipe old) (R_Recipe r) && bool_decide (R_Status old = Pass))) baseline.

(** [workflow/failure.go:122-130 FailureClass] *)
Inductive FailureClass := FNew | FSame | FRegressed | FEnvironment | FFlaky.
#[export] Instance class_eq_dec : EqDecision FailureClass. Proof. solve_decision. Defined.

(** [workflow/failure.go:132-143 FailureRecord] *)
Record FailureRecord := mk_failure {
  Fingerprint : string; Class_ : FailureClass; FR_Recipe : string; FR_Candidate : string; FR_Symbols : list string }.

Section failures.
Context (supports : string → bool).                                     (* treesitter.Supports *)
Context (enclosing : string → string → Z → option string).              (* treesitter.EnclosingDeclaration *)
Context (finding_json : Finding → string).                              (* json.Marshal *)
(** json.Marshal of the failure, then SHA-256 in hex. *)
Context (digest : string → Status → Z → string → string → list Finding → list string → string).
Context (f : fs).

(** [workflow/failure.go:167-180 enclosingSymbol] *)
Definition enclosingSymbol (root : string) (fi : Finding) : option string :=
  if String.eqb (F_File fi) "" || Z.leb (F_Line fi) 0 || negb (supports (F_File fi)) then None
  else match ReadWithin f root (F_File fi) with
       | Err _ => None
       | Ok body => (λ name, F_File fi +:+ ":" +:+ name) <$> enclosing (F_File fi) body (F_Line fi)
       end.

(** [workflow/failure.go:49-88 FingerprintWithSymbols] *)
Definition FingerprintWithSymbols (r : Result) (root : string) : string * list string :=
  let findings := (λ fi, mk_finding (Normalize (F_File fi) root) (F_Line fi) (F_Column fi)
                           (Normalize (F_Message fi) root) (F_Test fi) (F_Rule fi)) <$> Findings (R_Summary r) in
  let findings := stable_sort (λ a b, str_ltb (finding_json a) (finding_json b)) findings in
  let symbols := sort_strings (dedup (omap (enclosingSymbol root) findings)) in
  (digest (R_Recipe r) (R_Status r) (R_ExitCode r) (Normalize (Headline (R_Summary r)) root)
     (Normalize (R_Err r) root) findings symbols, symbols).

(** [workflow/failure.go:145-158 Classify] *)
Definition Classify (r : Result) (baseline : list Result) (seen : gmap string nat) (root : string) : FailureRecord :=
  let '(fp, symbols) := FingerprintWithSymbols r root in
  let class := FNew in
  let class := if Regression r baseline then FRegressed else class in
  let class := if 0 <? default 0 (seen !! fp) then FSame else class in
  let class := if Environmental r then FEnvironment else class in
  mk_failure fp class (R_Recipe r) (R_Candidate r) symbols.
End failures.

(** ** The persisted state *)

(** [workflow/state.go:128-143 Transcript] *)
Record Transcript := mk_transcript {
  Closed : bool; T_Summary : string; ClaimsDone : bool; BudgetExhausted : bool; T_Truncated : bool;
  T_FenceToken : string; T_Messages : list Message; T_Tokens : Z; Steps : Z; Tools : Z; VerifyRuns : Z;
  InvalidCalls : Z; T_Pending : bool; T_Candidate : string }.
Definition new_transcript : Transcript := mk_transcript false "" false false false "" [] 0 0 0 0 0 false "".

(** [workflow/state.go:145-148 Verdict] *)
Record RVerdict := mk_rverdict { V_Accept : bool; V_Findings : list string }.

(** [workflow/state.go:150-184 State] *)
Record State := mk_state {
  S_Prefix : Prefix; S_FenceToken : string; Bodies : gmap string string; FinalizationCandidate : string;
  Presets : list Preset; S_Phase : Phase; Base : string; S_Candidate : string; S_StartedAt : Z;
  S_Tokens : Z; Attempts : Z; Replans : Z; VerifyLoops : Z; Regressions : Z;
  S_Files : list string; S_Symbols : list string; Hypothesis_ : string; S_Plan : Plan; S_Impact : option Impact;
  Baseline : list Result; S_Results : list Result; Feedback : list Result; Failures : gmap string nat;
  FailureHistory : list FailureRecord; S_Edit : Transcript; S_Verdict : option RVerdict }.

(** ** The order of phases *)

Lemma Transition_ok from to : Transition from to = Ok tt ↔ to ∈ allowed from.
Proof. unfold Transition. destruct (mem to (allowed from)) eqn:E; [apply mem_true in E | apply mem_false in E]; naive_solver. Qed.

(** A history: every phase is entered by an allowed move from the one before it. *)
Inductive history : list Phase → Phase → Prop :=
| history_start : history [Intake] Intake
| history_move h from to :
    history h from → Transition from to = Ok tt → history (h ++ [to]) to.

(** Where an allowed move can come from. *)
Lemma Transition_from from to : Transition from to = Ok tt →
  match to with
  | Intake | PhaseOther _ => False
  | Localize => from ∈ [Intake; Edit; Verify; Review]
  | PImpact => from = Localize
  | Planning => from ∈ [PImpact; Edit; Verify]
  | Edit => from ∈ [Planning; Verify; Review]
  | Verify => from = Edit
  | Review => from = Verify
  | Finalize => from = Review
  end.
Proof. rewrite Transition_ok. destruct from, to; cbn; set_solver. Qed.

Lemma history_last h p : history h p → ∃ pre, h = pre ++ [p].
Proof. destruct 1 as [|h from to]; [by exists [] | by exists h]. Qed.

Lemma history_prev h p : history h p → p ≠ Intake →
  ∃ h' from, h = h' ++ [p] ∧ history h' from ∧ Transition from p = Ok tt.
Proof. destruct 1 as [|h from to Hh Ht]; [done |]. intros _. by exists h, from. Qed.

Definition opening : list Phase := [Intake; Localize; PImpact; Planning; Edit].

Lemma history_opening h p : history h p →
  (h = take (length h) opening ∧ length h ≤ 5) ∨ (∃ mid, h = opening ++ mid).
Proof.
  induction 1 as [|h from to Hh IH Ht]; [left; split; [done | cbn; lia] |].
  destruct IH as [[IH Hl]|[mid ->]]; [|right; exists (mid ++ [to]); by rewrite app_assoc].
  destruct (history_last _ _ Hh) as [pre Hp]. apply Transition_ok in Ht.
  assert (from = List.last h Intake) as -> by (by rewrite Hp, List.last_last).
  destruct h as [|a [|b [|c [|d [|e [|f h]]]]]]; cbn in IH, Hl; simplify_eq; cbn in Ht;
    rewrite ?elem_of_cons, elem_of_nil in Ht; try (left; naive_solver lia).
  - by destruct pre.
  - right. by exists [to].
Qed.

(** The phase contract orders the work.  Whatever loops a task goes
    through, a history of allowed moves from INTAKE that reaches FINALIZE opens
    with INTAKE, LOCALIZE, IMPACT, PLAN, EDIT and closes with EDIT, VERIFY,
    REVIEW, FINALIZE: no edit happens before a plan, and nothing is finalized
    unless verification and then review are the last things that happened after
    the last edit.  FINALIZE is terminal. *)
Theorem history_order h :
  history h Finalize →
  (∃ mid, h = opening ++ mid) ∧ (∃ pre, h = pre ++ [Edit; Verify; Review; Finalize]) ∧
  ∀ to, is_ok (Transition Finalize to) = false.
Proof.
  intros Hh. destruct (history_prev _ _ Hh) as (h1 & p1 & -> & H1 & T1%Transition_from); [done |].
  cbn in T1. subst p1.
  destruct (history_prev _ _ H1) as (h2 & p2 & -> & H2 & T2%Transition_from); [done |]. cbn in T2. subst p2.
  destruct (history_prev _ _ H2) as (h3 & p3 & -> & H3 & T3%Transition_from); [done |]. cbn in T3. subst p3.
  destruct (history_last _ _ H3) as [pre ->].
  split_and!.
  - destruct (history_opening _ _ Hh) as [[E Hl]|H]; [|done]. exfalso.
    repeat (rewrite length_app in *; cbn in Hl, E).
    destruct pre as [|a [|b pre]]; cbn in E, Hl; simplify_eq; lia.
  - exists pre. by rewrite <- !app_assoc.
  - done.
Qed.

Definition demo_history : list Phase :=
  opening ++ [Verify; Edit; Verify; Review; Edit; Verify; Review; Finalize].

(** Replay a list of moves; [None] when one is forbidden. *)
Fixpoint replay (from : Phase) (l : list Phase) : option Phase :=
  match l with
  | [] => Some from
  | to :: l => if is_ok (Transition from to) then replay to l else None
  end.

Lemma replay_history l : ∀ from h p, history h from → replay from l = Some p → history (h ++ l) p.
Proof.
  induction l as [|to l IH]; intros from h p Hh Hl; cbn in Hl; [simplify_eq; by rewrite app_nil_r |].
  replace (h ++ to :: l) with ((h ++ [to]) ++ l) by (by rewrite <- app_assoc).
  destruct (Transition from to) as [[]|] eqn:Ht; [|done]. cbn in Hl.
  apply (IH to); [|done]. by apply (history_move h from).
Qed.

Lemma history_order_witness :
  history demo_history Finalize ∧ ∃ pre, demo_history = pre ++ [Edit; Verify; Review; Finalize].
Proof.
  assert (H : history demo_history Finalize).
  { apply (replay_history (tail demo_history) Intake [Intake]); [constructor | reflexivity]. }
  split; [exact H |]. apply (history_order demo_history H).
Defined.

(** ** What a valid plan grants *)

Record grant_ok (operatorScope : list string) (f : string) : Prop := {
  grant_clean : clean f = f;
  grant_relative : is_abs f = false;
  grant_inside : ".." ∉ split_char slash f;
  grant_literal : contains_any f "*?[\" = false;
  grant_not_root : f ≠ ".";
  grant_not_secret : Sensitive f = false;
  grant_not_git : has_prefix f ".git/" = false;
  grant_not_generated : Generated f = false;
  grant_in_scope : operatorScope ≠ [] → Covers operatorScope f = true }.

Lemma validate_grant_ok scope f : validate_grant scope f = Ok tt → grant_ok scope f.
Proof.
  unfold validate_grant. destruct (_ || _) eqn:E; [done |].
  rewrite !orb_false_iff, negb_false_iff in E.
  destruct E as [[[[[[[E1%String.eqb_neq E2] E3%String.eqb_eq] E4] E5%String.eqb_neq] E6] E7] E8].
  destruct (Generated f) eqn:Eg; [done |]. destruct (_ && _) eqn:Es; [done |]. intros _.
  split; try done; [by apply clean_no_dotdot |].
  intros Hs. destruct scope as [|s scope]; [done |]. cbn [length Nat.ltb Nat.leb andb] in Es.
  by apply negb_false_iff in Es.
Qed.

Lemma contains_any_str f c chars : contains_any f chars = false → contains_str chars (String c "") = true →
  contains_str f (String c "") = false.
Proof.
  intros Hf Hc. induction f as [|d f IH]; [done |]. cbn [contains_any] in Hf.
  apply orb_false_iff in Hf as [Hd Hf]. cbn [contains_str has_prefix].
  rewrite (IH Hf), orb_false_r. destruct (Ascii.eqb_spec c d) as [->|Hn]; [congruence | done].
Qed.

Lemma grant_valid_scope scope f : grant_ok scope f → validScope f = true.
Proof.
  intros Hg. unfold validScope. destruct Hg.
  assert (f ≠ "") as Hne%String.eqb_neq by (intros ->; by vm_compute in grant_clean0).
  assert (contains_str f "\" = false) as Hb by (by apply (contains_any_str f _ "*?[\")).
  rewrite Hne, grant_relative0, Hb. cbn [orb].
  destruct (mem ".." _) eqn:Em; [by apply mem_true in Em |].
  by rewrite path_match_literal by (by apply contains_any_literal).
Qed.

(** A cleaned relative path does not end in a slash. *)
Lemma join_no_trailing l : l ≠ [] → Forall (λ c, c ≠ "" ∧ slash_free c) l → has_suffix (join "/" l) "/" = false.
Proof.
  intros Hne Hl. destruct (has_suffix (join "/" l) "/") eqn:E; [|done]. exfalso.
  apply has_suffix_spec in E as [r Hr].
  assert (Hs : split_char slash (join "/" l) = l)
    by (apply split_char_join; [done | eapply Forall_impl; [exact Hl | by intros ? []]]).
  rewrite Hr, <- (app_str_nil "/") in Hs. rewrite <- app_str_assoc in Hs.
  rewrite app_str_assoc, split_char_app_slash in Hs.
  rewrite <- Hs in Hl. apply Forall_app in Hl as [_ Hl]. inversion Hl as [|? ? [] _]; subst. done.
Qed.

Lemma clean_comps_nonempty rooted l : ∀ stack, Forall (λ c, c ≠ "") stack → Forall (λ c, c ≠ "") (clean_comps rooted stack l).
Proof.
  induction l as [|c l IH]; intros stack Hs; cbn [clean_comps]; [by apply Forall_rev |].
  destruct (String.eqb_spec c "") as [->|Hc]; cbn [orb]; [by apply IH |].
  destruct (String.eqb c "."); [by apply IH |].
  destruct (String.eqb c ".."); [|apply IH; by constructor].
  destruct stack as [|top stack].
  - destruct rooted; apply IH; repeat constructor; done.
  - inversion Hs; subst. destruct (String.eqb top ".."); apply IH; repeat constructor; done.
Qed.

Lemma grant_no_slash scope f : grant_ok scope f → has_suffix f "/" = false.
Proof.
  intros []. unfold clean in *. rewrite grant_relative0 in grant_clean0.
  pose proof (clean_comps_nonempty false (split_char slash f) [] (Forall_nil_2 _)) as H1.
  pose proof (clean_comps_slash_free false (split_char slash f) [] (Forall_nil_2 _) (split_char_slash_free f)) as H2.
  unfold render_path in grant_clean0. destruct (clean_comps _ _ _) as [|x l]; [by subst |].
  rewrite <- grant_clean0. apply join_no_trailing; [done |].
  apply Forall_forall. rewrite Forall_forall in H1, H2. intros c Hc. split; auto.
Qed.

(** What one grant covers: the name itself and what lies beneath it. *)
Lemma grant_covers scope f rel : grant_ok scope f →
  Covers [f] rel = true ↔ rel = f ∨ ∃ r, rel = f +:+ "/" +:+ r.
Proof.
  intros Hg. rewrite Covers_spec. split.
  - intros (pat & ->%list_elem_of_singleton & _ & [H|H]).
    + destruct Hg. congruence.
    + rewrite (grant_clean _ _ Hg) in H. apply matches_literal in H; [done | |by eapply grant_no_slash].
      apply contains_any_literal, Hg.
  - intros H. exists f. split; [by apply list_elem_of_singleton |]. split; [by eapply grant_valid_scope |].
    right. rewrite (grant_clean _ _ Hg). apply matches_literal; [|by eapply grant_no_slash | done].
    apply contains_any_literal, Hg.
Qed.

Lemma Covers_each scope rel : Covers scope rel = true ↔ ∃ f, f ∈ scope ∧ Covers [f] rel = true.
Proof.
  rewrite Covers_spec. split.
  - intros (pat & Hp & Hv & Hm). exists pat. split; [done |]. apply Covers_spec. exists pat. set_solver.
  - intros (f & Hf & Hc). apply Covers_spec in Hc as (pat & ->%list_elem_of_singleton & ?). by exists f.
Qed.

Lemma Plan_Validate_ok p scope :
  Plan_Validate p scope = Ok tt →
  (∀ f, f ∈ Files p ++ WriteAllowlist p → grant_ok scope f) ∧ (∀ f, f ∈ WriteAllowlist p → f ∈ Files p).
Proof.
  unfold Plan_Validate. destruct (_ || _); [done |].
  destruct (each _ (Files p ++ _)) as [[]|] eqn:E; [|done]. cbn [mbind result_bind]. intros H.
  rewrite each_ok in E, H. split.
  - intros f Hf. by apply validate_grant_ok, E.
  - intros f Hf. specialize (H f Hf). unfold guard_err in H.
    destruct (mem f (Files p)) eqn:Em; [by apply mem_true in Em | done].
Qed.

(** Every name a valid plan lists is a clean path below the repository
    root, without glob characters, not secret, not generated and inside the
    operator's scope, and every write grant is one of the declared files.  The
    editor's write scope built from the plan's allowlist then covers exactly the
    granted names and what lies beneath them: a planner cannot reach any other
    file. *)
Theorem Plan_Validate_grants p scope :
  Plan_Validate p scope = Ok tt →
  (∀ f, f ∈ Files p ++ WriteAllowlist p → grant_ok scope f) ∧
  (∀ f, f ∈ WriteAllowlist p → f ∈ Files p) ∧
  (∀ rel, Covers (WriteAllowlist p) rel = true ↔
     ∃ f, f ∈ WriteAllowlist p ∧ (rel = f ∨ ∃ r, rel = f +:+ "/" +:+ r)).
Proof.
  intros [Hg Hd]%Plan_Validate_ok. split_and!; [done | done |]. intros rel.
  rewrite Covers_each. split; intros (f & Hf & H); exists f; split; try done;
    apply (grant_covers scope); (done || by apply Hg; set_solver).
Qed.

Definition demo_plan : Plan :=
  mk_plan "off by one in the window" ["internal/sub"; "internal/sub/a_test.go"] ["Window"] ["go test ./..."] []
    ["internal/sub"] [] [mk_obligation "Window" "internal/sub" "caller" "edit"] [].

Lemma Plan_Validate_grants_witness :
  Plan_Validate demo_plan ["internal/*"; "internal/sub/a_test.go"] = Ok tt ∧
  (Covers (WriteAllowlist demo_plan) "internal/sub/deep/b.go" = true ↔
     ∃ f, f ∈ WriteAllowlist demo_plan ∧
       ("internal/sub/deep/b.go" = f ∨ ∃ r, "internal/sub/deep/b.go" = f +:+ "/" +:+ r)).
Proof.
  assert (H : Plan_Validate demo_plan ["internal/*"; "internal/sub/a_test.go"] = Ok tt)
    by (vm_compute; reflexivity).
  split; [exact H |]. apply (Plan_Validate_grants _ _ H).
Defined.

(** The grants are not exact files, as the comment in the code has it: a
    grant names a path, and a directory's name grants everything under it.  With
    an operator scope that is a one-level glob the plan then reaches further
    than the operator did: a valid plan can cover a file the operator's scope
    does not. *)
Theorem Plan_Validate_broadens :
  ∃ p scope rel,
    Plan_Validate p scope = Ok tt ∧ Covers (WriteAllowlist p) rel = true ∧ Covers scope rel = false.
Proof.
  exists demo_plan, ["internal/*"; "internal/sub/a_test.go"], "internal/sub/deep/b.go".
  split_and!; vm_compute; reflexivity.
Qed.

(** ** Obligations *)

(** The obligations of a plan are accepted exactly when every consumer of
    the impact report that has a path is disposed of by name: some obligation
    gives its path and its symbol (qualified or bare) and either edits it,
    inside the plan's own write allowlist, or says "no change needed:" followed
    by a reason that is not blank.  Nothing is checked when there is no report. *)
Theorem ValidateObligations_exact p impact :
  ValidateObligations p impact = Ok tt ↔
  ∀ imp c, impact = Some imp → c ∈ Consumers imp → N_Path (Co_Node c) ≠ "" →
    ∃ o, o ∈ Obligations p ∧ O_Path o = N_Path (Co_Node c) ∧
      (O_Symbol o = N_FQN (Co_Node c) ∨ O_Symbol o = N_Name (Co_Node c)) ∧
      ((Resolution o = "edit" ∧ Covers (WriteAllowlist p) (O_Path o) = true) ∨
       (∃ reason, Resolution o = "no change needed:" +:+ reason ∧ trim_space reason ≠ "")).
Proof.
  assert (Hr : ∀ c o, resolves p c o = true ↔
    O_Path o = N_Path (Co_Node c) ∧ (O_Symbol o = N_FQN (Co_Node c) ∨ O_Symbol o = N_Name (Co_Node c)) ∧
    ((Resolution o = "edit" ∧ Covers (WriteAllowlist p) (O_Path o) = true) ∨
     (∃ reason, Resolution o = "no change needed:" +:+ reason ∧ trim_space reason ≠ ""))).
  { intros c o. unfold resolves.
    destruct (String.eqb_spec (O_Path o) (N_Path (Co_Node c))); cbn [negb orb]; [|naive_solver].
    destruct (negb _ && negb _) eqn:E.
    { apply andb_true_iff in E as [E1%negb_true_iff%String.eqb_neq E2%negb_true_iff%String.eqb_neq]. naive_solver. }
    rewrite orb_true_iff, !andb_true_iff, String.eqb_eq, has_prefix_spec.
    apply andb_false_iff in E. rewrite !negb_false_iff, !String.eqb_eq in E.
    assert (Hp : (∃ r, Resolution o = "no change needed:" +:+ r) ∧
                 (0 <? String.length (trim_space (trim_prefix (Resolution o) "no change needed:"))) = true ↔
                 ∃ reason, Resolution o = "no change needed:" +:+ reason ∧ trim_space reason ≠ "").
    { split.
      - intros [[r ->] Hl]. exists r. split; [done |]. rewrite trim_prefix_app in Hl. by intros E0; rewrite E0 in Hl.
      - intros (r & -> & Hne). split; [by exists r |]. rewrite trim_prefix_app.
        destruct (trim_space r); [done | done]. }
    rewrite Hp. naive_solver. }
  unfold ValidateObligations. destruct impact as [imp|]; [|naive_solver].
  rewrite each_ok. split.
  - intros H imp' c [= <-] Hc Hne. specialize (H c Hc).
    apply String.eqb_neq in Hne. rewrite Hne in H.
    destruct (existsb _ _) eqn:E; [|done]. apply existsb_exists in E as (o & Ho & E).
    exists o. split; [by apply list_elem_of_In |]. by apply Hr.
  - intros H c Hc. destruct (String.eqb_spec (N_Path (Co_Node c)) ""); [done |].
    destruct (H imp c eq_refl Hc n) as (o & Ho & Ho').
    rewrite (proj2 (existsb_exists _ _)); [done |]. exists o. split; [by apply list_elem_of_In |]. by apply Hr.
Qed.

(** ** Changed signatures *)

Section signature_facts.
Context {Ty : Type} (parse_file : string → result (list (@decl Ty))) (format_func : @FuncType Ty → string)
  (format_type : Ty → string) (is_exported : string → bool).

(** Two declarations that differ in parameter names, the grouping of parameters
    and documentation only. *)
Definition same_contract (d d' : @decl Ty) : Prop :=
  decl_signatures format_func format_type is_exported d = decl_signatures format_func format_type is_exported d'.

Lemma rename_params name recv tp ps ps' rs rs' :
  clearNames ps = clearNames ps' → clearNames rs = clearNames rs' →
  same_contract (FuncDecl name recv (mk_func tp ps rs)) (FuncDecl name recv (mk_func tp ps' rs')).
Proof. unfold same_contract, decl_signatures, func_signature. cbn. by intros -> ->. Qed.

Lemma clear_grouped (a b : string) (t : Ty) doc doc' c c' l :
  clearNames (Some (mk_field [a; b] t doc c :: l)) =
  clearNames (Some (mk_field [a] t doc' c' :: mk_field [b] t doc' c' :: l)).
Proof. done. Qed.

(** The changed signatures of a Go file are exactly the exported names whose
    contract changed: a name is reported if and only if some exported function,
    method or type of the old file has another signature in the new one, or is
    gone from it (no signature being empty); the report is sorted and names
    nothing twice.  Files whose declarations differ in parameter names, in how
    parameters are grouped, in documentation or in bodies report nothing. *)
Theorem ChangedGoSignatures_exact before after old next :
  goSignatures parse_file format_func format_type is_exported before = Ok old →
  goSignatures parse_file format_func format_type is_exported after = Ok next →
  (∀ key sig, old !! key = Some sig → sig ≠ "") →
  ∃ names,
    ChangedGoSignatures parse_file format_func format_type is_exported before after = Ok names ∧
    NoDup names ∧ StronglySorted (not_less str_ltb) names ∧
    (∀ n, n ∈ names ↔ ∃ key sig, old !! key = Some sig ∧ next !! key ≠ Some sig ∧ n = after_last_dot key) ∧
    (before ≠ "" → after ≠ "" → (∃ ds ds', parse_file before = Ok ds ∧ parse_file after = Ok ds' ∧
       Forall2 same_contract ds ds') → names = []).
Proof.
  intros Ho Hn Hne. unfold ChangedGoSignatures. rewrite Ho, Hn. eexists. split; [reflexivity |].
  assert (Hiff : ∀ n, n ∈ sort_strings (dedup (after_last_dot <$>
      (filter (λ e, default "" (next !! e.1) ≠ e.2) (map_to_list old)).*1)) ↔
      ∃ key sig, old !! key = Some sig ∧ next !! key ≠ Some sig ∧ n = after_last_dot key).
  { intros n. unfold sort_strings. rewrite elem_of_stable_sort, elem_of_dedup, list_elem_of_fmap.
    setoid_rewrite list_elem_of_fmap. setoid_rewrite list_elem_of_filter.
    split.
    - intros (k & -> & [k' sig] & -> & Hd & Hm%elem_of_map_to_list). exists k', sig. cbn in Hd.
      split_and!; [done | | done]. intros E. by rewrite E in Hd.
    - intros (k & sig & Hk & Hd & ->). exists k. split; [done |]. exists (k, sig).
      split_and!; [done | | by apply elem_of_map_to_list]. cbn.
      destruct (next !! k) as [s|] eqn:E; cbn; [congruence |]. symmetry. by eapply Hne. }
  split_and!.
  - unfold sort_strings. rewrite stable_sort_perm. apply NoDup_dedup.
  - apply stable_sort_sorted; [apply str_ltb_asym | apply str_not_less_trans].
  - exact Hiff.
  - intros Hb%String.eqb_neq Ha%String.eqb_neq (ds & ds' & Hp & Hp' & Hsame).
    unfold goSignatures in Ho, Hn. rewrite Hb, Hp in Ho. rewrite Ha, Hp' in Hn.
    cbn [mbind result_bind] in Ho, Hn. injection Ho as <-. injection Hn as <-.
    match goal with |- ?x = [] => destruct x as [|n l] eqn:El end; [done |]. exfalso.
    assert (Hin : n ∈ n :: l) by set_solver. apply Hiff in Hin as (k & sig & Hk & Hd & _).
    apply Hd. rewrite <- Hk. f_equal. f_equal. clear -Hsame.
    induction Hsame as [|d d' ds ds' E _ IH]; [done |]. cbn. unfold same_contract in E. by rewrite E, IH.
Qed.
End signature_facts.

Definition demo_func (f : @FuncType string) : string :=
  match Params f with Some ps => join ", " (F_Type <$> ps) | None => "" end +:+ ")".
Definition demo_parse (body : string) : result (list (@decl string)) :=
  Ok [FuncDecl "Run" (Some [mk_field ["r"] "*T" None None])
        (mk_func None (Some (if String.eqb body "v1" then [mk_field ["a"; "b"] "int" None None]
                             else [mk_field ["x"] "int" None None])) None);
      GenDecl [Some ("T", "struct{}"); None]].

Lemma ChangedGoSignatures_exact_witness :
  ∃ names, ChangedGoSignatures demo_parse demo_func id (λ _, true) "v1" "v2" = Ok names ∧
    ("Run" ∈ names ∧ "T" ∉ names).
Proof.
  destruct (goSignatures demo_parse demo_func id (λ _, true) "v1") as [old|] eqn:Ho; [|discriminate].
  destruct (goSignatures demo_parse demo_func id (λ _, true) "v2") as [next|] eqn:Hn; [|discriminate].
  injection Ho as <-. injection Hn as <-.
  destruct (ChangedGoSignatures_exact demo_parse demo_func id (λ _, true) "v1" "v2" _ _ eq_refl eq_refl)
    as (names & H1 & _ & _ & H2 & _).
  - intros key sig H. apply elem_of_map_to_list in H. vm_compute in H. set_solver.
  - exists names. split; [exact H1 |]. vm_compute in H1. injection H1 as <-. split; set_solver.
Defined.

(** ** Classes of failures *)

Lemma Regression_spec r baseline :
  Regression r baseline = true ↔
  R_Status r = Fail ∧ ∃ old, old ∈ baseline ∧ R_Recipe old = R_Recipe r ∧
    (R_Status old = Pass ∨ ∃ id, Tests (R_Summary r) !! id = Some Fail ∧ Tests (R_Summary old) !! id = Some Pass).
Proof.
  unfold Regression. rewrite andb_true_iff, bool_decide_eq_true, existsb_exists.
  split; intros [Hf (old & Ho & H)]; (split; [done |]); exists old.
  - rewrite orb_true_iff, !andb_true_iff, String.eqb_eq, bool_decide_eq_true in H.
    split; [by apply list_elem_of_In |]. destruct H as [[He H]|[He H]]; (split; [done |]); [right | by left].
    apply existsb_exists in H as ([id s] & Hin & H). apply andb_true_iff in H as [H1%bool_decide_eq_true H2%bool_decide_eq_true].
    cbn in H1, H2. subst s. exists id. split; [|done]. by apply elem_of_map_to_list, list_elem_of_In.
  - destruct H as (He & H). split; [by apply list_elem_of_In |].
    rewrite orb_true_iff, !andb_true_iff, String.eqb_eq, bool_decide_eq_true.
    destruct H as [H|(id & H1 & H2)]; [by right | left]. split; [done |].
    apply existsb_exists. exists (id, Fail). split; [by apply list_elem_of_In, elem_of_map_to_list |].
    cbn. by rewrite H2.
Qed.

(** How a failure is classified.  An environmental message or an error
    status wins over everything; a fingerprint seen before is the same failure
    again; a failed check is a regression exactly when the baseline passed that
    recipe, or passed a test that fails now; everything else is new.  A recipe
    that failed in the baseline, with no test that went from pass to fail, is
    never called a regression. *)
Theorem Classify_exact supports enclosing finding_json digest f r baseline seen root :
  let rec := Classify supports enclosing finding_json digest f r baseline seen root in
  let again := ∃ n, seen !! Fingerprint rec = Some n ∧ 0 < n in
  let regressed := R_Status r = Fail ∧ ∃ old, old ∈ baseline ∧ R_Recipe old = R_Recipe r ∧
    (R_Status old = Pass ∨ ∃ id, Tests (R_Summary r) !! id = Some Fail ∧ Tests (R_Summary old) !! id = Some Pass) in
  (Class_ rec = FEnvironment ↔ Environmental r = true) ∧
  (Class_ rec = FSame ↔ Environmental r = false ∧ again) ∧
  (Class_ rec = FRegressed ↔ Environmental r = false ∧ ¬ again ∧ regressed) ∧
  (Class_ rec = FNew ↔ Environmental r = false ∧ ¬ again ∧ ¬ regressed) ∧
  (R_Status r = Error → Environmental r = true) ∧
  FR_Recipe rec = R_Recipe r ∧ FR_Candidate rec = R_Candidate r.
Proof.
  cbv zeta. rewrite <- !Regression_spec. unfold Classify.
  destruct (FingerprintWithSymbols _ _ _ _ _ _) as [fp symbols]. cbn [Fingerprint Class_ FR_Recipe FR_Candidate].
  assert (Hs : (0 <? default 0 (seen !! fp)) = true ↔ ∃ n, seen !! fp = Some n ∧ 0 < n).
  { rewrite Nat.ltb_lt. destruct (seen !! fp) as [n|]; cbn; [naive_solver | naive_solver lia]. }
  assert (He : R_Status r = Error → Environmental r = true).
  { intros Hr. unfold Environmental. by rewrite Hr, bool_decide_true, orb_true_r by done. }
  rewrite <- Hs. clear Hs.
  destruct (Environmental r), (0 <? default 0 (seen !! fp)), (Regression r baseline); split_and!; naive_solver.
Qed.
