(* ===== verification/Ledger.v ===== *)
(** The ledger database of a workspace and the execution journal of
    [src/internal/ledger]: intents and outcomes, checkpoints, evidence and
    worktree leases.  SQLite is modelled by its tables; the rows are records in
    insertion order, and a transaction that fails leaves no trace. *)
From S2P Require Import Prelude GoStrings Json.

Open Scope string_scope.
Open Scope list_scope.
Open Scope nat_scope.

(** ** Rows *)

(** [ledger/ledger.go:23-37 Kind] *)
Inductive OpKind :=
| KInspectFile | KSearch | KRetrieval | KDecision | KEdit | KRecipeRun | KReview
| KCheckpoint | KApproval | KSessionStart | KSessionEnd
| KOtherOp (s : string).
#[export] Instance opkind_eq_dec : EqDecision OpKind. Proof. solve_decision. Defined.

Definition show_op (k : OpKind) : string :=
  match k with
  | KInspectFile => "inspect_file" | KSearch => "search" | KRetrieval => "retrieval"
  | KDecision => "decision" | KEdit => "edit" | KRecipeRun => "recipe_run" | KReview => "review"
  | KCheckpoint => "checkpoint" | KApproval => "approval" | KSessionStart => "session_start"
  | KSessionEnd => "session_end" | KOtherOp s => s
  end.

(** [ledger/ledger.go:40-43 AllKinds] *)
Definition AllKinds : list OpKind :=
  [KInspectFile; KSearch; KRetrieval; KDecision; KEdit; KRecipeRun; KReview; KCheckpoint;
   KApproval; KSessionStart; KSessionEnd].

(** [ledger/ledger.go:58-75 Operation] a row of [operations]; the columns read
    with [COALESCE(.., '')] hold the empty string for NULL, and [Outcome] is
    [None] for NULL. *)
Record Operation := mk_op {
  Op_ID : Z; Op_TaskID : string; Seq : Z; Op_Kind : OpKind; Intent : json; Op_Outcome : option json;
  CandidateBefore : string; CandidateAfter : string; EvidenceID : string;
  StartedAt : Z; FinishedAt : Z; Op_Error : string }.

(** [ledger/ledger.go:79-79 Operation.Uncertain] *)
Definition Uncertain (o : Operation) : bool := bool_decide (Op_Outcome o = None).

(** [store/migrations/ledger_001.sql:71-75 checkpoints] *)
Record CheckpointRow := mk_checkpoint {
  Cp_Task : string; Cp_Seq : Z; Cp_State : string; Cp_Handoff : json; Cp_Candidate : string; Cp_Created : Z }.

(** [store/migrations/ledger_001.sql:77-79 leases] *)
Record LeaseRow := mk_lease_row { Lr_Task : string; Lr_Holder : string; Lr_Expires : Z }.

(** [store/migrations/ledger_001.sql:83-93 evidence] *)
Record EvidenceRow := mk_evidence {
  Ev_ID : string; Ev_Task : string; Ev_Kind : string; Ev_Status : string; Ev_Candidate : string;
  Ev_Artifact : string; Ev_Summary : string; Ev_Detail : json; Ev_Created : Z }.

(** [store/migrations/ledger_002.sql:10-25 gates] with the [candidate] column of
    ledger_005. *)
Record GateRow := mk_gate_row {
  Ga_ID : string; Ga_Workspace : string; Ga_Task : string; Ga_Kind : string; Ga_Question : string;
  Ga_Evidence : json; Ga_Decision : string; Ga_By : string; Ga_Note : string; Ga_Created : Z;
  Ga_Decided : option Z; Ga_Expires : option Z; Ga_Candidate : string }.

(** [task/task.go:64-71 Budget] *)
Record BudgetRow := mk_budget { MaxAttempts : Z; MaxWallTime : Z; MaxTokens : Z; Scope : list string }.
(** [task/task.go:46-60 Task] a row of the table [tasks]; [Ta_Budget] holds what its
    budget's JSON says. *)
Record TaskRow := mk_task_row {
  Ta_ID : string; Ta_Workspace : string; Ta_Requirement : string; Ta_Parent : string; Ta_Title : string;
  Ta_Kind : string; Ta_Worktree : string; Ta_State : string; Ta_Verification : string;
  Ta_Budget : BudgetRow; Ta_Created : Z; Ta_Updated : Z; Ta_Finished : option Z }.

(** [store/migrations/ledger_001.sql:10-19 requirements] *)
Record RequirementRow := mk_req_row {
  Rq_ID : string; Rq_Workspace : string; Rq_Title : string; Rq_Body : string; Rq_Acceptance : json;
  Rq_State : string; Rq_Created : Z; Rq_Updated : Z }.

(** The database, the clock (nanoseconds), the state of the caller's context and
    whether the database answers at all.  [Body] is the type of the stored
    workflow states. *)
Record Db {Body : Type} := mk_db {
  operations : list Operation;
  checkpoints : list CheckpointRow;
  leases : gmap string LeaseRow;
  evidence : list EvidenceRow;
  gates : list GateRow;
  tasks : list TaskRow;
  task_deps : list (string * string);
  requirements : list RequirementRow;
  task_workflow : gmap string (string * Body);
  db_now : Z;
  db_ctx : option error;
  db_fault : option error }.
Arguments Db Body : clear implicits.

(** A table constraint SQLite enforces on a statement. *)
Definition constraint (b : bool) (what : string) : result unit :=
  guard_err (negb b) (errorf (what +:+ " constraint failed")).

Lemma constraint_ok b what : constraint b what = Ok tt ↔ b = true.
Proof. unfold constraint, guard_err. by destruct b. Qed.

Section ledger.
Context {Body : Type}.
Notation Db := (Db Body).
Notation DM := (M Db).

Definition set_operations (l : list Operation) (d : Db) : Db :=
  mk_db _ l (checkpoints d) (leases d) (evidence d) (gates d) (tasks d) (task_deps d) (requirements d)
    (task_workflow d) (db_now d) (db_ctx d) (db_fault d).
Definition set_checkpoints (l : list CheckpointRow) (d : Db) : Db :=
  mk_db _ (operations d) l (leases d) (evidence d) (gates d) (tasks d) (task_deps d) (requirements d)
    (task_workflow d) (db_now d) (db_ctx d) (db_fault d).
Definition set_leases (l : gmap string LeaseRow) (d : Db) : Db :=
  mk_db _ (operations d) (checkpoints d) l (evidence d) (gates d) (tasks d) (task_deps d) (requirements d)
    (task_workflow d) (db_now d) (db_ctx d) (db_fault d).
Definition set_evidence (l : list EvidenceRow) (d : Db) : Db :=
  mk_db _ (operations d) (checkpoints d) (leases d) l (gates d) (tasks d) (task_deps d) (requirements d)
    (task_workflow d) (db_now d) (db_ctx d) (db_fault d).
Definition set_gates (l : list GateRow) (d : Db) : Db :=
  mk_db _ (operations d) (checkpoints d) (leases d) (evidence d) l (tasks d) (task_deps d) (requirements d)
    (task_workflow d) (db_now d) (db_ctx d) (db_fault d).
Definition set_tasks (l : list TaskRow) (d : Db) : Db :=
  mk_db _ (operations d) (checkpoints d) (leases d) (evidence d) (gates d) l (task_deps d) (requirements d)
    (task_workflow d) (db_now d) (db_ctx d) (db_fault d).
Definition set_deps (l : list (string * string)) (d : Db) : Db :=
  mk_db _ (operations d) (checkpoints d) (leases d) (evidence d) (gates d) (tasks d) l (requirements d)
    (task_workflow d) (db_now d) (db_ctx d) (db_fault d).
Definition set_requirements (l : list RequirementRow) (d : Db) : Db :=
  mk_db _ (operations d) (checkpoints d) (leases d) (evidence d) (gates d) (tasks d) (task_deps d) l
    (task_workflow d) (db_now d) (db_ctx d) (db_fault d).
Definition set_workflow (l : gmap string (string * Body)) (d : Db) : Db :=
  mk_db _ (operations d) (checkpoints d) (leases d) (evidence d) (gates d) (tasks d) (task_deps d) (requirements d)
    l (db_now d) (db_ctx d) (db_fault d).
Definition set_ctx (c : option error) (d : Db) : Db :=
  mk_db _ (operations d) (checkpoints d) (leases d) (evidence d) (gates d) (tasks d) (task_deps d) (requirements d)
    (task_workflow d) (db_now d) c (db_fault d).

(** Whether a statement under the caller's context can run. *)
Definition unavailable (d : Db) : option error :=
  match db_ctx d with Some e => Some e | None => db_fault d end.

(** [store/db.go:132-150 DB.Tx] a failed transaction is rolled back. *)
Definition Tx {A} (m : DM A) : DM A := fun d =>
  match unavailable d with
  | Some e => (Err (wrap "store: begin on ledger: " e), d)
  | None => match m d with
            | (Ok a, d') => (Ok a, d')
            | (Err e, _) => (Err e, d)
            end
  end.

(** A query outside a transaction. *)
Definition query {A} (f : Db → A) : DM A := fun d =>
  match unavailable d with Some e => (Err e, d) | None => (Ok (f d), d) end.

(** [ledger/ledger.go:159-161 recording] run under a context that is not
    cancelled; the ten-second bound of the write is part of [db_fault]. *)
Definition recording {A} (m : DM A) : DM A := fun d =>
  let '(r, d') := m (set_ctx None d) in (r, set_ctx (db_ctx d) d').

Definition millis (ns : Z) : Z := (ns / 1000000)%Z.

(** ** The journal *)

Definition of_task (task : string) (ops : list Operation) : list Operation :=
  filter (λ o, Op_TaskID o = task) ops.
(** [COALESCE(MAX(seq), 0)] over a task's rows. *)
Definition max_seq (task : string) (ops : list Operation) : Z :=
  foldr Z.max 0%Z (Seq <$> of_task task ops).
(** SQLite's next rowid. *)
Definition next_id (ops : list Operation) : Z := (1 + foldr Z.max 0 (Op_ID <$> ops))%Z.

(** [ledger/ledger.go:117-124 Handle] *)
Record Handle := mk_handle { h_id : Z; h_seq : Z; h_task : string; h_kind : OpKind; h_done : bool }.

(** [ledger/ledger.go:83-113 Ledger.Begin] *)
Definition Begin (taskID : string) (kind : OpKind) (intent : json) (candidateBefore : string) : DM Handle :=
  wrapM ("ledger: begin " +:+ show_op kind +:+ " for " +:+ taskID +:+ ": ")
    (Tx (d ← gets id;
         let seq := (max_seq taskID (operations d) + 1)%Z in
         let id := next_id (operations d) in
         _ ← modify (set_operations (operations d ++
               [mk_op id taskID seq kind intent None candidateBefore "" "" (millis (db_now d)) 0 ""]));
         mret (mk_handle id seq taskID kind false))).

(** [UPDATE operations SET .. WHERE id = ?] *)
Definition update_op (id : Z) (f : Operation → Operation) (d : Db) : Db :=
  set_operations ((λ o, if Z.eqb (Op_ID o) id then f o else o) <$> operations d) d.

Definition with_outcome (outcome : json) (after evidence : string) (now : Z) (o : Operation) : Operation :=
  mk_op (Op_ID o) (Op_TaskID o) (Seq o) (Op_Kind o) (Intent o) (Some outcome) (CandidateBefore o) after evidence
    (StartedAt o) now (Op_Error o).
Definition with_error (cause : string) (now : Z) (o : Operation) : Operation :=
  mk_op (Op_ID o) (Op_TaskID o) (Seq o) (Op_Kind o) (Intent o) (Op_Outcome o) (CandidateBefore o) (CandidateAfter o)
    (EvidenceID o) (StartedAt o) now cause.
Definition spent (h : Handle) : Handle := mk_handle (h_id h) (h_seq h) (h_task h) (h_kind h) true.

Definition already_finished (h : Handle) : error :=
  errorf ("ledger: operation " +:+ pretty (h_id h) +:+ " already finished").

(** [ledger/ledger.go:215-235 Handle.finish] the handle as it is afterwards. *)
Definition finish (h : Handle) (outcome : json) (candidateAfter evidenceID : string) : DM Handle :=
  if h_done h then throw (already_finished h) else
  _ ← wrapM ("ledger: complete " +:+ show_op (h_kind h) +:+ " (" +:+ pretty (h_id h) +:+ "): ")
        (Tx (d ← gets id;
             modify (update_op (h_id h) (with_outcome outcome candidateAfter evidenceID (millis (db_now d))))));
  mret (spent h).

(** [ledger/ledger.go:164-166 Handle.Complete] *)
Definition Complete (h : Handle) (outcome : json) (candidateAfter evidenceID : string) : DM Handle :=
  finish h outcome candidateAfter evidenceID.

Definition failed_outcome (cause : error) : json :=
  JObj [("error", JStr (err_msg cause)); ("status", JStr "failed")].

(** [ledger/ledger.go:175-177 Handle.Fail] *)
Definition FailOp (h : Handle) (cause : error) : DM Handle := finish h (failed_outcome cause) "" "".

(** [ledger/ledger.go:191-213 Handle.Interrupted] *)
Definition Interrupted (h : Handle) (cause : option error) : DM Handle :=
  if h_done h then throw (already_finished h) else
  let cause := match cause with Some e => e | None => errorf "interrupted" end in
  _ ← wrapM ("ledger: record interruption for " +:+ show_op (h_kind h) +:+ " (" +:+ pretty (h_id h) +:+ "): ")
        (recording (Tx (d ← gets id;
           modify (update_op (h_id h) (with_error (err_msg cause) (millis (db_now d)))))));
  mret (spent h).

Definition seq_less (a b : Operation) : bool := Z.ltb (Seq a) (Seq b).

(** [ledger/ledger.go:245-271 Ledger.Operations] *)
Definition Operations (taskID : string) : DM (list Operation) :=
  query (λ d, stable_sort seq_less (of_task taskID (operations d))).

Definition same_checkpoint (task : string) (seq : Z) (c : CheckpointRow) : bool :=
  String.eqb (Cp_Task c) task && Z.eqb (Cp_Seq c) seq.

(** [ledger/ledger.go:274-294 Ledger.Checkpoint] *)
Definition Checkpoint (taskID state : string) (handoff : json) (candidate : string) : DM unit :=
  Tx (d ← gets id;
      let seq := max_seq taskID (operations d) in
      let row := mk_checkpoint taskID seq state handoff candidate (millis (db_now d)) in
      modify (set_checkpoints
        (if existsb (same_checkpoint taskID seq) (checkpoints d)
         then (λ c, if same_checkpoint taskID seq c then row else c) <$> checkpoints d
         else checkpoints d ++ [row]))).

Definition later_checkpoint (a b : CheckpointRow) : bool := Z.ltb (Cp_Seq b) (Cp_Seq a).

(** [ledger/ledger.go:297-307 Ledger.LastCheckpoint] *)
Definition LastCheckpoint (taskID : string) : DM (option CheckpointRow) :=
  query (λ d, head (stable_sort later_checkpoint (filter (λ c, Cp_Task c = taskID) (checkpoints d)))).

(** [ledger/recover.go:356-370 Ledger.RecordEvidence] *)
Definition RecordEvidence (id taskID kind status candidate artifactHash summary : string) (detail : json) : DM unit :=
  Tx (d ← gets (λ d, d);
      let row := mk_evidence id taskID kind status candidate artifactHash summary detail (millis (db_now d)) in
      modify (set_evidence
        (if existsb (λ e, String.eqb (Ev_ID e) id) (evidence d)
         then (λ e, if String.eqb (Ev_ID e) id
                    then mk_evidence id (Ev_Task e) (Ev_Kind e) status candidate (Ev_Artifact e) summary detail (Ev_Created e)
                    else e) <$> evidence d
         else evidence d ++ [row]))).

(** ** Leases *)

(** [ledger/lease.go:12-12 ErrLeaseHeld] *)
Definition ErrLeaseHeld (msg : string) : error :=
  mk_error (Some "ledger.ErrLeaseHeld") ("ledger: worktree lease is held: " +:+ msg).

(** [ledger/lease.go:17-17 DefaultLeaseTTL] *)
Definition DefaultLeaseTTL : Z := 60000000000.

(** [ledger/lease.go:20-25 Lease]; [L_Expires] in nanoseconds. *)
Record Lease := mk_lease { L_Worktree : string; L_Task : string; L_Holder : string; L_Expires : Z }.

(** [ledger/lease.go:28-28 Lease.Expired] *)
Definition Expired (now : Z) (l : Lease) : bool := Z.ltb (L_Expires l) now.

(** [time.UnixMilli(e).After(now)] *)
Definition row_live (now : Z) (r : LeaseRow) : bool := Z.ltb now (Lr_Expires r * 1000000).

(** [ledger/lease.go:33-68 Ledger.AcquireLease] *)
Definition AcquireLease (worktreeID taskID holder : string) (ttl : Z) : DM Lease :=
  let ttl := if Z.leb ttl 0 then DefaultLeaseTTL else ttl in
  Tx (d ← gets id;
      let now := db_now d in
      let expires := (now + ttl)%Z in
      _ ← lift (match leases d !! worktreeID with
                | Some cur => guard_err (row_live now cur && negb (String.eqb (Lr_Holder cur) holder))
                                (ErrLeaseHeld (Lr_Holder cur +:+ " holds " +:+ worktreeID))
                | None => Ok tt
                end);
      _ ← modify (set_leases (<[worktreeID := mk_lease_row taskID holder (millis expires)]> (leases d)));
      mret (mk_lease worktreeID taskID holder expires)).

(** [ledger/lease.go:71-95 Ledger.RenewLease] *)
Definition RenewLease (worktreeID holder : string) (ttl : Z) : DM Lease :=
  let ttl := if Z.leb ttl 0 then DefaultLeaseTTL else ttl in
  Tx (d ← gets id;
      let expires := (db_now d + ttl)%Z in
      match leases d !! worktreeID with
      | Some cur =>
          if String.eqb (Lr_Holder cur) holder then
            _ ← modify (set_leases (<[worktreeID := mk_lease_row (Lr_Task cur) holder (millis expires)]> (leases d)));
            mret (mk_lease worktreeID "" holder expires)
          else throw (errorf ("ledger: " +:+ holder +:+ " does not hold a lease on " +:+ worktreeID))
      | None => throw (errorf ("ledger: " +:+ holder +:+ " does not hold a lease on " +:+ worktreeID))
      end).

(** [ledger/lease.go:98-104 Ledger.ReleaseLease] *)
Definition ReleaseLease (worktreeID holder : string) : DM unit :=
  Tx (modify (λ d,
    match leases d !! worktreeID with
    | Some cur => if String.eqb (Lr_Holder cur) holder then set_leases (delete worktreeID (leases d)) d else d
    | None => d
    end)).

(** [ledger/lease.go:107-126 Ledger.Leases] *)
Definition Leases : DM (list Lease) :=
  query (λ d, stable_sort (λ a b, str_ltb (L_Worktree a) (L_Worktree b))
    ((λ e, mk_lease e.1 (Lr_Task e.2) (Lr_Holder e.2) (Lr_Expires e.2 * 1000000)) <$> map_to_list (leases d))).
End ledger.

(** ** Facts about transactions *)

Section facts.
Context {Body : Type}.
Notation Db := (Db Body).
Implicit Types d : Db.

Lemma Tx_err {A} (m : M Db A) d e d' : Tx m d = (Err e, d') → d' = d.
Proof. unfold Tx. destruct (unavailable d); [by intros [= _ <-] |]. destruct (m d) as [[a|e'] d1]; by intros [= ? <-]. Qed.

Lemma Tx_ok {A} (m : M Db A) d a d' : Tx m d = (Ok a, d') ↔ unavailable d = None ∧ m d = (Ok a, d').
Proof. unfold Tx. destruct (unavailable d); [naive_solver |]. destruct (m d) as [[a'|e'] d1]; naive_solver. Qed.

Lemma wrapM_ok {A} p (m : M Db A) d a d' : wrapM p m d = (Ok a, d') ↔ m d = (Ok a, d').
Proof. unfold wrapM. destruct (m d) as [[a'|e'] d1]; cbn; naive_solver. Qed.

Lemma wrapM_err {A} p (m : M Db A) d e d' : wrapM p m d = (Err e, d') → ∃ e', m d = (Err e', d').
Proof. unfold wrapM. destruct (m d) as [[a'|e'] d1]; cbn; naive_solver. Qed.

Lemma set_ctx_set_ctx c c' d : set_ctx c (set_ctx c' d) = set_ctx c d.
Proof. done. Qed.
Lemma set_ctx_id d : set_ctx (db_ctx d) d = d.
Proof. by destruct d. Qed.

(** ** What each journal call does *)

Lemma Begin_ok taskID kind intent before d h d' :
  Begin taskID kind intent before d = (Ok h, d') ↔
  unavailable d = None ∧
  h = mk_handle (next_id (operations d)) (max_seq taskID (operations d) + 1) taskID kind false ∧
  d' = set_operations (operations d ++
         [mk_op (next_id (operations d)) taskID (max_seq taskID (operations d) + 1) kind intent None before "" ""
            (millis (db_now d)) 0 ""]) d.
Proof.
  unfold Begin. rewrite wrapM_ok, Tx_ok. cbn. split; [intros [? [= <- <-]] | intros (? & -> & ->)]; done.
Qed.

Lemma Begin_err taskID kind intent before d e d' : Begin taskID kind intent before d = (Err e, d') → d' = d.
Proof. intros [e' H]%wrapM_err. by apply Tx_err in H. Qed.

Lemma finish_ok h outcome after ev d h' d' :
  finish h outcome after ev d = (Ok h', d') ↔
  h_done h = false ∧ unavailable d = None ∧ h' = spent h ∧
  d' = update_op (h_id h) (with_outcome outcome after ev (millis (db_now d))) d.
Proof.
  unfold finish. destruct (h_done h) eqn:Hd; [cbn; split; [done | by intros []] |].
  unfold_M. unfold Tx. destruct (unavailable d) eqn:Hu; cbn.
  - split; [done | by intros (_ & ? & _)].
  - split; [intros [= <- <-] | intros (_ & _ & -> & ->)]; done.
Qed.

Lemma finish_err h outcome after ev d e d' : finish h outcome after ev d = (Err e, d') → d' = d.
Proof.
  unfold finish. destruct (h_done h); [by intros [= _ <-] |].
  unfold_M. unfold Tx. destruct (unavailable d) eqn:Hu; cbn; [by intros [= _ <-] | done].
Qed.

Lemma update_op_ctx id f c d : set_ctx c (update_op id f d) = update_op id f (set_ctx c d).
Proof. done. Qed.

Lemma Interrupted_ok h cause d h' d' :
  Interrupted h cause d = (Ok h', d') ↔
  h_done h = false ∧ db_fault d = None ∧ h' = spent h ∧
  d' = update_op (h_id h) (with_error (err_msg (default (errorf "interrupted") cause)) (millis (db_now d))) d.
Proof.
  assert (Hc : (match cause with Some e => e | None => errorf "interrupted" end) = default (errorf "interrupted") cause)
    by (by destruct cause).
  unfold Interrupted. rewrite Hc. destruct (h_done h) eqn:Hd; [cbn; split; [done | by intros []] |].
  unfold_M. unfold recording, Tx, unavailable. cbn. destruct (db_fault d) eqn:Hf; cbn.
  - split; [done | by intros (_ & ? & _)].
  - destruct d; unfold update_op, set_operations, set_ctx; cbn in *. subst.
    split; [intros [= <- <-] | intros (_ & _ & -> & ->)]; done.
Qed.

Lemma Interrupted_err h cause d e d' : Interrupted h cause d = (Err e, d') → d' = d.
Proof.
  unfold Interrupted. destruct (h_done h); [by intros [= _ <-] |].
  unfold_M. unfold recording, Tx, unavailable. cbn.
  destruct (db_fault d) eqn:Hf; cbn; [|done]. intros [= _ <-]. destruct d; cbn in *; by subst.
Qed.

(** ** The rows of the journal *)

Record rows_ok (ops : list Operation) : Prop := {
  rows_ids : NoDup (Op_ID <$> ops);
  rows_positive : ∀ o, o ∈ ops → (1 ≤ Op_ID o)%Z;
  rows_seqs : ∀ task, Seq <$> of_task task ops = Z.of_nat <$> seq 1 (length (of_task task ops)) }.

Lemma foldr_max_ub (l : list Z) x : x ∈ l → (x ≤ foldr Z.max 0 l)%Z.
Proof. induction l as [|y l IH]; cbn; [set_solver |]. intros [->|H]%elem_of_cons; [lia |]. specialize (IH H). lia. Qed.

Lemma foldr_max_seq n : foldr Z.max 0%Z (Z.of_nat <$> seq 1 n) = Z.of_nat n.
Proof.
  assert (H : ∀ a b, foldr Z.max b (Z.of_nat <$> seq a n) = Z.max b (match n with O => b | _ => Z.of_nat (a + n - 1) end)).
  { induction n as [|m IH]; intros a b; [cbn; lia |]. cbn [seq fmap list_fmap foldr]. rewrite IH. destruct m; lia. }
  rewrite H. destruct n; lia.
Qed.

Lemma max_seq_count task ops : rows_ok ops → max_seq task ops = Z.of_nat (length (of_task task ops)).
Proof. intros H. unfold max_seq. rewrite (rows_seqs _ H). apply foldr_max_seq. Qed.

Lemma next_id_fresh ops o : o ∈ ops → (Op_ID o < next_id ops)%Z.
Proof. intros H. unfold next_id. pose proof (foldr_max_ub (Op_ID <$> ops) (Op_ID o)). specialize (H0 (list_elem_of_fmap_2 _ _ _ H)). lia. Qed.

Lemma of_task_app task l1 l2 : of_task task (l1 ++ l2) = of_task task l1 ++ of_task task l2.
Proof. apply filter_app. Qed.

Lemma of_task_cons task o l :
  of_task task (o :: l) = if decide (Op_TaskID o = task) then o :: of_task task l else of_task task l.
Proof. unfold of_task. rewrite filter_cons. by destruct (decide _). Qed.

Lemma rows_begin ops o :
  rows_ok ops → Op_ID o = next_id ops → Seq o = (max_seq (Op_TaskID o) ops + 1)%Z → rows_ok (ops ++ [o]).
Proof.
  intros Hr Hid Hseq. split.
  - rewrite fmap_app. apply NoDup_app. split_and!; [apply Hr | | apply NoDup_singleton].
    intros x (o' & -> & Ho')%list_elem_of_fmap. cbn. rewrite list_elem_of_singleton, Hid.
    apply next_id_fresh in Ho'. lia.
  - intros o' [H| ->%list_elem_of_singleton]%elem_of_app; [by apply Hr |]. rewrite Hid. unfold next_id.
    assert (0 ≤ foldr Z.max 0 (Op_ID <$> ops))%Z; [|lia]. clear. induction ops; cbn; lia.
  - intros task. rewrite of_task_app, of_task_cons, fmap_app, length_app, (rows_seqs _ Hr).
    change (of_task task []) with (@nil Operation).
    destruct (decide (Op_TaskID o = task)) as [Ht|Ht]; cbn [length fmap list_fmap].
    + rewrite Nat.add_1_r, seq_S, fmap_app. cbn [fmap list_fmap]. rewrite Hseq, Ht, (max_seq_count _ _ Hr).
      do 2 f_equal. lia.
    + by rewrite Nat.add_0_r, app_nil_r.
Qed.

(** An update that keeps the identifying columns keeps the shape. *)
Definition same_row (o o' : Operation) : Prop :=
  Op_ID o' = Op_ID o ∧ Op_TaskID o' = Op_TaskID o ∧ Seq o' = Seq o ∧ Op_Kind o' = Op_Kind o ∧
  Intent o' = Intent o ∧ CandidateBefore o' = CandidateBefore o ∧ StartedAt o' = StartedAt o.

Lemma of_task_fmap task (g : Operation → Operation) ops :
  (∀ o, same_row o (g o)) → of_task task (g <$> ops) = g <$> of_task task ops.
Proof.
  intros Hg. induction ops as [|o ops IH]; [done |]. cbn [fmap list_fmap]. rewrite !of_task_cons, IH.
  destruct (Hg o) as (_ & Ht & _). rewrite Ht. by destruct (decide (Op_TaskID o = task)).
Qed.

Lemma rows_update ops (g : Operation → Operation) : (∀ o, same_row o (g o)) → rows_ok ops → rows_ok (g <$> ops).
Proof.
  intros Hg Hr. split.
  - rewrite <- list_fmap_compose. erewrite list_fmap_ext; [apply Hr |]. intros i o _. apply (Hg o).
  - intros o (o' & -> & Ho)%list_elem_of_fmap. destruct (Hg o') as [-> _]. by apply Hr.
  - intros task. rewrite of_task_fmap, length_fmap by done. rewrite <- (rows_seqs _ Hr), <- list_fmap_compose.
    apply list_fmap_ext. intros i o _. apply (Hg o).
Qed.

Lemma same_row_refl o : same_row o o.
Proof. done. Qed.
Lemma with_outcome_same j a e n o : same_row o (with_outcome j a e n o).
Proof. done. Qed.
Lemma with_error_same c n o : same_row o (with_error c n o).
Proof. done. Qed.

Lemma same_row_trans o1 o2 o3 : same_row o1 o2 → same_row o2 o3 → same_row o1 o3.
Proof. unfold same_row. intuition congruence. Qed.

(** Only a recorded outcome makes an operation certain, and it is recorded
    under a live context only.  With the caller's context cancelled, Complete
    and Fail are refused and leave the database as it was, so the row stays
    uncertain; Interrupted still writes the cause beside it, for that row only,
    without an outcome.  After any of the three succeeds the handle is spent and
    each of them refuses it. *)
Theorem outcome_discipline h outcome after ev cause d :
  (is_ok (finish h outcome after ev d).1 = true →
     h_done h = false ∧ db_ctx d = None ∧
     ∀ o, o ∈ operations (finish h outcome after ev d).2 → Op_ID o = h_id h → Op_Outcome o = Some outcome) ∧
  (db_ctx d ≠ None → is_ok (finish h outcome after ev d).1 = false ∧ (finish h outcome after ev d).2 = d) ∧
  (h_done h = false → db_fault d = None →
     (Interrupted h cause d).1 = Ok (spent h) ∧
     Forall2 (λ o o', same_row o o' ∧ Op_Outcome o' = Op_Outcome o ∧
       (Op_ID o ≠ h_id h → o' = o) ∧
       (Op_ID o = h_id h → Op_Error o' = err_msg (default (errorf "interrupted") cause)))
       (operations d) (operations (Interrupted h cause d).2)) ∧
  (is_ok (finish (spent h) outcome after ev d).1 = false) ∧ is_ok (Interrupted (spent h) cause d).1 = false.
Proof.
  split_and!.
  - destruct (finish h outcome after ev d) as [[h'|e] d'] eqn:E; [|done]. intros _.
    apply finish_ok in E as (Hd & Hu & _ & ->). unfold unavailable in Hu. destruct (db_ctx d); [done |].
    split_and!; [done | done |]. cbn. intros o (o' & -> & _)%list_elem_of_fmap Hid.
    destruct (Z.eqb_spec (Op_ID o') (h_id h)); done.
  - intros Hc. destruct (finish h outcome after ev d) as [[h'|e] d'] eqn:E.
    + apply finish_ok in E as (_ & Hu & _). unfold unavailable in Hu. by destruct (db_ctx d).
    + apply finish_err in E. done.
  - intros Hd Hf. assert (E : Interrupted h cause d = (Ok (spent h),
      update_op (h_id h) (with_error (err_msg (default (errorf "interrupted") cause)) (millis (db_now d))) d))
      by (by apply Interrupted_ok).
    rewrite E. split; [done |]. cbn. apply Forall2_fmap_r. apply Forall2_same_length_lookup_2.
    + done.
    + intros i o o' Ho Ho'. rewrite Ho in Ho'. injection Ho' as <-.
      unfold compose. destruct (Op_ID o =? h_id h)%Z eqn:E2.
      * apply Z.eqb_eq in E2. by split_and!.
      * apply Z.eqb_neq in E2. by split_and!.
  - done.
  - done.
Qed.
End facts.

(** ** The journal at work *)

Definition empty_db : Db unit := mk_db _ [] [] ∅ [] [] [] [] [] ∅ 5000000 None None.

Definition demo_begin := Begin "t1" KEdit (JObj [("path", JStr "a.go")]) "c0" empty_db.
Definition demo_handle : Handle := mk_handle 1 1 "t1" KEdit false.
Definition demo_complete := Complete demo_handle (JObj []) "c1" "" demo_begin.2.

(** ** Leases *)

Section lease_facts.
Context {Body : Type}.
Notation Db := (Db Body).
Implicit Types d : Db.

Lemma AcquireLease_ok w task holder ttl d l d' :
  AcquireLease w task holder ttl d = (Ok l, d') ↔
  unavailable d = None ∧
  (∀ cur, leases d !! w = Some cur → row_live (db_now d) cur = false ∨ Lr_Holder cur = holder) ∧
  l = mk_lease w task holder (db_now d + (if Z.leb ttl 0 then DefaultLeaseTTL else ttl)) ∧
  d' = set_leases (<[w := mk_lease_row task holder (millis (L_Expires l))]> (leases d)) d.
Proof.
  unfold AcquireLease. rewrite Tx_ok. unfold_M. cbn.
  destruct (leases d !! w) as [cur|].
  - unfold guard_err. destruct (row_live (db_now d) cur) eqn:El; cbn.
    + destruct (String.eqb_spec (Lr_Holder cur) holder) as [E|E]; cbn.
      * split; [intros [? [= <- <-]]; split_and!; try done; intros ? [= <-]; by right | intros (? & _ & -> & ->); done].
      * split; [by intros [_ ?] |]. intros (_ & H & _). destruct (H cur eq_refl); congruence.
    + split; [intros [? [= <- <-]]; split_and!; try done; intros ? [= <-]; by left | intros (? & _ & -> & ->); done].
  - split; [intros [? [= <- <-]]; by split_and! | intros (? & _ & -> & ->); done].
Qed.

Lemma AcquireLease_err w task holder ttl d e d' : AcquireLease w task holder ttl d = (Err e, d') → d' = d.
Proof. apply Tx_err. Qed.

Lemma RenewLease_ok w holder ttl d l d' : RenewLease w holder ttl d = (Ok l, d') →
  ∃ cur, leases d !! w = Some cur ∧ Lr_Holder cur = holder ∧
    d' = set_leases (<[w := mk_lease_row (Lr_Task cur) holder (millis (L_Expires l))]> (leases d)) d.
Proof.
  unfold RenewLease. rewrite Tx_ok. unfold_M. cbn. intros [_ H].
  destruct (leases d !! w) as [cur|]; [|done].
  destruct (String.eqb_spec (Lr_Holder cur) holder) as [E|E]; [|done]. injection H as <- <-. by exists cur.
Qed.

Lemma ReleaseLease_ok w holder d u d' : ReleaseLease w holder d = (Ok u, d') →
  d' = d ∨ ∃ cur, leases d !! w = Some cur ∧ Lr_Holder cur = holder ∧ d' = set_leases (delete w (leases d)) d.
Proof.
  unfold ReleaseLease. rewrite Tx_ok. unfold_M. intros [_ [= _ <-]].
  destruct (leases d !! w) as [cur|]; [|by left].
  destruct (String.eqb_spec (Lr_Holder cur) holder) as [E|E]; [right; by exists cur | by left].
Qed.

(** What the other instances do meanwhile: any lease call of any holder but
    [me], on any worktree, and time passing while other tables change. *)
Inductive others (me : string) : Db → Db → Prop :=
| others_acquire d w task holder ttl r d' :
    holder ≠ me → AcquireLease w task holder ttl d = (r, d') → others me d d'
| others_renew d w holder ttl r d' :
    holder ≠ me → RenewLease w holder ttl d = (r, d') → others me d d'
| others_release d w holder r d' :
    holder ≠ me → ReleaseLease w holder d = (r, d') → others me d d'
| others_time d d' : leases d' = leases d → (db_now d ≤ db_now d')%Z → others me d d'.

Definition holds_lease (w me : string) (expires : Z) (d : Db) : Prop :=
  ∃ row, leases d !! w = Some row ∧ Lr_Holder row = me ∧ Lr_Expires row = expires.

Lemma others_keep me w expires d d' :
  others me d d' → (db_now d' < expires * 1000000)%Z → holds_lease w me expires d →
  holds_lease w me expires d' ∧ (db_now d ≤ db_now d')%Z.
Proof.
  destruct 1 as [d w2 task holder ttl r d' Hn H|d w2 holder ttl r d' Hn H|d w2 holder r d' Hn H|d d' Hl Ht];
    intros Hlt (row & Hrow & Hme & Hex).
  - destruct r as [l|e]; [|apply AcquireLease_err in H as ->; split; [by exists row | lia]].
    apply AcquireLease_ok in H as (_ & Hcur & _ & ->). split; [|cbn; lia].
    destruct (decide (w2 = w)) as [->|Hw].
    + exfalso. destruct (Hcur _ Hrow) as [Hl|Hl]; [|congruence].
      unfold row_live in Hl. rewrite Hex in Hl. apply Z.ltb_ge in Hl. cbn in Hlt. lia.
    + exists row. cbn. by rewrite lookup_insert_ne.
  - destruct r as [l|e]; [|apply Tx_err in H as ->; split; [by exists row | lia]].
    apply RenewLease_ok in H as (cur & Hcur & Hh & ->). split; [|cbn; lia].
    destruct (decide (w2 = w)) as [->|Hw]; [exfalso; congruence |].
    exists row. cbn. by rewrite lookup_insert_ne.
  - destruct r as [l|e]; [|apply Tx_err in H as ->; split; [by exists row | lia]].
    apply ReleaseLease_ok in H as [->|(cur & Hcur & Hh & ->)]; [split; [by exists row | lia] |].
    split; [|cbn; lia]. destruct (decide (w2 = w)) as [->|Hw]; [exfalso; congruence |].
    exists row. cbn. by rewrite lookup_delete_ne.
  - split; [|done]. exists row. by rewrite Hl.
Qed.

(** C36: A live lease is never stolen.  From the moment a holder's acquisition
    succeeds until the stored expiry, whatever acquisitions, renewals and
    releases other instances attempt in whatever order, the worktree stays with
    that holder, and every other instance's acquisition is refused with
    ErrLeaseHeld and changes nothing. *)
Theorem lease_exclusive w task me ttl d lease d1 d2 :
  AcquireLease w task me ttl d = (Ok lease, d1) →
  rtc (others me) d1 d2 →
  (db_now d2 < millis (L_Expires lease) * 1000000)%Z →
  holds_lease w me (millis (L_Expires lease)) d2 ∧
  ∀ task' other ttl', other ≠ me → unavailable d2 = None →
    ∃ msg, AcquireLease w task' other ttl' d2 = (Err (ErrLeaseHeld msg), d2).
Proof.
  intros Ha Hs Hlt.
  assert (Hh : holds_lease w me (millis (L_Expires lease)) d1).
  { apply AcquireLease_ok in Ha as (_ & _ & -> & ->). eexists. cbn. by rewrite lookup_insert_eq. }
  assert (Hkeep : holds_lease w me (millis (L_Expires lease)) d2).
  { clear Ha. induction Hs as [|d1 d' d2 H Hs IH]; [done |]. apply IH; [done |].
    assert (Hm : (db_now d' ≤ db_now d2)%Z).
    { clear -Hs Hlt. induction Hs as [|a b c H _ IH]; [lia |]. specialize (IH Hlt).
      destruct H as [? ? ? ? ? r ? _ H|? ? ? ? r ? _ H|? ? ? r ? _ H|]; [..|lia]; destruct r.
      - apply AcquireLease_ok in H as (_ & _ & _ & ->). done.
      - apply AcquireLease_err in H as ->. done.
      - apply RenewLease_ok in H as (? & _ & _ & ->). done.
      - apply Tx_err in H as ->. done.
      - apply ReleaseLease_ok in H as [->|(? & _ & _ & ->)]; done.
      - apply Tx_err in H as ->. done. }
    apply (others_keep me w _ d1 d'); [done | lia | done]. }
  split; [done |]. intros task' other ttl' Ho Hu. destruct Hkeep as (row & Hrow & Hme & Hex).
  exists (Lr_Holder row +:+ " holds " +:+ w). unfold AcquireLease, Tx. rewrite Hu. unfold_M. cbn. rewrite Hrow.
  unfold row_live. rewrite Hex, (proj2 (Z.ltb_lt _ _) Hlt), Hme, (proj2 (String.eqb_neq me other)) by congruence.
  done.
Qed.

(** A lease that is not renewed lapses, and a little before its holder can
    tell: from the stored expiry on, which is the holder's own expiry cut to
    whole milliseconds, any other instance gets the worktree, even at instants
    at which the lease value its holder was given is not expired. *)
Theorem lease_lapses w task me ttl d lease d1 d2 task' other ttl' :
  AcquireLease w task me ttl d = (Ok lease, d1) →
  leases d2 = leases d1 → unavailable d2 = None →
  (millis (L_Expires lease) * 1000000 ≤ db_now d2)%Z →
  is_ok (AcquireLease w task' other ttl' d2).1 = true ∧
  ((db_now d2 ≤ L_Expires lease)%Z → Expired (db_now d2) lease = false).
Proof.
  intros Ha Hl Hu Ht. split; [|intros H; unfold Expired; by apply Z.ltb_ge].
  assert (E : AcquireLease w task' other ttl' d2 =
    (Ok (mk_lease w task' other (db_now d2 + (if Z.leb ttl' 0 then DefaultLeaseTTL else ttl'))),
     set_leases (<[w := mk_lease_row task' other (millis (db_now d2 + (if Z.leb ttl' 0 then DefaultLeaseTTL else ttl')))]> (leases d2)) d2)).
  { apply AcquireLease_ok. split_and!; [done | | done | done]. intros cur Hc. left.
    apply AcquireLease_ok in Ha as (_ & _ & -> & ->). rewrite Hl in Hc. cbn in Hc. rewrite lookup_insert_eq in Hc.
    injection Hc as <-. unfold row_live. cbn in *. apply Z.ltb_ge. lia. }
  by rewrite E.
Qed.
End lease_facts.

Definition at_time (now : Z) (d : Db unit) : Db unit :=
  mk_db _ (operations d) (checkpoints d) (leases d) (evidence d) (gates d) (tasks d) (task_deps d) (requirements d)
    (task_workflow d) now (db_ctx d) (db_fault d).
Definition demo_now : Db unit := at_time 5000700 empty_db.
Definition demo_lease : Lease := mk_lease "wt" "t1" "A" (5000700 + DefaultLeaseTTL).
Definition demo_leased : Db unit := (AcquireLease "wt" "t1" "A" 0 demo_now).2.

Lemma lease_exclusive_witness :
  ∃ msg, AcquireLease "wt" "t2" "B" 0 (at_time 30000000000 demo_leased) =
    (Err (ErrLeaseHeld msg), at_time 30000000000 demo_leased).
Proof.
  apply (lease_exclusive "wt" "t1" "A" 0 demo_now demo_lease demo_leased (at_time 30000000000 demo_leased)).
  - reflexivity.
  - apply rtc_once, others_time; [reflexivity | vm_compute; discriminate].
  - vm_compute. reflexivity.
  - discriminate.
  - reflexivity.
Defined.

Lemma lease_lapses_witness :
  is_ok (AcquireLease "wt" "t2" "B" 0 (at_time (5000000 + DefaultLeaseTTL) demo_leased)).1 = true ∧
  Expired (5000000 + DefaultLeaseTTL) demo_lease = false.
Proof.
  destruct (lease_lapses "wt" "t1" "A" 0 demo_now demo_lease demo_leased (at_time (5000000 + DefaultLeaseTTL) demo_leased)
              "t2" "B" 0) as [H1 H2].
  - reflexivity.
  - reflexivity.
  - reflexivity.
  - vm_compute. discriminate.
  - split; [exact H1 |]. apply H2. vm_compute. discriminate.
Defined.

(** ** Evidence *)

Section evidence_facts.
Context {Body : Type}.
Implicit Types d : Db Body.

Lemma RecordEvidence_ok id taskID kind status candidate artifact summary detail d d' :
  RecordEvidence id taskID kind status candidate artifact summary detail d = (Ok tt, d') ↔
  unavailable d = None ∧
  d' = set_evidence
    (if existsb (λ e, String.eqb (Ev_ID e) id) (evidence d)
     then (λ e, if String.eqb (Ev_ID e) id
                then mk_evidence id (Ev_Task e) (Ev_Kind e) status candidate (Ev_Artifact e) summary detail (Ev_Created e)
                else e) <$> evidence d
     else evidence d ++ [mk_evidence id taskID kind status candidate artifact summary detail (millis (db_now d))]) d.
Proof. unfold RecordEvidence. rewrite Tx_ok. unfold_M. split; [intros [? [= <-]] | intros [? ->]]; done. Qed.

(** Evidence recorded again under an id (a task's second verification uses
    the same ids as its first) replaces the status, the candidate and the
    summary and leaves the rest of the row: it keeps the artifact of the first
    recording, so a row can name one candidate and hold the output of a run
    against another.  Rows under other ids are untouched. *)
Theorem RecordEvidence_again id t1 k1 s1 c1 a1 h1 j1 t2 k2 s2 c2 a2 h2 j2 d d1 d2 :
  (∀ e, e ∈ evidence d → Ev_ID e ≠ id) →
  RecordEvidence id t1 k1 s1 c1 a1 h1 j1 d = (Ok tt, d1) →
  RecordEvidence id t2 k2 s2 c2 a2 h2 j2 d1 = (Ok tt, d2) →
  evidence d1 = evidence d ++ [mk_evidence id t1 k1 s1 c1 a1 h1 j1 (millis (db_now d))] ∧
  evidence d2 = evidence d ++ [mk_evidence id t1 k1 s2 c2 a1 h2 j2 (millis (db_now d))].
Proof.
  intros Hfresh H1 H2. apply RecordEvidence_ok in H1 as [_ ->]. apply RecordEvidence_ok in H2 as [_ ->]. cbn.
  assert (E : existsb (λ e, String.eqb (Ev_ID e) id) (evidence d) = false).
  { apply not_true_is_false. intros (e & He & Hid%String.eqb_eq)%existsb_exists.
    apply (Hfresh e); [by apply list_elem_of_In | done]. }
  rewrite E. split; [done |]. rewrite existsb_app. cbn. rewrite String.eqb_refl, orb_true_r.
  rewrite fmap_app. cbn. rewrite String.eqb_refl. f_equal.
  rewrite <- (list_fmap_id (evidence d)) at 2. apply list_fmap_ext. intros i e He.
  apply list_elem_of_lookup_2, Hfresh in He. by rewrite (proj2 (String.eqb_neq _ _) He).
Qed.
End evidence_facts.

Lemma RecordEvidence_again_witness :
  ∃ d1 d2, RecordEvidence "t1-test-2" "t1" "test" "fail" "c1" "log1" "1 failed" JNull empty_db = (Ok tt, d1) ∧
    RecordEvidence "t1-test-2" "t1" "test" "pass" "c2" "log2" "ok" JNull d1 = (Ok tt, d2) ∧
    evidence d2 = [mk_evidence "t1-test-2" "t1" "test" "pass" "c2" "log1" "ok" JNull 5].
Proof.
  do 2 eexists. split_and!; [reflexivity | reflexivity |].
  eapply (RecordEvidence_again "t1-test-2" "t1" "test" "fail" "c1" "log1" "1 failed" JNull
            "t1" "test" "pass" "c2" "log2" "ok" JNull empty_db); [set_solver | reflexivity | reflexivity].
Defined.
