(* ===== verification/Recover.v ===== *)
(** Recovery, [src/internal/ledger/recover.go]: the content manifest of a
    worktree, the classification of uncertain operations by inspection, and the
    working state a restart is seeded with.  SHA-256 is a parameter. *)
From S2P Require Import Prelude GoStrings GoPath Json Worktree Ledger.

Open Scope string_scope.
Open Scope list_scope.
Open Scope nat_scope.

(** ** Data *)

(** [ledger/recover.go:22-31 Applied] *)
Inductive Applied := AppliedComplete | AppliedPartial | AppliedNotApplied | AppliedUnknown.
#[export] Instance applied_eq_dec : EqDecision Applied. Proof. solve_decision. Defined.

(** [ledger/recover.go:35-43 EditIntent] *)
Record EditIntent := mk_edit { EI_Path : string; AfterHash : string; BeforeHash : string; EI_Summary : string }.

(** [ledger/recover.go:46-50 Reconciliation] *)
Record Reconciliation := mk_rec { r_Operation : Operation; r_Applied : Applied; Detail : string }.

(** [ledger/recover.go:55-61 EvidenceStatus] *)
Record EvidenceStatus := mk_evstatus { Es_ID : string; Es_Kind : string; Es_Status : string; Es_Candidate : string; Stale : bool }.

(** [ledger/recover.go:64-91 WorkingState] *)
Record WorkingState := mk_ws {
  Ws_Task : string; Objective : string; InvestigatedFiles : list string; InvestigatedSymbols : list string;
  Decisions : list json; RejectedHypotheses : list json; CompletedEdits : list EditIntent;
  Validations : list EvidenceStatus; RemainingPlan : list string; NextAction : string;
  CurrentCandidate : string; LastCompletedCandidate : string; Drifted : bool;
  Ws_Uncertain : list Reconciliation; CheckpointS : Z; RecoveredAt : Z }.

(** [ledger/recover.go:96-103 WorkingState.SafeToResume] *)
Definition SafeToResume (w : WorkingState) : bool :=
  if existsb (λ u, bool_decide (r_Applied u = AppliedPartial)) (Ws_Uncertain w) then false else negb (Drifted w).

(** [ledger/recover.go:106-106 TerminalStates] *)
Definition TerminalStates : list string := ["accepted"; "failed"; "abandoned"].

(** [json.Unmarshal] into [EditIntent]. *)
Definition decode_edit (j : json) : option EditIntent :=
  path ← get_string "path" j;
  after ← get_string "after_hash" j;
  before ← get_string "before_hash" j;
  summary ← get_string "summary" j;
  Some (mk_edit path after before summary).

(** The accepted flag when the error of [json.Unmarshal] is dropped: members of
    the wrong type are passed over. *)
Definition loose_accepted (j : json) : bool :=
  match j with
  | JObj l => foldl (λ acc kv, if key_match kv.1 "accepted" then default acc (dec_bool kv.2) else acc) false l
  | _ => false
  end.

Section recover.
Context (sha : string → string).     (* SHA-256 in hexadecimal *)
Context (show_os_error : error → string).

(** [ledger/recover.go:420-431 hashFile] *)
Definition hashFile (f : fs) (p : apath) : result string := sha <$> ReadFile f p.

(** ** The content manifest *)

(** [ledger/recover.go:385-385 ContentManifest] *)
Definition skipped_dir (name : string) : bool := mem name [".git"; ".le"; "node_modules"; "vendor"].

(** Whether the walk from [root] gets to [root ++ rel]: every directory on the
    way is a real directory that is not skipped. *)
Definition walked (f : fs) (root rel : apath) : bool :=
  forallb (λ k, bool_decide (f !! (root ++ take k rel) = Some NDir) &&
                negb (skipped_dir (List.last (take k rel) "")))
    (seq 1 (pred (length rel))).

Definition visible_entry (f : fs) (root : apath) (e : apath * node) : option (string * string) :=
  match below root e.1, e.2 with
  | Some (c :: rel), NFile body => if walked f root (c :: rel) then Some (join "/" (c :: rel), body) else None
  | _, _ => None
  end.

(** [ledger/recover.go:379-408 ContentManifest] the regular files the walk
    visits: their paths below the root and their contents. *)
Definition visible_files (f : fs) (root : string) : result (list (string * string)) :=
  place ← lstat_place f (path_of root);
  match lookup_node f place with
  | None => Err ENOENT
  | Some (NFile body) => Ok [(".", body)]
  | Some (NLink _) => Ok []
  | Some NDir => Ok (omap (visible_entry f place) (map_to_list f))
  end.

Definition entry_less (a b : string * string) : bool := str_ltb a.1 b.1.

(** [ledger/recover.go:411-416 ContentManifest] what is hashed. *)
Definition manifest_text (entries : list (string * string)) : string :=
  foldr (λ e s, e.1 +:+ nul +:+ e.2 +:+ nul +:+ s) "" entries.

(** [ledger/recover.go:376-418 ContentManifest] *)
Definition ContentManifest (f : fs) (root : string) : result string :=
  files ← visible_files f root;
  let entries := stable_sort entry_less ((λ e, (e.1, sha e.2)) <$> files) in
  mret (sha (manifest_text entries)).

(** ** Inspection *)

(** [ledger/recover.go:301-332 inspect] an edit, with the file it declares. *)
Definition inspect_edit (f : fs) (op : Operation) (worktree : string) : Applied * string :=
  match decode_edit (Intent op) with
  | None => (AppliedUnknown, "edit intent did not declare a path; cannot classify")
  | Some ei =>
      if String.eqb (EI_Path ei) "" then (AppliedUnknown, "edit intent did not declare a path; cannot classify")
      else if String.eqb worktree "" then (AppliedUnknown, "no worktree available to inspect")
      else match hashFile f (path_of (join_path worktree (EI_Path ei))) with
      | Err e =>
          if is_not_exist e then (AppliedNotApplied, "target file is absent")
          else (AppliedUnknown, "could not read target file: " +:+ show_os_error e)
      | Ok got =>
          if String.eqb got (AfterHash ei) then (AppliedComplete, "file matches the intent's after-hash")
          else if String.eqb got (BeforeHash ei) then (AppliedNotApplied, "file still matches the intent's before-hash")
          else (AppliedPartial, "file matches neither the before- nor the after-hash")
      end
  end.

(** [ledger/recover.go:284-333 inspect] *)
Definition inspect (f : fs) (op : Operation) (worktree : string) : Reconciliation :=
  let '(applied, detail) :=
    match Op_Kind op with
    | KEdit => inspect_edit f op worktree
    | KRecipeRun => (AppliedUnknown, "recipe run with no recorded outcome; re-check the candidate before replaying (§7.2 step 3)")
    | _ => (AppliedUnknown, "read-only operation; safe to repeat")
    end in
  mk_rec op applied
    (if String.eqb (Op_Error op) "" then detail
     else trim_space ("interrupted: " +:+ Op_Error op +:+ ". " +:+ detail)).

(** ** The working state *)

Section tables.
Context {Body : Type}.
Notation DM := (M (Db Body)).

Definition older_evidence (a b : EvidenceRow) : bool := Z.ltb (Ev_Created a) (Ev_Created b).

(** [ledger/recover.go:335-352 Ledger.evidenceFor] *)
Definition evidenceFor (taskID candidate : string) : DM (list EvidenceStatus) :=
  query (λ d,
    (λ e, mk_evstatus (Ev_ID e) (Ev_Kind e) (Ev_Status e) (Ev_Candidate e)
            (negb (String.eqb candidate "") && negb (String.eqb (Ev_Candidate e) "") &&
             negb (String.eqb (Ev_Candidate e) candidate)))
      <$> stable_sort older_evidence (filter (λ e, Ev_Task e = taskID) (evidence d))).

(** [ledger/recover.go:257-276 nextAction] *)
Definition nextAction (st : WorkingState) : string :=
  match find (λ u, bool_decide (r_Applied u = AppliedPartial)) (Ws_Uncertain st) with
  | Some u => "inspect the partially applied operation at seq " +:+ pretty (Seq (r_Operation u)) +:+
              " and reconcile the worktree before continuing"
  | None =>
      if Drifted st then "re-run validation: the worktree no longer matches the last completed operation"
      else if existsb Stale (Validations st) then "re-run stale validations against the current candidate"
      else match RemainingPlan st with
           | step :: _ => step
           | [] => "re-plan from the reconstructed state"
           end
  end.

(** [ledger/recover.go:174-177 RecoverTask] *)
Definition last_completed (ops : list Operation) : string :=
  foldl (λ acc op, if negb (Uncertain op) && negb (String.eqb (CandidateAfter op) "") then CandidateAfter op else acc) "" ops.

(** [ledger/recover.go:201-243 RecoverTask] what the journal says was looked at,
    decided and edited. *)
Definition investigated_files (ops : list Operation) : list string :=
  sort_strings (dedup (omap (λ op,
    if decide (Op_Kind op = KInspectFile)
    then p ← get_string "path" (Intent op); if String.eqb p "" then None else Some p
    else None) ops)).
Definition searched_symbols (op : Operation) : list string :=
  if decide (Op_Kind op = KSearch ∨ Op_Kind op = KRetrieval)
  then match get_strings "symbols" (Intent op), get_string "query" (Intent op) with
       | Some l, Some _ => l
       | _, _ => []
       end
  else [].
Definition is_decision (accepted : bool) (op : Operation) : bool :=
  bool_decide (Op_Kind op = KDecision) && Bool.eqb (loose_accepted (Intent op)) accepted.
Definition completed_edits (ops : list Operation) : list EditIntent :=
  omap (λ op,
    if decide (Op_Kind op = KEdit ∧ Uncertain op = false)
    then ei ← decode_edit (Intent op); if String.eqb (EI_Path ei) "" then None else Some ei
    else None) ops.

(** [ledger/recover.go:190-199 RecoverTask] the handoff of the last checkpoint. *)
Definition decode_handoff (c : option CheckpointRow) : string * list string * string :=
  match c with
  | None => ("", [], "")
  | Some c =>
      match get_string "objective" (Cp_Handoff c), get_strings "remaining_plan" (Cp_Handoff c),
            get_string "next_action" (Cp_Handoff c) with
      | Some o, Some r, Some n => (o, r, n)
      | _, _, _ => ("", [], "")
      end
  end.

(** [ledger/recover.go:155-255 Ledger.RecoverTask] *)
Definition RecoverTask (f : fs) (taskID worktree : string) : DM WorkingState :=
  ops ← Operations taskID;
  current ← lift (if String.eqb worktree "" then Ok ""
                  else wrap_r ("ledger: manifest " +:+ worktree +:+ ": ") (ContentManifest f worktree));
  let last := last_completed ops in
  let uncertain := (λ op, inspect f op worktree) <$> filter (λ op, Uncertain op = true) ops in
  let drifted := negb (String.eqb last "") && negb (String.eqb current "") && negb (String.eqb last current) in
  cp ← LastCheckpoint taskID;
  let '(objective, remaining, next) := decode_handoff cp in
  validations ← evidenceFor taskID current;
  now ← gets db_now;
  let st := mk_ws taskID objective (investigated_files ops) (sort_strings (dedup (ops ≫= searched_symbols)))
    (Intent <$> filter (λ op, is_decision true op = true) ops)
    (Intent <$> filter (λ op, is_decision false op = true) ops)
    (completed_edits ops) validations remaining next current last drifted uncertain
    (match cp with Some c => Cp_Seq c | None => 0%Z end) now in
  mret (if String.eqb next "" then
          mk_ws (Ws_Task st) (Objective st) (InvestigatedFiles st) (InvestigatedSymbols st) (Decisions st)
            (RejectedHypotheses st) (CompletedEdits st) (Validations st) (RemainingPlan st) (nextAction st)
            (CurrentCandidate st) (LastCompletedCandidate st) (Drifted st) (Ws_Uncertain st) (CheckpointS st)
            (RecoveredAt st)
        else st).

Definition older_task (a b : TaskRow) : bool := Z.ltb (Ta_Created a) (Ta_Created b).

Fixpoint recover_all (f : fs) (worktreePath : string → string) (rows : list TaskRow) : DM (list WorkingState) :=
  match rows with
  | [] => mret []
  | r :: rows =>
      ws ← RecoverTask f (Ta_ID r) (worktreePath (Ta_ID r));
      let ws := if String.eqb (Objective ws) "" then
          mk_ws (Ws_Task ws) (Ta_Title r) (InvestigatedFiles ws) (InvestigatedSymbols ws) (Decisions ws)
            (RejectedHypotheses ws) (CompletedEdits ws) (Validations ws) (RemainingPlan ws) (NextAction ws)
            (CurrentCandidate ws) (LastCompletedCandidate ws) (Drifted ws) (Ws_Uncertain ws) (CheckpointS ws)
            (RecoveredAt ws)
        else ws in
      rest ← recover_all f worktreePath rows;
      mret (ws :: rest)
  end.

(** [ledger/recover.go:111-152 Ledger.Recover] *)
Definition Recover (f : fs) (worktreePath : string → string) : DM (list WorkingState) :=
  rows ← wrapM "ledger: list live tasks: "
    (query (λ d, stable_sort older_task (filter (λ r, Ta_State r ∉ TerminalStates) (tasks d))));
  recover_all f worktreePath rows.
End tables.
End recover.

(** ** What recovery reports *)

Section facts.
Context (sha : string → string) (show_os_error : error → string).
Context {Body : Type}.
Implicit Types d : Db Body.

Lemma query_ok {A} (g : Db Body → A) d a d' : query g d = (Ok a, d') ↔ unavailable d = None ∧ a = g d ∧ d' = d.
Proof. unfold query. destruct (unavailable d); split; try done; [by intros (? & _) | by intros [= <- <-] | by intros (_ & -> & ->)]. Qed.

Lemma inspect_op f op w : r_Operation (inspect sha show_os_error f op w) = op.
Proof. unfold inspect. by destruct (match Op_Kind op with KEdit => _ | _ => _ end). Qed.

Definition worktree_manifest (f : fs) (worktree : string) : result string :=
  if String.eqb worktree "" then Ok "" else ContentManifest sha f worktree.

Lemma RecoverTask_ok f taskID worktree d st d' :
  RecoverTask sha show_os_error f taskID worktree d = (Ok st, d') →
  let ops := stable_sort seq_less (of_task taskID (operations d)) in
  d' = d ∧ worktree_manifest f worktree = Ok (CurrentCandidate st) ∧
  Ws_Uncertain st = (λ op, inspect sha show_os_error f op worktree) <$> filter (λ op, Uncertain op = true) ops ∧
  LastCompletedCandidate st = last_completed ops ∧
  Drifted st = negb (String.eqb (LastCompletedCandidate st) "") && negb (String.eqb (CurrentCandidate st) "") &&
    negb (String.eqb (LastCompletedCandidate st) (CurrentCandidate st)) ∧
  CompletedEdits st = completed_edits ops ∧
  RejectedHypotheses st = Intent <$> filter (λ op, is_decision false op = true) ops ∧
  (Validations st) =
    (λ e, mk_evstatus (Ev_ID e) (Ev_Kind e) (Ev_Status e) (Ev_Candidate e)
            (negb (String.eqb (CurrentCandidate st) "") && negb (String.eqb (Ev_Candidate e) "") &&
             negb (String.eqb (Ev_Candidate e) (CurrentCandidate st))))
      <$> stable_sort older_evidence (filter (λ e, Ev_Task e = taskID) (evidence d)).
Proof.
  intros H. unfold RecoverTask in H.
  apply bind_ok in H as (ops & d1 & (_ & -> & ->)%query_ok & H).
  apply bind_ok in H as (current & d1 & Hc & H). unfold lift in Hc. injection Hc as Hc <-.
  apply bind_ok in H as (cp & d1 & (_ & -> & ->)%query_ok & H).
  match type of H with context [decode_handoff ?x] => destruct (decode_handoff x) as [[objective remaining] next] end.
  apply bind_ok in H as (v & d1 & (_ & -> & ->)%query_ok & H).
  apply bind_ok in H as (now & d1 & Hn & H). injection Hn as <- <-.
  injection H as <- <-. cbv zeta.
  assert (Hm : worktree_manifest f worktree = Ok current).
  { unfold worktree_manifest. destruct (String.eqb worktree ""); [done |].
    destruct (ContentManifest sha f worktree); [|done]. cbn in Hc. by injection Hc as <-. }
  destruct (String.eqb next ""); by split_and!.
Qed.

Lemma SafeToResume_spec st :
  SafeToResume st = true ↔ (∀ u, u ∈ Ws_Uncertain st → r_Applied u ≠ AppliedPartial) ∧ Drifted st = false.
Proof.
  unfold SafeToResume. destruct (existsb _ _) eqn:E.
  - split; [done |]. intros [H _]. apply existsb_exists in E as (u & Hu & Hp%bool_decide_eq_true).
    exfalso. apply (H u); [by apply list_elem_of_In | done].
  - rewrite negb_true_iff. split; [|by intros []]. intros Hd. split; [|done]. intros u Hu Hp.
    assert (existsb (λ u, bool_decide (r_Applied u = AppliedPartial)) (Ws_Uncertain st) = true); [|congruence].
    apply existsb_exists. exists u. split; [by apply list_elem_of_In | by apply bool_decide_eq_true].
Qed.

(** The last completed candidate, read off the journal. *)
Lemma last_completed_spec ops :
  (last_completed ops = "" ∧ ∀ op, op ∈ ops → Uncertain op = false → CandidateAfter op = "") ∨
  (last_completed ops ≠ "" ∧ ∃ l1 op l2, ops = l1 ++ op :: l2 ∧ Uncertain op = false ∧ CandidateAfter op = last_completed ops ∧
     ∀ op', op' ∈ l2 → Uncertain op' = false → CandidateAfter op' = "").
Proof.
  unfold last_completed. induction ops as [|op ops IH] using rev_ind; [left; split; [done | set_solver] |].
  rewrite foldl_app. cbn [foldl]. destruct (Uncertain op) eqn:Eu; cbn [negb andb].
  - destruct IH as [[E H]|(E & l1 & o & l2 & -> & Ho & Hc & H)].
    + left. split; [done |]. intros o [?|E'%list_elem_of_singleton]%elem_of_app; [by apply H | subst; congruence].
    + right. split; [done |]. exists l1, o, (l2 ++ [op]). split; [by rewrite <- app_assoc |].
      split_and!; [done | done |]. intros o' [?|E'%list_elem_of_singleton]%elem_of_app; [by apply H | subst; congruence].
  - destruct (String.eqb_spec (CandidateAfter op) "") as [Ec|Ec]; cbn [negb].
    + destruct IH as [[E H]|(E & l1 & o & l2 & -> & Ho & Hc & H)].
      * left. split; [done |]. intros o [?|E'%list_elem_of_singleton]%elem_of_app; [by apply H | by subst].
      * right. split; [done |]. exists l1, o, (l2 ++ [op]). split; [by rewrite <- app_assoc |].
        split_and!; [done | done |]. intros o' [?|E'%list_elem_of_singleton]%elem_of_app; [by apply H | by subst].
    + right. split; [done |]. exists ops, op, []. split_and!; [done | done | done | set_solver].
Qed.

(** C37: Recovery hides nothing and changes nothing.  The working state lists
    every operation of the task that has no outcome, once each and in journal
    order, each with the verdict of its inspection; the last completed
    candidate is the one the last certain operation that recorded any left
    behind; the worktree has drifted exactly when that candidate and the
    worktree's present manifest are both known and differ; and a resume is
    called safe exactly when nothing is partially applied and nothing drifted.
    Evidence is stale exactly when it was produced against another candidate. *)
Theorem RecoverTask_accounts f taskID worktree d st d' :
  RecoverTask sha show_os_error f taskID worktree d = (Ok st, d') →
  let ops := stable_sort seq_less (of_task taskID (operations d)) in
  d' = d ∧
  r_Operation <$> Ws_Uncertain st = filter (λ op, Uncertain op = true) ops ∧
  (∀ u, u ∈ Ws_Uncertain st → u = inspect sha show_os_error f (r_Operation u) worktree) ∧
  worktree_manifest f worktree = Ok (CurrentCandidate st) ∧
  (∀ l1 op l2, ops = l1 ++ op :: l2 → Uncertain op = false → CandidateAfter op ≠ "" →
     (∀ op', op' ∈ l2 → Uncertain op' = false → CandidateAfter op' = "") →
     LastCompletedCandidate st = CandidateAfter op) ∧
  (Drifted st = true ↔ LastCompletedCandidate st ≠ "" ∧ CurrentCandidate st ≠ "" ∧
     LastCompletedCandidate st ≠ CurrentCandidate st) ∧
  (SafeToResume st = true ↔ (∀ u, u ∈ Ws_Uncertain st → r_Applied u ≠ AppliedPartial) ∧ Drifted st = false) ∧
  (∀ e, e ∈ Validations st →
     (Stale e = true ↔ CurrentCandidate st ≠ "" ∧ Es_Candidate e ≠ "" ∧ Es_Candidate e ≠ CurrentCandidate st)).
Proof.
  intros H. apply RecoverTask_ok in H. cbv zeta in H |- *.
  destruct H as (-> & Hm & Hu & Hl & Hd & _ & _ & Hv).
  split_and!; [done | | | done | | | apply SafeToResume_spec |].
  - rewrite Hu, <- list_fmap_compose. erewrite list_fmap_ext; [apply list_fmap_id |].
    intros i op _. apply inspect_op.
  - intros u Hin. rewrite Hu in Hin. apply list_elem_of_fmap in Hin as (op & -> & _). by rewrite inspect_op.
  - intros l1 op l2 E Ho Hc Hlater. rewrite Hl, E. unfold last_completed. rewrite foldl_app. cbn [foldl].
    rewrite Ho, (proj2 (String.eqb_neq _ _) Hc). cbn [negb andb]. clear -Hlater.
    revert Hlater. generalize (CandidateAfter op) as c. induction l2 as [|o l2 IH]; intros c Hlater; [done |].
    cbn [foldl]. destruct (Uncertain o) eqn:Eu; cbn [negb andb]; [apply IH; set_solver |].
    rewrite (Hlater o) by set_solver. cbn. apply IH. set_solver.
  - rewrite Hd, !andb_true_iff, !negb_true_iff, !String.eqb_neq. tauto.
  - intros e He. rewrite Hv in He. apply list_elem_of_fmap in He as (row & -> & _). cbn.
    rewrite !andb_true_iff, !negb_true_iff, !String.eqb_neq. tauto.
Qed.

(** What inspection says about an uncertain edit whose intent names its
    path and hashes.  It is complete exactly when the file it names hashes to
    the declared after-hash, not applied when the file is absent or still
    hashes to the before-hash, partial when the file is there with any other
    content, and unknown only when the file cannot be read.  The recorded cause
    of an interruption never changes the verdict. *)
Theorem inspect_edit_exact f op worktree ei :
  Op_Kind op = KEdit → decode_edit (Intent op) = Some ei → EI_Path ei ≠ "" → worktree ≠ "" →
  let file := ReadFile f (path_of (join_path worktree (EI_Path ei))) in
  let v := r_Applied (inspect sha show_os_error f op worktree) in
  (v = AppliedComplete ↔ ∃ body, file = Ok body ∧ sha body = AfterHash ei) ∧
  (v = AppliedNotApplied ↔ (∃ e, file = Err e ∧ is_not_exist e = true) ∨
     ∃ body, file = Ok body ∧ sha body = BeforeHash ei ∧ sha body ≠ AfterHash ei) ∧
  (v = AppliedPartial ↔ ∃ body, file = Ok body ∧ sha body ≠ BeforeHash ei ∧ sha body ≠ AfterHash ei) ∧
  (v = AppliedUnknown ↔ ∃ e, file = Err e ∧ is_not_exist e = false) ∧
  ∀ cause now, r_Applied (inspect sha show_os_error f (with_error cause now op) worktree) = v.
Proof.
  intros Hk Hdec Hp%String.eqb_neq Hw%String.eqb_neq. cbv zeta.
  assert (Hv : ∀ op', Op_Kind op' = KEdit → Intent op' = Intent op →
    r_Applied (inspect sha show_os_error f op' worktree) =
    match ReadFile f (path_of (join_path worktree (EI_Path ei))) with
    | Err e => if is_not_exist e then AppliedNotApplied else AppliedUnknown
    | Ok body => if String.eqb (sha body) (AfterHash ei) then AppliedComplete
                 else if String.eqb (sha body) (BeforeHash ei) then AppliedNotApplied else AppliedPartial
    end).
  { intros op' Hk' Hi'. unfold inspect. rewrite Hk'. unfold inspect_edit. rewrite Hi', Hdec, Hp, Hw. unfold hashFile.
    destruct (ReadFile _ _) as [body|e]; cbn.
    - destruct (String.eqb (sha body) (AfterHash ei)); [done |]. by destruct (String.eqb (sha body) (BeforeHash ei)).
    - by destruct (is_not_exist e). }
  assert (Hc : ∀ cause now, r_Applied (inspect sha show_os_error f (with_error cause now op) worktree) =
                            r_Applied (inspect sha show_os_error f op worktree)).
  { intros. rewrite (Hv op), (Hv (with_error cause now op)) by done. done. }
  rewrite (Hv op) in Hc |- * by done.
  destruct (ReadFile _ _) as [body|e] eqn:E.
  - rewrite !exists_ok, !exists_err_ok.
    destruct (String.eqb_spec (sha body) (AfterHash ei)); [|destruct (String.eqb_spec (sha body) (BeforeHash ei))];
      split_and!; try exact Hc; clear Hc; intuition congruence.
  - rewrite !exists_ok_err, !exists_err.
    destruct (is_not_exist e); split_and!; try exact Hc; clear Hc; intuition congruence.
Qed.
End facts.

(** ** The manifest identifies the visible content *)

Definition nul_free (s : string) : Prop := Ascii.zero ∉ String.list_ascii_of_string s.
(** What every file system guarantees of the names below its root. *)
Definition names_ok (f : fs) : Prop := ∀ p n, f !! p = Some n → Forall (λ c, slash_free c ∧ nul_free c) p.

Lemma nul_cut s1 s2 r1 r2 :
  nul_free s1 → nul_free s2 → s1 +:+ nul +:+ r1 = s2 +:+ nul +:+ r2 → s1 = s2 ∧ r1 = r2.
Proof.
  revert s2. induction s1 as [|c s1 IH]; intros [|c2 s2] H1 H2 E.
  - change (String Ascii.zero r1 = String Ascii.zero r2) in E. by injection E.
  - change (String Ascii.zero r1 = String c2 (s2 +:+ nul +:+ r2)) in E. injection E as E _. subst c2.
    exfalso. apply H2. cbn. set_solver.
  - change (String c (s1 +:+ nul +:+ r1) = String Ascii.zero r2) in E. injection E as E _. subst c.
    exfalso. apply H1. cbn. set_solver.
  - change (String c (s1 +:+ nul +:+ r1) = String c2 (s2 +:+ nul +:+ r2)) in E. injection E as -> E.
    unfold nul_free in *. cbn in H1, H2. destruct (IH s2) as [-> ->]; set_solver.
Qed.

Lemma manifest_text_inj l1 l2 :
  Forall (λ e, nul_free e.1 ∧ nul_free e.2) l1 → Forall (λ e, nul_free e.1 ∧ nul_free e.2) l2 →
  manifest_text l1 = manifest_text l2 → l1 = l2.
Proof.
  assert (Hne : ∀ a b : string, a +:+ nul +:+ b ≠ "").
  { intros a b H. apply (f_equal String.length) in H. rewrite length_app_str in H.
    change (nul +:+ b) with (String Ascii.zero b) in H. cbn in H. lia. }
  intros H1. revert l2. induction H1 as [|[a b] l1 [Ha Hb] H1 IH]; intros l2 H2 E.
  - destruct H2 as [|[a2 b2] l2 _ _]; [done |]. exfalso. by eapply Hne.
  - destruct H2 as [|[a2 b2] l2 [Ha2 Hb2] H2]; [exfalso; by eapply Hne |].
    cbn in Ha, Hb, Ha2, Hb2, E. apply nul_cut in E as [-> E]; [|done..]. apply nul_cut in E as [-> E]; [|done..].
    f_equal. by apply IH.
Qed.

Lemma entries_unique l1 l2 :
  l1 ≡ₚ l2 → NoDup (l1.*1) → StronglySorted (not_less entry_less) l1 → StronglySorted (not_less entry_less) l2 → l1 = l2.
Proof.
  revert l2. induction l1 as [|x l1 IH]; intros l2 Hp Hn H1 H2; [by apply Permutation_nil_l in Hp |].
  destruct l2 as [|y l2]; [by apply Permutation_nil_r in Hp |].
  inversion H1 as [|? ? S1 F1]; subst. inversion H2 as [|? ? S2 F2]; subst.
  apply NoDup_cons in Hn as [Hx Hn]. rewrite Forall_forall in F1, F2.
  assert (x = y) as ->.
  { destruct (decide (x = y)) as [|Hxy]; [done | exfalso].
    assert (Hy : y ∈ l1) by (assert (y ∈ x :: l1) by (rewrite Hp; set_solver); set_solver).
    assert (Hx2 : x ∈ l2) by (assert (x ∈ y :: l2) by (rewrite <- Hp; set_solver); set_solver).
    specialize (F1 y Hy). specialize (F2 x Hx2). unfold not_less, entry_less in F1, F2.
    apply Hx. rewrite (str_ltb_total _ _ F2 F1). by apply list_elem_of_fmap_2. }
  f_equal. apply IH; [|done..]. by apply Permutation_cons_inv in Hp.
Qed.

Lemma NoDup_omap_fst {K V W} (g : K * V → option (string * W)) (l : list (K * V)) :
  (∀ e e' r b b', e ∈ l → e' ∈ l → g e = Some (r, b) → g e' = Some (r, b') → e.1 = e'.1) →
  NoDup (l.*1) → NoDup ((omap g l).*1).
Proof.
  induction l as [|e l IH]; intros Hg; [intros; constructor |]. cbn. intros [He Hn]%NoDup_cons.
  assert (Hr : NoDup ((omap g l).*1)) by (apply IH; [|done]; intros ? ? ? ? ? ? ?; apply Hg; set_solver).
  destruct (g e) as [[r b]|] eqn:E; [|done]. cbn. constructor; [|done].
  intros ([r' b'] & Er & H)%list_elem_of_fmap. cbn in Er. subst r'.
  apply list_elem_of_omap in H as (e' & He' & E'). apply He.
  rewrite (Hg e e' r b b') by (done || set_solver). by apply list_elem_of_fmap_2.
Qed.

Lemma join_inj l1 l2 : l1 ≠ [] → l2 ≠ [] → Forall slash_free l1 → Forall slash_free l2 →
  join "/" l1 = join "/" l2 → l1 = l2.
Proof. intros H1 H2 F1 F2 E. rewrite <- (split_char_join l1), <- (split_char_join l2), E; done. Qed.

Lemma visible_entry_some f root p n rel body : visible_entry f root (p, n) = Some (rel, body) →
  ∃ c l, p = root ++ c :: l ∧ rel = join "/" (c :: l) ∧ n = NFile body.
Proof.
  unfold visible_entry, below. cbn [fst snd]. destruct (decide _) as [E|]; [|done].
  destruct (drop (length root) p) as [|c l] eqn:Ed; [done |].
  destruct n as [|b|t]; try done. destruct (walked f root (c :: l)); [|done]. intros [= <- <-]. exists c, l.
  split_and!; [|done..].
  transitivity (take (length root) p ++ drop (length root) p); [by rewrite take_drop | by rewrite Ed, E].
Qed.

Lemma join_nul_free l : Forall nul_free l → nul_free (join "/" l).
Proof.
  induction 1 as [|c l Hc Hl IH]; [unfold nul_free; cbn; set_solver |].
  destruct l as [|c2 l]; [done |]. change (join "/" (c :: c2 :: l)) with (c +:+ "/" +:+ join "/" (c2 :: l)).
  revert Hc IH. generalize (join "/" (c2 :: l)) as s. intros s Hc Hs. unfold nul_free in *. clear -Hc Hs.
  induction c as [|d c IH]; [change ("" +:+ "/" +:+ s) with (String slash s); cbn; set_solver |].
  change (String d c +:+ "/" +:+ s) with (String d (c +:+ "/" +:+ s)). cbn in *. set_solver.
Qed.

Lemma visible_files_ok f root files :
  names_ok f → visible_files f root = Ok files → NoDup (files.*1) ∧ Forall (λ e, nul_free e.1) files.
Proof.
  intros Hf. unfold visible_files. destruct (lstat_place f (path_of root)) as [place|]; [|done].
  cbn [mbind result_bind]. destruct (lookup_node f place) as [[]|]; [|intros [= <-]..|done].
  - intros [= <-]. split.
    + apply NoDup_omap_fst; [|apply NoDup_fst_map_to_list].
      intros [p n] [p' n'] r b b' Hp%elem_of_map_to_list Hp'%elem_of_map_to_list H H'. cbn.
      apply visible_entry_some in H as (c & l & -> & -> & ->).
      apply visible_entry_some in H' as (c' & l' & -> & E & ->).
      apply Hf, Forall_app in Hp as [_ Hp]. apply Hf, Forall_app in Hp' as [_ Hp'].
      f_equal. apply join_inj; [done | done | | | done]; (eapply Forall_impl; [eassumption | by intros ? []]).
    + apply Forall_forall. intros [r b] H. apply list_elem_of_omap in H as ([p n] & Hp%elem_of_map_to_list & H).
      apply visible_entry_some in H as (c & l & -> & -> & ->). apply Hf, Forall_app in Hp as [_ Hp].
      apply join_nul_free. eapply Forall_impl; [eassumption | by intros ? []].
  - split; [apply NoDup_singleton | repeat constructor]. unfold nul_free. cbn. set_solver.
  - split; constructor.
Qed.

Section manifest.
Context (sha : string → string).
(** A digest in hexadecimal has no NUL. *)
Hypothesis sha_nul_free : ∀ s, nul_free (sha s).

Definition collision : Prop := ∃ x y, x ≠ y ∧ sha x = sha y.

Lemma entry_not_less_trans a b c : not_less entry_less a b → not_less entry_less b c → not_less entry_less a c.
Proof. apply (str_not_less_trans a.1 b.1 c.1). Qed.

Definition hashed (e : string * string) : string * string := (e.1, sha e.2).

Lemma hashed_covered files1 files2 :
  hashed <$> files1 ≡ₚ hashed <$> files2 → (∀ e, e ∈ files1 → e ∈ files2) ∨ collision.
Proof.
  intros Hp. destruct (decide (Forall (λ e, e ∈ files2) files1)) as [H|H].
  - left. by apply Forall_forall.
  - right. apply not_Forall_Exists in H; [|apply _]. apply Exists_exists in H as ([r b] & He & Hn).
    assert (Hin : hashed (r, b) ∈ hashed <$> files2) by (rewrite <- Hp; by apply list_elem_of_fmap_2).
    apply list_elem_of_fmap in Hin as ([r2 b2] & E & Hin). injection E as -> E.
    exists b, b2. split; [intros ->; by apply Hn | done].
Qed.

(** The content manifest is a faithful identifier.  Two worktrees with the
    same visible files (regular files below the root, outside directories named
    .git, .le, node_modules or vendor, reached without following a link) with
    the same contents have the same manifest; and equal manifests mean the same
    visible files with the same contents, unless two different byte strings
    with the same digest have been found.  What is not visible, vendored code
    among it, is not part of the identifier. *)
Theorem ContentManifest_exact f root f' root' files files' m m' :
  names_ok f → names_ok f' →
  visible_files f root = Ok files → visible_files f' root' = Ok files' →
  ContentManifest sha f root = Ok m → ContentManifest sha f' root' = Ok m' →
  ((∀ e, e ∈ files ↔ e ∈ files') → m = m') ∧
  (m = m' → (∀ e, e ∈ files ↔ e ∈ files') ∨ collision).
Proof using sha_nul_free.
  intros Hf Hf' Hv Hv'. unfold ContentManifest. rewrite Hv, Hv'. cbn [mbind result_bind]. intros [= <-] [= <-].
  destruct (visible_files_ok _ _ _ Hf Hv) as [Hn Hnul]. destruct (visible_files_ok _ _ _ Hf' Hv') as [Hn' Hnul'].
  change ((λ e, (e.1, sha e.2)) <$> files) with (hashed <$> files).
  change ((λ e, (e.1, sha e.2)) <$> files') with (hashed <$> files').
  assert (Hfst : ∀ l : list (string * string), (hashed <$> l).*1 = l.*1).
  { intros l. rewrite <- list_fmap_compose. by apply list_fmap_ext. }
  assert (Hnuls : ∀ l : list (string * string), Forall (λ e, nul_free e.1) l →
    Forall (λ e, nul_free e.1 ∧ nul_free e.2) (stable_sort entry_less (hashed <$> l))).
  { intros l Hl. rewrite stable_sort_perm. apply Forall_fmap. eapply Forall_impl; [exact Hl |].
    intros e He. split; [done | apply sha_nul_free]. }
  split.
  - intros H. do 2 f_equal. apply entries_unique.
    + rewrite !stable_sort_perm. apply fmap_Permutation, NoDup_Permutation; [by eapply NoDup_fmap_1 .. |]. done.
    + rewrite stable_sort_perm, Hfst. done.
    + apply stable_sort_sorted; [intros a b; apply str_ltb_asym | apply entry_not_less_trans].
    + apply stable_sort_sorted; [intros a b; apply str_ltb_asym | apply entry_not_less_trans].
  - intros E. destruct (decide (manifest_text (stable_sort entry_less (hashed <$> files)) =
                                manifest_text (stable_sort entry_less (hashed <$> files')))) as [Et|Et].
    + apply manifest_text_inj in Et; [|by apply Hnuls..].
      assert (Hp : hashed <$> files ≡ₚ hashed <$> files')
        by (rewrite <- (stable_sort_perm entry_less (hashed <$> files)), Et; apply stable_sort_perm).
      destruct (hashed_covered _ _ Hp) as [H1|]; [|by right].
      destruct (hashed_covered files' files) as [H2|]; [by symmetry | | by right].
      left. intros e. split; [apply H1 | apply H2].
    + right. by eexists _, _.
Qed.
End manifest.

(** ** At work *)

(** A digest for the examples: the bits of the text, injective and without NUL. *)
Definition demo_bit (b : bool) (s : string) : string := String (Ascii.ascii_of_nat (if b then 49 else 48)) s.
Fixpoint demo_sha (s : string) : string :=
  match s with
  | EmptyString => EmptyString
  | String (Ascii.Ascii a b c d e f g h) s =>
      demo_bit a (demo_bit b (demo_bit c (demo_bit d (demo_bit e (demo_bit f (demo_bit g (demo_bit h (demo_sha s))))))))
  end.

Lemma nul_free_bit b s : nul_free s → nul_free (demo_bit b s).
Proof. unfold nul_free, demo_bit. cbn. destruct b; rewrite elem_of_cons; intuition discriminate. Qed.
Lemma demo_sha_nul_free s : nul_free (demo_sha s).
Proof.
  induction s as [|[a b c d e f g h] s IH]; [unfold nul_free; cbn; set_solver |]. cbn [demo_sha]. by repeat apply nul_free_bit.
Qed.

Definition demo_tree : fs :=
  list_to_map [(["wt"], NDir); (["wt"; "a.go"], NFile "package a"); (["wt"; "vendor"], NDir);
               (["wt"; "vendor"; "v.go"], NFile "v1")].
Definition demo_tree' : fs := <[["wt"; "vendor"; "v.go"] := NFile "v2"]> demo_tree.

Lemma demo_names_ok : names_ok demo_tree ∧ names_ok demo_tree'.
Proof.
  assert (H : ∀ f : fs, forallb (λ e, bool_decide (Forall (λ c, slash_free c ∧ nul_free c) e.1)) (map_to_list f) = true →
    names_ok f).
  { intros f H p n Hp. rewrite forallb_forall in H. specialize (H (p, n)).
    apply bool_decide_eq_true in H; [done |]. by apply list_elem_of_In, elem_of_map_to_list. }
  split; apply H; vm_compute; reflexivity.
Qed.

Lemma ContentManifest_exact_witness :
  demo_tree ≠ demo_tree' ∧
  ContentManifest demo_sha demo_tree "/wt" = ContentManifest demo_sha demo_tree' "/wt".
Proof.
  destruct demo_names_ok as [H1 H2].
  destruct (ContentManifest demo_sha demo_tree "/wt") as [m|] eqn:E1; [|discriminate].
  destruct (ContentManifest demo_sha demo_tree' "/wt") as [m'|] eqn:E2; [|discriminate].
  split.
  - intros E. apply (f_equal (lookup ["wt"; "vendor"; "v.go"])) in E. discriminate.
  - f_equal. refine (proj1 (ContentManifest_exact demo_sha demo_sha_nul_free demo_tree "/wt" demo_tree' "/wt"
      [("a.go", "package a")] [("a.go", "package a")] m m' H1 H2 _ _ E1 E2) _); [reflexivity | reflexivity | done].
Defined.

Definition demo_edit : json :=
  JObj [("path", JStr "a.go"); ("after_hash", JStr (demo_sha "package a")); ("before_hash", JStr "b")].
Definition demo_journal : Db unit :=
  (Begin "t1" KEdit demo_edit "c0" (Begin "t1" KSearch (JObj []) "c0" empty_db).2).2.
Definition demo_op : Operation := mk_op 2 "t1" 2 KEdit demo_edit None "c0" "" "" 5 0 "".

Lemma inspect_edit_exact_witness :
  r_Applied (inspect demo_sha err_msg demo_tree demo_op "/wt") = AppliedComplete.
Proof.
  refine (proj2 (proj1 (inspect_edit_exact demo_sha err_msg demo_tree demo_op "/wt"
    (mk_edit "a.go" (demo_sha "package a") "b" "") eq_refl eq_refl _ _)) _); [discriminate | discriminate |].
  exists "package a". split; reflexivity.
Defined.

Definition demo_state : result WorkingState := (RecoverTask demo_sha err_msg demo_tree "t1" "/wt" demo_journal).1.

Lemma RecoverTask_accounts_witness :
  ∃ st, RecoverTask demo_sha err_msg demo_tree "t1" "/wt" demo_journal = (Ok st, demo_journal) ∧
    (SafeToResume st = true ↔ (∀ u, u ∈ Ws_Uncertain st → r_Applied u ≠ AppliedPartial) ∧ Drifted st = false).
Proof.
  destruct (RecoverTask demo_sha err_msg demo_tree "t1" "/wt" demo_journal) as [[st|e] d'] eqn:E; [|discriminate].
  exists st. destruct (RecoverTask_accounts demo_sha err_msg demo_tree "t1" "/wt" demo_journal st d' E)
    as (-> & _ & _ & _ & _ & _ & H & _).
  split; [reflexivity | exact H].
Defined.
