(* ===== verification/Tasks.v ===== *)
(** The task store of [src/internal/task]: tasks and requirements, the life
    cycle of a task, decompositions into steps and the stored workflow. *)
From S2P Require Import Prelude GoStrings GoPath Policy Worktree Recipe ContextPack Workflow Json Ledger Recover.

Open Scope string_scope.
Open Scope list_scope.
Open Scope nat_scope.

(** ** States *)

(** [task/task.go:27-38 State] *)
Definition StatePending := "pending".
Definition StateRunning := "running".
Definition StatePaused := "paused".
Definition StateBlocked := "blocked".
Definition StateReview := "review".
Definition StateAccepted := "accepted".
Definition StateFailed := "failed".
Definition StateAbandoned := "abandoned".
Definition AllStates : list string :=
  [StatePending; StateRunning; StatePaused; StateBlocked; StateReview; StateAccepted; StateFailed; StateAbandoned].

(** [task/task.go:41-43 State.Terminal] *)
Definition Terminal (s : string) : bool :=
  String.eqb s StateAccepted || String.eqb s StateFailed || String.eqb s StateAbandoned.

(** [Task] of [task/task.go] is a row of [tasks]; times in milliseconds. *)
Notation Task := TaskRow.

(** [task/task.go:74-76 DefaultBudget] *)
Definition DefaultBudget : BudgetRow := mk_budget 3 1800000000000 0 [].

(** [task/task.go:94-101 Check] *)
Record Check_ := mk_check { Ck_Name : string; Ck_Argv : list string; Ck_Description : string }.
(** [task/task.go:104-104 Check.Executable] *)
Definition Executable (c : Check_) : bool := 0 <? length (Ck_Argv c).

(** [task/task.go:330-335 orDefault] *)
Definition orDefault (s def : string) : string := if String.eqb s "" then def else s.

(** [task/task.go:326-328 NewID] with the random suffix it draws. *)
Definition NewID (prefix suffix : string) (now : Z) : string :=
  prefix +:+ "-" +:+ pretty (now / 1000000000)%Z +:+ "-" +:+ suffix.

(** [task/task.go:338-345 Task.Summary] *)
Definition Task_Summary (t : Task) : string :=
  Ta_ID t +:+ " [" +:+ Ta_State t +:+ "] " +:+ Ta_Title t +:+
  (if String.eqb (Ta_Verification t) "" then "" else " (verify: " +:+ Ta_Verification t +:+ ")").

(** [task/task.go:349-352 SortTasks] the map [rank]; an unknown state ranks 0. *)
Definition state_rank (s : string) : nat :=
  match find (λ e, String.eqb e.1 s)
    [(StateRunning, 0); (StateReview, 1); (StateBlocked, 2); (StatePaused, 3); (StatePending, 4);
     (StateAccepted, 5); (StateFailed, 6); (StateAbandoned, 7)] with
  | Some e => e.2
  | None => 0
  end.

(** [task/task.go:353-358 SortTasks] *)
Definition task_less (a b : Task) : bool :=
  if negb (state_rank (Ta_State a) =? state_rank (Ta_State b)) then state_rank (Ta_State a) <? state_rank (Ta_State b)
  else Z.ltb (Ta_Created b) (Ta_Created a).

(** [task/task.go:348-359 SortTasks] *)
Definition SortTasks : list Task → list Task := stable_sort task_less.

(** ** Decompositions *)

(** [task/plan.go:38-50 PlanStep] *)
Record PlanStep := mk_step {
  Ps_Title : string; Ps_Scope : list string; Ps_Verification : string; Ps_Acceptance : list Check_; DependsOn : list Z }.

(** [task/plan.go:25-35 Plan]; the impact report is opaque. *)
Record TaskPlan := mk_tplan { RequirementID : string; Tp_Objective : string; PlanSteps : list PlanStep; Rationale : string }.

(** [task/plan.go:108-108 DefaultMaxPlanSteps] *)
Definition DefaultMaxPlanSteps : Z := 8.

(** [task/plan.go:220-229 Plan.Validate] one dependency of the step with index [i]. *)
Definition validate_dep (n i : nat) (dep : Z) : result unit :=
  if Z.ltb dep 1 || Z.ltb (Z.of_nat n) dep
  then Err (errorf ("task: step " +:+ pretty (S i) +:+ " depends on step " +:+ pretty dep +:+ ", which does not exist"))
  else if Z.leb (Z.of_nat (S i)) dep
  then Err (errorf ("task: step " +:+ pretty (S i) +:+ " depends on step " +:+ pretty dep +:+ ", which does not come before it"))
  else Ok tt.

(** [task/plan.go:204-229 Plan.Validate] one step. *)
Definition validate_step (n i : nat) (s : PlanStep) : result unit :=
  if blank (Ps_Title s) then Err (errorf ("task: step " +:+ pretty (S i) +:+ " has no title"))
  else if length (Ps_Scope s) =? 0
  then Err (errorf ("task: step " +:+ pretty (S i) +:+ " (" +:+ quoted (Ps_Title s) +:+ ") declares no scope; without one the out-of-scope check cannot catch a step doing too much"))
  else
    _ ← each (λ sc, guard_err (has_prefix sc "/" || contains_str sc "..")
           (errorf ("task: step " +:+ pretty (S i) +:+ " declares scope " +:+ quoted sc +:+ ", which escapes the repository")))
         (Ps_Scope s);
    match ParseLevel (Ps_Verification s) with
    | None => Err (errorf ("task: step " +:+ pretty (S i) +:+ " has verification level " +:+ quoted (Ps_Verification s) +:+ ", which is not one of low, standard, high"))
    | Some _ => each (validate_dep n i) (DependsOn s)
    end.

(** [task/plan.go:194-232 Plan.Validate] *)
Definition TaskPlan_Validate (p : TaskPlan) (maxSteps : Z) : result unit :=
  let n := length (PlanSteps p) in
  if n =? 0 then Err (errorf "task: the plan has no steps")
  else if Z.ltb 0 maxSteps && Z.ltb maxSteps (Z.of_nat n)
  then Err (errorf ("task: the plan has " +:+ pretty n +:+ " steps, the limit is " +:+ pretty maxSteps +:+ "; each step costs a full verification run"))
  else each_i (validate_step n) 0 (PlanSteps p).

(** ** The store *)

Section store.
Context (ws : string).                    (* the workspace id *)
Notation DM := (M (Db State)).

Definition known_requirement (id : string) (d : Db State) : bool := existsb (λ r, String.eqb (Rq_ID r) id) (requirements d).
Definition known_task (id : string) (d : Db State) : bool := existsb (λ t, String.eqb (Ta_ID t) id) (tasks d).

(** [task/task.go:116-134 Store.CreateRequirement] with the table's check on
    [state]. *)
Definition CreateRequirement (r : RequirementRow) : DM unit :=
  if String.eqb (Rq_ID r) "" then throw (errorf "task: requirement needs an id") else
  Tx (d ← gets id;
      let now := millis (db_now d) in
      let state := orDefault (Rq_State r) "open" in
      _ ← lift (constraint (mem state ["open"; "in_progress"; "accepted"; "rejected"; "abandoned"]) "CHECK");
      let row := mk_req_row (Rq_ID r) ws (Rq_Title r) (Rq_Body r) (Rq_Acceptance r) state now now in
      modify (set_requirements
        (if known_requirement (Rq_ID r) d
         then (λ q, if String.eqb (Rq_ID q) (Rq_ID r)
                    then mk_req_row (Rq_ID q) (Rq_Workspace q) (Rq_Title r) (Rq_Body r) (Rq_Acceptance r) (Rq_State q) (Rq_Created q) now
                    else q) <$> requirements d
         else requirements d ++ [row]))).

(** [task/task.go:137-155 Store.Requirement] *)
Definition GetRequirement (id : string) : DM RequirementRow :=
  r ← query (λ d, find (λ r, String.eqb (Rq_ID r) id) (requirements d));
  match r with
  | Some r => mret r
  | None => throw (errorf ("task: no requirement " +:+ quoted id))
  end.

(** [task/task.go:162-173 Store.Create] the defaults. *)
Definition with_defaults (t : Task) (now : Z) : Task :=
  let b := Ta_Budget t in
  let b := if Z.eqb (MaxAttempts b) 0
           then mk_budget (MaxAttempts DefaultBudget)
                  (if Z.eqb (MaxWallTime b) 0 then MaxWallTime DefaultBudget else MaxWallTime b) (MaxTokens b) (Scope b)
           else b in
  mk_task_row (Ta_ID t) ws (Ta_Requirement t) (Ta_Parent t) (Ta_Title t) (orDefault (Ta_Kind t) "change")
    (Ta_Worktree t) (orDefault (Ta_State t) StatePending) (orDefault (Ta_Verification t) "standard") b now now None.

(** [task/task.go:158-188 Store.Create] with the table's constraints. *)
Definition Create (t : Task) : DM unit :=
  if String.eqb (Ta_ID t) "" then throw (errorf "task: task needs an id") else
  Tx (d ← gets id;
      let row := with_defaults t (millis (db_now d)) in
      _ ← lift (constraint (mem (Ta_State row) AllStates) "CHECK");
      _ ← lift (constraint (mem (Ta_Verification row) ["low"; "standard"; "high"]) "CHECK");
      _ ← lift (constraint (negb (known_task (Ta_ID t) d)) "UNIQUE");
      _ ← lift (constraint (String.eqb (Ta_Requirement t) "" || known_requirement (Ta_Requirement t) d) "FOREIGN KEY");
      _ ← lift (constraint (String.eqb (Ta_Parent t) "" || String.eqb (Ta_Parent t) (Ta_ID t) || known_task (Ta_Parent t) d) "FOREIGN KEY");
      modify (set_tasks (tasks d ++ [row]))).

(** [task/task.go:191-221 Store.Get] *)
Definition Get (id : string) : DM Task :=
  r ← query (λ d, find (λ t, String.eqb (Ta_ID t) id) (tasks d));
  match r with
  | Some t => mret t
  | None => throw (errorf ("task: no task " +:+ quoted id))
  end.

Fixpoint get_all (ids : list string) : DM (list Task) :=
  match ids with
  | [] => mret []
  | id :: ids => t ← Get id; ts ← get_all ids; mret (t :: ts)
  end.

(** [task/task.go:224-251 Store.List] *)
Definition List_ : DM (list Task) :=
  ids ← query (λ d, Ta_ID <$> stable_sort (λ a b, Z.ltb (Ta_Created b) (Ta_Created a)) (tasks d));
  get_all ids.

Definition update_task (id : string) (f : Task → Task) (d : Db State) : Db State :=
  set_tasks ((λ t, if String.eqb (Ta_ID t) id then f t else t) <$> tasks d) d.

Definition with_state (state : string) (now : Z) (t : Task) : Task :=
  mk_task_row (Ta_ID t) (Ta_Workspace t) (Ta_Requirement t) (Ta_Parent t) (Ta_Title t) (Ta_Kind t) (Ta_Worktree t)
    state (Ta_Verification t) (Ta_Budget t) (Ta_Created t) now (if Terminal state then Some now else None).

(** [task/task.go:254-268 Store.SetState] *)
Definition SetState (id state : string) : DM unit :=
  Tx (d ← gets (λ d, d);
      _ ← lift (constraint (mem state AllStates || negb (known_task id d)) "CHECK");
      modify (update_task id (with_state state (millis (db_now d))))).

(** [task/task.go:271-271 ErrNotRetryable] *)
Definition ErrNotRetryable (msg : string) : error :=
  mk_error (Some "task.ErrNotRetryable") ("task: not retryable: " +:+ msg).

(** [task/task.go:294-312 Store.Reopen] *)
Definition Reopen (id : string) : DM Task :=
  t ← Get id;
  if String.eqb (Ta_State t) StateAccepted
  then throw (ErrNotRetryable (id +:+ " was accepted, and its change may already be applied; create a new task rather than redoing approved work"))
  else if negb (Terminal (Ta_State t))
  then throw (ErrNotRetryable (id +:+ " is " +:+ Ta_State t +:+ ", which is already runnable"))
  else
    _ ← SetState id StatePending;
    mret (mk_task_row (Ta_ID t) (Ta_Workspace t) (Ta_Requirement t) (Ta_Parent t) (Ta_Title t) (Ta_Kind t) (Ta_Worktree t)
            StatePending (Ta_Verification t) (Ta_Budget t) (Ta_Created t) (Ta_Updated t) (Ta_Finished t)).

(** [task/task.go:315-322 Store.SetWorktree] *)
Definition SetWorktree (id worktreeID : string) : DM unit :=
  Tx (d ← gets (λ d, d);
      modify (update_task id (λ t,
        mk_task_row (Ta_ID t) (Ta_Workspace t) (Ta_Requirement t) (Ta_Parent t) (Ta_Title t) (Ta_Kind t) worktreeID
          (Ta_State t) (Ta_Verification t) (Ta_Budget t) (Ta_Created t) (millis (db_now d)) (Ta_Finished t)))).

(** ** Dependencies *)

(** [task/plan.go:271-278 Store.AddDependency] *)
Definition AddDependency (taskID dependsOn : string) : DM unit :=
  Tx (d ← gets id;
      _ ← lift (constraint (known_task taskID d && known_task dependsOn d) "FOREIGN KEY");
      modify (set_deps (if mem (taskID, dependsOn) (task_deps d) then task_deps d
                        else task_deps d ++ [(taskID, dependsOn)]))).

(** [task/plan.go:281-312 Store.Blockers] *)
Definition Blockers (taskID : string) : DM (list Task) :=
  ids ← query (λ d, Ta_ID <$> stable_sort older_task
          (omap (λ dep, find (λ t, String.eqb (Ta_ID t) dep.2 && negb (String.eqb (Ta_State t) StateAccepted)) (tasks d))
             (filter (λ dep, dep.1 = taskID) (task_deps d))));
  get_all ids.

(** [task/plan.go:244-255 Materialise] the task of a step. *)
Definition step_task (plan : TaskPlan) (parentID id : string) (s : PlanStep) : Task :=
  mk_task_row id "" (RequirementID plan) parentID (Ps_Title s) "" "" "" (Ps_Verification s)
    (mk_budget (MaxAttempts DefaultBudget) (MaxWallTime DefaultBudget) 0 (Ps_Scope s)) 0 0 None.

Fixpoint add_deps (id : string) (ids : list string) (deps : list Z) : DM unit :=
  match deps with
  | [] => mret tt
  | dep :: deps => _ ← AddDependency id (nth (Z.to_nat (dep - 1)) ids ""); add_deps id ids deps
  end.

(** [task/plan.go:243-266 Materialise] its loop; [suffixes] are the random
    suffixes drawn, [ids] the ids so far. *)
Fixpoint materialise_steps (plan : TaskPlan) (parentID : string) (suffixes ids : list string) (steps : list PlanStep)
    : DM (list Task) :=
  match steps with
  | [] => mret []
  | s :: steps =>
      now ← gets db_now;
      let id := NewID "t" (nth (length ids) suffixes "") now in
      let t := step_task plan parentID id s in
      _ ← Create t;
      _ ← add_deps id (ids ++ [id]) (DependsOn s);
      ts ← materialise_steps plan parentID suffixes (ids ++ [id]) steps;
      mret (t :: ts)
  end.

(** [task/plan.go:236-268 Store.Materialise] *)
Definition Materialise (plan : TaskPlan) (parentID : string) (suffixes : list string) : DM (list Task) :=
  _ ← lift (TaskPlan_Validate plan DefaultMaxPlanSteps);
  materialise_steps plan parentID suffixes [] (PlanSteps plan).

(** ** The stored workflow *)

Definition phase_names : list Phase := [Intake; Localize; PImpact; Planning; Edit; Verify; Review; Finalize].
(** [workflow.Phase(previous)] *)
Definition phase_of (s : string) : Phase :=
  match find (λ p, String.eqb (show_phase p) s) phase_names with Some p => p | None => PhaseOther s end.

(** [task/workflow_store.go:14-28 Store.LoadWorkflow] *)
Definition LoadWorkflow (id : string) : DM (option State) :=
  query (λ d, snd <$> task_workflow d !! id).

Definition phase_intent (previous to : string) : json :=
  JObj [("from", JStr previous); ("kind", JStr "phase"); ("to", JStr to)].

(** [task/workflow_store.go:41-46 Store.SaveWorkflow] the move must be allowed. *)
Definition save_allowed (row : option (string * State)) (state : State) : result unit :=
  match row with
  | Some (previous, _) =>
      if negb (String.eqb previous (show_phase (S_Phase state)))
      then Transition (phase_of previous) (S_Phase state)
      else Ok tt
  | None => guard_err (bool_decide (S_Phase state ≠ Intake)) (errorf "workflow must start at INTAKE")
  end.

(** [task/workflow_store.go:30-65 Store.SaveWorkflow] with the table's constraints. *)
Definition SaveWorkflow (id : string) (state : State) : DM unit :=
  Tx (d ← gets (λ d, d);
      let row := task_workflow d !! id in
      let phase := show_phase (S_Phase state) in
      let previous := match row with Some (p, _) => p | None => "" end in
      _ ← lift (save_allowed row state);
      _ ← lift (constraint (mem phase (show_phase <$> phase_names)) "CHECK");
      _ ← lift (constraint (known_task id d) "FOREIGN KEY");
      _ ← modify (set_workflow (<[id := (phase, state)]> (task_workflow d)));
      if String.eqb previous phase then mret tt
      else
        let now := millis (db_now d) in
        modify (set_operations (operations d ++
          [mk_op (next_id (operations d)) id (max_seq id (operations d) + 1) KDecision (phase_intent previous phase)
             (Some (JObj [("phase", JStr phase)])) (S_Candidate state) (S_Candidate state) "" now now ""]))).
End store.

(** ** The phase recorded is the phase earned *)

Section phases.
Context (ws : string).
Notation DB := (Db State).
Implicit Types d : DB.

Lemma phase_of_show p : p ∈ phase_names → phase_of (show_phase p) = p.
Proof.
  intros H. unfold phase_names in H.
  repeat (apply elem_of_cons in H as [->|H]; [reflexivity |]). by apply not_elem_of_nil in H.
Qed.

Definition phase_op (id previous phase : string) (state : State) (d : DB) : Operation :=
  mk_op (next_id (operations d)) id (max_seq id (operations d) + 1) KDecision (phase_intent previous phase)
    (Some (JObj [("phase", JStr phase)])) (S_Candidate state) (S_Candidate state) "" (millis (db_now d)) (millis (db_now d)) "".

Definition stored (id : string) (d : DB) : option string := fst <$> task_workflow d !! id.

Lemma SaveWorkflow_ok id state d d' :
  SaveWorkflow id state d = (Ok tt, d') ↔
  unavailable d = None ∧ save_allowed (task_workflow d !! id) state = Ok tt ∧
  mem (show_phase (S_Phase state)) (show_phase <$> phase_names) = true ∧ known_task id d = true ∧
  d' = set_operations
    (operations d ++ (if String.eqb (default "" (stored id d)) (show_phase (S_Phase state)) then []
                      else [phase_op id (default "" (stored id d)) (show_phase (S_Phase state)) state d]))
    (set_workflow (<[id := (show_phase (S_Phase state), state)]> (task_workflow d)) d).
Proof.
  unfold SaveWorkflow. rewrite Tx_ok. unfold_M.
  assert (Hp : (match task_workflow d !! id with Some (p, _) => p | None => "" end) = default "" (stored id d)).
  { unfold stored. by destruct (task_workflow d !! id) as [[]|]. }
  rewrite Hp.
  destruct (save_allowed (task_workflow d !! id) state) as [[]|e] eqn:Ea; [|split; [by intros [] | by intros (_ & ? & _)]].
  destruct (constraint (mem _ _) "CHECK") as [[]|e] eqn:Ec.
  2: { split; [by intros [] |]. intros (_ & _ & H & _). by apply (constraint_ok _ "CHECK") in H; rewrite H in Ec. }
  apply constraint_ok in Ec.
  destruct (constraint (known_task id d) "FOREIGN KEY") as [[]|e] eqn:Ek.
  2: { split; [by intros [] |]. intros (_ & _ & _ & H & _). by apply (constraint_ok _ "FOREIGN KEY") in H; rewrite H in Ek. }
  apply constraint_ok in Ek.
  destruct (String.eqb (default "" (stored id d)) (show_phase (S_Phase state))).
  - rewrite app_nil_r. split; [intros [? [= <-]] | intros (? & _ & _ & _ & ->)]; by destruct d.
  - split; [intros [? [= <-]] | intros (? & _ & _ & _ & ->)]; done.
Qed.

Lemma SaveWorkflow_err id state d e d' : SaveWorkflow id state d = (Err e, d') → d' = d.
Proof. apply Tx_err. Qed.

(** The phases a task's journal says it entered, in order. *)
Definition entered (op : Operation) : option string :=
  if decide (Op_Kind op = KDecision)
  then match Intent op with
       | JObj [("from", _); ("kind", JStr kind); ("to", JStr to)] => if String.eqb kind "phase" then Some to else None
       | _ => None
       end
  else None.
Definition trail (id : string) (d : DB) : list string := omap entered (of_task id (operations d)).

(** Saving workflows, of this task and of others, among steps that leave the
    stored phase and the journal's phase entries of this task alone. *)
Inductive save_step (id : string) : DB → DB → Prop :=
| save_ok d id' state d' : SaveWorkflow id' state d = (Ok tt, d') → save_step id d d'
| save_err d id' state e d' : SaveWorkflow id' state d = (Err e, d') → save_step id d d'
| save_other d d' : stored id d' = stored id d → trail id d' = trail id d → save_step id d d'.

Lemma trail_app id d op : trail id (set_operations (operations d ++ [op]) d) =
  trail id d ++ (if decide (Op_TaskID op = id) then match entered op with Some p => [p] | None => [] end else []).
Proof.
  unfold trail. cbn [operations set_operations]. rewrite of_task_app, of_task_cons, omap_app. f_equal.
  destruct (decide (Op_TaskID op = id)); [|done]. cbn. by destruct (entered op).
Qed.

Lemma trail_nil id : omap entered (of_task id []) = [].
Proof. done. Qed.

Definition phase_inv (id : string) (d : DB) : Prop :=
  match stored id d with
  | None => trail id d = []
  | Some p => ∃ h q, history h q ∧ p = show_phase q ∧ q ∈ phase_names ∧ trail id d = show_phase <$> h
  end.

Lemma mem_phase_names p : mem (show_phase p) (show_phase <$> phase_names) = true → p ∈ phase_names ∨
  ∃ s q, p = PhaseOther s ∧ q ∈ phase_names ∧ s = show_phase q.
Proof.
  intros H. apply mem_true, list_elem_of_fmap in H as (q & E & Hq). destruct p; try (left; unfold phase_names; set_solver).
  right. cbn in E. by exists s, q.
Qed.

Lemma Transition_names from to : Transition from to = Ok tt → to ∈ phase_names.
Proof. intros H%Transition_from. destruct to; try done; unfold phase_names; set_solver. Qed.

Lemma phase_inv_save id id' state d d' :
  SaveWorkflow id' state d = (Ok tt, d') → phase_inv id d → phase_inv id d'.
Proof.
  intros (_ & Ha & Hc & _ & ->)%SaveWorkflow_ok Hi. unfold phase_inv in *.
  destruct (decide (id' = id)) as [->|Hne].
  2: { unfold stored in *. cbn [task_workflow set_operations set_workflow].
       rewrite lookup_insert_ne by done.
       assert (E : trail id (set_operations (operations d ++ (if String.eqb (default "" (fst <$> task_workflow d !! id')) (show_phase (S_Phase state)) then []
           else [phase_op id' (default "" (fst <$> task_workflow d !! id')) (show_phase (S_Phase state)) state d]))
           (set_workflow (<[id' := (show_phase (S_Phase state), state)]> (task_workflow d)) d)) = trail id d).
       { unfold trail. cbn [operations set_operations]. rewrite of_task_app, omap_app.
         destruct (String.eqb _ _); [by rewrite trail_nil, app_nil_r |].
         rewrite of_task_cons. cbn [Op_TaskID phase_op].
         rewrite decide_False by done.
         by rewrite trail_nil, app_nil_r. }
       by rewrite E. }
  assert (Hs : stored id (set_operations (operations d ++ (if String.eqb (default "" (stored id d)) (show_phase (S_Phase state)) then []
           else [phase_op id (default "" (stored id d)) (show_phase (S_Phase state)) state d]))
           (set_workflow (<[id := (show_phase (S_Phase state), state)]> (task_workflow d)) d)) = Some (show_phase (S_Phase state))).
  { unfold stored. cbn [task_workflow set_operations set_workflow]. by rewrite lookup_insert_eq. }
  rewrite Hs. clear Hs. unfold trail at 1. cbn [operations set_operations]. rewrite of_task_app, omap_app.
  change (omap entered (of_task id (operations d))) with (trail id d).
  unfold save_allowed in Ha. destruct (task_workflow d !! id) as [[previous old]|] eqn:Er.
  - unfold stored in *. rewrite Er in *. cbn [fmap option_fmap option_map fst default from_option] in *.
    destruct Hi as (h & q & Hh & -> & Hq & Htrail). cbn [default from_option Datatypes.id].
    destruct (String.eqb_spec (show_phase q) (show_phase (S_Phase state))) as [E|E]; cbn [negb] in Ha.
    + rewrite trail_nil, app_nil_r.
      exists h, q. split_and!; [done | by rewrite E | done | done].
    + rewrite phase_of_show in Ha by done. exists (h ++ [S_Phase state]), (S_Phase state).
      split_and!; [by apply (history_move h q) | done | by apply (Transition_names q) |].
      rewrite of_task_cons. cbn [Op_TaskID phase_op]. rewrite decide_True by done.
      rewrite fmap_app, Htrail. done.
  - unfold stored in *. rewrite Er in *. cbn [fmap option_fmap option_map default from_option] in *.
    unfold guard_err in Ha. case_bool_decide as Hp; [done |].
    assert (S_Phase state = Intake) as -> by (destruct (decide (S_Phase state = Intake)); [done | contradiction]).
    exists [Intake], Intake. split_and!; [constructor | done | unfold phase_names; set_solver |].
    rewrite Hi. cbn [show_phase]. rewrite (proj2 (String.eqb_neq "" "INTAKE")) by done. rewrite of_task_cons. cbn [Op_TaskID phase_op]. rewrite decide_True by done. done.
Qed.

(** C21: The phase a task's stored workflow is in was earned, and the journal
    says how.  Whatever saves are attempted, the stored phase is the end of a
    history of allowed moves from INTAKE, and the phase entries of the task's
    journal, each written in the transaction of its save, spell out exactly that
    history.  A workflow stored in FINALIZE therefore has, last in its journal,
    EDIT, VERIFY, REVIEW, FINALIZE. *)
Theorem stored_phase_history id d0 d p :
  stored id d0 = None → trail id d0 = [] → rtc (save_step id) d0 d → stored id d = Some p →
  ∃ h q, history h q ∧ p = show_phase q ∧ trail id d = show_phase <$> h ∧
    (q = Finalize → ∃ pre, trail id d = pre ++ ["EDIT"; "VERIFY"; "REVIEW"; "FINALIZE"]).
Proof.
  intros H0 Ht Hs Hp.
  assert (Hi : phase_inv id d).
  { assert (H : phase_inv id d0) by (unfold phase_inv; by rewrite H0). clear -H Hs.
    induction Hs as [|x y z Hst _ IH]; [done |]. apply IH.
    destruct Hst as [x id' state y Hsv|x id' state e y Hsv|x y H1 H2].
    - by eapply phase_inv_save.
    - apply SaveWorkflow_err in Hsv. by subst.
    - unfold phase_inv in *. by rewrite H1, H2. }
  unfold phase_inv in Hi. rewrite Hp in Hi. destruct Hi as (h & q & Hh & -> & _ & Htr).
  exists h, q. split_and!; [done | done | done |]. intros ->. rewrite Htr.
  destruct (history_prev _ _ Hh) as (h1 & p1 & -> & H1 & T1%Transition_from); [done |]. cbn in T1. subst p1.
  destruct (history_prev _ _ H1) as (h2 & p2 & -> & H2 & T2%Transition_from); [done |]. cbn in T2. subst p2.
  destruct (history_prev _ _ H2) as (h3 & p3 & -> & H3 & T3%Transition_from); [done |]. cbn in T3. subst p3.
  destruct (history_last _ _ H3) as [pre ->].
  exists (show_phase <$> pre). by rewrite !fmap_app, <- !app_assoc.
Qed.

(** ** A phase move is read back as a rejected hypothesis *)

(** Recovery takes every journalled decision that does not say it was accepted
    for a rejected hypothesis.  The phase moves are journalled as decisions and
    say nothing of the kind, so each one comes back among the hypotheses a
    resumed session is told not to try again. *)
Theorem phase_move_recovered_as_rejected sha show_os_error f id state d d1 d2 st worktree d3 :
  SaveWorkflow id state d = (Ok tt, d1) →
  stored id d ≠ Some (show_phase (S_Phase state)) →
  operations d2 = operations d1 →
  RecoverTask sha show_os_error f id worktree d2 = (Ok st, d3) →
  phase_intent (default "" (stored id d)) (show_phase (S_Phase state)) ∈ RejectedHypotheses st.
Proof.
  intros (_ & _ & Hc & _ & ->)%SaveWorkflow_ok Hne Hops Hr.
  apply RecoverTask_ok in Hr as (_ & _ & _ & _ & _ & _ & -> & _).
  assert (E : String.eqb (default "" (stored id d)) (show_phase (S_Phase state)) = false).
  { apply String.eqb_neq. intros E. destruct (stored id d); cbn in E; [congruence |]. by rewrite <- E in Hc. }
  rewrite Hops, E. cbn [operations set_operations set_workflow].
  apply list_elem_of_fmap. eexists (phase_op id (default "" (stored id d)) (show_phase (S_Phase state)) state d).
  split; [done |]. apply list_elem_of_filter. split; [done |].
  apply elem_of_stable_sort, list_elem_of_filter. split; [done |]. set_solver.
Qed.
End phases.

Definition empty_plan : Plan := mk_plan "" [] [] [] [] [] [] [] [].
Definition start_state (phase : Phase) (base : string) (now : Z) : State :=
  mk_state (mk_prefix "" "" "" "") "" ∅ "" [] phase base "" now 0 0 0 0 0 [] [] "" empty_plan None [] [] [] ∅ []
    new_transcript None.
Definition task_db : Db State :=
  mk_db _ [] [] ∅ [] []
    [mk_task_row "t1" "w" "" "" "fix" "change" "" "running" "standard" DefaultBudget 1 1 None] [] [] ∅ 5000000 None None.

Lemma save_run id d state : is_ok (SaveWorkflow id state d).1 = true →
  save_step id d (SaveWorkflow id state d).2.
Proof. intros H. destruct (SaveWorkflow id state d) as [[[]|] d'] eqn:E; [|done]. by eapply save_ok. Qed.

Definition saved1 : Db State := (SaveWorkflow "t1" (start_state Intake "b" 5) task_db).2.
Definition saved2 : Db State := (SaveWorkflow "t1" (start_state Localize "b" 5) saved1).2.

Lemma saved2_reached : rtc (save_step "t1") task_db saved2.
Proof.
  eapply rtc_l; [|apply rtc_once].
  - apply (save_run "t1" task_db (start_state Intake "b" 5)). vm_compute. reflexivity.
  - apply (save_run "t1" saved1 (start_state Localize "b" 5)). vm_compute. reflexivity.
Qed.

Lemma stored_phase_history_witness :
  ∃ h q, history h q ∧ "LOCALIZE" = show_phase q ∧ trail "t1" saved2 = show_phase <$> h.
Proof.
  destruct (stored_phase_history "t1" task_db saved2 "LOCALIZE" eq_refl eq_refl saved2_reached) as (h & q & H1 & H2 & H3 & _).
  - vm_compute. reflexivity.
  - exists h, q. exact (conj H1 (conj H2 H3)).
Defined.

(** ** Decompositions that can run *)

Record step_ok (n i : nat) (s : PlanStep) : Prop := {
  step_title : blank (Ps_Title s) = false;
  step_scoped : Ps_Scope s ≠ [];
  step_inside : ∀ sc, sc ∈ Ps_Scope s → has_prefix sc "/" = false ∧ contains_str sc ".." = false;
  step_level : is_Some (ParseLevel (Ps_Verification s));
  step_deps : ∀ dep, dep ∈ DependsOn s → (1 ≤ dep ≤ Z.of_nat i)%Z }.

Lemma validate_step_ok n i s : i < n → validate_step n i s = Ok tt ↔ step_ok n i s.
Proof.
  intros Hi. unfold validate_step. destruct (blank (Ps_Title s)) eqn:Eb.
  { split; [done |]. intros []. congruence. }
  destruct (length (Ps_Scope s) =? 0) eqn:El.
  { split; [done |]. intros []. apply Nat.eqb_eq, nil_length_inv in El. done. }
  assert (Hne : Ps_Scope s ≠ []) by (intros E; by rewrite E in El).
  destruct (each _ (Ps_Scope s)) as [[]|e] eqn:Es.
  2: { split; [done |]. intros [_ _ Hin _ _]. exfalso.
       assert (H : each (λ sc, guard_err (has_prefix sc "/" || contains_str sc "..")
           (errorf ("task: step " +:+ pretty (S i) +:+ " declares scope " +:+ quoted sc +:+ ", which escapes the repository"))) (Ps_Scope s) = Ok tt).
       { apply each_ok. intros sc Hsc. destruct (Hin sc Hsc) as [-> ->]. done. }
       by rewrite H in Es. }
  rewrite each_ok in Es. cbn [mbind result_bind].
  assert (Hin : ∀ sc, sc ∈ Ps_Scope s → has_prefix sc "/" = false ∧ contains_str sc ".." = false).
  { intros sc Hsc. specialize (Es sc Hsc). unfold guard_err in Es.
    by destruct (has_prefix sc "/"), (contains_str sc ".."). }
  destruct (ParseLevel (Ps_Verification s)) eqn:Ep.
  2: { split; [done |]. intros [_ _ _ [? H] _]. congruence. }
  rewrite each_ok. split.
  - intros H. split; [done | done | done | by eexists |]. intros dep Hd. specialize (H dep Hd). unfold validate_dep in H.
    destruct (_ || _) eqn:E1; [done |]. apply orb_false_iff in E1 as [E1%Z.ltb_ge _].
    destruct (Z.leb_spec (Z.of_nat (S i)) dep); [done | lia].
  - intros [_ _ _ _ H] dep Hd. specialize (H dep Hd). unfold validate_dep.
    rewrite (proj2 (Z.ltb_ge _ _)), (proj2 (Z.ltb_ge _ _)), (proj2 (Z.leb_gt _ _)); [done | lia..].
Qed.

Lemma TaskPlan_Validate_ok p maxSteps :
  TaskPlan_Validate p maxSteps = Ok tt ↔
  PlanSteps p ≠ [] ∧ ((0 < maxSteps)%Z → (Z.of_nat (length (PlanSteps p)) ≤ maxSteps)%Z) ∧
  ∀ i s, PlanSteps p !! i = Some s → step_ok (length (PlanSteps p)) i s.
Proof.
  unfold TaskPlan_Validate. cbv zeta. destruct (length (PlanSteps p) =? 0) eqn:El.
  { apply Nat.eqb_eq, nil_length_inv in El. split; [done | by intros []]. }
  assert (Hne : PlanSteps p ≠ []) by (intros E; by rewrite E in El).
  destruct (Z.ltb 0 maxSteps && _) eqn:Em.
  { apply andb_true_iff in Em as [H1%Z.ltb_lt H2%Z.ltb_lt]. split; [done |]. intros (_ & H & _). specialize (H H1). lia. }
  rewrite each_i_ok. split.
  - intros H. split_and!; [done | |].
    + intros Hm. apply andb_false_iff in Em as [?%Z.ltb_ge|?%Z.ltb_ge]; lia.
    + intros i s Hs. apply validate_step_ok; [by eapply lookup_lt_Some |]. by apply H.
  - intros (_ & _ & H) i s Hs. apply validate_step_ok; [by eapply lookup_lt_Some |]. by apply H.
Qed.

Section materialise.
Context (ws : string).
Notation DB := (Db State).
Implicit Types d : DB.

Lemma Create_ok t d d' : Create ws t d = (Ok tt, d') →
  known_task (Ta_ID t) d = false ∧ tasks d' = tasks d ++ [with_defaults ws t (millis (db_now d))] ∧
  task_deps d' = task_deps d ∧ db_now d' = db_now d.
Proof.
  unfold Create. destruct (String.eqb (Ta_ID t) ""); [done |].
  intros [_ H]%Tx_ok. apply bind_ok in H as (x & d1 & [-> ->]%gets_ok & H).
  repeat (let Hc := fresh "Hc" in apply bind_ok in H as ([] & ? & [Hc ->]%lift_ok & H); apply constraint_ok in Hc).
  apply modify_ok in H as ->.
  split_and!; try done.
  repeat match goal with H : negb (known_task _ _) = true |- _ => apply negb_true_iff in H; exact H end.
Qed.

Lemma AddDependency_ok a b d d' : AddDependency a b d = (Ok tt, d') →
  tasks d' = tasks d ∧ db_now d' = db_now d ∧ known_task a d = true ∧ known_task b d = true ∧
  ∀ e, e ∈ task_deps d' ↔ e ∈ task_deps d ∨ e = (a, b).
Proof.
  unfold AddDependency. intros [_ H]%Tx_ok. apply bind_ok in H as (x & d1 & [-> ->]%gets_ok & H).
  apply bind_ok in H as ([] & d1 & [Hc ->]%lift_ok & H). apply constraint_ok, andb_true_iff in Hc as [Ha Hb].
  apply modify_ok in H as ->. split_and!; try done. cbn. intros e.
  destruct (mem (a, b) (task_deps d)) eqn:E; [apply mem_true in E | apply mem_false in E].
  - split; [by left | intros [?|E']; [done | by subst]].
  - by rewrite elem_of_app, list_elem_of_singleton.
Qed.

Lemma add_deps_ok id ids deps d d' : add_deps id ids deps d = (Ok tt, d') →
  tasks d' = tasks d ∧ db_now d' = db_now d ∧
  ∀ e, e ∈ task_deps d' ↔ e ∈ task_deps d ∨ ∃ dep, dep ∈ deps ∧ e = (id, nth (Z.to_nat (dep - 1)) ids "").
Proof.
  revert d. induction deps as [|dep deps IH]; intros d H; cbn in H.
  - apply mret_ok in H as [_ ->]. split_and!; try done. set_solver.
  - apply bind_ok in H as ([] & d1 & H1 & H). apply AddDependency_ok in H1 as (E1 & E2 & _ & _ & H1).
    apply IH in H as (E3 & E4 & H). split_and!; [congruence | congruence |].
    intros e. rewrite H, H1. set_solver.
Qed.

Lemma materialise_ok plan parentID suffixes steps : ∀ ids d ts d',
  materialise_steps ws plan parentID suffixes ids steps d = (Ok ts, d') →
  length ts = length steps ∧
  tasks d' = tasks d ++ ((λ t, with_defaults ws t (millis (db_now d))) <$> ts) ∧
  (∀ i s t, steps !! i = Some s → ts !! i = Some t → t = step_task plan parentID (Ta_ID t) s) ∧
  NoDup (Ta_ID <$> ts) ∧ (∀ t, t ∈ ts → known_task (Ta_ID t) d = false) ∧
  (∀ e, e ∈ task_deps d' ↔ e ∈ task_deps d ∨
     ∃ i s t dep, steps !! i = Some s ∧ ts !! i = Some t ∧ dep ∈ DependsOn s ∧
       e = (Ta_ID t, nth (Z.to_nat (dep - 1)) (ids ++ (Ta_ID <$> take (S i) ts)) "")).
Proof.
  induction steps as [|s steps IH]; intros ids d ts d' H; cbn in H.
  - apply mret_ok in H as [-> ->]. split_and!; [done | by rewrite app_nil_r | set_solver | constructor | set_solver |].
    intros e. split; [by left | intros [?|(i & s & t & dep & Hs & _)]; [done | by rewrite lookup_nil in Hs]].
  - apply bind_ok in H as (now & d1 & [-> ->]%gets_ok & H).
    set (id := NewID "t" (nth (length ids) suffixes "") (db_now d)) in *.
    set (t0 := step_task plan parentID id s) in *.
    apply bind_ok in H as ([] & d1 & Hc & H). apply Create_ok in Hc as (Hk & Ht & Hd & Hnow).
    apply bind_ok in H as ([] & d2 & Ha & H). apply add_deps_ok in Ha as (Ht2 & Hnow2 & Hdeps).
    apply bind_ok in H as (ts' & d3 & H & [-> ->]%mret_ok).
    apply IH in H as (Hlen & Hts & Hstep & Hnd & Hfresh & Hdd).
    rewrite Ht2, Ht, Hnow2, Hnow in Hts.
    assert (Hfresh' : ∀ t, t ∈ ts' → Ta_ID t ≠ id ∧ known_task (Ta_ID t) d = false).
    { intros t Hin. specialize (Hfresh t Hin). unfold known_task in Hfresh |- *. rewrite Ht2, Ht, existsb_app in Hfresh.
      apply orb_false_iff in Hfresh as [H1 H2]. cbn in H2. apply orb_false_iff in H2 as [H2 _].
      apply String.eqb_neq in H2. split; [congruence | done]. }
    split_and!.
    + cbn. lia.
    + rewrite Hts. cbn. by rewrite <- app_assoc.
    + intros [|i] s' t Hs' Ht'; cbn in Hs', Ht'; [by simplify_eq | by eapply Hstep].
    + cbn. constructor; [|done]. intros (t & E & Hin)%list_elem_of_fmap. destruct (Hfresh' t Hin) as [Hne _].
      cbn in E. congruence.
    + intros t [->|Hin]%elem_of_cons; [done | by apply Hfresh'].
    + intros e. rewrite Hdd, Hdeps, Hd. split.
      * intros [[He|(dep & Hdep & ->)]|(i & s' & t & dep & Hs' & Ht' & Hdep & ->)].
        -- by left.
        -- right. exists 0, s, t0, dep. split_and!; [done | done | done |]. cbn. done.
        -- right. exists (S i), s', t, dep. split_and!; [done | done | done |]. f_equal. f_equal.
           cbn [take fmap list_fmap]. by rewrite <- app_assoc.
      * intros [He|([|i] & s' & t & dep & Hs' & Ht' & Hdep & ->)].
        -- left. by left.
        -- cbn in Hs', Ht'. simplify_eq. left. right. by exists dep.
        -- right. exists i, s', t, dep. split_and!; [done | done | done |]. f_equal. f_equal.
           cbn [take fmap list_fmap]. by rewrite <- app_assoc.
Qed.

(** A decomposition is created as a sequence that can be run in order.  When
    it succeeds there is one new pending task per step, with a fresh id of its
    own, the step's own non-empty scope, a known verification level and the
    step's title; every dependency a step declares is recorded against the task
    of that earlier step; and the recorded dependencies of the new tasks always
    point from a later step to an earlier one, so they cannot form a cycle. *)
Theorem Materialise_ordered plan parentID suffixes d ts d' :
  Materialise ws plan parentID suffixes d = (Ok ts, d') →
  length ts = length (PlanSteps plan) ∧ NoDup (Ta_ID <$> ts) ∧ (∀ t, t ∈ ts → known_task (Ta_ID t) d = false) ∧
  (∀ i s t, PlanSteps plan !! i = Some s → ts !! i = Some t →
     step_ok (length ts) i s ∧ Ta_Title t = Ps_Title s ∧
     ∃ row, row ∈ tasks d' ∧ Ta_ID row = Ta_ID t ∧ Ta_State row = StatePending ∧ Ta_Verification row = Ps_Verification s ∧
       Scope (Ta_Budget row) = Ps_Scope s ∧
       (∀ dep, dep ∈ DependsOn s → ∃ j u, Z.of_nat j = (dep - 1)%Z ∧ j < i ∧ ts !! j = Some u ∧
          (Ta_ID t, Ta_ID u) ∈ task_deps d')) ∧
  (∀ a b, (a, b) ∈ task_deps d' → (a, b) ∈ task_deps d ∨
     ∃ i j t u, j < i ∧ ts !! i = Some t ∧ ts !! j = Some u ∧ a = Ta_ID t ∧ b = Ta_ID u).
Proof.
  unfold Materialise. intros H. apply bind_ok in H as ([] & d1 & [Hv ->]%lift_ok & H).
  apply TaskPlan_Validate_ok in Hv as (Hne & _ & Hok).
  apply materialise_ok in H as (Hlen & Hts & Hstep & Hnd & Hfresh & Hdd). cbn [app] in Hdd.
  assert (Hdep : ∀ i s t dep, PlanSteps plan !! i = Some s → ts !! i = Some t → dep ∈ DependsOn s →
    ∃ j u, Z.of_nat j = (dep - 1)%Z ∧ j < i ∧ ts !! j = Some u ∧
      nth (Z.to_nat (dep - 1)) (Ta_ID <$> take (S i) ts) "" = Ta_ID u).
  { intros i s t dep Hs Ht Hd. destruct (Hok i s Hs) as [_ _ _ _ Hr]. specialize (Hr dep Hd).
    pose proof (lookup_lt_Some _ _ _ Ht) as Hi. set (j := Z.to_nat (dep - 1)).
    destruct (lookup_lt_is_Some_2 ts j) as [u Hu]; [lia |].
    exists j, u. split_and!; [lia | lia | done |]. apply nth_lookup_Some.
    rewrite list_lookup_fmap, lookup_take_lt by lia. by rewrite Hu. }
  split_and!; [done | done | done | |].
  - intros i s t Hs Ht. rewrite Hlen. pose proof (Hok i s Hs) as Hso. pose proof (Hstep i s t Hs Ht) as Et.
    split_and!; [done | by rewrite Et |].
    exists (with_defaults ws t (millis (db_now d))). split_and!.
    + rewrite Hts. apply elem_of_app. right. apply list_elem_of_fmap. exists t. split; [done | by eapply list_elem_of_lookup_2].
    + done.
    + rewrite Et. done.
    + rewrite Et. cbn. unfold orDefault. destruct (String.eqb_spec (Ps_Verification s) "") as [E|]; [|done].
      destruct Hso as [_ _ _ [l Hl] _]. by rewrite E in Hl.
    + rewrite Et. done.
    + intros dep Hd. destruct (Hdep i s t dep Hs Ht Hd) as (j & u & E & Hj & Hu & En).
      exists j, u. split_and!; [done | done | done |]. apply Hdd. right. exists i, s, t, dep. by rewrite En.
  - intros a b Hin. apply Hdd in Hin as [?|(i & s & t & dep & Hs & Ht & Hd & E)]; [by left | right].
    injection E as -> ->. destruct (Hdep i s t dep Hs Ht Hd) as (j & u & _ & Hj & Hu & En).
    exists i, j, t, u. by rewrite En.
Qed.
End materialise.

Definition demo_tplan : TaskPlan :=
  mk_tplan "" "two steps"
    [mk_step "first" ["internal/a"] "standard" [] []; mk_step "second" ["internal/b"] "high" [] [1%Z]] "".
Definition demo_created := Materialise "w" demo_tplan "t1" ["aaaa"; "bbbb"] task_db.
Definition demo_ids : list string := ["t-0-aaaa"; "t-0-bbbb"].

Lemma Materialise_ordered_witness :
  ∃ ts, demo_created = (Ok ts, demo_created.2) ∧ length ts = 2 ∧ NoDup (Ta_ID <$> ts).
Proof.
  destruct demo_created.1 as [ts|e] eqn:E; [|vm_compute in E; discriminate].
  exists ts. assert (H : demo_created = (Ok ts, demo_created.2)) by (apply run_to; exact E).
  destruct (Materialise_ordered "w" demo_tplan "t1" ["aaaa"; "bbbb"] task_db ts demo_created.2 H) as (H1 & H2 & _).
  exact (conj H (conj H1 H2)).
Defined.

(** ** Reopening and blocking *)

Section life.
Notation DB := (Db State).
Implicit Types d : DB.

Lemma Get_run id d : unavailable d = None →
  Get id d = match find (λ t, String.eqb (Ta_ID t) id) (tasks d) with
             | Some t => (Ok t, d)
             | None => (Err (errorf ("task: no task " +:+ quoted id)), d)
             end.
Proof. intros Hu. unfold Get. unfold_M. unfold query. rewrite Hu. by destruct (find _ _). Qed.

(** Only failed and abandoned work can be tried again.  Reopening such a
    task puts it back to pending, with no finish time and everything else as it
    was.  A task that was accepted, or one that can still run, is refused with
    ErrNotRetryable and the database is left as it was; so is an unknown task
    or an unavailable database, with another error. *)
Theorem Reopen_exact id d :
  let known := find (λ t, String.eqb (Ta_ID t) id) (tasks d) in
  let retryable := ∃ t, known = Some t ∧ (Ta_State t = StateFailed ∨ Ta_State t = StateAbandoned) in
  (unavailable d = None → retryable →
     is_ok (Reopen id d).1 = true ∧ (Reopen id d).2 = update_task id (with_state StatePending (millis (db_now d))) d) ∧
  (∀ t, unavailable d = None → known = Some t → ¬ retryable →
     ∃ msg, Reopen id d = (Err (ErrNotRetryable msg), d)) ∧
  (is_ok (Reopen id d).1 = true → unavailable d = None ∧ retryable).
Proof.
  cbv zeta.
  assert (Hrun : unavailable d = None → ∀ t, find (λ t, String.eqb (Ta_ID t) id) (tasks d) = Some t →
    ((Ta_State t = StateFailed ∨ Ta_State t = StateAbandoned) →
       is_ok (Reopen id d).1 = true ∧ (Reopen id d).2 = update_task id (with_state StatePending (millis (db_now d))) d) ∧
    (¬ (Ta_State t = StateFailed ∨ Ta_State t = StateAbandoned) → ∃ msg, Reopen id d = (Err (ErrNotRetryable msg), d))).
  { intros Hu t Hf. unfold Reopen. unfold_M. rewrite Get_run, Hf by done. split.
    - intros Hs. assert (H1 : String.eqb (Ta_State t) StateAccepted = false) by (by destruct Hs as [-> | ->]).
      assert (H2 : Terminal (Ta_State t) = true) by (by destruct Hs as [-> | ->]).
      rewrite H1, H2. cbn [negb]. unfold SetState, Tx. rewrite Hu. unfold_M. done.
    - intros Hs. unfold Terminal. destruct (String.eqb (Ta_State t) StateAccepted); [by eexists |]. cbn [orb].
      destruct (String.eqb_spec (Ta_State t) StateFailed); [exfalso; apply Hs; by left |].
      destruct (String.eqb_spec (Ta_State t) StateAbandoned); [exfalso; apply Hs; by right |]. by eexists. }
  split_and!.
  - intros Hu (t & Hf & Hs). by apply (Hrun Hu t).
  - intros t Hu Hf Hn. apply (Hrun Hu t Hf). intros Hs. apply Hn. by exists t.
  - intros H. destruct (unavailable d) as [e|] eqn:Hu.
    { exfalso. revert H. unfold Reopen, Get. unfold_M. unfold query. by rewrite Hu. }
    split; [done |]. destruct (find _ (tasks d)) as [t|] eqn:Hf.
    + exists t. split; [done |].
      destruct (decide (Ta_State t = StateFailed ∨ Ta_State t = StateAbandoned)) as [|Hn]; [done |].
      exfalso. destruct (Hrun eq_refl t eq_refl) as [_ Hr]. destruct (Hr Hn) as [msg E]. by rewrite E in H.
    + exfalso. revert H. unfold Reopen. unfold_M. by rewrite Get_run, Hf.
Qed.

Lemma get_all_ok ids d ts d' : get_all ids d = (Ok ts, d') → d' = d ∧ length ts = length ids.
Proof.
  revert ts d'. induction ids as [|id ids IH]; intros ts d' H; cbn in H; [by apply mret_ok in H as [-> ->] |].
  apply bind_ok in H as (t & d1 & Hg & H).
  assert (d1 = d) as ->.
  { unfold Get in Hg. apply bind_ok in Hg as (r & d2 & [_ [_ ->]]%query_ok & Hg).
    destruct r; [by apply mret_ok in Hg as [_ ->] | by apply throw_ok in Hg]. }
  apply bind_ok in H as (ts' & d2 & [-> Hl]%IH & [-> ->]%mret_ok). cbn. by rewrite Hl.
Qed.

(** A task is reported unblocked exactly when every task it depends on
    that the store knows has been accepted: failed, abandoned and reviewed
    work still blocks.  Asking changes nothing. *)
Theorem Blockers_exact id d l d' :
  Blockers id d = (Ok l, d') →
  d' = d ∧
  (l = [] ↔ ∀ dep t, (id, dep) ∈ task_deps d → t ∈ tasks d → Ta_ID t = dep → Ta_State t = StateAccepted).
Proof.
  unfold Blockers. intros H. apply bind_ok in H as (ids & d1 & (_ & -> & ->)%query_ok & H).
  apply get_all_ok in H as [-> Hl]. split; [done |].
  rewrite length_fmap, length_stable_sort in Hl.
  assert (E : l = [] ↔ omap (λ dep, find (λ t, String.eqb (Ta_ID t) dep.2 && negb (String.eqb (Ta_State t) StateAccepted)) (tasks d))
             (filter (λ dep, dep.1 = id) (task_deps d)) = []).
  { split; intros E; apply nil_length_inv; rewrite E in Hl; cbn in Hl; lia. }
  rewrite E. clear E Hl. split.
  - intros E dep t Hd Ht Hid. destruct (decide (Ta_State t = StateAccepted)) as [|Hn]; [done | exfalso].
    destruct (find (λ t, String.eqb (Ta_ID t) dep && negb (String.eqb (Ta_State t) StateAccepted)) (tasks d)) as [u|] eqn:Ef.
    + assert (Hin : u ∈ omap (λ dep, find (λ t, String.eqb (Ta_ID t) dep.2 && negb (String.eqb (Ta_State t) StateAccepted)) (tasks d))
             (filter (λ dep, dep.1 = id) (task_deps d))).
      { apply list_elem_of_omap. exists (id, dep). split; [|done]. by apply list_elem_of_filter. }
      rewrite E in Hin. by apply not_elem_of_nil in Hin.
    + pose proof (find_none _ _ Ef t (proj1 (list_elem_of_In _ _) Ht)) as Hf. cbn beta in Hf.
      rewrite Hid, String.eqb_refl, (proj2 (String.eqb_neq _ _) Hn) in Hf. done.
  - intros H. destruct (omap _ _) as [|u us] eqn:E; [done | exfalso].
    assert (Hin : u ∈ u :: us) by set_solver. rewrite <- E in Hin.
    apply list_elem_of_omap in Hin as ([i dep] & [Hi Hd]%list_elem_of_filter & Hf). cbn in Hi, Hf. subst i.
    apply find_some in Hf as [Hu [H1%String.eqb_eq H2%negb_true_iff%String.eqb_neq]%andb_true_iff].
    apply H2, (H dep u); [done | by apply list_elem_of_In | done].
Qed.
End life.

Definition blocked_db : Db State := demo_created.2.

Lemma Blockers_exact_witness :
  ∃ l, Blockers "t-0-bbbb" blocked_db = (Ok l, blocked_db) ∧ l ≠ [].
Proof.
  destruct (Blockers "t-0-bbbb" blocked_db) as [[l|e] d'] eqn:E.
  - destruct (Blockers_exact "t-0-bbbb" blocked_db l d' E) as [-> H].
    exists l. split; [reflexivity |]. intros Hl.
    assert (Hu : Ta_State (with_defaults "w" (step_task demo_tplan "t1" "t-0-aaaa"
                   (mk_step "first" ["internal/a"] "standard" [] [])) 5) = StateAccepted).
    { apply (proj1 H Hl "t-0-aaaa"); [vm_compute; left | vm_compute; right; left | reflexivity]. }
    discriminate.
  - exfalso. apply (f_equal (λ p, is_ok p.1)) in E. vm_compute in E. discriminate.
Defined.
