(* ===== verification/Lifecycle.v ===== *)
(** Supervised tasks, [src/internal/supervisor/lifecycle.go]: an editor's agent
    does the work, the supervisor records what happened and judges the result
    by the verification on record. *)
From S2P Require Import Prelude GoStrings GoPath Policy Worktree Recipe Workflow Json Ledger Recover Tasks.

Open Scope string_scope.
Open Scope list_scope.
Open Scope nat_scope.

(** [supervisor/lifecycle.go:59-63 Decision]; the time in milliseconds. *)
Record Decision := mk_decision { D_Question : string; D_Answer : string; D_At : Z }.
(** [supervisor/lifecycle.go:66-70 CheckResult] *)
Record CheckResult := mk_check_result { Cr_Name : string; Cr_Status : string; Cr_Headline : string }.
(** [supervisor/lifecycle.go:161-167 VerificationRecord] *)
Record VerificationRecord := mk_vrecord {
  Vr_Accepted : bool; Vr_Candidate : string; Vr_Reasons : list string; Vr_OutOfScope : list string; Vr_Checks : list CheckResult }.
(** [supervisor/lifecycle.go:45-56 Review] *)
Record Review := mk_review {
  Rv_TaskID : string; Rv_Intent : string; Rv_Verdict : string; Rv_Decisions : list Decision; FilesChangedCount : nat;
  FilesChanged : list string; Rv_Checks : list CheckResult; Rv_Protected : list string; Warnings : list string;
  FinishedAt : Z }.

#[export] Instance check_result_eq_dec : EqDecision CheckResult.
Proof. solve_decision. Defined.
#[export] Instance vrecord_eq_dec : EqDecision VerificationRecord.
Proof. solve_decision. Defined.

(** ** The records as JSON *)

Definition json_check (c : CheckResult) : json :=
  JObj [("name", JStr (Cr_Name c)); ("status", JStr (Cr_Status c)); ("headline", JStr (Cr_Headline c))].
(** A member that [omitempty] leaves out when the list is empty. *)
Definition omit_empty {A} (name : string) (f : A → json) (l : list A) : list (string * json) :=
  match l with [] => [] | _ => [(name, JArr (f <$> l))] end.

Definition json_vrecord (v : VerificationRecord) : json :=
  JObj ([("accepted", JBool (Vr_Accepted v)); ("candidate", JStr (Vr_Candidate v))] ++
        omit_empty "reasons" JStr (Vr_Reasons v) ++ omit_empty "out_of_scope" JStr (Vr_OutOfScope v) ++
        omit_empty "checks" json_check (Vr_Checks v)).

Definition dec_check (j : json) : option CheckResult :=
  n ← get_string "name" j; s ← get_string "status" j; h ← get_string "headline" j; Some (mk_check_result n s h).
Definition dec_checks (j : json) : option (list CheckResult) :=
  match j with JArr l => mapM dec_check l | _ => None end.

(** [json.Unmarshal] into a [VerificationRecord]. *)
Definition dec_vrecord (j : json) : option VerificationRecord :=
  a ← get_bool "accepted" j; c ← get_string "candidate" j; r ← get_strings "reasons" j; o ← get_strings "out_of_scope" j;
  k ← dec_field dec_checks [] "checks" j; Some (mk_vrecord a c r o k).

(** ** Reading git *)

(** [strings.TrimRight(s, carriage return)]. *)
Definition carriage : Ascii.ascii := Ascii.ascii_of_nat 13.
Fixpoint trim_cr (s : string) : string :=
  match s with
  | EmptyString => EmptyString
  | String c s' => let t := trim_cr s' in if Ascii.eqb c carriage && String.eqb t "" then EmptyString else String c t
  end.

(** What follows the first occurrence of a separator, of [strings.Cut]. *)
Fixpoint cut_after (sep s : string) : option string :=
  if has_prefix s sep then Some (drop_str (String.length sep) s)
  else match s with EmptyString => None | String _ s => cut_after sep s end.

(** [supervisor/lifecycle.go:304-316 parsePorcelain] one line. *)
Definition porcelain_path (line : string) : option string :=
  let line := trim_cr line in
  if String.length line <? 4 then None else
  let path := drop_str 3 line in
  let path := match cut_after " -> " path with Some after => after | None => path end in
  let path := trim_space path in
  if String.eqb path "" then None else Some path.

(** [supervisor/lifecycle.go:301-320 parsePorcelain] *)
Definition parsePorcelain (out : string) : list string := sort_strings (omap porcelain_path (split_char newline out)).

(** [supervisor/lifecycle.go:283-291 changedFiles] from what [git status] wrote,
    [None] when it failed. *)
Definition changedFiles (status : option string) : list string :=
  match status with Some out => parsePorcelain out | None => [] end.

(** [supervisor/lifecycle.go:325-335 protectedViolations] from what [policy.Load] gave. *)
Definition protectedViolations (loaded : result PolicySet) (changed : list string) : list string :=
  match loaded with
  | Err _ => []
  | Ok set => match Policies set with [] => [] | _ => V_Path <$> Set_Check set changed end
  end.

Section lifecycle.
Context (ws : string).                       (* the workspace id *)
Context (show_time : Z → string).            (* a time.Time in JSON, from milliseconds *)
Notation DM := (M (Db State)).

(** [supervisor/lifecycle.go:105-112 RecordEvent] *)
Definition RecordEvent (taskID : string) (kind : OpKind) (detail : json) : DM unit :=
  h ← Begin taskID kind detail "";
  _ ← Complete h detail "" "";
  mret tt.

(** [supervisor/lifecycle.go:77-97 StartTask] The task, and the error returned
    beside it; the suffix of the id is drawn at random. *)
Definition StartTask (suffix objective level : string) : DM (Task * option error) :=
  let objective := trim_space objective in
  if String.eqb objective "" then throw (errorf "supervisor: a task needs an objective") else
  now ← gets db_now;
  let t := mk_task_row (NewID "oc" suffix now) "" "" "" objective "supervised" "" "" level
             (mk_budget 1 1800000000000 0 []) 0 0 None in
  _ ← Create ws t;
  recorded ← try (RecordEvent (Ta_ID t) KSessionStart (JObj [("executor", JStr "opencode"); ("objective", JStr objective)]));
  mret (t, match recorded with Ok _ => None | Err e => Some e end).

(** [supervisor/lifecycle.go:122-132 RecordAnswer] *)
Definition RecordAnswer (taskID question answer : string) : DM unit :=
  let question := trim_space question in
  let answer := trim_space answer in
  if String.eqb question "" || String.eqb answer ""
  then throw (errorf "supervisor: a decision needs both the question and the answer")
  else RecordEvent taskID KDecision (JObj [("answer", JStr answer); ("question", JStr question); ("source", JStr "user")]).

(** [supervisor/lifecycle.go:142-155 Decisions] one operation. *)
Definition decision_of (o : Operation) : option Decision :=
  if negb (bool_decide (Op_Kind o = KDecision)) then None else
  match get_string "question" (Intent o), get_string "answer" (Intent o), get_string "source" (Intent o) with
  | Some q, Some a, Some src => if String.eqb src "user" then Some (mk_decision q a (StartedAt o)) else None
  | _, _, _ => None
  end.

(** [supervisor/lifecycle.go:135-158 Decisions] *)
Definition Decisions (taskID : string) : DM (list Decision) :=
  ops ← Operations taskID; mret (omap decision_of ops).

(** [supervisor/lifecycle.go:175-189 RecordVerification] [None] is a nil outcome. *)
Definition RecordVerification (taskID : string) (rec : option VerificationRecord) : DM unit :=
  match rec with None => mret tt | Some rec => RecordEvent taskID KRecipeRun (json_vrecord rec) end.

(** [supervisor/lifecycle.go:183-187 RecordVerification] *)
Definition check_of (r : Result) : CheckResult :=
  mk_check_result (R_Recipe r) (show_status (R_Status r)) (Headline (R_Summary r)).

(** [supervisor/lifecycle.go:203-212 LastVerification] one operation. *)
Definition verification_of (o : Operation) : option VerificationRecord :=
  if bool_decide (Op_Kind o = KRecipeRun) then dec_vrecord (Intent o) else None.

(** [supervisor/lifecycle.go:196-214 LastVerification] *)
Definition LastVerification (taskID : string) : DM (option VerificationRecord) :=
  ops ← Operations taskID; mret (last (omap verification_of ops)).

Definition json_decision (d : Decision) : json :=
  JObj [("question", JStr (D_Question d)); ("answer", JStr (D_Answer d)); ("at", JStr (show_time (D_At d)))].
Definition json_review (v : Review) : json :=
  JObj ([("task_id", JStr (Rv_TaskID v)); ("intent", JStr (Rv_Intent v)); ("verdict", JStr (Rv_Verdict v))] ++
        omit_empty "decisions" json_decision (Rv_Decisions v) ++
        [("files_changed_count", JNum (Z.of_nat (FilesChangedCount v)))] ++
        omit_empty "files_changed" JStr (FilesChanged v) ++ omit_empty "checks" json_check (Rv_Checks v) ++
        omit_empty "protected_violations" JStr (Rv_Protected v) ++ omit_empty "warnings" JStr (Warnings v) ++
        [("finished_at", JStr (show_time (FinishedAt v)))]).

Definition Verified := "VERIFIED".
Definition NotVerified := "NOT VERIFIED".
Definition Unverified := "UNVERIFIED".

(** [supervisor/lifecycle.go:237-247 FinishTask] the verdict and its warnings. *)
Definition verdict_of (verified : option VerificationRecord) : string * list string :=
  match verified with
  | None => (Unverified, ["this task was finished without a verification run, so nothing checked the work"])
  | Some v => if Vr_Accepted v then (Verified, []) else (NotVerified, Vr_Reasons v)
  end.

(** [supervisor/lifecycle.go:228-261 FinishTask] the review. *)
Definition review_of (t : Task) (ds : list Decision) (verified : option VerificationRecord) (status : option string)
    (loaded : result PolicySet) (now : Z) : Review :=
  let '(verdict, warnings) := verdict_of verified in
  let changed := changedFiles status in
  let violations := protectedViolations loaded changed in
  mk_review (Ta_ID t) (Ta_Title t) verdict ds (length changed) changed
    (match verified with Some v => Vr_Checks v | None => [] end)
    ((match verified with Some v => Vr_OutOfScope v | None => [] end) ++ violations)
    (warnings ++ (if length changed =? 0 then ["the working tree is unchanged: this task recorded no edits"] else [])
     ++ (if length violations =? 0 then [] else ["files this repository protects were changed; review them before committing"]))
    (millis now).

(** [supervisor/lifecycle.go:221-277 FinishTask] The review, and the error
    returned beside it. *)
Definition FinishTask (taskID : string) (status : option string) (loaded : result PolicySet) : DM (Review * option error) :=
  t ← Get taskID;
  now ← gets db_now;
  ds ← Decisions taskID;
  verified ← LastVerification taskID;
  let rev := review_of t ds verified status loaded now in
  recorded ← try (RecordEvent taskID KReview (json_review rev));
  match recorded with
  | Err e => mret (rev, Some e)
  | Ok _ =>
      stated ← try (SetState taskID (if String.eqb (Rv_Verdict rev) Verified then StateAccepted else StateFailed));
      mret (rev, match stated with Ok _ => None | Err e => Some e end)
  end.
End lifecycle.

(** ** The record can be read back *)

Lemma mapM_strings l : dec_strings (JArr (JStr <$> l)) = Some l.
Proof. cbn. induction l as [|x l IH]; [done |]. cbn. by rewrite IH. Qed.
Lemma mapM_checks l : dec_checks (JArr (json_check <$> l)) = Some l.
Proof. cbn. induction l as [|[n s h] l IH]; [done |]. cbn. by rewrite IH. Qed.

(** Compare the names of members that are literals. *)
Ltac read_keys :=
  repeat match goal with
    | |- context [key_match ?a ?b] =>
        let v := eval vm_compute in (key_match a b) in change (key_match a b) with v
    end.

Lemma dec_vrecord_json v : dec_vrecord (json_vrecord v) = Some v.
Proof.
  destruct v as [a c rs os cs]. unfold dec_vrecord, json_vrecord, omit_empty, get_strings, get_bool, get_string, dec_field.
  pose proof (mapM_strings rs) as Hr. pose proof (mapM_strings os) as Ho. pose proof (mapM_checks cs) as Hc.
  destruct rs as [|r rs], os as [|o os], cs as [|k cs];
    cbn [Vr_Accepted Vr_Candidate Vr_Reasons Vr_OutOfScope Vr_Checks app foldl mbind option_bind fst snd dec_bool dec_string];
    read_keys; cbn [mbind option_bind]; rewrite ?Hr, ?Ho, ?Hc; reflexivity.
Qed.

(** The entry with the greatest sequence number is the last. *)
Lemma sort_latest (l : list Operation) (x : Operation) :
  (∀ y, y ∈ l → (Seq y < Seq x)%Z) → stable_sort seq_less (l ++ [x]) = stable_sort seq_less l ++ [x].
Proof.
  induction l as [|y l IH]; intros H; [done |]. cbn. fold (stable_sort seq_less).
  change (foldr (insert_sorted seq_less) [] (l ++ [x])) with (stable_sort seq_less (l ++ [x])).
  rewrite IH by (intros z Hz; apply H; by constructor).
  change (foldr (insert_sorted seq_less) [] l) with (stable_sort seq_less l).
  assert (Hy : seq_less x y = false) by (unfold seq_less; pose proof (H y (list_elem_of_here _ _)); lia).
  generalize (stable_sort seq_less l). intros m. induction m as [|z m IHm]; cbn; [by rewrite Hy |].
  destruct (seq_less z y); [by rewrite IHm | done].
Qed.

Lemma max_seq_above task ops o : o ∈ of_task task ops → (Seq o < max_seq task ops + 1)%Z.
Proof.
  intros Ho. unfold max_seq. pose proof (foldr_max_ub (Seq <$> of_task task ops) (Seq o)) as H.
  specialize (H (list_elem_of_fmap_2 _ _ _ Ho)). lia.
Qed.

Section journal.
Notation DB := (Db State).

(** The entry [RecordEvent] leaves. *)
Definition event_op (taskID : string) (kind : OpKind) (detail : json) (d : DB) : Operation :=
  mk_op (next_id (operations d)) taskID (max_seq taskID (operations d) + 1) kind detail (Some detail) "" "" ""
    (millis (db_now d)) (millis (db_now d)) "".

Lemma update_fresh id f (ops : list Operation) (o : Operation) :
  (∀ x, x ∈ ops → (Op_ID x < id)%Z) → Op_ID o = id →
  (λ x, if Z.eqb (Op_ID x) id then f x else x) <$> (ops ++ [o]) = ops ++ [f o].
Proof.
  intros H Ho. rewrite fmap_app. f_equal.
  - rewrite <- (list_fmap_id ops) at 2. apply list_fmap_ext. intros i x Hx.
    destruct (Z.eqb_spec (Op_ID x) id) as [Hid|]; [|done]. apply list_elem_of_lookup_2, H in Hx. lia.
  - cbn. by rewrite Ho, Z.eqb_refl.
Qed.

Lemma RecordEvent_ok taskID kind detail (d : DB) u d' : RecordEvent taskID kind detail d = (Ok u, d') ↔
  unavailable d = None ∧ d' = set_operations (operations d ++ [event_op taskID kind detail d]) d ∧ u = tt.
Proof.
  unfold RecordEvent, Complete. rewrite bind_ok. setoid_rewrite bind_ok. setoid_rewrite Begin_ok. setoid_rewrite mret_ok.
  setoid_rewrite finish_ok.
  assert (Hup : ∀ h, h = mk_handle (next_id (operations d)) (max_seq taskID (operations d) + 1) taskID kind false →
    update_op (h_id h) (with_outcome detail "" "" (millis (db_now d)))
      (set_operations (operations d ++ [mk_op (next_id (operations d)) taskID (max_seq taskID (operations d) + 1) kind
         detail None "" "" "" (millis (db_now d)) 0 ""]) d)
    = set_operations (operations d ++ [event_op taskID kind detail d]) d).
  { intros h ->. unfold update_op, set_operations. cbn. f_equal. apply update_fresh; [|done]. apply next_id_fresh. }
  split.
  - intros (h & d1 & (Hu & Hh & ->) & h' & d2 & (_ & _ & _ & ->) & -> & ->). by rewrite <- (Hup h Hh).
  - intros (Hu & -> & ->). eexists _, _. split; [done |]. eexists _, _. split; [|done]. split_and!; [done | done | done |].
    by rewrite <- (Hup _ eq_refl).
Qed.

(** What was verified is what the final review reads.  After a verification is
    recorded for a task, the latest verification of the task is that record,
    every field of it, whatever the journal held before. *)
Theorem RecordVerification_roundtrip taskID v (d d' : DB) :
  RecordVerification taskID (Some v) d = (Ok tt, d') → LastVerification taskID d' = (Ok (Some v), d').
Proof.
  unfold RecordVerification. intros (Hu & -> & _)%RecordEvent_ok.
  unfold LastVerification, Operations, mbind, M_bind, query. cbn -[stable_sort of_task]. unfold unavailable in *. cbn -[stable_sort of_task]. rewrite Hu.
  cbn -[stable_sort of_task]. f_equal. f_equal. rewrite of_task_app. unfold of_task at 2. rewrite filter_cons_True by done. rewrite filter_nil.
  rewrite sort_latest; [|intros y Hy; by apply max_seq_above].
  rewrite omap_app, last_app. cbn -[dec_vrecord json_vrecord]. unfold verification_of. cbn -[dec_vrecord json_vrecord]. by rewrite dec_vrecord_json.
Qed.

(** ** The verdict comes from the record *)

Definition accepting (verified : option VerificationRecord) : bool :=
  match verified with Some v => Vr_Accepted v | None => false end.
Definition closing_state (verified : option VerificationRecord) : string :=
  if accepting verified then StateAccepted else StateFailed.

Lemma verdict_state verified :
  (if String.eqb (verdict_of verified).1 Verified then StateAccepted else StateFailed) = closing_state verified.
Proof. unfold verdict_of, closing_state. destruct verified as [v|]; [cbn; by destruct (Vr_Accepted v) | done]. Qed.

Lemma review_verdict t ds verified status loaded now : Rv_Verdict (review_of t ds verified status loaded now) = (verdict_of verified).1.
Proof. unfold review_of. by destruct (verdict_of verified). Qed.

Lemma reads_only {A B} (f : DB → A) (g : A → B) (d : DB) b d' :
  (a ← query f; mret (g a)) d = (Ok b, d') → d' = d ∧ unavailable d = None ∧ b = g (f d).
Proof. intros (a & d1 & Hq & [-> ->]%mret_ok)%bind_ok. unfold query in Hq. destruct (unavailable d); [done |]. by injection Hq as <- <-. Qed.

Definition row_of (taskID : string) (d : DB) : option Task := find (λ t, String.eqb (Ta_ID t) taskID) (tasks d).
(** The task's row with a state recorded. *)
Definition stated (taskID state : string) (d : DB) : list Task :=
  (λ t, if String.eqb (Ta_ID t) taskID then with_state state (millis (db_now d)) t else t) <$> tasks d.

Lemma SetState_ok id state (d : DB) u d' : SetState id state d = (Ok u, d') → d' = update_task id (with_state state (millis (db_now d))) d.
Proof.
  unfold SetState. intros [_ H]%Tx_ok. apply bind_ok in H as (d1 & d2 & [-> ->]%gets_ok & H).
  by apply bind_ok in H as (? & d3 & [_ ->]%lift_ok & ->%modify_ok).
Qed.

Lemma RecordEvent_quiet taskID kind detail (d : DB) a d' : RecordEvent taskID kind detail d = (a, d') →
  tasks d' = tasks d ∧ task_workflow d' = task_workflow d.
Proof.
  unfold RecordEvent, Complete, mbind, M_bind. destruct (Begin _ _ _ _ d) as [[h|e] d1] eqn:Eb.
  - apply Begin_ok in Eb as (_ & _ & ->). destruct (finish _ _ _ _ _) as [[h'|e] d2] eqn:Ef.
    + intros [= _ <-]. by apply finish_ok in Ef as (_ & _ & _ & ->).
    + intros [= _ <-]. by apply finish_err in Ef as ->.
  - intros [= _ <-]. by apply Begin_err in Eb as ->.
Qed.
Lemma SetState_quiet id state (d : DB) a d' : SetState id state d = (a, d') →
  task_workflow d' = task_workflow d ∧ operations d' = operations d ∧
  tasks d' = match a with Ok _ => stated id state d | Err _ => tasks d end.
Proof.
  destruct a as [u|e]; [by intros ->%SetState_ok |]. unfold SetState. by intros ->%Tx_err.
Qed.

(** What [FinishTask] is made of: the row, the decisions and the latest
    verification it read, and the review it gave. *)
Lemma FinishTask_parts show_time taskID status loaded (d : DB) rev e d' :
  FinishTask show_time taskID status loaded d = (Ok (rev, e), d') →
  ∃ t ds verified, row_of taskID d = Some t ∧ Decisions taskID d = (Ok ds, d) ∧ LastVerification taskID d = (Ok verified, d) ∧
    rev = review_of t ds verified status loaded (db_now d) ∧
    ((tasks d' = tasks d ∧ e ≠ None) ∨ (tasks d' = stated taskID (closing_state verified) d ∧ e = None)) ∧
    task_workflow d' = task_workflow d ∧
    (e = None → operations d' = operations d ++ [event_op taskID KReview (json_review show_time rev) d]).
Proof.
  unfold FinishTask. intros (t & d1 & Hg & H)%bind_ok.
  unfold Get in Hg. apply bind_ok in Hg as (x & d2 & Hq & Hg). unfold query in Hq.
  destruct (unavailable d) eqn:Hu; [done |]. injection Hq as <- <-.
  destruct (find _ (tasks d)) as [t'|] eqn:Ef; [|by apply throw_ok in Hg]. apply mret_ok in Hg as [-> ->].
  apply bind_ok in H as (now & d3 & [-> ->]%gets_ok & H).
  apply bind_ok in H as (ds & d4 & Hds & H). pose proof Hds as (-> & _ & _)%reads_only.
  apply bind_ok in H as (verified & d5 & Hv & H). pose proof Hv as (-> & _ & _)%reads_only.
  apply bind_ok in H as (rec & d6 & Hr & H). exists t', ds, verified.
  unfold try in Hr. destruct (RecordEvent _ _ _ d) as [y d7] eqn:Er. injection Hr as <- <-.
  pose proof Er as [Ht1 Hw1]%RecordEvent_quiet.
  destruct y as [u|e1].
  - apply RecordEvent_ok in Er as (_ & Ed & _). apply bind_ok in H as (x & d8 & Hs & [[= -> ->] ->]%mret_ok).
    unfold try in Hs. destruct (SetState _ _ _) as [z d9] eqn:Es. injection Hs as <- <-.
    rewrite review_verdict, verdict_state in Es. apply SetState_quiet in Es as (Hw & Ho & Ht).
    split_and!; try done; [|congruence | intros _; by rewrite Ho, Ed].
    destruct z as [v|e2]; [right; split; [|done] | left; split; [congruence | done]].
    rewrite Ht, Ed. done.
  - apply mret_ok in H as [[= -> ->] ->]. split_and!; try done. by left.
Qed.

(** *** What the record says, in the journal's own terms *)

(** The operations of a task, in the order of their numbers. *)
Definition journal_of (taskID : string) (d : DB) (l : list Operation) : Prop :=
  l ≡ₚ of_task taskID (operations d) ∧ StronglySorted (λ a b, (Seq a ≤ Seq b)%Z) l.

(** An operation in which the user answered a question. *)
Definition user_answered (o : Operation) (q a : string) : Prop :=
  Op_Kind o = KDecision ∧ get_string "question" (Intent o) = Some q ∧ get_string "answer" (Intent o) = Some a ∧
  get_string "source" (Intent o) = Some "user".
Inductive answers_in : list Operation → list Decision → Prop :=
| answers_nil : answers_in [] []
| answers_user o q a l ds : user_answered o q a → answers_in l ds → answers_in (o :: l) (mk_decision q a (StartedAt o) :: ds)
| answers_other o l ds : (∀ q a, ¬ user_answered o q a) → answers_in l ds → answers_in (o :: l) ds.

(** An operation that holds a verification's record; the latest of them. *)
Definition verified_by (o : Operation) (v : VerificationRecord) : Prop := Op_Kind o = KRecipeRun ∧ dec_vrecord (Intent o) = Some v.
Definition unverifying (l : list Operation) : Prop := Forall (λ o, ∀ v, ¬ verified_by o v) l.
Definition latest_in (l : list Operation) (verified : option VerificationRecord) : Prop :=
  match verified with
  | None => unverifying l
  | Some v => ∃ l1 o l2, l = l1 ++ o :: l2 ∧ verified_by o v ∧ unverifying l2
  end.

Lemma sorted_weaken {A} (R R' : A → A → Prop) l : (∀ a b, R a b → R' a b) → StronglySorted R l → StronglySorted R' l.
Proof. intros HR. induction 1; constructor; [done |]. eapply Forall_impl; [done |]. auto. Qed.

Lemma journal_sorted taskID (d : DB) : journal_of taskID d (stable_sort seq_less (of_task taskID (operations d))).
Proof.
  split; [apply stable_sort_perm |]. eapply sorted_weaken; [|apply stable_sort_sorted].
  - unfold not_less, seq_less. intros a b H%Z.ltb_ge. lia.
  - unfold seq_less. intros a b H%Z.ltb_lt. apply Z.ltb_ge. lia.
  - unfold not_less, seq_less. intros a b c H1%Z.ltb_ge H2%Z.ltb_ge. apply Z.ltb_ge. lia.
Qed.

Lemma decision_of_spec o dn : decision_of o = Some dn ↔ ∃ q a, user_answered o q a ∧ dn = mk_decision q a (StartedAt o).
Proof.
  unfold decision_of, user_answered. destruct (bool_decide_reflect (Op_Kind o = KDecision)) as [Hk|Hk]; cbn [negb]; [|naive_solver].
  destruct (get_string "question" _) as [q|]; [|naive_solver]. destruct (get_string "answer" _) as [a|]; [|naive_solver].
  destruct (get_string "source" _) as [src|]; [|naive_solver]. destruct (String.eqb_spec src "user"); naive_solver.
Qed.
Lemma decisions_answers l : answers_in l (omap decision_of l).
Proof.
  induction l as [|o l IH]; [constructor |]. cbn. destruct (decision_of o) as [dn|] eqn:Ed.
  - apply decision_of_spec in Ed as (q & a & Hu & ->). by constructor.
  - apply answers_other; [|done]. intros q a Hu.
    assert (Hs : decision_of o = Some (mk_decision q a (StartedAt o))) by (apply decision_of_spec; by exists q, a). congruence.
Qed.

Lemma verification_of_spec o v : verification_of o = Some v ↔ verified_by o v.
Proof. unfold verification_of, verified_by. case_bool_decide; naive_solver. Qed.
Lemma unverifying_none l : omap verification_of l = [] → unverifying l.
Proof.
  intros H. apply Forall_forall. intros o Ho v Hv%verification_of_spec.
  assert (Hin : v ∈ omap verification_of l) by (apply list_elem_of_omap; by exists o). rewrite H in Hin. by apply not_elem_of_nil in Hin.
Qed.
Lemma last_latest l : latest_in l (last (omap verification_of l)).
Proof.
  induction l as [|o l IH]; [constructor |]. cbn. destruct (verification_of o) as [v|] eqn:Ev.
  - destruct (omap verification_of l) as [|w ws] eqn:Ew.
    + exists [], o, l. split; [done |]. split; [by apply verification_of_spec | by apply unverifying_none].
    + change (last (v :: w :: ws)) with (last (w :: ws)). destruct (last (w :: ws)) as [x|] eqn:El; [|by apply last_None in El].
      destruct IH as (l1 & y & l2 & -> & Hy & Hl2). by exists (o :: l1), y, l2.
  - destruct (last (omap verification_of l)) as [x|] eqn:El; cbn in IH |- *.
    + destruct IH as (l1 & y & l2 & -> & Hy & Hl2). by exists (o :: l1), y, l2.
    + constructor; [|done]. intros v Hv%verification_of_spec. congruence.
Qed.

Lemma LastVerification_latest taskID (d : DB) verified d' : LastVerification taskID d = (Ok verified, d') →
  d' = d ∧ ∃ l, journal_of taskID d l ∧ latest_in l verified.
Proof.
  intros (-> & _ & ->)%reads_only. split; [done |]. eexists. split; [apply journal_sorted | apply last_latest].
Qed.

(** C18: The final verdict is the record's.  Finishing a supervised task reads its
    journal and nothing the executor says: the review names the verdict of the
    last record of a verification in the journal's order, the answers the user
    gave - those whose source is the user, in that order and no others -, and the
    files git reports; and when it is written the task is recorded accepted
    exactly if that verification accepted, failed otherwise, with no other task
    touched. *)
Theorem FinishTask_exact show_time taskID status loaded (d : DB) rev d' :
  FinishTask show_time taskID status loaded d = (Ok (rev, None), d') →
  ∃ t l verified, row_of taskID d = Some t ∧ journal_of taskID d l ∧ latest_in l verified ∧ answers_in l (Rv_Decisions rev) ∧
    Rv_Verdict rev = match verified with None => Unverified | Some v => if Vr_Accepted v then Verified else NotVerified end ∧
    Rv_Checks rev = match verified with None => [] | Some v => Vr_Checks v end ∧
    Rv_Intent rev = Ta_Title t ∧ FilesChanged rev = changedFiles status ∧
    (∀ p, p ∈ protectedViolations loaded (changedFiles status) → p ∈ Rv_Protected rev) ∧
    tasks d' = stated taskID (closing_state verified) d ∧
    operations d' = operations d ++ [event_op taskID KReview (json_review show_time rev) d].
Proof.
  intros (t & ds & verified & Hrow & Hds & Hv & -> & [[_ Hn]|[Ht _]] & _ & Ho)%FinishTask_parts; [done |].
  apply reads_only in Hds as (_ & _ & ->). apply reads_only in Hv as (_ & _ & ->).
  set (l := stable_sort seq_less (of_task taskID (operations d))) in *.
  exists t, l, (last (omap verification_of l)). rewrite review_verdict. unfold review_of in *.
  destruct (verdict_of _) as [vd ws] eqn:Ev. cbn [Rv_Decisions Rv_Verdict Rv_Checks Rv_Intent FilesChanged Rv_Protected] in *.
  split_and!; try done; [apply journal_sorted | apply last_latest | apply decisions_answers | | intros p Hp; apply elem_of_app; by right | by apply Ho].
  unfold verdict_of in Ev. destruct (last _) as [v|]; [destruct (Vr_Accepted v)|]; by injection Ev as <- _.
Qed.
End journal.

(** ** A supervised task from start to finish *)

Definition life_start : Db State := mk_db _ [] [] ∅ [] [] [] [] [] ∅ 5000000000 None None.
Definition life_begun := StartTask "w" "aaaa" "rename the package" "standard" life_start.
Definition life_id : string := "oc-5-aaaa".
Definition life_answered := RecordAnswer life_id "which name?" "engine" life_begun.2.
Definition life_record : VerificationRecord :=
  mk_vrecord true "c1" ["go build passed"] [] [mk_check_result "go build" "pass" "ok"].
Definition life_verified := RecordVerification life_id (Some life_record) life_answered.2.
Definition life_status : option string := Some (" M engine.go" +:+ nl +:+ "R  old.go -> new.go" +:+ nl).
Definition life_finished := FinishTask pretty life_id life_status (Ok (mk_set [])) life_verified.2.

Example life_review : match life_finished.1 with
  | Ok (rev, None) => (Rv_Verdict rev, FilesChanged rev, D_Answer <$> Rv_Decisions rev)
  | _ => ("", [], [])
  end = ("VERIFIED", ["engine.go"; "new.go"], ["engine"]).
Proof. vm_compute. reflexivity. Qed.

Lemma RecordVerification_roundtrip_witness :
  LastVerification life_id life_verified.2 = (Ok (Some life_record), life_verified.2).
Proof.
  refine (RecordVerification_roundtrip life_id life_record life_answered.2 life_verified.2 _). vm_compute. reflexivity.
Defined.

Definition life_review_made : Review :=
  match life_finished.1 with Ok (rev, _) => rev | Err _ => mk_review "" "" "" [] 0 [] [] [] [] 0 end.

Lemma FinishTask_exact_witness :
  ∃ t l verified, row_of life_id life_verified.2 = Some t ∧ journal_of life_id life_verified.2 l ∧ latest_in l verified ∧
    answers_in l (Rv_Decisions life_review_made) ∧
    Rv_Verdict life_review_made = match verified with None => Unverified | Some v => if Vr_Accepted v then Verified else NotVerified end ∧
    Rv_Checks life_review_made = match verified with None => [] | Some v => Vr_Checks v end ∧
    Rv_Intent life_review_made = Ta_Title t ∧ FilesChanged life_review_made = changedFiles life_status ∧
    (∀ p, p ∈ protectedViolations (Ok (mk_set [])) (changedFiles life_status) → p ∈ Rv_Protected life_review_made) ∧
    tasks life_finished.2 = stated life_id (closing_state verified) life_verified.2 ∧
    operations life_finished.2 = operations life_verified.2 ++
      [event_op life_id KReview (json_review pretty life_review_made) life_verified.2].
Proof.
  refine (FinishTask_exact pretty life_id life_status (Ok (mk_set [])) life_verified.2 life_review_made life_finished.2 _).
  vm_compute. reflexivity.
Defined.
