(* ===== verification/Broker.v ===== *)
(** The human gates of [src/internal/broker]: the policy that says which
    decisions need a person, the gate that is journalled before it blocks, the
    decision that closes it, and the reuse of an answer for the same content. *)
From S2P Require Import Prelude GoStrings Json Ledger.

Open Scope string_scope.
Open Scope list_scope.
Open Scope nat_scope.

(** [broker/broker.go:35-47 Kind] *)
Definition KindPlan := "plan".
Definition KindImpact := "impact".
Definition KindOutOfScope := "out_of_scope".
Definition KindBudget := "budget".
Definition KindApply := "apply".
Definition gate_kinds : list string := [KindPlan; KindImpact; KindOutOfScope; KindBudget; KindApply].

(** [broker/broker.go:52-60 Decision] *)
Definition Pending_ := "pending".
Definition Approved := "approved".
Definition Rejected := "rejected".
Definition Expired_ := "expired".
Definition gate_decisions : list string := [Pending_; Approved; Rejected; Expired_].

(** [broker/broker.go:63-85 Gate] times are in nanoseconds; [G_Evidence] is
    [None] for an empty [json.RawMessage]. *)
Record Gate := mk_gate {
  G_ID : string; G_Workspace : string; G_Task : string; G_Kind : string; G_Question : string;
  G_Evidence : option json; G_Candidate : string; G_Decision : string; G_DecidedBy : string; G_Note : string;
  G_CreatedAt : Z; G_DecidedAt : option Z; G_ExpiresAt : option Z }.

(** [broker/broker.go:88-88 Gate.Open] *)
Definition Open_ (g : Gate) : bool := String.eqb (G_Decision g) Pending_.

(** [broker/broker.go:95-110 Policy] *)
Record Policy := mk_gate_policy {
  RequireForBreaking : bool; RequireForOutOfScope : bool; RequireForApply : bool; RequireForPlan : bool;
  MaxBreakingAuto : Z; GateTimeout : Z }.

(** [broker/broker.go:114-122 DefaultPolicy] *)
Definition DefaultPolicy : Policy := mk_gate_policy true true true false 0 0.
(** [broker/broker.go:127-127 Permissive] *)
Definition Permissive : Policy := mk_gate_policy false false false false 0 0.

(** [supervisor/supervisor.go:212-220 GatePolicy] from the fields of the
    configuration's gate section. *)
Definition GatePolicy (breaking outOfScope apply plan : bool) (timeoutMinutes : Z) : Policy :=
  mk_gate_policy breaking outOfScope apply plan 0 (timeoutMinutes * 60000000000).

(** [broker/broker.go:163-180 Evidence] [E_Impact] and [E_Plan] hold the values
    their fields marshal to. *)
Record Evidence := mk_gate_evidence {
  E_Summary : string; E_Impact : option json; BreakingCount : Z; E_OutOfScope : list string; E_Diff : string;
  E_Findings : list string; E_Plan : option json; PolicyReasons : list string; ReviewConcerns : list string }.

(** [broker/broker.go:131-160 Policy.Needs] *)
Definition Needs (p : Policy) (kind : string) (ev : Evidence) : bool * string :=
  let no := (false, "") in
  if String.eqb kind KindPlan then
    if RequireForPlan p then (true, "the policy gates plans before they run") else no
  else if String.eqb kind KindImpact then
    let breaking := BreakingCount ev in
    if RequireForBreaking p && Z.ltb 0 breaking
    then (true, "the change breaks " +:+ pretty breaking +:+ " consumer(s)")
    else if negb (RequireForBreaking p) && Z.ltb (MaxBreakingAuto p) breaking
    then (true, pretty breaking +:+ " breaking consumer(s) exceeds the automatic limit of " +:+ pretty (MaxBreakingAuto p))
    else no
  else if String.eqb kind KindOutOfScope then
    if RequireForOutOfScope p && (0 <? length (E_OutOfScope ev))
    then (true, pretty (length (E_OutOfScope ev)) +:+ " file(s) changed outside the declared scope")
    else no
  else if String.eqb kind KindApply then
    if RequireForApply p then (true, "the policy gates applying a change") else no
  else if String.eqb kind KindBudget then
    (true, "extending a budget is not a decision the system makes for itself")
  else no.

(** [broker/broker.go:185-185 MaxDiffInGate] *)
Definition MaxDiffInGate : nat := Z.to_nat 40000.

(** [omitempty]. *)
Definition omit_str (k s : string) : list (string * json) := if String.eqb s "" then [] else [(k, JStr s)].
Definition omit_strs (k : string) (l : list string) : list (string * json) :=
  match l with [] => [] | _ => [(k, JArr (JStr <$> l))] end.
Definition omit_opt (k : string) (j : option json) : list (string * json) :=
  match j with None => [] | Some j => [(k, j)] end.

(** [json.Marshal] on the evidence's tags. *)
(** [broker/broker.go:163-180 Evidence] *)
Definition marshal_evidence (ev : Evidence) : json :=
  JObj ([("summary", JStr (E_Summary ev))] ++ omit_opt "impact" (E_Impact ev) ++
        (if Z.eqb (BreakingCount ev) 0 then [] else [("breaking_count", JNum (BreakingCount ev))]) ++
        omit_strs "out_of_scope" (E_OutOfScope ev) ++ omit_str "diff" (E_Diff ev) ++
        omit_strs "findings" (E_Findings ev) ++ omit_opt "plan" (E_Plan ev) ++
        omit_strs "policy_reasons" (PolicyReasons ev) ++ omit_strs "review_concerns" (ReviewConcerns ev)).

(** The evidence with its diff cut. *)
(** [broker/broker.go:231-234 Broker.Ask] *)
Definition bounded_evidence (ev : Evidence) : Evidence :=
  if MaxDiffInGate <? String.length (E_Diff ev)
  then mk_gate_evidence (E_Summary ev) (E_Impact ev) (BreakingCount ev) (E_OutOfScope ev)
         (take_str MaxDiffInGate (E_Diff ev) +:+ nl +:+ "… diff truncated; inspect the task worktree for the whole change" +:+ nl)
         (E_Findings ev) (E_Plan ev) (PolicyReasons ev) (ReviewConcerns ev)
  else ev.

(** [time.Time{}]. *)
Definition zero_time : Z := (-62135596800 * 1000000000)%Z.
(** [time.UnixMilli]. *)
Definition unix_milli (ms : Z) : Z := (ms * 1000000)%Z.

(** [errors.Join]. *)
Definition join_errors (e : error) (e' : option error) : error :=
  match e' with
  | None => e
  | Some e' => mk_error (match err_is e with Some s => Some s | None => err_is e' end) (err_msg e +:+ nl +:+ err_msg e')
  end.

(** [broker/broker.go:394-407 gateID] [random] is the hexadecimal text of the
    four random bytes, or [None] when they cannot be read. *)
Definition gateID (taskID kind candidate : string) (random : option string) (now : Z) : string :=
  "gate-" +:+ taskID +:+ "-" +:+ kind +:+ "-" +:+
  (if negb (String.eqb candidate "") then take_str 12 candidate
   else match random with
        | None => pretty now
        | Some hex => pretty (millis now) +:+ "-" +:+ hex
        end).

(** [broker/storage.go:61-75 Broker.list] one scanned row. *)
Definition gate_of_row (r : GateRow) : Gate :=
  mk_gate (Ga_ID r) (Ga_Workspace r) (Ga_Task r) (Ga_Kind r) (Ga_Question r) (Some (Ga_Evidence r)) (Ga_Candidate r)
    (Ga_Decision r) (Ga_By r) (Ga_Note r) (unix_milli (Ga_Created r)) (unix_milli <$> Ga_Decided r)
    (unix_milli <$> Ga_Expires r).

(** [g.ExpiresAt != nil && now.After( *g.ExpiresAt)]. *)
Definition lapsed (now : Z) (g : Gate) : bool :=
  match G_ExpiresAt g with Some e => Z.ltb e now | None => false end.

Definition created_before (a b : GateRow) : bool := Z.ltb (Ga_Created a) (Ga_Created b).
Definition gate_before (a b : Gate) : bool := Z.ltb (G_CreatedAt a) (G_CreatedAt b).

(** Insert a row, or update the columns the conflict clause names. *)
(** [broker/storage.go:26-33 Broker.save] *)
Definition upsert_gate (row : GateRow) (l : list GateRow) : list GateRow :=
  if existsb (λ r, String.eqb (Ga_ID r) (Ga_ID row)) l
  then (λ r, if String.eqb (Ga_ID r) (Ga_ID row)
             then mk_gate_row (Ga_ID r) (Ga_Workspace r) (Ga_Task r) (Ga_Kind r) (Ga_Question r) (Ga_Evidence r)
                    (Ga_Decision row) (Ga_By row) (Ga_Note row) (Ga_Created r) (Ga_Decided row) (Ga_Expires r)
                    (Ga_Candidate r)
             else r) <$> l
  else l ++ [row].

Section broker.
Context {Body : Type}.
Context (ws : string) (policy : Policy).
Notation DM := (M (Db Body)).

(** The row [save] writes for a gate. *)
(** [broker/storage.go:14-36 Broker.save] *)
Definition row_of_gate (g : Gate) : GateRow :=
  mk_gate_row (G_ID g) ws (G_Task g) (G_Kind g) (G_Question g) (default (JObj []) (G_Evidence g))
    (G_Decision g) (G_DecidedBy g) (G_Note g) (millis (G_CreatedAt g)) (millis <$> G_DecidedAt g)
    (millis <$> G_ExpiresAt g) (G_Candidate g).

(** [broker/storage.go:13-36 Broker.save] with the table's checks. *)
Definition save (g : Gate) : DM unit :=
  Tx (_ ← lift (constraint (mem (G_Kind g) gate_kinds && mem (G_Decision g) gate_decisions) "CHECK");
      modify (λ d, set_gates (upsert_gate (row_of_gate g) (gates d)) d)).

(** [broker/storage.go:42-79 Broker.list] the gates a where clause selects, in
    order of creation. *)
Definition list_gates (where_ : GateRow → bool) : DM (list Gate) :=
  query (λ d, gate_of_row <$> stable_sort created_before (List.filter where_ (gates d))).

(** [broker/broker.go:344-344 Broker.All] *)
Definition All : DM (list Gate) := list_gates (λ _, true).

(** [broker/broker.go:347-356 Broker.Get] *)
Definition Get (id : string) : DM Gate :=
  l ← list_gates (λ r, String.eqb (Ga_ID r) id);
  match l with
  | [] => throw (errorf ("broker: no gate " +:+ quoted id))
  | g :: _ => mret g
  end.

(** [broker/broker.go:373-382 Broker.decidedFor] what the loop returns at. *)
Definition is_answer (now : Z) (g : Gate) : bool :=
  (String.eqb (G_Decision g) Approved || String.eqb (G_Decision g) Rejected) && negb (lapsed now g).

Definition about (taskID kind candidate : string) (r : GateRow) : bool :=
  String.eqb (Ga_Task r) taskID && String.eqb (Ga_Kind r) kind && String.eqb (Ga_Candidate r) candidate.

(** [broker/broker.go:363-384 Broker.decidedFor] *)
Definition decidedFor (taskID kind candidate : string) : DM (option Gate) :=
  if String.eqb candidate "" then mret None else
  l ← list_gates (about taskID kind candidate);
  now ← gets db_now;
  mret (find (is_answer now) (reverse l)).

(** The gate a decision needs no person for. *)
(** [broker/broker.go:216-219 Broker.Ask] *)
Definition auto_gate (taskID kind : string) : Gate :=
  mk_gate "" "" taskID kind "" None "" Approved "" "no gate required by policy" zero_time None None.

(** [broker/broker.go:240-249 Broker.Ask] *)
Definition new_gate (taskID kind question why : string) (ev : Evidence) (candidate : string) (random : option string) (now : Z) : Gate :=
  mk_gate (gateID taskID kind candidate random now) ws taskID kind (trim_space (question +:+ " (" +:+ why +:+ ")"))
    (Some (marshal_evidence (bounded_evidence ev))) candidate Pending_ "" "" now None
    (if Z.ltb 0 (GateTimeout policy) then Some (now + GateTimeout policy)%Z else None).

(** [broker/broker.go:253-255 Broker.Ask] *)
Definition approval_intent (g : Gate) (why : string) : json :=
  JObj [("gate", JStr (G_ID g)); ("kind", JStr (G_Kind g)); ("question", JStr (G_Question g)); ("reason", JStr why)].

(** [broker/broker.go:214-265 Broker.Ask] *)
Definition Ask (taskID kind question : string) (ev : Evidence) (candidate : string) (random : option string) : DM Gate :=
  let '(needed, why) := Needs policy kind ev in
  if negb needed then mret (auto_gate taskID kind) else
  decided ← decidedFor taskID kind candidate;
  match decided with
  | Some g => mret g
  | None =>
      now ← gets db_now;
      let g := new_gate taskID kind question why ev candidate random now in
      h ← Begin taskID KApproval (approval_intent g why) "";
      saved ← try (save g);
      match saved with
      | Err e =>
          failed ← try (FailOp h e);
          throw (join_errors e (match failed with Err e' => Some e' | Ok _ => None end))
      | Ok _ => mret g
      end
  end.

(** [broker/broker.go:304-317 Broker.complete] *)
Definition complete (opID : Z) (decision by_ note : string) : DM unit :=
  Tx (d ← gets id;
      modify (update_op opID (λ o,
        mk_op (Op_ID o) (Op_TaskID o) (Seq o) (Op_Kind o) (Intent o)
          (Some (JObj [("by", JStr by_); ("decision", JStr decision); ("note", JStr note)]))
          (CandidateBefore o) (CandidateAfter o) (EvidenceID o) (StartedAt o) (millis (db_now d)) (Op_Error o)))).

(** [broker/broker.go:288-294 Broker.Decide] the operation the loop closes. *)
Definition waits_for (gateID : string) (o : Operation) : bool :=
  bool_decide (Op_Kind o = KApproval) && Uncertain o && bool_decide (get_string "gate" (Intent o) = Some gateID).

Definition decided_gate (g : Gate) (decision by_ note : string) (now : Z) : Gate :=
  mk_gate (G_ID g) (G_Workspace g) (G_Task g) (G_Kind g) (G_Question g) (G_Evidence g) (G_Candidate g)
    decision by_ note (G_CreatedAt g) (Some now) (G_ExpiresAt g).

(** [broker/broker.go:268-302 Broker.Decide] *)
Definition Decide (gateID decision by_ note : string) : DM Gate :=
  g ← Get gateID;
  if negb (Open_ g) then throw (errorf ("broker: gate " +:+ gateID +:+ " was already " +:+ G_Decision g)) else
  now ← gets db_now;
  let g := decided_gate g decision by_ note now in
  _ ← save g;
  ops ← Operations (G_Task g);
  _ ← match find (waits_for gateID) ops with
      | Some op => complete (Op_ID op) decision by_ note
      | None => mret tt
      end;
  mret g.

(** [broker/broker.go:329-337 Broker.Pending] one turn of the loop. *)
Definition expire_one (now : Z) (g : Gate) : DM Gate :=
  if lapsed now g then
    r ← try (Decide (G_ID g) Expired_ "system" "nobody answered within the policy timeout");
    match r with Ok decided => mret decided | Err _ => mret g end
  else mret g.

Fixpoint expire_all (now : Z) (gs : list Gate) : DM (list Gate) :=
  match gs with
  | [] => mret []
  | g :: gs => g' ← expire_one now g; gs' ← expire_all now gs; mret (g' :: gs')
  end.

(** [broker/broker.go:322-341 Broker.Pending] *)
Definition Pending : DM (list Gate) :=
  gs ← list_gates (λ r, String.eqb (Ga_Decision r) Pending_);
  now ← gets db_now;
  out ← expire_all now gs;
  mret (stable_sort gate_before out).
End broker.

(** ** What each operation does to the table *)

Lemma upsert_fmap row l :
  existsb (λ r, String.eqb (Ga_ID r) (Ga_ID row)) l = true ↔ Ga_ID row ∈ Ga_ID <$> l.
Proof.
  rewrite existsb_exists, list_elem_of_fmap. split.
  - intros (r & Hr%list_elem_of_In & E%String.eqb_eq). by exists r.
  - intros (r & E & Hr%list_elem_of_In). exists r. by rewrite E, String.eqb_refl.
Qed.

(** The columns no update touches. *)
Definition same_gate (r r' : GateRow) : Prop :=
  Ga_ID r' = Ga_ID r ∧ Ga_Task r' = Ga_Task r ∧ Ga_Kind r' = Ga_Kind r ∧ Ga_Candidate r' = Ga_Candidate r ∧
  Ga_Expires r' = Ga_Expires r ∧ Ga_Evidence r' = Ga_Evidence r ∧ Ga_Question r' = Ga_Question r.

Lemma upsert_keeps row l r : r ∈ l →
  ∃ r', r' ∈ upsert_gate row l ∧ same_gate r r' ∧ (Ga_ID r = Ga_ID row ∨ r' = r).
Proof.
  intros Hr. unfold upsert_gate. destruct (existsb _ l); [|exists r; split; [set_solver | split; [done | by right]]].
  eexists. split; [apply (list_elem_of_fmap_2 _ _ _ Hr) |]. cbn. destruct (String.eqb _ _) eqn:E; [|by split; [|right]].
  apply String.eqb_eq in E. split; [done | by left].
Qed.

Lemma upsert_from row l r : r ∈ upsert_gate row l →
  (r = row ∧ Ga_ID row ∉ Ga_ID <$> l) ∨
  ∃ r0, r0 ∈ l ∧ same_gate r0 r ∧
    ((Ga_ID r0 ≠ Ga_ID row ∧ r = r0) ∨ (Ga_ID r0 = Ga_ID row ∧ Ga_Decision r = Ga_Decision row ∧ Ga_By r = Ga_By row)).
Proof.
  unfold upsert_gate. destruct (existsb _ l) eqn:Ex.
  - intros (r0 & -> & H0)%list_elem_of_fmap. right. exists r0. split; [done |].
    destruct (String.eqb_spec (Ga_ID r0) (Ga_ID row)); split; try done; auto.
  - intros [H| ->%list_elem_of_singleton]%elem_of_app.
    + right. exists r. split; [done |]. split; [done |].
      destruct (String.eqb_spec (Ga_ID r) (Ga_ID row)) as [E|E]; [|by left].
      exfalso. apply not_true_iff_false in Ex. apply Ex, upsert_fmap. rewrite <- E. by apply list_elem_of_fmap_2.
    + left. split; [done |]. rewrite <- upsert_fmap. by rewrite Ex.
Qed.

Lemma upsert_ids row l : NoDup (Ga_ID <$> l) → NoDup (Ga_ID <$> upsert_gate row l).
Proof.
  intros Hn. unfold upsert_gate. destruct (existsb _ l) eqn:Ex.
  - rewrite <- list_fmap_compose. erewrite list_fmap_ext; [exact Hn |]. intros i r _. cbn. by destruct (String.eqb _ _).
  - rewrite fmap_app. apply NoDup_app. split_and!; [done | | apply NoDup_singleton].
    intros x Hx ->%list_elem_of_singleton. apply upsert_fmap in Hx. by rewrite Hx in Ex.
Qed.

(** A gate about some content is named after it. *)
Definition content_id (task kind candidate : string) : string := gateID task kind candidate None 0.
Definition named (r : GateRow) : Prop :=
  Ga_Candidate r ≠ "" → Ga_ID r = content_id (Ga_Task r) (Ga_Kind r) (Ga_Candidate r).
Definition named_gate (g : Gate) : Prop :=
  G_Candidate g ≠ "" → G_ID g = content_id (G_Task g) (G_Kind g) (G_Candidate g).

Lemma gateID_content task kind candidate random now :
  candidate ≠ "" → gateID task kind candidate random now = content_id task kind candidate.
Proof. intros H%String.eqb_neq. unfold content_id, gateID. by rewrite H. Qed.

Record gates_ok (l : list GateRow) : Prop := {
  gates_ids : NoDup (Ga_ID <$> l);
  gates_named : ∀ r, r ∈ l → named r }.

Lemma upsert_ok row l : gates_ok l → named row → gates_ok (upsert_gate row l).
Proof.
  intros [Hi Hn] Hr. split; [by apply upsert_ids |].
  intros r [[-> _]|(r0 & H0 & (E1 & E2 & E3 & E4 & _) & _)]%upsert_from; [done |].
  unfold named. rewrite E1, E2, E3, E4. by apply Hn.
Qed.

Section facts.
Context {Body : Type}.
Context (ws : string) (policy : Policy).
Notation Db := (Db Body).
Notation DM := (M Db).
Implicit Types d : Db.

(** The invariant of a run: the clock of the call, the shape of the table and
    every earlier gate still there. *)
Definition keeps (l l' : list GateRow) : Prop := ∀ r, r ∈ l → ∃ r', r' ∈ l' ∧ same_gate r r'.
Lemma keeps_refl l : keeps l l.
Proof. intros r Hr. by exists r. Qed.
Lemma keeps_trans l1 l2 l3 : keeps l1 l2 → keeps l2 l3 → keeps l1 l3.
Proof.
  intros H1 H2 r Hr. destruct (H1 r Hr) as (r' & Hr' & E). destruct (H2 r' Hr') as (r'' & Hr'' & E').
  exists r''. split; [done |]. unfold same_gate in *. intuition congruence.
Qed.

Definition during (n : Z) (l : list GateRow) (d : Db) : Prop :=
  db_now d = n ∧ gates_ok (gates d) ∧ keeps l (gates d).
Definition triple (n : Z) (l : list GateRow) {A} (m : DM A) (Q : A → Prop) : Prop :=
  ∀ d r d', during n l d → m d = (r, d') → during n l d' ∧ ∀ a, r = Ok a → Q a.

Lemma triple_bind n l {A B} (m : DM A) (k : A → DM B) P Q :
  triple n l m P → (∀ a, P a → triple n l (k a) Q) → triple n l (m ≫= k) Q.
Proof.
  intros Hm Hk d r d' Hd. unfold mbind, M_bind. destruct (m d) as [[a|e] d1] eqn:E.
  - destruct (Hm d _ d1 Hd E) as [H1 HP]. intros H. by apply (Hk a (HP a eq_refl) d1).
  - intros [= <- <-]. destruct (Hm d _ d1 Hd E) as [H1 _]. done.
Qed.
Lemma triple_ret n l {A} (a : A) (Q : A → Prop) : Q a → triple n l (mret a) Q.
Proof. intros Ha d r d' Hd [= <- <-]. split; [done |]. by intros ? [= <-]. Qed.
Lemma triple_throw n l {A} e (Q : A → Prop) : triple n l (throw e) Q.
Proof. by intros d r d' Hd [= <- <-]. Qed.
Lemma triple_try n l {A} (m : DM A) Q :
  triple n l m Q → triple n l (try m) (λ r, match r with Ok a => Q a | Err _ => True end).
Proof.
  intros Hm d r d' Hd. unfold try. destruct (m d) as [r0 d1] eqn:E. intros [= <- <-].
  destruct (Hm d _ d1 Hd E) as [H1 HQ]. split; [done |]. intros a [= <-]. destruct r0; [by apply HQ | done].
Qed.
Lemma triple_now n l : triple n l (gets db_now) (λ x, x = n).
Proof. intros d r d' [Hn Hd] [= <- <-]. split; [done |]. by intros ? [= <-]. Qed.
Lemma triple_weaken n l {A} (m : DM A) (P Q : A → Prop) : triple n l m P → (∀ a, P a → Q a) → triple n l m Q.
Proof. intros Hm HPQ d r d' Hd E. destruct (Hm d r d' Hd E). split; [done |]. eauto. Qed.

(** Calls that leave the gates and the clock alone. *)
Lemma triple_other n l {A} (m : DM A) :
  (∀ d r d', m d = (r, d') → gates d' = gates d ∧ db_now d' = db_now d) → triple n l m (λ _, True).
Proof. intros H d r d' Hd E. destruct (H d r d' E) as [E1 E2]. unfold during. by rewrite E1, E2. Qed.

Lemma query_same {A} (f : Db → A) d r d' : query f d = (r, d') → d' = d.
Proof. unfold query. destruct (unavailable d); by intros [= _ <-]. Qed.

Lemma triple_list n l where_ : triple n l (list_gates (Body:=Body) where_) (Forall named_gate).
Proof.
  intros d r d' Hd E. pose proof E as E'. apply query_same in E' as ->. split; [done |].
  intros gs ->. unfold list_gates, query in E. destruct (unavailable d); [done |]. injection E as <-.
  apply Forall_fmap, Forall_forall. intros row Hr%elem_of_stable_sort%list_elem_of_In%filter_In.
  destruct Hr as [Hr%list_elem_of_In _]. destruct Hd as (_ & [_ Hn] & _). apply (Hn _ Hr).
Qed.

Lemma triple_get n l id : triple n l (Get (Body:=Body) id) named_gate.
Proof.
  eapply triple_bind; [apply triple_list |]. intros [|g gs] H; [apply triple_throw |].
  apply triple_ret. by inversion H.
Qed.

Lemma save_cases g d r d' : save (Body:=Body) ws g d = (r, d') →
  d' = d ∨ d' = set_gates (upsert_gate (row_of_gate ws g) (gates d)) d.
Proof.
  unfold save, Tx. destruct (unavailable d); [intros [= _ <-]; by left |]. unfold_M.
  destruct (constraint _ _) as [[]|e]; cbn; intros [= _ <-]; [by right | by left].
Qed.

Lemma triple_save n l g : named_gate g → triple n l (save ws g) (λ _, True).
Proof.
  intros Hg d r d' (Hn & Hok & Hk) [->| ->]%save_cases; [done |]. split; [|done].
  split; [done |]. split; [by apply upsert_ok |]. eapply keeps_trans; [exact Hk |].
  intros row Hr. destruct (upsert_keeps (row_of_gate ws g) _ _ Hr) as (r' & H1 & H2 & _). by exists r'.
Qed.

Lemma Begin_same task kind intent before d r d' :
  Begin (Body:=Body) task kind intent before d = (r, d') → gates d' = gates d ∧ db_now d' = db_now d.
Proof.
  destruct r as [h|e]; [intros (_ & _ & ->)%Begin_ok; done | by intros ->%Begin_err].
Qed.
Lemma FailOp_same h cause d r d' : FailOp (Body:=Body) h cause d = (r, d') → gates d' = gates d ∧ db_now d' = db_now d.
Proof. destruct r as [h'|e]; [intros (_ & _ & _ & ->)%finish_ok; done | by intros ->%finish_err]. Qed.
Lemma complete_same id dec by_ note d r d' :
  complete (Body:=Body) id dec by_ note d = (r, d') → gates d' = gates d ∧ db_now d' = db_now d.
Proof. unfold complete, Tx. destruct (unavailable d); [by intros [= _ <-] |]. cbn. by intros [= _ <-]. Qed.

Lemma triple_decide n l id dec by_ note : triple n l (Decide (Body:=Body) ws id dec by_ note) (λ _, True).
Proof.
  eapply triple_bind; [apply triple_get |]. intros g Hg. destruct (negb (Open_ g)); [apply triple_throw |].
  eapply triple_bind; [apply triple_now |]. intros now _.
  eapply triple_bind; [by apply triple_save |]. intros [] _.
  eapply triple_bind; [apply triple_other; by intros ? ? ? ->%query_same |]. intros ops _.
  eapply triple_bind; [|by intros; apply triple_ret].
  destruct (find _ ops); [apply triple_other, complete_same | by apply triple_ret].
Qed.

Lemma triple_decidedFor n l task kind candidate :
  triple n l (decidedFor (Body:=Body) task kind candidate) (λ _, True).
Proof.
  unfold decidedFor. destruct (String.eqb _ _); [by apply triple_ret |].
  eapply triple_bind; [apply triple_list |]. intros gs _.
  eapply triple_bind; [apply triple_now |]. intros now _. by apply triple_ret.
Qed.

Lemma named_new_gate task kind question why ev candidate random now :
  named_gate (new_gate ws policy task kind question why ev candidate random now).
Proof. intros H. cbn. by apply gateID_content. Qed.

Lemma triple_ask n l task kind question ev candidate random :
  triple n l (Ask (Body:=Body) ws policy task kind question ev candidate random) (λ _, True).
Proof.
  unfold Ask. destruct (Needs _ _ _) as [[] why]; cbn [negb]; [|by apply triple_ret].
  eapply triple_bind; [apply triple_decidedFor |]. intros [g|] _; [by apply triple_ret |].
  eapply triple_bind; [apply triple_now |]. intros now _.
  eapply triple_bind; [apply triple_other, Begin_same |]. intros h _.
  eapply triple_bind; [apply triple_try, triple_save, named_new_gate |]. intros [[]|e] _; [by apply triple_ret |].
  eapply triple_bind; [apply triple_try, triple_other, FailOp_same |]. intros. apply triple_throw.
Qed.

Lemma triple_pending n l : triple n l (Pending (Body:=Body) ws) (λ _, True).
Proof.
  eapply triple_bind; [apply triple_list |]. intros gs _.
  eapply triple_bind; [apply triple_now |]. intros now _.
  eapply triple_bind; [|by intros; apply triple_ret].
  assert (H : triple n l (expire_all ws now gs) (λ _, True)); [|exact H].
  induction gs as [|g gs IH]; cbn [expire_all]; [by apply triple_ret |].
  eapply triple_bind; [|intros g' _; eapply triple_bind; [exact IH | by intros; apply triple_ret]].
  assert (H : triple n l (expire_one ws now g) (λ _, True)); [|exact H].
  unfold expire_one. destruct (lapsed now g); [|by apply triple_ret].
  eapply triple_bind; [apply triple_try, triple_decide |]. intros [g'|e] _; by apply triple_ret.
Qed.

(** ** Reusing an answer *)

Lemma ids_inj l r r' : NoDup (Ga_ID <$> l) → r ∈ l → r' ∈ l → Ga_ID r = Ga_ID r' → r = r'.
Proof.
  intros Hn [i Hi]%list_elem_of_lookup [j Hj]%list_elem_of_lookup E.
  assert (i = j) as ->; [|congruence]. apply (NoDup_lookup (Ga_ID <$> l) i j (Ga_ID r) Hn).
  - by rewrite list_lookup_fmap, Hi.
  - by rewrite list_lookup_fmap, Hj, E.
Qed.

Lemma about_true task kind candidate r :
  about task kind candidate r = true ↔ Ga_Task r = task ∧ Ga_Kind r = kind ∧ Ga_Candidate r = candidate.
Proof. unfold about. rewrite !andb_true_iff, !String.eqb_eq. tauto. Qed.

(** Two gates about the same content are one gate. *)
Lemma about_one l task kind candidate r r' : gates_ok l → candidate ≠ "" → r ∈ l → r' ∈ l →
  about task kind candidate r = true → about task kind candidate r' = true → r = r'.
Proof.
  intros [Hi Hn] Hc Hr Hr' (E1 & E2 & E3)%about_true (E1' & E2' & E3')%about_true.
  apply (ids_inj l); [done.. |]. rewrite (Hn r Hr), (Hn r' Hr') by congruence. congruence.
Qed.

Definition answer_for (task kind candidate : string) (d : Db) (row : GateRow) : Prop :=
  row ∈ gates d ∧ Ga_Task row = task ∧ Ga_Kind row = kind ∧ Ga_Candidate row = candidate ∧
  (Ga_Decision row = Approved ∨ Ga_Decision row = Rejected) ∧
  (∀ e, Ga_Expires row = Some e → (db_now d ≤ unix_milli e)%Z).

Lemma is_answer_row now row :
  is_answer now (gate_of_row row) = true ↔
  (Ga_Decision row = Approved ∨ Ga_Decision row = Rejected) ∧ (∀ e, Ga_Expires row = Some e → (now ≤ unix_milli e)%Z).
Proof.
  unfold is_answer, lapsed, gate_of_row. cbn [G_Decision G_ExpiresAt].
  rewrite andb_true_iff, orb_true_iff, !String.eqb_eq.
  destruct (Ga_Expires row) as [e|]; cbn; [rewrite negb_true_iff, Z.ltb_ge | ];
    (split; intros [H1 H2]; split; try done); [by intros ? [= <-] | by apply H2].
Qed.

Lemma decidedFor_ok task kind candidate d o d' :
  decidedFor task kind candidate d = (Ok o, d') →
  d' = d ∧ match o with
           | Some g => candidate ≠ "" ∧ ∃ row, g = gate_of_row row ∧ answer_for task kind candidate d row
           | None => candidate = "" ∨ ∀ row, ¬ answer_for task kind candidate d row
           end.
Proof.
  unfold decidedFor. destruct (String.eqb_spec candidate ""); [intros [-> ->]%mret_ok; auto |].
  intros (gs & d1 & Hl & (now & d2 & [-> ->]%gets_ok & [-> ->]%mret_ok)%bind_ok)%bind_ok.
  assert (d1 = d) as -> by (by apply query_same in Hl).
  unfold list_gates, query in Hl. destruct (unavailable d); [done |]. injection Hl as <-. split; [done |].
  assert (Hin : ∀ row, row ∈ gates d ∧ about task kind candidate row = true ↔
    row ∈ stable_sort created_before (List.filter (about task kind candidate) (gates d))).
  { intros row. rewrite elem_of_stable_sort, !list_elem_of_In, filter_In. done. }
  destruct (find _ _) as [g|] eqn:Ef.
  - apply find_some in Ef as [Hg Ha]. split; [done |].
    rewrite <- list_elem_of_In, elem_of_reverse, list_elem_of_fmap in Hg. destruct Hg as (row & -> & Hr).
    exists row. split; [done |]. apply Hin in Hr as [Hr (?&?&?)%about_true]. apply is_answer_row in Ha as [? ?].
    by split_and!.
  - right. intros row (Hr & Ht & Hk & Hc & Hd & He).
    pose proof (find_none _ _ Ef (gate_of_row row)) as Hf. cbn beta in Hf.
    rewrite (proj2 (is_answer_row _ _) (conj Hd He)) in Hf.
    discriminate Hf. rewrite <- list_elem_of_In, elem_of_reverse. apply list_elem_of_fmap_2, Hin.
    split; [done |]. by apply about_true.
Qed.

Lemma save_gate_ok g d u d' : save (Body:=Body) ws g d = (Ok u, d') →
  unavailable d = None ∧ d' = set_gates (upsert_gate (row_of_gate ws g) (gates d)) d.
Proof.
  unfold save. rewrite Tx_ok. intros [Hu H]. split; [done |]. apply bind_ok in H as ([] & d1 & [_ ->]%lift_ok & H).
  by apply modify_ok in H.
Qed.

Lemma upsert_stored row l : ∃ r, r ∈ upsert_gate row l ∧ Ga_ID r = Ga_ID row ∧ Ga_Decision r = Ga_Decision row.
Proof.
  unfold upsert_gate. destruct (existsb _ l) eqn:Ex.
  - apply upsert_fmap, list_elem_of_fmap in Ex as (r & E & Hr).
    eexists. split; [apply (list_elem_of_fmap_2 _ _ _ Hr) |]. cbn. rewrite <- E, String.eqb_refl. done.
  - exists row. split; [set_solver | done].
Qed.

Lemma waits_for_true id o :
  waits_for id o = true ↔ Op_Kind o = KApproval ∧ Op_Outcome o = None ∧ get_string "gate" (Intent o) = Some id.
Proof. unfold waits_for, Uncertain. rewrite !andb_true_iff, !bool_decide_eq_true. tauto. Qed.

(** Asking for a decision has exactly three outcomes.  If the policy needs
    no person the answer is an approval that is not recorded.  If an approved or
    rejected, unexpired gate for exactly this task, kind and candidate exists,
    that gate is the answer and nothing changes.  Otherwise no such answer
    exists (or the content is not identified), the result is a pending gate,
    the journal ends in an open approval operation that names it, and the gate
    is stored as pending. *)
Theorem Ask_exact task kind question ev candidate random d g d' :
  Ask ws policy task kind question ev candidate random d = (Ok g, d') →
  let '(needed, why) := Needs policy kind ev in
  (needed = false ∧ g = auto_gate task kind ∧ d' = d) ∨
  (needed = true ∧ candidate ≠ "" ∧ d' = d ∧ ∃ row, g = gate_of_row row ∧ answer_for task kind candidate d row) ∨
  (needed = true ∧ (candidate = "" ∨ ∀ row, ¬ answer_for task kind candidate d row) ∧
   g = new_gate ws policy task kind question why ev candidate random (db_now d) ∧
   (∃ op, operations d' = operations d ++ [op] ∧ Op_TaskID op = task ∧ waits_for (G_ID g) op = true) ∧
   ∃ row, row ∈ gates d' ∧ Ga_ID row = G_ID g ∧ Ga_Decision row = Pending_).
Proof.
  unfold Ask. destruct (Needs policy kind ev) as [[] why]; cbn [negb]; [|by intros [-> ->]%mret_ok; left].
  intros (o & d1 & [-> Ho]%decidedFor_ok & H)%bind_ok. right. destruct o as [g0|].
  - apply mret_ok in H as [-> ->]. left. by destruct Ho.
  - right. apply bind_ok in H as (now & d1 & [-> ->]%gets_ok & H).
    apply bind_ok in H as (h & d1 & (Hu & _ & ->)%Begin_ok & H).
    apply bind_ok in H as (sv & d2 & Hs & H).
    unfold try in Hs. destruct (save _ _ _) as [r d3] eqn:Es. injection Hs as <- <-.
    destruct r as [[]|e]; [apply mret_ok in H as [-> ->] |
      apply bind_ok in H as (? & ? & _ & H); by apply throw_ok in H].
    apply save_gate_ok in Es as [_ ->]. split; [done |]. split; [done |]. split; [done |]. split.
    + eexists. split; [reflexivity |]. split; [reflexivity |].
      by apply waits_for_true.
    + apply (upsert_stored (row_of_gate ws (new_gate ws policy task kind question why ev candidate random (db_now d))) (gates d)).
Qed.

(** A needed answer that does not wait was given for exactly this content. *)
Lemma Ask_answered task kind question ev candidate random d g d' :
  Ask ws policy task kind question ev candidate random d = (Ok g, d') →
  (Needs policy kind ev).1 = true → G_Decision g ≠ Pending_ →
  ∃ row, g = gate_of_row row ∧ answer_for task kind candidate d row.
Proof.
  unfold Ask. destruct (Needs policy kind ev) as [[] why]; [|done]. cbn [negb].
  intros (o & d1 & [-> Ho]%decidedFor_ok & H)%bind_ok _ Hd. destruct o as [g0|].
  - apply mret_ok in H as [-> ->]. destruct Ho as [_ (row & -> & Ha)]. by exists row.
  - apply bind_ok in H as (now & d2 & _ & H). apply bind_ok in H as (h & d2' & _ & H).
    apply bind_ok in H as (sv & d3 & _ & H). destruct sv; [by apply mret_ok in H as [-> _] |].
    apply bind_ok in H as (? & ? & _ & H). by apply throw_ok in H.
Qed.

(** ** Deciding *)

Lemma Get_ok id d g d' : Get id d = (Ok g, d') →
  d' = d ∧ unavailable d = None ∧ ∃ row, row ∈ gates d ∧ Ga_ID row = id ∧ g = gate_of_row row.
Proof.
  unfold Get. intros (gs & d1 & Hl & H)%bind_ok. assert (d1 = d) as -> by (by apply query_same in Hl).
  unfold list_gates, query in Hl. destruct (unavailable d); [done |]. injection Hl as <-.
  destruct (gate_of_row <$> _) as [|g0 gs] eqn:E; [by apply throw_ok in H |]. apply mret_ok in H as [-> ->].
  split; [done |]. split; [done |].
  assert (Hin : g0 ∈ g0 :: gs) by set_solver. rewrite <- E in Hin.
  apply list_elem_of_fmap in Hin as (row & -> & Hr%elem_of_stable_sort%list_elem_of_In%filter_In).
  destruct Hr as [Hr%list_elem_of_In Hid%String.eqb_eq]. by exists row.
Qed.

(** The operations after the answer was recorded. *)
Definition closed_op (id decision by_ note : string) (now : Z) (o : Operation) : Operation :=
  mk_op (Op_ID o) (Op_TaskID o) (Seq o) (Op_Kind o) (Intent o)
    (Some (JObj [("by", JStr by_); ("decision", JStr decision); ("note", JStr note)]))
    (CandidateBefore o) (CandidateAfter o) (EvidenceID o) (StartedAt o) now (Op_Error o).

(** A decision is taken once, on an open gate: a gate that is decided is
    never decided again.  The gate's row gets the decision, who took it and
    when, and keeps its question, its evidence, its content and its deadline;
    every other gate is untouched; and of the open approval operations that name
    the gate exactly the first is closed, with the answer as its outcome. *)
Theorem Decide_exact id decision by_ note d g d' :
  NoDup (Ga_ID <$> gates d) →
  Decide ws id decision by_ note d = (Ok g, d') →
  decision ∈ gate_decisions ∧
  (∃ row row', row ∈ gates d ∧ Ga_ID row = id ∧ Ga_Decision row = Pending_ ∧
     g = decided_gate (gate_of_row row) decision by_ note (db_now d) ∧
     row' ∈ gates d' ∧ same_gate row row' ∧ Ga_Decision row' = decision ∧ Ga_By row' = by_ ∧
     match find (waits_for id) (stable_sort seq_less (of_task (Ga_Task row) (operations d))) with
     | Some op => operations d' =
         (λ o, if Z.eqb (Op_ID o) (Op_ID op) then closed_op id decision by_ note (millis (db_now d)) o else o)
           <$> operations d
     | None => operations d' = operations d
     end) ∧
  (∀ r, r ∈ gates d → Ga_ID r ≠ id → r ∈ gates d') ∧ NoDup (Ga_ID <$> gates d').
Proof.
  intros Hnd. unfold Decide. intros (g0 & d1 & (-> & Hu & row & Hr & Hid & ->)%Get_ok & H)%bind_ok.
  destruct (Open_ (gate_of_row row)) eqn:Ho; cbn [negb] in H; [|by apply throw_ok in H].
  apply String.eqb_eq in Ho. cbn in Ho.
  apply bind_ok in H as (now & d1 & [-> ->]%gets_ok & H). cbv zeta in H.
  apply bind_ok in H as (u & d1 & Hs & H). pose proof Hs as Hs'.
  apply save_gate_ok in Hs as [_ ->].
  assert (Hdec : decision ∈ gate_decisions).
  { unfold save in Hs'. apply Tx_ok in Hs' as [_ Hs']. apply bind_ok in Hs' as ([] & d1 & [Hc _]%lift_ok & _).
    apply constraint_ok, andb_true_iff in Hc as [_ Hc]. by apply mem_true in Hc. }
  apply bind_ok in H as (ops & d1 & Hops & H). pose proof Hops as Hops'. apply query_same in Hops' as ->.
  unfold Operations, query in Hops. destruct (unavailable _); [done |]. injection Hops as <-.
  apply bind_ok in H as ([] & d1 & Hc & [-> ->]%mret_ok).
  set (grow := row_of_gate ws (decided_gate (gate_of_row row) decision by_ note (db_now d))) in *.
  assert (Hg : gates d1 = upsert_gate grow (gates d) ∧ match find (waits_for id)
      (stable_sort seq_less (of_task (Ga_Task row) (operations d))) with
     | Some op => operations d1 =
         (λ o, if Z.eqb (Op_ID o) (Op_ID op) then closed_op id decision by_ note (millis (db_now d)) o else o)
           <$> operations d
     | None => operations d1 = operations d
     end).
  { cbn in Hc. destruct (find _ _) as [op|]; [|by apply mret_ok in Hc as [_ ->]].
    pose proof Hc as [Hg _]%complete_same. split; [exact Hg |].
    unfold complete in Hc. apply Tx_ok in Hc as [_ Hc]. apply bind_ok in Hc as (d2 & d3 & [-> ->]%gets_ok & ->%modify_ok).
    done. }
  destruct Hg as [Hg Hop]. split; [done |]. rewrite Hg. split; [|split; [|by apply upsert_ids]].
  - destruct (upsert_keeps grow (gates d) row Hr) as (row' & Hr' & Hsame & _). exists row, row'.
    split_and!; try done; apply upsert_from in Hr' as [[-> Hn]|(r0 & H0 & Hs0 & [[Hne ->]|(_ & E1 & E2)])]; try done.
    1,2: exfalso; destruct Hs0 as [E _], Hsame as [E' _]; apply Hne; rewrite E'; done.
  - intros r H1 H2. destruct (upsert_keeps grow (gates d) r H1) as (r' & H3 & _ & [E| ->]); [|done].
    cbn in E. congruence.
Qed.

(** ** Histories of the gates

    Everything else that happens - time, other tables, failures - leaves the
    gates alone. *)
Inductive gstep : Db → Db → Prop :=
| ask_step task kind question ev candidate random d r d' :
    Ask ws policy task kind question ev candidate random d = (r, d') → gstep d d'
| decide_step id decision by_ note d r d' : Decide ws id decision by_ note d = (r, d') → gstep d d'
| pending_step d r d' : Pending ws d = (r, d') → gstep d d'
| around_step d d' : gates d' = gates d → (db_now d ≤ db_now d')%Z → gstep d d'.

Definition later (d d' : Db) : Prop :=
  gates_ok (gates d') ∧ keeps (gates d) (gates d') ∧ (db_now d ≤ db_now d')%Z.

Lemma triple_later {A} (m : DM A) Q d r d' :
  triple (db_now d) (gates d) m Q → gates_ok (gates d) → m d = (r, d') → later d d'.
Proof.
  intros Hm Hok E. destruct (Hm d r d') as [(Hn & Hok' & Hk) _]; [|exact E|].
  - split; [done |]. split; [done | apply keeps_refl].
  - split; [done |]. split; [done | by rewrite Hn].
Qed.

Lemma gstep_later d d' : gstep d d' → gates_ok (gates d) → later d d'.
Proof.
  destruct 1 as [? ? ? ? ? ? d r d' H|? ? ? ? d r d' H|d r d' H|d d' H]; intros Hok.
  - eapply triple_later; [apply triple_ask | done | exact H].
  - eapply triple_later; [apply triple_decide | done | exact H].
  - eapply triple_later; [apply triple_pending | done | exact H].
  - split; rewrite H; [done |]. split; [apply keeps_refl | done].
Qed.

Lemma gsteps_later d d' : rtc gstep d d' → gates_ok (gates d) → later d d'.
Proof.
  induction 1 as [d|d d1 d2 H1 _ IH]; intros Hok; [by split; [|split; [apply keeps_refl |]] |].
  destruct (gstep_later _ _ H1 Hok) as (Hok1 & Hk1 & Hn1). destruct (IH Hok1) as (Hok2 & Hk2 & Hn2).
  split; [done |]. split; [by eapply keeps_trans | lia].
Qed.

Lemma gates_ok_nil : gates_ok [].
Proof. split; [constructor | set_solver]. Qed.

Lemma answer_about task kind candidate d row :
  answer_for task kind candidate d row → about task kind candidate row = true.
Proof. intros (_ & ? & ? & ? & _). by apply about_true. Qed.

(** C19: A deadline is final.  Once the deadline of a gate about some content
    has passed, no later sequence of questions, answers and sweeps makes the
    system accept that content: every further question about it comes back
    undecided, even when a person approves the gate that was opened again. *)
Theorem deadline_is_final d0 d row e d' question ev random g d'' :
  gates d0 = [] → rtc gstep d0 d →
  row ∈ gates d → Ga_Candidate row ≠ "" → Ga_Expires row = Some e → (unix_milli e < db_now d)%Z →
  rtc gstep d d' → (Needs policy (Ga_Kind row) ev).1 = true →
  Ask ws policy (Ga_Task row) (Ga_Kind row) question ev (Ga_Candidate row) random d' = (Ok g, d'') →
  G_Decision g = Pending_.
Proof.
  intros H0 Hr0 Hrow Hc He Hpast Hr Hneed Hask.
  destruct (gsteps_later d0 d Hr0) as (Hok & _ & _); [rewrite H0; apply gates_ok_nil |].
  destruct (gsteps_later d d' Hr Hok) as (Hok' & Hk & Hn).
  destruct (Hk row Hrow) as (row' & Hrow' & Hid & Ht & Hkd & Hcd & He' & _).
  unfold Ask in Hask. destruct (Needs policy _ ev) as [[] why]; [|done]. cbn [negb] in Hask.
  apply bind_ok in Hask as (o & d1 & [-> Ho]%decidedFor_ok & H). destruct o as [g0|].
  - exfalso. destruct Ho as [_ (row2 & -> & Ha)].
    assert (row2 = row') as ->.
    { apply (about_one (gates d') (Ga_Task row) (Ga_Kind row) (Ga_Candidate row)); [done | done | by destruct Ha | done | |].
      - by apply answer_about in Ha.
      - by apply about_true. }
    destruct Ha as (_ & _ & _ & _ & _ & Hl). specialize (Hl e). rewrite He', He in Hl. specialize (Hl eq_refl). lia.
  - apply bind_ok in H as (now & d2 & [-> ->]%gets_ok & H).
    apply bind_ok in H as (h & d2 & _ & H). apply bind_ok in H as ([[]|e0] & d3 & _ & H).
    + by apply mret_ok in H as [-> _].
    + apply bind_ok in H as (? & ? & _ & H). by apply throw_ok in H.
Qed.

Lemma decidedFor_runs task kind candidate d :
  candidate ≠ "" → unavailable d = None → ∃ o, decidedFor task kind candidate d = (Ok o, d).
Proof.
  intros Hc%String.eqb_neq Hu. unfold decidedFor. rewrite Hc. unfold list_gates, query, mbind, M_bind.
  rewrite Hu. cbn. eauto.
Qed.

(** What deciding leaves of the gate's row. *)
Lemma Decide_stored row decision by_ note d g d' :
  NoDup (Ga_ID <$> gates d) → row ∈ gates d → Decide ws (Ga_ID row) decision by_ note d = (Ok g, d') →
  ∃ row', row' ∈ gates d' ∧ same_gate row row' ∧ Ga_Decision row' = decision ∧ Ga_By row' = by_.
Proof.
  intros Hnd Hrow Hdec. unfold Decide in Hdec.
  apply bind_ok in Hdec as (g0 & d1 & (-> & _ & row0 & Hr & Hid & ->)%Get_ok & H).
  assert (row0 = row) as -> by (by apply (ids_inj (gates d))).
  destruct (negb _); [by apply throw_ok in H |].
  apply bind_ok in H as (now & d1 & [-> ->]%gets_ok & H). cbv zeta in H.
  apply bind_ok in H as (u & d1 & [_ Hs]%save_gate_ok & H).
  apply bind_ok in H as (ops & d2 & ->%query_same & H).
  apply bind_ok in H as ([] & d2 & Hcl & [-> ->]%mret_ok).
  assert (gates d2 = gates d1) as ->.
  { destruct (find _ _); [by apply complete_same in Hcl as [-> _] | by apply mret_ok in Hcl as [_ ->]]. }
  rewrite Hs. cbn [gates set_gates].
  destruct (upsert_keeps (row_of_gate ws (decided_gate (gate_of_row row) decision by_ note (db_now d)))
              _ _ Hrow) as (row' & Hr' & Hsame & _).
  exists row'. split; [done |]. split; [done |].
  apply upsert_from in Hr' as [[-> _]|(r0 & _ & Hs0 & [[Hne ->]|(_ & -> & ->)])]; [done | | done].
  destruct Hsame as [E _]. by rewrite E in Hne.
Qed.

(** C20: An approval is honoured.  When a person approves a gate about some
    content, then asking again about that content before the deadline returns
    that approval, opens nothing and changes nothing - so a task that is run
    again reaches the step the approval was for. *)
Theorem approval_is_honoured d0 d1 row by_ note g d2 d3 question ev random :
  gates d0 = [] → rtc gstep d0 d1 → row ∈ gates d1 → Ga_Candidate row ≠ "" →
  Decide ws (Ga_ID row) Approved by_ note d1 = (Ok g, d2) →
  gates d3 = gates d2 → unavailable d3 = None →
  (∀ e, Ga_Expires row = Some e → (db_now d3 ≤ unix_milli e)%Z) →
  (Needs policy (Ga_Kind row) ev).1 = true →
  ∃ g', Ask ws policy (Ga_Task row) (Ga_Kind row) question ev (Ga_Candidate row) random d3 = (Ok g', d3) ∧
    G_ID g' = Ga_ID row ∧ G_Decision g' = Approved ∧ G_DecidedBy g' = by_ ∧ G_Candidate g' = Ga_Candidate row.
Proof.
  intros H0 Hr0 Hrow Hc Hdec Hg Hu He Hneed.
  destruct (gsteps_later d0 d1 Hr0) as (Hok & _ & _); [rewrite H0; apply gates_ok_nil |].
  destruct (triple_later _ _ _ _ _ (triple_decide _ _ _ _ _ _) Hok Hdec) as (Hok2 & Hk & _).
  destruct (Decide_stored _ _ _ _ _ _ _ (gates_ids _ Hok) Hrow Hdec) as (row' & Hin & (Hid & Ht & Hkd & Hcd & He' & _) & Hap & Hby).
  rewrite <- Hg in Hin.
  assert (Ha : answer_for (Ga_Task row) (Ga_Kind row) (Ga_Candidate row) d3 row').
  { split_and!; try done; [by left |]. rewrite He'. done. }
  destruct (decidedFor_runs (Ga_Task row) (Ga_Kind row) (Ga_Candidate row) d3 Hc Hu) as [o Hd]. pose proof Hd as [_ Ho]%decidedFor_ok.
  unfold Ask. destruct (Needs policy _ ev) as [[] why]; [|done]. cbn [negb].
  unfold mbind at 1, M_bind at 1. rewrite Hd. destruct o as [g0|].
  - destruct Ho as [_ (row2 & -> & Ha2)]. exists (gate_of_row row2). split; [done |].
    assert (row2 = row') as ->.
    { apply (about_one (gates d3) (Ga_Task row) (Ga_Kind row) (Ga_Candidate row)); [by rewrite Hg | done | by destruct Ha2 | done | |];
        by apply answer_about with d3. }
    by rewrite <- Hid, <- Hby, <- Hcd.
  - destruct Ho as [?|Ho]; [done | by destruct (Ho row')].
Qed.
End facts.

(** ** A gate, from the question to the answer *)

Definition one_minute : Policy := mk_gate_policy true true true true 0 60000000000.
Definition demo_evidence : Evidence := mk_gate_evidence "one file changed" None 0 [] "+x" [] None [] [].
Definition gate_start : Db unit := mk_db unit [] [] ∅ [] [] [] [] [] ∅ 1000000000 None None.
Definition set_now (n : Z) {Body} (d : Db Body) : Db Body :=
  mk_db _ (operations d) (checkpoints d) (leases d) (evidence d) (gates d) (tasks d) (task_deps d) (requirements d)
    (task_workflow d) n (db_ctx d) (db_fault d).

Definition demo_ask : M (Db unit) Gate := Ask "w" one_minute "t1" KindApply "Apply this change?" demo_evidence "c0ffee" None.
Definition demo_yes : M (Db unit) Gate := Decide "w" "gate-t1-apply-c0ffee" Approved "operator" "looks right".

Definition asked : Db unit := (demo_ask gate_start).2.
Definition approved : Db unit := (demo_yes asked).2.
(** The deadline passes, the gate is opened again and approved. *)
Definition overdue : Db unit := set_now 120000000000 asked.
Definition asked_again : Db unit := (demo_ask overdue).2.
Definition approved_late : Db unit := (demo_yes asked_again).2.

Definition demo_row : GateRow :=
  mk_gate_row "gate-t1-apply-c0ffee" "w" "t1" KindApply "Apply this change? (the policy gates applying a change)"
    (marshal_evidence demo_evidence) Pending_ "" "" 1000 None (Some 61000%Z) "c0ffee".

Lemma demo_asked : rtc (gstep "w" one_minute) gate_start asked.
Proof. apply rtc_once. eapply (ask_step "w" one_minute); [reflexivity..| exact (surjective_pairing (demo_ask gate_start))]. Qed.

Lemma Ask_exact_witness :
  ∃ g, demo_ask gate_start = (Ok g, asked) ∧ ∃ row, row ∈ gates asked ∧ Ga_ID row = G_ID g ∧ Ga_Decision row = Pending_.
Proof.
  destruct (demo_ask gate_start) as [[g|e] d] eqn:E; [|discriminate E].
  assert (d = asked) as -> by (unfold asked; by rewrite E).
  exists g. split; [done |].
  destruct (Ask_exact "w" one_minute "t1" KindApply "Apply this change?" demo_evidence "c0ffee" None gate_start g asked E)
    as [(H & _)|[(_ & _ & _ & row & _ & H & _)|(_ & _ & _ & _ & H)]]; [discriminate H | | exact H].
  exfalso. revert H. apply not_elem_of_nil.
Defined.

Lemma Decide_exact_witness :
  ∃ g, demo_yes asked = (Ok g, approved) ∧ NoDup (Ga_ID <$> gates approved) ∧
    Forall (λ o, Uncertain o = false) (operations approved).
Proof.
  destruct (demo_yes asked) as [[g|e] d] eqn:E; [|discriminate E].
  assert (d = approved) as -> by (unfold approved; by rewrite E).
  exists g. split; [done |].
  assert (Hn : NoDup (Ga_ID <$> gates asked)) by (apply NoDup_singleton).
  destruct (Decide_exact "w" "gate-t1-apply-c0ffee" Approved "operator" "looks right" asked g approved Hn E)
    as (_ & _ & _ & H).
  split; [exact H |]. repeat constructor.
Defined.

Lemma deadline_is_final_witness :
  ∃ g, (demo_ask approved_late).1 = Ok g ∧ G_Decision g = Pending_ ∧
    (Ga_Decision <$> gates approved_late) = [Approved].
Proof.
  destruct (demo_ask approved_late) as [[g|e] d] eqn:E; [|exfalso; apply (f_equal (λ p, is_ok p.1)) in E; vm_compute in E; discriminate E].
  exists g. split; [done |]. split; [|reflexivity].
  refine (deadline_is_final "w" one_minute gate_start overdue demo_row 61000 approved_late "Apply this change?"
            demo_evidence None g d eq_refl _ _ _ eq_refl eq_refl _ eq_refl E).
  - eapply rtc_r; [exact demo_asked |]. apply around_step; [done |]. vm_compute. discriminate.
  - left.
  - discriminate.
  - eapply rtc_l; [eapply (ask_step "w" one_minute); exact (surjective_pairing (demo_ask overdue)) |].
    apply rtc_once. eapply (decide_step "w" one_minute). exact (surjective_pairing (demo_yes asked_again)).
Defined.

Lemma approval_is_honoured_witness :
  ∃ g', demo_ask approved = (Ok g', approved) ∧ G_Decision g' = Approved.
Proof.
  destruct (demo_yes asked) as [[g|e] d] eqn:E; [|discriminate E].
  destruct (approval_is_honoured "w" one_minute gate_start asked demo_row "operator" "looks right" g d d
              "Apply this change?" demo_evidence None) as (g' & H & _ & Ha & _);
    [reflexivity | exact demo_asked | left | discriminate | exact E | reflexivity | by injection E as <- <- | | reflexivity |].
  - intros e [= <-]. injection E as <- <-. vm_compute. discriminate.
  - exists g'. split; [|exact Ha]. assert (approved = d) as -> by (unfold approved; by rewrite E). exact H.
Defined.
