(* ===== verification/Journal.v ===== *)
(** Histories of a task journal: the table [operations] under every statement
    that writes it - [Begin], [Complete], [Fail] and [Interrupted] of
    [src/internal/ledger/ledger.go], [SaveWorkflow] of
    [task/workflow_store.go] and the broker's answer to an approval
    ([broker/broker.go]) - interleaved transaction by transaction.  The calls
    themselves are shown to be such steps. *)
From S2P Require Import Prelude GoStrings Json Workflow Ledger Tasks Broker.

Open Scope string_scope.
Open Scope list_scope.
Open Scope nat_scope.

Section journal.
Context (ws : string) (policy : Broker.Policy).
Notation DB := (Db State).
Implicit Types d : DB.

(** A database, the handles its clients hold, and the operations that callers
    of [Decide] have read as waiting and not answered yet. *)
Record jstate := mk_jstate { J_db : DB; J_handles : list Handle; J_reads : list Z }.

(** One transaction of one of many clients.  [env_step] is everything else that
    happens around the journal: time passes, contexts are cancelled, the
    database fails and recovers, other tables change.  A crash loses handles
    and reads - of one client or of all - and leaves the rows. *)
Inductive jstep : jstate → jstate → Prop :=
| begin_step d hs ds task kind intent before r d' :
    Begin task kind intent before d = (r, d') →
    jstep (mk_jstate d hs ds) (mk_jstate d' (match r with Ok h => h :: hs | Err _ => hs end) ds)
| complete_step d l h l' ds outcome after ev r d' :
    Complete h outcome after ev d = (r, d') →
    jstep (mk_jstate d (l ++ h :: l') ds) (mk_jstate d' (l ++ (match r with Ok h' => h' | Err _ => h end) :: l') ds)
| fail_step d l h l' ds cause r d' :
    FailOp h cause d = (r, d') →
    jstep (mk_jstate d (l ++ h :: l') ds) (mk_jstate d' (l ++ (match r with Ok h' => h' | Err _ => h end) :: l') ds)
| interrupt_step d l h l' ds cause r d' :
    Interrupted h cause d = (r, d') →
    jstep (mk_jstate d (l ++ h :: l') ds) (mk_jstate d' (l ++ (match r with Ok h' => h' | Err _ => h end) :: l') ds)
| move_step d hs ds id state r d' :
    SaveWorkflow id state d = (r, d') → jstep (mk_jstate d hs ds) (mk_jstate d' hs ds)
| read_step d hs ds task gate op ops d' :
    Operations task d = (Ok ops, d') → find (waits_for gate) ops = Some op →
    jstep (mk_jstate d hs ds) (mk_jstate d' hs (Op_ID op :: ds))
| answer_step d hs l id l' decision by_ note r d' :
    complete id decision by_ note d = (r, d') → jstep (mk_jstate d hs (l ++ id :: l')) (mk_jstate d' hs (l ++ l'))
| env_step d d' hs ds : operations d' = operations d → jstep (mk_jstate d hs ds) (mk_jstate d' hs ds)
| crash_step d hs hs' ds ds' : hs' `sublist_of` hs → ds' `sublist_of` ds → jstep (mk_jstate d hs ds) (mk_jstate d hs' ds').

(** ** What holds of every history *)

(** The row a handle stands for: open until the handle is used, but for an
    approval, which the broker may answer meanwhile. *)
Definition handle_row (ops : list Operation) (h : Handle) : Prop :=
  ∃ o, o ∈ ops ∧ Op_ID o = h_id h ∧ Op_TaskID o = h_task h ∧ Seq o = h_seq h ∧ Op_Kind o = h_kind h ∧
    (h_done h = false → Op_Kind o ≠ KApproval → Op_Outcome o = None).
(** The row a caller of [Decide] is about to answer is an approval. *)
Definition read_row (ops : list Operation) (id : Z) : Prop := ∃ o, o ∈ ops ∧ Op_ID o = id ∧ Op_Kind o = KApproval.

Record jinv (s : jstate) : Prop := {
  jinv_rows : rows_ok (operations (J_db s));
  jinv_handles : NoDup (h_id <$> J_handles s);
  jinv_handle_rows : ∀ h, h ∈ J_handles s → handle_row (operations (J_db s)) h;
  jinv_reads : ∀ id, id ∈ J_reads s → read_row (operations (J_db s)) id }.

(** Nobody is about to write the row: always so of a row with an outcome that is
    not an approval. *)
Definition settled (s : jstate) (o : Operation) : Prop :=
  Uncertain o = false ∧
  (Op_Kind o = KApproval → Op_ID o ∉ J_reads s ∧ ∀ h, h ∈ J_handles s → h_id h = Op_ID o → h_done h = true).

(** From one state to a later one: rows keep their place and what was written at
    their start; an outcome is never taken back; a settled row stays as it is. *)
Record grows (s s' : jstate) : Prop := {
  grows_rows : ∀ i o, operations (J_db s) !! i = Some o →
    ∃ o', operations (J_db s') !! i = Some o' ∧ same_row o o' ∧ (Uncertain o = false → Uncertain o' = false);
  grows_settled : ∀ i o, operations (J_db s) !! i = Some o → settled s o → operations (J_db s') !! i = Some o ∧ settled s' o }.

Lemma records_grow_refl s : grows s s.
Proof using Type. split; [|done]. intros i o Ho. by exists o. Qed.
Lemma grows_trans s1 s2 s3 : grows s1 s2 → grows s2 s3 → grows s1 s3.
Proof using Type.
  intros [R1 S1] [R2 S2]. split.
  - intros i o Ho. destruct (R1 i o Ho) as (o2 & Ho2 & E2 & U2). destruct (R2 i o2 Ho2) as (o3 & Ho3 & E3 & U3).
    exists o3. split_and!; [done | by eapply same_row_trans | auto].
  - intros i o Ho Hs. destruct (S1 i o Ho Hs) as [Ho2 Hs2]. by apply S2.
Qed.

(** The same rows, and no more handles or reads than there were. *)
Lemma grows_lost d d' hs hs' ds ds' : operations d' = operations d → (∀ h, h ∈ hs' → h ∈ hs) → (∀ i, i ∈ ds' → i ∈ ds) →
  grows (mk_jstate d hs ds) (mk_jstate d' hs' ds').
Proof using Type.
  intros Hops Hh Hr. split; cbn [J_db]; rewrite Hops; [intros i o Ho; by exists o |].
  intros i o Ho [Hu Hs]. split; [done |]. split; [done |]. intros Hk. cbn in *. destruct (Hs Hk) as [H1 H2].
  split; [by intros ?%Hr |]. intros h Hin. by apply H2, Hh.
Qed.
Lemma jinv_lost d d' hs hs' ds ds' : operations d' = operations d → hs' `sublist_of` hs → (∀ i, i ∈ ds' → i ∈ ds) →
  jinv (mk_jstate d hs ds) → jinv (mk_jstate d' hs' ds').
Proof using Type.
  intros Hops Hh Hr [H1 H2 H3 H4]. split; cbn in *; rewrite ?Hops; [done | | |].
  - eapply sublist_NoDup; [exact H2 |]. by apply fmap_sublist.
  - intros h Hin. apply H3. by eapply elem_of_submseteq, sublist_submseteq.
  - intros id Hin. by apply H4, Hr.
Qed.

(** A new row. *)
Lemma jinv_append d o hs : rows_ok (operations d) → Op_ID o = next_id (operations d) → Seq o = (max_seq (Op_TaskID o) (operations d) + 1)%Z →
  ∀ ds, jinv (mk_jstate d hs ds) → jinv (mk_jstate (set_operations (operations d ++ [o]) d) hs ds).
Proof using Type.
  intros Hr Hid Hseq ds [_ Hn Hh Hd]. split; cbn in *; [by apply rows_begin | done | |].
  - intros h (o' & Ho & H)%Hh. exists o'. split; [set_solver | done].
  - intros id (o' & Ho & H)%Hd. exists o'. split; [set_solver | done].
Qed.
Lemma grows_append d d' l hs ds : operations d' = operations d ++ l → grows (mk_jstate d hs ds) (mk_jstate d' hs ds).
Proof using Type.
  intros Hops. split; cbn [J_db]; rewrite Hops; intros i o Ho.
  - exists o. split; [by apply lookup_app_l_Some | done].
  - intros Hs. split; [by apply lookup_app_l_Some | exact Hs].
Qed.

(** A row changed: what its columns say of it stays. *)
Lemma update_lookup id f d i o : operations d !! i = Some o →
  operations (update_op id f d) !! i = Some (if Z.eqb (Op_ID o) id then f o else o).
Proof using Type. intros Ho. cbn. by rewrite list_lookup_fmap, Ho. Qed.

Lemma update_same id f o : (∀ o, same_row o (f o)) → same_row o (if Z.eqb (Op_ID o) id then f o else o).
Proof using Type. intros Hf. destruct (Z.eqb _ _); [apply Hf | apply same_row_refl]. Qed.

Lemma row_by_id ops i o o' : rows_ok ops → ops !! i = Some o → o' ∈ ops → Op_ID o' = Op_ID o → o' = o.
Proof using Type.
  intros Hr Ho [j Hj]%list_elem_of_lookup E. assert (j = i) as ->; [|congruence].
  eapply (NoDup_lookup _ j i (Op_ID o) (rows_ids _ Hr)); rewrite list_lookup_fmap; [by rewrite Hj; cbn; rewrite E | by rewrite Ho].
Qed.

Lemma elem_of_update id f d o' : o' ∈ operations (update_op id f d) → ∃ o, o ∈ operations d ∧ o' = if Z.eqb (Op_ID o) id then f o else o.
Proof using Type. intros (o & -> & Ho)%list_elem_of_fmap. by exists o. Qed.

(** A write to the row of a client's handle or read, with the handles and reads
    there are afterwards. *)
Lemma write_row d hs hs' ds ds' id f :
  jinv (mk_jstate d hs ds) → (∀ o, same_row o (f o)) → (∀ o, Uncertain o = false → Uncertain (f o) = false) →
  h_id <$> hs' = h_id <$> hs →
  (∀ h', h' ∈ hs' → ∃ h, h ∈ hs ∧ h_id h' = h_id h ∧ h_seq h' = h_seq h ∧ h_task h' = h_task h ∧
     h_kind h' = h_kind h ∧ (h_done h = true → h_done h' = true) ∧ (h_id h = id → h_done h' = true ∨ ∃ o, o ∈ operations d ∧ Op_ID o = id ∧ Op_Kind o = KApproval)) →
  (∀ i, i ∈ ds' → i ∈ ds) →
  ((∃ h, h ∈ hs ∧ h_id h = id ∧ h_done h = false) ∨ id ∈ ds) →
  jinv (mk_jstate (update_op id f d) hs' ds') ∧ grows (mk_jstate d hs ds) (mk_jstate (update_op id f d) hs' ds').
Proof using Type.
  intros [Hr Hn Hh Hd] Hf Hu Hids Hhs Hds Hwho. cbn in *. split; [split|split]; cbn [J_db J_handles J_reads].
  - apply rows_update; [|done]. intros o. by apply update_same.
  - by rewrite Hids.
  - intros h' Hin. destruct (Hhs h' Hin) as (h & Hh0 & E1 & E2 & E3 & E4 & E5 & E6).
    destruct (Hh h Hh0) as (o & Ho & O1 & O2 & O3 & O4 & O5).
    exists (if Z.eqb (Op_ID o) id then f o else o). split; [apply (list_elem_of_fmap_2 (λ o, if Z.eqb (Op_ID o) id then f o else o)), Ho |].
    destruct (update_same id f o Hf) as (-> & -> & -> & -> & _). split_and!; [congruence..|]. intros Hnd Hk.
    destruct (Z.eqb_spec (Op_ID o) id) as [E|E].
    + exfalso. destruct E6 as [?|(o2 & Ho2 & Hi2 & Hk2)]; [congruence | congruence |]. apply list_elem_of_lookup in Ho as [i Hi].
      assert (o2 = o) as -> by (eapply row_by_id; [done.. |]; congruence). done.
    + apply O5; [|done]. destruct (h_done h); [|done]. by rewrite E5 in Hnd.
  - intros i Hi. destruct (Hd i (Hds i Hi)) as (o & Ho & O1 & O2). exists (if Z.eqb (Op_ID o) id then f o else o).
    split; [apply (list_elem_of_fmap_2 (λ o, if Z.eqb (Op_ID o) id then f o else o)), Ho |].
    by destruct (update_same id f o Hf) as (-> & _ & _ & -> & _).
  - intros i o Ho. eexists. split; [by apply update_lookup |]. split; [by apply update_same |]. destruct (Z.eqb _ _); auto.
  - intros i o Ho [Hc Hs]. assert (Hne : Op_ID o ≠ id).
    { intros E. destruct Hwho as [(h & Hin & Hi & Hnd)|Hin].
      - destruct (decide (Op_Kind o = KApproval)) as [Hk|Hk]; [destruct (Hs Hk) as [_ H]; rewrite (H h Hin) in Hnd; congruence |].
        destruct (Hh h Hin) as (o2 & Ho2 & O1 & _ & _ & _ & O5). assert (o2 = o) as -> by (eapply row_by_id; [done.. |]; congruence).
        unfold Uncertain in Hc. rewrite (O5 Hnd Hk), bool_decide_true in Hc; done.
      - destruct (Hd id Hin) as (o2 & Ho2 & O1 & O2). assert (o2 = o) as -> by (eapply row_by_id; [done.. |]; congruence).
        destruct (Hs O2) as [H _]. by rewrite E in H. }
    split; [rewrite (update_lookup id f d i o Ho); by rewrite (proj2 (Z.eqb_neq _ _) Hne) |].
    split; [done |]. intros Hk. destruct (Hs Hk) as [H1 H2]. cbn in *. split; [by intros ?%Hds |].
    intros h' Hin Hi. destruct (Hhs h' Hin) as (h & Hh0 & E1 & _ & _ & _ & E5 & _). apply E5, H2; [done | congruence].
Qed.

(** A handle is used: its row is written and the handle spent. *)
Lemma use_handle d l h l' ds f :
  jinv (mk_jstate d (l ++ h :: l') ds) → h_done h = false → (∀ o, same_row o (f o)) → (∀ o, Uncertain o = false → Uncertain (f o) = false) →
  let s' := mk_jstate (update_op (h_id h) f d) (l ++ spent h :: l') ds in
  jinv s' ∧ grows (mk_jstate d (l ++ h :: l') ds) s'.
Proof using Type.
  intros Hi Hd Hf Hu s'. eapply write_row; [done | done | done | | | done | left; exists h; split; [set_solver | done]].
  - by rewrite !fmap_app.
  - intros h' Hin. apply elem_of_app in Hin as [Hin|[->|Hin]%elem_of_cons].
    + exists h'. split; [set_solver |]. split_and!; [done.. |]. intros E. exfalso. pose proof (jinv_handles _ Hi) as Hn. cbn in Hn.
      rewrite fmap_app in Hn. apply NoDup_app in Hn as (_ & Hn & _). apply (Hn (h_id h')); [by apply list_elem_of_fmap_2 |]. rewrite E. by left.
    + exists h. split; [set_solver |]. split_and!; [done.. |]. intros _. by left.
    + exists h'. split; [set_solver |]. split_and!; [done.. |]. intros E. exfalso. pose proof (jinv_handles _ Hi) as Hn. cbn in Hn.
      rewrite fmap_app in Hn. apply NoDup_app in Hn as (_ & _ & [Hn _]%NoDup_cons). apply Hn. rewrite <- E. by apply list_elem_of_fmap_2.
Qed.

Lemma complete_ok id decision by_ note d d' : complete id decision by_ note d = (Ok tt, d') →
  d' = update_op id (closed_op "" decision by_ note (millis (db_now d))) d.
Proof using Type. unfold complete. intros [_ H]%Tx_ok. by apply bind_ok in H as (d2 & d3 & [-> ->]%gets_ok & ->%modify_ok). Qed.

Lemma jstep_ok s s' : jstep s s' → jinv s → jinv s' ∧ grows s s'.
Proof using Type.
  destruct 1 as [d hs ds task kind intent before r d' H|d l h l' ds outcome after ev r d' H|d l h l' ds cause r d' H|d l h l' ds cause r d' H
    |d hs ds id state r d' H|d hs ds task gate op ops d' H Hf|d hs l id l' decision by_ note r d' H|d d' hs ds H|d hs hs' ds ds' Hh Hd]; intros Hi.
  - destruct r as [h|e]; [|apply Begin_err in H as ->; by split; [|apply records_grow_refl]]. apply Begin_ok in H as (_ & -> & ->).
    set (o := mk_op _ _ _ _ _ _ _ _ _ _ _ _). split.
    + destruct (jinv_append d o hs (jinv_rows _ Hi) eq_refl eq_refl ds Hi) as [H1 H2 H3 H4]. split; [exact H1 | | | exact H4].
      * constructor; [|exact H2]. intros (h2 & E & Hin)%list_elem_of_fmap. destruct (jinv_handle_rows _ Hi _ Hin) as (o2 & Ho & E1 & _).
        apply next_id_fresh in Ho. cbn in *. lia.
      * intros h [->|Hin]%elem_of_cons; [|by apply H3]. eexists. split; [apply elem_of_app; right; by apply list_elem_of_singleton |]. done.
    + apply (grows_trans _ (mk_jstate (set_operations (operations d ++ [o]) d) hs ds)); [by apply (grows_append _ _ [o]) |]. split; [intros i q Ho; by exists q |].
      intros i q Ho [Hu Hs]. split; [done |]. split; [done |]. intros Hk. destruct (Hs Hk) as [H1 H2]. cbn in *. split; [done |].
      intros h [->|Hin]%elem_of_cons; [|by apply H2]. cbn. intros E. exfalso. unfold Uncertain in Hu.
      apply lookup_app_Some in Ho as [Ho|[_ Ho]].
      * apply list_elem_of_lookup_2, next_id_fresh in Ho. lia.
      * apply list_elem_of_lookup_2, list_elem_of_singleton in Ho as ->. by rewrite bool_decide_true in Hu.
  - destruct r as [h'|e]; [|apply finish_err in H as ->; by split; [|apply records_grow_refl]]. apply finish_ok in H as (Hnd & _ & -> & ->).
    by apply use_handle.
  - destruct r as [h'|e]; [|apply finish_err in H as ->; by split; [|apply records_grow_refl]]. apply finish_ok in H as (Hnd & _ & -> & ->).
    by apply use_handle.
  - destruct r as [h'|e]; [|apply Interrupted_err in H as ->; by split; [|apply records_grow_refl]]. apply Interrupted_ok in H as (Hnd & _ & -> & ->).
    by apply use_handle.
  - destruct r as [[]|e]; [|apply Tx_err in H as ->; by split; [|apply records_grow_refl]]. apply SaveWorkflow_ok in H as (_ & _ & _ & _ & ->).
    set (d1 := set_workflow _ d). assert (Hi1 : jinv (mk_jstate d1 hs ds)) by (by eapply jinv_lost, Hi). split; [|by eapply grows_append].
    destruct (String.eqb _ _); [rewrite app_nil_r; by eapply jinv_lost, Hi | by apply (jinv_append d1); [apply Hi1 | | |]].
  - apply query_same in H as E. subst d'. unfold Operations, query in H. destruct (unavailable d); [done |]. injection H as <-.
    apply find_some in Hf as [Hin (Hk & Hn & _)%waits_for_true]. apply list_elem_of_In, elem_of_stable_sort in Hin.
    apply list_elem_of_filter in Hin as [_ Hin]. split.
    + destruct Hi as [H1 H2 H3 H4]. split; [done.. |]. intros i [->|Hr]%elem_of_cons; [by exists op | by apply H4].
    + split; [intros i o Ho; by exists o |]. intros i o Ho [Hu Hs]. split; [done |]. split; [done |]. intros Hk'. destruct (Hs Hk') as [H1 H2]. cbn in *.
      split; [|done]. intros [E|Hr]%elem_of_cons; [|done]. assert (op = o) as -> by (by eapply row_by_id; [apply (jinv_rows _ Hi) | | |]).
      unfold Uncertain in Hu. by rewrite Hn, bool_decide_true in Hu.
  - destruct r as [[]|e]; cycle 1.
    { apply Tx_err in H as ->. assert (Hl : ∀ i, i ∈ l ++ l' → i ∈ l ++ id :: l') by set_solver.
      split; [by eapply jinv_lost, Hi | by apply grows_lost]. }
    apply complete_ok in H as ->. eapply write_row; [done | done | done | done | | set_solver | right; set_solver].
    intros h Hin. exists h. split; [done |]. split_and!; [done.. |]. intros E. right. apply (jinv_reads _ Hi id). cbn. set_solver.
  - split; [by eapply jinv_lost, Hi | by apply grows_lost].
  - assert (H1 : ∀ h, h ∈ hs' → h ∈ hs) by (intros h Hin; by eapply elem_of_submseteq, sublist_submseteq).
    assert (H2 : ∀ i, i ∈ ds' → i ∈ ds) by (intros i Hin; by eapply elem_of_submseteq, sublist_submseteq).
    split; [by eapply jinv_lost, Hi | by apply grows_lost].
Qed.

Definition empty_journal (d : DB) : jstate := mk_jstate d [] [].

Lemma jinv_start d : operations d = [] → jinv (empty_journal d).
Proof using Type.
  intros H. split; cbn; rewrite ?H; [|constructor | set_solver | set_solver]. split; [constructor | set_solver | done].
Qed.

Lemma jsteps_ok s s' : rtc jstep s s' → jinv s → jinv s' ∧ grows s s'.
Proof using Type.
  induction 1 as [s|s1 s2 s3 H _ IH]; intros Hi; [by split; [|apply records_grow_refl] |].
  destruct (jstep_ok _ _ H Hi) as [H2 G2]. destruct (IH H2) as [H3 G3]. split; [done |]. by eapply grows_trans.
Qed.

(** C35: The execution journal is append-only, however the transactions of any number
    of clients - of the ledger's calls, of the workflow store, of the broker -
    interleave, fail, are cancelled or are cut off by a crash.  A task's rows are
    numbered 1, 2, 3 and so on without gap or repetition, row ids are unique, a
    row keeps its place, its task, its kind and the intent written before the
    side effect, and a recorded outcome is never taken back.  A row with an
    outcome never changes again at all, unless it is an approval and a second
    answer to it was already under way: a caller of [Decide] had read it as
    waiting, or the [Ask] that wrote it still holds its handle. *)
Theorem journal_append_only d s s' :
  operations d = [] → rtc jstep (empty_journal d) s → rtc jstep s s' →
  rows_ok (operations (J_db s)) ∧ rows_ok (operations (J_db s')) ∧
  ∀ i o, operations (J_db s) !! i = Some o → ∃ o', operations (J_db s') !! i = Some o' ∧ same_row o o' ∧
    (Uncertain o = false → Uncertain o' = false) ∧
    (Uncertain o = false →
     Op_Kind o ≠ KApproval ∨ (Op_ID o ∉ J_reads s ∧ ∀ h, h ∈ J_handles s → h_id h = Op_ID o → h_done h = true) → o' = o).
Proof using Type.
  intros Hd Hs Hs'. destruct (jsteps_ok _ _ Hs (jinv_start d Hd)) as [Hi _]. destruct (jsteps_ok _ _ Hs' Hi) as [Hi' [Hrows Hset]].
  split_and!; [apply Hi | apply Hi' |]. intros i o Ho. destruct (Hrows i o Ho) as (o' & Ho' & Hsame & Hu).
  exists o'. split_and!; [done.. |]. intros Hc Hwho. destruct (Hset i o Ho) as [E _]; [|congruence].
  split; [done |]. intros Hk. by destruct Hwho.
Qed.

(** ** The calls are such steps *)

Lemma Get_same id d r d' : Get id d = (r, d') → d' = d.
Proof using Type.
  unfold Get, mbind, M_bind. destruct (list_gates _ d) as [[gs|e] d1] eqn:E; apply query_same in E as ->; [|by intros [= _ <-]].
  destruct gs; by intros [= _ <-].
Qed.

Lemma decidedFor_same task kind candidate d r d' : decidedFor task kind candidate d = (r, d') → d' = d.
Proof using Type.
  unfold decidedFor. destruct (String.eqb _ _); [by intros [= _ <-] |]. unfold mbind, M_bind.
  destruct (list_gates _ d) as [[gs|e] d1] eqn:E; apply query_same in E as ->; by intros [= _ <-].
Qed.

Lemma save_operations g d r d' : save ws g d = (r, d') → operations d' = operations d.
Proof using Type. destruct r as [[]|e]; [by intros [_ ->]%save_gate_ok | by intros ->%Tx_err]. Qed.

(** A handle that is dropped without being used. *)
Lemma drop_handle d h hs ds : jstep (mk_jstate d (h :: hs) ds) (mk_jstate d hs ds).
Proof using Type. apply crash_step; [by apply sublist_cons | done]. Qed.

(** [Ask] writes the journal by the ledger's calls: an intent, and its failure
    when the gate cannot be stored. *)
Lemma Ask_steps task kind question ev candidate random d r d' hs ds :
  Ask ws policy task kind question ev candidate random d = (r, d') → rtc jstep (mk_jstate d hs ds) (mk_jstate d' hs ds).
Proof using Type.
  unfold Ask. destruct (Needs policy kind ev) as [[] why]; cbn [negb]; [|by intros [= _ <-]]. unfold mbind, M_bind.
  destruct (decidedFor _ _ _ d) as [[[g|]|e] d1] eqn:E; apply decidedFor_same in E as ->; [by intros [= _ <-] | | by intros [= _ <-]].
  cbn [gets]. set (g := new_gate _ _ _ _ _ _ _ _ _ _). destruct (Begin _ _ _ _ d) as [[h|e] d1] eqn:Eb.
  2: { intros [= _ <-]. apply rtc_once. exact (begin_step d hs ds _ _ _ _ _ _ Eb). }
  intros H. eapply rtc_l; [exact (begin_step d hs ds _ _ _ _ _ _ Eb) |]. revert H. unfold try.
  destruct (save ws g d1) as [[[]|e] d2] eqn:Es; apply save_operations in Es.
  - intros [= _ <-]. eapply rtc_l; [by apply (env_step d1 d2) |]. apply rtc_once, drop_handle.
  - destruct (FailOp h e d2) as [rf d3] eqn:Ef. intros [= _ <-]. eapply rtc_l; [by apply (env_step d1 d2) |].
    eapply rtc_l; [exact (fail_step d2 [] h hs ds _ _ _ Ef) |]. destruct rf; apply rtc_once, drop_handle.
Qed.

(** [Decide] reads the approval that waits for the gate and then answers it. *)
Lemma Decide_steps id decision by_ note d r d' hs ds :
  Decide ws id decision by_ note d = (r, d') → rtc jstep (mk_jstate d hs ds) (mk_jstate d' hs ds).
Proof using Type.
  unfold Decide, mbind, M_bind. destruct (Get id d) as [[g|e] d1] eqn:E; apply Get_same in E as ->; [|by intros [= _ <-]].
  destruct (negb _); [by intros [= _ <-] |]. cbn [gets]. set (g' := decided_gate _ _ _ _ _).
  destruct (save ws g' d) as [[[]|e] d1] eqn:Es; apply save_operations in Es; [|intros [= _ <-]; by apply rtc_once, env_step].
  intros H. eapply rtc_l; [by apply (env_step d d1) |]. revert H.
  destruct (Operations _ d1) as [[ops|e] d2] eqn:Eo; [|apply query_same in Eo as ->; by intros [= _ <-]].
  pose proof Eo as Es2. apply query_same in Es2 as ->. destruct (find _ ops) as [op|] eqn:Ef; [|by intros [= _ <-]].
  destruct (complete _ _ _ _ d1) as [rc d3] eqn:Ec. intros H. eapply rtc_l; [by eapply read_step |].
  assert (d3 = d') as -> by (destruct rc as [[]|e]; by injection H as _ <-). apply rtc_once. exact (answer_step d1 hs [] _ ds _ _ _ _ _ Ec).
Qed.

Lemma expire_one_steps now g d r d' hs ds : expire_one ws now g d = (r, d') → rtc jstep (mk_jstate d hs ds) (mk_jstate d' hs ds).
Proof using Type.
  unfold expire_one. destruct (lapsed now g); [|by intros [= _ <-]]. unfold mbind, M_bind, try.
  destruct (Decide _ _ _ _ _ d) as [r1 d1] eqn:E. apply (Decide_steps _ _ _ _ _ _ _ hs ds) in E. destruct r1; by intros [= _ <-].
Qed.
Lemma expire_steps now gs : ∀ d r d' hs ds, expire_all ws now gs d = (r, d') → rtc jstep (mk_jstate d hs ds) (mk_jstate d' hs ds).
Proof using Type.
  induction gs as [|g gs IH]; intros d r d' hs ds; cbn [expire_all]; [by intros [= _ <-] |]. unfold mbind, M_bind.
  destruct (expire_one ws now g d) as [[g1|e] d1] eqn:E; apply (expire_one_steps _ _ _ _ _ hs ds) in E; [|by intros [= _ <-]].
  intros Hr. etrans; [exact E |]. revert Hr.
  destruct (expire_all ws now gs d1) as [r2 d2] eqn:E2. apply (IH _ _ _ hs ds) in E2. destruct r2; by intros [= _ <-].
Qed.

(** Listing the gates that wait answers those whose deadline has passed. *)
Lemma Pending_steps d r d' hs ds : Pending ws d = (r, d') → rtc jstep (mk_jstate d hs ds) (mk_jstate d' hs ds).
Proof using Type.
  unfold Pending, mbind, M_bind. destruct (list_gates _ d) as [[gs|e] d1] eqn:E; apply query_same in E as ->; [|by intros [= _ <-]].
  cbn [gets]. destruct (expire_all _ _ _ d) as [r1 d1] eqn:E. apply (expire_steps _ _ _ _ _ hs ds) in E. destruct r1; by intros [= _ <-].
Qed.
End journal.

(** ** A journal at work *)

(** A workflow is stored, an edit is begun and completed, an approval is asked
    for and given. *)
Definition edit_begun : Db State := (Begin "t1" KEdit (JObj [("path", JStr "a.go")]) "b" saved1).2.
Definition edit_handle : Handle := mk_handle 2 2 "t1" KEdit false.
Definition edit_done : Db State := (Complete edit_handle (JObj []) "c0ffee" "" edit_begun).2.
Definition apply_asked : Db State := (Ask "w" one_minute "t1" KindApply "Apply this change?" demo_evidence "c0ffee" None edit_done).2.
Definition apply_given : Db State := (Decide "w" "gate-t1-apply-c0ffee" Approved "operator" "looks right" apply_asked).2.

Lemma history_asked : rtc jstep (empty_journal task_db) (mk_jstate apply_asked [] []).
Proof.
  eapply rtc_l; [exact (move_step task_db [] [] "t1" (start_state Intake "b" 5) (Ok tt) saved1 eq_refl) |].
  eapply rtc_l; [exact (begin_step saved1 [] [] "t1" KEdit (JObj [("path", JStr "a.go")]) "b" (Ok edit_handle) edit_begun eq_refl) |].
  eapply rtc_l; [exact (complete_step edit_begun [] edit_handle [] [] (JObj []) "c0ffee" "" (Ok (spent edit_handle)) edit_done eq_refl) |].
  eapply rtc_l; [apply drop_handle |].
  eapply (Ask_steps "w" one_minute). exact (surjective_pairing (Ask _ _ _ _ _ _ _ _ edit_done)).
Qed.

Lemma history_given : rtc jstep (mk_jstate apply_asked [] []) (mk_jstate apply_given [] []).
Proof. eapply (Decide_steps "w"). exact (surjective_pairing (Decide _ _ _ _ _ apply_asked)). Qed.

Lemma journal_append_only_witness :
  rows_ok (operations apply_asked) ∧ rows_ok (operations apply_given) ∧
  (Uncertain <$> operations apply_asked) = [false; false; true] ∧ (Uncertain <$> operations apply_given) = [false; false; false] ∧
  operations apply_given !! 1 = operations apply_asked !! 1.
Proof.
  destruct (journal_append_only task_db _ _ eq_refl history_asked history_given) as (H1 & H2 & H3).
  split_and!; [exact H1 | exact H2 | vm_compute; reflexivity.. |].
  destruct (operations apply_asked !! 1) as [o|] eqn:E; [|vm_compute in E; discriminate E].
  destruct (H3 1 o E) as (o' & Ho' & _ & _ & Hsame). cbn [J_db] in Ho'. rewrite Ho'. f_equal.
  assert (Hk : Uncertain o = false ∧ Op_Kind o = KEdit) by (vm_compute in E; injection E as <-; split; reflexivity).
  destruct Hk as [Hu Hk]. apply Hsame; [exact Hu |]. left. rewrite Hk. discriminate.
Defined.

(** Two callers of [Decide] that both read the gate while it is open both answer
    it, and the outcome recorded first is replaced by the second. *)
Lemma answered_twice : ∃ s1 s2, rtc jstep (empty_journal task_db) s1 ∧ rtc jstep s1 s2 ∧
  (∃ o, operations (J_db s1) !! 2 = Some o ∧ (Op_Outcome o ≫= get_string "decision") = Some Approved) ∧
  (∃ o, operations (J_db s2) !! 2 = Some o ∧ (Op_Outcome o ≫= get_string "decision") = Some Rejected).
Proof.
  set (d1 := (complete 3 Approved "first" "" apply_asked).2). set (d2 := (complete 3 Rejected "second" "" d1).2).
  destruct (find (waits_for "gate-t1-apply-c0ffee") (stable_sort seq_less (of_task "t1" (operations apply_asked)))) as [op|] eqn:Ef;
    [|vm_compute in Ef; discriminate Ef].
  assert (Hop : Op_ID op = 3%Z) by (vm_compute in Ef; injection Ef as <-; reflexivity).
  assert (Hread : ∀ ds, jstep (mk_jstate apply_asked [] ds) (mk_jstate apply_asked [] (3%Z :: ds))).
  { intros ds. rewrite <- Hop. exact (read_step apply_asked [] ds "t1" _ op _ apply_asked eq_refl Ef). }
  exists (mk_jstate d1 [] [3%Z]), (mk_jstate d2 [] []). split_and!.
  - etrans; [exact history_asked |]. eapply rtc_l; [apply Hread |]. eapply rtc_l; [apply Hread |].
    apply rtc_once. exact (answer_step apply_asked [] [] 3%Z [3%Z] Approved "first" "" (Ok tt) d1 eq_refl).
  - apply rtc_once. exact (answer_step d1 [] [] 3%Z [] Rejected "second" "" (Ok tt) d2 eq_refl).
  - eexists. split; vm_compute; reflexivity.
  - eexists. split; vm_compute; reflexivity.
Qed.
