(* ===== verification/Engine.v ===== *)
(** The contract between the supervisor and whatever edits code,
    [src/internal/engine/engine.go]: requests, responses, and what an engine
    may do in a step. *)
From S2P Require Import Memory Retrieval.
From S2P Require Import Prelude GoStrings Policy Worktree Firewall Recipe Graph.
From S2P Require Import Json Llm ContextPack Workflow Ledger.

Open Scope string_scope.
Open Scope list_scope.
Open Scope nat_scope.

(** [engine/engine.go:57-63 Budget] *)
Record EBudget := mk_ebudget {
  Eb_Context : Z; Eb_Output : Z; Eb_Reasoning : Z; Eb_MaxSteps : Z; Eb_MaxTokens : Z }.
(** [engine/engine.go:24-53 Request] [Q_Spec] is the specification of the
    recipe runner the engine was given; [Q_Journal] says whether there is a
    journal, [Q_Transcript] whether the caller gave a transcript and the
    function that saves it. *)
Record EngRequest := mk_engrequest {
  Q_Task : string; Q_Objective : string; Q_Worktree : string; Q_Packet : Packet; Q_Feedback : list Result;
  Q_Attempt : Z; Q_Presets : list Preset; Q_Phase : option Phase; Q_Plan : option Plan; Q_Access : Access;
  Q_Budget : EBudget; Q_Journal : bool; Q_Transcript : bool; Q_Spec : option Spec }.
(** [engine/engine.go:68-96 Response] *)
Record EngResponse := mk_engresponse {
  Er_Summary : string; Er_ClaimsDone : bool; Er_Tokens : Z; Er_Edited : bool; Er_Truncated : bool; Er_BudgetExhausted : bool }.

(** What an engine does in a step: it acts on the worktree and the rest of the
    world, keeps its transcript in the supervisor's state, saves it, reads the
    context's error and the task's journal, and journals its tool calls.
    Nothing else of the supervisor is in its reach. *)
Inductive proc (W A : Type) : Type :=
| PReturn (r : result A)
| PWorld (B : Type) (m : W → B * W) (k : B → proc W A)
| PTranscript (f : Transcript → Transcript) (k : Transcript → proc W A)
| PSave (k : option error → proc W A)
| PContext (k : option error → proc W A)
| POperations (k : result (list Operation) → proc W A)
| PBegin (kind : OpKind) (intent : json) (before : string) (k : result Handle → proc W A)
| PComplete (h : Handle) (outcome : json) (after ev : string) (k : result Handle → proc W A)
| PFail (h : Handle) (cause : error) (k : result Handle → proc W A)
| PInterrupted (h : Handle) (cause : option error) (k : result Handle → proc W A).
Arguments PReturn {W A} r.
Arguments PWorld {W A B} m k.
Arguments PTranscript {W A} f k.
Arguments PSave {W A} k.
Arguments PContext {W A} k.
Arguments POperations {W A} k.
Arguments PBegin {W A} kind intent before k.
Arguments PComplete {W A} h outcome after ev k.
Arguments PFail {W A} h cause k.
Arguments PInterrupted {W A} h cause k.


(** ** Processes as a monad *)

Section proc.
Context {W : Type}.

Fixpoint proc_bind {A B} (k : A → proc W B) (p : proc W A) : proc W B :=
  match p with
  | PReturn (Ok a) => k a
  | PReturn (Err e) => PReturn (Err e)
  | PWorld m c => PWorld m (λ x, proc_bind k (c x))
  | PTranscript f c => PTranscript f (λ x, proc_bind k (c x))
  | PSave c => PSave (λ x, proc_bind k (c x))
  | PContext c => PContext (λ x, proc_bind k (c x))
  | POperations c => POperations (λ x, proc_bind k (c x))
  | PBegin kind intent before c => PBegin kind intent before (λ x, proc_bind k (c x))
  | PComplete h outcome after ev c => PComplete h outcome after ev (λ x, proc_bind k (c x))
  | PFail h cause c => PFail h cause (λ x, proc_bind k (c x))
  | PInterrupted h cause c => PInterrupted h cause (λ x, proc_bind k (c x))
  end.

#[export] Instance proc_ret : MRet (proc W) := λ A a, PReturn (Ok a).
#[export] Instance proc_mbind : MBind (proc W) := λ A B k p, proc_bind k p.

#[export] Instance proc_fmap : FMap (proc W) := λ A B f p, proc_bind (λ a, mret (f a)) p.
(** [fmt.Errorf(prefix + w, err)] of an error the process ends with. *)
Fixpoint proc_wrap {A} (prefix : string) (p : proc W A) : proc W A :=
  match p with
  | PReturn r => PReturn (wrap_r prefix r)
  | PWorld m c => PWorld m (λ x, proc_wrap prefix (c x))
  | PTranscript f c => PTranscript f (λ x, proc_wrap prefix (c x))
  | PSave c => PSave (λ x, proc_wrap prefix (c x))
  | PContext c => PContext (λ x, proc_wrap prefix (c x))
  | POperations c => POperations (λ x, proc_wrap prefix (c x))
  | PBegin kind intent before c => PBegin kind intent before (λ x, proc_wrap prefix (c x))
  | PComplete h outcome after ev c => PComplete h outcome after ev (λ x, proc_wrap prefix (c x))
  | PFail h cause c => PFail h cause (λ x, proc_wrap prefix (c x))
  | PInterrupted h cause c => PInterrupted h cause (λ x, proc_wrap prefix (c x))
  end.

Definition pfail {A} (e : error) : proc W A := PReturn (Err e).
Definition plift {A} (r : result A) : proc W A := PReturn r.
(** Act on the world. *)
Definition act {A} (m : W → A * W) : proc W A := PWorld m mret.
(** Look at the world. *)
Definition look {A} (f : W → A) : proc W A := act (λ w, (f w, w)).
(** Read and change the transcript. *)
Definition transcript : proc W Transcript := PTranscript id mret.
Definition change (f : Transcript → Transcript) : proc W Transcript := PTranscript f mret.
Definition ctx_error : proc W (option error) := PContext mret.
Definition save_now : proc W (option error) := PSave mret.
Definition operations_now : proc W (list Operation) := POperations plift.
Definition begin_now (kind : OpKind) (intent : json) (before : string) : proc W Handle := PBegin kind intent before plift.
Definition complete_now (h : Handle) (outcome : json) (after ev : string) : proc W Handle := PComplete h outcome after ev plift.

(** [engine/engine.go:146-151 Verify.Step] the engine that edits nothing. *)
Definition Verify_Step (q : EngRequest) : proc W EngResponse :=
  mret (mk_engresponse "verification only: the worktree was not modified" true 0 false false false).

(** ** What a process does to its transcript *)

Definition with_candidate (c : string) (tr : Transcript) : Transcript :=
  mk_transcript (Closed tr) (T_Summary tr) (ClaimsDone tr) (BudgetExhausted tr) (T_Truncated tr) (T_FenceToken tr)
    (T_Messages tr) (T_Tokens tr) (Steps tr) (Tools tr) (VerifyRuns tr) (InvalidCalls tr) (T_Pending tr) c.

(** [wpj R I J p Q tr]: from the transcript [tr], whatever the world and the
    supervisor answer and whatever in [R] the task's journal is, every
    transcript [p] writes satisfies [I], every one it saves satisfies [J], and
    it ends in [Q].  Saving stamps the candidate into the transcript.
    [wp I J p Q tr] is that for any journal. *)
Section wp.
Context (R : result (list Operation) → Prop) (I J : Transcript → Prop).

Fixpoint wpj {A} (p : proc W A) (Q : result A → Transcript → Prop) (tr : Transcript) : Prop :=
  match p with
  | PReturn r => Q r tr
  | PWorld m k => ∀ w, wpj (k (m w).1) Q tr
  | PTranscript f k => I (f tr) ∧ wpj (k (f tr)) Q (f tr)
  | PSave k => J tr ∧ ∀ err c, wpj (k err) Q (with_candidate c tr)
  | PContext k => ∀ err, wpj (k err) Q tr
  | POperations k => ∀ r, R r → wpj (k r) Q tr
  | PBegin _ _ _ k => ∀ r, wpj (k r) Q tr
  | PComplete _ _ _ _ k => ∀ r, wpj (k r) Q tr
  | PFail _ _ k => ∀ r, wpj (k r) Q tr
  | PInterrupted _ _ k => ∀ r, wpj (k r) Q tr
  end.

Lemma wp_mono {A} (p : proc W A) (Q Q' : result A → Transcript → Prop) tr :
  wpj p Q tr → (∀ r tr', Q r tr' → Q' r tr') → wpj p Q' tr.
Proof.
  intros H HQ. revert tr H. induction p as [r|B m k IH|f k IH|k IH|k IH|k IH|? ? ? k IH|? ? ? ? k IH|? ? k IH|? ? k IH];
    intros tr H; cbn [wpj] in *; eauto; [naive_solver | destruct H as [? H]; split; eauto].
Qed.

(** An error of the first part ends the whole. *)
Lemma wp_bind {A B} (p : proc W A) (k : A → proc W B) Q tr :
  wpj p (λ r tr', match r with Ok a => wpj (k a) Q tr' | Err e => Q (Err e) tr' end) tr → wpj (p ≫= k) Q tr.
Proof.
  unfold mbind, proc_mbind. revert tr.
  induction p as [r|C m c IH|f c IH|c IH|c IH|c IH|? ? ? c IH|? ? ? ? c IH|? ? c IH|? ? c IH];
    intros tr H; cbn [wpj proc_bind] in *; eauto; [by destruct r | naive_solver | destruct H as [? H]; split; eauto].
Qed.
Lemma wp_fmap {A B} (f : A → B) (p : proc W A) Q tr :
  wpj p (λ r tr', Q (f <$> r) tr') tr → wpj (f <$> p) Q tr.
Proof.
  intros H. unfold fmap, proc_fmap. change (wpj (p ≫= λ a, mret (f a)) Q tr). apply wp_bind.
  eapply wp_mono; [exact H |]. by intros [a|e] tr'.
Qed.
Lemma wp_wrap {A} prefix (p : proc W A) Q tr :
  wpj p (λ r tr', Q (wrap_r prefix r) tr') tr → wpj (proc_wrap prefix p) Q tr.
Proof.
  revert tr. induction p as [r|C m c IH|f c IH|c IH|c IH|c IH|? ? ? c IH|? ? ? ? c IH|? ? c IH|? ? c IH];
    intros tr H; cbn [wpj proc_wrap] in *; eauto; [naive_solver | destruct H as [? H]; split; eauto].
Qed.
Lemma wp_ret {A} (a : A) (Q : result A → Transcript → Prop) tr : Q (Ok a) tr → wpj (mret a) Q tr.
Proof. done. Qed.
Lemma wp_fail {A} err (Q : result A → Transcript → Prop) tr : Q (Err err) tr → wpj (pfail err) Q tr.
Proof. done. Qed.
Lemma wp_lift {A} (r : result A) (Q : result A → Transcript → Prop) tr : Q r tr → wpj (plift r) Q tr.
Proof. done. Qed.
Lemma wp_act {A} (m : W → A * W) (Q : result A → Transcript → Prop) tr : (∀ w, Q (Ok (m w).1) tr) → wpj (act m) Q tr.
Proof. done. Qed.
Lemma wp_look {A} (f : W → A) (Q : result A → Transcript → Prop) tr : (∀ w, Q (Ok (f w)) tr) → wpj (look f) Q tr.
Proof. done. Qed.
Lemma wp_transcript (Q : result Transcript → Transcript → Prop) tr : I tr → Q (Ok tr) tr → wpj transcript Q tr.
Proof. done. Qed.
Lemma wp_change f (Q : result Transcript → Transcript → Prop) tr : I (f tr) → Q (Ok (f tr)) (f tr) → wpj (change f) Q tr.
Proof. done. Qed.
Lemma wp_ctx (Q : result (option error) → Transcript → Prop) tr : (∀ err, Q (Ok err) tr) → wpj ctx_error Q tr.
Proof. done. Qed.
Lemma wp_save (Q : result (option error) → Transcript → Prop) tr :
  J tr → (∀ err c, Q (Ok err) (with_candidate c tr)) → wpj save_now Q tr.
Proof. done. Qed.
Lemma wp_operations (Q : result (list Operation) → Transcript → Prop) tr : (∀ r, R r → Q r tr) → wpj operations_now Q tr.
Proof. done. Qed.
Lemma wp_begin kind intent before (Q : result Handle → Transcript → Prop) tr :
  (∀ r, Q r tr) → wpj (begin_now kind intent before) Q tr.
Proof. done. Qed.
Lemma wp_complete h outcome after ev (Q : result Handle → Transcript → Prop) tr :
  (∀ r, Q r tr) → wpj (complete_now h outcome after ev) Q tr.
Proof. done. Qed.
End wp.

Lemma wp_weaken {A} R (I J I' J' : Transcript → Prop) (p : proc W A) Q tr :
  (∀ t, I t → I' t) → (∀ t, J t → J' t) → wpj R I J p Q tr → wpj R I' J' p Q tr.
Proof.
  intros HI HJ. revert tr. induction p as [r|B m k IH|f k IH|k IH|k IH|k IH|? ? ? k IH|? ? ? ? k IH|? ? k IH|? ? k IH];
    intros tr H; cbn [wpj] in *; eauto; [naive_solver | destruct H as [? H]; split; eauto].
Qed.

(** Whatever a process does, it leaves the first part of the world as it is. *)
Fixpoint untouched {F Other A} (p : proc (F * Other) A) : Prop :=
  match p with
  | PReturn _ => True
  | PWorld m k => ∀ w, (m w).2.1 = w.1 ∧ untouched (k (m w).1)
  | PTranscript _ k => ∀ x, untouched (k x)
  | PSave k => ∀ x, untouched (k x)
  | PContext k => ∀ x, untouched (k x)
  | POperations k => ∀ x, untouched (k x)
  | PBegin _ _ _ k => ∀ x, untouched (k x)
  | PComplete _ _ _ _ k => ∀ x, untouched (k x)
  | PFail _ _ k => ∀ x, untouched (k x)
  | PInterrupted _ _ k => ∀ x, untouched (k x)
  end.
End proc.
Notation wp := (wpj (λ _, True)).

(** [engine/engine.go:120-125 Edits] an engine that does not say edits. *)
Definition Edits (declared : option bool) : bool := default true declared.
