(* ===== verification/NativeTools.v ===== *)
(** The native engine's tool surface, [src/internal/engine/native]: which tools
    are advertised and with what schema, how a call is checked against its
    schema and the access policy, what the file tools do to the worktree, and
    the guard that notices a loop that has stopped learning. *)
From S2P Require Import Prelude GoStrings GoPath Policy Worktree Firewall Recipe Json Llm.

Open Scope string_scope.
Open Scope list_scope.
Open Scope nat_scope.

(** ** The tools *)

(** [engine/native/tools.go:27-27 ToolReadFile] *)
Definition ToolReadFile := "read_file".
(** [engine/native/tools.go:28-28 ToolWriteFile] *)
Definition ToolWriteFile := "write_file".
(** [engine/native/tools.go:29-29 ToolEditFile] *)
Definition ToolEditFile := "edit_file".
(** [engine/native/tools.go:30-30 ToolListFiles] *)
Definition ToolListFiles := "list_files".
(** [engine/native/tools.go:31-31 ToolSearch] *)
Definition ToolSearch := "search_code".
(** [engine/native/tools.go:32-32 ToolFindSymbol] *)
Definition ToolFindSymbol := "find_symbol".
(** [engine/native/tools.go:33-33 ToolImpact] *)
Definition ToolImpact := "impact_of".
(** [engine/native/tools.go:34-34 ToolRunRecipe] *)
Definition ToolRunRecipe := "run_verification".
(** [engine/native/tools.go:35-35 ToolGitTouch] *)
Definition ToolGitTouch := "git_touch".
(** [engine/native/tools.go:36-36 ToolDone] *)
Definition ToolDone := "done".

(** [engine/native/tools.go:54-61 Wired] *)
Record Wired := mk_wired { Wi_Retrieval : bool; Wi_Graph : bool; Wi_Recipes : bool }.

(** [engine/native/tools.go:67-80 Wired.has] *)
Definition has (w : Wired) (name : string) : bool :=
  if String.eqb name ToolSearch then Wi_Retrieval w
  else if mem name [ToolFindSymbol; ToolImpact; ToolGitTouch] then Wi_Graph w
  else if String.eqb name ToolRunRecipe then Wi_Recipes w
  else true.

(** The schemas: an object with properties, some of them required. *)
Definition prop (type : string) : json := JObj [("type", JStr type)].
Definition described (type description : string) : json :=
  JObj [("type", JStr type); ("description", JStr description)].
Definition object_schema (props : list (string * json)) (required : list string) : json :=
  JObj ([("type", JStr "object"); ("properties", JObj props)] ++
        (match required with [] => [] | _ => [("required", JArr (JStr <$> required))] end) ++
        [("additionalProperties", JBool false)]).

(** A declaration with the value of its schema. *)
Record Tool := mk_tool_def { T_Def : ToolDef; T_Schema : json }.
(** [engine/native/tools.go:223-235 schema] the schema is shipped minified. *)
Definition tool (name description : string) (schema : json) : Tool :=
  mk_tool_def (mk_tool name description (json_text schema)) schema.
Definition tool_name (t : Tool) : string := Td_Name (T_Def t).

(** [engine/native/tools.go:85-207 Definitions] the declarations, by importance. *)
Definition all_tools : list Tool := [
  tool ToolReadFile
    "Read part of a file in the worktree. Prefer a line range: reading a whole large file wastes the budget that later steps need."
    (object_schema [
       ("path", described "string" "Path relative to the worktree root.");
       ("start_line", described "integer" "First line, 1-based. Omit for the start.");
       ("end_line", described "integer" "Last line, inclusive. Omit for the end.")] ["path"]);
  tool ToolEditFile
    "Replace an exact string in a file. The old string must appear exactly once, so include enough surrounding context to be unambiguous. Prefer this over write_file: it cannot silently discard code you did not read."
    (object_schema [
       ("path", prop "string");
       ("old", described "string" "Exact text to replace, including indentation.");
       ("new", described "string" "Replacement text.")] ["path"; "old"; "new"]);
  tool ToolRunRecipe
    "Run verification (build, vet, test) and get the findings. Use this after every edit: the compiler and the tests are the most reliable correction available."
    (object_schema [
       ("kind", JObj [("type", JStr "string");
                      ("enum", JArr (JStr <$> ["build"; "vet"; "test"; "format"; "lint"]));
                      ("description", JStr "Which check to run. build is fastest; run it first.")])] ["kind"]);
  tool ToolSearch "Search the indexed repository for text. Returns file paths and line ranges."
    (object_schema [
       ("query", prop "string");
       ("limit", described "integer" "Maximum results, default 10.")] ["query"]);
  tool ToolFindSymbol "Find a function, method, type or interface by name, with its file, line and signature."
    (object_schema [("name", prop "string")] ["name"]);
  tool ToolImpact
    "Report what a change to a symbol would affect: its callers, the types that implement it, and the tests covering it. Use this before changing a signature."
    (object_schema [
       ("symbol", prop "string");
       ("change", JObj [("type", JStr "string");
                        ("enum", JArr (JStr <$> ["signature"; "behaviour"; "remove"; "rename"; "add_field"]))])]
       ["symbol"; "change"]);
  tool ToolGitTouch
    "Show which commits recently touched a file or symbol, with who changed it and when. Useful for finding why code is the way it is before changing it, and for spotting a file that several unrelated changes keep colliding in."
    (object_schema [
       ("path", described "string" "A file path relative to the worktree root.");
       ("symbol", described "string" "A symbol name, as an alternative to a path.");
       ("limit", described "integer" "How many commits to return, default 10.")] []);
  tool ToolListFiles "List files under a directory in the worktree."
    (object_schema [("dir", described "string" "Directory relative to the worktree root; omit for the root.")] []);
  tool ToolWriteFile
    "Write a file's entire contents, creating it if needed. Use only for new files; for an existing file use edit_file."
    (object_schema [("path", prop "string"); ("content", prop "string")] ["path"; "content"]);
  tool ToolDone
    "Declare the objective met. Only call this after verification has passed: the supervisor checks the evidence itself, and calling done early wastes an attempt."
    (object_schema [("summary", described "string" "What you changed and why.")] ["summary"]) ].

(** [engine/native/tools.go:208-221 Definitions] what this engine can run, up to
    the cap. *)
Definition Definitions (most : Z) (wired : Wired) : list Tool :=
  let out := List.filter (λ t, has wired (tool_name t)) all_tools in
  if Z.ltb 0 most && Z.ltb most (Z.of_nat (length out)) then take (Z.to_nat most) out else out.

(** [engine/native/tools.go:238-245 ToolNames] *)
Definition ToolNames (defs : list Tool) : list string := sort_strings (tool_name <$> defs).

(** ** Arguments *)

(** [json.Unmarshal] into a [map[string]any]: null leaves the map nil. *)
Definition json_kind (j : json) : string :=
  match j with
  | JNull => "null" | JBool _ => "bool" | JNum _ | JFrac _ _ => "number" | JStr _ => "string"
  | JArr _ => "array" | JObj _ => "object"
  end.
Definition decode_map (j : json) : result (option (gmap string json)) :=
  match j with
  | JNull => Ok None
  | JObj l => Ok (Some (list_to_map (reverse l)))
  | _ => Err (errorf ("json: cannot unmarshal " +:+ json_kind j +:+ " into Go value of type map[string]interface {}"))
  end.

(** [engine/native/exec.go:377-382 str] *)
Definition str (args : gmap string json) (key : string) : string :=
  match args !! key with Some (JStr s) => s | _ => "" end.

(** [engine/native/exec.go:384-392 num] *)
Definition num (args : gmap string json) (key : string) : Z :=
  match args !! key with Some (JNum z) => z | Some (JFrac z _) => z | _ => 0 end.

(** The part of a schema that is read back: a property's type and its choices. *)
Definition decode_property (j : json) : option (string * list string) :=
  type ← get_string "type" j;
  enum ← get_strings "enum" j;
  Some (type, enum).
Definition decode_properties (j : json) : option (gmap string (string * list string)) :=
  match j with
  | JObj l => list_to_map <$> mapM (λ kv, p ← decode_property kv.2; Some (kv.1, p)) (reverse l)
  | _ => None
  end.
(** [engine/native/authorize.go:27-36 Engine.authorize] *)
Definition decode_schema (schema : json) : option (list string * gmap string (string * list string)) :=
  required ← get_strings "required" schema;
  properties ← dec_field decode_properties ∅ "properties" schema;
  Some (required, properties).

Definition MaxInt32 : Z := 2147483647.

(** [engine/native/authorize.go:46-74 Engine.authorize] one argument. *)
Definition check_argument (properties : gmap string (string * list string)) (kv : string * json) : result unit :=
  let '(key, value) := kv in
  match properties !! key with
  | None => Err (errorf ("unknown argument " +:+ quoted key))
  | Some (type, enum) =>
      if String.eqb type "string" then
        match value with
        | JStr text =>
            if (0 <? length enum) && negb (mem text enum)
            then Err (errorf (key +:+ " is not an allowed value")) else Ok tt
        | _ => Err (errorf (key +:+ " must be a string"))
        end
      else if String.eqb type "integer" then
        match value with
        | JNum n => if Z.ltb n 0 || Z.ltb MaxInt32 n
                    then Err (errorf (key +:+ " must be a nonnegative 32-bit integer")) else Ok tt
        | _ => Err (errorf (key +:+ " must be a nonnegative 32-bit integer"))
        end
      else Err (errorf ("unsupported supervisor schema type " +:+ quoted type))
  end.

Section authorize.
(** [json.Unmarshal] of a text, and the order in which a map is ranged over. *)
Context (unmarshal : string → result json).
Context (range : gmap string json → list (string * json)).

Definition Unmarshal_map (text : string) : result (option (gmap string json)) := unmarshal text ≫= decode_map.

(** [engine/native/authorize.go:17-45 Engine.authorize] the call against the
    advertised schema: its arguments. *)
Definition check_schema (tools : list Tool) (call : ToolCall) : result (gmap string json) :=
  match find (λ t, String.eqb (tool_name t) (TC_Name call)) tools with
  | None => Err (errorf ("tool " +:+ quoted (TC_Name call) +:+ " is not advertised for this attempt"))
  | Some def =>
      match decode_schema (T_Schema def) with
      | None => Err (errorf "invalid supervisor tool schema")
      | Some (required, properties) =>
          match Unmarshal_map (TC_Arguments call) with
          | Ok (Some args) =>
              _ ← each (λ key, match args !! key with
                               | Some _ => Ok tt
                               | None => Err (errorf ("missing required argument " +:+ quoted key))
                               end) required;
              _ ← each (check_argument properties) (range args);
              mret args
          | _ => Err (errorf "arguments must be a valid JSON object matching the tool schema")
          end
      end
  end.

(** [engine/native/authorize.go:16-86 Engine.authorize] *)
Definition authorize (tools : list Tool) (f : fs) (access : Access) (wt : string) (call : ToolCall) : result unit :=
  args ← check_schema tools call;
  let name := TC_Name call in
  if mem name [ToolReadFile; ToolWriteFile; ToolEditFile]
  then Access_Check f access wt (str args "path") (negb (String.eqb name ToolReadFile))
  else if String.eqb name ToolListFiles
  then Access_Check f access wt (if String.eqb (str args "dir") "" then "." else str args "dir") false
  else Ok tt.
End authorize.

(** ** Results *)

(** [engine/native/exec.go:26-39 Result] *)
Record ToolResult := mk_tool_result {
  Tr_Invalid : bool; Tr_Content : string; Tr_Failed : bool; Tr_Edited : bool; Tr_Done : bool; Tr_Summary : string }.
Definition tool_ok (content : string) : ToolResult := mk_tool_result false content false false false "".
Definition tool_edited (content : string) : ToolResult := mk_tool_result false content false true false "".

(** [engine/native/exec.go:41-43 failed] *)
Definition failed (content : string) : ToolResult := mk_tool_result false content true false false "".

(** [engine/native/exec.go:47-47 MaxReadLines] *)
Definition MaxReadLines : Z := 400.
(** [engine/native/exec.go:50-50 MaxToolOutput] *)
Definition MaxToolOutput : nat := 8000.

(** [engine/native/exec.go:370-375 cap] *)
Definition cap (s : string) : string :=
  if String.length s <=? MaxToolOutput then s
  else take_str MaxToolOutput s +:+ nl +:+ "… (output truncated)".

(** ** The file tools *)

Definition is_outside (e : error) : bool := bool_decide (err_is e = Some "path is outside the worktree").

(** [strings.Count(s, sub)] for a [sub] that is not empty: places that do not
    overlap, from the left. *)
Fixpoint count_fuel (fuel : nat) (s sub : string) : nat :=
  match fuel with
  | O => 0
  | S fuel =>
      if has_prefix s sub then S (count_fuel fuel (drop_str (String.length sub) s) sub)
      else match s with EmptyString => 0 | String _ s' => count_fuel fuel s' sub end
  end.
Definition count_str (s sub : string) : nat := count_fuel (S (String.length s)) s sub.

(** [strings.Replace(s, old, new, 1)]. *)
Fixpoint replace_first (old new s : string) : string :=
  if has_prefix s old then new +:+ drop_str (String.length old) s
  else match s with EmptyString => EmptyString | String c s' => String c (replace_first old new s') end.

Section files.
Context (os_text : error → string).    (* the text of an error of package os *)
Context (f : fs) (wt : string) (args : gmap string json).

Definition err_text (e : error) : string := if is_outside e then err_msg e else os_text e.

(** [engine/native/exec.go:91-99 Engine.readFile] *)
Definition unreadable (missing : string) (rel : string) (e : error) : ToolResult :=
  if is_outside e then failed (err_text e)
  else if is_not_exist e then failed (rel +:+ " does not exist. " +:+ missing)
  else failed ("could not read " +:+ rel +:+ ": " +:+ err_text e).

(** [engine/native/exec.go:101-101 Engine.readFile] *)
Definition lines_of (body : string) : list string := split_char newline (trim_newlines body).

(** [engine/native/exec.go:102-116 Engine.readFile] the lines shown, or that the
    start is past the end: first, last, whether it was cut. *)
Definition window (start end_ total : Z) : option (Z * Z * bool) :=
  let start := if Z.leb start 0 then 1%Z else start in
  let end_ := if Z.leb end_ 0 || Z.ltb total end_ then total else end_ in
  if Z.ltb total start then None
  else if Z.ltb MaxReadLines (end_ - start + 1) then Some (start, (start + MaxReadLines - 1)%Z, true)
  else Some (start, end_, false).

Definition tab : string := String (Ascii.ascii_of_nat 9) "".

(** [engine/native/exec.go:120-122 Engine.readFile] the lines from [start], numbered. *)
Definition shown_lines (lines : list string) (start end_ : Z) : list (Z * string) :=
  let from := Z.to_nat (start - 1) in
  imap (λ i l, ((start + Z.of_nat i)%Z, l)) (take (Z.to_nat (end_ - start + 1)) (drop from lines)).
Definition numbered (l : Z * string) : string := pretty l.1 +:+ tab +:+ l.2 +:+ nl.

(** [engine/native/exec.go:88-127 Engine.readFile] *)
Definition readFile : ToolResult :=
  let rel := str args "path" in
  match ReadWithin f wt rel with
  | Err e => unreadable "Use list_files to see what is there." rel e
  | Ok body =>
      let lines := lines_of body in
      let total := Z.of_nat (length lines) in
      match window (num args "start_line") (num args "end_line") total with
      | None => failed (rel +:+ " has " +:+ pretty total +:+ " lines; start_line " +:+
                        pretty (num args "start_line") +:+ " is past the end.")
      | Some (start, end_, truncated) =>
          tool_ok (cap (rel +:+ " lines " +:+ pretty start +:+ "-" +:+ pretty end_ +:+ " of " +:+ pretty total +:+ ":" +:+ nl +:+
                        join "" (numbered <$> shown_lines lines start end_) +:+
                        (if truncated
                         then nl +:+ "(stopped at " +:+ pretty MaxReadLines +:+ " lines; read the next range if you need more)" +:+ nl
                         else "")))
      end
  end.

(** [engine/native/exec.go:129-141 Engine.writeFile] *)
Definition writeFile : ToolResult * fs :=
  let rel := str args "path" in
  let content := str args "content" in
  match StatWithin f wt rel with
  | Ok _ => (failed (rel +:+ " already exists. Use edit_file to change part of it; write_file replaces the whole file and would discard anything you have not read."), f)
  | Err _ =>
      match WriteWithin f wt rel content with
      | (Err e, f) => (failed (err_text e), f)
      | (Ok _, f) => (tool_edited ("Wrote " +:+ rel +:+ " (" +:+ pretty (String.length content) +:+ " bytes)."), f)
      end
  end.

(** [engine/native/exec.go:143-173 Engine.editFile] *)
Definition editFile : ToolResult * fs :=
  let rel := str args "path" in
  let oldText := str args "old" in
  let newText := str args "new" in
  match ReadWithin f wt rel with
  | Err e => (unreadable "Use write_file to create it." rel e, f)
  | Ok text =>
      if String.eqb oldText "" then (failed "The old string is empty. Give the exact text to replace.", f) else
      match count_str text oldText with
      | 0 => (failed ("That exact text does not appear in " +:+ rel +:+ ". Read the file first: whitespace and indentation must match exactly."), f)
      | 1 =>
          match WriteWithin f wt rel (replace_first oldText newText text) with
          | (Err e, f) => (failed (err_text e), f)
          | (Ok _, f) => (tool_edited ("Edited " +:+ rel +:+ "."), f)
          end
      | n => (failed ("That text appears " +:+ pretty n +:+ " times in " +:+ rel +:+ ". Include more surrounding context so it identifies exactly one place."), f)
      end
  end.

Definition is_dir_entry (p : apath) : bool := bool_decide (lookup_node f p = Some NDir).
Definition entry_name (p : apath) : string := List.last p "".

(** [engine/native/exec.go:175-208 Engine.listFiles] *)
Definition listFiles : ToolResult :=
  let rel := if String.eqb (str args "dir") "" then "." else str args "dir" in
  match ListWithin f wt rel with
  | Err e => if is_outside e then failed (err_text e) else failed ("could not list " +:+ rel +:+ ": " +:+ err_text e)
  | Ok entries =>
      let entries := List.filter (λ p, negb (mem (entry_name p) [".git"; ".le"; "node_modules"])) entries in
      let dirs := (λ p, entry_name p +:+ "/") <$> List.filter is_dir_entry entries in
      let files := entry_name <$> List.filter (λ p, negb (is_dir_entry p)) entries in
      tool_ok (cap (rel +:+ ":" +:+ nl +:+
                    join "" ((λ d, "  " +:+ d +:+ nl) <$> (sort_strings dirs ++ sort_strings files))))
  end.
End files.

(** [engine/native/exec.go:344-351 describe] *)
Definition describe_finding (x : Finding) : string :=
  let loc := if Z.ltb 0 (F_Line x) then F_File x +:+ ":" +:+ pretty (F_Line x) else F_File x in
  let loc := if String.eqb (F_Test x) "" then loc else trim_space (loc +:+ " " +:+ F_Test x) in
  "  " +:+ loc +:+ " " +:+ F_Message x +:+ nl.
(** [engine/native/exec.go:337-357 describe] *)
Definition describe (res : Result) : string :=
  R_Recipe res +:+ ": " +:+ show_status (R_Status res) +:+ " — " +:+ Headline (R_Summary res) +:+ nl +:+
  (if String.eqb (R_Err res) "" then "" else R_Err res +:+ nl) +:+
  join "" (describe_finding <$> Findings (R_Summary res)) +:+
  (if S_Truncated (R_Summary res) then "  (more findings omitted)" +:+ nl else "").

(** ** Progress *)

(** [engine/native/progress.go:19-19 repeatLimit] *)
Definition repeatLimit : Z := 3.
(** [engine/native/progress.go:29-29 staleLimit] *)
Definition staleLimit : Z := 3.

(** [engine/native/progress.go:46-49 record] *)
Record record := mk_record { rc_digest : string; rc_count : Z }.
(** [engine/native/progress.go:38-44 progress] *)
Record progress := mk_progress { seen : gmap string record; stale : Z }.
(** [engine/native/progress.go:51-51 newProgress] *)
Definition newProgress : progress := mk_progress ∅ 0.

(** [engine/native/progress.go:51-58 verdict] *)
Inductive verdict := learned | repeated.

Section progress.
Context (unmarshal : string → result json) (digest : string → string).

(** [engine/native/progress.go:161-172 fingerprint] *)
Definition fingerprint (name arguments : string) : string :=
  let canon := match Unmarshal_map unmarshal arguments with
    | Ok None => "null"
    | Ok (Some args) => json_text (JObj (map_to_list args))
    | Err _ => trim_space arguments
    end in
  name +:+ nul +:+ canon.

(** [engine/native/progress.go:65-82 progress.observe] *)
Definition observe (name arguments content : string) (p : progress) : verdict * Z * progress :=
  let fp := fingerprint name arguments in
  let d := digest content in
  match seen p !! fp with
  | None => (learned, 1%Z, mk_progress (<[fp := mk_record d 1]> (seen p)) (stale p))
  | Some r =>
      if negb (String.eqb (rc_digest r) d)
      then (learned, 1%Z, mk_progress (<[fp := mk_record d 1]> (seen p)) (stale p))
      else (repeated, (rc_count r + 1)%Z, mk_progress (<[fp := mk_record d (rc_count r + 1)]> (seen p)) (stale p))
  end.

(** [engine/native/progress.go:86-92 progress.endOfStep] *)
Definition endOfStep (learnedAnything : bool) (p : progress) : progress :=
  mk_progress (seen p) (if learnedAnything then 0 else stale p + 1).

(** [strings.Cut(fp, 0)]. *)
Fixpoint cut_nul (s : string) : option (string * string) :=
  match s with
  | EmptyString => None
  | String c s => if Ascii.eqb c Ascii.zero then Some ("", s) else '(a, b) ← cut_nul s; Some (String c a, b)
  end.

(** [engine/native/progress.go:175-184 describeCall] *)
Definition describeCall (fp : string) : string :=
  match cut_nul fp with
  | None => fp
  | Some (name, args) => name +:+ (if 80 <? String.length args then take_str 80 args +:+ "…" else args)
  end.

Definition more_repeats (a b : string * Z) : bool :=
  if Z.eqb a.2 b.2 then str_ltb a.1 b.1 else Z.ltb b.2 a.2.

(** [engine/native/progress.go:115-144 progress.topRepeats] entries that compare
    equal are the same text, so the order of the map does not show. *)
Definition topRepeats (p : progress) : string :=
  let es := stable_sort more_repeats
    ((λ x, (describeCall x.1, rc_count x.2)) <$> List.filter (λ x, Z.ltb 1 (rc_count x.2)) (map_to_list (seen p))) in
  match es with
  | [] => "no tool call produced a new answer"
  | _ => join ", " (((λ x, x.1 +:+ " ×" +:+ pretty x.2) <$> take 3 es) ++
                    (if 3 <? length es then ["and " +:+ pretty (length es - 3) +:+ " other repeated call(s)"] else []))
  end.

(** The order in which [stuck] ranges over the calls. *)
Context (range_seen : gmap string record → list (string * record)).

(** [engine/native/progress.go:98-112 progress.stuck] *)
Definition stuck (p : progress) : option string :=
  if Z.leb staleLimit (stale p) then
    Some ("stopped after " +:+ pretty (stale p) +:+ " consecutive steps that learned nothing new: " +:+ topRepeats p)
  else match find (λ x, Z.leb repeatLimit (rc_count x.2)) (range_seen (seen p)) with
  | Some (fp, r) =>
      Some ("stopped after calling " +:+ describeCall fp +:+ " " +:+ pretty (rc_count r) +:+
            " times with the same arguments and getting the same answer every time")
  | None => None
  end.
End progress.

(** [engine/native/progress.go:151-157 repeatNote] *)
Definition repeatNote (name : string) (times : Z) : string :=
  "[supervisor] You have now called " +:+ name +:+ " with these exact arguments " +:+ pretty times +:+
  " times and received the same answer each time. You already have this result above. Repeating it will not produce new information — either act on what you have, or try something different." +:+ nl.

(** ** Facts *)

(** *** Counting and replacing *)

Lemma drop_str_length n s : String.length (drop_str n s) = String.length s - n.
Proof. revert s. induction n as [|n IH]; intros [|c s]; cbn; [lia.. | apply IH]. Qed.

Lemma count_zero fuel s sub : sub ≠ "" → String.length s < fuel → count_fuel fuel s sub = 0 → contains_str s sub = false.
Proof.
  intros Hsub. revert s. induction fuel as [|fuel IH]; intros s Hl; [lia |]. cbn [count_fuel].
  destruct (has_prefix s sub) eqn:Ep; [done |].
  destruct s as [|c s]; cbn [contains_str]; rewrite Ep; [done |]. cbn in Hl. intros H. apply IH in H; [done | lia].
Qed.

(** A text that is found once splits around the place where it is found first. *)
Lemma count_one s sub new : sub ≠ "" → count_str s sub = 1 → ∃ a b,
  s = a +:+ sub +:+ b ∧ replace_first sub new s = a +:+ new +:+ b ∧ contains_str b sub = false ∧
  ∀ n, n < String.length a → has_prefix (drop_str n s) sub = false.
Proof.
  unfold count_str. intros Hsub.
  assert (Hlen : String.length s < S (String.length s)) by lia. revert Hlen.
  generalize (S (String.length s)) as fuel. intros fuel. revert s.
  induction fuel as [|fuel IH]; intros s Hl; [lia |]. cbn [count_fuel].
  destruct (has_prefix s sub) eqn:Ep.
  - assert (Hr : replace_first sub new s = new +:+ drop_str (String.length sub) s)
      by (by destruct s; cbn [replace_first]; rewrite Ep).
    apply has_prefix_spec in Ep as [r ->]. rewrite drop_str_app in *. intros [= Hc].
    apply count_zero in Hc; [|done|].
    2:{ rewrite length_app_str in Hl. destruct sub; [done |]. cbn [String.length] in Hl. lia. }
    exists "", r. split_and!; [done..|]. cbn. lia.
  - destruct s as [|c s]; [done |]. cbn in Hl. intros Hc. apply IH in Hc as (a & b & -> & Hr & Hb & Hn); [|lia].
    exists (String c a), b. split_and!; [done| |done|].
    + change (replace_first sub new (String c (a +:+ sub +:+ b))) with
        (if has_prefix (String c (a +:+ sub +:+ b)) sub then new +:+ drop_str (String.length sub) (String c (a +:+ sub +:+ b))
         else String c (replace_first sub new (a +:+ sub +:+ b))). by rewrite Ep, Hr.
    + intros [|n] H; [done |]. cbn in H |- *. apply Hn. lia.
Qed.

(** *** The file tools *)

Section file_facts.
Context (os_text : error → string).

(** edit_file changes a file only where the old text stands, and only when
    it is found once: the file then holds the same text with the old string
    replaced at that place, which is the first at which it occurs, and what
    follows does not hold the old string again.  In every other case - no such
    file, an empty or missing old string, several places - nothing is written. *)
Theorem editFile_exact f wt args :
  let rel := str args "path" in let old := str args "old" in let new := str args "new" in
  let '(res, f') := editFile os_text f wt args in
  if Tr_Edited res
  then ∃ a b, ReadWithin f wt rel = Ok (a +:+ old +:+ b) ∧ old ≠ "" ∧ contains_str b old = false ∧
         (∀ n, n < String.length a → has_prefix (drop_str n (a +:+ old +:+ b)) old = false) ∧
         WriteWithin f wt rel (a +:+ new +:+ b) = (Ok tt, f')
  else f' = f ∨ ∃ a b err, ReadWithin f wt rel = Ok (a +:+ old +:+ b) ∧ old ≠ "" ∧
         WriteWithin f wt rel (a +:+ new +:+ b) = (Err err, f').
Proof.
  intros rel old new. unfold editFile. fold rel old new.
  destruct (ReadWithin f wt rel) as [text|err] eqn:ER.
  2:{ unfold unreadable. destruct (is_outside err); [by left |]. destruct (is_not_exist err); by left. }
  destruct (String.eqb_spec old "") as [Ho|Ho]; [by left |].
  destruct (count_str text old) as [|[|n]] eqn:Ec; [by left | |by left].
  destruct (count_one text old new Ho Ec) as (a & b & -> & Hr & Hb & Hn). rewrite Hr.
  destruct (WriteWithin f wt rel (a +:+ new +:+ b)) as [[[]|err] f'] eqn:EW; cbn.
  - exists a, b. done.
  - right. by exists a, b, err.
Qed.

(** write_file only creates: it writes the content given and only where
    nothing stood before. *)
Theorem writeFile_creates f wt args :
  let rel := str args "path" in
  let '(res, f') := writeFile os_text f wt args in
  (if Tr_Edited res then WriteWithin f wt rel (str args "content") = (Ok tt, f') else Tr_Failed res = true) ∧
  (∀ n, StatWithin f wt rel = Ok n → f' = f ∧ Tr_Edited res = false).
Proof.
  intros rel. unfold writeFile. fold rel. destruct (StatWithin f wt rel) as [n|err] eqn:ES; [naive_solver |].
  destruct (WriteWithin f wt rel (str args "content")) as [[[]|err'] f'] eqn:EW; cbn; naive_solver.
Qed.
End file_facts.

Lemma elem_of_shown lines start end_ k l : (1 ≤ start)%Z →
  (k, l) ∈ shown_lines lines start end_ ↔ (start ≤ k ≤ end_)%Z ∧ lines !! Z.to_nat (k - 1) = Some l.
Proof.
  intros Hs. unfold shown_lines. rewrite elem_of_lookup_imap. split.
  - intros (i & y & [= -> ->] & Hi). apply lookup_take_Some in Hi as [Hi Hlt]. rewrite lookup_drop in Hi.
    split; [lia |]. rewrite <- Hi. f_equal. lia.
  - intros [Hk Hl]. exists (Z.to_nat (k - start)), l. split; [f_equal; lia |].
    apply lookup_take_Some. rewrite lookup_drop. split; [rewrite <- Hl; f_equal; lia | lia].
Qed.

(** read_file shows one window of the file: the lines it was asked for, never
    more than MaxReadLines of them and never one past the end, each beside its
    own number; it is marked as cut exactly when the window was made shorter
    than what was asked for. *)
Theorem readFile_window start end_ body :
  let lines := lines_of body in let total := Z.of_nat (length lines) in
  match window start end_ total with
  | None => (total < start)%Z
  | Some (a, b, cut) =>
      (a = Z.max 1 start ∧ a ≤ total ∧ b ≤ total ∧ b - a < MaxReadLines)%Z ∧
      (∀ k l, (k, l) ∈ shown_lines lines a b ↔ (a ≤ k ≤ b)%Z ∧ lines !! Z.to_nat (k - 1) = Some l) ∧
      let asked := if Z.leb end_ 0 || Z.ltb total end_ then total else end_ in
      if cut then (b = a + MaxReadLines - 1 ∧ b < asked)%Z else b = asked
  end.
Proof.
  intros lines total. unfold window, MaxReadLines.
  assert (1 ≤ total)%Z.
  { unfold total, lines, lines_of. destruct (split_char newline (trim_newlines body)) eqn:Es; [|cbn; lia].
    destruct (trim_newlines body) as [|c s]; [done |]. cbn [split_char] in Es.
    destruct (Ascii.eqb c newline); [done |]. by destruct (split_char newline s). }
  set (a := if Z.leb start 0 then 1%Z else start). assert (Ha : a = Z.max 1 start).
  { unfold a. destruct (Z.leb_spec start 0); lia. }
  set (asked := if _ || _ then total else end_). assert (asked ≤ total)%Z.
  { unfold asked. destruct (Z.leb_spec end_ 0), (Z.ltb_spec total end_); cbn; lia. }
  destruct (Z.ltb_spec total a); [lia |].
  destruct (Z.ltb_spec 400 (asked - a + 1)); (split; [lia | split; [intros k l; apply elem_of_shown; lia | lia]]).
Qed.

(** *** What is advertised *)

(** The cap on the tool surface cuts the list from its end, and the tool that
    declares completion is the last: it is offered exactly when nothing is cut.
    An engine whose cap is below the number of its tools can never end an
    attempt as done. *)
Theorem done_offered most wired :
  (∃ t, t ∈ Definitions most wired ∧ tool_name t = ToolDone) ↔
  (most ≤ 0 ∨ Z.of_nat (length (List.filter (λ t, has wired (tool_name t)) all_tools)) ≤ most)%Z.
Proof.
  unfold Definitions. set (out := List.filter _ _).
  assert (Hlast : ∃ l t, out = l ++ [t] ∧ tool_name t = ToolDone ∧ Forall (λ t, tool_name t ≠ ToolDone) l).
  { pose (d := tool "" "" JNull). exists (removelast out), (List.last out d). split_and!.
    - apply app_removelast_last. by destruct wired as [[] [] []].
    - by destruct wired as [[] [] []].
    - apply Forall_forall. intros t Ht. apply String.eqb_neq, negb_true_iff.
      assert (Hall : forallb (λ t, negb (String.eqb (tool_name t) ToolDone)) (removelast out) = true) by (by destruct wired as [[] [] []]).
      rewrite forallb_forall in Hall. apply Hall. by apply list_elem_of_In. }
  destruct Hlast as (l & t & -> & Ht & Hl). rewrite length_app. cbn [length].
  destruct (Z.ltb_spec 0 most), (Z.ltb_spec most (Z.of_nat (length l + 1))); cbn [andb];
    (split; [intros (t' & Hin & Ht') | intros Hm]).
  all: try (exists t; split; [apply elem_of_app; right; by left | done]); try lia.
  exfalso. rewrite take_app_le in Hin by lia.
  apply subseteq_take in Hin. rewrite Forall_forall in Hl. by apply (Hl t').
Qed.

(** *** What is let through *)

Section authorize_facts.
Context (unmarshal : string → result json) (range : gmap string json → list (string * json)).
Context (range_all : ∀ m, range m ≡ₚ map_to_list m).

(** The value of an argument is of its property's type. *)
Definition argument_fits (properties : gmap string (string * list string)) (key : string) (v : json) : Prop :=
  ∃ type enum, properties !! key = Some (type, enum) ∧
    ((type = "string" ∧ ∃ text, v = JStr text ∧ (enum = [] ∨ text ∈ enum)) ∨
     (type = "integer" ∧ ∃ n, v = JNum n ∧ (0 ≤ n ≤ MaxInt32)%Z)).

Lemma check_argument_ok properties key v : check_argument properties (key, v) = Ok tt ↔ argument_fits properties key v.
Proof.
  unfold check_argument, argument_fits. destruct (properties !! key) as [[type enum]|]; [|naive_solver].
  destruct (String.eqb_spec type "string") as [->|Hs].
  - destruct v as [| | | |text| |]; try naive_solver. destruct enum as [|c enum]; [cbn; naive_solver |].
    cbn [length Nat.ltb Nat.leb andb]. destruct (mem text (c :: enum)) eqn:Em; cbn [negb];
      [apply mem_true in Em | apply mem_false in Em]; naive_solver.
  - destruct (String.eqb_spec type "integer") as [->|Hi]; [|naive_solver].
    destruct v as [| |z| | | |]; try naive_solver. destruct (Z.ltb_spec z 0), (Z.ltb_spec MaxInt32 z); cbn [orb].
    + naive_solver lia.
    + split; [done | intros (? & ? & [= <- <-] & [[? _]|[_ (n & [= <-] & ?)]]); [done | lia]].
    + split; [done | intros (? & ? & [= <- <-] & [[? _]|[_ (n & [= <-] & ?)]]); [done | lia]].
    + naive_solver lia.
Qed.

Lemma check_schema_ok tools call args :
  check_schema unmarshal range tools call = Ok args ↔
  ∃ t required properties, find (λ t, String.eqb (tool_name t) (TC_Name call)) tools = Some t ∧
    decode_schema (T_Schema t) = Some (required, properties) ∧
    Unmarshal_map unmarshal (TC_Arguments call) = Ok (Some args) ∧
    (∀ key, key ∈ required → is_Some (args !! key)) ∧ (∀ key v, args !! key = Some v → argument_fits properties key v).
Proof using range_all.
  unfold check_schema. destruct (find _ tools) as [t|]; [|naive_solver].
  destruct (decode_schema (T_Schema t)) as [[required properties]|] eqn:Ed; [|naive_solver].
  destruct (Unmarshal_map unmarshal (TC_Arguments call)) as [[args'|]|]; [|naive_solver..].
  rewrite rbind_ok. setoid_rewrite rbind_ok.
  assert (Hreq : each (λ key, match args' !! key with Some _ => Ok tt | None => Err (errorf ("missing required argument " +:+ quoted key)) end) required = Ok tt
                 ↔ ∀ key, key ∈ required → is_Some (args' !! key)).
  { rewrite each_ok. apply forall_proper. intros key. destruct (args' !! key); naive_solver. }
  assert (Hargs : each (check_argument properties) (range args') = Ok tt ↔ ∀ key v, args' !! key = Some v → argument_fits properties key v).
  { rewrite each_ok. split.
    - intros H key v Hv. apply check_argument_ok, H. rewrite range_all. by apply elem_of_map_to_list.
    - intros H [key v] Hin. apply check_argument_ok, H. rewrite range_all in Hin. by apply elem_of_map_to_list. }
  split.
  - intros ([] & H1 & [] & H2 & [= <-]). exists t, required, properties. by rewrite <- Hreq, <- Hargs.
  - intros (? & ? & ? & [= <-] & Hd & [= <-] & H1 & H2). rewrite Ed in Hd. injection Hd as <- <-.
    exists tt. rewrite Hreq. split; [done |]. exists tt. by rewrite Hargs.
Qed.

(** A tool call is authorised exactly when the tool is advertised, its
    arguments are a JSON object that holds every required key and no key the
    schema does not name, each value of the schema's type and among its
    choices, and - for a tool that names a file or a directory - the access
    policy admits that path: for writing unless the tool only reads. *)
Theorem authorize_exact tools f access wt call :
  authorize unmarshal range tools f access wt call = Ok tt ↔
  ∃ t required properties args, find (λ t, String.eqb (tool_name t) (TC_Name call)) tools = Some t ∧
    decode_schema (T_Schema t) = Some (required, properties) ∧
    Unmarshal_map unmarshal (TC_Arguments call) = Ok (Some args) ∧
    (∀ key, key ∈ required → is_Some (args !! key)) ∧ (∀ key v, args !! key = Some v → argument_fits properties key v) ∧
    (TC_Name call ∈ [ToolReadFile; ToolWriteFile; ToolEditFile] →
       Access_Check f access wt (str args "path") (negb (String.eqb (TC_Name call) ToolReadFile)) = Ok tt) ∧
    (TC_Name call = ToolListFiles →
       Access_Check f access wt (if String.eqb (str args "dir") "" then "." else str args "dir") false = Ok tt).
Proof using range_all.
  unfold authorize. rewrite rbind_ok. setoid_rewrite check_schema_ok.
  assert (Hpath : ∀ args,
    (if mem (TC_Name call) [ToolReadFile; ToolWriteFile; ToolEditFile]
     then Access_Check f access wt (str args "path") (negb (String.eqb (TC_Name call) ToolReadFile))
     else if String.eqb (TC_Name call) ToolListFiles
     then Access_Check f access wt (if String.eqb (str args "dir") "" then "." else str args "dir") false
     else Ok tt) = Ok tt ↔
    (TC_Name call ∈ [ToolReadFile; ToolWriteFile; ToolEditFile] →
       Access_Check f access wt (str args "path") (negb (String.eqb (TC_Name call) ToolReadFile)) = Ok tt) ∧
    (TC_Name call = ToolListFiles →
       Access_Check f access wt (if String.eqb (str args "dir") "" then "." else str args "dir") false = Ok tt)).
  { intros args. destruct (mem _ _) eqn:Em; [apply mem_true in Em | apply mem_false in Em].
    - split; [|naive_solver]. intros H. split; [done |]. intros Hl. rewrite Hl in Em. set_solver.
    - destruct (String.eqb_spec (TC_Name call) ToolListFiles); naive_solver. }
  split.
  - intros (args & (t & required & properties & H) & Hp). apply Hpath in Hp. exists t, required, properties, args. naive_solver.
  - intros (t & required & properties & args & H). exists args. rewrite Hpath. naive_solver.
Qed.
End authorize_facts.

Definition demo_call : ToolCall := mk_call "c1" ToolWriteFile "{}".
Definition demo_args : list (string * json) := [("path", JStr "in/a.go"); ("content", JStr "package a")].
Lemma authorize_exact_witness :
  authorize (λ _, Ok (JObj demo_args)) map_to_list all_tools demo_fs demo_access "/wt" demo_call = Ok tt ↔
  ∃ t required properties args, find (λ t, String.eqb (tool_name t) (TC_Name demo_call)) all_tools = Some t ∧
    decode_schema (T_Schema t) = Some (required, properties) ∧
    Unmarshal_map (λ _, Ok (JObj demo_args)) (TC_Arguments demo_call) = Ok (Some args) ∧
    (∀ key, key ∈ required → is_Some (args !! key)) ∧ (∀ key v, args !! key = Some v → argument_fits properties key v) ∧
    (TC_Name demo_call ∈ [ToolReadFile; ToolWriteFile; ToolEditFile] →
       Access_Check demo_fs demo_access "/wt" (str args "path") (negb (String.eqb (TC_Name demo_call) ToolReadFile)) = Ok tt) ∧
    (TC_Name demo_call = ToolListFiles →
       Access_Check demo_fs demo_access "/wt" (if String.eqb (str args "dir") "" then "." else str args "dir") false = Ok tt).
Proof. apply (authorize_exact (λ _, Ok (JObj demo_args)) map_to_list (λ m, reflexivity (map_to_list m))). Defined.
Example authorize_1 :
  authorize (λ _, Ok (JObj demo_args)) map_to_list all_tools demo_fs demo_access "/wt" demo_call = Ok tt.
Proof. vm_compute. reflexivity. Qed.

(** *** The loop guard *)

Section guard.
Context (unmarshal : string → result json) (digest : string → string).

(** A call with its answer, and the answers a call has had, the last first. *)
Notation observation := (string * string * string)%type.
Definition observe_all (l : list observation) (p : progress) : progress :=
  foldl (λ p x, (observe unmarshal digest x.1.1 x.1.2 x.2 p).2) p l.
Definition answers (fp : string) (l : list observation) : list string :=
  reverse ((λ x, digest x.2) <$> filter (λ x, fingerprint unmarshal x.1.1 x.1.2 = fp) l).
Fixpoint run_length {A} `{EqDecision A} (d : A) (ds : list A) : Z :=
  match ds with d' :: ds => if bool_decide (d' = d) then 1 + run_length d ds else 0 | [] => 0 end.

Lemma answers_snoc fp l x : answers fp (l ++ [x]) =
  if bool_decide (fingerprint unmarshal x.1.1 x.1.2 = fp) then digest x.2 :: answers fp l else answers fp l.
Proof.
  unfold answers. rewrite filter_app, fmap_app, reverse_app. cbn [filter list_filter].
  case_decide; [rewrite bool_decide_true by done | rewrite bool_decide_false by done]; done.
Qed.
Lemma observe_seen name args content p fp :
  seen (observe unmarshal digest name args content p).2 !! fp =
  if bool_decide (fingerprint unmarshal name args = fp) then
    Some (match seen p !! fp with
          | Some r => if bool_decide (rc_digest r = digest content) then mk_record (digest content) (rc_count r + 1)
                      else mk_record (digest content) 1
          | None => mk_record (digest content) 1 end)
  else seen p !! fp.
Proof.
  unfold observe. case_bool_decide as Hfp.
  - subst fp. destruct (seen p !! _) as [r|]; cbn; [|by rewrite lookup_insert_eq].
    destruct (String.eqb_spec (rc_digest r) (digest content)); cbn; rewrite lookup_insert_eq;
      [by rewrite bool_decide_true | by rewrite bool_decide_false].
  - destruct (seen p !! fingerprint unmarshal name args) as [r|]; cbn; [|by rewrite lookup_insert_ne].
    destruct (String.eqb _ _); cbn; by rewrite lookup_insert_ne.
Qed.

(** The guard's memory of a call: its last answer, and how many times in a row
    it has been given. *)
Lemma observe_counts l fp : seen (observe_all l newProgress) !! fp =
  match answers fp l with [] => None | d :: ds => Some (mk_record d (1 + run_length d ds)) end.
Proof.
  induction l as [|x l IH] using rev_ind; [done |].
  unfold observe_all. rewrite foldl_snoc. fold (observe_all l newProgress). rewrite observe_seen, answers_snoc, IH.
  case_bool_decide; [|done]. destruct (answers fp l) as [|d ds]; [done |]. cbn [rc_digest rc_count run_length].
  case_bool_decide as Hd; [|done]. f_equal. rewrite Hd. f_equal. lia.
Qed.

(** A step: its calls with their answers, and whether it learned anything. *)
Definition guarded (l : list (list observation * bool)) : progress :=
  foldl (λ p x, endOfStep x.2 (observe_all x.1 p)) newProgress l.

Lemma observe_stale l p : stale (observe_all l p) = stale p.
Proof.
  revert p. induction l as [|x l IH]; intros p; [done |]. unfold observe_all. cbn [foldl].
  change (stale (observe_all l (observe unmarshal digest x.1.1 x.1.2 x.2 p).2) = stale p). rewrite IH.
  unfold observe. destruct (seen p !! _) as [r|]; [|done]. by destruct (String.eqb _ _).
Qed.
Lemma observe_seen_only l p p' : seen p = seen p' → seen (observe_all l p) = seen (observe_all l p').
Proof.
  revert p p'. induction l as [|x l IH]; intros p p' H; [done |]. cbn [observe_all foldl]. apply IH.
  apply map_eq. intros fp. by rewrite !observe_seen, H.
Qed.
Lemma guarded_seen l : seen (guarded l) = seen (observe_all (l.*1 ≫= id) newProgress).
Proof.
  induction l as [|x l IH] using rev_ind; [done |].
  unfold guarded. rewrite foldl_snoc. fold (guarded l). cbn [endOfStep seen].
  rewrite (observe_seen_only _ _ _ IH). unfold observe_all. rewrite <- foldl_app. do 2 f_equal.
  rewrite fmap_app, bind_app. cbn. by rewrite app_nil_r.
Qed.
Lemma guarded_stale l : stale (guarded l) = run_length false (reverse l.*2).
Proof.
  induction l as [|x l IH] using rev_ind; [done |].
  unfold guarded. rewrite foldl_snoc. fold (guarded l). rewrite fmap_app, reverse_app. cbn [endOfStep stale].
  cbn [fmap list_fmap reverse rev_append app run_length]. rewrite observe_stale, IH.
  destruct x.2; [done |]. change (reverse [false] ++ reverse l.*2) with (false :: reverse l.*2). cbn [run_length].
  rewrite bool_decide_true by done. lia.
Qed.

(** The loop guard ends an attempt exactly when the last three steps learned
    nothing, or when some call - the same tool with the same arguments,
    whatever their spelling - was last answered three times in a row with the
    same content.  An answer that differs from the one before starts the count
    again. *)
Theorem stuck_exact range_seen (range_all : ∀ m, range_seen m ≡ₚ map_to_list m) l :
  stuck range_seen (guarded l) ≠ None ↔
  (3 ≤ run_length false (reverse l.*2))%Z ∨
  ∃ fp d ds, answers fp (l.*1 ≫= id) = d :: ds ∧ (2 ≤ run_length d ds)%Z.
Proof.
  unfold stuck. rewrite guarded_stale. unfold staleLimit, repeatLimit.
  destruct (Z.leb_spec 3 (run_length false (reverse l.*2))); [naive_solver |].
  assert (Hmem : (∃ x, x ∈ range_seen (seen (guarded l)) ∧ (3 ≤ rc_count x.2)%Z) ↔
                 ∃ fp d ds, answers fp (l.*1 ≫= id) = d :: ds ∧ (2 ≤ run_length d ds)%Z).
  { split.
    - intros ([fp r] & Hin & Hc). rewrite range_all, elem_of_map_to_list, guarded_seen, observe_counts in Hin.
      destruct (answers fp _) as [|d ds] eqn:Ea; [done |]. injection Hin as <-. exists fp, d, ds. cbn in Hc. split; [done | lia].
    - intros (fp & d & ds & Ha & Hc). exists (fp, mk_record d (1 + run_length d ds)). cbn. split; [|lia].
      rewrite range_all, elem_of_map_to_list, guarded_seen, observe_counts. by rewrite Ha. }
  destruct (find _ _) as [[fp r]|] eqn:Ef.
  - apply find_some in Ef as [Hin Hc]. split; [intros _ | done]. right. apply Hmem. exists (fp, r).
    split; [by apply list_elem_of_In | by apply Z.leb_le].
  - split; [done |]. intros [Hs|Hx]; [lia |]. apply Hmem in Hx as (x & Hin & Hc).
    apply list_elem_of_In, (find_none _ _ Ef) in Hin. apply Z.leb_gt in Hin. lia.
Qed.
End guard.

Definition demo_steps : list (list (string * string * string) * bool) :=
  [([("read_file", "{a}", "x")], true); ([("read_file", " {a}", "x")], false); ([("read_file", "{a} ", "x")], false)].
Lemma stuck_exact_witness :
  stuck map_to_list (guarded (λ _, Err (errorf "")) id demo_steps) ≠ None ↔
  (3 ≤ run_length false (reverse demo_steps.*2))%Z ∨
  ∃ fp d ds, answers (λ _, Err (errorf "")) id fp (demo_steps.*1 ≫= id) = d :: ds ∧ (2 ≤ run_length d ds)%Z.
Proof. apply (stuck_exact (λ _, Err (errorf "")) id map_to_list (λ m, reflexivity (map_to_list m))). Defined.
Example stuck_1 : stuck map_to_list (guarded (λ _, Err (errorf "")) id demo_steps) ≠ None.
Proof. vm_compute. discriminate. Qed.
