(* ===== verification/Native.v ===== *)
(** The native edit engine, [src/internal/engine/native]: the tools that act on
    more than a file, the execution of one journalled call, reconciliation
    after a crash, and the bounded tool loop.

    What the engine calls is the interface [NativeEnv]: the model, the
    retriever, the graph, the sandbox and the artifact store of the recipe
    runner.  An engine is a process of [Engine]: it acts on the worktree and
    the rest of the world, and reaches its transcript and the journal through
    the supervisor. *)
From S2P Require Import Memory Retrieval.
From S2P Require Import Prelude GoStrings GoPath Policy Worktree Firewall Recipe Summarize Graph.
From S2P Require Import Trust Json Llm ContextPack Workflow Ledger Recover Engine NativeTools.

Open Scope string_scope.
Open Scope list_scope.
Open Scope nat_scope.

(** [engine/native/native.go:31-62 Engine] its numbers, and which optional parts
    it has; the recipe runner comes with the request. *)
Record EngineConf := mk_engine {
  En_MaxSteps : Z; En_MaxTools : Z; En_MaxTokens : Z; En_Thinking : string; En_ContextTokens : Z;
  En_Retriever : bool; En_Graph : bool }.

(** [engine/native/native.go:80-80 DefaultMaxSteps] *)
Definition DefaultMaxSteps : Z := 20.

(** [engine/native/native.go:83-112 New] [provider] is its name and whether it
    calls tools, [token] the random bytes of the fence. *)
Definition New (provider : option (string * bool)) (token : option string) (o : EngineConf) : result (EngineConf * Fence) :=
  match provider with
  | None => Err (errorf "native: no provider")
  | Some (name, false) => Err (mk_error (Some "llm.UnsupportedError") ("llm: provider " +:+ quoted name +:+ " does not support tool calling; route this role to a provider that declares it, or use the deterministic fallback"))
  | Some (_, true) =>
      match token with
      | None => Err (errorf "trust: generating a fence token")
      | Some token =>
          Ok (mk_engine (if Z.leb (En_MaxSteps o) 0 then DefaultMaxSteps else En_MaxSteps o) (En_MaxTools o) (En_MaxTokens o)
                (En_Thinking o) (En_ContextTokens o) (En_Retriever o) (En_Graph o), mk_fence token)
      end
  end.

(** [llm/provider.go:157-180 ChatRequest] as this engine fills it. *)
Record ToolRequest := mk_tool_request {
  Tq_Messages : list Message; Tq_Tools : list ToolDef; Tq_ToolChoice : string; Tq_MaxTokens : Z; Tq_Thinking : string;
  Tq_Reasoning : Z; Tq_CachePrefix : Z }.

Class NativeEnv (G : Type) := {
  n_chat : ToolRequest → fs * G → result ChatResponse * (fs * G);
  n_retrieve : RRequest → fs * G → result Packet * (fs * G);
  n_nodes : string → list string → Z → fs * G → result (list Node) * (fs * G);
  n_impact : list Z → ChangeKind → fs * G → result Impact * (fs * G);
  n_neighbors : Z → Direction → list EdgeKind → fs * G → result (list Edge) * (fs * G);
  n_node : Z → fs * G → result Node * (fs * G);
  n_sandbox : option (Spec → list string → Z → fs * G → result run_outcome * (fs * G));
  n_put : option (string → fs * G → result string * (fs * G));
  n_duration : Z → string;
  n_decode_event : string → option test_event;
  n_decode_semgrep : string → option semgrepOutput;
  n_decode_golangci : string → option golangciOutput;
  n_look_path : string → bool;
  n_random : fs * G → option string * (fs * G);
  (* the engine's own fence, which it keeps between the steps *)
  n_fence : G → Fence;
  n_set_fence : Fence → G → G;
  n_unmarshal : string → result json;
  n_range : gmap string json → list (string * json);
  n_range_seen : gmap string record → list (string * record);
  n_os_text : error → string;
  n_sha : string → string;
  n_digest : string → string;
  n_show_plan : Plan → string;
  n_system : string }.

(** [len(s)] and the rendering of a list by [%v]. *)
Definition show_list (l : list string) : string := "[" +:+ join " " l +:+ "]".

(** [%-12s]: at least that wide. *)
Definition pad (width : nat) (s : string) : string :=
  s +:+ String.concat "" (replicate (width - String.length s) " ").

(** [graph/impact.go:36-47 Verdict] *)
Definition show_verdict (v : Verdict) : string :=
  match v with
  | Breaking => "breaking" | Compiles => "compiles_behaviour_may_differ"
  | Compatible => "compatible" | Undetermined => "undetermined"
  end.

(** [engine/native/exec.go:511-518 firstNonEmpty] *)
Definition firstNonEmpty (vals : list string) : string := default "" (find (λ v, negb (String.eqb v "")) vals).

(** [engine/native/exec.go:359-367 firstLine] the scanner stops at a line it
    cannot hold. *)
Definition firstLine (s : string) : string :=
  firstNonEmpty (trim_space <$> (scan_from (split_char newline s)).1).

(** [engine/native/native.go:143-160 estimateTokens] an overhead for every
    message and tool, and 3.5 characters a token. *)
Definition len (s : string) : Z := Z.of_nat (String.length s).
Definition message_chars (m : Message) : Z :=
  (16 + len (Role m) + len (Content m) + len (ToolCallID m) +
   foldr Z.add 0 ((λ tc, len (TC_ID tc) + len (TC_Name tc) + len (TC_Arguments tc)) <$> ToolCalls m))%Z.
Definition tool_chars (t : ToolDef) : Z := (16 + len (Td_Name t) + len (Td_Description t) + len (Td_Schema t))%Z.
Definition estimateTokens (messages : list Message) (tools : list ToolDef) : Z :=
  ((foldr Z.add 0 (message_chars <$> messages) + foldr Z.add 0 (tool_chars <$> tools)) * 2 / 7)%Z.

(** ** The outcome of a call, as the journal keeps it *)

Definition result_json (r : ToolResult) : json :=
  JObj [("Invalid", JBool (Tr_Invalid r)); ("Content", JStr (Tr_Content r)); ("Failed", JBool (Tr_Failed r));
        ("Edited", JBool (Tr_Edited r)); ("Done", JBool (Tr_Done r)); ("Summary", JStr (Tr_Summary r))].
(** [json.Unmarshal] into [Result]. *)
Definition decode_result (j : json) : option ToolResult :=
  invalid ← get_bool "Invalid" j;
  content ← get_string "Content" j;
  failed ← get_bool "Failed" j;
  edited ← get_bool "Edited" j;
  done ← get_bool "Done" j;
  summary ← get_string "Summary" j;
  Some (mk_tool_result invalid content failed edited done summary).

(** [engine/native/authorize.go:106-110 Engine.exec] what is recorded before a
    call runs. *)
Definition call_intent (call : ToolCall) (denial : option error) (session : string) (step : Z) : json :=
  JObj [("arguments", JStr (TC_Arguments call)); ("call_id", JStr (TC_ID call));
        ("decision", JStr (match denial with Some _ => "deny" | None => "allow" end)); ("phase", JStr "EDIT");
        ("reason", JStr (match denial with Some e => err_msg e | None => "" end)); ("session", JStr session);
        ("step", JNum step); ("tool", JStr (TC_Name call))].

Section native.
Context {G : Type} `{E : NativeEnv G}.
Context (e : EngineConf).
Notation W := (fs * G)%type.

(** ** Tools that look beyond the worktree *)

(** A tool that ends early with a failed result throws its text. *)
Definition tool_run (m : M W ToolResult) (w : W) : ToolResult * W :=
  match m w with (Ok r, w) => (r, w) | (Err e, w) => (failed (err_msg e), w) end.
Definition give_up_unless (b : bool) (text : string) : M W unit := if b then mret tt else throw (errorf text).

Definition show_slice (s : Slice) : string :=
  Sl_Path s +:+ ":" +:+ pretty (StartLine s) +:+ "-" +:+ pretty (EndLine s) +:+ nl +:+
  (if blank (Sl_Body s) then "" else "  " +:+ firstLine (trim_space (Sl_Body s)) +:+ nl).

(** [engine/native/exec.go:210-233 Engine.search] *)
Definition search (args : gmap string json) : M W ToolResult :=
  _ ← give_up_unless (En_Retriever e) "Search is unavailable: the repository is not indexed.";
  let limit := num args "limit" in
  let limit := if Z.leb limit 0 || Z.ltb 25 limit then 10%Z else limit in
  pkt ← wrapM "search failed: " (n_retrieve (mk_full_request "" (str args "query") [] limit 0 [] [] None 0));
  match Pk_Slices pkt with
  | [] => mret (tool_ok "No matches. Try a different term, or find_symbol for a known name.")
  | slices => mret (tool_ok (cap (join "" (show_slice <$> slices))))
  end.

(** [engine/native/exec.go:247-255 Engine.findSymbol] *)
Definition show_node (n : Node) : string :=
  if Sensitive (N_Path n) then "" else
  N_Kind n +:+ " " +:+ N_FQN n +:+ nl +:+ "  " +:+ N_Path n +:+ ":" +:+ pretty (N_StartLine n) +:+ nl +:+
  (if String.eqb (N_Signature n) "" then "" else "  " +:+ N_Signature n +:+ nl).

(** [engine/native/exec.go:235-258 Engine.findSymbol] *)
Definition findSymbol (args : gmap string json) : M W ToolResult :=
  _ ← give_up_unless (En_Graph e) "Symbol lookup is unavailable: the repository is not indexed.";
  let name := str args "name" in
  nodes ← wrapM "lookup failed: " (n_nodes name [] 20);
  match nodes with
  | [] => mret (tool_ok ("No indexed symbol named " +:+ quoted name +:+ ". Try search_code."))
  | _ => mret (tool_ok (cap (join "" (show_node <$> nodes))))
  end.

(** [engine/native/exec.go:288-293 Engine.impact] *)
Definition show_consumer (c : Consumer) : string :=
  pad 12 (show_verdict (Co_Verdict c)) +:+ " " +:+ pad 10 (show_evidence (Co_Evidence c)) +:+ " " +:+ N_FQN (Co_Node c) +:+ nl +:+
  (if String.eqb (Migration c) "" then "" else "    " +:+ Migration c +:+ nl).

(** [engine/native/exec.go:260-296 Engine.impact] *)
Definition impact (args : gmap string json) : M W ToolResult :=
  _ ← give_up_unless (En_Graph e) "Impact analysis is unavailable: the repository is not indexed.";
  kind ← lift (ParseChangeKind (str args "change"));
  let name := str args "symbol" in
  nodes ← wrapM "lookup failed: " (n_nodes name [] 20);
  match nodes with
  | [] => mret (tool_ok ("No indexed symbol named " +:+ quoted name +:+ "."))
  | _ =>
      imp ← wrapM "impact analysis failed: " (n_impact (N_ID <$> nodes) kind);
      let imp := PublicImpact imp in
      mret (tool_ok (cap (Impact_Summary imp +:+ nl +:+ nl +:+
                          join "" (show_consumer <$> take 25 (Consumers imp)) +:+ nl +:+ ImpactCaveat +:+ nl)))
  end.

Definition run_one (spec : Spec) (wt : string) (rec : Recipe) (w : W) : Result * W :=
  Recipe.Run n_sandbox n_put n_duration fst spec 0 rec wt "" w.

(** [engine/native/exec.go:307-318 Engine.runRecipe] the frozen presets of a kind, in order. *)
Fixpoint run_presets (spec : Spec) (wt : string) (presets : list Preset) (w : W) : list Result * W :=
  match presets with
  | [] => ([], w)
  | p :: presets =>
      let '(res, w) := run_one spec wt (Preset_Recipe n_decode_event p) w in
      let '(rest, w) := run_presets spec wt presets w in (res :: rest, w)
  end.

(** [engine/native/exec.go:302-332 Engine.runRecipe] *)
Definition runRecipe (spec : option Spec) (wt : string) (args : gmap string json) (presets : list Preset) (w : W)
    : ToolResult * W :=
  match spec with
  | None => (failed "Verification is unavailable in this step.", w)
  | Some spec =>
      let want := str args "kind" in
      match presets with
      | _ :: _ =>
          let '(results, w) := run_presets spec wt (List.filter (λ p, String.eqb (show_kind (P_Kind p)) want) presets) w in
          match results with
          | [] => (failed ("No frozen preset of kind " +:+ quoted want), w)
          | _ => (mk_tool_result false (cap (join "" (describe <$> results)))
                    (existsb (λ r, negb (bool_decide (R_Status r = Pass))) results) false false "", w)
          end
      | [] =>
          match find (λ r, String.eqb (show_kind (Rec_Kind r)) want) (GoRecipes n_decode_semgrep n_decode_golangci n_look_path High) with
          | None => (failed ("No " +:+ quoted want +:+ " verification is available here. Try build, vet or test."), w)
          | Some r =>
              let '(res, w) := run_one spec wt r w in
              (mk_tool_result false (cap (describe res)) (bool_decide (R_Status res = Fail)) false false "", w)
          end
      end
  end.

(** [engine/native/exec.go:487-509 commitDetail] *)
Definition commitDetail (n : Node) : string :=
  let attrs := if String.eqb (N_Attrs n) "" then ∅
               else match Unmarshal_map n_unmarshal (N_Attrs n) with Ok (Some m) => m | _ => ∅ end in
  let author := str attrs "author" in
  let when_ := take_str 10 (str attrs "when") in
  join " · " (List.filter (λ s, negb (String.eqb s "")) [N_Signature n; author; when_]).

(** [text := strings.LastIndex(name, slash)] and what follows it. *)
Definition after_slash (name : string) : string := List.last (split_char slash name) "".

(** [engine/native/exec.go:455-466 Engine.gitTouch] the commits of one node, up to the limit. *)
Fixpoint show_commits (limit : Z) (edges : list Edge) (total : Z) : M W (string * Z) :=
  match edges with
  | [] => mret ("", total)
  | ed :: edges =>
      if Z.leb limit total then mret ("", total) else
      commit ← try (n_node (Src ed));
      match commit with
      | Err _ => show_commits limit edges total
      | Ok c =>
          '(text, total) ← show_commits limit edges (total + 1)%Z;
          mret ("  " +:+ N_Name c +:+ " " +:+ commitDetail c +:+ nl +:+ text, total)
      end
  end.

(** [engine/native/exec.go:437-470 Engine.gitTouch] *)
Fixpoint show_history (limit : Z) (nodes : list Node) (total : Z) : M W (string * Z) :=
  match nodes with
  | [] => mret ("", total)
  | n :: nodes =>
      if Sensitive (N_Path n) then show_history limit nodes total else
      edges ← wrapM "history lookup failed: " (n_neighbors (N_ID n) Reverse ["touches"]);
      match edges with
      | [] => show_history limit nodes total
      | _ =>
          '(text, total) ← show_commits limit edges total;
          let text := N_Path n +:+ nl +:+ (if String.eqb (N_Path n) "" then N_FQN n +:+ nl else "") +:+ text in
          if Z.leb limit total then mret (text, total) else
          '(rest, total) ← show_history limit nodes total;
          mret (text +:+ rest, total)
      end
  end.

(** [engine/native/exec.go:405-483 Engine.gitTouch] *)
Definition gitTouch (args : gmap string json) : M W ToolResult :=
  _ ← give_up_unless (En_Graph e) "Commit history is unavailable: the repository is not indexed.";
  let path := str args "path" in
  let symbol := str args "symbol" in
  _ ← give_up_unless (negb (String.eqb path "" && String.eqb symbol "")) "Give either a path or a symbol.";
  let limit := num args "limit" in
  let limit := if Z.leb limit 0 || Z.ltb 50 limit then 10%Z else limit in
  let name := if String.eqb symbol "" then after_slash path else symbol in
  let kinds := if String.eqb symbol "" then ["file"] else ["function"; "method"; "type"; "class"; "interface"] in
  nodes ← wrapM "history lookup failed: " (n_nodes name kinds 5);
  _ ← give_up_unless (0 <? length nodes)
        ("Nothing indexed under " +:+ quoted (firstNonEmpty [path; symbol]) +:+ ". Use list_files or find_symbol first.");
  '(text, total) ← show_history limit nodes 0;
  if Z.eqb total 0
  then mret (tool_ok ("No commit history is indexed for " +:+ firstNonEmpty [path; symbol] +:+
         ". The gitlog analyzer records it; a shallow clone has none to record."))
  else mret (tool_ok (trim_newlines text)).

(** ** One call *)

(** [engine/native/native.go:117-123 Engine.refreshTools] *)
Definition tools (q : EngRequest) : list Tool :=
  Definitions (En_MaxTools e) (mk_wired (En_Retriever e) (En_Graph e) (bool_decide (is_Some (Q_Spec q)))).

(** A tool that only looks at, or changes, the file system. *)
Definition on_files (r : fs → ToolResult * fs) (w : W) : ToolResult * W := let '(x, f) := r w.1 in (x, (f, w.2)).

(** [engine/native/exec.go:53-86 Engine.execute] *)
Definition execute (q : EngRequest) (call : ToolCall) (w : W) : ToolResult * W :=
  let wt := Q_Worktree q in
  match (if String.eqb (TC_Arguments call) "" then Ok (Some ∅) else Unmarshal_map n_unmarshal (TC_Arguments call)) with
  | Err err =>
      (failed ("Your arguments were not valid JSON (" +:+ err_msg err +:+
               "). Send the arguments as a JSON object matching the tool's schema."), w)
  | Ok args =>
      let args := default ∅ args in
      let name := TC_Name call in
      if String.eqb name ToolReadFile then (readFile n_os_text w.1 wt args, w)
      else if String.eqb name ToolWriteFile then on_files (λ f, writeFile n_os_text f wt args) w
      else if String.eqb name ToolEditFile then on_files (λ f, editFile n_os_text f wt args) w
      else if String.eqb name ToolListFiles then (listFiles n_os_text w.1 wt args, w)
      else if String.eqb name ToolSearch then tool_run (search args) w
      else if String.eqb name ToolFindSymbol then tool_run (findSymbol args) w
      else if String.eqb name ToolImpact then tool_run (impact args) w
      else if String.eqb name ToolRunRecipe then runRecipe (Q_Spec q) wt args (Q_Presets q) w
      else if String.eqb name ToolGitTouch then tool_run (gitTouch args) w
      else if String.eqb name ToolDone then (mk_tool_result false "Recorded." false false true (str args "summary"), w)
      else (failed ("There is no tool named " +:+ quoted name +:+ ". Available tools: " +:+
                    join ", " (ToolNames (tools q)) +:+ "."), w)
  end.

(** [engine/native/native.go:432-439 Engine.ensureFence] *)
Definition ensureFence (w : W) : Fence * W :=
  if Fence_Valid (n_fence w.2) then (n_fence w.2, w) else
  match n_random w with
  | (Some token, (f, g)) => (mk_fence token, (f, n_set_fence (mk_fence token) g))
  | (None, w) => (n_fence w.2, w)
  end.

Definition manifest (q : EngRequest) : proc W string :=
  look (λ w, ContentManifest n_sha w.1 (Q_Worktree q)) ≫= plift.

(** [engine/native/authorize.go:90-133 Engine.exec] *)
Definition exec (q : EngRequest) (call : ToolCall) : proc W ToolResult :=
  verdict ← look (λ w, authorize n_unmarshal n_range (tools q) w.1 (Q_Access q) (Q_Worktree q) call);
  let denial := match verdict with Err e => Some e | Ok _ => None end in
  let run : proc W ToolResult :=
    match denial with
    | Some d => mret (mk_tool_result true ("firewall: " +:+ err_msg d) true false false "")
    | None => act (execute q call)
    end in
  if negb (Q_Journal q) then run else
  before ← manifest q;
  session ← act ensureFence;
  tr ← transcript;
  h ← begin_now KDecision (call_intent call denial (nonce session) (Steps tr)) before;
  res ← run;
  after ← manifest q;
  _ ← complete_now h (result_json res) after "";
  mret res.

(** ** After a crash *)

Definition tr_append (ms : list Message) (tr : Transcript) : Transcript :=
  mk_transcript (Closed tr) (T_Summary tr) (ClaimsDone tr) (BudgetExhausted tr) (T_Truncated tr) (T_FenceToken tr)
    (T_Messages tr ++ ms) (T_Tokens tr) (Steps tr) (Tools tr) (VerifyRuns tr) (InvalidCalls tr) (T_Pending tr) (T_Candidate tr).

Definition has_calls (m : Message) : bool := String.eqb (Role m) "assistant" && (0 <? length (ToolCalls m)).

(** [engine/native/reconcile.go:28-43 Engine.reconcile] the last message that
    asks for tools, and the messages after it. *)
Fixpoint last_batch (ms : list Message) : option (Message * list Message) :=
  match ms with
  | [] => None
  | m :: ms => match last_batch ms with Some b => Some b | None => if has_calls m then Some (m, ms) else None end
  end.
Definition answered (after : list Message) (id : string) : bool :=
  existsb (λ m, String.eqb (Role m) "tool" && String.eqb (ToolCallID m) id) after.

(** [engine/native/reconcile.go:57-68 Engine.reconcile] whether an operation is
    the record of a call. *)
Definition records (tr : Transcript) (call : ToolCall) (op : Operation) : bool :=
  match (session ← get_string "session" (Intent op); step ← get_int "step" (Intent op);
         id ← get_string "call_id" (Intent op); arguments ← get_string "arguments" (Intent op);
         Some (session, step, id, arguments)) with
  | Some (session, step, id, arguments) =>
      String.eqb session (T_FenceToken tr) && Z.eqb step (Steps tr) && String.eqb id (TC_ID call) &&
      String.eqb arguments (TC_Arguments call)
  | None => false
  end.
Definition match_op (tr : Transcript) (ops : list Operation) (call : ToolCall) : option Operation :=
  List.find (records tr call) (reverse ops).

Definition tool_message (call : ToolCall) (content : string) : Message :=
  mk_llm_message "tool" content (TC_Name call) (TC_ID call) [].
Definition result_message (fence : Fence) (call : ToolCall) (content : string) : Message :=
  tool_message call (Wrap fence ("result of " +:+ TC_Name call) content).

(** What the calls of the batch are found to have done. *)
Record recovery := mk_recovery {
  rv_messages : list Message; rv_results : list (ToolCall * ToolResult); rv_candidate : string; rv_boundary : bool }.

(** [engine/native/reconcile.go:53-90 Engine.reconcile] *)
Fixpoint recover_calls (fence : Fence) (tr : Transcript) (ops : list Operation) (after : list Message)
    (calls : list ToolCall) (rv : recovery) : result recovery :=
  match calls with
  | [] => Ok rv
  | call :: calls =>
      if answered after (TC_ID call) then recover_calls fence tr ops after calls rv else
      match match_op tr ops call with
      | None =>
          recover_calls fence tr ops after calls
            (mk_recovery (rv_messages rv ++ [tool_message call "Not executed: process stopped before this action was journalled."])
               (rv_results rv) (rv_candidate rv) true)
      | Some op =>
          if Uncertain op
          then Err (errorf ("native: tool " +:+ TC_ID call +:+ " has an uncertain side effect; explicit recovery is required"))
          else match Op_Outcome op ≫= decode_result with
          | None => Err (errorf "native: malformed outcome")
          | Some res =>
              if negb (String.eqb (CandidateBefore op) (rv_candidate rv))
              then Err (errorf "native: interrupted action candidate chain does not match")
              else recover_calls fence tr ops after calls
                (mk_recovery (rv_messages rv ++ [result_message fence call (Tr_Content res)])
                   (rv_results rv ++ [(call, res)]) (CandidateAfter op) (rv_boundary rv))
          end
      end
  end.

(** [engine/native/native.go:368-374 Engine.Step] what a result adds to the counters. *)
Definition count_call (call : ToolCall) (res : ToolResult) (tr : Transcript) : Transcript :=
  mk_transcript (Closed tr) (T_Summary tr) (ClaimsDone tr) (BudgetExhausted tr) (T_Truncated tr) (T_FenceToken tr)
    (T_Messages tr) (T_Tokens tr) (Steps tr) (Tools tr + 1)
    (if String.eqb (TC_Name call) ToolRunRecipe then VerifyRuns tr + 1 else VerifyRuns tr)
    (if Tr_Invalid res then InvalidCalls tr + 1 else InvalidCalls tr) (T_Pending tr) (T_Candidate tr).

(** [engine/native/reconcile.go:95-108 Engine.reconcile] *)
Definition recount (tr : Transcript) (x : ToolCall * ToolResult) : Transcript :=
  let tr := count_call x.1 x.2 tr in
  if Tr_Done x.2
  then mk_transcript true (Tr_Summary x.2) true (BudgetExhausted tr) (T_Truncated tr) (T_FenceToken tr) (T_Messages tr)
         (T_Tokens tr) (Steps tr) (Tools tr) (VerifyRuns tr) (InvalidCalls tr) (T_Pending tr) (T_Candidate tr)
  else tr.

(** [engine/native/reconcile.go:94-115 Engine.reconcile] *)
Definition reconciled (current : string) (rv : recovery) (tr : Transcript) : Transcript :=
  let tr := foldl recount (tr_append (rv_messages rv) tr) (rv_results rv) in
  mk_transcript (Closed tr || rv_boundary rv)
    (if rv_boundary rv then "interrupted batch reconciled; unfinished calls require a new phase" else T_Summary tr)
    (ClaimsDone tr) (BudgetExhausted tr || rv_boundary rv) (T_Truncated tr) (T_FenceToken tr) (T_Messages tr)
    (T_Tokens tr) (Steps tr) (Tools tr) (VerifyRuns tr) (InvalidCalls tr) false current.

(** [req.SaveTranscript], when there is one. *)
Definition saved (q : EngRequest) : proc W unit :=
  if negb (Q_Transcript q) then mret tt else
  err ← save_now;
  match err with Some err => pfail err | None => mret tt end.

Definition set_fence (f : Fence) : proc W unit := act (λ w, (tt, (w.1, n_set_fence f w.2))).

(** [engine/native/reconcile.go:16-120 Engine.reconcile] *)
Definition reconcile (q : EngRequest) : proc W unit :=
  tr ← transcript;
  if negb (Q_Journal q) then pfail (errorf "native: interrupted tool call requires a journal for reconciliation") else
  fence ← plift (RestoreFence (T_FenceToken tr));
  _ ← set_fence fence;
  current ← manifest q;
  match last_batch (T_Messages tr) with
  | None => pfail (errorf "native: pending transcript has no tool batch")
  | Some (batch, after) =>
      ops ← operations_now;
      rv ← plift (recover_calls fence tr ops after (ToolCalls batch) (mk_recovery [] [] (T_Candidate tr) false));
      if String.eqb (rv_candidate rv) "" || negb (String.eqb (rv_candidate rv) current)
      then pfail (errorf "native: candidate changed outside the recorded actions") else
      _ ← change (reconciled current rv);
      saved q
  end.

(** ** The opening message *)

(** [engine/native/native.go:480-491 Engine.briefWith] *)
Definition brief_note (fence : Fence) (n : Note) : string :=
  let src := if String.eqb (Pv_Source (Nt_Prov n)) "" then "unattributed" else Pv_Source (Nt_Prov n) in
  Wrap fence ("note " +:+ Nt_Kind n +:+ " from " +:+ src) (Nt_Text n) +:+ nl.

(** [engine/native/native.go:467-470 Engine.briefWith] *)
Definition brief_card (fence : Fence) (n : ProjectNote) : string :=
  Wrap fence ("memory file=" +:+ Pn_File n +:+ " repo=" +:+ Ph_RepoID (Pn_Header n) +:+ " commit=" +:+ Ph_Commit (Pn_Header n) +:+
              " source=" +:+ Ph_Source (Pn_Header n)) (Pn_Text n) +:+ nl.

(** [engine/native/native.go:495-510 Engine.briefWith] *)
Definition brief_slice (fence : Fence) (s : Slice) : string :=
  let named := negb (String.eqb (Sl_Symbol s) "") && negb (String.eqb (Sl_Symbol s) (Sl_Path s)) in
  nl +:+ Sl_Path s +:+ ":" +:+ pretty (StartLine s) +:+ "-" +:+ pretty (EndLine s) +:+
  (if named then "  " +:+ Sl_Symbol s else "") +:+ nl +:+
  (if String.eqb (Sl_Signature s) "" then "" else "  " +:+ Neutralise (Sl_Signature s) +:+ nl) +:+
  (if blank (Sl_Body s) then ""
   else Wrap fence (if named then Sl_Path s +:+ " " +:+ Sl_Symbol s else Sl_Path s) (trim_space (Sl_Body s)) +:+ nl).

(** [engine/native/native.go:443-514 Engine.briefWith] *)
Definition briefWith (q : EngRequest) (fence : Fence) : string :=
  let pkt := Q_Packet q in
  "Objective: " +:+ Q_Objective q +:+ nl +:+
  "Write scope: " +:+ show_list (WriteScope (Q_Access q)) +:+ " (an empty scope permits no writes)." +:+ nl +:+
  nl +:+ Preamble fence +:+ nl +:+
  (match Q_Plan q with Some p => nl +:+ "Validated plan: " +:+ n_show_plan p +:+ nl | None => "" end) +:+
  (if Z.ltb 1 (Q_Attempt q)
   then nl +:+ "This is attempt " +:+ pretty (Q_Attempt q) +:+ ". The previous attempt did not pass verification." +:+ nl else "") +:+
  join "" (brief_card fence <$> Pk_ProjectNotes pkt) +:+
  (match Pk_Notes pkt with
   | [] => ""
   | notes =>
       nl +:+ "What this repository has recorded. These are notes, not code, and each says where it came from:" +:+ nl +:+
       join "" (brief_note fence <$> notes) +:+
       (if 0 <? Pk_NotesDropped pkt then "  (" +:+ pretty (Pk_NotesDropped pkt) +:+ " more note(s) did not fit)" +:+ nl else "")
   end) +:+
  (match Pk_Slices pkt with
   | [] => ""
   | slices =>
       nl +:+ "Relevant code found by the supervisor's retrieval:" +:+ nl +:+
       join "" (brief_slice fence <$> slices) +:+
       (match Pk_Impact pkt with
        | Some i => if 0 <? length (Consumers i) then nl +:+ "Impact of changing this: " +:+ Impact_Summary i +:+ nl else ""
        | None => ""
        end)
   end) +:+
  (match Q_Feedback q with
   | [] => ""
   | feedback => nl +:+ "Verification findings from the previous attempt — fix these:" +:+ nl +:+
                 join "" ((λ r, nl +:+ describe r) <$> feedback)
   end).

(** [engine/native/native.go:415-420 Engine.seed] *)
Definition seed (q : EngRequest) (fence : Fence) : list Message :=
  [mk_message "system" n_system; mk_message "user" (briefWith q fence)].

(** ** The loop *)

(** What a step keeps while it runs: the conversation, the tokens used, whether
    the worktree was edited, and the guard's memory. *)
Record Loop := mk_loop { lp_messages : list Message; lp_tokens : Z; lp_edited : bool; lp_prog : progress }.
Definition say (m : Message) (lp : Loop) : Loop := mk_loop (lp_messages lp ++ [m]) (lp_tokens lp) (lp_edited lp) (lp_prog lp).

(** The ends of a step: the response's own fields. *)
Record Ending := mk_ending { ed_summary : string; ed_done : bool; ed_truncated : bool; ed_budget : bool }.
Definition ending (summary : string) : Ending := mk_ending summary false false false.
Definition out_of_budget (summary : string) : Ending := mk_ending summary false false true.
Definition response (lp : Loop) (ed : Ending) : EngResponse :=
  mk_engresponse (ed_summary ed) (ed_done ed) (lp_tokens lp) (lp_edited lp) (ed_truncated ed) (ed_budget ed).

Definition with_messages (ms : list Message) (tr : Transcript) : Transcript :=
  mk_transcript (Closed tr) (T_Summary tr) (ClaimsDone tr) (BudgetExhausted tr) (T_Truncated tr) (T_FenceToken tr)
    ms (T_Tokens tr) (Steps tr) (Tools tr) (VerifyRuns tr) (InvalidCalls tr) (T_Pending tr) (T_Candidate tr).
Definition with_pending (b : bool) (tr : Transcript) : Transcript :=
  mk_transcript (Closed tr) (T_Summary tr) (ClaimsDone tr) (BudgetExhausted tr) (T_Truncated tr) (T_FenceToken tr)
    (T_Messages tr) (T_Tokens tr) (Steps tr) (Tools tr) (VerifyRuns tr) (InvalidCalls tr) b (T_Candidate tr).
Definition with_token (token : string) (tr : Transcript) : Transcript :=
  mk_transcript (Closed tr) (T_Summary tr) (ClaimsDone tr) (BudgetExhausted tr) (T_Truncated tr) token
    (T_Messages tr) (T_Tokens tr) (Steps tr) (Tools tr) (VerifyRuns tr) (InvalidCalls tr) (T_Pending tr) (T_Candidate tr).
Definition with_step (step tokens : Z) (tr : Transcript) : Transcript :=
  mk_transcript (Closed tr) (T_Summary tr) (ClaimsDone tr) (BudgetExhausted tr) (T_Truncated tr) (T_FenceToken tr)
    (T_Messages tr) (T_Tokens tr + tokens) step (Tools tr) (VerifyRuns tr) (InvalidCalls tr) (T_Pending tr) (T_Candidate tr).
Definition closed (ed : Ending) (tr : Transcript) : Transcript :=
  mk_transcript true (ed_summary ed) (ed_done ed) (ed_budget ed) (ed_truncated ed) (T_FenceToken tr)
    (T_Messages tr) (T_Tokens tr) (Steps tr) (Tools tr) (VerifyRuns tr) (InvalidCalls tr) (T_Pending tr) (T_Candidate tr).

(** [engine/native/native.go:192-198 Engine.Step] *)
Definition persist (q : EngRequest) (messages : list Message) : proc W unit :=
  _ ← change (with_messages messages); saved q.

(** [engine/native/native.go:203-208 Engine.Step] *)
Definition finish (q : EngRequest) (lp : Loop) (ed : Ending) : proc W EngResponse :=
  _ ← change (closed ed);
  _ ← persist q (lp_messages lp);
  mret (response lp ed).

(** [engine/native/native.go:211-215 Engine.Step] *)
Definition max_steps (q : EngRequest) : Z :=
  let b := Eb_MaxSteps (Q_Budget q) in
  if Z.ltb 0 b && Z.ltb b (En_MaxSteps e) then b else En_MaxSteps e.

(** A limit of the budget that is smaller than the engine's own, if any. *)
Definition tighter (own budget : Z) : Z := if Z.ltb 0 budget && (Z.leb own 0 || Z.ltb budget own) then budget else own.

(** [config/profile.go:119-138 FallbackProfile] *)
Definition fallback_ReservedOutput : Z := 4096.

(** [engine/native/native.go:225-252 Engine.Step] how many tokens the model may
    answer with, or why the step ends here. *)
Definition output_limit (b : EBudget) (used estimate : Z) : string + Z :=
  let limit := tighter (En_MaxTokens e) (Eb_Output b) in
  let limit := if Z.leb limit 0 then fallback_ReservedOutput else limit in
  let context := tighter (En_ContextTokens e) (Eb_Context b) in
  if Z.ltb 0 context && Z.ltb context (estimate + limit)
  then inl "EDIT context budget exhausted; a supervisor phase boundary is required"
  else if Z.ltb 0 (Eb_MaxTokens b) then
    let remaining := (Eb_MaxTokens b - used - estimate)%Z in
    if Z.leb remaining 0 then inl "task token budget exhausted" else inr (Z.min limit remaining)
  else inr limit.

(** [engine/native/native.go:254-269 Engine.Step] *)
Definition tool_request (q : EngRequest) (messages : list Message) (limit : Z) : ToolRequest :=
  mk_tool_request messages (T_Def <$> tools q) "auto" limit (En_Thinking e)
    (Z.min (Eb_Reasoning (Q_Budget q)) (Z.max 1 (limit - 1))) 2.

(** [engine/native/native.go:270-277 Engine.Step] what the exchange cost. *)
Definition tokens_of (estimate : Z) (out : ChatResponse) : Z :=
  let prompt := if Z.leb (Cr_PromptTokens out) 0 then estimate else Cr_PromptTokens out in
  let output := if Z.leb (Cr_OutputTokens out) 0
    then estimateTokens [mk_llm_message "assistant" (Cr_Content out +:+ Cr_Reasoning out) "" "" (Cr_ToolCalls out)] []
    else Cr_OutputTokens out in
  (prompt + output)%Z.

(** [engine/native/native.go:281-307 Engine.Step] the model asked for no tool. *)
Definition answered_without_tools (limit step : Z) (out : ChatResponse) : Ending :=
  if String.eqb (Cr_FinishReason out) "length" && blank (Cr_Content out) then
    let n := String.length (trim_space (Cr_Reasoning out)) in
    mk_ending ("the output budget of " +:+ pretty limit +:+ " tokens ran out on step " +:+ pretty step +:+
               " before the model produced an answer or a tool call" +:+
               (if 0 <? n then "; it was spent on " +:+ pretty n +:+
                  " characters of reasoning, so the budget is too small for this model's thinking" else "")) false true false
  else ending (if blank (Cr_Content out)
               then "the model stopped after " +:+ pretty step +:+ " step(s) without calling a tool"
               else trim_space (Cr_Content out)).

(** [engine/native/native.go:322-322 Engine.Step] *)
Definition spent_out (tr : Transcript) (call : ToolCall) : bool :=
  Z.leb 40 (Tools tr) || (String.eqb (TC_Name call) ToolRunRecipe && Z.leb 3 (VerifyRuns tr)) || Z.leb 3 (InvalidCalls tr).

Definition unused (call : ToolCall) : Message := tool_message call "Not executed: EDIT phase budget exhausted.".

(** [engine/native/native.go:320-387 Engine.Step] the calls of one answer; the
    result is the response when the step ends here, or the loop's state and
    whether anything was learned. *)
Fixpoint run_calls (q : EngRequest) (calls : list ToolCall) (learnt : bool) (lp : Loop) : proc W (EngResponse + Loop * bool) :=
  match calls with
  | [] => mret (inr (lp, learnt))
  | call :: rest =>
      tr ← transcript;
      if spent_out tr call then
        let lp := mk_loop (lp_messages lp ++ (unused <$> calls)) (lp_tokens lp) (lp_edited lp) (lp_prog lp) in
        _ ← change (with_pending false);
        inl <$> finish q lp (out_of_budget "EDIT tool, verification or invalid-call budget exhausted")
      else
        _ ← change (with_pending true);
        _ ← persist q (lp_messages lp);
        res ← proc_wrap ("native: journal tool " +:+ TC_Name call +:+ ": ") (exec q call);
        let '(v, times, prog) := observe n_unmarshal n_digest (TC_Name call) (TC_Arguments call) (Tr_Content res) (lp_prog lp) in
        let learnt := match v with learned => true | repeated => learnt || Tr_Edited res || Tr_Done res end in
        let prefix := match v with
          | repeated => if Z.ltb 1 times then repeatNote (TC_Name call) times else ""
          | learned => "" end in
        fence ← act ensureFence;
        let m := tool_message call (prefix +:+ Wrap fence ("result of " +:+ TC_Name call) (Tr_Content res)) in
        let lp := mk_loop (lp_messages lp ++ [m]) (lp_tokens lp) (lp_edited lp || Tr_Edited res) prog in
        _ ← change (λ tr, count_call call res (with_pending (0 <? length rest) tr));
        if Tr_Done res then inl <$> finish q lp (mk_ending (Tr_Summary res) true false false)
        else
          _ ← persist q (lp_messages lp);
          run_calls q rest learnt lp
  end.

(** [engine/native/native.go:216-404 Engine.Step] [n] steps are left, the next is [step]. *)
Fixpoint steps (q : EngRequest) (n : nat) (step : Z) (lp : Loop) : proc W EngResponse :=
  match n with
  | O => finish q lp (ending ("reached the step limit of " +:+ pretty (max_steps q) +:+ " without declaring completion"))
  | S n =>
      err ← ctx_error;
      match err with
      | Some err => mret (response lp (ending ("stopped after " +:+ pretty (step - 1)%Z +:+ " step(s): " +:+ err_msg err)))
      | None =>
          let estimate := estimateTokens (lp_messages lp) (T_Def <$> tools q) in
          match output_limit (Q_Budget q) (lp_tokens lp) estimate with
          | inl why => finish q lp (out_of_budget why)
          | inr limit =>
              out ← proc_wrap ("native: step " +:+ pretty step +:+ ": ")
                      (act (n_chat (tool_request q (lp_messages lp) limit)) ≫= plift);
              let cost := tokens_of estimate out in
              let lp := mk_loop (lp_messages lp) (lp_tokens lp + cost) (lp_edited lp) (lp_prog lp) in
              _ ← change (with_step step cost);
              if negb (WantsTools out) then
                finish q (say (mk_message "assistant" (Cr_Content out)) lp) (answered_without_tools limit step out)
              else if (1 <? length (Cr_ToolCalls out)) && existsb (λ c, String.eqb (TC_Name c) ToolDone) (Cr_ToolCalls out)
              then pfail (errorf "native: done must be the only call in its batch")
              else
                ended ← run_calls q (Cr_ToolCalls out) false
                          (say (mk_llm_message "assistant" (Cr_Content out) "" "" (Cr_ToolCalls out)) lp);
                match ended with
                | inl resp => mret resp
                | inr (lp, learnt) =>
                    let prog := endOfStep learnt (lp_prog lp) in
                    let lp := mk_loop (lp_messages lp) (lp_tokens lp) (lp_edited lp) prog in
                    match stuck n_range_seen prog with
                    | Some why => finish q lp (ending why)
                    | None => steps q n (step + 1) lp
                    end
                end
          end
      end
  end.

(** [engine/native/native.go:181-191 Engine.Step] the conversation to go on with. *)
Definition opening (q : EngRequest) : proc W (list Message) :=
  tr ← transcript;
  match T_Messages tr with
  | [] => fence ← act ensureFence; _ ← change (with_token (nonce fence)); mret (seed q fence)
  | messages => fence ← plift (RestoreFence (T_FenceToken tr)); _ ← set_fence fence; mret messages
  end.

(** [engine/native/native.go:178-404 Engine.Step] from a transcript that is not pending. *)
Definition go_on (q : EngRequest) (tr : Transcript) : proc W EngResponse :=
  if Closed tr
  then mret (mk_engresponse (T_Summary tr) (ClaimsDone tr) 0 false (T_Truncated tr) (BudgetExhausted tr)) else
  messages ← opening q;
  _ ← persist q messages;
  tr ← transcript;
  steps q (Z.to_nat (max_steps q - Steps tr)) (Steps tr + 1) (mk_loop messages 0 false newProgress).

(** [engine/native/native.go:173-404 Engine.Step] *)
Definition resume (q : EngRequest) : proc W EngResponse :=
  tr ← transcript;
  _ ← (if T_Pending tr then reconcile q else mret tt);
  tr ← transcript;
  go_on q tr.

(** [engine/native/native.go:164-404 Engine.Step] *)
Definition Step (q : EngRequest) : proc W EngResponse :=
  if match Q_Phase q with Some p => negb (bool_decide (p = Edit)) | None => false end
  then pfail (errorf "native: tools are only available in EDIT") else
  _ ← (if Q_Transcript q then mret new_transcript else change (λ _, new_transcript));
  resume q.
End native.
