(* ===== verification/NativeLoop.v ===== *)
(** The loop of the native engine: whatever the model, the tools and the journal
    answer, the conversation it untouched can always be sent on or reconciled, and
    its budgets hold.  The statements are about every process of [Native.Step],
    through the predicate transformer [wp] of [Engine]. *)
From S2P Require Import Memory Retrieval.
From S2P Require Import Prelude GoStrings GoPath Policy Worktree Firewall Recipe Summarize Graph.
From S2P Require Import Trust Json Llm ContextPack Workflow Ledger Recover Engine NativeTools Native.

Open Scope string_scope.
Open Scope list_scope.
Open Scope nat_scope.

(** ** Conversations *)

Definition answers_call (c : ToolCall) (m : Message) : Prop := Role m = "tool" ∧ ToolCallID m = TC_ID c ∧ ToolCalls m = [].

(** What a provider accepts: a tool speaks only when it was asked to, and after a message that asks for tools come the
    answers to its calls, one each, in order. *)
Inductive conversation : list Message → Prop :=
| conv_nil : conversation []
| conv_say ms m : conversation ms → Role m ≠ "tool" → ToolCalls m = [] → conversation (ms ++ [m])
| conv_batch ms m replies : conversation ms → Role m = "assistant" → ToolCalls m ≠ [] →
    Forall2 answers_call (ToolCalls m) replies → conversation (ms ++ m :: replies).

(** The last batch has its first answers only. *)
Definition half_answered (ms : list Message) : Prop := ∃ before m replies rest,
  ms = before ++ m :: replies ∧ conversation before ∧ Role m = "assistant" ∧ ToolCalls m ≠ [] ∧
  (∃ ran, ToolCalls m = ran ++ rest ∧ Forall2 answers_call ran replies).

Definition sound (tr : Transcript) : Prop :=
  if T_Pending tr then half_answered (T_Messages tr) else conversation (T_Messages tr).

(** ** Budgets *)

(** The budgets of a transcript, for a step that starts from [s] with [m] steps
    at most: forty calls, three verification runs, three invalid calls. *)
Record within (m : Z) (s tr : Transcript) : Prop := {
  in_tools : (Tools tr ≤ Z.max 40 (Tools s))%Z; in_verify : (VerifyRuns tr ≤ Z.max 3 (VerifyRuns s))%Z;
  in_invalid : (InvalidCalls tr ≤ Z.max 3 (InvalidCalls s))%Z; in_steps : (Steps tr ≤ Z.max m (Steps s))%Z }.

Section native_loop.
Context {G : Type} `{E : NativeEnv G}.
Context (e : EngineConf).
Notation W := (fs * G)%type.

(** Only the tool that declares completion gives a result that is done. *)
Definition never_done (m : M W ToolResult) : Prop := ∀ w r w', m w = (Ok r, w') → Tr_Done r = false.
Lemma never_done_bind {A} (m : M W A) k : (∀ a, never_done (k a)) → never_done (m ≫= k).
Proof. intros H w r w' (a & w1 & _ & Hk)%bind_ok. by eapply H. Qed.
Lemma never_done_ret r : Tr_Done r = false → never_done (mret r).
Proof. by intros H w r' w' [= <- <-]. Qed.
Lemma tool_run_done m w : never_done m → Tr_Done (tool_run m w).1 = false.
Proof. intros H. unfold tool_run. destruct (m w) as [[r|err] w'] eqn:Em; [by eapply H | done]. Qed.

Ltac not_done :=
  repeat first [ apply never_done_bind; intros | apply never_done_ret; reflexivity | progress cbv zeta
               | match goal with |- never_done (match ?x with _ => _ end) => destruct x end ].

Lemma search_done args : never_done (search e args).
Proof. unfold search. not_done. Qed.
Lemma findSymbol_done args : never_done (findSymbol e args).
Proof. unfold findSymbol. not_done. Qed.
Lemma impact_done args : never_done (impact e args).
Proof. unfold impact. not_done. Qed.
Lemma gitTouch_done args : never_done (gitTouch e args).
Proof. unfold gitTouch. not_done. Qed.
Lemma runRecipe_done spec wt args presets w : Tr_Done (runRecipe spec wt args presets w).1 = false.
Proof.
  unfold runRecipe. destruct spec as [spec|]; [|done]. destruct presets as [|p presets].
  - destruct (find _ _) as [r|]; [|done]. by destruct (run_one _ _ _ _).
  - destruct (run_presets _ _ _ _) as [results w']. by destruct results.
Qed.
Lemma unreadable_done a b err : Tr_Done (unreadable n_os_text a b err) = false.
Proof. unfold unreadable. destruct (is_outside err); [done |]. by destruct (is_not_exist err). Qed.
Lemma readFile_done f wt args : Tr_Done (readFile n_os_text f wt args) = false.
Proof.
  unfold readFile. destruct (ReadWithin _ _ _); [|apply unreadable_done]. cbv zeta.
  by destruct (window _ _ _) as [[[? ?] ?]|].
Qed.
Lemma writeFile_done f wt args : Tr_Done (writeFile n_os_text f wt args).1 = false.
Proof. unfold writeFile. destruct (StatWithin _ _ _); [done |]. by destruct (WriteWithin _ _ _ _) as [[|] ?]. Qed.
Lemma editFile_done f wt args : Tr_Done (editFile n_os_text f wt args).1 = false.
Proof.
  unfold editFile. destruct (ReadWithin _ _ _); [|apply unreadable_done]. destruct (String.eqb _ _); [done |].
  destruct (count_str _ _) as [|[|n]]; [done | |done]. by destruct (WriteWithin _ _ _ _) as [[|] ?].
Qed.
Lemma listFiles_done f wt args : Tr_Done (listFiles n_os_text f wt args) = false.
Proof. unfold listFiles. destruct (ListWithin _ _ _); [done |]. by destruct (is_outside _). Qed.

Lemma execute_done q call w : Tr_Done (execute e q call w).1 = true → TC_Name call = ToolDone.
Proof.
  unfold execute. destruct (if String.eqb _ _ then _ else _) as [args|err]; [|done]. cbv zeta.
  destruct (String.eqb (TC_Name call) ToolReadFile); [cbn; by rewrite readFile_done |].
  destruct (String.eqb (TC_Name call) ToolWriteFile).
  { unfold on_files. pose proof (writeFile_done w.1 (Q_Worktree q) (default ∅ args)) as H.
    destruct (writeFile _ _ _ _). cbn in *. congruence. }
  destruct (String.eqb (TC_Name call) ToolEditFile).
  { unfold on_files. pose proof (editFile_done w.1 (Q_Worktree q) (default ∅ args)) as H.
    destruct (editFile _ _ _ _). cbn in *. congruence. }
  destruct (String.eqb (TC_Name call) ToolListFiles); [cbn; by rewrite listFiles_done |].
  destruct (String.eqb (TC_Name call) ToolSearch); [rewrite tool_run_done; [done | apply search_done] |].
  destruct (String.eqb (TC_Name call) ToolFindSymbol); [rewrite tool_run_done; [done | apply findSymbol_done] |].
  destruct (String.eqb (TC_Name call) ToolImpact); [rewrite tool_run_done; [done | apply impact_done] |].
  destruct (String.eqb (TC_Name call) ToolRunRecipe); [by rewrite runRecipe_done |].
  destruct (String.eqb (TC_Name call) ToolGitTouch); [rewrite tool_run_done; [done | apply gitTouch_done] |].
  destruct (String.eqb_spec (TC_Name call) ToolDone); done.
Qed.

(** ** One call, one save *)

Section rules.
Context (R : result (list Operation) → Prop) (I J : Transcript → Prop).
Notation wp := (wpj R I J).

(** What the worktree is found to hold. *)
Definition measured (q : EngRequest) (c : string) : Prop := ∃ w : W, ContentManifest n_sha w.1 (Q_Worktree q) = Ok c.

Lemma wp_measure q Q tr : (∀ c, measured q c → Q (Ok c) tr) → (∀ err, Q (Err err) tr) → wp (manifest q) Q tr.
Proof.
  intros Hok Herr. unfold manifest. apply wp_bind, wp_look. intros w. apply wp_lift.
  destruct (ContentManifest _ _ _) as [c|err] eqn:Ec; [apply Hok; by exists w | apply Herr].
Qed.
Lemma wp_manifest q Q tr : (∀ r, Q r tr) → wp (manifest q) Q tr.
Proof. intros H. by apply wp_measure. Qed.

Lemma wp_exec q call Q tr : I tr →
  (∀ res, (Tr_Done res = true → TC_Name call = ToolDone) → Q (Ok res) tr) → (∀ err, Q (Err err) tr) →
  wp (exec e q call) Q tr.
Proof.
  intros Hi Hok Herr. unfold exec. apply wp_bind, wp_look. intros w.
  set (verdict := authorize _ _ _ _ _ _ _). clearbody verdict.
  assert (Hrun : ∀ Q', (∀ res, (Tr_Done res = true → TC_Name call = ToolDone) → Q' (Ok res) tr) →
    wp (match match verdict with Err e0 => Some e0 | Ok _ => None end with
        | Some d => mret (mk_tool_result true ("firewall: " +:+ err_msg d) true false false "")
        | None => act (execute e q call) end) Q' tr).
  { intros Q' HQ. destruct verdict as [[]|d]; [apply wp_act; intros w'; apply HQ, execute_done | by apply wp_ret, HQ]. }
  destruct (negb (Q_Journal q)); [by apply Hrun |].
  apply wp_bind, wp_manifest. intros [before|]; [|apply Herr].
  apply wp_bind, wp_act. intros w2. apply wp_bind, wp_transcript; [done |].
  apply wp_bind, wp_begin. intros [h|]; [|apply Herr]. apply wp_bind, Hrun. intros res Hres.
  apply wp_bind, wp_manifest. intros [after|]; [|apply Herr].
  apply wp_bind, wp_complete. intros [h'|]; [|apply Herr]. by apply wp_ret, Hok.
Qed.

Lemma wp_saved q Q tr : J tr → (∀ c, Q (Ok tt) (with_candidate c tr)) → (∀ err c, Q (Err err) (with_candidate c tr)) →
  wp (saved (G:=G) q) Q tr.
Proof.
  intros Hj Hok Herr. unfold saved. destruct (negb (Q_Transcript q)).
  - apply wp_ret. specialize (Hok (T_Candidate tr)). by destruct tr.
  - apply wp_bind, wp_save; [done |]. intros [err|] c; [by apply wp_fail | by apply wp_ret].
Qed.

Lemma wp_persist q ms Q tr : I (with_messages ms tr) → J (with_messages ms tr) →
  (∀ c, Q (Ok tt) (with_candidate c (with_messages ms tr))) → (∀ err c, Q (Err err) (with_candidate c (with_messages ms tr))) →
  wp (persist (G:=G) q ms) Q tr.
Proof. intros Hi Hj Hok Herr. unfold persist. apply wp_bind, wp_change; [done |]. by apply wp_saved. Qed.
End rules.

(** ** The loop's invariant *)

Section loop.
Context (q : EngRequest) (m : Z) (s0 : Transcript).
Notation I := (within m s0).
Notation wp := (wp (within m s0) sound).

(** Where a step ends, its transcript can be sent on; where it fails, it can be
    sent on or reconciled. *)
Definition ended (r : result EngResponse) (tr : Transcript) : Prop :=
  match r with Ok _ => sound tr ∧ T_Pending tr = false ∧ within m s0 tr | Err _ => sound tr end.

Lemma within_same tr tr' : I tr → Tools tr' = Tools tr → VerifyRuns tr' = VerifyRuns tr → InvalidCalls tr' = InvalidCalls tr →
  Steps tr' = Steps tr → I tr'.
Proof. intros [] H1 H2 H3 H4. split; congruence. Qed.

Lemma wp_finish lp ed tr : I tr → T_Pending tr = false → conversation (lp_messages lp) → wp (finish (G:=G) q lp ed) ended tr.
Proof.
  intros Hi Hp Hc. unfold finish. apply wp_bind, wp_change; [by eapply within_same |].
  apply wp_bind, wp_persist; [by eapply within_same | unfold sound; cbn; by rewrite Hp | |intros err c; unfold ended, sound; cbn; by rewrite Hp].
  intros c. apply wp_ret. cbn. unfold sound. cbn. rewrite Hp. split_and!; [done..|]. by eapply within_same.
Qed.

Lemma conversation_answered before b ran replies :
  conversation before → Role b = "assistant" → ToolCalls b ≠ [] → ToolCalls b = ran → Forall2 answers_call ran replies →
  conversation (before ++ b :: replies).
Proof. intros Hb Hr Hne <- Hf. by apply conv_batch. Qed.

Lemma answers_tool call content : answers_call call (tool_message call content).
Proof. done. Qed.

Lemma unused_answer calls : Forall2 answers_call calls (unused <$> calls).
Proof. induction calls; by constructor. Qed.

Lemma spent_out_false tr call : spent_out tr call = false →
  (Tools tr < 40 ∧ InvalidCalls tr < 3)%Z ∧ (TC_Name call = ToolRunRecipe → (VerifyRuns tr < 3)%Z).
Proof.
  unfold spent_out. rewrite !orb_false_iff, !Z.leb_gt, andb_false_iff. intros [[? Hv] ?]. split; [lia |].
  intros Hn. rewrite Hn in Hv. destruct Hv as [Hv|Hv]; [done |]. by apply Z.leb_gt in Hv.
Qed.
Lemma within_count call res tr tr' : I tr → spent_out tr call = false → Tools tr' = (Tools tr + 1)%Z →
  VerifyRuns tr' = (if String.eqb (TC_Name call) ToolRunRecipe then VerifyRuns tr + 1 else VerifyRuns tr)%Z →
  InvalidCalls tr' = (if Tr_Invalid res then InvalidCalls tr + 1 else InvalidCalls tr)%Z → Steps tr' = Steps tr → I tr'.
Proof.
  intros [] [[? ?] Hv]%spent_out_false H1 H2 H3 H4. split; [lia | rewrite H2 | rewrite H3; destruct (Tr_Invalid res); lia | lia].
  destruct (String.eqb_spec (TC_Name call) ToolRunRecipe) as [Hr|]; [specialize (Hv Hr); lia | lia].
Qed.

(** After the calls of a batch: the step is over, or the batch is answered. *)
Definition after_calls (r : result (EngResponse + Loop * bool)) (tr : Transcript) : Prop :=
  match r with
  | Ok (inl resp) => ended (Ok resp) tr
  | Ok (inr (lp, _)) => I tr ∧ T_Pending tr = false ∧ sound tr ∧ conversation (lp_messages lp)
  | Err _ => sound tr
  end.

Lemma wp_finish_calls lp ed tr : I tr → T_Pending tr = false → conversation (lp_messages lp) →
  wp (inl <$> finish (G:=G) q lp ed : proc W (EngResponse + Loop * bool)) after_calls tr.
Proof. intros Hi Hp Hc. apply wp_fmap. eapply wp_mono; [by apply wp_finish |]. by intros [resp|] tr'. Qed.

Lemma wp_run_calls before b calls : ∀ ran replies learnt lp tr,
  conversation before → Role b = "assistant" → ToolCalls b ≠ [] → ToolCalls b = ran ++ calls →
  (1 < length (ToolCalls b) → ∀ c, c ∈ ToolCalls b → TC_Name c ≠ ToolDone) →
  Forall2 answers_call ran replies → lp_messages lp = before ++ b :: replies →
  I tr → (calls = [] → T_Pending tr = false ∧ sound tr) →
  wp (run_calls e q calls learnt lp) after_calls tr.
Proof.
  induction calls as [|call calls IH]; intros ran replies learnt lp tr Hb Hr Hne Hs Hdone Hf Hm Hi Hp; cbn [run_calls].
  { apply wp_ret. cbn. destruct (Hp eq_refl). split_and!; [done..|]. rewrite Hm. rewrite app_nil_r in Hs. by eapply conversation_answered. }
  apply wp_bind, wp_transcript; [done |].
  destruct (spent_out tr call) eqn:Esp.
  { apply wp_bind, wp_change; [by eapply within_same |]. apply wp_finish_calls; [by eapply within_same | done |].
    cbn. rewrite Hm, <- app_assoc. cbn [app]. eapply conversation_answered; [done..|]. apply Forall2_app; [done |].
    apply unused_answer. }
  apply wp_bind, wp_change; [by eapply within_same |].
  assert (Hopen : ∀ c, sound (with_candidate c (with_messages (lp_messages lp) (with_pending true tr)))).
  { intros c. unfold sound. cbn. exists before, b, replies, (call :: calls). split_and!; [done..|]. by exists ran. }
  apply wp_bind, wp_persist; [by eapply within_same | apply (Hopen "") | |intros err c; apply Hopen].
  intros c0. apply wp_bind, wp_wrap, wp_exec; [by eapply within_same | |intros err; apply Hopen]. intros res Hres. cbn [wrap_r].
  destruct (observe _ _ _ _ _ _) as [[v times] prog]. apply wp_bind, wp_act. intros w.
  apply wp_bind, wp_change; [by eapply within_count |].
  set (reply := tool_message call _).
  assert (Hf' : Forall2 answers_call (ran ++ [call]) (replies ++ [reply])) by (apply Forall2_app; [done |]; by repeat constructor).
  assert (Hs' : ToolCalls b = (ran ++ [call]) ++ calls) by (by rewrite <- app_assoc).
  assert (Hm' : ∀ l, lp_messages lp ++ [l] = before ++ b :: (replies ++ [l])) by (intros l; by rewrite Hm, <- app_assoc).
  destruct (Tr_Done res) eqn:Ed.
  { assert (calls = []) as ->.
    { destruct calls as [|c2 calls]; [done |]. exfalso. apply (Hdone ltac:(rewrite Hs, length_app; cbn; lia) call); [|by apply Hres].
      rewrite Hs. set_solver. }
    apply wp_finish_calls; [by eapply within_count | done |]. cbn [lp_messages]. rewrite Hm'.
    eapply conversation_answered; [done..| |done]. by rewrite app_nil_r in Hs'. }
  assert (Hkept : ∀ c, sound (with_candidate c (with_messages (lp_messages lp ++ [reply])
      (count_call call res (with_pending (0 <? length calls) (with_candidate c0 (with_messages (lp_messages lp) (with_pending true tr)))))))).
  { intros c. unfold sound. cbn -[reply]. rewrite Hm'. destruct calls as [|c2 calls]; cbn.
    - eapply conversation_answered; [done..| |done]. by rewrite app_nil_r in Hs'.
    - exists before, b, (replies ++ [reply]), (c2 :: calls). split_and!; [done..|]. by exists (ran ++ [call]). }
  apply wp_bind, wp_persist; [by eapply within_count | apply (Hkept "") | |intros err c; apply Hkept].
  intros c'. apply (IH (ran ++ [call]) (replies ++ [reply])); try done; [cbn; by rewrite Hm' | by eapply within_count |].
  intros ->. split; [done |]. unfold sound. cbn -[reply]. rewrite Hm'. eapply conversation_answered; [done..| |done].
  by rewrite app_nil_r in Hs'.
Qed.

Lemma wp_steps n : ∀ step lp tr, I tr → T_Pending tr = false → sound tr → conversation (lp_messages lp) →
  (step + Z.of_nat n - 1 ≤ Z.max m (Steps s0))%Z → wp (steps e q n step lp) ended tr.
Proof.
  induction n as [|n IH]; intros step lp tr Hi Hp Hs Hc Hle; cbn [steps]; [by apply wp_finish |].
  apply wp_bind, wp_ctx. intros [err|]; [apply wp_ret; by split_and! |]. cbv zeta.
  destruct (output_limit _ _ _ _) as [why|limit]; [by apply wp_finish |].
  apply wp_bind, wp_wrap, wp_bind, wp_act. intros w. apply wp_lift.
  destruct (n_chat _ w).1 as [out|err]; [|done]. cbn [wrap_r].
  assert (Hi' : I (with_step step (tokens_of (estimateTokens (lp_messages lp) (T_Def <$> tools e q)) out) tr)).
  { destruct Hi. split; cbn; lia. }
  apply wp_bind, wp_change; [done |].
  destruct (WantsTools out) eqn:Ew; cbn [negb].
  2:{ apply wp_finish; [done..|]. by apply conv_say. }
  destruct (_ && _) eqn:Ed; [done |].
  apply wp_bind. eapply wp_mono; [eapply (wp_run_calls (lp_messages lp)
    (mk_llm_message "assistant" (Cr_Content out) "" "" (Cr_ToolCalls out)) (Cr_ToolCalls out) [] []) |]; try done.
  - unfold WantsTools in Ew. cbn. by destruct (Cr_ToolCalls out).
  - intros Hlen c Hin Hn. apply andb_false_iff in Ed as [Ed|Ed]; [apply Nat.ltb_ge in Ed; cbn in Hlen; lia |].
    apply not_true_iff_false in Ed. apply Ed, existsb_exists. exists c. split; [by apply list_elem_of_In | by rewrite Hn].
  - cbn beta. intros [[resp|[lp' learnt]]|err] tr' H; [by apply wp_ret | | done].
    destruct H as (Hi2 & Hp2 & Hs2 & Hc2). destruct (stuck _ _); [by apply wp_finish |]. apply IH; [done..|lia].
Qed.

Lemma wp_opening Q tr : I tr → conversation (T_Messages tr) →
  (∀ ms token, conversation ms → Q (Ok ms) (with_token token tr)) → (∀ err, Q (Err err) tr) → wp (opening q) Q tr.
Proof.
  intros Hi Hc Hok Herr. unfold opening. apply wp_bind, wp_transcript; [done |].
  destruct (T_Messages tr) as [|x ms] eqn:Em.
  - apply wp_bind, wp_act. intros w. apply wp_bind, wp_change; [by eapply within_same |]. apply wp_ret, Hok.
    apply (conv_say [_]); [|done..]. by apply (conv_say []); [apply conv_nil |..].
  - apply wp_bind, wp_lift. destruct (RestoreFence _) as [f|err]; [|done].
    apply wp_bind, wp_act. intros w. apply wp_ret. specialize (Hok (x :: ms) (T_FenceToken tr) Hc). by destruct tr.
Qed.
End loop.

(** ** Reconciliation *)

Lemma last_batch_at before b replies : has_calls b = true → Forall (λ x, ToolCalls x = []) replies →
  last_batch (before ++ b :: replies) = Some (b, replies).
Proof.
  intros Hb Hr. induction before as [|x before IH]; cbn [app last_batch]; [|by rewrite IH].
  assert (last_batch replies = None) as ->; [|by rewrite Hb]. clear Hb. induction Hr as [|x l Hx _ IH]; [done |]. cbn [last_batch].
  rewrite IH. unfold has_calls. by rewrite Hx, andb_false_r.
Qed.

Lemma answered_spec ran replies id : Forall2 answers_call ran replies → answered replies id = true ↔ id ∈ TC_ID <$> ran.
Proof.
  induction 1 as [|c r ran replies (Hr & Hid & _) _ IH]; [by cbn; rewrite elem_of_nil |].
  unfold answered in *. cbn [existsb]. rewrite fmap_cons, orb_true_iff, IH, elem_of_cons, Hr, Hid. cbn.
  rewrite String.eqb_eq. naive_solver.
Qed.

(** The record of a call: the last operation of the journal that names it. *)
Definition record_of (tr : Transcript) (ops : list Operation) (c : ToolCall) (op : Operation) : Prop :=
  ∃ before after, ops = before ++ op :: after ∧ records tr c op = true ∧ Forall (λ o, records tr c o = false) after.
Definition unrecorded (tr : Transcript) (ops : list Operation) (c : ToolCall) : Prop := Forall (λ o, records tr c o = false) ops.

Lemma match_op_some tr ops c op : match_op tr ops c = Some op → record_of tr ops c op.
Proof.
  unfold match_op. induction ops as [|o ops IH] using rev_ind; [done |]. rewrite reverse_snoc. cbn [List.find].
  destruct (records tr c o) eqn:Er; [intros [= <-]; by exists ops, [] |].
  intros (before & after & -> & Hr & Hf)%IH. exists before, (after ++ [o]). split_and!; [by rewrite <- app_assoc | done |].
  apply Forall_app_2; [done | by constructor].
Qed.
Lemma match_op_none tr ops c : match_op tr ops c = None → unrecorded tr ops c.
Proof.
  unfold match_op, unrecorded. intros H. apply Forall_forall. intros o Ho. apply (find_none _ _ H). apply list_elem_of_In. by apply elem_of_reverse.
Qed.

Lemma record_match tr ops c op : record_of tr ops c op → match_op tr ops c = Some op.
Proof.
  unfold match_op. intros (before & after & -> & Hr & Hf). rewrite reverse_app, reverse_cons. rewrite <- app_assoc.
  assert (Hskip : ∀ l k, Forall (λ o, records tr c o = false) l → List.find (records tr c) (l ++ k) = List.find (records tr c) k).
  { intros l k. induction 1 as [|o l Ho _ IH]; [done |]. cbn. by rewrite Ho. }
  rewrite Hskip by (by apply Forall_reverse). cbn. by rewrite Hr.
Qed.
Lemma unrecorded_match tr ops c : unrecorded tr ops c → match_op tr ops c = None.
Proof.
  unfold match_op, unrecorded. intros H. apply Forall_reverse in H. induction H as [|o l Ho _ IH]; [done |]. cbn. by rewrite Ho.
Qed.

(** What is found of a call: nothing, or an operation that recorded its result. *)
Notation finding := (option (Operation * ToolResult)).
Definition found (tr : Transcript) (ops : list Operation) (c : ToolCall) (f : finding) : Prop :=
  match f with
  | None => unrecorded tr ops c
  | Some (op, res) => record_of tr ops c op ∧ Uncertain op = false ∧ Op_Outcome op ≫= decode_result = Some res
  end.
Definition answer_of (fence : Fence) (c : ToolCall) (f : finding) : Message :=
  match f with
  | Some (op, res) => result_message fence c (Tr_Content res)
  | None => tool_message c "Not executed: process stopped before this action was journalled."
  end.
(** The calls that were recorded, with their results. *)
Definition hits (calls : list ToolCall) (fs : list finding) : list (ToolCall * ToolResult) :=
  omap (λ x : ToolCall * finding, (λ f : Operation * ToolResult, (x.1, f.2)) <$> x.2) (zip calls fs).
(** Each recorded action began on the content the one before it left. *)
Fixpoint chained (c : string) (fs : list finding) (c' : string) : Prop :=
  match fs with
  | [] => c' = c
  | Some (op, _) :: fs => CandidateBefore op = c ∧ chained (CandidateAfter op) fs c'
  | None :: fs => chained c fs c'
  end.
Definition missed (fs : list finding) : bool := existsb (λ f, bool_decide (f = None)) fs.

#[local] Instance finding_none_dec (f : finding) : Decision (f = None).
Proof. destruct f; [by right | by left]. Defined.

(** What is recovered of the calls that have no answer. *)
Lemma recover_calls_found fence tr ops after calls rv rv' :
  recover_calls fence tr ops after calls rv = Ok rv' →
  let rest := List.filter (λ c, negb (answered after (TC_ID c))) calls in
  ∃ fs, Forall2 (found tr ops) rest fs ∧ chained (rv_candidate rv) fs (rv_candidate rv') ∧
    rv_messages rv' = rv_messages rv ++ zip_with (answer_of fence) rest fs ∧
    rv_results rv' = rv_results rv ++ hits rest fs ∧ rv_boundary rv' = rv_boundary rv || missed fs.
Proof.
  revert rv. induction calls as [|c calls IH]; intros rv; cbn [recover_calls List.filter].
  { intros [= <-]. exists []. cbn. rewrite !app_nil_r, orb_false_r. by split_and!. }
  destruct (answered after (TC_ID c)); cbn [negb]; [apply IH |].
  destruct (match_op tr ops c) as [op|] eqn:Em.
  - apply match_op_some in Em. destruct (Uncertain op) eqn:Eu; [done |]. destruct (Op_Outcome op ≫= decode_result) as [res|] eqn:Ed; [|done].
    destruct (negb _) eqn:Eb; [done |]. apply negb_false_iff, String.eqb_eq in Eb.
    intros (fs & Hf & Hc & Hm & Hx & Hb)%IH. exists (Some (op, res) :: fs). cbn in Hm, Hx, Hb, Hc |- *.
    rewrite <- !app_assoc in *. split_and!; [by constructor | done | done | done | done | done].
  - apply match_op_none in Em. intros (fs & Hf & Hc & Hm & Hx & Hb)%IH. exists (None :: fs). cbn in Hm, Hx, Hb, Hc |- *.
    rewrite <- !app_assoc in *. split_and!; [by constructor | done | done | done |]. rewrite Hb. by destruct (rv_boundary rv).
Qed.

(** The journal is all that recovery of the calls depends on. *)
Lemma recover_calls_total fence tr ops after calls : ∀ rv fs c,
  Forall2 (found tr ops) (List.filter (λ c, negb (answered after (TC_ID c))) calls) fs → chained (rv_candidate rv) fs c →
  ∃ rv', recover_calls fence tr ops after calls rv = Ok rv' ∧ rv_candidate rv' = c.
Proof.
  induction calls as [|x calls IH]; intros rv fs c; cbn [recover_calls List.filter].
  { intros ->%Forall2_nil_inv_l ->. by exists rv. }
  destruct (answered after (TC_ID x)); cbn [negb]; [by apply IH |].
  intros (f & fs' & Hf & Hfs & ->)%Forall2_cons_inv_l Hc. destruct f as [[op res]|].
  - destruct Hf as (->%record_match & -> & ->). cbn in Hc. destruct Hc as [-> Hc]. rewrite String.eqb_refl. cbn [negb]. by eapply IH.
  - rewrite unrecorded_match by done. cbn in Hc. by eapply IH.
Qed.

Lemma answers_of fence calls fs : length fs = length calls → Forall2 answers_call calls (zip_with (answer_of fence) calls fs).
Proof.
  revert fs. induction calls as [|c calls IH]; intros [|f fs]; cbn; try done. intros [= H]. constructor; [by destruct f as [[op res]|] | by apply IH].
Qed.

(** How many of the calls that were recorded there are of a kind. *)
Definition tally (P : ToolCall * ToolResult → bool) (xs : list (ToolCall * ToolResult)) : Z := Z.of_nat (length (List.filter P xs)).
Definition verifies (x : ToolCall * ToolResult) : bool := String.eqb (TC_Name x.1) ToolRunRecipe.
Definition invalid (x : ToolCall * ToolResult) : bool := Tr_Invalid x.2.
Definition finishes (x : ToolCall * ToolResult) : bool := Tr_Done x.2.

Lemma tally_cons P x xs : tally P (x :: xs) = ((if P x then 1 else 0) + tally P xs)%Z.
Proof. unfold tally. cbn [List.filter]. destruct (P x); cbn [length]; lia. Qed.

(** A transcript's counters after results were counted into it. *)
Record counted (tr : Transcript) (xs : list (ToolCall * ToolResult)) (tr' : Transcript) : Prop := {
  ct_messages : T_Messages tr' = T_Messages tr; ct_steps : Steps tr' = Steps tr;
  ct_tools : Tools tr' = (Tools tr + Z.of_nat (length xs))%Z;
  ct_verify : VerifyRuns tr' = (VerifyRuns tr + tally verifies xs)%Z;
  ct_invalid : InvalidCalls tr' = (InvalidCalls tr + tally invalid xs)%Z;
  ct_closed : Closed tr' = Closed tr || existsb finishes xs;
  ct_claims : ClaimsDone tr' = ClaimsDone tr || existsb finishes xs;
  ct_budget : BudgetExhausted tr' = BudgetExhausted tr }.

Lemma recount_exact xs tr : counted tr xs (foldl recount tr xs).
Proof.
  revert tr. induction xs as [|x xs IH]; intros tr; cbn [foldl]; [split; cbn; rewrite ?orb_false_r; unfold tally; cbn; (done || lia) |].
  destruct (IH (recount tr x)) as [E1 E2 E3 E4 E5 E6 E7 E8]. clear IH.
  assert (H : counted tr [x] (recount tr x)).
  { unfold recount. split; rewrite ?tally_cons; unfold tally, finishes, verifies, invalid; cbn [existsb length List.filter];
      destruct (Tr_Done x.2); cbn; rewrite ?orb_false_r, ?orb_true_r; try done;
      try (destruct (String.eqb (TC_Name x.1) ToolRunRecipe); lia); destruct (Tr_Invalid x.2); lia. }
  destruct H as [H1 H2 H3 H4 H5 H6 H7 H8]. rewrite tally_cons in H4, H5. cbn [existsb length] in *. rewrite orb_false_r in H6, H7.
  change (tally verifies []) with 0%Z in H4. change (tally invalid []) with 0%Z in H5.
  split; rewrite ?tally_cons; cbn [existsb length]; try congruence; try lia; by rewrite ?E6, ?E7, ?H6, ?H7, orb_assoc.
Qed.

Lemma filter_unanswered ran rest replies : NoDup (TC_ID <$> ran ++ rest) → Forall2 answers_call ran replies →
  List.filter (λ c, negb (answered replies (TC_ID c))) (ran ++ rest) = rest.
Proof.
  intros Hnd Hf. rewrite List.filter_app. rewrite fmap_app in Hnd. apply NoDup_app in Hnd as (_ & Hd & _).
  assert (Hran : ∀ l, (∀ c, c ∈ l → c ∈ ran) → List.filter (λ c, negb (answered replies (TC_ID c))) l = []).
  { induction l as [|c l IH]; intros Hl; [done |]. cbn.
    assert (answered replies (TC_ID c) = true) as -> by (rewrite (answered_spec _ _ _ Hf); apply list_elem_of_fmap; exists c; set_solver).
    cbn. apply IH. set_solver. }
  rewrite (Hran ran) by done. cbn [app].
  assert (Hrest : ∀ l, (∀ c, c ∈ l → c ∈ rest) → List.filter (λ c, negb (answered replies (TC_ID c))) l = l).
  { induction l as [|c l IH]; intros Hl; [done |]. cbn.
    assert (answered replies (TC_ID c) = false) as ->.
    { apply not_true_iff_false. rewrite (answered_spec _ _ _ Hf). intros Hin. apply (Hd _ Hin).
      apply list_elem_of_fmap. exists c. set_solver. }
    cbn. f_equal. apply IH. set_solver. }
  by apply Hrest.
Qed.

(** What recovery makes of a transcript whose calls [rest] have no answer, when
    the journal is [ops] and [fs] is what it says of them. *)
Record recovered (q : EngRequest) (tr : Transcript) (ops : list Operation) (rest : list ToolCall) (fs : list finding) (tr' : Transcript) : Prop := {
  rc_found : Forall2 (found tr ops) rest fs;
  rc_chain : ∃ c, measured q c ∧ c ≠ "" ∧ chained (T_Candidate tr) fs c;
  rc_messages : ∃ fence, RestoreFence (T_FenceToken tr) = Ok fence ∧ T_Messages tr' = T_Messages tr ++ zip_with (answer_of fence) rest fs;
  rc_tools : Tools tr' = (Tools tr + Z.of_nat (length (hits rest fs)))%Z;
  rc_verify : VerifyRuns tr' = (VerifyRuns tr + tally verifies (hits rest fs))%Z;
  rc_invalid : InvalidCalls tr' = (InvalidCalls tr + tally invalid (hits rest fs))%Z;
  rc_steps : Steps tr' = Steps tr;
  rc_claims : ClaimsDone tr' = ClaimsDone tr || existsb finishes (hits rest fs);
  rc_closed : Closed tr' = Closed tr || existsb finishes (hits rest fs) || missed fs;
  rc_budget : BudgetExhausted tr' = BudgetExhausted tr || missed fs;
  rc_pending : T_Pending tr' = false }.

Lemma wp_reconcile q R I J Q tr b replies rest :
  I tr → (∀ ops fs tr', R (Ok ops) → recovered q tr ops rest fs tr' → I tr' ∧ J tr' ∧ Q (Ok tt) tr' ∧ ∀ err, Q (Err err) tr') →
  (∀ err, Q (Err err) tr) →
  last_batch (T_Messages tr) = Some (b, replies) →
  List.filter (λ c, negb (answered replies (TC_ID c))) (ToolCalls b) = rest →
  wpj R I J (reconcile (G:=G) q) Q tr.
Proof.
  intros Hi Hok Herr Hb Hrest. unfold reconcile. apply wp_bind, wp_transcript; [done |].
  destruct (negb (Q_Journal q)); [by apply wp_fail |].
  apply wp_bind, wp_lift. destruct (RestoreFence _) as [fence|err] eqn:Efence; [|done].
  apply wp_bind, wp_act. intros _. apply wp_bind, wp_measure; [|done]. intros current Hcur. rewrite Hb.
  apply wp_bind, wp_operations. intros [ops|err] HR; [|done].
  apply wp_bind, wp_lift. destruct (recover_calls _ _ _ _ _ _) as [rv|err] eqn:Er; [|done].
  destruct (_ || _) eqn:Ec; [by apply wp_fail |].
  apply orb_false_iff in Ec as [Hne%String.eqb_neq Heq%negb_false_iff%String.eqb_eq].
  apply recover_calls_found in Er as (fs & Hf & Hch & Hm & Hx & Hbd). rewrite Hrest in Hf, Hm, Hx. cbn in Hm, Hx, Hbd, Hch.
  assert (Hall : ∀ c, let tr' := with_candidate c (reconciled current rv tr) in I tr' ∧ J tr' ∧ Q (Ok tt) tr' ∧ ∀ err, Q (Err err) tr').
  { intros c. apply (Hok ops fs); [done |]. destruct (recount_exact (rv_results rv) (tr_append (rv_messages rv) tr)) as [E1 E2 E3 E4 E5 E6 E7 E8].
    rewrite Hx in *. unfold reconciled. rewrite Hx, Hbd. cbn in *. split; cbn; try done.
    - exists current. split_and!; [done | congruence | by rewrite <- Heq].
    - exists fence. split; [done |]. by rewrite E1, Hm.
    - by rewrite E6.
    - by rewrite E8. }
  assert (Hself : ∀ t : Transcript, with_candidate (T_Candidate t) t = t) by (by intros []).
  apply wp_bind, wp_change.
  { rewrite <- (Hself (reconciled current rv tr)). apply Hall. }
  apply wp_saved; [|intros c; apply Hall | intros err c; apply Hall].
  rewrite <- (Hself (reconciled current rv tr)). apply Hall.
Qed.

Lemma recovered_conversation q tr ops rest fs tr' : recovered q tr ops rest fs tr' →
  ∃ ms, T_Messages tr' = T_Messages tr ++ ms ∧ Forall2 answers_call rest ms.
Proof.
  intros H. destruct (rc_messages _ _ _ _ _ _ H) as (fence & _ & Hm). eexists. split; [exact Hm |].
  apply answers_of. symmetry. eapply Forall2_length, (rc_found _ _ _ _ _ _ H).
Qed.

Lemma reconcile_untouched q : untouched (reconcile (G:=G) q).
Proof.
  unfold reconcile, saved, manifest, set_fence, look, act, operations_now, transcript, change, save_now, pfail, plift.
  unfold mbind, proc_mbind. cbn [proc_bind untouched]. intros tr. destruct (negb (Q_Journal q)); [done |]. cbn.
  destruct (RestoreFence _) as [fence|]; [|done]. cbn. intros w. split; [done |]. intros w2. split; [done |].
  destruct (ContentManifest _ _ _) as [current|]; [|done]. cbn. destruct (last_batch _) as [[b replies]|]; [|done].
  cbn. intros [ops|]; [|done]. destruct (recover_calls _ _ _ _ _ _) as [rv|]; [|done]. cbn. destruct (_ || _); [done |].
  cbn. intros _. destruct (negb (Q_Transcript q)); [done |]. cbn. by intros [err|].
Qed.

Lemma half_answered_batch tr : half_answered (T_Messages tr) →
  (∀ b replies, last_batch (T_Messages tr) = Some (b, replies) → NoDup (TC_ID <$> ToolCalls b)) →
  ∃ b replies rest, last_batch (T_Messages tr) = Some (b, replies) ∧
    List.filter (λ c, negb (answered replies (TC_ID c))) (ToolCalls b) = rest ∧
    ∀ ms, Forall2 answers_call rest ms → conversation (T_Messages tr ++ ms).
Proof.
  intros (before & b & replies & rest & Hm & Hc & Hr & Hne & ran & Hs & Hf) Hnd.
  assert (Hl : last_batch (T_Messages tr) = Some (b, replies)).
  { rewrite Hm. apply last_batch_at.
    - unfold has_calls. rewrite Hr. by destruct (ToolCalls b).
    - apply Forall_forall. intros x Hx. apply list_elem_of_lookup in Hx as [i Hi].
      eapply Forall2_lookup_r in Hf as (c & _ & _ & _ & ?); [done | exact Hi]. }
  exists b, replies, rest. split; [done |]. specialize (Hnd _ _ Hl). rewrite Hs in Hnd |- *.
  split; [by apply filter_unanswered |]. intros ms Hms. rewrite Hm, <- app_assoc. cbn [app].
  apply conv_batch; [done..|]. rewrite Hs. by apply Forall2_app.
Qed.

(** ** What a step keeps *)

Lemma wp_Step_from q m s0 tr : within m s0 tr → (max_steps e q ≤ m)%Z → T_Pending tr = false → conversation (T_Messages tr) →
  wp (within m s0) sound (go_on e q tr) (ended m s0) tr.
Proof.
  intros Hi Hm Hp Hc. unfold go_on. destruct (Closed tr).
  { apply wp_ret. cbn. unfold sound. by rewrite Hp. }
  apply wp_bind, wp_opening; [done..| |intros err; unfold ended, sound; by rewrite Hp]. intros ms token Hms.
  apply wp_bind, wp_persist; [by eapply within_same | unfold sound; cbn; by rewrite Hp | |intros err c; unfold ended, sound; cbn; by rewrite Hp].
  intros c. apply wp_bind, wp_transcript; [by eapply within_same |].
  apply wp_steps; cbn [T_Pending Steps with_candidate with_messages with_token];
    [by eapply within_same | done | unfold sound; cbn; by rewrite Hp | done |].
  destruct Hi as [_ _ _ Hs].
  destruct (Z.le_gt_cases (Steps tr) (max_steps e q)); lia.
Qed.

Lemma wp_Step q tr :
  sound tr → (T_Pending tr = true → ∀ b replies, last_batch (T_Messages tr) = Some (b, replies) → NoDup (TC_ID <$> ToolCalls b)) →
  wp (λ _, True) sound (Step e q)
    (λ r tr', sound tr' ∧ ∀ resp, r = Ok resp → T_Pending tr' = false) tr.
Proof.
  intros Hs Hnd. unfold Step. destruct (match Q_Phase q with Some _ => _ | None => _ end); [done |].
  assert (Hgo : ∀ t, T_Pending t = false → conversation (T_Messages t) → wp (λ _, True) sound (go_on e q t)
      (λ r tr', sound tr' ∧ ∀ resp, r = Ok resp → T_Pending tr' = false) t).
  { intros t Hp Hc. eapply wp_weaken; [done | done |]. eapply wp_mono; [apply (wp_Step_from q (max_steps e q) t t); try done; split; lia |].
    intros [resp|err] tr'; [|done]. by intros (? & ? & _). }
  assert (Hall : ∀ t, sound t →
    (T_Pending t = true → ∀ b replies, last_batch (T_Messages t) = Some (b, replies) → NoDup (TC_ID <$> ToolCalls b)) →
    wp (λ _, True) sound (resume e q)
      (λ r tr', sound tr' ∧ ∀ resp, r = Ok resp → T_Pending tr' = false) t).
  { intros t Ht Hnd'. unfold resume. apply wp_bind, wp_transcript; [done |]. pose proof Ht as Ht0. unfold sound in Ht. destruct (T_Pending t) eqn:Ep.
    - destruct (half_answered_batch t Ht (Hnd' eq_refl)) as (b & replies & rest & Hb & Hrest & Hclose).
      apply wp_bind. eapply (wp_reconcile q _ _ _ _ t b replies rest); try done.
      intros ops fs t' _ Hrec. pose proof (rc_pending _ _ _ _ _ _ Hrec) as Hp'.
      destruct (recovered_conversation _ _ _ _ _ _ Hrec) as (ms & Hm' & Hf). assert (conversation (T_Messages t')) by (rewrite Hm'; by apply Hclose).
      assert (sound t') by (unfold sound; by rewrite Hp'). split_and!; [done..| |done]. apply wp_bind, wp_transcript; [done |]. by apply Hgo.
    - apply wp_bind, wp_ret, wp_bind, wp_transcript; [done |]. by apply Hgo. }
  destruct (Q_Transcript q).
  - apply wp_bind, wp_ret. by apply Hall.
  - apply wp_bind, wp_change; [done |]. apply Hall; [apply conv_nil | done].
Qed.

(** C9: A crash never leaves a conversation no provider accepts.  At every moment
    a step of the engine saves its transcript, and when it ends, with or
    without an error, the conversation is either complete - every message that
    asks for tools is followed by one answer to each of its calls, in order - or
    marked as pending, and then only its last batch lacks answers; a pending
    transcript is reconciled before anything else, and a step that ends without
    error leaves none.  This holds whatever the model asks, the tools return and
    the journal or the disk refuse; the calls of a pending batch have distinct
    identifiers. *)
Theorem Step_conversation q tr :
  sound tr → (T_Pending tr = true → ∀ b replies, last_batch (T_Messages tr) = Some (b, replies) → NoDup (TC_ID <$> ToolCalls b)) →
  wp (λ _, True) sound (Step e q)
    (λ r tr', sound tr' ∧ ∀ resp, r = Ok resp → T_Pending tr' = false) tr.
Proof. apply wp_Step. Qed.

(** C11: Recovery of an interrupted batch follows the journal, and executes nothing
    and writes nothing to the worktree.  When it succeeds, each call of the batch
    that had no answer has exactly one, in order: the recorded result, where the
    journal's last operation for the call has an outcome, and a notice that it
    was not executed, where no operation records it; a call whose outcome is
    uncertain, or whose record does not begin on the content the one before it
    left, makes recovery fail, as does a worktree that is not as the last record
    left it.  Exactly the recorded calls are counted - as tool calls, as
    verification runs, as invalid ones -, no step is added, the phase is marked as
    done exactly where a recorded call declared it, and if some call had never
    been recorded it is closed with its budget exhausted.  The journal stands in
    the way of recovery for no other reason. *)
Theorem reconcile_closes q tr ops b replies rest :
  last_batch (T_Messages tr) = Some (b, replies) →
  List.filter (λ c, negb (answered replies (TC_ID c))) (ToolCalls b) = rest →
  untouched (reconcile (G:=G) q) ∧
  wpj (λ journal, journal = Ok ops) (λ _, True) (λ _, True) (reconcile (G:=G) q)
    (λ r tr', r = Ok tt → ∃ fs, recovered q tr ops rest fs tr') tr ∧
  ∀ fence fs c, Forall2 (found tr ops) rest fs → chained (T_Candidate tr) fs c →
    ∃ rv, recover_calls fence tr ops replies (ToolCalls b) (mk_recovery [] [] (T_Candidate tr) false) = Ok rv ∧ rv_candidate rv = c.
Proof.
  intros Hb Hrest. split; [apply reconcile_untouched |]. split; [|intros fence fs c Hf Hc; apply (recover_calls_total _ _ _ _ _ (mk_recovery [] [] (T_Candidate tr) false) fs); [by rewrite Hrest | done]].
  eapply wp_reconcile; [done | | done | exact Hb | exact Hrest].
  intros ops' fs tr' [= ->] Hrec. split_and!; [done..| |done]. intros _. by exists fs.
Qed.



End native_loop.

(** ** Witnesses *)

(** An engine with no optional part, whose model gives up at once. *)
#[export] Instance demo_native : NativeEnv Fence := {|
  n_chat _ w := (Ok (mk_chatr "nothing to do" "" 0 0 "stop" []), w);
  n_retrieve _ w := (Err (errorf "no index"), w); n_nodes _ _ _ w := (Ok [], w);
  n_impact _ _ w := (Err (errorf "no index"), w); n_neighbors _ _ _ w := (Ok [], w);
  n_node _ w := (Err (errorf "no index"), w); n_sandbox := None; n_put := None; n_duration _ := "";
  n_decode_event _ := None; n_decode_semgrep _ := None; n_decode_golangci _ := None; n_look_path _ := false;
  n_random w := (None, w); n_fence f := f; n_set_fence f _ := f;
  n_unmarshal t := if String.eqb t "" then Err (errorf "unexpected end of JSON input") else Ok (JObj demo_args); n_range := map_to_list; n_range_seen := map_to_list; n_os_text := err_msg;
  n_sha := id; n_digest := id; n_show_plan _ := ""; n_system := "edit" |}.
Definition demo_conf : EngineConf := mk_engine 20 0 0 "" 0 false false.
Definition demo_request : EngRequest :=
  mk_engrequest "t1" "rename" "/wt" (mk_packet [] 0 [] None) [] 1 [] (Some Edit) None demo_access (mk_ebudget 0 0 0 0 0)
    true true None.
Definition demo_batch : Message := mk_llm_message "assistant" "" "" "" [demo_call].
Definition demo_open : list Message := [mk_message "system" "edit"; mk_message "user" "rename"].
(** A crash after the call was asked for. *)
Definition demo_crashed : Transcript :=
  mk_transcript false "" false false false "00112233445566778899aabbccddeeff" (demo_open ++ [demo_batch]) 10 1 0 0 0 true "c0".

Lemma demo_open_conversation : conversation demo_open.
Proof. apply (conv_say [_]); [|done..]. by apply (conv_say []); [apply conv_nil |..]. Qed.
Lemma demo_crashed_sound : sound demo_crashed.
Proof.
  exists demo_open, demo_batch, [], [demo_call]. split_and!; try done; [apply demo_open_conversation |]. by exists [].
Qed.

Lemma Step_conversation_witness :
  wp (λ _, True) sound (Step demo_conf demo_request)
    (λ r tr', sound tr' ∧ ∀ resp, r = Ok resp → T_Pending tr' = false) demo_crashed.
Proof.
  apply (Step_conversation demo_conf demo_request demo_crashed).
  - apply demo_crashed_sound.
  - intros _ b replies [= <- <-]. apply NoDup_singleton.
Defined.

(** The journal after the crash: the call was recorded, with its outcome. *)
Definition demo_record : Operation :=
  mk_op 7 "t1" 3 KDecision
    (JObj [("session", JStr "00112233445566778899aabbccddeeff"); ("step", JNum 1); ("call_id", JStr (TC_ID demo_call));
           ("arguments", JStr (TC_Arguments demo_call))]) (Some (result_json (mk_tool_result false "done" false false false ""))) "c0" "c1" "" 0 0 "".
Example demo_found : found demo_crashed [demo_record] demo_call (Some (demo_record, mk_tool_result false "done" false false false "")).
Proof. split; [|split; vm_compute; reflexivity]. exists [], []. split_and!; [done | vm_compute; reflexivity | done]. Qed.

Lemma reconcile_closes_witness :
  untouched (reconcile (G:=Fence) demo_request) ∧
  wpj (λ journal, journal = Ok [demo_record]) (λ _, True) (λ _, True) (reconcile (G:=Fence) demo_request)
    (λ r tr', r = Ok tt → ∃ fs, recovered demo_request demo_crashed [demo_record] [demo_call] fs tr') demo_crashed ∧
  ∃ rv, recover_calls (mk_fence "n") demo_crashed [demo_record] [] [demo_call] (mk_recovery [] [] "c0" false) = Ok rv ∧ rv_candidate rv = "c1".
Proof.
  destruct (reconcile_closes demo_request demo_crashed [demo_record] demo_batch [] [demo_call] eq_refl eq_refl) as (H1 & H2 & H3).
  split; [exact H1 |]. split; [exact H2 |]. apply (H3 (mk_fence "n") [Some (demo_record, mk_tool_result false "done" false false false "")] "c1"); [|done].
  constructor; [apply demo_found | constructor].
Defined.

