(* ===== verification/NativeFiles.v ===== *)
(** What one tool call of the native engine may do to the file system: the
    composition of the authorisation of [NativeTools], the access policy of
    [Firewall] and the confined writer of [Worktree]. *)
From S2P Require Import Memory Retrieval.
From S2P Require Import Prelude GoStrings GoPath Policy Worktree Firewall Recipe Summarize Graph.
From S2P Require Import Trust Json Llm ContextPack Workflow Ledger Recover Engine NativeTools Native NativeLoop.

Open Scope string_scope.
Open Scope list_scope.
Open Scope nat_scope.

(** ** A write that fails makes directories and nothing else *)

Definition makes_dirs (f f' : fs) : Prop := ∀ p, f' !! p ≠ f !! p → f !! p = None ∧ f' !! p = Some NDir.

#[export] Instance makes_dirs_preorder : PreOrder makes_dirs.
Proof.
  split; [by intros f p [] |]. intros f1 f2 f3 H1 H2 p Hne.
  destruct (decide (f2 !! p = f1 !! p)) as [He|Hn].
  - rewrite <- He in *. by apply H2.
  - destruct (H1 p Hn) as [Hnone Hdir]. split; [done |]. destruct (decide (f3 !! p = f2 !! p)) as [->|Hn2]; [done |].
    destruct (H2 p Hn2). congruence.
Qed.

Lemma makes_dirs_refl f : makes_dirs f f.
Proof. reflexivity. Qed.

Lemma Mkdir_makes f p : makes_dirs f (Mkdir f p).2.
Proof.
  unfold Mkdir. destruct (last p) as [b|]; [|reflexivity].
  destruct (Stat f (parent p)) as [[]|]; try reflexivity. destruct (EvalSymlinks f (parent p)) as [d|]; [|reflexivity].
  destruct (lookup_node f (d ++ [b])) eqn:El; [reflexivity |]. cbn. intros q Hne.
  rewrite lookup_node_ne in El by (by destruct d).
  destruct (decide (q = d ++ [b])) as [->|]; [by rewrite lookup_insert_eq | by rewrite lookup_insert_ne in Hne].
Qed.

Lemma mkdir_all_makes rp : ∀ f, makes_dirs f (mkdir_all f rp).2.
Proof.
  induction rp as [|b up IH]; intros f; cbn [mkdir_all].
  - destruct (Stat f _) as [[]|]; reflexivity.
  - destruct (Stat f _) as [[]|]; try reflexivity. pose proof (IH f) as H1.
    destruct (mkdir_all f up) as [[[]|err] f1]; cbn in H1 |- *; [|done].
    pose proof (Mkdir_makes f1 (rev (b :: up))) as H2. cbn in H2.
    destruct (Mkdir f1 _) as [[[]|err] f2]; cbn in H2; [by transitivity f1 |].
    destruct (Lstat f2 _) as [[]|]; by transitivity f1.
Qed.

Lemma WriteWithin_failed f wt rel body err f' : WriteWithin f wt rel body = (Err err, f') → makes_dirs f f'.
Proof.
  unfold WriteWithin. destruct (Resolve f wt rel) as [full|e]; [|by intros [= _ <-]].
  pose proof (mkdir_all_makes (rev (parent full)) f) as H. fold (MkdirAll f (parent full)) in H.
  destruct (MkdirAll f (parent full)) as [[[]|e] f1]; cbn in H; [|by intros [= _ <-]].
  unfold WriteFile. destruct (open_place f1 full) as [place|e]; [|by intros [= _ <-]].
  destruct (lookup_node f1 place) as [[]|]; intros [=]; by subst.
Qed.

Section files.
Context {G : Type} `{E : NativeEnv G}.
Context (e : EngineConf).
Notation W := (fs * G)%type.
(** What [encoding/json] and the language promise: an empty text is not JSON,
    and a range visits every key of a map once. *)
Context (empty_text : ∃ err, n_unmarshal "" = Err err).
Context (range_all : ∀ m, n_range m ≡ₚ map_to_list m).

(** The tools that act on nothing but the worktree and the call. *)
Definition local_tool (name : string) : Prop :=
  name ∉ [ToolSearch; ToolFindSymbol; ToolImpact; ToolRunRecipe; ToolGitTouch].

Lemma authorized_args q call w : authorize n_unmarshal n_range (tools e q) w (Q_Access q) (Q_Worktree q) call = Ok tt →
  ∃ args, (if String.eqb (TC_Arguments call) "" then Ok (Some ∅) else Unmarshal_map n_unmarshal (TC_Arguments call)) = Ok (Some args) ∧
    (TC_Name call ∈ [ToolWriteFile; ToolEditFile] → Access_Check w (Q_Access q) (Q_Worktree q) (str args "path") true = Ok tt).
Proof using empty_text range_all.
  intros (args & (t & required & properties & _ & _ & Ha & _)%(check_schema_ok _ _ range_all) & Hp)%rbind_ok.
  exists args. split.
  - destruct (String.eqb_spec (TC_Arguments call) "") as [He|]; [|done]. rewrite He in Ha.
    destruct empty_text as [err Herr]. unfold Unmarshal_map in Ha. by rewrite Herr in Ha.
  - intros Hin. cbv zeta in Hp. assert (mem (TC_Name call) [ToolReadFile; ToolWriteFile; ToolEditFile] = true) as Hm.
    { apply mem_true. set_solver. }
    rewrite Hm in Hp. destruct (String.eqb_spec (TC_Name call) ToolReadFile) as [Hr|]; [|done].
    rewrite Hr in Hin. exfalso. clear -Hin. set_solver.
Qed.

(** What a call has done: if it says it edited, one confined write; if not,
    nothing but directories for a write that then failed. *)
Definition effect (q : EngRequest) (res : ToolResult) (f f' : fs) : Prop :=
  if Tr_Edited res then ∃ body, confined_write (Q_Access q) (Q_Worktree q) body f f' else makes_dirs f f'.

Lemma writeFile_effect q args f : well_formed f → Stat f (path_of (Q_Worktree q)) = Ok NDir →
  Access_Check f (Q_Access q) (Q_Worktree q) (str args "path") true = Ok tt →
  effect q (writeFile n_os_text f (Q_Worktree q) args).1 f (writeFile n_os_text f (Q_Worktree q) args).2.
Proof.
  intros Hw Hs Ha. unfold writeFile, effect. destruct (StatWithin _ _ _); [apply makes_dirs_refl |].
  destruct (WriteWithin _ _ _ _) as [[[]|err] f'] eqn:EW; cbn; [|by eapply WriteWithin_failed].
  eexists. by eapply Access_confined.
Qed.

Lemma editFile_effect q args f : well_formed f → Stat f (path_of (Q_Worktree q)) = Ok NDir →
  Access_Check f (Q_Access q) (Q_Worktree q) (str args "path") true = Ok tt →
  effect q (editFile n_os_text f (Q_Worktree q) args).1 f (editFile n_os_text f (Q_Worktree q) args).2.
Proof.
  intros Hw Hs Ha. unfold editFile, effect. destruct (ReadWithin _ _ _) as [text|err].
  2:{ unfold unreadable. destruct (is_outside err); [apply makes_dirs_refl |]. destruct (is_not_exist err); apply makes_dirs_refl. }
  destruct (String.eqb _ ""); [apply makes_dirs_refl |]. destruct (count_str _ _) as [|[|n]]; [apply makes_dirs_refl | |apply makes_dirs_refl].
  destruct (WriteWithin _ _ _ _) as [[[]|err] f'] eqn:EW; cbn; [|by eapply WriteWithin_failed].
  eexists. by eapply Access_confined.
Qed.

Lemma readFile_edits f wt args : Tr_Edited (readFile n_os_text f wt args) = false.
Proof.
  unfold readFile. destruct (ReadWithin _ _ _) as [body|err].
  - cbv zeta. by destruct (window _ _ _) as [[[? ?] ?]|].
  - unfold unreadable. destruct (is_outside err); [done |]. by destruct (is_not_exist err).
Qed.
Lemma listFiles_edits f wt args : Tr_Edited (listFiles n_os_text f wt args) = false.
Proof. unfold listFiles. destruct (ListWithin _ _ _); [done |]. by destruct (is_outside _). Qed.

Lemma execute_effect q call w : well_formed w.1 → Stat w.1 (path_of (Q_Worktree q)) = Ok NDir →
  authorize n_unmarshal n_range (tools e q) w.1 (Q_Access q) (Q_Worktree q) call = Ok tt → local_tool (TC_Name call) →
  let '(res, w') := execute e q call w in w'.2 = w.2 ∧ effect q res w.1 w'.1.
Proof using empty_text range_all.
  intros Hw Hs Ha Hl. destruct (authorized_args _ _ _ Ha) as (args & Hargs & Hacc). unfold execute. rewrite Hargs. cbn [default from_option id].
  destruct (String.eqb (TC_Name call) ToolReadFile).
  { split; [done |]. unfold effect. rewrite readFile_edits. apply makes_dirs_refl. }
  destruct (String.eqb_spec (TC_Name call) ToolWriteFile) as [Hn|].
  { unfold on_files. pose proof (writeFile_effect q args w.1 Hw Hs ltac:(apply Hacc; rewrite Hn; set_solver)) as H.
    by destruct (writeFile _ _ _ _). }
  destruct (String.eqb_spec (TC_Name call) ToolEditFile) as [Hn|].
  { unfold on_files. pose proof (editFile_effect q args w.1 Hw Hs ltac:(apply Hacc; rewrite Hn; set_solver)) as H.
    by destruct (editFile _ _ _ _). }
  destruct (String.eqb (TC_Name call) ToolListFiles).
  { split; [done |]. unfold effect. rewrite listFiles_edits. apply makes_dirs_refl. }
  destruct (String.eqb_spec (TC_Name call) ToolSearch) as [Hn|]; [exfalso; apply Hl; rewrite Hn; set_solver |].
  destruct (String.eqb_spec (TC_Name call) ToolFindSymbol) as [Hn|]; [exfalso; apply Hl; rewrite Hn; set_solver |].
  destruct (String.eqb_spec (TC_Name call) ToolImpact) as [Hn|]; [exfalso; apply Hl; rewrite Hn; set_solver |].
  destruct (String.eqb_spec (TC_Name call) ToolRunRecipe) as [Hn|]; [exfalso; apply Hl; rewrite Hn; set_solver |].
  destruct (String.eqb_spec (TC_Name call) ToolGitTouch) as [Hn|]; [exfalso; apply Hl; rewrite Hn; set_solver |].
  destruct (String.eqb (TC_Name call) ToolDone); split; by unfold effect; cbn.
Qed.

(** C12: A tool call the engine was authorised to make cannot reach beyond the
    request's write scope.  A call of a file tool that reports an edit wrote
    one file: its canonical path is inside the worktree, in the declared
    scope, not secret, not generated and matched by no protection rule, and
    everything else that changed is a directory on the way to it.  A call that
    reports no edit changed no file at all. *)
Theorem execute_confined q call w :
  well_formed w.1 → Stat w.1 (path_of (Q_Worktree q)) = Ok NDir →
  authorize n_unmarshal n_range (tools e q) w.1 (Q_Access q) (Q_Worktree q) call = Ok tt → local_tool (TC_Name call) →
  let '(res, w') := execute e q call w in
  w'.2 = w.2 ∧
  if Tr_Edited res
  then ∃ body cr s, EvalSymlinks w.1 (path_of (Q_Worktree q)) = Ok cr ∧ w'.1 !! (cr ++ s) = Some (NFile body) ∧
    Covers (WriteScope (Q_Access q)) (join "/" s) = true ∧ Sensitive (join "/" s) = false ∧ Generated (join "/" s) = false ∧
    (∀ p r, p ∈ Policies (Acc_Protected (Q_Access q)) → r ∈ Protected p → matches (Rule_Path r) (trim_prefix (join "/" s) "./") = false) ∧
    ∀ p, w'.1 !! p ≠ w.1 !! p → (∃ t, p = cr ++ t) ∧ (p = cr ++ s ∨ (w.1 !! p = None ∧ w'.1 !! p = Some NDir))
  else ∀ p, w'.1 !! p ≠ w.1 !! p → w.1 !! p = None ∧ w'.1 !! p = Some NDir.
Proof using empty_text range_all. exact (execute_effect q call w). Qed.
End files.

Lemma demo_empty : ∃ err, @n_unmarshal Fence demo_native "" = Err err.
Proof. by eexists. Qed.
Lemma execute_confined_witness :
  let '(res, w') := execute demo_conf demo_request demo_call (demo_fs, mk_fence "") in
  w'.2 = mk_fence "" ∧
  if Tr_Edited res
  then ∃ body cr s, EvalSymlinks demo_fs (path_of "/wt") = Ok cr ∧ w'.1 !! (cr ++ s) = Some (NFile body) ∧
    Covers (WriteScope demo_access) (join "/" s) = true ∧ Sensitive (join "/" s) = false ∧ Generated (join "/" s) = false ∧
    (∀ p r, p ∈ Policies (Acc_Protected demo_access) → r ∈ Protected p → matches (Rule_Path r) (trim_prefix (join "/" s) "./") = false) ∧
    ∀ p, w'.1 !! p ≠ demo_fs !! p → (∃ t, p = cr ++ t) ∧ (p = cr ++ s ∨ (demo_fs !! p = None ∧ w'.1 !! p = Some NDir))
  else ∀ p, w'.1 !! p ≠ demo_fs !! p → demo_fs !! p = None ∧ w'.1 !! p = Some NDir.
Proof.
  apply (execute_confined demo_conf demo_empty (λ m, reflexivity (map_to_list m))
           demo_request demo_call (demo_fs, mk_fence "")).
  - apply demo_well_formed.
  - vm_compute. reflexivity.
  - vm_compute. reflexivity.
  - unfold local_tool. cbn. set_solver.
Defined.
Example execute_1 : Tr_Edited (execute demo_conf demo_request demo_call (demo_fs, mk_fence "")).1 = true.
Proof. vm_compute. reflexivity. Qed.
