(* ===== verification/Mcp.v ===== *)
(** The tools an editor's agent calls, [src/internal/mcp]: the server's
    confinement of the paths it is asked about and the session it opens for each
    call ([server.go]), the proxied read and edit ([edit.go]), opening, answering
    and finishing a supervised task ([supervise.go]), impact and notes
    ([tools.go]; [le_reindex] is in [Index]).

    A tool's refusal - what [fail] returns - is an error of the monad; a Go panic
    is an answer of its own.  The server's world is the file system, which holds
    the workspaces and their data directories, and the tables of each workspace's
    ledger and graph.  [le_verify], [le_search] and [le_status] are not modelled
    here: they assemble a runner, a retriever and the indexer's counters, which
    have files of their own. *)
From stdpp Require Import functions.
From S2P Require Import Prelude GoStrings GoPath Policy Worktree Files Workspace Store Firewall Recipe Graph Trust Memory.
From S2P Require Import Workflow Ledger Tasks Lifecycle NativeTools Native NativeFiles.

Open Scope string_scope.
Open Scope list_scope.
Open Scope nat_scope.

Notation LedgerDb := (Ledger.Db Workflow.State).

(** [mcp/server.go:48-54 Options] *)
Record Options := mk_options { DataDir : string; WorkDir : string }.

(** [mcp/server.go:63-78 New] the guards; registering the tools is the
    library's. *)
Definition New (o : Options) : result Options :=
  if String.eqb (DataDir o) "" then Err (errorf "mcp: no data directory")
  else if String.eqb (WorkDir o) "" then Err (errorf "mcp: no working directory")
  else Ok o.

(** The world of a server. *)
Record Srv := mk_srv { Sv_fs : fs; Sv_ledger : string → LedgerDb }.

(** What a tool that does not refuse does: the text of its result and what
    comes with it, or a panic. *)
Inductive answer (A : Type) := Answer (text : string) (out : A) | Panic.
Arguments Answer {A} text out.
Arguments Panic {A}.

(** [mcp/server.go:135-140 fail] *)
Definition fail {S A} (msg : string) : M S A := throw (errorf msg).

Definition on_files {A} (m : M fs A) : M Srv A := λ s,
  let '(r, f) := m (Sv_fs s) in (r, mk_srv f (Sv_ledger s)).
(** A call on the ledger of a workspace. *)
Definition on_ledger {A} (id : string) (m : M LedgerDb A) : M Srv A := λ s,
  let '(r, d) := m (Sv_ledger s id) in (r, mk_srv (Sv_fs s) (<[id := d]> (Sv_ledger s))).
(** A pair of a result and the files it leaves, as a call. *)
Definition files_do {A} (step : fs → result A * fs) : M Srv A := on_files step.

(** [utf8.RuneCountInString] *)
Fixpoint rune_count (fuel : nat) (s : string) : nat :=
  match fuel, s with
  | S fuel, String _ _ => S (rune_count fuel (drop_str (Nat.max 1 (decode_rune s).2) s))
  | _, _ => 0
  end.

(** [strings.Count]: the empty string stands before every rune and at the end. *)
Definition Count (s sub : string) : nat :=
  if String.eqb sub "" then S (rune_count (String.length s) s) else count_str s sub.

(** [mcp/edit.go:36-41 readIn] *)
Record readIn := mk_read_in { Ri_Path : string; Ri_StartLine : Z; Ri_EndLine : Z; Ri_Root : string }.
(** [mcp/edit.go:43-49 readOut] *)
Record readOut := mk_read_out { Ro_Path : string; Ro_StartLine : Z; Ro_EndLine : Z; Ro_Content : string; Ro_Truncated : bool }.
(** [mcp/edit.go:54-54 maxReadBytes] *)
Definition maxReadBytes : Z := 262144.

(** The part of a file that is shown: a refusal, a panic - a slice whose start is
    past its end - or the lines. *)
Inductive slice := Past (total : Z) | Bad | Lines (first last_ : Z) (content : string) (truncated : bool).
(** [mcp/edit.go:75-91 Server.readFile] *)
Definition read_slice (body : string) (startLine endLine : Z) : slice :=
  let truncated := Z.ltb maxReadBytes (Z.of_nat (String.length body)) in
  let body := if truncated then take_str (Z.to_nat maxReadBytes) body else body in
  let lines := split_char newline body in
  let total := Z.of_nat (length lines) in
  let start := if Z.ltb 0 startLine then startLine else 1%Z in
  let end_ := if Z.ltb 0 endLine && Z.ltb endLine total then endLine else total in
  if Z.ltb total start then Past total
  else if Z.ltb end_ (start - 1) then Bad
  else Lines start end_ (join nl (take (Z.to_nat (end_ - (start - 1))) (drop (Z.to_nat (start - 1)) lines))) truncated.

(** [mcp/edit.go:105-111 editIn] *)
Record editIn := mk_edit_in { Ei_TaskID : string; Ei_Path : string; Ei_Old : string; Ei_New : string; Ei_Root : string }.
(** [mcp/edit.go:113-116 editOut] *)
Record editOut := mk_edit_out { Eo_Path : string; Replacements : Z }.

(** [mcp/supervise.go:85-90 answerIn] *)
Record answerIn := mk_answer_in { Ai_TaskID : string; Ai_Question : string; Ai_Answer : string; Ai_Path : string }.
(** [mcp/supervise.go:118-121 finishIn] *)
Record finishIn := mk_finish_in { Fi_TaskID : string; Fi_Path : string }.
(** [mcp/supervise.go:149-157 startIn] *)
Record startIn := mk_start_in { Si_Objective : string; Si_WriteScope : list string; Si_Path : string }.
(** [mcp/supervise.go:159-163 startOut] *)
Record startOut := mk_start_out { So_TaskID : string; ProtectedPath : list string; Checks : list string }.
(** [mcp/tools.go:151-155 impactIn] *)
Record impactIn := mk_impact_in { Ii_Symbol : string; Ii_Change : string; Ii_Path : string }.
(** [mcp/tools.go:311-315 noteIn] *)
Record noteIn := mk_note_in { Ni_Text : string; Ni_Kind : string; Ni_Path : string }.
(** [mcp/tools.go:317-320 noteOut] *)
Record noteOut := mk_note_out { No_ID : string; No_Kind : string }.

Definition indented (p : string) : string := "  " +:+ p +:+ nl.

(** [supervisor/lifecycle.go:339-381 Review.Format] *)
Definition Format (r : Review) : string :=
  "FINAL REVIEW" +:+ nl +:+ nl +:+
  "Task:   " +:+ Rv_Intent r +:+ nl +:+
  "Status: " +:+ Rv_Verdict r +:+ nl +:+ nl +:+
  "Changes:" +:+ nl +:+ "  " +:+ pretty (FilesChangedCount r) +:+ " file(s) in the working tree" +:+ nl +:+
  join "" ((λ f, "    " +:+ f +:+ nl) <$> FilesChanged r) +:+
  (if length (Rv_Checks r) =? 0 then "" else
     nl +:+ "Verification:" +:+ nl +:+
     join "" ((λ c, "  " +:+ (if String.eqb (Cr_Status c) "pass" then "✓" else "x") +:+ " " +:+ pad 16 (Cr_Name c) +:+ " " +:+
                    Cr_Headline c +:+ nl) <$> Rv_Checks r)) +:+
  (if length (Rv_Decisions r) =? 0 then "" else
     nl +:+ "User decisions:" +:+ nl +:+
     join "" ((λ d, "  - " +:+ D_Question d +:+ nl +:+ "    " +:+ D_Answer d +:+ nl) <$> Rv_Decisions r)) +:+
  (if length (Rv_Protected r) =? 0 then "" else
     nl +:+ "Protected or out-of-scope paths touched:" +:+ nl +:+ join "" (indented <$> Rv_Protected r)) +:+
  nl +:+ "Warnings:" +:+ nl +:+
  (if length (Warnings r) =? 0 then "  none" +:+ nl else "") +:+ join "" (indented <$> Warnings r) +:+
  nl +:+ "The change itself is in git. `git diff` is the authoritative view of it; this record is what git cannot reconstruct." +:+ nl.

(** ** The server *)

Section server.
(** What opening a session depends on ([Store]). *)
Context {D : Type} (sqlite_read : string → option (@database D)) (sqlite_write : @database D → string)
        (exec_sql : string → @database D → result (@database D)) (migration_files : list (string * string))
        (le_data : string) (parse_manifest : string → result Manifest) (encode_record : Record_ → string).
(** The text of an error, which for one of package [os] names the call and the
    path; [yaml.Unmarshal] of a policy; the working directory of the process. *)
Context (show_error : error → string) (unmarshal : string → result Policy) (cwd : apath).
Context (opts : Options).

Definition refuse {A} (prefix : string) (e : error) : M Srv A := fail (prefix +:+ show_error e).
(** A refusal in place of an error. *)
Definition or_refuse {A} (prefix : string) (m : M Srv A) : M Srv A := λ s,
  match m s with (Ok a, s) => (Ok a, s) | (Err e, s) => (Err (errorf (prefix +:+ show_error e)), s) end.

(** [mcp/server.go:108-130 Server.confine]; [WorkDir] is absolute, being what
    [os.Getwd] returned. *)
Definition confine (f : fs) (path : string) : result apath :=
  match EvalSymlinks f (path_of (WorkDir opts)) with
  | Err e => Err (errorf ("mcp: resolving the working directory: " +:+ show_error e))
  | Ok base =>
      if String.eqb (trim_space path) "" then Ok base
      else if is_abs path then Err (errorf ("path must be relative to the open repository, got " +:+ quoted path))
      else
        let joined := join_comps base path in
        let joined := match EvalSymlinks f joined with Ok resolved => resolved | Err _ => joined end in
        let rel := rel_path base joined in
        if String.eqb rel ".." || has_prefix rel "../"
        then Err (errorf ("path " +:+ quoted path +:+ " is outside the open repository"))
        else Ok joined
  end.

Context (now : string) (seconds : Z).     (* the time a session is opened *)

Definition open_session (dir : string) : M fs Session :=
  Session_Open sqlite_read sqlite_write exec_sql migration_files cwd le_data parse_manifest encode_record now seconds (DataDir opts) dir.

(** [mcp/server.go:88-104 Server.resolve].  The session's [Close], which every
    tool defers, releases handles only. *)
Definition resolve (path : string) : M Srv Session :=
  f ← gets Sv_fs;
  dir ← lift (confine f path);
  r ← try (on_files (open_session (show_path dir)));
  match r with
  | Ok sess => mret sess
  | Err e =>
      if bool_decide (err_is e = Some "session.ErrNoWorkspace")
      then fail (show_path dir +:+ " is not inside a Local Engineer workspace. Use the le_workspace_init tool to set one up in the repository root")
      else throw e
  end.

Definition root_of (s : Session) : apath := Ws_Root (Se_Workspace s).
Definition id_of (s : Session) : string := St_id (Se_Store s).

(** [policy.Load(root + "/policies")] *)
Definition policies (f : fs) (root : apath) : result PolicySet :=
  let dir := root ++ ["policies"] in
  Policy.Load (λ name, ReadFile f (dir ++ [name])) unmarshal (ReadDir f dir).

(** [mcp/edit.go:180-186 protectedSet] *)
Definition protectedSet (f : fs) (root : apath) : PolicySet :=
  match policies f root with Ok set => set | Err _ => mk_set [] end.

(** *** Reading *)

(** [mcp/edit.go:56-102 Server.readFile] [fence] is what [trust.NewFence] draws. *)
Definition readFile (fence : result Fence) (i : readIn) : M Srv (answer readOut) :=
  sess ← or_refuse "" (resolve (Ri_Root i));
  let root := show_path (root_of sess) in
  f ← gets Sv_fs;
  let access := mk_access [] (protectedSet f (root_of sess)) in
  _ ← or_refuse "" (lift (Access_Check f access root (Ri_Path i) false));
  body ← (match ReadWithin f root (Ri_Path i) with
          | Ok body => mret body
          | Err e => if is_not_exist e then fail (Ri_Path i +:+ " does not exist")
                     else refuse ("reading " +:+ Ri_Path i +:+ ": ") e
          end);
  match read_slice body (Ri_StartLine i) (Ri_EndLine i) with
  | Past total => fail (Ri_Path i +:+ " has " +:+ pretty total +:+ " lines; start_line " +:+
                        pretty (if Z.ltb 0 (Ri_StartLine i) then Ri_StartLine i else 1%Z) +:+ " is past the end")
  | Bad => mret Panic
  | Lines start end_ content truncated =>
      fence ← or_refuse "" (lift fence);
      let origin := "source=file path=" +:+ Ri_Path i +:+ " lines=" +:+ pretty start +:+ "-" +:+ pretty end_ in
      mret (Answer (Preamble fence +:+ nl +:+ Wrap fence origin content)
                   (mk_read_out (Ri_Path i) start end_ content truncated))
  end.

(** *** Editing *)

(** [worktree.WriteWithin], refused with a prefix. *)
Definition write_or (prefix root path body : string) : M Srv unit :=
  or_refuse prefix (files_do (λ f, WriteWithin f root path body)).

(** [mcp/edit.go:131-175 Server.editFile] past the checks on its arguments and
    the session. *)
Definition edit_in (sess : Session) (i : editIn) : M Srv (answer editOut) :=
  t ← or_refuse "" (on_ledger (id_of sess) (Tasks.Get (Ei_TaskID i)));
  let root := show_path (root_of sess) in
  f ← gets Sv_fs;
  let access := mk_access (Scope (Ta_Budget t)) (protectedSet f (root_of sess)) in
  _ ← or_refuse "" (lift (Access_Check f access root (Ei_Path i) true));
  match ReadWithin f root (Ei_Path i) with
  | Err e =>
      if is_not_exist e then
        if negb (String.eqb (Ei_Old i) "") then fail (Ei_Path i +:+ " does not exist; pass an empty old to create it") else
        _ ← write_or ("creating " +:+ Ei_Path i +:+ ": ") root (Ei_Path i) (Ei_New i);
        mret (Answer ("Created " +:+ Ei_Path i +:+ ".") (mk_edit_out (Ei_Path i) 1))
      else refuse ("reading " +:+ Ei_Path i +:+ ": ") e
  | Ok body =>
      match Count body (Ei_Old i) with
      | 0 => fail ("that exact text is not in " +:+ Ei_Path i +:+ ". Read it again: it may have changed since you last saw it")
      | 1 =>
          _ ← write_or ("writing " +:+ Ei_Path i +:+ ": ") root (Ei_Path i) (replace_first (Ei_Old i) (Ei_New i) body);
          mret (Answer ("Replaced one occurrence in " +:+ Ei_Path i +:+ ". Call le_verify when the change is complete.")
                       (mk_edit_out (Ei_Path i) 1))
      | n => fail ("that text appears " +:+ pretty n +:+ " times in " +:+ Ei_Path i +:+
                   ". Include enough surrounding context to name one of them")
      end
  end.

(** [mcp/edit.go:118-176 Server.editFile] *)
Definition editFile (i : editIn) : M Srv (answer editOut) :=
  if String.eqb (trim_space (Ei_TaskID i)) ""
  then fail "task_id is required: a write outside a supervised task has nothing to bound it. Call le_task_start first"
  else if String.eqb (Ei_Old i) (Ei_New i) then fail "old and new are identical; nothing to do"
  else sess ← or_refuse "" (resolve (Ei_Root i)); edit_in sess i.

(** *** Supervised tasks *)

(** [mcp/supervise.go:181-187 Server.taskStart] the task. *)
Definition start_task (id : string) (i : startIn) : Task :=
  mk_task_row id "" "" "" (trim_space (Si_Objective i)) "supervised" "" "" "standard"
    (mk_budget 1 1800000000000 0 (Si_WriteScope i)) 0 0 None.

(** [mcp/supervise.go:196-218 Server.taskStart] the text. *)
Definition start_text (t : Task) (protected : list string) : string :=
  "Task " +:+ Ta_ID t +:+ " opened for: " +:+ Ta_Title t +:+ nl +:+ nl +:+
  (if length protected =? 0 then "" else
     "This repository protects these paths — do not change them:" +:+ nl +:+ join "" (indented <$> protected) +:+ nl) +:+
  (if length (Scope (Ta_Budget t)) =? 0 then "" else
     "Declared write scope — le_edit refuses anything outside it:" +:+ nl +:+ join "" (indented <$> Scope (Ta_Budget t)) +:+ nl) +:+
  "Edit normally. When you believe the work is complete, call le_verify — it runs the checks in a sandbox and decides acceptance from the evidence, so there is no need to assert that it works." +:+ nl.

(** [mcp/supervise.go:171-220 Server.taskStart] the suffix of the id is drawn at
    random. *)
Definition taskStart (suffix : string) (i : startIn) : M Srv (answer startOut) :=
  if String.eqb (trim_space (Si_Objective i)) "" then fail "objective is required" else
  sess ← or_refuse "" (resolve (Si_Path i));
  now ← on_ledger (id_of sess) (gets db_now);
  let t := start_task (NewID "oc" suffix now) i in
  _ ← or_refuse "opening the task: " (on_ledger (id_of sess) (Tasks.Create (id_of sess) t));
  f ← gets Sv_fs;
  let protected := match policies f (root_of sess) with Ok set => Paths set | Err _ => [] end in
  mret (Answer (start_text t protected) (mk_start_out (Ta_ID t) protected (show_kind <$> Required Standard))).

(** [mcp/supervise.go:98-114 Server.taskAnswer] *)
Definition taskAnswer (i : answerIn) : M Srv (answer unit) :=
  sess ← or_refuse "" (resolve (Ai_Path i));
  _ ← or_refuse "" (lift (CheckContentSecrets "this answer" (Ai_Question i +:+ nl +:+ Ai_Answer i)));
  _ ← or_refuse "recording the decision: "
        (on_ledger (id_of sess) (RecordAnswer (Ai_TaskID i) (Ai_Question i) (Ai_Answer i)));
  mret (Answer "Recorded. It will appear in the task's final review and in its journal." tt).

(** [mcp/supervise.go:133-145 Server.taskFinish] [git] is the status of the
    checkout, [None] when the command failed. *)
Definition taskFinish (show_time : Z → string) (git : apath → option string) (i : finishIn) : M Srv (answer Review) :=
  sess ← or_refuse "" (resolve (Fi_Path i));
  f ← gets Sv_fs;
  r ← or_refuse "finishing the task: "
        (on_ledger (id_of sess)
           (Lifecycle.FinishTask show_time (Fi_TaskID i) (git (root_of sess)) (policies f (root_of sess))));
  match r : Review * option error with
  | (_, Some e) => refuse "finishing the task: " e
  | (rev, None) => mret (Answer (Format rev) rev)
  end.

(** *** The graph and the notes *)

(** [mcp/tools.go:198-202 Server.impact] the text. *)
Definition impact_line (c : Consumer) : string :=
  "  " +:+ N_FQN (Co_Node c) +:+ "  " +:+ show_verdict (Co_Verdict c) +:+ "  " +:+ show_evidence (Co_Evidence c) +:+
  "  via " +:+ Co_Via c +:+ ", depth " +:+ pretty (Co_Depth c) +:+ nl +:+
  (if String.eqb (Migration c) "" then "" else "      → " +:+ Migration c +:+ nl).

(** [mcp/tools.go:157-209 Server.impact] over the graph of the workspace; the
    two functions are SQLite's answers to a query's matching rows. *)
Definition impact (graph_of : string → tables) (run_query : list Edge → result (list Edge))
    (run_nodes : list Node → result (list Node)) (i : impactIn) : M Srv (answer Impact) :=
  if String.eqb (trim_space (Ii_Symbol i)) "" then fail "symbol is required" else
  sess ← or_refuse "" (resolve (Ii_Path i));
  let kindName := if String.eqb (Ii_Change i) "" then "signature" else Ii_Change i in
  kind ← or_refuse "" (lift (ParseChangeKind kindName));
  let t := graph_of (id_of sess) in
  nodes ← or_refuse "reading the graph: " (lift (NodesByName t run_nodes (Ii_Symbol i) [] 50));
  match nodes with
  | [] => fail ("no indexed symbol named " +:+ quoted (Ii_Symbol i) +:+ ". Run the le_reindex tool, or check the name.")
  | _ =>
      imp ← or_refuse "computing impact: " (lift (ImpactOf run_query t (N_ID <$> nodes) kind));
      let imp := PublicImpact imp in
      mret (Answer (Impact_Summary imp +:+ nl +:+ nl +:+ join "" (impact_line <$> Consumers imp) +:+
                    nl +:+ Caveat imp +:+ nl) imp)
  end.

(** [mcp/tools.go:333-366 Server.noteAdd] *)
Definition noteAdd (yaml_read : string → result (list Note)) (yaml_write : list Note → result string) (clock : Z) (i : noteIn)
    : M Srv (answer noteOut) :=
  if String.eqb (trim_space (Ni_Text i)) "" then fail "text is required" else
  let kind := if String.eqb (Ni_Kind i) "" then KindObservation else Ni_Kind i in
  if negb (Kind_Valid kind) then fail ("kind " +:+ quoted (Ni_Kind i) +:+ " is not one of: intent, observation, advice") else
  _ ← or_refuse "" (lift (CheckContentSecrets "this note" (Ni_Text i)));
  sess ← or_refuse "" (resolve (Ni_Path i));
  n ← or_refuse "recording the note: "
        (files_do (λ f, Memory.Add yaml_read yaml_write f (Memory.Open (show_path (root_of sess)) DefaultCaps) clock
                          (mk_note "" kind (trim_space (Ni_Text i)) (mk_prov "opencode" "" 0) [])));
  mret (Answer ("Recorded this as " +:+ kind +:+ ". Later sessions will see it once `le opencode setup` refreshes AGENTS.md.")
               (mk_note_out (Nt_ID n) (Nt_Kind n))).
End server.

(** ** Calls on the world *)

Lemma or_refuse_ok {A} show_error prefix (m : M Srv A) s a s' :
  or_refuse show_error prefix m s = (Ok a, s') → m s = (Ok a, s').
Proof. unfold or_refuse. destruct (m s) as [[x|e] s1]; [by intros [= <- <-] | done]. Qed.

Lemma or_refuse_state {A} show_error prefix (m : M Srv A) s : (or_refuse show_error prefix m s).2 = (m s).2.
Proof. unfold or_refuse. by destruct (m s) as [[x|e] s1]. Qed.

Lemma or_refuse_lift {A} show_error prefix (r : result A) s :
  (∃ a, r = Ok a ∧ or_refuse show_error prefix (lift r) s = (Ok a, s)) ∨
  ∃ e e', r = Err e ∧ or_refuse show_error prefix (lift r) s = (Err e', s).
Proof. destruct r as [a|e]; [left | right]; repeat eexists. Qed.

(** Two worlds with the same ledgers. *)
Definition same_ledgers (s s' : Srv) : Prop := ∀ id, Sv_ledger s' id = Sv_ledger s id.

(** Reading a task changes nothing. *)
Lemma Get_reads show_error prefix id taskID s :
  ∃ s1, Sv_fs s1 = Sv_fs s ∧ same_ledgers s s1 ∧
    ((∃ t, find (λ t, String.eqb (Ta_ID t) taskID) (tasks (Sv_ledger s id)) = Some t ∧
           or_refuse show_error prefix (on_ledger id (Tasks.Get taskID)) s = (Ok t, s1)) ∨
     ∃ e, or_refuse show_error prefix (on_ledger id (Tasks.Get taskID)) s = (Err e, s1)).
Proof.
  exists (mk_srv (Sv_fs s) (<[id := Sv_ledger s id]> (Sv_ledger s))). split; [done |]. split.
  { intros j. cbn. destruct (decide (j = id)) as [->|]; [by rewrite fn_lookup_insert | by rewrite fn_lookup_insert_ne]. }
  unfold or_refuse, on_ledger, Tasks.Get, query, mbind, M_bind. destruct (unavailable (Sv_ledger s id)); [right; by eexists |].
  destruct (find _ _) as [t|]; [left | right]; by eexists.
Qed.

(** *** Confinement of what a tool is asked about *)

Lemma join_up x l : has_prefix (join "/" (".." :: x :: l)) "../" = true.
Proof. apply has_prefix_spec. by eexists. Qed.

Lemma rel_path_up base p : has_prefix (rel_path base p) "../" = false → rel_path base p ≠ ".." → ∃ s, p = base ++ s.
Proof.
  revert p. induction base as [|b base IH]; intros p; [by exists p |]. cbn [rel_path]. destruct p as [|c p].
  - intros H1 H2. exfalso. cbn [app] in H1, H2. rewrite app_nil_r, fmap_cons in H1, H2. destruct base; [by apply H2 |].
    by rewrite fmap_cons, join_up in H1.
  - destruct (String.eqb_spec b c) as [->|Hne].
    + intros H1 H2. destruct (IH p H1 H2) as [s ->]. by exists s.
    + intros H1. exfalso. rewrite fmap_cons in H1. destruct base; cbn [fmap list_fmap app] in H1; by rewrite join_up in H1.
Qed.

Section confined.
Context (show_error : error → string) (opts : Options).

(** A directory a tool may be asked about is below the open repository, and no
    link leads from it elsewhere - where it exists. *)
Lemma confine_below f path d : confine show_error opts f path = Ok d →
  ∃ base, EvalSymlinks f (path_of (WorkDir opts)) = Ok base ∧ (∃ s, d = base ++ s) ∧ ∀ q, EvalSymlinks f d = Ok q → q = d.
Proof.
  unfold confine. destruct (EvalSymlinks f (path_of _)) as [base|e] eqn:Hb; [|done].
  destruct (EvalSymlinks_settled f (path_of (WorkDir opts)) base) as [Hsb Heb]; [apply split_char_slash_free | done |].
  assert (Hid : EvalSymlinks f base = Ok base) by (by apply EvalSymlinks_id).
  destruct (String.eqb _ ""); [intros [= <-]; exists base; split_and!; [done | exists []; by rewrite app_nil_r | congruence] |].
  destruct (is_abs path); [done |]. cbv zeta.
  assert (Hf : Forall slash_free (join_comps base path)).
  { apply clean_comps_slash_free; [|apply split_char_slash_free].
    apply Forall_rev. eapply Forall_impl; [exact (settled_plain _ _ Hsb) |]. by intros x []. }
  set (joined := match EvalSymlinks f (join_comps base path) with Ok r => r | Err _ => join_comps base path end).
  assert (Hj : ∀ q, EvalSymlinks f joined = Ok q → q = joined).
  { subst joined. destruct (EvalSymlinks f (join_comps base path)) as [r|e] eqn:Hj; [|congruence].
    destruct (EvalSymlinks_settled f (join_comps base path) r Hf Hj) as [Hs He]. rewrite EvalSymlinks_id by done. congruence. }
  destruct (String.eqb_spec (rel_path base joined) "..") as [|Hn]; [done |].
  destruct (has_prefix (rel_path base joined) "../") eqn:Hp; [done |]. intros [= <-].
  exists base. split_and!; [done | by apply rel_path_up | done].
Qed.
End confined.

(** *** What an edit does *)

Lemma rune_count_zero s : rune_count (String.length s) s = 0 → s = "".
Proof. by destruct s. Qed.

(** The text of a file after an edit: a new file's, or the old one's with the
    one occurrence of the old text replaced. *)
Definition edited (f : fs) (root path old new body : string) : Prop :=
  (old = "" ∧ body = new ∧ ∃ e, ReadWithin f root path = Err e ∧ is_not_exist e = true) ∨
  ∃ a b, ReadWithin f root path = Ok (a +:+ old +:+ b) ∧ body = a +:+ new +:+ b ∧
    if String.eqb old "" then a = "" ∧ b = ""
    else contains_str b old = false ∧ ∀ n, n < String.length a → has_prefix (drop_str n (a +:+ old +:+ b)) old = false.

Lemma Count_one f root path s old new : ReadWithin f root path = Ok s → Count s old = 1 →
  edited f root path old new (replace_first old new s).
Proof.
  intros HR. unfold Count, edited. destruct (String.eqb_spec old "") as [->|Hne].
  - intros [= ->%rune_count_zero]. right. exists "", "". split_and!; [done | by destruct new | done | done].
  - intros Hc. destruct (count_one s old new Hne Hc) as (a & b & -> & -> & Hb & Hn). right. by exists a, b.
Qed.

Lemma write_or_cases show_error prefix root path body s :
  ∃ f', same_ledgers s (mk_srv f' (Sv_ledger s)) ∧
    ((WriteWithin (Sv_fs s) root path body = (Ok tt, f') ∧
      write_or show_error prefix root path body s = (Ok tt, mk_srv f' (Sv_ledger s))) ∨
     ∃ e e', WriteWithin (Sv_fs s) root path body = (Err e, f') ∧
      write_or show_error prefix root path body s = (Err e', mk_srv f' (Sv_ledger s))).
Proof.
  unfold write_or, or_refuse, files_do, on_files. destruct (WriteWithin (Sv_fs s) root path body) as [[[]|e] f'] eqn:EW; exists f'.
  - split; [done |]. by left.
  - split; [done |]. right. by eexists _, _.
Qed.

Section edits.
Context (show_error : error → string) (unmarshal : string → result Policy).

(** The authority a task gives. *)
Definition authority (f : fs) (sess : Session) (t : Task) : Access :=
  mk_access (Scope (Ta_Budget t)) (protectedSet unmarshal f (root_of sess)).

(** The outcome of an edit, from the files and the ledgers before it. *)
Definition edit_outcome (sess : Session) (i : editIn) (s s' : Srv) (r : result (answer editOut)) : Prop :=
  let f := Sv_fs s in let root := show_path (root_of sess) in
  same_ledgers s s' ∧
  match r with
  | Ok (Answer _ _) => ∃ t body,
      find (λ t, String.eqb (Ta_ID t) (Ei_TaskID i)) (tasks (Sv_ledger s (id_of sess))) = Some t ∧
      edited f root (Ei_Path i) (Ei_Old i) (Ei_New i) body ∧
      Access_Check f (authority f sess t) root (Ei_Path i) true = Ok tt ∧
      WriteWithin f root (Ei_Path i) body = (Ok tt, Sv_fs s')
  | Ok Panic => False
  | Err _ => makes_dirs f (Sv_fs s')
  end.

Lemma refused_outcome sess i s s' e : Sv_fs s' = Sv_fs s → same_ledgers s s' → edit_outcome sess i s s' (Err e).
Proof. intros Hf Hl. split; [done |]. rewrite Hf. apply makes_dirs_refl. Qed.

Lemma edit_in_outcome sess i s : edit_outcome sess i s (edit_in show_error unmarshal sess i s).2 (edit_in show_error unmarshal sess i s).1.
Proof.
  destruct (Get_reads show_error "" (id_of sess) (Ei_TaskID i) s) as (s1 & Hf & Hl & H).
  unfold edit_in, mbind, M_bind. destruct H as [(t & Ht & ->)|(e & ->)]; [|by apply refused_outcome].
  unfold gets. rewrite !Hf. fold (authority (Sv_fs s) sess t).
  destruct (or_refuse_lift show_error "" (Access_Check (Sv_fs s) (authority (Sv_fs s) sess t) (show_path (root_of sess)) (Ei_Path i) true) s1)
    as [([] & HA & ->)|(e & e' & _ & ->)]; [|by apply refused_outcome].
  assert (Hw : ∀ prefix body k,
    edited (Sv_fs s) (show_path (root_of sess)) (Ei_Path i) (Ei_Old i) (Ei_New i) body →
    let p := (match write_or show_error prefix (show_path (root_of sess)) (Ei_Path i) body s1 with
              | (Ok _, s2) => (Ok (Answer k (mk_edit_out (Ei_Path i) 1)), s2)
              | (Err e, s2) => (Err e, s2)
              end) in edit_outcome sess i s p.2 p.1).
  { intros prefix body k Hb. destruct (write_or_cases show_error prefix (show_path (root_of sess)) (Ei_Path i) body s1)
      as (f' & _ & [(HW & ->)|(e & e' & HW & ->)]); rewrite Hf in HW; (split; [exact Hl |]).
    - by exists t, body.
    - by eapply WriteWithin_failed. }
  destruct (ReadWithin (Sv_fs s) _ _) as [body|e] eqn:ER.
  - destruct (Count body (Ei_Old i)) as [|[|n]] eqn:EC; [by apply refused_outcome | | by apply refused_outcome].
    apply Hw. by apply Count_one.
  - destruct (is_not_exist e) eqn:EN; [|by apply refused_outcome].
    destruct (String.eqb_spec (Ei_Old i) "") as [Ho|]; [|by apply refused_outcome].
    apply Hw. left. split_and!; [done | done | by exists e].
Qed.
End edits.

(** *** What a read shows *)

(** The bytes of a file a read looks at. *)
Definition within_limit (body : string) : string :=
  if Z.ltb maxReadBytes (Z.of_nat (String.length body)) then take_str (Z.to_nat maxReadBytes) body else body.

(** The lines a read was asked for, of those there are. *)
Definition asked (startLine : Z) : Z := if Z.ltb 0 startLine then startLine else 1%Z.
Definition until_ (endLine total : Z) : Z := if Z.ltb 0 endLine && Z.ltb endLine total then endLine else total.

Lemma read_slice_cases body startLine endLine :
  let lines := split_char newline (within_limit body) in let total := Z.of_nat (length lines) in
  let first := asked startLine in let last_ := until_ endLine total in
  match read_slice body startLine endLine with
  | Past n => n = total ∧ (total < first)%Z
  | Bad => (0 < endLine)%Z ∧ (endLine + 1 < first ≤ total)%Z
  | Lines s e content truncated =>
      s = first ∧ e = last_ ∧ (first ≤ total)%Z ∧
      truncated = Z.ltb maxReadBytes (Z.of_nat (String.length body)) ∧
      ∃ before shown after, lines = before ++ shown ++ after ∧ Z.of_nat (length before) = (first - 1)%Z ∧
        Z.of_nat (length shown) = (last_ - first + 1)%Z ∧ content = join nl shown
  end.
Proof.
  intros lines total first last_. unfold read_slice. fold (within_limit body). fold lines. fold total. fold (asked startLine).
  fold (until_ endLine total). fold first. fold last_.
  assert (Hf : (1 ≤ first)%Z) by (unfold first, asked; destruct (Z.ltb_spec 0 startLine); lia).
  assert (Hl : (0 ≤ last_ ≤ total)%Z ∧ (last_ = total ∨ (0 < endLine ∧ last_ = endLine)%Z)).
  { unfold last_, until_. destruct (Z.ltb_spec 0 endLine); cbn [andb]; [destruct (Z.ltb_spec endLine total)|]; lia. }
  destruct (Z.ltb_spec total first); [done |]. destruct (Z.ltb_spec last_ (first - 1)); [lia |].
  split_and!; [done | done | done | done |].
  set (a := Z.to_nat (first - 1)). set (n := Z.to_nat (last_ - (first - 1))).
  exists (take a lines), (take n (drop a lines)), (drop n (drop a lines)). split_and!; [by rewrite !take_drop | | | done].
  - rewrite length_take. lia.
  - rewrite length_take, length_drop. lia.
Qed.

Lemma read_access f unmarshal sess path :
  let root := show_path (root_of sess) in let access := mk_access [] (protectedSet unmarshal f (root_of sess)) in
  ∀ body, Access_Check f access root path false = Ok tt → ReadWithin f root path = Ok body →
  ∃ full cr, Resolve f root path = Ok full ∧ EvalSymlinks f (path_of root) = Ok cr ∧
    name_allowed access false (rel_path cr full) ∧ ReadFile f full = Ok body.
Proof.
  intros root access body HA HR. apply Access_Check_ok in HA as (full & cr & Hr & Hcr & _ & Ht). exists full, cr.
  split_and!; [done | done | done |]. unfold ReadWithin in HR. by rewrite Hr in HR.
Qed.

Section served.
Context {D : Type} (sqlite_read : string → option (@database D)) (sqlite_write : @database D → string)
        (exec_sql : string → @database D → result (@database D)) (migration_files : list (string * string))
        (le_data : string) (parse_manifest : string → result Manifest) (encode_record : Record_ → string).
Context (show_error : error → string) (unmarshal : string → result Policy) (cwd : apath).
Context (opts : Options) (now : string) (seconds : Z).
Notation resolve := (resolve sqlite_read sqlite_write exec_sql migration_files le_data parse_manifest encode_record show_error cwd opts now seconds).
Notation editFile := (editFile sqlite_read sqlite_write exec_sql migration_files le_data parse_manifest encode_record show_error unmarshal cwd opts now seconds).
Notation readFile := (readFile sqlite_read sqlite_write exec_sql migration_files le_data parse_manifest encode_record show_error unmarshal cwd opts now seconds).

(** C13: A tool call edits the open repository as a supervised task allows, or not
    at all.  A call that answers opened a session and found the task; the file it
    wrote is one, below the workspace's root, that the task's declared scope
    covers by its canonical path and that is not secret, not generated and matched
    by no protection rule that was loaded; it holds the new text, or the old one
    with the only occurrence of the old text replaced, and every other change is a
    directory on the way to it.  A call that is refused leaves every file as the
    session found it, directories apart; none of them panics or changes a ledger. *)
Theorem editFile_confined i s r s' : editFile i s = (r, s') →
  (∃ e, r = Err e ∧ (s' = s ∨ ∃ e', resolve (Ei_Root i) s = (Err e', s'))) ∨
  ∃ sess s1, resolve (Ei_Root i) s = (Ok sess, s1) ∧ Ei_Old i ≠ Ei_New i ∧ same_ledgers s1 s' ∧
    let f := Sv_fs s1 in let root := show_path (root_of sess) in
    match r with
    | Ok (Answer _ _) => ∃ t body,
        find (λ t, String.eqb (Ta_ID t) (Ei_TaskID i)) (tasks (Sv_ledger s1 (id_of sess))) = Some t ∧
        edited f root (Ei_Path i) (Ei_Old i) (Ei_New i) body ∧
        (well_formed f → Stat f (path_of root) = Ok NDir →
           confined_write (authority unmarshal f sess t) root body f (Sv_fs s'))
    | Ok Panic => False
    | Err _ => makes_dirs f (Sv_fs s')
    end.
Proof.
  unfold Mcp.editFile. destruct (String.eqb _ ""); [intros [= <- <-]; left; eexists; split; [done | by left] |].
  destruct (String.eqb_spec (Ei_Old i) (Ei_New i)) as [|Hne]; [intros [= <- <-]; left; eexists; split; [done | by left] |].
  unfold mbind, M_bind, or_refuse at 1. destruct (resolve (Ei_Root i) s) as [[sess|e] s1] eqn:Hr.
  2:{ intros [= <- <-]. left. eexists. split; [done |]. right. by exists e. }
  intros He. right. exists sess, s1. pose proof (edit_in_outcome show_error unmarshal sess i s1) as [Hl H]. rewrite He in Hl, H.
  cbn [fst snd] in Hl, H. split_and!; [done | done | done |]. cbv zeta. destruct r as [[text out|]|e]; [|done | done].
  destruct H as (t & body & Ht & Hb & HA & HW). exists t, body. split_and!; [done | done |]. intros Hwf Hd. by eapply Access_confined.
Qed.

(** C14: Reading through the tools changes nothing, and what it answers is fenced:
    the lines asked for, of the first 256 KiB of a file of the workspace whose
    canonical path is not secret nor git's own.  A range that ends before the line
    above its start makes the call panic, and nothing else does. *)
Theorem readFile_exact fence i s sess s1 : resolve (Ri_Root i) s = (Ok sess, s1) →
  let f := Sv_fs s1 in let root := show_path (root_of sess) in
  ∃ r, readFile fence i s = (r, s1) ∧
    match r with
    | Ok (Answer text out) => ∃ full cr body fn before shown after,
        Resolve f root (Ri_Path i) = Ok full ∧ EvalSymlinks f (path_of root) = Ok cr ∧
        name_allowed (mk_access [] (protectedSet unmarshal f (root_of sess))) false (rel_path cr full) ∧
        ReadFile f full = Ok body ∧ fence = Ok fn ∧
        split_char newline (within_limit body) = before ++ shown ++ after ∧
        Z.of_nat (length before) = (asked (Ri_StartLine i) - 1)%Z ∧
        Ro_EndLine out = until_ (Ri_EndLine i) (Z.of_nat (length (before ++ shown ++ after))) ∧
        Z.of_nat (length (before ++ shown)) = Ro_EndLine out ∧ Ro_Content out = join nl shown ∧
        text = Preamble fn +:+ nl +:+
               Wrap fn ("source=file path=" +:+ Ri_Path i +:+ " lines=" +:+ pretty (Ro_StartLine out) +:+ "-" +:+ pretty (Ro_EndLine out))
                 (Ro_Content out)
    | Ok Panic => ∃ body, ReadWithin f root (Ri_Path i) = Ok body ∧
        (0 < Ri_EndLine i)%Z ∧ (Ri_EndLine i + 1 < asked (Ri_StartLine i) ≤ Z.of_nat (length (split_char newline (within_limit body))))%Z
    | Err _ =>
        is_ok (Access_Check f (mk_access [] (protectedSet unmarshal f (root_of sess))) root (Ri_Path i) false) = false ∨
        is_ok (ReadWithin f root (Ri_Path i)) = false ∨ is_ok fence = false ∨
        ∃ body, ReadWithin f root (Ri_Path i) = Ok body ∧
          (Z.of_nat (length (split_char newline (within_limit body))) < asked (Ri_StartLine i))%Z
    end.
Proof.
  intros Hr f root. unfold Mcp.readFile, mbind, M_bind, or_refuse at 1. rewrite Hr. unfold gets. fold f. fold root.
  destruct (or_refuse_lift show_error "" (Access_Check f (mk_access [] (protectedSet unmarshal f (root_of sess))) root (Ri_Path i) false) s1)
    as [([] & HA & ->)|(e & e' & -> & ->)]; [|eexists; split; [done | by left]].
  rewrite HA. destruct (ReadWithin f root (Ri_Path i)) as [body|e] eqn:ER.
  2:{ destruct (is_not_exist e); (eexists; split; [done |]; right; by left). }
  unfold mret at 1, M_ret at 1. pose proof (read_slice_cases body (Ri_StartLine i) (Ri_EndLine i)) as H. cbv zeta in H.
  destruct (read_slice body _ _) as [n| |first last_ content truncated]; [eexists; split; [done |]; right; right; right; exists body; split; [done | by destruct H as [<- ?]] | eexists; split; [done |]; by exists body |].
  destruct H as (-> & -> & Hle & -> & before & shown & after & Hlines & Hb & Hs & ->).
  destruct (or_refuse_lift show_error "" fence s1) as [(fn & HF & ->)|(e & e' & -> & ->)]; [|eexists; split; [done |]; right; right; by left].
  eexists. split; [done |].
  destruct (read_access f unmarshal sess (Ri_Path i) body HA ER) as (full & cr & H1 & H2 & H3 & H4).
  exists full, cr, body, fn, before, shown, after. cbn [Ro_EndLine Ro_Content Ro_StartLine].
  split_and!; try done; rewrite <- ?Hlines; [done |]. rewrite length_app. lia.
Qed.
End served.

(** ** A workspace and its tools *)

(** The databases of the examples: an empty file is one without tables. *)
Definition demo_open (s : string) : option (@database (list string)) :=
  if String.eqb s "" then Some (mk_database None []) else demo_read s.
Definition demo_steps_of (name : string) (n : nat) : list (string * string) :=
  (λ i, (name +:+ "_00" +:+ pretty (S i) +:+ ".sql", "step")) <$> seq 0 n.
Definition mcp_migrations : list (string * string) := demo_steps_of "index" 2 ++ demo_steps_of "ledger" 5 ++ demo_steps_of "telemetry" 1.
Definition mcp_main : string := "package main" +:+ nl +:+ "var x = 1" +:+ nl.
Definition mcp_files : fs :=
  <[["d"] := NDir]> (<[["p"; "main.go"] := NFile mcp_main]> (<[["p"; ".env"] := NFile "KEY=1"]> Workspace.demo_init.2)).
Definition mcp_opts : Options := mk_options "/d" "/p".
Definition mcp_ws : string := match Workspace.demo_init.1 with Ok w => Ws_ID w | Err _ => "" end.
Definition mcp_world : Srv := mk_srv mcp_files (λ _, Ledger.mk_db _ [] [] ∅ [] [] [] [] [] ∅ 5000000000 None None).
Definition mcp_resolve := resolve demo_open demo_write demo_exec mcp_migrations "" Workspace.demo_parse Re_ID err_msg [] mcp_opts "now" 5.
Definition mcp_start := taskStart demo_open demo_write demo_exec mcp_migrations "" Workspace.demo_parse Re_ID err_msg (λ _, Err ENOENT) [] mcp_opts "now" 5.
Definition mcp_edit := editFile demo_open demo_write demo_exec mcp_migrations "" Workspace.demo_parse Re_ID err_msg (λ _, Err ENOENT) [] mcp_opts "now" 5.
Definition mcp_read := readFile demo_open demo_write demo_exec mcp_migrations "" Workspace.demo_parse Re_ID err_msg (λ _, Err ENOENT) [] mcp_opts "now" 5.
Definition mcp_finish := taskFinish demo_open demo_write demo_exec mcp_migrations "" Workspace.demo_parse Re_ID err_msg (λ _, Err ENOENT) [] mcp_opts "now" 5.

Definition mcp_started := mcp_start "aaaa" (mk_start_in "rename x" ["main.go"] "") mcp_world.
Definition mcp_edit_in : editIn := mk_edit_in "oc-5-aaaa" "main.go" "x = 1" "y = 1" "".

Lemma mcp_edit_answers : ∃ text out, mcp_edit mcp_edit_in mcp_started.2 = (Ok (Answer text out), (mcp_edit mcp_edit_in mcp_started.2).2).
Proof.
  assert (H : match (mcp_edit mcp_edit_in mcp_started.2).1 with Ok (Answer _ _) => true | _ => false end = true) by (vm_compute; reflexivity).
  destruct (mcp_edit mcp_edit_in mcp_started.2) as [[[text out|]|e] s]; [exists text, out; reflexivity | discriminate H | discriminate H].
Qed.

Lemma mcp_opened : ∃ sess s1, mcp_resolve "" mcp_started.2 = (Ok sess, s1) ∧ show_path (root_of sess) = "/p" ∧
  ((λ t, Scope (Ta_Budget t)) <$> find (λ t, String.eqb (Ta_ID t) "oc-5-aaaa") (tasks (Sv_ledger s1 (id_of sess)))) = Some ["main.go"] ∧
  well_formed (Sv_fs s1) ∧ Stat (Sv_fs s1) (path_of "/p") = Ok NDir.
Proof.
  assert (H : match mcp_resolve "" mcp_started.2 with
              | (Ok sess, s1) =>
                  String.eqb (show_path (root_of sess)) "/p" &&
                  bool_decide (((λ t, Scope (Ta_Budget t)) <$> find (λ t, String.eqb (Ta_ID t) "oc-5-aaaa") (tasks (Sv_ledger s1 (id_of sess)))) = Some ["main.go"]) &&
                  well_formed_b (Sv_fs s1) && bool_decide (Stat (Sv_fs s1) (path_of "/p") = Ok NDir)
              | _ => false
              end = true) by (vm_compute; reflexivity).
  destruct (mcp_resolve "" mcp_started.2) as [[sess|e] s1]; [|discriminate H].
  rewrite !andb_true_iff, !bool_decide_eq_true, String.eqb_eq in H. destruct H as [[[H1 H2] H3] H4].
  exists sess, s1. split_and!; [reflexivity | exact H1 | exact H2 | by apply well_formed_b_ok | exact H4].
Qed.

Lemma editFile_confined_witness :
  ∃ sess s1 t body, mcp_resolve "" mcp_started.2 = (Ok sess, s1) ∧ Scope (Ta_Budget t) = ["main.go"] ∧
    confined_write (authority (λ _, Err ENOENT) (Sv_fs s1) sess t) "/p" body (Sv_fs s1) (Sv_fs (mcp_edit mcp_edit_in mcp_started.2).2).
Proof.
  destruct mcp_edit_answers as (text & out & E). destruct mcp_opened as (sess & s1 & Hr & Hroot & Hscope & Hwf & Hdir).
  revert E Hr. generalize (mcp_edit mcp_edit_in mcp_started.2).2 as s'. generalize mcp_started.2 as w. intros w s' E Hr.
  destruct (editFile_confined demo_open demo_write demo_exec mcp_migrations "" Workspace.demo_parse Re_ID err_msg (λ _, Err ENOENT) []
    mcp_opts "now" 5 mcp_edit_in w _ s' E) as [(e & He & _)|(sess' & s1' & Hr' & _ & _ & H)]; [discriminate He |].
  assert (Hq : (Ok sess', s1') = (Ok sess, s1)) by exact (eq_trans (eq_sym Hr') Hr). injection Hq as -> ->.
  destruct H as (t & body & Ht & _ & Hc). exists sess, s1, t, body. split; [exact Hr |]. split.
  - cbn [mcp_edit_in Ei_TaskID] in Ht. rewrite Ht in Hscope. by injection Hscope.
  - rewrite Hroot in Hc. by apply Hc.
Defined.

Lemma readFile_exact_witness :
  ∃ sess s1 body, mcp_resolve "" mcp_started.2 = (Ok sess, s1) ∧
    mcp_read (Ok demo_fence) (mk_read_in "main.go" 3 1 "") mcp_started.2 = (Ok Panic, s1) ∧
    ReadWithin (Sv_fs s1) "/p" "main.go" = Ok body ∧ length (split_char newline (within_limit body)) = 3.
Proof.
  destruct mcp_opened as (sess & s1 & Hr & Hroot & _).
  assert (Hp : (mcp_read (Ok demo_fence) (mk_read_in "main.go" 3 1 "") mcp_started.2).1 = Ok Panic) by (vm_compute; reflexivity).
  assert (Hb : (λ b, length (split_char newline (within_limit b))) <$> ReadWithin (Sv_fs (mcp_resolve "" mcp_started.2).2) "/p" "main.go" = Ok 3)
    by (vm_compute; reflexivity).
  revert Hr Hp Hb. generalize mcp_started.2 as w. intros w Hr Hp Hb.
  destruct (readFile_exact demo_open demo_write demo_exec mcp_migrations "" Workspace.demo_parse Re_ID err_msg (λ _, Err ENOENT) []
    mcp_opts "now" 5 (Ok demo_fence) (mk_read_in "main.go" 3 1 "") w sess s1 Hr) as (r & H & Hcase).
  assert (H' : mcp_read (Ok demo_fence) (mk_read_in "main.go" 3 1 "") w = (r, s1)) by exact H.
  rewrite H' in Hp. cbn [fst] in Hp. subst r. destruct Hcase as (body & HR & _). exists sess, s1, body.
  rewrite Hroot in HR. cbn [Ri_Path] in HR. rewrite Hr in Hb. cbn [snd] in Hb. rewrite HR in Hb. injection Hb as Hb.
  split; [exact Hr |]. split; [exact H' |]. split; [exact HR | exact Hb].
Defined.

(** ** What the tools let through *)

(** A range of lines that ends before it starts makes [le_read] panic. *)
Lemma backward_range_panics : (mcp_read (Ok demo_fence) (mk_read_in "main.go" 3 1 "") mcp_world).1 = Ok Panic.
Proof. vm_compute. reflexivity. Qed.

(** A task that was finished still lets [le_edit] write. *)
Definition mcp_finished := mcp_finish pretty (λ _, None) (mk_finish_in "oc-5-aaaa" "") mcp_started.2.
Lemma finished_task_still_writes :
  (Ta_State <$> tasks (Sv_ledger mcp_finished.2 mcp_ws)) = [StateFailed] ∧
  Sv_fs (mcp_edit mcp_edit_in mcp_finished.2).2 !! ["p"; "main.go"] = Some (NFile ("package main" +:+ nl +:+ "var y = 1" +:+ nl)).
Proof. split; vm_compute; reflexivity. Qed.

(** One policy file that cannot be read lifts the protection of all the others. *)
Definition guarded_files (more : list (string * string)) : fs :=
  foldr (λ e f, <[["p"; "policies"; e.1] := NFile e.2]> f) (<[["p"; "policies"] := NDir]> mcp_files) (("a.yaml", "main.go") :: more).
Definition demo_policy (body : string) : result Policy :=
  if String.eqb body "" then Err (errorf "empty") else Ok (mk_policy "a" [mk_rule body "generated by hand"]).
Definition guarded_edit (f : fs) :=
  let w := mk_srv f (Sv_ledger mcp_started.2) in
  editFile demo_open demo_write demo_exec mcp_migrations "" Workspace.demo_parse Re_ID err_msg demo_policy [] mcp_opts "now" 5 mcp_edit_in w.
Lemma bad_policy_lifts_protection :
  is_ok (guarded_edit (guarded_files [])).1 = false ∧ is_ok (guarded_edit (guarded_files [("b.yaml", "")])).1 = true.
Proof. split; vm_compute; reflexivity. Qed.

(** Opening a task writes no operation to the journal. *)
Lemma task_opens_unjournalled : operations (Sv_ledger mcp_started.2 mcp_ws) = [] ∧ length (tasks (Sv_ledger mcp_started.2 mcp_ws)) = 1.
Proof. split; vm_compute; reflexivity. Qed.

(** A path that does not exist is not followed: below a link that leads out of
    the open repository it is taken as it is written, and the session opens
    the workspace the link leads to. *)
Definition linked_files : fs := <[["open"] := NDir]> (<[["open"; "link"] := NLink "../p"]> mcp_files).
Lemma missing_path_escapes :
  let opts := mk_options "/d" "/open" in
  let ask path := resolve demo_open demo_write demo_exec mcp_migrations "" Workspace.demo_parse Re_ID err_msg [] opts "now" 5 path
                    (mk_srv linked_files (Sv_ledger mcp_world)) in
  (root_of <$> (ask "link").1) = Err (errorf ("path " +:+ quoted "link" +:+ " is outside the open repository")) ∧
  (root_of <$> (ask "link/none").1) = Ok ["p"].
Proof. split; vm_compute; reflexivity. Qed.

(** The kind of change the tool's schema calls "removal" is refused. *)
Lemma removal_refused : is_ok (ParseChangeKind "removal") = false ∧ is_ok (ParseChangeKind (show_change ChangeRemove)) = true.
Proof. split; reflexivity. Qed.
