(* ===== verification/Providers.v ===== *)
(** What is sent to a model server and read from it:
    [src/internal/llm/openai.go], [anthropic.go] and the rest of [provider.go].
    A request in the system's own terms becomes the body of one of the two HTTP
    interfaces, and the server's answer a response.

    The HTTP exchange, [encoding/json]'s reading of an answer and its check of a
    raw fragment are parameters; so is the environment's network.  Durations and
    the counters no caller reads are left out, as in [Llm]. *)
From S2P Require Import Memory Retrieval.
From S2P Require Import Prelude GoStrings Json Llm Engine NativeTools Native NativeLoop.
From Stdlib Require Import Ascii.

Open Scope string_scope.
Open Scope list_scope.
Open Scope nat_scope.

(** ** Requests *)

(** [llm/provider.go:53-53 Kind] *)
Definition Kind := string.
(** [llm/provider.go:56-56 KindLlamaCPP] *)
Definition KindLlamaCPP : Kind := "llamacpp".
(** [llm/provider.go:57-57 KindOpenAICompatible] *)
Definition KindOpenAICompatible : Kind := "openai_compatible".
(** [llm/provider.go:58-58 KindAnthropic] *)
Definition KindAnthropic : Kind := "anthropic".
(** [llm/provider.go:59-59 KindOpenAI] *)
Definition KindOpenAI : Kind := "openai".

(** [llm/provider.go:65-90 Capabilities] without the informational costs. *)
Record Capabilities := mk_caps {
  Ca_Kind : Kind; ToolCalling : bool; StructuredOutput : bool; Grammar : bool; Infill_ : bool; Embeddings : bool;
  Vision : bool; ThinkingControl : bool; MaxContext : Z; Local : bool }.
Definition no_caps : Capabilities := mk_caps "" false false false false false false false 0 false.

(** [llm/provider.go:98-103 Image] *)
Record Image := mk_image { MediaType : string; Img_Data : string }.

(** A message with its images, [Message.Images]. *)
Record Attached := mk_attached { At_Message : Message; At_Images : list Image }.

(** [llm/provider.go:124-131 HasImages] *)
Definition HasImages (ms : list Attached) : bool := existsb (λ m, 0 <? length (At_Images m)) ms.

(** [llm/provider.go:157-180 ChatRequest] the numbers that are floats in their
    JSON form. *)
Record ChatRequest := mk_request {
  ReasoningBudgetTokens : Z; Rq_Model : string; Rq_Messages : list Attached; Temperature : option json; TopP : option json;
  TopK : option Z; MinP : option json; MaxTokens : Z; Stop : list string; Seed : option Z; Thinking : string;
  Rq_Tools : list ToolDef; ToolChoice : string }.

(** [llm/provider.go:250-254 UnsupportedError.Error] *)
Definition UnsupportedError (provider capability : string) : error :=
  mk_error (Some "llm.ErrUnsupported")
    ("llm: provider " +:+ quoted provider +:+ " does not support " +:+ capability +:+
     "; route this role to a provider that declares it, or use the deterministic fallback").

(** A body: JSON values, fragments that are JSON text already, and composites of
    both; the members of an object in the order they are set. *)
Inductive wire :=
| WJson (j : json)
| WRaw (text : string)
| WArr (l : list wire)
| WObj (l : list (string * wire)).
Definition wstr (s : string) : wire := WJson (JStr s).
Definition wnum (z : Z) : wire := WJson (JNum z).
Definition when {A} (b : bool) (l : list A) : list A := if b then l else [].
Definition given {A B} (o : option A) (k : string) (f : A → B) : list (string * B) :=
  match o with Some a => [(k, f a)] | None => [] end.
Definition nonempty (s : string) : bool := negb (String.eqb s "").

(** [base64.StdEncoding] *)
Definition base64_char (n : nat) : ascii :=
  ascii_of_nat (if n <? 26 then 65 + n else if n <? 52 then 71 + n else if n <? 62 then n - 4 else if n =? 62 then 43 else 47).
Definition base64_group (a b c : nat) : list ascii :=
  base64_char <$> [a / 4; (a mod 4) * 16 + b / 16; (b mod 16) * 4 + c / 64; c mod 64].
Fixpoint base64_of (l : list ascii) : list ascii :=
  match l with
  | [] => []
  | [a] => take 2 (base64_group (nat_of_ascii a) 0 0) ++ ["="%char; "="%char]
  | [a; b] => take 3 (base64_group (nat_of_ascii a) (nat_of_ascii b) 0) ++ ["="%char]
  | a :: b :: c :: l => base64_group (nat_of_ascii a) (nat_of_ascii b) (nat_of_ascii c) ++ base64_of l
  end.
Definition base64 (s : string) : string := String.string_of_list_ascii (base64_of (String.list_ascii_of_string s)).

(** [llm/openai.go:415-421 dataURI] *)
Definition dataURI (img : Image) : string :=
  let media := if String.eqb (MediaType img) "" then "application/octet-stream" else MediaType img in
  "data:" +:+ media +:+ ";base64," +:+ base64 (Img_Data img).

(** ** Clients *)

(** [llm/openai.go:19-26 OpenAICompatible] and [Anthropic]; the timeout, in
    nanoseconds, is the HTTP client's. *)
Record Client := mk_client {
  Cl_Name : string; Cl_BaseURL : string; Cl_APIKey : string; Cl_Model : string; Cl_Caps : Capabilities; Cl_Timeout : Z }.

(** [llm/openai.go:29-38 Options] *)
Record Options := mk_options { Op_Name : string; Op_BaseURL : string; Op_APIKey : string; Op_Model : string; Op_Caps : Capabilities; Op_Timeout : Z }.

(** [llm/provider.go:50-50 DefaultTimeout] *)
Definition DefaultTimeout : Z := 600000000000.

(** [strings.TrimRight(s, "/")] *)
Fixpoint trim_slashes (s : string) : string :=
  match s with
  | EmptyString => EmptyString
  | String c s' =>
      match trim_slashes s' with
      | EmptyString => if Ascii.eqb c "/" then EmptyString else String c EmptyString
      | t => String c t
      end
  end.

Definition with_kind (k : Kind) (c : Capabilities) : Capabilities :=
  mk_caps k (ToolCalling c) (StructuredOutput c) (Grammar c) (Infill_ c) (Embeddings c) (Vision c) (ThinkingControl c) (MaxContext c) (Local c).

(** [llm/openai.go:42-55 NewOpenAICompatible] *)
Definition NewOpenAICompatible (o : Options) : Client :=
  let timeout := if Z.leb (Op_Timeout o) 0 then DefaultTimeout else Op_Timeout o in
  let caps := if String.eqb (Ca_Kind (Op_Caps o)) "" then with_kind KindOpenAICompatible (Op_Caps o) else Op_Caps o in
  mk_client (Op_Name o) (trim_slashes (Op_BaseURL o)) (Op_APIKey o) (Op_Model o) caps timeout.

(** [llm/openai.go:60-82 NewLlamaCPP] *)
Definition NewLlamaCPP (o : Options) : Client :=
  let caps := if String.eqb (Ca_Kind (Op_Caps o)) ""
              then mk_caps KindLlamaCPP true true true false false false true (MaxContext (Op_Caps o)) true
              else Op_Caps o in
  NewOpenAICompatible (mk_options (Op_Name o) (Op_BaseURL o) (Op_APIKey o) (Op_Model o) caps (Op_Timeout o)).

(** [llm/anthropic.go:45-45 DefaultAnthropicModel] *)
Definition DefaultAnthropicModel : string := "claude-opus-5".
(** [llm/anthropic.go:49-49 DefaultAnthropicMaxTokens] *)
Definition DefaultAnthropicMaxTokens : Z := 16000.

(** [llm/anthropic.go:52-72 NewAnthropic] *)
Definition NewAnthropic (o : Options) : Client :=
  let timeout := if Z.leb (Op_Timeout o) 0 then DefaultTimeout else Op_Timeout o in
  let base := if String.eqb (Op_BaseURL o) "" then "https://api.anthropic.com" else Op_BaseURL o in
  let model := if String.eqb (Op_Model o) "" then DefaultAnthropicModel else Op_Model o in
  let c := Op_Caps o in
  let caps := mk_caps KindAnthropic (ToolCalling c) (StructuredOutput c) (Grammar c) (Infill_ c) (Embeddings c) (Vision c)
                (ThinkingControl c) (MaxContext c) false in
  mk_client (Op_Name o) (trim_slashes base) (Op_APIKey o) model caps timeout.

(** ** The bodies *)

(** [llm/openai.go:278-284 openAIMessages] one call. *)
Definition openai_call (tc : ToolCall) : wire :=
  WObj [("id", wstr (TC_ID tc)); ("type", wstr "function");
        ("function", WObj [("name", wstr (TC_Name tc)); ("arguments", wstr (TC_Arguments tc))])].
(** [llm/openai.go:252-287 openAIMessages] one message. *)
Definition openai_message (a : Attached) : wire :=
  let m := At_Message a in
  let content :=
    if length (At_Images a) =? 0 then wstr (Content m)
    else WArr (when (nonempty (Content m)) [WObj [("type", wstr "text"); ("text", wstr (Content m))]] ++
               ((λ img, WObj [("type", wstr "image_url"); ("image_url", WObj [("url", wstr (dataURI img))])]) <$> At_Images a)) in
  WObj ([("role", wstr (Role m)); ("content", content)] ++
        when (nonempty (M_Name m)) [("name", wstr (M_Name m))] ++
        when (nonempty (ToolCallID m)) [("tool_call_id", wstr (ToolCallID m))] ++
        when (0 <? length (ToolCalls m)) [("tool_calls", WArr (openai_call <$> ToolCalls m))]).
(** [llm/openai.go:249-290 openAIMessages] *)
Definition openAIMessages (ms : list Attached) : wire := WArr (openai_message <$> ms).

(** [llm/openai.go:121-126 OpenAICompatible.chat] a tool. *)
Definition openai_tool (t : ToolDef) : wire :=
  WObj [("type", wstr "function");
        ("function", WObj [("name", wstr (Td_Name t)); ("description", wstr (Td_Description t)); ("parameters", WRaw (Td_Schema t))])].
(** [llm/openai.go:113-169 OpenAICompatible.chat] the body. *)
Definition openai_body (p : Client) (r : ChatRequest) (schema : option string) : wire :=
  let model := if String.eqb (Rq_Model r) "" then Cl_Model p else Rq_Model r in
  WObj ([("model", wstr model); ("messages", openAIMessages (Rq_Messages r))] ++
        when (0 <? length (Rq_Tools r))
          (("tools", WArr (openai_tool <$> Rq_Tools r)) ::
           when (nonempty (ToolChoice r)) [("tool_choice", wstr (ToolChoice r))]) ++
        given (Temperature r) "temperature" WJson ++ given (TopP r) "top_p" WJson ++ given (TopK r) "top_k" wnum ++
        given (MinP r) "min_p" WJson ++
        when (Z.ltb 0 (MaxTokens r)) [("max_tokens", wnum (MaxTokens r))] ++
        when (0 <? length (Stop r)) [("stop", WArr (wstr <$> Stop r))] ++
        given (Seed r) "seed" wnum ++
        given schema "response_format" (λ s,
          WObj [("type", wstr "json_schema");
                ("json_schema", WObj [("name", wstr "response"); ("strict", WJson (JBool true)); ("schema", WRaw s)])]) ++
        when (nonempty (Thinking r) && ThinkingControl (Cl_Caps p))
          [("chat_template_kwargs", WObj [("enable_thinking", WJson (JBool (negb (String.eqb (Thinking r) "off"))))])] ++
        when (Z.ltb 0 (ReasoningBudgetTokens r) && String.eqb (Ca_Kind (Cl_Caps p)) KindLlamaCPP)
          [("reasoning_budget_tokens", wnum (ReasoningBudgetTokens r))]).

(** A turn of the Anthropic interface: a content is a text, or blocks. *)
Inductive block :=
| BText (text : string)
| BToolResult (tool_use_id content : string)
| BToolUse (id name input : string)           (* the input is JSON text *)
| BImage (media data : string).
Inductive turn_content := CText (s : string) | CBlocks (l : list block).
Record turn := mk_turn { Tu_Role : string; Tu_Content : turn_content }.

(** [llm/anthropic.go:162-170 Anthropic.messages] *)
Definition tool_use (tc : ToolCall) : block :=
  BToolUse (TC_ID tc) (TC_Name tc) (if nonempty (TC_Arguments tc) then TC_Arguments tc else "{}").
(** [llm/anthropic.go:181-191 Anthropic.messages] *)
Definition image_block (img : Image) : block :=
  BImage (if String.eqb (MediaType img) "" then "image/png" else MediaType img) (base64 (Img_Data img)).
(** [llm/anthropic.go:158-161 Anthropic.messages] *)
Definition text_first (text : string) (blocks : list block) : turn_content :=
  CBlocks (when (nonempty text) [BText text] ++ blocks).

(** [llm/anthropic.go:145-156 Anthropic.messages] a tool result joins the user's
    blocks it follows, or opens a turn. *)
Definition add_result (turns : list turn) (b : block) : list turn :=
  match last turns with
  | Some (mk_turn role (CBlocks blocks)) =>
      if String.eqb role "user" then removelast turns ++ [mk_turn role (CBlocks (blocks ++ [b]))]
      else turns ++ [mk_turn "user" (CBlocks [b])]
  | _ => turns ++ [mk_turn "user" (CBlocks [b])]
  end.

(** [llm/anthropic.go:138-196 Anthropic.messages] one message: the system texts
    so far, and the turns. *)
Definition anthropic_step (acc : list string * list turn) (a : Attached) : list string * list turn :=
  let '(system, turns) := acc in
  let m := At_Message a in
  if String.eqb (Role m) "system" then (system ++ [Content m], turns)
  else if String.eqb (Role m) "tool" then (system, add_result turns (BToolResult (ToolCallID m) (Content m)))
  else if 0 <? length (ToolCalls m) then (system, turns ++ [mk_turn (Role m) (text_first (Content m) (tool_use <$> ToolCalls m))])
  else if 0 <? length (At_Images a) then (system, turns ++ [mk_turn (Role m) (text_first (Content m) (image_block <$> At_Images a))])
  else (system, turns ++ [mk_turn (Role m) (CText (Content m))]).
(** [llm/anthropic.go:135-197 Anthropic.messages] *)
Definition anthropic_turns (ms : list Attached) : list string * list turn := foldl anthropic_step ([], []) ms.

Definition wire_block (b : block) : wire :=
  match b with
  | BText t => WObj [("type", wstr "text"); ("text", wstr t)]
  | BToolResult id c => WObj [("type", wstr "tool_result"); ("tool_use_id", wstr id); ("content", wstr c)]
  | BToolUse id n i => WObj [("type", wstr "tool_use"); ("id", wstr id); ("name", wstr n); ("input", WRaw i)]
  | BImage media data =>
      WObj [("type", wstr "image");
            ("source", WObj [("type", wstr "base64"); ("media_type", wstr media); ("data", wstr data)])]
  end.
Definition wire_turn (t : turn) : wire :=
  WObj [("role", wstr (Tu_Role t));
        ("content", match Tu_Content t with CText s => wstr s | CBlocks l => WArr (wire_block <$> l) end)].

(** [llm/anthropic.go:198-248 Anthropic.messages] the body, or why there is none. *)
Definition anthropic_body (p : Client) (r : ChatRequest) (schema : option string) : result wire :=
  let '(system, turns) := anthropic_turns (Rq_Messages r) in
  match last turns with
  | None => Err (errorf ("llm: " +:+ Cl_Name p +:+ ": no user turns in request"))
  | Some t =>
      if String.eqb (Tu_Role t) "assistant"
      then Err (errorf ("llm: " +:+ Cl_Name p +:+ ": the request ends on an assistant turn (prefill), which current models reject; use ChatStructured to constrain the output format instead"))
      else
      let model := if String.eqb (Rq_Model r) "" then Cl_Model p else Rq_Model r in
      let maxTokens := if Z.leb (MaxTokens r) 0 then DefaultAnthropicMaxTokens else MaxTokens r in
      Ok (WObj ([("model", wstr model); ("max_tokens", wnum maxTokens); ("messages", WArr (wire_turn <$> turns))] ++
        when (0 <? length (Rq_Tools r))
          (("tools", WArr ((λ t, WObj [("name", wstr (Td_Name t)); ("description", wstr (Td_Description t));
                                       ("input_schema", WRaw (Td_Schema t))]) <$> Rq_Tools r)) ::
           when (String.eqb (ToolChoice r) "none") [("tool_choice", WObj [("type", wstr "none")])]) ++
        when (0 <? length system) [("system", wstr (join (nl +:+ nl) system))] ++
        given (Temperature r) "temperature" WJson ++ given (TopP r) "top_p" WJson ++
        when (0 <? length (Stop r)) [("stop_sequences", WArr (wstr <$> Stop r))] ++
        given schema "output_config" (λ s, WObj [("format", WObj [("type", wstr "json_schema"); ("schema", WRaw s)])]) ++
        when (ThinkingControl (Cl_Caps p))
          (if String.eqb (Thinking r) "off" then [("thinking", WObj [("type", wstr "disabled")])]
           else when (mem (Thinking r) ["auto"; "always"]) [("thinking", WObj [("type", wstr "adaptive")])])))
  end.

(** ** The answers *)

(** [llm/openai.go:174-193 OpenAICompatible.chat] the fields of a choice the
    response keeps. *)
Record openai_choice := mk_choice {
  Oc_Content : string; Oc_Reasoning : string; Oc_Calls : list ToolCall; Oc_Finish : string }.
(** [llm/openai.go:172-213 OpenAICompatible.chat] the answer: the choices and the
    two token counts. *)
Record openai_reply := mk_openai { Or_Choices : list openai_choice; Or_Prompt : Z; Or_Completion : Z }.

(** [llm/openai.go:215-242 OpenAICompatible.chat] the response. *)
Definition openai_response (p : Client) (out : openai_reply) : result ChatResponse :=
  match Or_Choices out with
  | [] => Err (errorf ("llm: " +:+ Cl_Name p +:+ " returned no choices"))
  | c :: _ =>
      Ok (mk_chatr (Oc_Content c) (Oc_Reasoning c) (Or_Prompt out) (Or_Completion out) (Oc_Finish c)
           ((λ tc, mk_call (TC_ID tc) (TC_Name tc) (if String.eqb (trim_space (TC_Arguments tc)) "" then "{}" else TC_Arguments tc))
              <$> Oc_Calls c))
  end.

(** [llm/anthropic.go:253-259 Anthropic.messages] a block of the answer. *)
Record anthropic_block := mk_ablock { Ab_Type : string; Ab_Text : string; Ab_ID : string; Ab_Name : string; Ab_Input : string }.
(** [llm/anthropic.go:251-271 Anthropic.messages] the answer. *)
Record anthropic_reply := mk_anthropic {
  Ar_Content : list anthropic_block; Ar_StopReason : string; Ar_StopDetails : option (string * string);
  Ar_Input : Z; Ar_Output : Z; Ar_CacheRead : Z; Ar_CacheCreation : Z }.

(** [llm/anthropic.go:111-113 RefusalError.Error] *)
Definition RefusalError (provider category explanation : string) : error :=
  mk_error (Some "llm.RefusalError")
    ("llm: " +:+ provider +:+ " declined the request (category " +:+ quoted category +:+ "): " +:+ explanation).

(** [llm/anthropic.go:276-304 Anthropic.messages] the response; reasoning is not
    kept. *)
Definition anthropic_response (p : Client) (out : anthropic_reply) : result ChatResponse :=
  if String.eqb (Ar_StopReason out) "refusal"
  then let '(category, explanation) := default ("", "") (Ar_StopDetails out) in Err (RefusalError (Cl_Name p) category explanation)
  else
    let text := join "" (omap (λ b, if String.eqb (Ab_Type b) "text" then Some (Ab_Text b) else None) (Ar_Content out)) in
    let calls := omap (λ b, if String.eqb (Ab_Type b) "tool_use"
                            then Some (mk_call (Ab_ID b) (Ab_Name b) (if nonempty (Ab_Input b) then Ab_Input b else "{}"))
                            else None) (Ar_Content out) in
    Ok (mk_chatr text "" (Ar_Input out + Ar_CacheRead out + Ar_CacheCreation out) (Ar_Output out) (Ar_StopReason out) calls).

(** ** The calls *)

Section calls.
Context {N : Type}.                                                  (* the network *)
Context (http : string → string → wire → M N (Z * string)).          (* POST to a URL with a key: the status, and the body up to 64 MiB *)
Context (json_valid : string → bool).                                (* [json.Marshal]'s check of a raw fragment *)
Context (decode_openai : string → result openai_reply) (decode_anthropic : string → result anthropic_reply)
        (decode_vectors : string → result (list (list json))) (decode_infill : string → result (string * Z * Z)).

(** [json.Marshal]: an empty fragment is null. *)
Fixpoint marshals (w : wire) : bool :=
  match w with
  | WJson _ => true
  | WRaw t => String.eqb t "" || json_valid t
  | WArr l => forallb marshals l
  | WObj l => forallb (λ kv, marshals kv.2) l
  end.
Definition marshal_error : error := errorf "json: error calling MarshalJSON for type json.RawMessage".

(** [llm/openai.go:375-410 OpenAICompatible.post]; what is shown of an error
    page is cut at 512 bytes. *)
Definition openai_post {A} (p : Client) (decode : string → result A) (path : string) (payload : wire) : M N A :=
  if negb (marshals payload) then throw marshal_error else
  r ← wrapM ("llm: " +:+ Cl_Name p +:+ " " +:+ path +:+ ": ") (http (Cl_BaseURL p +:+ path) (Cl_APIKey p) payload);
  let '(status, raw) := r : Z * string in
  if negb (Z.eqb status 200)
  then let snippet := if 512 <? String.length raw then take_str 512 raw +:+ "…" else raw in
       throw (errorf ("llm: " +:+ Cl_Name p +:+ " " +:+ path +:+ ": HTTP " +:+ pretty status +:+ ": " +:+ trim_space snippet))
  else lift (wrap_r ("llm: " +:+ Cl_Name p +:+ " " +:+ path +:+ ": decode response: ") (decode raw)).

(** [llm/anthropic.go:339-371 Anthropic.post] the page is trimmed before it is
    cut. *)
Definition anthropic_post {A} (p : Client) (decode : string → result A) (path : string) (payload : wire) : M N A :=
  if negb (marshals payload) then throw marshal_error else
  r ← wrapM ("llm: " +:+ Cl_Name p +:+ " " +:+ path +:+ ": ") (http (Cl_BaseURL p +:+ path) (Cl_APIKey p) payload);
  let '(status, raw) := r : Z * string in
  if negb (Z.eqb status 200)
  then let snippet := trim_space raw in
       let snippet := if 512 <? String.length snippet then take_str 512 snippet +:+ "…" else snippet in
       throw (errorf ("llm: " +:+ Cl_Name p +:+ " " +:+ path +:+ ": HTTP " +:+ pretty status +:+ ": " +:+ snippet))
  else lift (wrap_r ("llm: " +:+ Cl_Name p +:+ " " +:+ path +:+ ": decode response: ") (decode raw)).

(** [llm/openai.go:105-112 OpenAICompatible.chat] what a request may not carry, the
    same on both interfaces. *)
Definition gap (p : Client) (r : ChatRequest) : option string :=
  if (0 <? length (Rq_Tools r)) && negb (ToolCalling (Cl_Caps p)) then Some "tool calling"
  else if HasImages (Rq_Messages r) && negb (Vision (Cl_Caps p)) then Some "vision" else None.

(** [llm/openai.go:104-243 OpenAICompatible.chat] *)
Definition openai_chat (p : Client) (r : ChatRequest) (schema : option string) : M N ChatResponse :=
  match gap p r with
  | Some capability => throw (UnsupportedError (Cl_Name p) capability)
  | None =>
      out ← openai_post p decode_openai "/v1/chat/completions" (openai_body p r schema);
      lift (openai_response p out)
  end.

(** [llm/openai.go:88-90 OpenAICompatible.Chat] *)
Definition openai_Chat (p : Client) (r : ChatRequest) : M N ChatResponse := openai_chat p r None.

(** What both interfaces check of a structured call. *)
Definition structured (chat : Client → ChatRequest → option string → M N ChatResponse) (p : Client) (r : ChatRequest) (schema : string)
    : M N ChatResponse :=
  if negb (StructuredOutput (Cl_Caps p)) then throw (UnsupportedError (Cl_Name p) "structured output")
  else if String.eqb schema "" then throw (errorf "llm: ChatStructured called without a schema")
  else chat p r (Some schema).

(** [llm/openai.go:94-102 OpenAICompatible.ChatStructured] *)
Definition openai_ChatStructured : Client → ChatRequest → string → M N ChatResponse := structured openai_chat.

(** [llm/openai.go:292-317 OpenAICompatible.Embed] the vectors. *)
Definition openai_Embed (p : Client) (model : string) (input : list string) : M N (list (list json)) :=
  if negb (Embeddings (Cl_Caps p)) then throw (UnsupportedError (Cl_Name p) "embeddings") else
  openai_post p decode_vectors "/v1/embeddings"
    (WObj [("model", wstr (if String.eqb model "" then Cl_Model p else model)); ("input", WArr (wstr <$> input))]).

(** [llm/openai.go:319-343 OpenAICompatible.Infill] *)
Definition openai_Infill (p : Client) (prefix suffix : string) (maxTokens : Z) : M N ChatResponse :=
  if negb (Infill_ (Cl_Caps p)) then throw (UnsupportedError (Cl_Name p) "infill") else
  out ← openai_post p decode_infill "/infill"
          (WObj ([("input_prefix", wstr prefix); ("input_suffix", wstr suffix)] ++ when (Z.ltb 0 maxTokens) [("n_predict", wnum maxTokens)]));
  let '(content, prompt, predicted) := out : string * Z * Z in
  mret (mk_chatr content "" prompt predicted "stop" []).

(** [llm/anthropic.go:115-305 Anthropic.messages] *)
Definition anthropic_messages (p : Client) (r : ChatRequest) (schema : option string) : M N ChatResponse :=
  match gap p r with
  | Some capability => throw (UnsupportedError (Cl_Name p) capability)
  | None =>
      body ← lift (anthropic_body p r schema);
      out ← anthropic_post p decode_anthropic "/v1/messages" body;
      lift (anthropic_response p out)
  end.

(** [llm/anthropic.go:88-90 Anthropic.Chat] *)
Definition anthropic_Chat (p : Client) (r : ChatRequest) : M N ChatResponse := anthropic_messages p r None.
(** [llm/anthropic.go:92-100 Anthropic.ChatStructured] *)
Definition anthropic_ChatStructured : Client → ChatRequest → string → M N ChatResponse := structured anthropic_messages.
(** [llm/anthropic.go:80-82 Anthropic.Embed] *)
Definition anthropic_Embed (p : Client) (model : string) (input : list string) : M N (list (list json)) :=
  throw (UnsupportedError (Cl_Name p) "embeddings").
(** [llm/anthropic.go:84-86 Anthropic.Infill] *)
Definition anthropic_Infill (p : Client) (prefix suffix : string) (maxTokens : Z) : M N ChatResponse :=
  throw (UnsupportedError (Cl_Name p) "infill").
End calls.

(** ** A conversation on the Anthropic interface

    The translation goes message by message and looks back at the last turn.  What
    it makes of a conversation is said here by its parts: something said, or a
    batch of calls with its answers. *)

Inductive utterance := Say (a : Attached) | Batch (a : Attached) (replies : list Attached).
Definition uttered (u : utterance) : list Attached := match u with Say a => [a] | Batch a replies => a :: replies end.
Definition speaker (a : Attached) : string := Role (At_Message a).

(** A tool speaks in answer to a batch only, and every call is answered in turn. *)
Definition well_said (u : utterance) : Prop :=
  match u with
  | Say a => speaker a ≠ "tool" ∧ ToolCalls (At_Message a) = []
  | Batch a replies =>
      speaker a = "assistant" ∧ ToolCalls (At_Message a) ≠ [] ∧
      Forall2 answers_call (ToolCalls (At_Message a)) (At_Message <$> replies)
  end.

Definition system_texts (u : utterance) : list string :=
  match u with Say a => when (String.eqb (speaker a) "system") [Content (At_Message a)] | Batch _ _ => [] end.

Definition said (a : Attached) : turn :=
  mk_turn (speaker a)
    (if 0 <? length (At_Images a) then text_first (Content (At_Message a)) (image_block <$> At_Images a)
     else CText (Content (At_Message a))).
Definition answer_block (a : Attached) : block := BToolResult (ToolCallID (At_Message a)) (Content (At_Message a)).
(** The turns an utterance stands for: a batch is two, and all its answers are in
    the second. *)
Definition turns_of (u : utterance) : list turn :=
  match u with
  | Say a => when (negb (String.eqb (speaker a) "system")) [said a]
  | Batch a replies =>
      [mk_turn "assistant" (text_first (Content (At_Message a)) (tool_use <$> ToolCalls (At_Message a)));
       mk_turn "user" (CBlocks (answer_block <$> replies))]
  end.

Lemma step_say system turns a : speaker a ≠ "tool" → ToolCalls (At_Message a) = [] →
  anthropic_step (system, turns) a = (system ++ system_texts (Say a), turns ++ turns_of (Say a)).
Proof.
  unfold anthropic_step, system_texts, turns_of, said, speaker. intros Ht Hc. rewrite Hc.
  destruct (String.eqb_spec (Role (At_Message a)) "system"); [by rewrite app_nil_r |].
  destruct (String.eqb_spec (Role (At_Message a)) "tool"); [done |]. cbn [length Nat.ltb Nat.leb].
  destruct (length (At_Images a)); cbn [negb when]; by rewrite app_nil_r.
Qed.

Lemma step_answer system turns role blocks a : speaker a = "tool" → role = "user" →
  anthropic_step (system, turns ++ [mk_turn role (CBlocks blocks)]) a = (system, turns ++ [mk_turn role (CBlocks (blocks ++ [answer_block a]))]).
Proof.
  unfold anthropic_step, speaker. intros -> ->. cbn [String.eqb Ascii.eqb Bool.eqb]. unfold add_result.
  by rewrite last_snoc, removelast_last.
Qed.

Lemma steps_answers system replies : ∀ turns blocks, Forall (λ a, speaker a = "tool") replies →
  foldl anthropic_step (system, turns ++ [mk_turn "user" (CBlocks blocks)]) replies =
  (system, turns ++ [mk_turn "user" (CBlocks (blocks ++ (answer_block <$> replies)))]).
Proof.
  induction replies as [|a replies IH]; intros turns blocks Hr; cbn [foldl]; [by rewrite app_nil_r |].
  apply Forall_cons in Hr as [Ha Hr]. rewrite step_answer by done. rewrite IH by done. by rewrite <- app_assoc.
Qed.

Lemma answers_tools calls replies : Forall2 answers_call calls (At_Message <$> replies) → Forall (λ a, speaker a = "tool") replies.
Proof.
  intros H. apply Forall_fmap with (f := At_Message) (P := λ m, Role m = "tool"). clear -H. revert H.
  induction 1 as [|c m calls ms [Hm _] _ IH]; by constructor.
Qed.

Lemma steps_utterance system turns u : well_said u →
  foldl anthropic_step (system, turns) (uttered u) = (system ++ system_texts u, turns ++ turns_of u).
Proof.
  destruct u as [a|a replies]; cbn [uttered well_said]; [intros [Ht Hc]; by apply step_say |].
  intros (Ha & Hne & Hr). pose proof (answers_tools _ _ Hr) as Ht. cbn [foldl system_texts]. rewrite app_nil_r.
  destruct replies as [|b replies]; [by apply Forall2_nil_inv_r in Hr |]. apply Forall_cons in Ht as [Hb Ht].
  assert (E : ∀ x, anthropic_step (system, turns) a = x → x = (system, turns ++ [mk_turn "assistant"
                (text_first (Content (At_Message a)) (tool_use <$> ToolCalls (At_Message a)))])).
  { intros x <-. unfold anthropic_step. unfold speaker in Ha. rewrite Ha. cbn [String.eqb Ascii.eqb Bool.eqb].
    by destruct (ToolCalls (At_Message a)). }
  rewrite (E _ eq_refl). cbn [foldl].
  assert (E2 : ∀ ts t c, anthropic_step (system, ts ++ [mk_turn "assistant" c]) t = (system, (ts ++ [mk_turn "assistant" c]) ++ [mk_turn "user" (CBlocks [answer_block t])]) ∨ speaker t ≠ "tool").
  { intros ts t c. destruct (decide (speaker t = "tool")) as [Hs|]; [left | by right]. unfold anthropic_step. unfold speaker in Hs. rewrite Hs.
    cbn [String.eqb Ascii.eqb Bool.eqb]. unfold add_result. rewrite last_snoc. unfold text_first. by destruct c. }
  unfold text_first at 1. destruct (E2 turns b (text_first (Content (At_Message a)) (tool_use <$> ToolCalls (At_Message a)))) as [E3|]; [|done].
  unfold text_first at 1 in E3. rewrite E3, steps_answers by done. by rewrite <- app_assoc.
Qed.

Lemma turns_utterances us : ∀ system turns, Forall well_said us →
  foldl anthropic_step (system, turns) (us ≫= uttered) = (system ++ (us ≫= system_texts), turns ++ (us ≫= turns_of)).
Proof.
  induction us as [|u us IH]; intros system turns Hu; cbn [mbind list_bind foldl]; [by rewrite !app_nil_r |].
  apply Forall_cons in Hu as [Hu Hus]. rewrite foldl_app, steps_utterance, IH by done. by rewrite <- !app_assoc.
Qed.

(** A message of a transcript, which has no images. *)
Definition bare (m : Message) : Attached := mk_attached m [].

Lemma conversation_utterances ms : conversation ms → ∃ us, bare <$> ms = us ≫= uttered ∧ Forall well_said us.
Proof.
  induction 1 as [|ms m _ (us & E & Hu) Hr Hc|ms m replies _ (us & E & Hu) Ha Hne Hf]; [by exists [] | |].
  - exists (us ++ [Say (bare m)]). rewrite fmap_app, bind_app, E. split; [done |]. apply Forall_app. split; [done |]. by repeat constructor.
  - exists (us ++ [Batch (bare m) (bare <$> replies)]). rewrite fmap_app, bind_app, E. split; [cbn; by rewrite app_nil_r |].
    apply Forall_app. split; [done |]. constructor; [|done]. cbn. split_and!; [done | done |].
    by rewrite <- list_fmap_compose, list_fmap_id.
Qed.

(** The calls a turn makes and the answers it holds, by their ids. *)
Definition blocks_of (t : turn) : list block := match Tu_Content t with CText _ => [] | CBlocks l => l end.
Definition uses (t : turn) : list string := omap (λ b, match b with BToolUse id _ _ => Some id | _ => None end) (blocks_of t).
Definition results (t : turn) : list string := omap (λ b, match b with BToolResult id _ => Some id | _ => None end) (blocks_of t).

(** What the Anthropic interface accepts: the turn after one that makes calls is
    the user's and answers exactly those, in order; no other turn has answers. *)
Inductive paired : list turn → Prop :=
| paired_nil : paired []
| paired_say ts t : paired ts → uses t = [] → results t = [] → paired (ts ++ [t])
| paired_batch ts a u : paired ts → Tu_Role a = "assistant" → uses a ≠ [] → results a = [] →
    Tu_Role u = "user" → uses u = [] → results u = uses a → paired (ts ++ [a; u]).

Lemma omap_when_text {A} (f : block → option A) b text l : f (BText text) = None →
  omap f (when b [BText text] ++ l) = omap f l.
Proof. intros H. destruct b; cbn; [by rewrite H | done]. Qed.

Lemma said_quiet a : uses (said a) = [] ∧ results (said a) = [].
Proof.
  unfold uses, results, said, blocks_of, text_first. cbn [Tu_Content]. destruct (0 <? length (At_Images a)); [|done].
  rewrite !omap_when_text by done. induction (At_Images a) as [|img l IH]; [done |]. exact IH.
Qed.

Lemma batch_ids calls replies : Forall2 answers_call calls (At_Message <$> replies) →
  omap (λ b, match b with BToolResult id _ => Some id | _ => None end) (answer_block <$> replies) =
  omap (λ b, match b with BToolUse id _ _ => Some id | _ => None end) (tool_use <$> calls).
Proof.
  revert replies. induction calls as [|c calls IH]; intros [|r replies] H; cbn in H; inversion H as [|? ? ? ? (_ & Hid & _) Hf]; subst; [done |].
  cbn. by rewrite Hid, (IH replies Hf).
Qed.

Lemma turns_of_paired ts u : paired ts → well_said u → paired (ts ++ turns_of u).
Proof.
  intros Hts. destruct u as [a|a replies]; cbn [well_said turns_of].
  - intros _. destruct (String.eqb (speaker a) "system"); cbn [negb when]; [by rewrite app_nil_r |].
    destruct (said_quiet a). by apply paired_say.
  - intros (_ & Hne & Hf). apply paired_batch; try done.
    + unfold uses, blocks_of, text_first. cbn [Tu_Content]. rewrite omap_when_text by done. by destruct (ToolCalls (At_Message a)).
    + unfold results, blocks_of, text_first. cbn [Tu_Content]. rewrite omap_when_text by done.
      clear. by induction (ToolCalls (At_Message a)) as [|c l IH]; [|exact IH].
    + unfold uses, blocks_of. cbn [Tu_Content]. clear. by induction replies as [|r l IH]; [|exact IH].
    + unfold uses, results, blocks_of, text_first. cbn [Tu_Content]. rewrite omap_when_text by done. by apply batch_ids.
Qed.

Lemma all_turns_paired us : ∀ ts, paired ts → Forall well_said us → paired (ts ++ (us ≫= turns_of)).
Proof.
  induction us as [|u us IH]; intros ts Hts Hu; cbn [mbind list_bind]; [by rewrite app_nil_r |].
  apply Forall_cons in Hu as [Hu Hus]. rewrite app_assoc. apply IH; [|done]. by apply turns_of_paired.
Qed.

(** C15: Whatever conversation the native engine keeps, a request to the Anthropic
    interface says the same: the system messages become the system text, in order;
    each other message becomes a turn, and a batch of calls two, the user's holding
    the answers to exactly these calls in their order.  So no call is left without
    its answer and no answer stands without its call. *)
Theorem conversation_translated ms : conversation ms →
  ∃ us, bare <$> ms = us ≫= uttered ∧ Forall well_said us ∧
    anthropic_turns (bare <$> ms) = (us ≫= system_texts, us ≫= turns_of) ∧ paired (us ≫= turns_of).
Proof.
  intros Hc. destruct (conversation_utterances ms Hc) as (us & E & Hu). exists us. split_and!; [done | done | |].
  - unfold anthropic_turns. by rewrite E, turns_utterances.
  - apply (all_turns_paired us []); [apply paired_nil | done].
Qed.

(** The conversation of the engine's example, with its batch answered. *)
Definition demo_talk : list Message := demo_open ++ demo_batch :: [tool_message demo_call "done"].
Lemma demo_talk_conversation : conversation demo_talk.
Proof.
  apply (conv_batch demo_open demo_batch [tool_message demo_call "done"]); [apply demo_open_conversation | done | done |].
  by repeat constructor.
Qed.

Lemma conversation_translated_witness :
  length (anthropic_turns (bare <$> demo_talk)).2 = 3 ∧
  ∃ us, anthropic_turns (bare <$> demo_talk) = (us ≫= system_texts, us ≫= turns_of) ∧ paired (us ≫= turns_of).
Proof.
  split; [reflexivity |].
  destruct (conversation_translated demo_talk demo_talk_conversation) as (us & _ & _ & H1 & H2). exists us. split; [exact H1 | exact H2].
Defined.

(** ** What a provider does not declare is refused *)

Section gaps.
Context {N : Type} (http : string → string → wire → M N (Z * string)) (json_valid : string → bool)
        (decode_openai : string → result openai_reply) (decode_anthropic : string → result anthropic_reply).

(** A request with tools or images the server does not declare is refused without
    touching the network, by either interface; so is a structured call to a
    server without structured output. *)
Lemma gap_refused p r schema s capability : gap p r = Some capability →
  openai_chat http json_valid decode_openai p r schema s = (Err (UnsupportedError (Cl_Name p) capability), s) ∧
  anthropic_messages http json_valid decode_anthropic p r schema s = (Err (UnsupportedError (Cl_Name p) capability), s).
Proof. intros H. unfold openai_chat, anthropic_messages. by rewrite H. Qed.
End gaps.

(** *** The declarations of a llama server *)

(** A capabilities block without a kind is dropped: what the operator declared
    of the server - here that it embeds - is not what the client declares. *)
Lemma declared_capabilities_dropped name url :
  let caps := mk_caps "" true true true true true false true 32768 true in
  Embeddings (Cl_Caps (NewLlamaCPP (mk_options name url "" "" caps 0))) = false ∧
  Infill_ (Cl_Caps (NewLlamaCPP (mk_options name url "" "" caps 0))) = false.
Proof. done. Qed.
