(* ===== verification/Router.v ===== *)
(** Which model server a role is sent to, and the servers the system runs itself:
    [src/internal/llm/router.go] and [managed.go].  Building a router refuses what
    offline mode does not allow; a managed server's process is loaded on demand,
    one at a time.

    The environment's variables, [net/url]'s parser and [json.Marshal] of a
    process's configuration are parameters.  The gate of the one process slot makes
    its operations atomic, so they are functions on the slot; what the operating
    system does meanwhile - a process exits, a signal is not obeyed, the port is
    taken - is what they are given to observe. *)
From S2P Require Import Memory Retrieval.
From S2P Require Import Prelude GoStrings GoPath Worktree Files Workspace Store Json Llm Providers.

Open Scope string_scope.
Open Scope list_scope.
Open Scope nat_scope.

(** [llm/provider.go:22-22 Role] *)
Definition Role := string.
(** [llm/provider.go:38-41 AllRoles] *)
Definition AllRoles : list Role :=
  ["orchestration"; "planning"; "coding"; "repository_search"; "summarization"; "review"; "classification"; "reranking";
   "verification"; "embedding"].
(** [llm/router.go:121-128 validRole] *)
Definition validRole (r : Role) : bool := existsb (λ c, String.eqb c r) AllRoles.

(** [llm/managed.go:24-28 ServerProcess] *)
Record ServerProcess := mk_process { Argv : list string; BinarySHA256 : string; ReadyTimeoutSeconds : Z }.

(** [llm/router.go:31-58 ProviderSpec] *)
Record ProviderSpec := mk_spec {
  Process : option ServerProcess; Sp_Name : string; Sp_Kind : Kind; Sp_BaseURL : string; Sp_Model : string;
  APIKeyEnv : string; Sp_Capabilities : option Capabilities; TimeoutSeconds : Z }.

(** [llm/router.go:21-28 ProvidersFile] the roles in the order the map is gone
    through. *)
Record ProvidersFile := mk_file { Default : string; Providers : list ProviderSpec; Roles : list (Role * string) }.

(** [llm/router.go:62-69 DefaultProvidersFile] *)
Definition DefaultProvidersFile (baseURL model : string) : ProvidersFile :=
  mk_file "local" [mk_spec None "local" KindLlamaCPP baseURL model "" None 0] [].

(** A provider: a client of one of the two interfaces, the client of a server
    the system runs, or one whose requests are sent one at a time. *)
Inductive Provider :=
| AnOpenAI (c : Client)
| AnAnthropic (c : Client)
| AManaged (c : Client) (process : ServerProcess) (address key : string)
| ASerialized (c : Client) (endpoint : string).
Definition client_of (p : Provider) : Client :=
  match p with AnOpenAI c | AnAnthropic c | AManaged c _ _ _ | ASerialized c _ => c end.
(** [llm/openai.go:85-85 OpenAICompatible.Capabilities] and [Anthropic]'s. *)
Definition caps_of (p : Provider) : Capabilities := Cl_Caps (client_of p).

(** [net/url.URL], the parts that are looked at. *)
Record URL := mk_url { Scheme : string; Hostname : string; Port : string; Host : string; has_user : bool }.

(** [llm/router.go:197-200 isLocalURL] *)
Definition isLocalURL (u : string) : bool :=
  contains_str u "127.0.0.1" || contains_str u "localhost" || contains_str u "[::1]" || contains_str u "host.docker.internal".

Section build.
Context (getenv : string → string) (url_parse : string → result URL) (marshal : ServerProcess → string).

(** [llm/managed.go:45-72 newManaged] *)
Definition newManaged (c : Client) (spec : ProviderSpec) (config : ServerProcess) : result Provider :=
  u ← url_parse (Sp_BaseURL spec);
  if negb (String.eqb (Scheme u) "http") || negb (String.eqb (Hostname u) "127.0.0.1") || has_user u
  then Err (errorf "managed model endpoint must use http://127.0.0.1:port")
  else match Atoi (Port u) with
  | None => Err (errorf "managed model endpoint needs an explicit port")
  | Some port =>
      if Z.ltb port 1 || Z.ltb 65535 port then Err (errorf "managed model endpoint needs an explicit port") else
      match Argv config with
      | [] => Err (errorf "managed profile requires an absolute executable and binary_sha256 pin")
      | exe :: _ =>
          if negb (is_abs exe) || negb (String.length (BinarySHA256 config) =? 64)
          then Err (errorf "managed profile requires an absolute executable and binary_sha256 pin")
          else
            let ready := if Z.eqb (ReadyTimeoutSeconds config) 0 then 300%Z else ReadyTimeoutSeconds config in
            if Z.ltb ready 1 || Z.ltb 1800 ready then Err (errorf "managed startup timeout must be 1–1800 seconds")
            else
              let config := mk_process (Argv config ++ ["--parallel"; "1"; "--host"; "127.0.0.1"; "--port"; Port u])
                              (BinarySHA256 config) ready in
              Ok (AManaged c config (Host u) (marshal config))
      end
  end.

Definition unknown_kind (spec : ProviderSpec) : error :=
  errorf ("llm: provider " +:+ quoted (Sp_Name spec) +:+ " has unknown kind " +:+ quoted (Sp_Kind spec) +:+
          " (one of llamacpp, openai_compatible, openai, anthropic)").
Definition needs_base_url (spec : ProviderSpec) : error := errorf ("llm: provider " +:+ quoted (Sp_Name spec) +:+ " needs a base_url").

(** [llm/router.go:130-195 build] *)
Definition build (spec : ProviderSpec) : result Provider :=
  let key := if String.eqb (APIKeyEnv spec) "" then "" else getenv (APIKeyEnv spec) in
  let caps := default no_caps (Sp_Capabilities spec) in
  let timeout := int64 (TimeoutSeconds spec * 1000000000) in
  let opts base caps := mk_options (Sp_Name spec) base key (Sp_Model spec) caps timeout in
  if bool_decide (is_Some (Process spec)) && negb (String.eqb (Sp_Kind spec) KindLlamaCPP)
  then Err (errorf "managed processes are only supported for llama.cpp")
  else if String.eqb (Sp_Name spec) "" then Err (errorf "llm: a provider entry has no name")
  else if negb (String.eqb (APIKeyEnv spec) "") && String.eqb key ""
  then Err (errorf ("llm: provider " +:+ quoted (Sp_Name spec) +:+ " expects the API key in $" +:+ APIKeyEnv spec +:+ ", which is unset"))
  else if Z.ltb (TimeoutSeconds spec) 0
  then Err (errorf ("llm: provider " +:+ quoted (Sp_Name spec) +:+ " has a negative timeout_seconds (" +:+ pretty (TimeoutSeconds spec) +:+ ")"))
  else if String.eqb (Sp_Kind spec) KindLlamaCPP then
    if String.eqb (Sp_BaseURL spec) "" then Err (needs_base_url spec) else
    let c := NewLlamaCPP (opts (Sp_BaseURL spec) caps) in
    match Process spec with
    | Some config => newManaged c spec config
    | None => Ok (ASerialized c (Sp_BaseURL spec))
    end
  else if String.eqb (Sp_Kind spec) KindOpenAICompatible then
    if String.eqb (Sp_BaseURL spec) "" then Err (needs_base_url spec) else
    let caps := match Sp_Capabilities spec with
                | Some caps => caps
                | None => mk_caps KindOpenAICompatible true false false false false false false 0 (isLocalURL (Sp_BaseURL spec))
                end in
    Ok (AnOpenAI (NewOpenAICompatible (opts (Sp_BaseURL spec) (with_kind KindOpenAICompatible caps))))
  else if String.eqb (Sp_Kind spec) KindOpenAI then
    let base := if String.eqb (Sp_BaseURL spec) "" then "https://api.openai.com" else Sp_BaseURL spec in
    Ok (AnOpenAI (NewOpenAICompatible (opts base (mk_caps KindOpenAI true true false false true true false (MaxContext caps) false))))
  else if String.eqb (Sp_Kind spec) KindAnthropic then
    let base := if String.eqb (Sp_BaseURL spec) "" then "https://api.anthropic.com" else Sp_BaseURL spec in
    Ok (AnAnthropic (NewAnthropic (opts base (mk_caps KindAnthropic true true false false false true true (MaxContext caps) false))))
  else Err (unknown_kind spec).

(** ** The router *)

(** [llm/router.go:72-78 Router] *)
Record Router := mk_router { Ro_Providers : gmap string Provider; Ro_Roles : gmap Role string; Ro_Default : string }.

(** [llm/router.go:91-101 NewRouter] the loop over the specifications. *)
Fixpoint declare (offline : bool) (specs : list ProviderSpec) (providers : gmap string Provider) : result (gmap string Provider) :=
  match specs with
  | [] => Ok providers
  | spec :: specs =>
      p ← build spec;
      if offline && negb (Local (caps_of p))
      then Err (errorf ("llm: offline mode is on but provider " +:+ quoted (Sp_Name spec) +:+ " (" +:+ Sp_Kind spec +:+
                        ") is remote; remove it from providers.yaml or turn offline off"))
      else declare offline specs (<[Sp_Name spec := p]> providers)
  end.

(** [llm/router.go:108-117 NewRouter] the loop over the roles. *)
Fixpoint route (providers : gmap string Provider) (roles : list (Role * string)) (routed : gmap Role string) : result (gmap Role string) :=
  match roles with
  | [] => Ok routed
  | (role, name) :: roles =>
      if negb (validRole role)
      then Err (errorf ("llm: " +:+ quoted role +:+ " is not a routable role (one of [" +:+ join " " AllRoles +:+ "])"))
      else if bool_decide (providers !! name = None)
      then Err (errorf ("llm: role " +:+ role +:+ " routes to undeclared provider " +:+ quoted name))
      else route providers roles (<[role := name]> routed)
  end.

(** [llm/router.go:85-119 NewRouter] *)
Definition NewRouter (f : ProvidersFile) (offline : bool) : result Router :=
  match Providers f with
  | [] => Err (errorf "llm: providers.yaml declares no providers")
  | first :: _ =>
      providers ← declare offline (Providers f) ∅;
      let def := if String.eqb (Default f) "" then Sp_Name first else Default f in
      if bool_decide (providers !! def = None)
      then Err (errorf ("llm: default provider " +:+ quoted def +:+ " is not declared"))
      else routed ← route providers (Roles f) ∅; Ok (mk_router providers routed def)
  end.
End build.

(** [llm/router.go:203-215 Router.For] *)
Definition For (r : Router) (role : Role) : result Provider :=
  let name := default (Ro_Default r) (Ro_Roles r !! role) in
  match Ro_Providers r !! name with
  | Some p => Ok p
  | None => Err (errorf ("llm: no provider for role " +:+ role))
  end.

(** [llm/router.go:218-227 Router.Names] *)
Definition Names (r : Router) : list string := sort_strings (map_to_list (Ro_Providers r)).*1.

(** [llm/router.go:230-242 Router.Routing] *)
Definition Routing (r : Router) : gmap Role string :=
  list_to_map ((λ role, (role, default (Ro_Default r) (Ro_Roles r !! role))) <$> AllRoles).

(** ** The servers the system runs *)

(** [llm/managed.go:29-34 managedProvider]; [Mg_id] tells one value from another,
    as the pointer does. *)
Record Managed := mk_managed { Mg_id : nat; Mg_process : ServerProcess; Mg_address : string; Mg_key : string }.

(** [llm/managed.go:35-40 processSlot] the command by its process id; [Sl_exited]
    says that [done] holds the process's end. *)
Record Slot := mk_slot { Sl_cmd : option nat; Sl_owner : option Managed; Sl_exited : bool }.

(** A process that is alive: its id, who started it, and the hash read of the
    executable's file before it was started.  The process is started by path: a
    file replaced between the hash ([managed.go:126-138]) and the start
    ([managed.go:148-153]) is not seen by either, nor by this model. *)
Record Running := mk_running { Rn_pid : nat; Rn_for : Managed; Rn_sum : string }.

(** The slot, the model processes that are alive, and the next process id. *)
Record Machine := mk_machine { slot : Slot; alive : list Running; fresh : nat }.

(** What starting a server comes to: it answers, it exits, or it is given up. *)
Inductive boot := Healthy | Exited (e : error) | TimedOut (e : error) (stopped : result unit).

(** What a call sees of the operating system: whether a process that is told to
    stop ends in time, and if not why; the hash of the executable; the port; the
    start of the process; its boot. *)
Record Seen := mk_seen { stops : result unit; sum : result string; port : result unit; start : result unit; booted : boot }.

Definition set_slot (s : Slot) (m : Machine) : Machine := mk_machine s (alive m) (fresh m).
Definition ended (pid : nat) (l : list Running) : list Running := filter (λ r, Rn_pid r ≠ pid) l.
Definition empty_slot : Slot := mk_slot None None false.

(** [llm/managed.go:86-107 processSlot.stop] *)
Definition stop (stopped : result unit) : M Machine unit := λ m,
  match Sl_cmd (slot m) with
  | None => (Ok tt, m)
  | Some pid =>
      match stopped with
      | Err e => (Err e, m)
      | Ok _ => (Ok tt, mk_machine empty_slot (ended pid (alive m)) (fresh m))
      end
  end.

(** [llm/managed.go:109-117 managedProvider.prepare] whether the slot already
    serves this configuration; a process that has ended leaves the slot. *)
Definition in_service (p : Managed) : M Machine bool := λ m,
  match Sl_owner (slot m) with
  | Some owner =>
      if negb (String.eqb (Mg_key owner) (Mg_key p)) then (Ok false, m)
      else if Sl_exited (slot m) then (Ok false, set_slot (mk_slot None None false) m)
      else (Ok true, m)
  | None => (Ok false, m)
  end.

(** [llm/managed.go:148-176 managedProvider.prepare] starting the process and
    waiting for it. *)
Definition launch (p : Managed) (digest : string) (o : Seen) : M Machine unit := λ m,
  match start o with
  | Err e => (Err e, m)
  | Ok _ =>
      let pid := fresh m in
      let m := mk_machine (mk_slot (Some pid) (Some p) false) (mk_running pid p digest :: alive m) (S pid) in
      match booted o with
      | Healthy => (Ok tt, m)
      | Exited e => (Err (wrap "model server exited during startup: " e),
                     mk_machine (mk_slot None None (Sl_exited (slot m))) (ended pid (alive m)) (fresh m))
      | TimedOut e stopped => (Err (wrap "model startup: " e), (stop stopped m).2)
      end
  end.

(** [llm/managed.go:108-176 managedProvider.prepare] *)
Definition prepare (p : Managed) (o : Seen) : M Machine unit :=
  serving ← in_service p;
  if serving : bool then mret tt else
  _ ← stop (stops o);
  digest ← lift (sum o);
  if negb (String.eqb digest (BinarySHA256 (Mg_process p)))
  then throw (errorf "model server executable differs from its pinned hash")
  else
    _ ← wrapM "model endpoint already occupied; refusing to replace an external server: " (lift (port o));
    launch p digest o.

(** [llm/managed.go:177-186 managedProvider.Chat], and in the same way
    [ChatStructured], [Health], [Embed] and [Infill]: the gate, the process, then
    the call of the wrapped provider. *)
Definition managed_call {A} (p : Managed) (gate : result unit) (o : Seen) (inner : result A) : M Machine A :=
  _ ← lift gate; _ ← prepare p o; lift inner.

(** [llm/managed.go:228-241 managedProvider.Close] *)
Definition managed_Close (p : Managed) (gate : result unit) (o : Seen) : M Machine unit :=
  _ ← lift gate;
  s ← gets slot;
  match Sl_owner s with
  | Some owner => if Mg_id owner =? Mg_id p then stop (stops o) else mret tt
  | None => mret tt
  end.

(** What may happen: a call of a managed provider, its closing, or the end of a
    process. *)
Inductive event :=
| ECall (p : Managed) (gate : result unit) (o : Seen)
| EClose (p : Managed) (gate : result unit) (o : Seen)
| EExit (pid : nat).
Definition happen (ev : event) (m : Machine) : Machine :=
  match ev with
  | ECall p gate o => (managed_call p gate o (Ok tt) m).2
  | EClose p gate o => (managed_Close p gate o m).2
  | EExit pid =>
      if existsb (λ r, Rn_pid r =? pid) (alive m)
      then mk_machine (if bool_decide (Sl_cmd (slot m) = Some pid) then mk_slot (Sl_cmd (slot m)) (Sl_owner (slot m)) true else slot m)
             (ended pid (alive m)) (fresh m)
      else m
  end.
Definition at_rest : Machine := mk_machine empty_slot [] 0.

(** ** Routing *)

Section routing.
Context (getenv : string → string) (url_parse : string → result URL) (marshal : ServerProcess → string).
Notation build := (build getenv url_parse marshal).
Notation declare := (declare getenv url_parse marshal).
Notation NewRouter := (NewRouter getenv url_parse marshal).

(** The declared providers are those of the file. *)
Definition declared (offline : bool) (specs : list ProviderSpec) (providers : gmap string Provider) : Prop :=
  ∀ name p, providers !! name = Some p →
    ∃ spec, spec ∈ specs ∧ Sp_Name spec = name ∧ build spec = Ok p ∧ (offline = true → Local (caps_of p) = true).

Lemma declare_declared offline all specs : ∀ providers providers',
  (∀ spec, spec ∈ specs → spec ∈ all) → declared offline all providers →
  declare offline specs providers = Ok providers' → declared offline all providers'.
Proof.
  induction specs as [|spec specs IH]; intros providers providers' Hall Hd; cbn [Router.declare]; [by intros [= <-] |].
  destruct (build spec) as [p|e] eqn:Hb; [|done]. cbn [mbind result_bind].
  destruct (offline && negb (Local (caps_of p))) eqn:Ho; [done |]. apply IH; [set_solver |].
  intros name q. destruct (decide (name = Sp_Name spec)) as [->|Hne]; [|rewrite lookup_insert_ne by done; apply Hd].
  rewrite lookup_insert_eq. intros [= <-]. exists spec. split_and!; [set_solver | done | done |].
  intros ->. by destruct (Local (caps_of p)).
Qed.

Lemma route_routed (providers : gmap string Provider) roles : ∀ routed routed',
  (∀ role name, routed !! role = Some name → is_Some (providers !! name)) → NoDup roles.*1 → (∀ role, role ∈ roles.*1 → routed !! role = None) →
  route providers roles routed = Ok routed' →
  (∀ role name, routed' !! role = Some name → is_Some (providers !! name)) ∧
  (∀ role name, (role, name) ∈ roles → routed' !! role = Some name) ∧
  (∀ role, role ∉ roles.*1 → routed' !! role = routed !! role).
Proof.
  induction roles as [|[role name] roles IH]; intros routed routed' Hr Hnd Hfresh; cbn [route]; [intros [= <-]; split_and!; [done | set_solver | done] |].
  destruct (validRole role); cbn [negb]; [|done]. case_bool_decide as Hp; [done |]. cbn [fmap list_fmap fst] in Hnd, Hfresh.
  apply NoDup_cons in Hnd as [Hn Hnd]. intros Hroute.
  destruct (IH (<[role:=name]> routed) routed') as (H1 & H2 & H3); [|done| |done|].
  - intros r n. destruct (decide (r = role)) as [->|]; [rewrite lookup_insert_eq | rewrite lookup_insert_ne by done; apply Hr].
    intros [= <-]. by destruct (providers !! name).
  - intros r Hin. rewrite lookup_insert_ne by set_solver. apply Hfresh. set_solver.
  - split_and!; [done | |].
    + intros r n [[= -> ->]|Hin]%elem_of_cons; [|by apply H2]. rewrite H3 by done. by rewrite lookup_insert_eq.
    + intros r Hin. cbn [fmap list_fmap fst] in Hin. rewrite H3, lookup_insert_ne by set_solver. done.
Qed.

(** C17: A router that was built answers for every role, with the provider the file
    names for it - the role's own, or the default - as the file declares it; and
    in offline mode only with one that declares itself local. *)
Theorem router_serves f offline r : NoDup (Roles f).*1 → NewRouter f offline = Ok r →
  ∀ role, ∃ spec p, For r role = Ok p ∧ spec ∈ Providers f ∧ build spec = Ok p ∧
    (offline = true → Local (caps_of p) = true) ∧
    (∀ name, (role, name) ∈ Roles f → Sp_Name spec = name) ∧
    (role ∉ (Roles f).*1 → Sp_Name spec = if String.eqb (Default f) "" then default "" (Sp_Name <$> head (Providers f)) else Default f).
Proof.
  intros Hnd. unfold Router.NewRouter. destruct (Providers f) as [|first specs] eqn:Ef; [done |].
  destruct (declare offline (first :: specs) ∅) as [providers|e] eqn:Ed; [|done]. cbn [mbind result_bind].
  set (def := if String.eqb (Default f) "" then Sp_Name first else Default f). case_bool_decide as Hdef; [done |].
  destruct (route providers (Roles f) ∅) as [routed|e] eqn:Er; [|done]. intros [= <-] role.
  destruct (route_routed providers (Roles f) ∅ routed) as (H1 & H2 & H3); [by intros ?? ?%lookup_empty_Some | done | done | done |].
  assert (Hd : declared offline (first :: specs) providers).
  { eapply declare_declared; [..|exact Ed]; [done |]. by intros ?? ?%lookup_empty_Some. }
  unfold For. cbn [Ro_Providers Ro_Roles Ro_Default].
  assert (Hs : is_Some (providers !! default def (routed !! role))).
  { destruct (routed !! role) as [name|] eqn:E; cbn; [by eapply H1 | by destruct (providers !! def)]. }
  destruct Hs as [p Hp]. rewrite Hp. destruct (Hd _ _ Hp) as (spec & Hin & Hn & Hb & Ho). exists spec, p.
  split_and!; [done | done | done | done | |].
  - intros name Hname. rewrite Hn, (H2 _ _ Hname). done.
  - intros Hno. rewrite Hn, H3 by done. done.
Qed.
End routing.

(** ** One model process *)

Record slot_ok (m : Machine) : Prop := {
  so_alive : alive m = [] ∨ ∃ r, alive m = [r] ∧ slot m = mk_slot (Some (Rn_pid r)) (Some (Rn_for r)) false ∧
               Rn_sum r = BinarySHA256 (Mg_process (Rn_for r));
  so_cmd : ∀ pid, Sl_cmd (slot m) = Some pid → Sl_exited (slot m) = true ∨ ∃ r, alive m = [r] ∧ Rn_pid r = pid;
  so_owner : Sl_cmd (slot m) = None ↔ Sl_owner (slot m) = None;
}.

Lemma ended_self r : ended (Rn_pid r) [r] = [].
Proof. unfold ended. rewrite filter_cons. rewrite decide_False by (intros H; by apply H). done. Qed.

Lemma rest_ok n : slot_ok (mk_machine empty_slot [] n).
Proof. split; [by left | done | done]. Qed.

(** What stopping leaves: nothing alive and an empty slot, or what there was. *)
Lemma halt_ok stopped m : slot_ok m →
  match stop stopped m with
  | (Ok _, m') => alive m' = [] ∧ slot_ok m' ∧ Sl_cmd (slot m') = None
  | (Err _, m') => m' = m
  end.
Proof.
  intros H. unfold stop. destruct (Sl_cmd (slot m)) as [pid|] eqn:Ec.
  - destruct stopped; [|done]. assert (E : ended pid (alive m) = []).
    { destruct (so_alive m H) as [->|(r & -> & Hs & _)]; [done |]. rewrite Hs in Ec. injection Ec as <-. apply ended_self. }
    rewrite E. split_and!; [done | apply rest_ok | done].
  - destruct (so_alive m H) as [Ha|(r & _ & Hs & _)]; [done | by rewrite Hs in Ec].
Qed.

(** A call of [prepare] that succeeds leaves one process, of the caller's own
    configuration. *)
Definition serves (p : Managed) (m : Machine) : Prop := ∃ r, alive m = [r] ∧ Mg_key (Rn_for r) = Mg_key p.

Lemma launch_ok p digest o m : alive m = [] → slot_ok m → digest = BinarySHA256 (Mg_process p) →
  slot_ok (launch p digest o m).2 ∧ ((launch p digest o m).1 = Ok tt → serves p (launch p digest o m).2).
Proof.
  intros Ha Hm ->. unfold launch. rewrite Ha. destruct (start o) as [[]|e]; [|done].
  set (r := mk_running (fresh m) p (BinarySHA256 (Mg_process p))).
  assert (Hr : slot_ok (mk_machine (mk_slot (Some (fresh m)) (Some p) false) [r] (S (fresh m)))).
  { split; cbn; [right; by exists r | intros pid [= <-]; right; by exists r | done]. }
  destruct (booted o) as [|e|e stopped]; cbn [fst snd].
  - split; [done |]. intros _. by exists r.
  - split; [|done]. pose proof (ended_self r) as E. cbn in E |- *. rewrite E. split; [by left | done | done].
  - split; [|done]. pose proof (halt_ok stopped _ Hr) as Hs. destruct (stop stopped _) as [[?|?] m']; [tauto | by subst].
Qed.

Lemma in_service_ok p m : slot_ok m →
  ∃ b m', in_service p m = (Ok b, m') ∧ slot_ok m' ∧ (b = true → serves p m').
Proof.
  intros H. unfold in_service. destruct (Sl_owner (slot m)) as [owner|] eqn:Eo; [|by exists false, m].
  destruct (String.eqb_spec (Mg_key owner) (Mg_key p)) as [Hk|]; cbn [negb]; [|by exists false, m].
  destruct (Sl_exited (slot m)) eqn:Ee.
  - eexists _, _. split; [done |]. split; [|done].
    destruct (so_alive m H) as [Ha|(r & _ & Hs & _)]; [|by rewrite Hs in Ee]. split; [by left | done | done].
  - exists true, m. split; [done |]. split; [done |]. intros _. destruct (Sl_cmd (slot m)) as [pid|] eqn:Ec.
    + destruct (so_cmd m H pid Ec) as [|(r & Ha & _)]; [congruence |]. exists r. split; [done |].
      destruct (so_alive m H) as [|(r2 & Ha2 & Hs & _)]; [congruence |]. rewrite Ha in Ha2. injection Ha2 as <-.
      rewrite Hs in Eo. injection Eo as ->. done.
    + apply (so_owner m H) in Ec. congruence.
Qed.

Lemma prepare_ok p o m : slot_ok m → slot_ok (prepare p o m).2 ∧ ((prepare p o m).1 = Ok tt → serves p (prepare p o m).2).
Proof.
  intros H. unfold prepare, mbind, M_bind. destruct (in_service_ok p m H) as (b & m1 & -> & H1 & Hs).
  destruct b; [by split; [|intros _; apply Hs] |].
  pose proof (halt_ok (stops o) m1 H1) as Hst. destruct (stop (stops o) m1) as [[[]|e] m2]; [|by subst].
  destruct Hst as (Ha & H2 & _). unfold lift. destruct (sum o) as [digest|e]; [|done].
  destruct (String.eqb_spec digest (BinarySHA256 (Mg_process p))) as [Hd|]; cbn [negb]; [|done].
  unfold wrapM. destruct (port o) as [[]|e]; [|done]. by apply launch_ok.
Qed.

Lemma call_ok {A} p gate o (inner : result A) m : slot_ok m →
  slot_ok (managed_call p gate o inner m).2 ∧ (is_ok (managed_call p gate o inner m).1 = true → serves p (managed_call p gate o inner m).2).
Proof.
  intros H. unfold managed_call, mbind, M_bind, lift. destruct gate as [[]|e]; [|done].
  destruct (prepare_ok p o m H) as [H1 H2]. destruct (prepare p o m) as [[[]|e] m1]; [|done]. cbn [fst snd] in *.
  split; [done |]. intros _. by apply H2.
Qed.

Lemma close_ok p gate o m : slot_ok m → slot_ok (managed_Close p gate o m).2.
Proof.
  intros H. unfold managed_Close, mbind, M_bind, lift, gets. destruct gate as [[]|e]; [|done].
  destruct (Sl_owner (slot m)) as [owner|]; [|done]. destruct (Mg_id owner =? Mg_id p); [|done].
  pose proof (halt_ok (stops o) m H) as Hs. destruct (stop _ m) as [[?|?] m']; [tauto | by subst].
Qed.

Lemma happen_ok ev m : slot_ok m → slot_ok (happen ev m).
Proof.
  intros H. destruct ev as [p gate o|p gate o|pid]; cbn [happen]; [by apply call_ok | by apply close_ok |].
  destruct (existsb _ (alive m)) eqn:Ex; [|done].
  destruct (so_alive m H) as [Ha|(r & Ha & Hs & _)]; [by rewrite Ha in Ex |].
  rewrite Ha in Ex |- *. cbn in Ex. rewrite orb_false_r in Ex. apply Nat.eqb_eq in Ex as <-. rewrite ended_self, Hs. cbn [Sl_cmd].
  rewrite bool_decide_true by done. split; [by left | by left | done].
Qed.

Lemma history_slot evs : slot_ok (foldl (λ m ev, happen ev m) at_rest evs).
Proof.
  assert (H : ∀ m, slot_ok m → slot_ok (foldl (λ m ev, happen ev m) m evs)).
  { induction evs as [|ev evs IH]; intros m Hm; [done |]. by apply IH, happen_ok. }
  apply H, rest_ok.
Qed.

(** C16: Whatever is called, closed or dies, and whatever the operating system does:
    at most one model process is alive; it is the slot's own, started from an
    executable with the hash its configuration pins; and a call that reaches the
    model reaches a process of the caller's own configuration. *)
Theorem one_model_process evs :
  let m := foldl (λ m ev, happen ev m) at_rest evs in
  (alive m = [] ∨ ∃ r, alive m = [r] ∧ Sl_cmd (slot m) = Some (Rn_pid r) ∧ Sl_owner (slot m) = Some (Rn_for r) ∧
     Rn_sum r = BinarySHA256 (Mg_process (Rn_for r))) ∧
  ∀ p gate o (answer : result ChatResponse) m', managed_call p gate o answer m = (answer, m') → is_ok answer = true →
    ∃ r, alive m' = [r] ∧ Mg_key (Rn_for r) = Mg_key p ∧ Rn_sum r = BinarySHA256 (Mg_process (Rn_for r)).
Proof.
  intros m. pose proof (history_slot evs) as H. fold m in H. split.
  - destruct (so_alive m H) as [Ha|(r & Ha & Hs & Hsum)]; [by left | right]. exists r. by rewrite Hs.
  - intros p gate o answer m' Hc Hok. destruct (call_ok p gate o answer m H) as [H1 H2]. rewrite Hc in H1, H2.
    destruct (H2 Hok) as (r & Ha & Hk). exists r. split_and!; [done | done |]. cbn in Ha.
    destruct (so_alive m' H1) as [|(r2 & Ha2 & _ & Hsum)]; [congruence |]. rewrite Ha in Ha2. by injection Ha2 as <-.
Qed.

(** ** Examples *)

Definition demo_url (s : string) : result URL := Ok (mk_url "http" "127.0.0.1" "8080" "127.0.0.1:8080" false).
Definition demo_local : ProviderSpec := mk_spec None "local" KindLlamaCPP "http://127.0.0.1:8080" "m" "" None 0.
Definition demo_vllm : ProviderSpec := mk_spec None "vllm" KindOpenAICompatible "http://localhost:8000" "q" "" None 0.
Definition demo_file : ProvidersFile := mk_file "local" [demo_local; demo_vllm] [("verification", "vllm")].
Definition demo_router : result Router := NewRouter (λ _, "") demo_url (λ _, "") demo_file true.

Lemma demo_router_built : ∃ r, demo_router = Ok r.
Proof.
  assert (H : is_ok demo_router = true) by (vm_compute; reflexivity). destruct demo_router as [r|e]; [by exists r | discriminate H].
Qed.

Lemma router_serves_witness : ∃ r spec p, demo_router = Ok r ∧ For r "verification" = Ok p ∧
  Sp_Name spec = "vllm" ∧ Local (caps_of p) = true.
Proof.
  destruct demo_router_built as [r Hr]. assert (Hnd : NoDup (Roles demo_file).*1) by (apply NoDup_singleton).
  destruct (router_serves (λ _, "") demo_url (λ _, "") demo_file true r Hnd Hr "verification") as (spec & p & H1 & _ & _ & H2 & H3 & _).
  exists r, spec, p. split; [exact Hr |]. split; [exact H1 |]. split; [apply H3; apply list_elem_of_singleton; reflexivity | apply H2; reflexivity].
Defined.

(** *** What passes for local *)

(** A llama server counts as local wherever it is: offline mode lets requests go
    to another machine. *)
Lemma remote_llama_local :
  let spec := mk_spec None "far" KindLlamaCPP "http://10.0.0.7:8080" "m" "" None 0 in
  is_ok (NewRouter (λ _, "") demo_url (λ _, "") (mk_file "far" [spec] []) true) = true.
Proof. vm_compute. reflexivity. Qed.

(** An address is taken for local when it holds the name of a local one anywhere. *)
Lemma lookalike_local :
  isLocalURL "https://localhost.example.com" = true ∧ isLocalURL "https://api.example.com/v1?via=127.0.0.1" = true ∧
  is_ok (NewRouter (λ _, "") demo_url (λ _, "")
           (mk_file "far" [mk_spec None "far" KindOpenAICompatible "https://localhost.example.com" "m" "" None 0] []) true) = true.
Proof. split_and!; vm_compute; reflexivity. Qed.

(** [time.Duration] holds 64 bits: a provider that asks for 18446744074 seconds
    - the guard refuses negative numbers only - is given 0.29 of one, and one
    that asks for half of that the default. *)
Definition patient (seconds : Z) : ProviderSpec := mk_spec None "slow" KindOpenAICompatible "http://127.0.0.1:1" "m" "" None seconds.
Lemma timeout_wraps :
  (λ p, match p with AnOpenAI c => Cl_Timeout c | _ => 0%Z end) <$>
    [build (λ _, "") demo_url (λ _, "") (patient 90); build (λ _, "") demo_url (λ _, "") (patient 18446744074);
     build (λ _, "") demo_url (λ _, "") (patient 9223372037)] ≫= (λ r, match r with Ok p => [p] | Err _ => [] end) =
  [90000000000; 290448384; DefaultTimeout]%Z.
Proof. vm_compute. reflexivity. Qed.

(** A server that never became ready, and could not be stopped, serves the next
    call. *)
Definition demo_managed : Managed := mk_managed 0 (mk_process ["/bin/llama"] "pin" 300) "127.0.0.1:8080" "k".
Definition demo_late : Seen := mk_seen (Ok tt) (Ok "pin") (Ok tt) (Ok tt) (TimedOut (errorf "deadline exceeded") (Err (errorf "model process did not exit"))).
Lemma never_ready_served :
  let m := happen (ECall demo_managed (Ok tt) demo_late) at_rest in
  is_ok (managed_call demo_managed (Ok tt) demo_late (Ok tt) at_rest).1 = false ∧
  (prepare demo_managed demo_late m).1 = Ok tt ∧ length (alive m) = 1.
Proof. split_and!; vm_compute; reflexivity. Qed.

Definition demo_seen : Seen := mk_seen (Ok tt) (Ok "pin") (Ok tt) (Ok tt) Healthy.
Definition demo_other : Managed := mk_managed 1 (mk_process ["/bin/deep"] "pin" 300) "127.0.0.1:8081" "k2".
Definition demo_events : list event := [ECall demo_managed (Ok tt) demo_seen; ECall demo_other (Ok tt) demo_seen].

Lemma one_model_process_witness : ∃ r,
  alive (foldl (λ m ev, happen ev m) at_rest demo_events) = [r] ∧ Mg_key (Rn_for r) = "k2" ∧
  Rn_sum r = BinarySHA256 (Mg_process (Rn_for r)).
Proof.
  destruct (one_model_process demo_events) as [[H|(r & Ha & _ & Ho & Hs)] _]; [discriminate H |].
  exists r. split; [exact Ha |]. split; [|exact Hs]. cbn in Ho. injection Ho as <-. reflexivity.
Defined.
