(* ===== verification/Runner.v ===== *)
(** The supervisor's runner, [src/internal/task/runner.go]: its configuration
    and state, what it asks of its surroundings, and the parts both of its
    modes share - the sandbox specification, verification with its journal and
    evidence, the human gate and the end of a run.

    What the runner calls and this development does not model in detail is the
    interface [Env]: git, the sandbox, the model, the engine, the index, the
    clock.  Every call to it may change the file system and the rest of the
    world in any way, and time passes while it runs. *)
From S2P Require Import Declared Memory Retrieval Checkout Broker.
From S2P Require Import Prelude GoStrings GoPath Policy Worktree Firewall Recipe Summarize Contract Graph.
From S2P Require Import Trust Json Llm ContextPack Workflow Ledger Recover Tasks Engine.

Open Scope string_scope.
Open Scope list_scope.
Open Scope nat_scope.

Notation Checkout := Checkout.Checkout.

(** [recipe.Level(s)]. *)
Definition level_of (s : string) : Level := default (LevelOther s) (ParseLevel s).

(** ** What the surroundings exchange *)

(** [retrieval/repomap.go:9-15 MapEntry] *)
Record MapEntry := mk_entry { Me_Path : string; Me_Symbol : string; Me_Signature : string }.

(** [retrieval/misses.go:26-34 Miss] *)
Record Miss := mk_miss { Mi_Path : string; Mi_Detail : string; Mi_Recipe : string }.
(** [critic/critic.go:48-56 Concern] *)
Record Concern := mk_concern { Severity : string; Co_Detail : string; Co_Path : string }.
(** [critic/critic.go:145-154 Hypothesis] *)
Record Hypothesis_t := mk_hypothesis { Cause : string; Suggestion : string; RuledOut : list string }.

(** [config/profile.go:56-60 PhaseBudget] *)
Record PhaseBudget := mk_phase_budget { ContextTokens : Z; OutputTokens : Z; ReasoningTokens : Z }.

(** The structured calls: what is shown and what is asked back. *)
Record selection := mk_selection { Sel_Files : list string; Sel_Symbols : list string; Sel_Hypothesis : string }.
(** [task/localize.go:237-242 lexicalReport] *)
Record lexicalReport := mk_report { Rep_Files : list (string * Z); Rep_Truncated : bool }.
Inductive shown :=
| ShowStructure (files : list string) (hits : lexicalReport)
| ShowSignatures (sel : selection) (skeleton : list Slice) (packet : Packet)
| ShowBodies (sel : selection) (bodies : gmap string string) (failures : list Result)
| ShowLocalized (hypothesis : string) (files symbols : list string) (bodies : gmap string string)
    (impact : option Impact) (failures : list Result) (scope : list string)
| ShowChange (plan : Plan) (impact : option Impact) (diff : string) (verification : list Result).
Inductive schema := localizationSchema | planSchemaV2 | reviewSchemaV2.

Record ChatRequest := mk_chat {
  C_Messages : list Message; C_MaxTokens : Z; C_Reasoning : Z; C_CachePrefix : nat; C_Schema : schema }.
(** ** The interface *)

Class Env (G : Type) := {
  exec : list string → string → fs * G → Checkout.exec_result * (fs * G);
  sandbox : option (Spec → list string → Z → fs * G → result run_outcome * (fs * G));
  put : option (string → fs * G → result string * (fs * G));
  show_duration : Z → string;
  sha : string → string;
  (* the clock, the error of the caller's context, whether the database fails *)
  observe : fs * G → Z * option error * option error;
  decode_semgrep : string → option semgrepOutput;
  decode_golangci : string → option golangciOutput;
  decode_event : string → option test_event;
  look_path : string → bool;
  (* the TOML of a verification configuration, and [json.Unmarshal] *)
  parse_verify : string → result (Z * list Preset);
  unmarshal_json : string → result json;
  (* the YAML of a declaration, and the first JSON value of a text *)
  parse_declared : string → result Declared.Declared;
  first_json : string → option json;
  self_path : string;
  dirty : fs * G → result Z * (fs * G);
  refresh : string → fs * G → result unit * (fs * G);
  retrieve : RRequest → fs * G → result Packet * (fs * G);
  repo_map : Z → fs * G → result (list MapEntry) * (fs * G);
  skeleton_of : list string → fs * G → result (list Slice) * (fs * G);
  lexical_hits : string → string → fs * G → lexicalReport * (fs * G);
  live_consumers : Checkout → list string → list string → fs * G → list (string * string) * (fs * G);
  project_notes : fs → string → list (string * string * bool);
  critic_review : string → string → list Result → fs * G → result (list Concern) * (fs * G);
  critic_diagnose : string → list Result → fs * G → result Hypothesis_t * (fs * G);
  engine_step : EngRequest → proc (fs * G) EngResponse;
  chat : bool → ChatRequest → fs * G → result ChatResponse * (fs * G);
  marshal_shown : shown → string;
  raw_json : string → json;
  marshal_response : ChatResponse → json;
  marshal_summary : Summary → json;
  decode_selection : string → selection → result selection;
  decode_plan : string → result Plan;
  decode_verdict : string → result RVerdict;
  random_bytes : fs * G → option string * (fs * G);
  marshal_header : string → Z → string → list string → string;
  repository_id : fs * G → result string * (fs * G);
  go_Ty : Type;
  parse_file : string → result (list (@decl go_Ty));
  format_func : @FuncType go_Ty → string;
  format_type : go_Ty → string;
  is_exported : string → bool;
  ts_changed : string → string → string → result (list string);
  supports : string → bool;
  enclosing : string → string → Z → option string;
  finding_json : Finding → string;
  digest : string → Status → Z → string → string → list Finding → list string → string;
  clear_tmp : fs * G → result unit * (fs * G) }.

(** [task/runner.go:35-107 Runner] its configuration. *)
Record Runner := mk_runner {
  r_ws : string;
  r_engine : option (string * bool * bool);       (* its name, whether it edits, whether it takes a recipe runner *)
  r_model : option bool;                          (* WorkflowModel: its StructuredOutput capability *)
  r_review_model : bool;
  r_budgets : gmap string PhaseBudget;
  r_spec : Spec;
  r_sync : bool;
  r_broker : option Broker.Policy;
  r_holder : string;
  r_policies : PolicySet;
  r_critic : bool;
  r_diagnose_after : Z;
  r_freshener : bool;
  r_store_dir : string; r_worktrees : string; r_tmp : string; r_gocache : string; r_gomod : string }.

(** [task/runner.go:145-193 Outcome] *)
Record Outcome := mk_run_outcome {
  O_Task : TaskRow; Accepted : bool; O_Reasons : list string; O_Results : list Result; O_Attempts : Z;
  O_TokensUsed : Z; O_Candidate : string; O_OutOfScope : list string; PolicyViolations : list Violation;
  O_Review : option (list Concern); Diagnosis : option Hypothesis_t; RetrievalMisses : list Miss; O_Diff : string;
  Verified : string; O_Gate : option Broker.Gate; O_Branch : string; O_Worktree : string }.
Definition start_outcome (t : TaskRow) : Outcome :=
  mk_run_outcome t false [] [] 0 0 "" [] [] None None [] "" "" None "" "".

(** Assignments to a field of the workflow state and of the outcome. *)
Definition wf_Prefix (v : Prefix) (s : State) : State :=
  mk_state v (S_FenceToken s) (Bodies s) (FinalizationCandidate s) (Workflow.Presets s) (S_Phase s) (Base s)
    (S_Candidate s) (S_StartedAt s) (S_Tokens s) (Attempts s) (Replans s) (VerifyLoops s) (Regressions s)
    (S_Files s) (S_Symbols s) (Hypothesis_ s) (S_Plan s) (S_Impact s) (Baseline s) (S_Results s) (Feedback s)
    (Failures s) (FailureHistory s) (S_Edit s) (S_Verdict s).
Definition wf_FenceToken (v : string) (s : State) : State :=
  mk_state (S_Prefix s) v (Bodies s) (FinalizationCandidate s) (Workflow.Presets s) (S_Phase s) (Base s)
    (S_Candidate s) (S_StartedAt s) (S_Tokens s) (Attempts s) (Replans s) (VerifyLoops s) (Regressions s)
    (S_Files s) (S_Symbols s) (Hypothesis_ s) (S_Plan s) (S_Impact s) (Baseline s) (S_Results s) (Feedback s)
    (Failures s) (FailureHistory s) (S_Edit s) (S_Verdict s).
Definition wf_Bodies (v : gmap string string) (s : State) : State :=
  mk_state (S_Prefix s) (S_FenceToken s) v (FinalizationCandidate s) (Workflow.Presets s) (S_Phase s) (Base s)
    (S_Candidate s) (S_StartedAt s) (S_Tokens s) (Attempts s) (Replans s) (VerifyLoops s) (Regressions s)
    (S_Files s) (S_Symbols s) (Hypothesis_ s) (S_Plan s) (S_Impact s) (Baseline s) (S_Results s) (Feedback s)
    (Failures s) (FailureHistory s) (S_Edit s) (S_Verdict s).
Definition wf_Finalization (v : string) (s : State) : State :=
  mk_state (S_Prefix s) (S_FenceToken s) (Bodies s) v (Workflow.Presets s) (S_Phase s) (Base s) (S_Candidate
    s) (S_StartedAt s) (S_Tokens s) (Attempts s) (Replans s) (VerifyLoops s) (Regressions s) (S_Files s)
    (S_Symbols s) (Hypothesis_ s) (S_Plan s) (S_Impact s) (Baseline s) (S_Results s) (Feedback s) (Failures s)
    (FailureHistory s) (S_Edit s) (S_Verdict s).
Definition wf_Presets (v : list Preset) (s : State) : State :=
  mk_state (S_Prefix s) (S_FenceToken s) (Bodies s) (FinalizationCandidate s) v (S_Phase s) (Base s)
    (S_Candidate s) (S_StartedAt s) (S_Tokens s) (Attempts s) (Replans s) (VerifyLoops s) (Regressions s)
    (S_Files s) (S_Symbols s) (Hypothesis_ s) (S_Plan s) (S_Impact s) (Baseline s) (S_Results s) (Feedback s)
    (Failures s) (FailureHistory s) (S_Edit s) (S_Verdict s).
Definition wf_Phase (v : Phase) (s : State) : State :=
  mk_state (S_Prefix s) (S_FenceToken s) (Bodies s) (FinalizationCandidate s) (Workflow.Presets s) v (Base s)
    (S_Candidate s) (S_StartedAt s) (S_Tokens s) (Attempts s) (Replans s) (VerifyLoops s) (Regressions s)
    (S_Files s) (S_Symbols s) (Hypothesis_ s) (S_Plan s) (S_Impact s) (Baseline s) (S_Results s) (Feedback s)
    (Failures s) (FailureHistory s) (S_Edit s) (S_Verdict s).
Definition wf_Candidate (v : string) (s : State) : State :=
  mk_state (S_Prefix s) (S_FenceToken s) (Bodies s) (FinalizationCandidate s) (Workflow.Presets s) (S_Phase s)
    (Base s) v (S_StartedAt s) (S_Tokens s) (Attempts s) (Replans s) (VerifyLoops s) (Regressions s) (S_Files
    s) (S_Symbols s) (Hypothesis_ s) (S_Plan s) (S_Impact s) (Baseline s) (S_Results s) (Feedback s) (Failures
    s) (FailureHistory s) (S_Edit s) (S_Verdict s).
Definition wf_Tokens (v : Z) (s : State) : State :=
  mk_state (S_Prefix s) (S_FenceToken s) (Bodies s) (FinalizationCandidate s) (Workflow.Presets s) (S_Phase s)
    (Base s) (S_Candidate s) (S_StartedAt s) v (Attempts s) (Replans s) (VerifyLoops s) (Regressions s)
    (S_Files s) (S_Symbols s) (Hypothesis_ s) (S_Plan s) (S_Impact s) (Baseline s) (S_Results s) (Feedback s)
    (Failures s) (FailureHistory s) (S_Edit s) (S_Verdict s).
Definition wf_Attempts (v : Z) (s : State) : State :=
  mk_state (S_Prefix s) (S_FenceToken s) (Bodies s) (FinalizationCandidate s) (Workflow.Presets s) (S_Phase s)
    (Base s) (S_Candidate s) (S_StartedAt s) (S_Tokens s) v (Replans s) (VerifyLoops s) (Regressions s)
    (S_Files s) (S_Symbols s) (Hypothesis_ s) (S_Plan s) (S_Impact s) (Baseline s) (S_Results s) (Feedback s)
    (Failures s) (FailureHistory s) (S_Edit s) (S_Verdict s).
Definition wf_Replans (v : Z) (s : State) : State :=
  mk_state (S_Prefix s) (S_FenceToken s) (Bodies s) (FinalizationCandidate s) (Workflow.Presets s) (S_Phase s)
    (Base s) (S_Candidate s) (S_StartedAt s) (S_Tokens s) (Attempts s) v (VerifyLoops s) (Regressions s)
    (S_Files s) (S_Symbols s) (Hypothesis_ s) (S_Plan s) (S_Impact s) (Baseline s) (S_Results s) (Feedback s)
    (Failures s) (FailureHistory s) (S_Edit s) (S_Verdict s).
Definition wf_VerifyLoops (v : Z) (s : State) : State :=
  mk_state (S_Prefix s) (S_FenceToken s) (Bodies s) (FinalizationCandidate s) (Workflow.Presets s) (S_Phase s)
    (Base s) (S_Candidate s) (S_StartedAt s) (S_Tokens s) (Attempts s) (Replans s) v (Regressions s) (S_Files
    s) (S_Symbols s) (Hypothesis_ s) (S_Plan s) (S_Impact s) (Baseline s) (S_Results s) (Feedback s) (Failures
    s) (FailureHistory s) (S_Edit s) (S_Verdict s).
Definition wf_Regressions (v : Z) (s : State) : State :=
  mk_state (S_Prefix s) (S_FenceToken s) (Bodies s) (FinalizationCandidate s) (Workflow.Presets s) (S_Phase s)
    (Base s) (S_Candidate s) (S_StartedAt s) (S_Tokens s) (Attempts s) (Replans s) (VerifyLoops s) v (S_Files
    s) (S_Symbols s) (Hypothesis_ s) (S_Plan s) (S_Impact s) (Baseline s) (S_Results s) (Feedback s) (Failures
    s) (FailureHistory s) (S_Edit s) (S_Verdict s).
Definition wf_Files (v : list string) (s : State) : State :=
  mk_state (S_Prefix s) (S_FenceToken s) (Bodies s) (FinalizationCandidate s) (Workflow.Presets s) (S_Phase s)
    (Base s) (S_Candidate s) (S_StartedAt s) (S_Tokens s) (Attempts s) (Replans s) (VerifyLoops s)
    (Regressions s) v (S_Symbols s) (Hypothesis_ s) (S_Plan s) (S_Impact s) (Baseline s) (S_Results s)
    (Feedback s) (Failures s) (FailureHistory s) (S_Edit s) (S_Verdict s).
Definition wf_Symbols (v : list string) (s : State) : State :=
  mk_state (S_Prefix s) (S_FenceToken s) (Bodies s) (FinalizationCandidate s) (Workflow.Presets s) (S_Phase s)
    (Base s) (S_Candidate s) (S_StartedAt s) (S_Tokens s) (Attempts s) (Replans s) (VerifyLoops s)
    (Regressions s) (S_Files s) v (Hypothesis_ s) (S_Plan s) (S_Impact s) (Baseline s) (S_Results s) (Feedback
    s) (Failures s) (FailureHistory s) (S_Edit s) (S_Verdict s).
Definition wf_Hypothesis (v : string) (s : State) : State :=
  mk_state (S_Prefix s) (S_FenceToken s) (Bodies s) (FinalizationCandidate s) (Workflow.Presets s) (S_Phase s)
    (Base s) (S_Candidate s) (S_StartedAt s) (S_Tokens s) (Attempts s) (Replans s) (VerifyLoops s)
    (Regressions s) (S_Files s) (S_Symbols s) v (S_Plan s) (S_Impact s) (Baseline s) (S_Results s) (Feedback
    s) (Failures s) (FailureHistory s) (S_Edit s) (S_Verdict s).
Definition wf_Plan (v : Plan) (s : State) : State :=
  mk_state (S_Prefix s) (S_FenceToken s) (Bodies s) (FinalizationCandidate s) (Workflow.Presets s) (S_Phase s)
    (Base s) (S_Candidate s) (S_StartedAt s) (S_Tokens s) (Attempts s) (Replans s) (VerifyLoops s)
    (Regressions s) (S_Files s) (S_Symbols s) (Hypothesis_ s) v (S_Impact s) (Baseline s) (S_Results s)
    (Feedback s) (Failures s) (FailureHistory s) (S_Edit s) (S_Verdict s).
Definition wf_Impact (v : option Impact) (s : State) : State :=
  mk_state (S_Prefix s) (S_FenceToken s) (Bodies s) (FinalizationCandidate s) (Workflow.Presets s) (S_Phase s)
    (Base s) (S_Candidate s) (S_StartedAt s) (S_Tokens s) (Attempts s) (Replans s) (VerifyLoops s)
    (Regressions s) (S_Files s) (S_Symbols s) (Hypothesis_ s) (S_Plan s) v (Baseline s) (S_Results s)
    (Feedback s) (Failures s) (FailureHistory s) (S_Edit s) (S_Verdict s).
Definition wf_Baseline (v : list Result) (s : State) : State :=
  mk_state (S_Prefix s) (S_FenceToken s) (Bodies s) (FinalizationCandidate s) (Workflow.Presets s) (S_Phase s)
    (Base s) (S_Candidate s) (S_StartedAt s) (S_Tokens s) (Attempts s) (Replans s) (VerifyLoops s)
    (Regressions s) (S_Files s) (S_Symbols s) (Hypothesis_ s) (S_Plan s) (S_Impact s) v (S_Results s)
    (Feedback s) (Failures s) (FailureHistory s) (S_Edit s) (S_Verdict s).
Definition wf_Results (v : list Result) (s : State) : State :=
  mk_state (S_Prefix s) (S_FenceToken s) (Bodies s) (FinalizationCandidate s) (Workflow.Presets s) (S_Phase s)
    (Base s) (S_Candidate s) (S_StartedAt s) (S_Tokens s) (Attempts s) (Replans s) (VerifyLoops s)
    (Regressions s) (S_Files s) (S_Symbols s) (Hypothesis_ s) (S_Plan s) (S_Impact s) (Baseline s) v (Feedback
    s) (Failures s) (FailureHistory s) (S_Edit s) (S_Verdict s).
Definition wf_Feedback (v : list Result) (s : State) : State :=
  mk_state (S_Prefix s) (S_FenceToken s) (Bodies s) (FinalizationCandidate s) (Workflow.Presets s) (S_Phase s)
    (Base s) (S_Candidate s) (S_StartedAt s) (S_Tokens s) (Attempts s) (Replans s) (VerifyLoops s)
    (Regressions s) (S_Files s) (S_Symbols s) (Hypothesis_ s) (S_Plan s) (S_Impact s) (Baseline s) (S_Results
    s) v (Failures s) (FailureHistory s) (S_Edit s) (S_Verdict s).
Definition wf_Failures (v : gmap string nat) (s : State) : State :=
  mk_state (S_Prefix s) (S_FenceToken s) (Bodies s) (FinalizationCandidate s) (Workflow.Presets s) (S_Phase s)
    (Base s) (S_Candidate s) (S_StartedAt s) (S_Tokens s) (Attempts s) (Replans s) (VerifyLoops s)
    (Regressions s) (S_Files s) (S_Symbols s) (Hypothesis_ s) (S_Plan s) (S_Impact s) (Baseline s) (S_Results
    s) (Feedback s) v (FailureHistory s) (S_Edit s) (S_Verdict s).
Definition wf_History (v : list FailureRecord) (s : State) : State :=
  mk_state (S_Prefix s) (S_FenceToken s) (Bodies s) (FinalizationCandidate s) (Workflow.Presets s) (S_Phase s)
    (Base s) (S_Candidate s) (S_StartedAt s) (S_Tokens s) (Attempts s) (Replans s) (VerifyLoops s)
    (Regressions s) (S_Files s) (S_Symbols s) (Hypothesis_ s) (S_Plan s) (S_Impact s) (Baseline s) (S_Results
    s) (Feedback s) (Failures s) v (S_Edit s) (S_Verdict s).
Definition wf_Edit (v : Transcript) (s : State) : State :=
  mk_state (S_Prefix s) (S_FenceToken s) (Bodies s) (FinalizationCandidate s) (Workflow.Presets s) (S_Phase s)
    (Base s) (S_Candidate s) (S_StartedAt s) (S_Tokens s) (Attempts s) (Replans s) (VerifyLoops s)
    (Regressions s) (S_Files s) (S_Symbols s) (Hypothesis_ s) (S_Plan s) (S_Impact s) (Baseline s) (S_Results
    s) (Feedback s) (Failures s) (FailureHistory s) v (S_Verdict s).
Definition wf_Verdict (v : option RVerdict) (s : State) : State :=
  mk_state (S_Prefix s) (S_FenceToken s) (Bodies s) (FinalizationCandidate s) (Workflow.Presets s) (S_Phase s)
    (Base s) (S_Candidate s) (S_StartedAt s) (S_Tokens s) (Attempts s) (Replans s) (VerifyLoops s)
    (Regressions s) (S_Files s) (S_Symbols s) (Hypothesis_ s) (S_Plan s) (S_Impact s) (Baseline s) (S_Results
    s) (Feedback s) (Failures s) (FailureHistory s) (S_Edit s) v.
Definition out_Task (v : TaskRow) (s : Outcome) : Outcome :=
  mk_run_outcome v (Accepted s) (O_Reasons s) (O_Results s) (O_Attempts s) (O_TokensUsed s) (O_Candidate s)
    (O_OutOfScope s) (PolicyViolations s) (O_Review s) (Diagnosis s) (RetrievalMisses s) (O_Diff s) (Verified
    s) (O_Gate s) (O_Branch s) (O_Worktree s).
Definition out_Accepted (v : bool) (s : Outcome) : Outcome :=
  mk_run_outcome (O_Task s) v (O_Reasons s) (O_Results s) (O_Attempts s) (O_TokensUsed s) (O_Candidate s)
    (O_OutOfScope s) (PolicyViolations s) (O_Review s) (Diagnosis s) (RetrievalMisses s) (O_Diff s) (Verified
    s) (O_Gate s) (O_Branch s) (O_Worktree s).
Definition out_Reasons (v : list string) (s : Outcome) : Outcome :=
  mk_run_outcome (O_Task s) (Accepted s) v (O_Results s) (O_Attempts s) (O_TokensUsed s) (O_Candidate s)
    (O_OutOfScope s) (PolicyViolations s) (O_Review s) (Diagnosis s) (RetrievalMisses s) (O_Diff s) (Verified
    s) (O_Gate s) (O_Branch s) (O_Worktree s).
Definition out_Results (v : list Result) (s : Outcome) : Outcome :=
  mk_run_outcome (O_Task s) (Accepted s) (O_Reasons s) v (O_Attempts s) (O_TokensUsed s) (O_Candidate s)
    (O_OutOfScope s) (PolicyViolations s) (O_Review s) (Diagnosis s) (RetrievalMisses s) (O_Diff s) (Verified
    s) (O_Gate s) (O_Branch s) (O_Worktree s).
Definition out_Attempts (v : Z) (s : Outcome) : Outcome :=
  mk_run_outcome (O_Task s) (Accepted s) (O_Reasons s) (O_Results s) v (O_TokensUsed s) (O_Candidate s)
    (O_OutOfScope s) (PolicyViolations s) (O_Review s) (Diagnosis s) (RetrievalMisses s) (O_Diff s) (Verified
    s) (O_Gate s) (O_Branch s) (O_Worktree s).
Definition out_TokensUsed (v : Z) (s : Outcome) : Outcome :=
  mk_run_outcome (O_Task s) (Accepted s) (O_Reasons s) (O_Results s) (O_Attempts s) v (O_Candidate s)
    (O_OutOfScope s) (PolicyViolations s) (O_Review s) (Diagnosis s) (RetrievalMisses s) (O_Diff s) (Verified
    s) (O_Gate s) (O_Branch s) (O_Worktree s).
Definition out_Candidate (v : string) (s : Outcome) : Outcome :=
  mk_run_outcome (O_Task s) (Accepted s) (O_Reasons s) (O_Results s) (O_Attempts s) (O_TokensUsed s) v
    (O_OutOfScope s) (PolicyViolations s) (O_Review s) (Diagnosis s) (RetrievalMisses s) (O_Diff s) (Verified
    s) (O_Gate s) (O_Branch s) (O_Worktree s).
Definition out_OutOfScope (v : list string) (s : Outcome) : Outcome :=
  mk_run_outcome (O_Task s) (Accepted s) (O_Reasons s) (O_Results s) (O_Attempts s) (O_TokensUsed s)
    (O_Candidate s) v (PolicyViolations s) (O_Review s) (Diagnosis s) (RetrievalMisses s) (O_Diff s) (Verified
    s) (O_Gate s) (O_Branch s) (O_Worktree s).
Definition out_Violations (v : list Violation) (s : Outcome) : Outcome :=
  mk_run_outcome (O_Task s) (Accepted s) (O_Reasons s) (O_Results s) (O_Attempts s) (O_TokensUsed s)
    (O_Candidate s) (O_OutOfScope s) v (O_Review s) (Diagnosis s) (RetrievalMisses s) (O_Diff s) (Verified s)
    (O_Gate s) (O_Branch s) (O_Worktree s).
Definition out_Review (v : option (list Concern)) (s : Outcome) : Outcome :=
  mk_run_outcome (O_Task s) (Accepted s) (O_Reasons s) (O_Results s) (O_Attempts s) (O_TokensUsed s)
    (O_Candidate s) (O_OutOfScope s) (PolicyViolations s) v (Diagnosis s) (RetrievalMisses s) (O_Diff s)
    (Verified s) (O_Gate s) (O_Branch s) (O_Worktree s).
Definition out_Diagnosis (v : option Hypothesis_t) (s : Outcome) : Outcome :=
  mk_run_outcome (O_Task s) (Accepted s) (O_Reasons s) (O_Results s) (O_Attempts s) (O_TokensUsed s)
    (O_Candidate s) (O_OutOfScope s) (PolicyViolations s) (O_Review s) v (RetrievalMisses s) (O_Diff s)
    (Verified s) (O_Gate s) (O_Branch s) (O_Worktree s).
Definition out_Misses (v : list Miss) (s : Outcome) : Outcome :=
  mk_run_outcome (O_Task s) (Accepted s) (O_Reasons s) (O_Results s) (O_Attempts s) (O_TokensUsed s)
    (O_Candidate s) (O_OutOfScope s) (PolicyViolations s) (O_Review s) (Diagnosis s) v (O_Diff s) (Verified s)
    (O_Gate s) (O_Branch s) (O_Worktree s).
Definition out_Diff (v : string) (s : Outcome) : Outcome :=
  mk_run_outcome (O_Task s) (Accepted s) (O_Reasons s) (O_Results s) (O_Attempts s) (O_TokensUsed s)
    (O_Candidate s) (O_OutOfScope s) (PolicyViolations s) (O_Review s) (Diagnosis s) (RetrievalMisses s) v
    (Verified s) (O_Gate s) (O_Branch s) (O_Worktree s).
Definition out_Verified (v : string) (s : Outcome) : Outcome :=
  mk_run_outcome (O_Task s) (Accepted s) (O_Reasons s) (O_Results s) (O_Attempts s) (O_TokensUsed s)
    (O_Candidate s) (O_OutOfScope s) (PolicyViolations s) (O_Review s) (Diagnosis s) (RetrievalMisses s)
    (O_Diff s) v (O_Gate s) (O_Branch s) (O_Worktree s).
Definition out_Gate (v : option Broker.Gate) (s : Outcome) : Outcome :=
  mk_run_outcome (O_Task s) (Accepted s) (O_Reasons s) (O_Results s) (O_Attempts s) (O_TokensUsed s)
    (O_Candidate s) (O_OutOfScope s) (PolicyViolations s) (O_Review s) (Diagnosis s) (RetrievalMisses s)
    (O_Diff s) (Verified s) v (O_Branch s) (O_Worktree s).
Definition out_Branch (v : string) (s : Outcome) : Outcome :=
  mk_run_outcome (O_Task s) (Accepted s) (O_Reasons s) (O_Results s) (O_Attempts s) (O_TokensUsed s)
    (O_Candidate s) (O_OutOfScope s) (PolicyViolations s) (O_Review s) (Diagnosis s) (RetrievalMisses s)
    (O_Diff s) (Verified s) (O_Gate s) v (O_Worktree s).
Definition out_Worktree (v : string) (s : Outcome) : Outcome :=
  mk_run_outcome (O_Task s) (Accepted s) (O_Reasons s) (O_Results s) (O_Attempts s) (O_TokensUsed s)
    (O_Candidate s) (O_OutOfScope s) (PolicyViolations s) (O_Review s) (Diagnosis s) (RetrievalMisses s)
    (O_Diff s) (Verified s) (O_Gate s) (O_Branch s) v.

(** ** State *)

(** The ledger, the world, the workflow state and the outcome under
    construction, the deadline of the run's context and the last packet. *)
Record RS (G : Type) := mk_rs {
  rs_db : Db State; rs_world : fs * G; rs_wf : State; rs_out : Outcome; rs_deadline : option Z;
  rs_packet : option Packet }.
Arguments mk_rs {G}. Arguments rs_db {G}. Arguments rs_world {G}. Arguments rs_wf {G}. Arguments rs_out {G}.
Arguments rs_deadline {G}. Arguments rs_packet {G}.

(** [task/runner.go:885-893 failedOnly] *)
Definition failedOnly (results : list Result) : list Result :=
  filter (λ r, R_Status r = Fail ∨ R_Status r = Error) results.

(** [task/runner.go:895-901 names] *)
Definition names (recipes : list Recipe) : list string := Rec_Name <$> recipes.

(** [task/runner.go:903-912 summaries] *)
Definition summaries (results : list Result) : list json :=
  (λ r, JObj [("artifact", JStr (ArtifactHash r)); ("headline", JStr (Headline (R_Summary r)));
              ("kind", JStr (show_kind (R_Kind r))); ("recipe", JStr (R_Recipe r));
              ("status", JStr (show_status (R_Status r)))]) <$> results.

(** [task/runner.go:871-883 nextAfter] *)
Definition nextAfter (state : string) : string :=
  if String.eqb state StateAccepted then "review the diff and merge the task branch"
  else if String.eqb state StateFailed then "read the verification findings and decide whether to re-plan or abandon"
  else if String.eqb state StateBlocked then "the budget was exhausted; raise it or reduce the task's scope"
  else if String.eqb state StateReview then "answer the open gate with `le gate approve` or `le gate reject`"
  else "resume the task".

(** [task/runner.go:856-869 commitMessage] *)
Definition commitMessage (t : Task) (out : Outcome) : string :=
  Ta_Title t +:+ nl +:+ nl +:+
  "task: " +:+ Ta_ID t +:+ nl +:+ "verification: " +:+ Ta_Verification t +:+ " (" +:+
  (if Accepted out then "accepted" else "not accepted") +:+ ")" +:+ nl +:+
  "attempts: " +:+ pretty (O_Attempts out) +:+ nl +:+
  each_line (λ r, "  " +:+ R_Recipe r +:+ ": " +:+ show_status (R_Status r) +:+ " — " +:+ Headline (R_Summary r) +:+ nl)
    (O_Results out).

(** [task/runner.go:756-764 envValue] the last assignment wins. *)
Definition envValue (env : list string) (key : string) : string :=
  match find (λ e, has_prefix e (key +:+ "=")) (reverse env) with
  | Some e => trim_prefix e (key +:+ "=")
  | None => ""
  end.

(** [task/runner.go:768-779 dedupePorts] *)
Definition dedupePorts (l : list Z) : list Z := dedup l.
(** [task/runner.go:781-792 dedupe] *)
Definition dedupe (l : list string) : list string := dedup (filter (λ s, s ≠ "") l).

(** [recipe/builtin.go:135-157 GoEnv] *)
Definition GoEnv (goCacheDir goModCacheDir tmpDir : string) : list string :=
  ["HOME=" +:+ tmpDir; "GOCACHE=" +:+ goCacheDir; "GOMODCACHE=" +:+ goModCacheDir; "GOTMPDIR=" +:+ tmpDir;
   "TMPDIR=" +:+ tmpDir; "GOTELEMETRY=off"; "GOTELEMETRYDIR=" +:+ tmpDir +:+ "/telemetry"; "NO_COLOR=1"; "TERM=dumb";
   "GOFLAGS=-mod=mod"; "GOPROXY=off"; "GOTOOLCHAIN=local";
   "PATH=/usr/local/go/bin:/opt/le/gotools/bin:/usr/local/bin:/usr/bin:/bin"].

(** [recipe/builtin.go:167-179 GoSandboxPaths] *)
Definition GoSandboxPaths (goCacheDir goModCacheDir tmpDir : string) : list string * list string :=
  ([goCacheDir; tmpDir] ++ (if String.eqb goModCacheDir "" then [] else [goModCacheDir]),
   ["/usr/local/go"; "/usr/lib/go"; "/usr/share/go"; "/etc/ssl"; "/etc/ca-certificates"; "/etc/passwd"; "/etc/group";
    "/etc/nsswitch.conf"]).

(** [recipe/builtin.go:185-187 DeviceFiles] *)
Definition DeviceFiles : list string :=
  ["/dev/null"; "/dev/zero"; "/dev/full"; "/dev/random"; "/dev/urandom"; "/dev/tty"].

(** [store/blobs.go:225-236 Store.EnsureSandboxDirs] *)
Fixpoint EnsureSandboxDirs (root : string) (paths : list string) (f : fs) : fs :=
  match paths with
  | [] => f
  | p :: paths =>
      if String.eqb p "" || negb (has_prefix (clean p) root) then EnsureSandboxDirs root paths f
      else match MkdirAll f (clean_comps true [] (path_of p)) with
           | (Ok _, f) => EnsureSandboxDirs root paths f
           | (Err _, f) => f
           end
  end.

(** [task/phases.go:483-485 phaseFinding] *)
Definition phaseFinding (text : string) : Result :=
  mk_result "supervisor" KindCustom Fail (headline_only text) 0 0 "" "" "".

(** [task/runner.go:1135-1147 diagnosisAsFeedback] *)
Definition diagnosisAsFeedback (h : Hypothesis_t) : Result :=
  let finding m := mk_finding "" 0 0 m "" "" in
  mk_result "diagnosis" KindCustom Fail
    (mk_summary ∅ ("a fresh reading of the repeated failures: " +:+ Cause h)
       (finding ("Try instead: " +:+ Suggestion h) :: ((λ r, finding ("Already ruled out: " +:+ r)) <$> RuledOut h)) ∅ false)
    0 0 "" "" "".

Section runner.
Context {G : Type} `{E : Env G}.
Context (r : Runner) (repoRoot : string).
Notation W := (fs * G)%type.
Notation RS := (RS G).
Notation RM := (M RS).

Definition set_db (d : Db State) (s : RS) : RS :=
  mk_rs d (rs_world s) (rs_wf s) (rs_out s) (rs_deadline s) (rs_packet s).
Definition set_wf (w : State) (s : RS) : RS :=
  mk_rs (rs_db s) (rs_world s) w (rs_out s) (rs_deadline s) (rs_packet s).
Definition set_out (o : Outcome) (s : RS) : RS :=
  mk_rs (rs_db s) (rs_world s) (rs_wf s) o (rs_deadline s) (rs_packet s).

Definition DeadlineExceeded : error := mk_error (Some "context.DeadlineExceeded") "context deadline exceeded".

(** The error of the run's context: the caller's, or the deadline's. *)
Definition context_error (deadline : option Z) (now : Z) (caller : option error) : option error :=
  match caller with
  | Some e => Some e
  | None => match deadline with
            | Some at_ => if Z.leb at_ now then Some DeadlineExceeded else None
            | None => None
            end
  end.

(** Time has passed: the clock, the context and the database as they are now. *)
Definition observed (s : RS) : RS :=
  let '(now, caller, fault) := observe (rs_world s) in
  let d := rs_db s in
  set_db (mk_db _ (operations d) (checkpoints d) (leases d) (evidence d) (gates d) (tasks d) (task_deps d)
            (requirements d) (task_workflow d) now (context_error (rs_deadline s) now caller) fault) s.

(** A call that leaves the process. *)
Definition ext {A} (m : M W A) : RM A := fun s =>
  let '(a, w) := m (rs_world s) in
  (a, observed (mk_rs (rs_db s) w (rs_wf s) (rs_out s) (rs_deadline s) (rs_packet s))).
Definition ext_ {A} (f : W → A * W) : RM A := ext (λ w, let '(a, w) := f w in (Ok a, w)).
(** A call on the ledger. *)
Definition dbm {A} (m : M (Db State) A) : RM A := fun s =>
  let '(a, d) := m (rs_db s) in (a, set_db d s).
(** Under a context that is not cancelled. *)
Definition uncancelled {A} (m : RM A) : RM A := fun s =>
  let '(a, s') := m (set_db (set_ctx None (rs_db s)) s) in
  (a, set_db (set_ctx (db_ctx (rs_db s)) (rs_db s')) s').
Definition wf {A} (f : State → A) : RM A := gets (f ∘ rs_wf).
Definition upd (f : State → State) : RM unit := modify (λ s, set_wf (f (rs_wf s)) s).
Definition upd_out (f : Outcome → Outcome) : RM unit := modify (λ s, set_out (f (rs_out s)) s).
Definition ctx_err : RM (option error) := gets (λ s, db_ctx (rs_db s)).

Notation git := (Checkout.git exec).
Notation Wt_Diff := (Checkout.Diff exec).

(** [worktree/worktree.go:154-156 Worktree.Candidate] *)
Definition candidate_of (wt : Checkout) : RM string := ext (λ w, (ContentManifest sha w.1 (Checkout.W_Path wt), w)).

(** [engine/engine.go:120-125 Edits] *)
Definition edits : bool := match r_engine r with Some (_, e, _) => e | None => true end.
Definition engine_name : string := match r_engine r with Some (n, _, _) => n | None => "" end.
Definition phased : bool := match r_model r with Some _ => edits | None => false end.

(** [task/runner.go:716-745 Runner.specFor] the specification. *)
Definition sandbox_spec (wt : Checkout) : Spec :=
  let spec := r_spec r in
  let tmp := if String.eqb (Sp_TmpDir spec) "" then r_tmp r else Sp_TmpDir spec in
  let env := match Sp_Env spec with [] => GoEnv (r_gocache r) (r_gomod r) tmp | e => e end in
  let '(rw, ro) := GoSandboxPaths (envValue env "GOCACHE") (envValue env "GOMODCACHE") tmp in
  let ro := dedupe (Sp_ReadOnly spec ++ ro) in
  mk_spec (Sp_Network spec) (if is_abs self_path then ro ++ [self_path] else ro)
    (dedupe ([Checkout.W_Path wt] ++ Sp_ReadWrite spec ++ rw) ++ DeviceFiles)
    (Sp_TCPConnect spec) (Sp_TCPBind spec) (Sp_AllowEphemeralTCP spec) (Sp_TCPDeny spec) env
    (Checkout.W_Path wt) tmp.

(** [task/runner.go:715-753 Runner.specFor] *)
Definition specFor (wt : Checkout) : RM Spec :=
  let spec := sandbox_spec wt in
  _ ← ext (λ w, (Ok tt, (EnsureSandboxDirs (r_store_dir r) (Sp_ReadWrite spec) w.1, w.2)));
  mret spec.

Definition is_generator (k : Recipe) : bool := bool_decide (Rec_Kind k = KindGenerate).

(** Generators first, in their order. *)
(** [task/runner.go:630-642 Runner.verify] *)
Definition preset_recipes (presets : list Preset) : list Recipe :=
  let all := Preset_Recipe decode_event <$> presets in
  List.filter is_generator all ++ List.filter (λ k, negb (is_generator k)) all.

(** [task/runner.go:617-643 Runner.verify] *)
Definition base_recipes (t : Task) (wt : Checkout) : RM (list Recipe) :=
  if phased then
    state ← dbm (LoadWorkflow (Ta_ID t));
    match state with
    | None => throw (errorf "workflow verification has no frozen presets")
    | Some state =>
        match Workflow.Presets state with
        | [] => throw (errorf "workflow verification has no frozen presets")
        | presets =>
            f ← gets (λ s, (rs_world s).1);
            _ ← lift (each (Preset_Validate f (Checkout.W_Path wt)) presets);
            mret (preset_recipes presets)
        end
    end
  else mret (GoRecipes decode_semgrep decode_golangci look_path (level_of (Ta_Verification t))).

(** [task/runner.go:651-673 Runner.verify] what the repository declares. *)
Definition with_declared (t : Task) (wt : Checkout) (f : fs) (recipes : list Recipe) (spec : Spec)
    : list Recipe * Spec :=
  let level := level_of (Ta_Verification t) in
  if IncludesDeclared level then
    match DeclaredRecipes parse_declared look_path first_json f level (Checkout.W_Path wt) self_path with
    | [] => (recipes, spec)
    | declared =>
        (List.filter is_generator declared ++ recipes ++ List.filter (λ k, negb (is_generator k)) declared,
         match LoadDeclared parse_declared f (Checkout.W_Path wt) with
         | Ok d =>
             let ports := Ports d in
             mk_spec (Sp_Network spec) (Sp_ReadOnly spec) (Sp_ReadWrite spec) (dedupePorts (Sp_TCPConnect spec ++ ports))
               (dedupePorts (Sp_TCPBind spec ++ ports)) (Sp_AllowEphemeralTCP spec) (Sp_TCPDeny spec) (Sp_Env spec)
               (Sp_Dir spec) (Sp_TmpDir spec)
         | Err _ => spec
         end)
    end
  else (recipes, spec).

(** [task/runner.go:694-700 Runner.verify] *)
Fixpoint record_results (taskID : string) (i : nat) (results : list Result) : RM unit :=
  match results with
  | [] => mret tt
  | res :: results =>
      _ ← dbm (RecordEvidence (taskID +:+ "-" +:+ show_kind (R_Kind res) +:+ "-" +:+ pretty i) taskID
                 (show_kind (R_Kind res)) (show_status (R_Status res)) (R_Candidate res) (ArtifactHash res)
                 (Headline (R_Summary res)) (marshal_summary (R_Summary res)));
      record_results taskID (S i) results
  end.

(** The run of the recipes: it stops when the run's context is done. *)
Definition run_all (spec : Spec) (recipes : list Recipe) (wt : Checkout) (candidate : string) : RM (list Result) :=
  deadline ← gets rs_deadline;
  ext_ (RunAll sandbox put show_duration fst
          (λ w, let '(now, caller, _) := observe w in bool_decide (context_error deadline now caller ≠ None))
          spec 0 recipes (Checkout.W_Path wt) candidate).

(** [task/runner.go:614-705 Runner.verify] *)
Definition verify (t : Task) (wt : Checkout) (candidate : string) : RM (list Result) :=
  spec ← specFor wt;
  recipes ← base_recipes t wt;
  f ← gets (λ s, (rs_world s).1);
  let '(recipes, spec) := with_declared t wt f recipes spec in
  match recipes with
  | [] => mret []
  | _ =>
      h ← dbm (Begin (Ta_ID t) KRecipeRun
                 (JObj [("kind", JStr "verification"); ("level", JStr (Ta_Verification t));
                        ("recipes", JArr (JStr <$> names recipes))]) candidate);
      results ← run_all spec recipes wt candidate;
      _ ← record_results (Ta_ID t) 0 results;
      _ ← dbm (Complete h (JObj [("results", JArr (summaries results))]) candidate "");
      mret results
  end.

Definition json_strings (l : list string) : json := match l with [] => JNull | _ => JArr (JStr <$> l) end.

Definition task_in (state : string) (t : Task) : Task :=
  mk_task_row (Ta_ID t) (Ta_Workspace t) (Ta_Requirement t) (Ta_Parent t) (Ta_Title t) (Ta_Kind t) (Ta_Worktree t)
    state (Ta_Verification t) (Ta_Budget t) (Ta_Created t) (Ta_Updated t) (Ta_Finished t).

(** [task/runner.go:794-813 Runner.finish] the outcome, and the error returned
    beside it. *)
Definition finish (t : Task) (state : string) : RM (Outcome * option error) :=
  out ← gets rs_out;
  saved ← try (dbm (Checkpoint (Ta_ID t) state
    (JObj [("accepted", JBool (Accepted out)); ("next_action", JStr (nextAfter state));
           ("objective", JStr (Ta_Title t)); ("reasons", json_strings (O_Reasons out)); ("remaining_plan", JArr [])])
    (O_Candidate out)));
  match saved with
  | Err e => mret (out, Some e)
  | Ok _ =>
      stated ← try (dbm (SetState (Ta_ID t) state));
      match stated with
      | Err e => mret (out, Some e)
      | Ok _ =>
          _ ← upd_out (λ o, out_Task (task_in state (O_Task o)) o);
          out ← gets rs_out;
          mret (out, None)
      end
  end.

(** [task/runner.go:828-849 Runner.gate] what the person sees. *)
Definition gate_evidence (t : Task) (out : Outcome) : Broker.Evidence :=
  Broker.mk_gate_evidence
    (Ta_Title t +:+ ": " +:+ pretty (O_Attempts out) +:+ " attempt(s), every required check passed") None 0 []
    (O_Diff out)
    ((λ res, R_Recipe res +:+ ": " +:+ show_status (R_Status res) +:+ " — " +:+ Headline (R_Summary res)) <$> O_Results out)
    None
    ((λ v, V_Path v +:+ " (" +:+ V_Policy v +:+ "): " +:+ V_Reason v) <$> PolicyViolations out)
    (match O_Review out with
     | None => []
     | Some concerns =>
         (λ c, "[" +:+ Severity c +:+ "] " +:+ (if String.eqb (Co_Path c) "" then "the change" else Co_Path c)
               +:+ ": " +:+ Co_Detail c) <$> concerns
     end).

Definition no_gate (note : string) : Broker.Gate :=
  Broker.mk_gate "" "" "" "" "" None "" Broker.Approved "" note Broker.zero_time None None.

(** The random bytes a new gate without content is named with. *)
Definition ask (p : Broker.Policy) (taskID kind question : string) (ev : Broker.Evidence) (candidate : string)
    : RM Broker.Gate :=
  random ← ext_ random_bytes;
  dbm (Broker.Ask (r_ws r) p taskID kind question ev candidate random).

(** [task/runner.go:821-852 Runner.gate] *)
Definition gate (t : Task) (out : Outcome) : RM Broker.Gate :=
  match r_broker r with
  | None => mret (no_gate "no broker configured")
  | Some p =>
      if blank (O_Diff out) then mret (no_gate "the task changed nothing; there is nothing to apply")
      else ask p (Ta_ID t) Broker.KindApply "This task met the completion contract. Apply its change?"
             (gate_evidence t out) (O_Candidate out)
  end.

(** [task/runner.go:1201-1214 Runner.freshen] *)
Definition freshen : RM unit :=
  if negb (r_freshener r) || String.eqb repoRoot "" then mret tt else
  n ← try (ext dirty);
  match n with
  | Err _ => mret tt
  | Ok n => if Z.eqb n 0 then mret tt else _ ← try (ext (refresh repoRoot)); mret tt
  end.

(** An engine's step.  Its transcript is [S_Edit] of the workflow state. *)
Fixpoint run_engine {A} (save : RM unit) (p : proc W A) : RM A :=
  match p with
  | PReturn res => lift res
  | PWorld m k => b ← ext (λ w, let '(b, w) := m w in (Ok b, w)); run_engine save (k b)
  | PTranscript f k => _ ← upd (λ s, wf_Edit (f (S_Edit s)) s); tr ← wf S_Edit; run_engine save (k tr)
  | PSave k => res ← try save; run_engine save (k (match res with Ok _ => None | Err e => Some e end))
  | PContext k => e ← ctx_err; run_engine save (k e)
  | POperations k =>
      t ← gets (λ s, Ta_ID (O_Task (rs_out s))); res ← try (dbm (Operations t)); run_engine save (k res)
  | PBegin kind intent before k =>
      t ← gets (λ s, Ta_ID (O_Task (rs_out s)));
      res ← try (dbm (Begin t kind intent before)); run_engine save (k res)
  | PComplete h outcome after ev k => res ← try (dbm (Complete h outcome after ev)); run_engine save (k res)
  | PFail h cause k => res ← try (dbm (FailOp h cause)); run_engine save (k res)
  | PInterrupted h cause k => res ← try (dbm (Interrupted h cause)); run_engine save (k res)
  end.
Definition step_engine (save : RM unit) (q : EngRequest) : RM EngResponse :=
  run_engine save (engine_step q).
End runner.
