(* ===== verification/Critic.v ===== *)
(** The calls to a model outside the editing conversation,
    [src/internal/critic/critic.go]: a review of a finished change and a diagnosis
    of repeated failures.  Each is one structured call to a provider, given the
    objective and the evidence and nothing of the conversation; what it answers is
    advice.  The provider's call and the JSON parser are parameters; a run reaches
    the critic through [critic_review] and [critic_diagnose] of [Runner]. *)
From S2P Require Import Memory Retrieval.
From S2P Require Import Prelude GoStrings Recipe Json Llm Providers Runner.

Open Scope string_scope.
Open Scope list_scope.
Open Scope nat_scope.

(** [critic/critic.go:34-45 Critic] the temperature in its JSON form; without a
    provider the client is missing. *)
Record Critic := mk_critic { Cr_Provider : option Client; Cr_MaxTokens : Z; Cr_Temperature : json; Cr_Thinking : string }.

(** [critic/critic.go:59-63 ReviewResult] *)
Record ReviewResult := mk_review_result { Concerns : list Concern; Rr_Summary : string }.

(** [critic/critic.go:227-232 truncate] *)
Definition truncate (s : string) (n : nat) : string :=
  if String.length s <=? n then s
  else take_str n s +:+ nl +:+ "… (" +:+ pretty (String.length s - n) +:+ " bytes truncated)".

(** [critic/critic.go:130-142 reviewSystem] *)
Definition reviewSystem : string :=
  "You are reviewing a finished change you did not write." +:+ nl +:+ nl +:+
  "You are given the objective, the verification results, and the diff. You do not" +:+ nl +:+
  "have the history of how the change was made, and you do not need it." +:+ nl +:+ nl +:+
  "Report concerns only. You are not deciding whether this is accepted: the" +:+ nl +:+
  "verification evidence decides that, and it has already been gathered. A concern" +:+ nl +:+
  "is something a careful reviewer would raise that the compiler and the tests" +:+ nl +:+
  "cannot see — a case not handled, an assumption not stated, a consumer likely" +:+ nl +:+
  "missed." +:+ nl +:+ nl +:+
  "If the change looks right, return no concerns. An empty list is a useful answer" +:+ nl +:+
  "and padding it is not.".
(** [critic/critic.go:214-225 diagnoseSystem] *)
Definition diagnoseSystem : string :=
  "You are diagnosing repeated failures on work you did not do." +:+ nl +:+ nl +:+
  "You are given the objective and what verification reported, more than once. You" +:+ nl +:+
  "do not have the attempts themselves, which is deliberate: the reasoning that" +:+ nl +:+
  "produced the failures is what keeps producing them." +:+ nl +:+ nl +:+
  "Name the cause you actually believe, and say what to try instead. List what the" +:+ nl +:+
  "evidence already rules out, so the next attempt does not spend itself" +:+ nl +:+
  "re-testing those." +:+ nl +:+ nl +:+
  "If the failures point at the objective being wrong or ambiguous rather than the" +:+ nl +:+
  "code, say that. It is a more useful answer than a plausible fix.".

(** [critic/critic.go:104-110 Critic.Review] what the model is told. *)
Definition review_brief (objective diff : string) (results : list Result) : string :=
  "Objective: " +:+ objective +:+ nl +:+ nl +:+ "Verification results:" +:+ nl +:+
  join "" ((λ r, "  " +:+ R_Recipe r +:+ ": " +:+ show_status (R_Status r) +:+ " — " +:+ Headline (R_Summary r) +:+ nl) <$> results) +:+
  nl +:+ "Diff:" +:+ nl +:+ truncate diff 20000 +:+ nl.

(** [critic/critic.go:192-192 Critic.Diagnose] one finding. *)
Definition finding_line (f : Finding) : string := "  " +:+ F_File f +:+ ":" +:+ pretty (F_Line f) +:+ " " +:+ F_Message f +:+ nl.
(** [critic/critic.go:187-193 Critic.Diagnose] the findings of a failure, ten at
    most. *)
Definition some_findings (l : list Finding) : string :=
  join "" (finding_line <$> take 10 l) +:+
  (if 10 <? length l then "  … and " +:+ pretty (length l - 10) +:+ " more" +:+ nl else "").
(** [critic/critic.go:182-194 Critic.Diagnose] what the model is told. *)
Definition diagnose_brief (objective : string) (failures : list Result) : string :=
  "Objective: " +:+ objective +:+ nl +:+ nl +:+ "The same work has now failed verification more than once." +:+ nl +:+ nl +:+
  "What failed:" +:+ nl +:+
  join "" ((λ r, nl +:+ R_Recipe r +:+ " (" +:+ show_status (R_Status r) +:+ "): " +:+ Headline (R_Summary r) +:+ nl +:+
                 some_findings (Findings (R_Summary r))) <$> failures).

(** What [encoding/json] reads into the two answers. *)
Definition dec_concern (j : json) : option Concern :=
  s ← get_string "severity" j; d ← get_string "detail" j; p ← get_string "path" j; Some (mk_concern s d p).
Definition dec_concerns (j : json) : option (list Concern) :=
  match j with JArr l => mapM (λ j, match j with JNull => Some (mk_concern "" "" "") | _ => dec_concern j end) l | _ => None end.
Definition dec_review (j : json) : option ReviewResult :=
  c ← dec_field dec_concerns [] "concerns" j; s ← get_string "summary" j; Some (mk_review_result c s).
Definition dec_hypothesis (j : json) : option Hypothesis_t :=
  c ← get_string "cause" j; s ← get_string "suggestion" j; r ← get_strings "ruled_out" j; Some (mk_hypothesis c s r).

(** [critic/critic.go:112-119 Critic.Review] the request. *)
Definition critic_request (c : Critic) (system brief : string) : Providers.ChatRequest :=
  mk_request 0 "" [mk_attached (mk_message "system" system) []; mk_attached (mk_message "user" brief) []]
    (Some (Cr_Temperature c)) None None None (Cr_MaxTokens c) [] None (Cr_Thinking c) [] "".

Section critic.
Context {N : Type}.
Context (ChatStructured : Client → Providers.ChatRequest → string → M N ChatResponse).   (* the provider's own *)
Context (parse : string → option json).                                        (* [json.Unmarshal]'s parser *)
Context (reviewSchema diagnoseSchema : string).                                (* the schemas, critic.go:65 and :156 *)

(** [critic/critic.go:93-102 Critic.Review] the provider must be there and
    constrain its output; the same in [Diagnose]. *)
Definition asked_of (c : Critic) : result Client :=
  match Cr_Provider c with
  | None => Err (errorf "critic: no provider")
  | Some p => if StructuredOutput (Cl_Caps p) then Ok p else Err (UnsupportedError (Cl_Name p) "structured output")
  end.

(** [critic/critic.go:92-128 Critic.Review] *)
Definition Review (c : Critic) (objective diff : string) (results : list Result) : M N ReviewResult :=
  p ← lift (asked_of c);
  resp ← ChatStructured p (critic_request c reviewSystem (review_brief objective diff results)) reviewSchema;
  match parse (trim_space (Cr_Content resp)) ≫= dec_review with
  | Some out => mret out
  | None => throw (errorf "critic: review output is not the declared shape")
  end.

(** [critic/critic.go:172-212 Critic.Diagnose] *)
Definition Diagnose (c : Critic) (objective : string) (failures : list Result) : M N Hypothesis_t :=
  p ← lift (asked_of c);
  resp ← ChatStructured p (critic_request c diagnoseSystem (diagnose_brief objective failures)) diagnoseSchema;
  match parse (trim_space (Cr_Content resp)) ≫= dec_hypothesis with
  | Some out => mret out
  | None => throw (errorf "critic: diagnosis output is not the declared shape")
  end.
End critic.

(** ** Advice *)

(** Without a provider that constrains its output nothing is asked. *)
Lemma critic_silent {N} (chat : Client → Providers.ChatRequest → string → M N ChatResponse) parse s1 s2 c objective diff results s e :
  asked_of c = Err e →
  Review chat parse s1 c objective diff results s = (Err e, s) ∧ Diagnose chat parse s2 c objective results s = (Err e, s).
Proof. intros H. unfold Review, Diagnose, mbind, M_bind, lift. by rewrite H. Qed.

(** On the Anthropic interface a review is one turn: the system text and what the
    model is told. *)
Lemma review_one_turn c objective diff results :
  anthropic_turns (Rq_Messages (critic_request c reviewSystem (review_brief objective diff results))) =
  ([reviewSystem], [mk_turn "user" (CText (review_brief objective diff results))]).
Proof. reflexivity. Qed.
