(* ===== verification/Misses.v ===== *)
(** The retrieval-miss metric, [src/internal/retrieval/misses.go]: which files a
    failed check named that the packet given to the engine did not carry. *)
From S2P Require Import Memory Retrieval Checkout Broker.
From S2P Require Import Prelude GoStrings GoPath Policy Worktree Firewall Recipe Summarize Contract Graph.
From S2P Require Import Trust ContextPack Workflow Json Ledger Recover Tasks Engine Runner.

Open Scope string_scope.
Open Scope list_scope.
Open Scope nat_scope.

(** [retrieval/misses.go:99-107 normalisePath] [filepath.ToSlash] is the identity on the supported systems. *)
Definition normalisePath (p : string) : string :=
  let p := trim_space p in
  if String.eqb p "" then "" else trim_prefix (clean p) "./".

(** [retrieval/misses.go:40-43 Failure] with its findings, [misses.go:46-49]. *)
Record Failure := mk_failure { Fl_Recipe : string; Fl_Findings : list (string * string) }.

(** [task/runner.go:1154-1163 Runner.recordMisses] the failures, converted. *)
Definition failure_of (r : Result) : Failure :=
  mk_failure (R_Recipe r) ((λ f, (F_File f, F_Message f)) <$> Findings (R_Summary r)).

(** [retrieval/misses.go:61-64 DetectMisses] *)
Definition carried (pkt : Packet) : list string := normalisePath ∘ Sl_Path <$> Pk_Slices pkt.

(** [retrieval/misses.go:69-85 DetectMisses] one finding; [out] are the misses so far. *)
Definition note_miss (pkt : Packet) (recipe : string) (out : list Miss) (finding : string * string) : list Miss :=
  let path := normalisePath finding.1 in
  if String.eqb path "" || mem path (carried pkt) then out
  else if existsb (λ m, String.eqb (Mi_Recipe m) recipe && String.eqb (Mi_Path m) path) out then out
  else out ++ [mk_miss path (trim_space finding.2) recipe].

(** [retrieval/misses.go:88-93 DetectMisses] *)
Definition miss_less (a b : Miss) : bool :=
  if negb (String.eqb (Mi_Path a) (Mi_Path b)) then str_ltb (Mi_Path a) (Mi_Path b)
  else str_ltb (Mi_Recipe a) (Mi_Recipe b).

Definition collect (pkt : Packet) (out : list Miss) (f : Failure) : list Miss :=
  foldl (note_miss pkt (Fl_Recipe f)) out (Fl_Findings f).

(** [retrieval/misses.go:57-94 DetectMisses] *)
Definition DetectMisses (pkt : option Packet) (failures : list Failure) : list Miss :=
  match pkt with
  | None => []
  | Some pkt => stable_sort miss_less (foldl (collect pkt) [] failures)
  end.

(** ** What is counted *)

(** The findings of all failures in order, each with its recipe. *)
Definition all_findings (failures : list Failure) : list (string * (string * string)) :=
  f ← failures; pair (Fl_Recipe f) <$> Fl_Findings f.

Definition key_of (x : string * (string * string)) : string * string := (x.1, normalisePath x.2.1).
Definition miss_key (m : Miss) : string * string := (Mi_Recipe m, Mi_Path m).

(** A finding that is a miss: it names a file, and the packet did not carry it. *)
Definition missed (pkt : Packet) (x : string * (string * string)) : Prop :=
  (key_of x).2 ≠ "" ∧ (key_of x).2 ∉ carried pkt.

(** The first finding of its check about its file. *)
Definition first_at (l : list (string * (string * string))) (i : nat) (x : string * (string * string)) : Prop :=
  l !! i = Some x ∧ ∀ j y, j < i → l !! j = Some y → key_of y ≠ key_of x.

Definition miss_of (x : string * (string * string)) : Miss := mk_miss (normalisePath x.2.1) (trim_space x.2.2) x.1.

Lemma collect_flat pkt failures out :
  foldl (collect pkt) out failures = foldl (λ out x, note_miss pkt x.1 out x.2) out (all_findings failures).
Proof.
  revert out. induction failures as [|f l IH]; intros out; [done |]. cbn [foldl]. rewrite IH.
  change (all_findings (f :: l)) with ((pair (Fl_Recipe f) <$> Fl_Findings f) ++ all_findings l).
  rewrite foldl_app. f_equal. unfold collect. revert out.
  induction (Fl_Findings f) as [|x xs IHx]; intros out; [done |]. cbn. apply IHx.
Qed.

Lemma miss_key_of x : miss_key (miss_of x) = key_of x.
Proof. done. Qed.

(** One finding is added exactly when it is a miss not counted yet. *)
Lemma note_miss_spec pkt x out :
  (missed pkt x ∧ key_of x ∉ miss_key <$> out ∧ note_miss pkt x.1 out x.2 = out ++ [miss_of x]) ∨
  ((¬ missed pkt x ∨ key_of x ∈ miss_key <$> out) ∧ note_miss pkt x.1 out x.2 = out).
Proof.
  unfold note_miss, missed. destruct x as [rcp [file msg]]. cbn.
  destruct (String.eqb_spec (normalisePath file) "") as [->|Hne]; cbn [orb]; [right; tauto |].
  destruct (mem _ _) eqn:Em; [apply mem_true in Em; right; tauto |].
  apply mem_false in Em. destruct (existsb _ out) eqn:Ee.
  - right. split; [right | done]. apply existsb_exists in Ee as (m & Hm & [H1%String.eqb_eq H2%String.eqb_eq]%andb_true_iff).
    apply list_elem_of_fmap. exists m. split; [by unfold key_of, miss_key; cbn; rewrite H1, H2 | by apply list_elem_of_In].
  - left. split; [done |]. split; [|done]. intros (m & Hk & Hm)%list_elem_of_fmap.
    apply not_true_iff_false in Ee. apply Ee, existsb_exists. exists m.
    unfold key_of, miss_key in Hk. injection Hk as Hr Hp. cbn in Hr, Hp.
    split; [by apply list_elem_of_In |]. by rewrite <- Hr, <- Hp, !String.eqb_refl.
Qed.

Lemma first_at_snoc l x i y : first_at (l ++ [x]) i y ↔
  first_at l i y ∨ (i = length l ∧ y = x ∧ ∀ z, z ∈ l → key_of z ≠ key_of x).
Proof.
  unfold first_at. split.
  - intros [H Hf]. destruct (decide (i < length l)) as [Hi|Hi].
    + left. rewrite lookup_app_l in H by done. split; [done |]. intros j z Hj Hz. apply (Hf j z Hj).
      by rewrite lookup_app_l by lia.
    + right. rewrite lookup_app_r in H by lia. destruct (i - length l) as [|k] eqn:Ek; [|by destruct k].
      injection H as ->. split; [lia |]. split; [done |]. intros z (j & Hz)%list_elem_of_lookup.
      pose proof (lookup_lt_Some _ _ _ Hz). apply (Hf j z); [lia |]. by rewrite lookup_app_l.
  - intros [[H Hf]|(-> & -> & Hf)].
    + pose proof (lookup_lt_Some _ _ _ H). rewrite lookup_app_l by done. split; [done |].
      intros j z Hj. rewrite lookup_app_l by lia. by apply Hf.
    + rewrite lookup_app_r, Nat.sub_diag by lia. split; [done |]. intros j z Hj Hz.
      rewrite lookup_app_l in Hz by done. eapply Hf, list_elem_of_lookup_2, Hz.
Qed.

(** The misses collected, before they are sorted. *)
Lemma collected pkt l :
  let out := foldl (λ out x, note_miss pkt x.1 out x.2) [] l in
  NoDup (miss_key <$> out) ∧
  (∀ k, k ∈ miss_key <$> out ↔ ∃ x, x ∈ l ∧ key_of x = k ∧ missed pkt x) ∧
  ∀ m, m ∈ out ↔ ∃ i x, first_at l i x ∧ missed pkt x ∧ m = miss_of x.
Proof.
  induction l as [|x l (Hd & Hk & Hm)] using rev_ind; cbn zeta.
  - split; [constructor |]. split; [intros k; split; [by intros ?%not_elem_of_nil | by intros (? & ?%not_elem_of_nil & _)] |].
    intros m. split; [by intros ?%not_elem_of_nil |].
    by intros (i & x & [H _] & _).
  - rewrite foldl_app. cbn [foldl]. set (out := foldl _ _ l) in *.
    assert (Hkey : ∀ y, key_of y = key_of x → missed pkt y ↔ missed pkt x) by (unfold missed; by intros y ->).
    destruct (note_miss_spec pkt x out) as [(Hx & Hnew & ->)|[Hold ->]].
    + rewrite fmap_app. cbn. split; [|split].
      * apply NoDup_app. split; [done |]. split; [|apply NoDup_singleton].
        by intros k Hk' ->%list_elem_of_singleton.
      * intros k. rewrite elem_of_app, Hk, list_elem_of_singleton, miss_key_of. setoid_rewrite elem_of_app.
        setoid_rewrite list_elem_of_singleton. split.
        -- intros [(y & Hy & ? & ?)| ->]; [exists y; auto | by exists x; auto].
        -- intros (y & [Hy| ->] & <- & Hmy); [left; by exists y | by right].
      * intros m. rewrite elem_of_app, Hm, list_elem_of_singleton. setoid_rewrite first_at_snoc. split.
        -- intros [(i & y & H1 & H2 & H3)| ->]; [exists i, y; tauto |]. exists (length l), x. split; [|done].
           right. split; [done |]. split; [done |]. intros z Hz He. apply Hnew, Hk. exists z. rewrite (Hkey z He). done.
        -- intros (i & y & [H1|(-> & -> & _)] & H2 & ->); [left; by exists i, y | by right].
    + split; [done |]. split.
      * intros k. rewrite Hk. split; [intros (y & ? & ? & ?); exists y; rewrite elem_of_app; auto |]. intros (y & [Hy|Hy%list_elem_of_singleton]%elem_of_app & <- & Hmy).
        -- by exists y.
        -- subst y. destruct Hold as [?|Hold]; [done |]. by apply Hk.
      * intros m. rewrite Hm. setoid_rewrite first_at_snoc. split.
        -- intros (i & y & H1 & H2 & H3). exists i, y. tauto.
        -- intros (i & y & [H1|(-> & -> & Hf)] & H2 & ->); [by exists i, y |]. destruct Hold as [?|Hold]; [done |].
           apply Hk in Hold as (z & Hz & He & _). by destruct (Hf z Hz).
Qed.

Lemma miss_less_asym a b : miss_less a b = true → miss_less b a = false.
Proof.
  unfold miss_less. rewrite (String.eqb_sym (Mi_Path b)).
  destruct (String.eqb (Mi_Path a) (Mi_Path b)); apply str_ltb_asym.
Qed.
Lemma miss_less_trans a b c : not_less miss_less a b → not_less miss_less b c → not_less miss_less a c.
Proof.
  unfold not_less, miss_less.
  destruct (String.eqb_spec (Mi_Path b) (Mi_Path a)) as [E1|E1], (String.eqb_spec (Mi_Path c) (Mi_Path b)) as [E2|E2],
    (String.eqb_spec (Mi_Path c) (Mi_Path a)) as [E3|E3]; cbn [negb]; try congruence; try apply str_not_less_trans.
  intros H1 H2. exfalso. rewrite E3 in H2. apply E1. symmetry. by apply str_ltb_total.
Qed.

(** The retrieval-miss metric counts what it says.  A file is reported for a
    check exactly when a finding of that check named it and the packet carried
    no slice of it under any spelling; it is reported once, with the text of
    the first such finding; and the report is ordered by path, then check. *)
Theorem DetectMisses_exact pkt failures :
  let misses := DetectMisses (Some pkt) failures in
  NoDup (miss_key <$> misses) ∧
  (∀ m, m ∈ misses ↔ ∃ i x, first_at (all_findings failures) i x ∧ missed pkt x ∧ m = miss_of x) ∧
  StronglySorted (λ a b, miss_less b a = false) misses.
Proof.
  cbn zeta. unfold DetectMisses. rewrite collect_flat.
  destruct (collected pkt (all_findings failures)) as (Hd & _ & Hm). set (out := foldl _ _ _) in *.
  pose proof (stable_sort_perm miss_less out) as Hp.
  split; [by rewrite Hp |]. split; [intros m; by rewrite Hp, Hm |].
  apply (stable_sort_sorted miss_less); [apply miss_less_asym | apply miss_less_trans].
Qed.
