(* ===== verification/Supervise.v ===== *)
(** The supervisor's run of a task, [src/internal/task/runner.go]: the guards,
    the lease, the attempts of an engine that has no phased workflow, what is
    kept afterwards. *)
From S2P Require Import Memory Retrieval Checkout Broker.
From S2P Require Import Prelude GoStrings GoPath GoRegexp Policy Worktree Firewall Recipe Summarize Contract Graph.
From S2P Require Import Trust ContextPack Workflow Json Ledger Recover Tasks Engine Runner Misses Phases.

Open Scope string_scope.
Open Scope list_scope.
Open Scope nat_scope.

(** [engine/engine.go:109-109 ErrNoEngine] *)
Definition ErrNoEngine : error := mk_error (Some "engine.ErrNoEngine") "engine: no engine configured".

(** [task/runner.go:1085-1085 DefaultDiagnoseAfter] *)
Definition DefaultDiagnoseAfter : Z := 2.

(** [fmt.Sprintf("%v", l)] of a list of strings. *)
Definition show_list (l : list string) : string := "[" +:+ join " " l +:+ "]".

(** [task/runner.go:447-452 Runner.run] protected paths count as out of scope. *)
Definition widen (scope : list string) (v : Violation) : list string :=
  if mem (V_Path v) scope then scope else scope ++ [V_Path v].

(** How an attempt ends: the loop goes on with what failed, or the run returns. *)
Inductive attempt_end := Retry (feedback : list Result) | Done (o : Outcome) (e : option error).

Section supervise.
Context {G : Type} `{E : Env G}.
Context (r : Runner) (repoRoot : string).
Notation RS := (RS G).
Notation RM := (M RS).

Definition reason (text : string) : RM unit := upd_out (λ o, out_Reasons (O_Reasons o ++ [text]) o).
Definition finished (t : Task) (state : string) : RM attempt_end :=
  end_ ← finish t state; mret (Done end_.1 end_.2).

(** [task/runner.go:1113-1131 Runner.diagnose] *)
Definition diagnose (t : Task) (attempt : Z) (feedback : list Result) : RM (option Hypothesis_t) :=
  let after := if Z.leb (r_diagnose_after r) 0 then DefaultDiagnoseAfter else r_diagnose_after r in
  if negb (r_critic r) || (length feedback =? 0) || Z.leb attempt after then mret None else
  h ← try (ext (critic_diagnose (Ta_Title t) feedback));
  mret (match h with Ok h => Some h | Err _ => None end).

(** [task/runner.go:1091-1109 Runner.review] *)
Definition review (t : Task) (wt : Checkout) (results : list Result) : RM unit :=
  if negb (r_critic r) then mret tt else
  diff ← try (ext (Checkout.Diff exec wt));
  match diff with
  | Err _ => mret tt
  | Ok diff =>
      if blank diff then mret tt else
      res ← try (ext (critic_review (Ta_Title t) diff results));
      match res with Ok concerns => upd_out (out_Review (Some concerns)) | Err _ => mret tt end
  end.

(** [task/runner.go:1150-1180 Runner.recordMisses] *)
Definition recordMisses (failures : list Result) : RM unit :=
  pkt ← gets rs_packet;
  match pkt, failures with
  | None, _ | _, [] => mret tt
  | Some _, _ => upd_out (λ o, out_Misses (RetrievalMisses o ++ DetectMisses pkt (failure_of <$> failures)) o)
  end.

(** [task/runner.go:574-580 Runner.step] what the engine is asked. *)
Definition step_request (t : Task) (wt : Checkout) (attempt : Z) (pkt : Packet) (feedback : list Result)
    (remaining : Z) (spec : option Spec) : EngRequest :=
  mk_engrequest (Ta_ID t) (Ta_Title t) (Checkout.W_Path wt) pkt feedback attempt [] None None
    (mk_access (Scope (Ta_Budget t)) (r_policies r)) (mk_ebudget 0 0 0 0 remaining) true false spec.

(** [task/runner.go:522-610 Runner.step] The engine is given no transcript, so
    it starts one of its own, and nothing to save it with. *)
Definition step (t : Task) (wt : Checkout) (attempt : Z) (before : string) (feedback : list Result) (remaining : Z)
    : RM EngResponse :=
  _ ← freshen r repoRoot;
  pkt ← wrapM ("task " +:+ Ta_ID t +:+ ": retrieval: ") (ext (retrieve (mk_rrequest "" (Ta_Title t) [] 1 [] None 0)));
  _ ← modify (λ s, mk_rs (rs_db s) (rs_world s) (rs_wf s) (rs_out s) (rs_deadline s) (Some pkt));
  if 0 <? length (Pk_Rejected pkt)
  then throw (errorf ("task " +:+ Ta_ID t +:+ ": retrieval returned slices from another workspace: " +:+ join "; " (Pk_Rejected pkt)))
  else
    h ← dbm (Begin (Ta_ID t) KRecipeRun
               (JObj [("attempt", JNum attempt); ("engine", JStr (engine_name r)); ("kind", JStr "engine_step");
                      ("objective", JStr (Ta_Title t)); ("packet_tokens", JNum (Pk_Tokens pkt));
                      ("worktree", JStr (Checkout.W_ID wt))]) before);
    spec ← (if takes_runner r then Some <$> specFor r wt else mret None);
    _ ← upd (wf_Edit new_transcript);
    resp ← try (step_engine (mret tt) (step_request t wt attempt pkt feedback remaining spec));
    match resp with
    | Err e =>
        _ ← dbm (Interrupted h (Some e));
        throw (wrap ("task " +:+ Ta_ID t +:+ ": engine step: ") e)
    | Ok resp =>
        after ← candidate_of wt;
        changed ← try (ext (Checkout.ChangedFiles exec wt));
        _ ← dbm (Complete h (JObj [("budget_exhausted", JBool (Er_BudgetExhausted resp));
                                   ("changed_files", json_strings (match changed with Ok l => l | Err _ => [] end));
                                   ("claims_done", JBool (Er_ClaimsDone resp)); ("summary", JStr (Er_Summary resp));
                                   ("tokens", JNum (Er_Tokens resp)); ("truncated", JBool (Er_Truncated resp))]) after "");
        mret resp
    end.

(** [task/runner.go:460-488 Runner.run] the verdict is yes: the review, the
    diff, the gate. *)
Definition accepted_attempt (t : Task) (wt : Checkout) (results : list Result) : RM attempt_end :=
  _ ← upd_out (out_Accepted true);
  _ ← review t wt results;
  diff ← try (ext (Checkout.Diff exec wt));
  _ ← (match diff with Ok d => upd_out (out_Diff d) | Err _ => mret tt end);
  out ← gets rs_out;
  g ← gate r t out;
  if String.eqb (Broker.G_Decision g) Broker.Rejected then
    _ ← upd_out (out_Accepted false);
    _ ← reason ("rejected at the human gate: " +:+ Broker.G_Note g);
    finished t StateFailed
  else if Broker.Open_ g then
    _ ← upd_out (out_Gate (Some g));
    _ ← reason ("waiting at a human gate: " +:+ Broker.G_Question g);
    finished t StateReview
  else finished t StateAccepted.

(** [task/runner.go:495-499 Runner.run] what the person sees. *)
Definition scope_evidence (t : Task) (scope : list string) (out : Outcome) : Broker.Evidence :=
  Broker.mk_gate_evidence
    (pretty (length scope) +:+ " file(s) outside scope " +:+ show_list (Scope (Ta_Budget t)))
    None 0 scope (O_Diff out) [] None [] [].

(** [task/runner.go:490-509 Runner.run] the verdict is no. *)
Definition refused_attempt (t : Task) (scope : list string) (feedback : list Result) : RM attempt_end :=
  match r_broker r, scope with
  | Some p, _ :: _ =>
      out ← gets rs_out;
      g ← ask r p (Ta_ID t) Broker.KindOutOfScope "This task changed files outside its declared scope. Allow it?"
            (scope_evidence t scope out) (O_Candidate out);
      if Broker.Open_ g then _ ← upd_out (out_Gate (Some g)); finished t StateReview
      else mret (Retry feedback)
  | _, _ => mret (Retry feedback)
  end.

(** [task/runner.go:436-460 Runner.run] the change is measured and judged.
    [Accept] sorts the out-of-scope list in place, which is the outcome's too. *)
Definition judge_attempt (t : Task) (wt : Checkout) (results : list Result) (after : string) : RM attempt_end :=
  scope ← ext (Checkout.OutOfScope exec wt (Scope (Ta_Budget t)));
  changed ← ext (Checkout.ChangedFiles exec wt);
  let violations := Set_Check (r_policies r) changed in
  let scope := foldl widen scope violations in
  let scope := match scope with [] => [] | _ => sort_strings scope end in
  let '(accepted, reasons) := Accept (level_of (Ta_Verification t)) results after scope
                                (mk_effect (0 <? length changed) (edits r)) in
  _ ← upd_out (λ o, out_Reasons reasons (out_OutOfScope scope
                      (out_Violations (PolicyViolations o ++ violations) o)));
  if accepted then accepted_attempt t wt results else refused_attempt t scope (failedOnly results).

(** [task/runner.go:411-434 Runner.run] after the engine's step. *)
Definition measure_attempt (t : Task) (wt : Checkout) (resp : EngResponse) : RM attempt_end :=
  _ ← upd_out (λ o, out_TokensUsed (O_TokensUsed o + Er_Tokens resp) o);
  after ← candidate_of wt;
  _ ← upd_out (out_Candidate after);
  if Er_BudgetExhausted resp then _ ← reason (Er_Summary resp); finished t StateBlocked
  else
    results ← verify r t wt after;
    _ ← upd_out (out_Results results);
    _ ← recordMisses (failedOnly results);
    judge_attempt t wt results after.

(** [task/runner.go:378-410 Runner.run] one attempt. *)
Definition attempt_once (t : Task) (wt : Checkout) (attempt : Z) (feedback : list Result) : RM attempt_end :=
  cancelled ← ctx_err;
  match cancelled with
  | Some e => _ ← reason ("budget exhausted: " +:+ err_msg e); finished t StateBlocked
  | None =>
      _ ← upd_out (out_Attempts attempt);
      before ← candidate_of wt;
      diag ← diagnose t attempt feedback;
      _ ← (match diag with Some h => upd_out (out_Diagnosis (Some h)) | None => mret tt end);
      let feedback := match diag with Some h => feedback ++ [diagnosisAsFeedback h] | None => feedback end in
      used ← gets (λ s, O_TokensUsed (rs_out s));
      let limited := Z.ltb 0 (MaxTokens (Ta_Budget t)) in
      let remaining := if limited then (MaxTokens (Ta_Budget t) - used)%Z else 0%Z in
      if limited && Z.leb remaining 0 then _ ← reason "task token budget exhausted"; finished t StateBlocked
      else
        resp ← step t wt attempt before feedback remaining;
        measure_attempt t wt resp
  end.

(** [task/runner.go:512-518 Runner.run] the attempts are used up. *)
Definition exhausted (t : Task) (wt : Checkout) (attempts : Z) : RM (Outcome * option error) :=
  diff ← try (ext (Checkout.Diff exec wt));
  _ ← (match diff with Ok d => upd_out (out_Diff d) | Err _ => mret tt end);
  _ ← reason ("the attempt budget of " +:+ pretty attempts +:+ " was exhausted without meeting the completion contract");
  finish t StateFailed.

(** [task/runner.go:377-518 Runner.run] the loop; [todo] attempts of [total] are to come. *)
Fixpoint attempts (t : Task) (wt : Checkout) (total : Z) (todo : nat) (feedback : list Result)
    : RM (Outcome * option error) :=
  match todo with
  | O => exhausted t wt total
  | S todo =>
      end_ ← attempt_once t wt (total - Z.of_nat todo) feedback;
      match end_ with
      | Done o e => mret (o, e)
      | Retry feedback => attempts t wt total todo feedback
      end
  end.

Definition attempt_budget (t : Task) : Z :=
  if Z.leb (MaxAttempts (Ta_Budget t)) 0 then MaxAttempts DefaultBudget else MaxAttempts (Ta_Budget t).

(** [task/runner.go:360-519 Runner.run] *)
Definition run (t : Task) (wt : Checkout) : RM (Outcome * option error) :=
  if phased r then runPhases r repoRoot t wt else
  now ← gets (λ s, db_now (rs_db s));
  let wall := MaxWallTime (Ta_Budget t) in
  with_deadline (if Z.ltb 0 wall then Some (now + wall)%Z else None)
    (_ ← upd_out (λ _, start_outcome t);
     attempts t wt (attempt_budget t) (Z.to_nat (attempt_budget t)) []).

(** ** Afterwards *)

(** [task/runner.go:337-357 Runner.cleanup] the checkout goes, the branch stays
    when there is anything on it. *)
Definition dispose (wt : Checkout) (committed : bool) : RM unit :=
  removed ← try (ext (Checkout.Remove exec (Some wt) committed));
  match removed with
  | Err _ => mret tt
  | Ok _ =>
      _ ← upd_out (out_Worktree "");
      _ ← try (ext clear_tmp); mret tt
  end.

(** [task/runner.go:300-358 Runner.cleanup] *)
Definition cleanup (t : Task) (wt : Checkout) : RM unit :=
  out ← gets rs_out;
  let modelled := match r_model r with Some _ => true | None => false end in
  if modelled && negb (String.eqb (Ta_State (O_Task out)) StateAccepted) then mret tt else
  committed ← (if phased r then mret (Ok true)
               else try (ext (Checkout.Commit exec wt (commitMessage t out))));
  match committed with
  | Err _ => mret tt
  | Ok committed =>
      _ ← (if committed then mret tt else upd_out (out_Branch ""));
      let waiting := match O_Gate out with Some g => Broker.Open_ g | None => false end in
      if waiting || negb (Accepted out) then mret tt else dispose wt committed
  end.

(** [task/runner.go:197-235 Runner.Run] the guards. *)
Definition guards (taskID : string) : RM Task :=
  t ← dbm (Get taskID);
  if Terminal (Ta_State t) then
    throw (errorf (if String.eqb (Ta_State t) StateFailed || String.eqb (Ta_State t) StateAbandoned
                   then "task " +:+ Ta_ID t +:+ " is " +:+ Ta_State t +:+ "; `le task retry " +:+ Ta_ID t +:+
                        "` returns it to pending if you have fixed what stopped it"
                   else "task " +:+ Ta_ID t +:+ " is already " +:+ Ta_State t))
  else match r_engine r with
  | None => throw ErrNoEngine
  | Some _ =>
      blockers ← dbm (Blockers taskID);
      match blockers with
      | [] => mret t
      | _ =>
          _ ← dbm (SetState taskID StateBlocked);
          throw (errorf ("task " +:+ taskID +:+ " is blocked on " +:+
                         join ", " ((λ b, Ta_ID b +:+ " (" +:+ Ta_State b +:+ ")") <$> blockers)))
      end
  end.

(** [task/runner.go:236-245 Runner.Run] a new checkout, or the one a previous run left. *)
Definition checkout_for (t : Task) : RM Checkout :=
  made ← try (ext (Checkout.Create exec (r_worktrees r) repoRoot (Ta_ID t)));
  match made with
  | Ok wt => mret wt
  | Err e =>
      opened ← try (ext (Checkout.OpenCheckout exec (r_worktrees r) repoRoot (Ta_ID t)));
      match opened with Ok wt => mret wt | Err _ => throw e end
  end.

(** [task/runner.go:256-269 Runner.Run] what is verified, and the checkout with
    its baseline. *)
Definition synced (t : Task) (wt : Checkout) : RM (string * Checkout) :=
  if negb (r_sync r) then mret ("the committed state (HEAD)", wt) else
  rep ← wrapM ("task " +:+ Ta_ID t +:+ ": ") (ext (Checkout.SyncFrom exec wt repoRoot));
  wt ← wrapM ("task " +:+ Ta_ID t +:+ ": baseline the synced state: ") (ext (Checkout.Rebase exec wt));
  mret (Checkout.Describe rep, wt).

(** [task/runner.go:256-286 Runner.Run] with the lease held. *)
Definition leased (t : Task) (wt : Checkout) : RM (Outcome * option error) :=
  '(verified, wt) ← synced t wt;
  _ ← dbm (SetWorktree (Ta_ID t) (Checkout.W_ID wt));
  _ ← dbm (SetState (Ta_ID t) StateRunning);
  '(o, e) ← run t wt;
  _ ← upd_out (λ _, out_Verified verified (out_Branch (Checkout.W_Branch wt) (out_Worktree (Checkout.W_Path wt) o)));
  _ ← cleanup t wt;
  o ← gets rs_out;
  mret (o, e).

(** [task/runner.go:197-287 Runner.Run] The lease is released however the run
    ends. *)
Definition Run (taskID : string) : RM (Outcome * option error) :=
  t ← guards taskID;
  wt ← checkout_for t;
  _ ← wrapM ("task " +:+ Ta_ID t +:+ ": ") (dbm (AcquireLease (Checkout.W_ID wt) (Ta_ID t) (r_holder r) 0));
  end_ ← try (leased t wt);
  _ ← try (dbm (ReleaseLease (Checkout.W_ID wt) (r_holder r)));
  lift end_.
End supervise.
