(* ===== verification/PhaseLoop.v ===== *)
(** What the phased workflow guarantees: every phase makes progress, so the loop
    ends, and nothing is accepted that the frozen checks, the review and the
    gate did not pass. *)
From S2P Require Import Memory Retrieval Checkout Broker.
From S2P Require Import Prelude GoStrings GoPath GoRegexp Policy Worktree Firewall Recipe Summarize Contract Graph.
From S2P Require Import Trust ContextPack Workflow Json Ledger Recover Tasks Engine Runner Phases.

Open Scope string_scope.
Open Scope list_scope.
Open Scope nat_scope.

(** The fields of the workflow state the argument is about; most calls leave
    them alone. *)
Record same (s s' : State) : Prop := {
  same_phase : S_Phase s' = S_Phase s;
  same_loops : VerifyLoops s' = VerifyLoops s;
  same_replans : Replans s' = Replans s;
  same_presets : Workflow.Presets s' = Workflow.Presets s;
  same_results : S_Results s' = S_Results s;
  same_verdict : S_Verdict s' = S_Verdict s }.

#[export] Instance same_preorder : PreOrder same.
Proof.
  split; [by intros s; split |]. intros s1 s2 s3 [] []. split; congruence.
Qed.
Lemma same_refl s : same s s.
Proof. reflexivity. Qed.

Section frames.
Context {G : Type} `{E : Env G}.
Context (r : Runner) (repoRoot : string).
Notation RS := (RS G).
Notation RM := (M RS).

Definition frame (R : relation State) {A} (m : RM A) : Prop := ∀ s a s', m s = (a, s') → R (rs_wf s) (rs_wf s').

(** The rules hold for every preorder: [same] for a call that updates other
    fields, equality for one that updates none. *)
Section rules.
Context (R : relation State) `{!PreOrder R}.

Lemma frame_bind {A B} (m : RM A) (k : A → RM B) : frame R m → (∀ a, frame R (k a)) → frame R (m ≫= k).
Proof.
  intros Hm Hk s b s'. unfold mbind, M_bind. destruct (m s) as [[a|e] s1] eqn:E1.
  - intros H. transitivity (rs_wf s1); [by eapply Hm | by eapply Hk].
  - intros [= _ <-]. by eapply Hm.
Qed.
Lemma frame_fmap {A B} (f : A → B) (m : RM A) : frame R m → frame R (f <$> m).
Proof. intros Hm s b s'. unfold fmap, M_fmap. destruct (m s) as [[a|e] s1] eqn:E1; intros [= _ <-]; by eapply Hm. Qed.
Lemma frame_ret {A} (a : A) : frame R (mret a).
Proof. by intros s b s' [= _ <-]; reflexivity. Qed.
Lemma frame_throw {A} e : frame R (throw e : RM A).
Proof. by intros s b s' [= _ <-]; reflexivity. Qed.
Lemma frame_lift {A} (x : result A) : frame R (lift x).
Proof. by intros s b s' [= _ <-]; reflexivity. Qed.
Lemma frame_gets {A} (f : RS → A) : frame R (gets f).
Proof. by intros s b s' [= _ <-]; reflexivity. Qed.
Lemma frame_try {A} (m : RM A) : frame R m → frame R (try m).
Proof. intros Hm s b s'. unfold try. destruct (m s) as [a s1] eqn:E1. intros [= _ <-]. by eapply Hm. Qed.
Lemma frame_ext {A} (m : M (fs * G) A) : frame R (ext m).
Proof.
  intros s b s'. unfold ext. destruct (m (rs_world s)) as [a w].
  unfold observed. cbn. destruct (observe w) as [[now c] flt]. by intros [= _ <-].
Qed.
Lemma frame_dbm {A} (m : M (Db State) A) : frame R (dbm (G:=G) m).
Proof. intros s b s'. unfold dbm. destruct (m (rs_db s)) as [a d]. by intros [= _ <-]. Qed.
Lemma frame_upd (f : State → State) : (∀ s, R s (f s)) → frame R (upd (G:=G) f).
Proof. intros Hf s b s'. unfold upd, modify. intros [= _ <-]. apply Hf. Qed.
Lemma frame_upd_out f : frame R (upd_out (G:=G) f).
Proof. intros s b s'. unfold upd_out, modify. by intros [= _ <-]. Qed.
Lemma frame_uncancelled {A} (m : RM A) : frame R m → frame R (uncancelled m).
Proof.
  intros Hm s b s'. unfold uncancelled. destruct (m _) as [a s1] eqn:E1. intros [= _ <-].
  apply Hm in E1. exact E1.
Qed.
Lemma frame_if {A} (b : bool) (m1 m2 : RM A) : frame R m1 → frame R m2 → frame R (if b then m1 else m2).
Proof. by destruct b. Qed.
End rules.

Hint Resolve @frame_bind @frame_fmap @frame_ret @frame_throw @frame_lift @frame_gets @frame_try @frame_ext @frame_dbm
  @frame_upd_out @frame_uncancelled @frame_if : frame.
Hint Extern 1 (PreOrder _) => typeclasses eauto : frame.

(** Walk through a computation whose pieces are all frames. *)
Ltac frames :=
  repeat first
    [ progress intros
    | assumption
    | simple apply @frame_ret | simple apply @frame_throw | simple apply @frame_lift | simple apply @frame_gets | simple apply @frame_ext | simple apply @frame_dbm
    | simple apply @frame_upd_out
    | simple apply @frame_upd; intros; split; reflexivity
    | simple apply @frame_try | simple apply @frame_fmap | simple apply @frame_uncancelled
    | simple apply @frame_bind
    | match goal with
      | |- frame _ (match ?x with _ => _ end) => destruct x
      | |- frame _ (let _ := _ in _) => cbv zeta
      end
    | solve [eauto with frame] ].

Lemma frame_save R `{!PreOrder R} t : frame R (save t).
Proof. unfold save. frames. Qed.
Lemma frame_candidate R `{!PreOrder R} wt : frame R (candidate_of (E:=E) wt).
Proof. unfold candidate_of. frames. Qed.
Lemma frame_specFor R `{!PreOrder R} wt : frame R (specFor r wt).
Proof. unfold specFor. frames. Qed.
Lemma frame_record R `{!PreOrder R} id i results : frame R (record_results (E:=E) id i results).
Proof. revert i. induction results as [|x l IH]; intros i; cbn [record_results]; frames. Qed.
Hint Resolve frame_save frame_candidate frame_specFor frame_record : frame.
Lemma frame_verify R `{!PreOrder R} t wt c : frame R (verify r t wt c).
Proof. unfold verify, base_recipes, run_all, ext_, wf. frames. Qed.
Lemma frame_fence t : frame same (taskFence (E:=E) t).
Proof. unfold taskFence, ext_, wf. frames. Qed.
Lemma frame_finish R `{!PreOrder R} t state : frame R (finish (G:=G) t state).
Proof. unfold finish. frames. Qed.
Hint Resolve frame_verify frame_fence frame_finish : frame.
Lemma frame_packFor t : frame same (packFor r t).
Proof. unfold packFor. frames. Qed.
Hint Resolve frame_packFor : frame.
Lemma frame_ensurePrefix t wt : frame same (ensurePrefix (E:=E) t wt).
Proof. unfold ensurePrefix. frames. Qed.
Lemma frame_decide {A} t i ev sch (dec : string → result A) : frame same (decide r t i ev sch dec).
Proof. unfold decide, wf. frames. Qed.
Lemma frame_fresh R `{!PreOrder R} : frame R (fresh_index (E:=E) r repoRoot).
Proof. unfold fresh_index. frames. Qed.
Hint Resolve frame_ensurePrefix frame_decide frame_fresh : frame.
Lemma frame_localize t wt : frame same (localize r t wt).
Proof. unfold localize, ctx_err, ext_, wf. frames. Qed.
Lemma frame_make_plan t : frame same (make_plan r t).
Proof. unfold make_plan. frames. Qed.
Lemma frame_stop R `{!PreOrder R} t wt status reason : frame R (stop (E:=E) t wt status reason).
Proof. unfold stop. frames. Qed.
Hint Resolve frame_localize frame_make_plan frame_stop : frame.
Lemma frame_symbols R `{!PreOrder R} wt changed : frame R (changed_symbols (E:=E) wt changed).
Proof. induction changed as [|x l IH]; cbn [changed_symbols]; frames. Qed.
Hint Resolve frame_symbols : frame.
Lemma frame_obligations wt changed : frame same (signatureObligations (E:=E) wt changed).
Proof. unfold signatureObligations, ext_. frames. Qed.
Lemma frame_scope R `{!PreOrder R} wt : frame R (scope_of_change (E:=E) r wt).
Proof. unfold scope_of_change. frames. Qed.
Lemma frame_gate R `{!PreOrder R} t o : frame R (gate r t o).
Proof. unfold gate, ask, ext_. frames. Qed.
Lemma frame_write_card t wt : frame same (write_card r t wt).
Proof. unfold write_card, WriteTaskCard. frames. Qed.
Lemma frame_save_transcript t wt a b : frame same (save_transcript (E:=E) t wt a b).
Proof. unfold save_transcript, wf. frames. Qed.
Lemma frame_engine {A} (sv : RM unit) (p : proc (fs * G) A) : frame same sv → frame same (run_engine (E:=E) sv p).
Proof. intros Hsv. induction p; cbn [run_engine]; unfold wf, ctx_err; frames. Qed.
Hint Resolve frame_obligations frame_scope frame_gate frame_write_card frame_save_transcript frame_engine : frame.
Lemma frame_edit_step t wt : frame same (edit_step r t wt).
Proof. unfold edit_step, step_engine. frames. Qed.
Hint Resolve frame_edit_step : frame.

(** ** What stopping and moving do *)

Lemma ext_ok {A} (m : M (fs * G) A) s a s' : ext m s = (a, s') → rs_wf s' = rs_wf s ∧ rs_out s' = rs_out s.
Proof.
  unfold ext. destruct (m (rs_world s)) as [x w]. unfold observed. cbn.
  destruct (observe w) as [[now c] flt]. by intros [= _ <-].
Qed.
Lemma dbm_ok {A} (m : M (Db State) A) (s : RS) a s' : dbm m s = (a, s') → rs_wf s' = rs_wf s ∧ rs_out s' = rs_out s.
Proof. unfold dbm. destruct (m (rs_db s)) as [x d]. by intros [= _ <-]. Qed.
Lemma frame_observed_wf (s : RS) : rs_wf (observed s) = rs_wf s.
Proof. unfold observed. by destruct (observe _) as [[? ?] ?]. Qed.
Lemma try_ok {A} (m : RM A) s x s' : try m s = (Ok x, s') → m s = (x, s').
Proof. unfold try. destruct (m s) as [y s1]. by intros [= <- <-]. Qed.
Lemma save_unchanged t (s : RS) a s' : save t s = (a, s') → rs_wf s' = rs_wf s ∧ rs_out s' = rs_out s.
Proof. unfold save, mbind, M_bind, gets. cbn. apply dbm_ok. Qed.
Lemma uncancelled_ok {A} (m : RM A) s a s' :
  uncancelled m s = (Ok a, s') → ∃ s0 s1, rs_wf s0 = rs_wf s ∧ rs_out s0 = rs_out s ∧ m s0 = (Ok a, s1) ∧ rs_wf s' = rs_wf s1.
Proof.
  unfold uncancelled. destruct (m _) as [x s1] eqn:Em. intros [= -> <-]. eexists _, s1. by split_and!; [..|exact Em|].
Qed.

Lemma finish_out t state (s : RS) o e s' : finish t state s = (Ok (o, e), s') →
  Accepted o = Accepted (rs_out s) ∧ O_Candidate o = O_Candidate (rs_out s) ∧ O_Results o = O_Results (rs_out s) ∧
  rs_wf s' = rs_wf s.
Proof.
  unfold finish. intros (out & s1 & [-> ->]%gets_ok & H)%bind_ok.
  apply bind_ok in H as (saved & s1 & [Hw1 Ho1]%try_ok%dbm_ok & H).
  destruct saved as [u|err]; [|apply mret_ok in H as [[= -> ->] ->]; by rewrite Hw1].
  apply bind_ok in H as (stated & s2 & [Hw2 Ho2]%try_ok%dbm_ok & H).
  destruct stated as [u'|err]; [|apply mret_ok in H as [[= -> ->] ->]; by rewrite Hw2].
  apply bind_ok in H as (? & s3 & H3 & H). unfold upd_out in H3. apply modify_ok in H3 as ->.
  apply bind_ok in H as (out & s4 & [-> ->]%gets_ok & [[= -> ->] ->]%mret_ok).
  cbn. rewrite Ho2, Ho1, Hw2, Hw1. done.
Qed.

Lemma stop_ok t wt status reason (s : RS) c s' : stop t wt status reason s = (Ok c, s') →
  rs_wf s' = rs_wf s ∧
  ∃ o e, c = Return o e ∧ Accepted o = String.eqb status StateAccepted ∧
    O_Candidate o = S_Candidate (rs_wf s) ∧ O_Results o = S_Results (rs_wf s).
Proof.
  unfold stop. intros (w & s1 & [-> ->]%gets_ok & H)%bind_ok.
  apply bind_ok in H as (? & s1 & H1 & H). unfold upd_out in H1. apply modify_ok in H1 as ->.
  apply bind_ok in H as (diff & s2 & [Hw2 Ho2]%try_ok%ext_ok & H).
  apply bind_ok in H as (? & s3 & H3 & H). unfold upd_out in H3. apply modify_ok in H3 as ->.
  apply uncancelled_ok in H as (s4 & s5 & Hw4 & Ho4 & H & Hw').
  cbn in Hw2, Hw4, Ho4. rewrite Ho2 in Ho4. cbn in Ho4.
  apply bind_ok in H as (saved & s6 & [Hw6 Ho6]%try_ok%save_unchanged & H).
  destruct saved as [u|err].
  - apply bind_ok in H as ([o e] & s7 & (Ha & Hc & Hr & Hw)%finish_out & [-> ->]%mret_ok).
    split; [congruence |]. exists o, e. rewrite Ha, Hc, Hr, Ho6, Ho4. done.
  - apply bind_ok in H as (o & s7 & [-> ->]%gets_ok & [-> ->]%mret_ok).
    split; [congruence |]. eexists _, _. split; [done |]. rewrite Ho6, Ho4. done.
Qed.

Definition refused (c : ctl) : Prop := match c with Return o _ => Accepted o = false | Again => False end.

Lemma stop_refused t wt status reason (s : RS) c s' :
  stop t wt status reason s = (Ok c, s') → status ≠ StateAccepted → refused c.
Proof. intros (_ & o & e & -> & Ha & _)%stop_ok Hs%String.eqb_neq. cbn. by rewrite Ha. Qed.

Lemma move_ok t next (s : RS) u s' : move t next s = (Ok u, s') →
  Transition (S_Phase (rs_wf s)) next = Ok tt ∧ rs_wf s' = wf_Phase next (rs_wf s).
Proof.
  unfold move, wf. intros (p & s1 & [-> ->]%gets_ok & H)%bind_ok.
  apply bind_ok in H as ([] & s1 & [Ht ->]%lift_ok & H).
  apply bind_ok in H as (? & s1 & H1 & H). unfold upd in H1. apply modify_ok in H1 as ->.
  apply bind_ok in H as (saved & s2 & [Hw _]%try_ok%save_unchanged & H).
  split; [exact Ht |].
  destruct saved; [apply mret_ok in H as [_ ->]; exact Hw |].
  apply bind_ok in H as (? & ? & _ & H). by apply throw_ok in H.
Qed.

Lemma or_stop_ok t wt m (s : RS) c s' : or_stop t wt m s = (Ok c, s') →
  refused c ∨ (c = Again ∧ m s = (Ok tt, s')).
Proof.
  unfold or_stop. intros (res & s1 & Hm%try_ok & H)%bind_ok. destruct res as [[]|e].
  - apply mret_ok in H as [-> ->]. by right.
  - left. by eapply stop_refused.
Qed.

Lemma or_stop_move t wt next (s : RS) c s' : or_stop t wt (move t next) s = (Ok c, s') →
  refused c ∨ (c = Again ∧ rs_wf s' = wf_Phase next (rs_wf s)).
Proof. intros [?|[-> [_ H]%move_ok]]%or_stop_ok; auto. Qed.

(** ** Progress *)

(** The order of the phases between two counted events. *)
Definition phase_rank (p : Phase) : nat :=
  match p with
  | Finalize | PhaseOther _ => 0 | Verify => 1 | Edit => 2 | Planning => 3 | PImpact => 4 | Localize => 5
  | Intake => 6 | Review => 7
  end.
(** What is left: verification loops, replans, then the way to the next one. *)
Definition mu (s : State) : nat :=
  10 * (Z.to_nat (4 - VerifyLoops s) + Z.to_nat (2 - Replans s)) + phase_rank (S_Phase s).

Arguments mu : simpl never.

Lemma mu_same s s' : same s s' → mu s' = mu s.
Proof. intros []. unfold mu. congruence. Qed.

(** The checks passed, every one of them on the same content. *)
Definition passed (s : State) : Prop :=
  ∃ c, (CheckPresets (Workflow.Presets s) (S_Results s) c).1 = true ∧
       Forall (λ x, R_Candidate x = c ∧ failing x = false) (S_Results s).

(** What a phase may rely on. *)
Definition earned (s : State) : Prop :=
  (S_Phase s = Review ∨ S_Phase s = Finalize → passed s) ∧
  (S_Phase s = Finalize → ∃ v, S_Verdict s = Some v ∧ V_Accept v = true).

Lemma passed_same s s' : same s s' → passed s → passed s'.
Proof. intros [] (c & H). exists c. congruence. Qed.
Lemma earned_same s s' : same s s' → earned s → earned s'.
Proof.
  intros Hs [H1 H2]. pose proof Hs as []. split; rewrite same_phase0.
  - intros H. by eapply passed_same, H1.
  - rewrite same_verdict0. exact H2.
Qed.
Lemma earned_early s : S_Phase s ≠ Review → S_Phase s ≠ Finalize → earned s.
Proof. intros H1 H2. split; [by intros [?|?] | done]. Qed.

(** What a turn that goes on brings nearer, and that only FINALIZE accepts and
    only REVIEW leads to it. *)
Definition progress (s : State) (c : ctl) (s' : State) : Prop :=
  match c with
  | Again => (earned s → earned s') ∧ mu s' < mu s ∧ (S_Phase s' = Finalize → S_Phase s = Review)
  | Return o _ => Accepted o = true → S_Phase s = Finalize
  end.

Lemma refused_progress s c s' : refused c → progress s c s'.
Proof. destruct c as [|o e]; [done |]. cbn. by intros ->. Qed.

(** Name the state a framed call leaves, and what it kept. *)
Ltac framed H :=
  lazymatch type of H with
  | ?m ?s = (_, ?s') =>
      let F := fresh "F" in
      assert (F : same (rs_wf s) (rs_wf s')) by (refine ((_ : frame same m) s _ s' H); frames)
  end.
(** The same for a call that does not touch the workflow state. *)
Ltac stilled H :=
  lazymatch type of H with
  | ?m ?s = (_, ?s') =>
      let F := fresh "F" in
      assert (F : rs_wf s = rs_wf s') by (refine ((_ : frame eq m) s _ s' H); frames)
  end.
Ltac stopped H := apply refused_progress; eapply stop_refused; [exact H | discriminate].

(** A move to a phase that relies on nothing. *)
Lemma move_progress t wt next s0 (s : RS) c s' :
  or_stop t wt (move t next) s = (Ok c, s') → next ≠ Review → next ≠ Finalize →
  10 * (Z.to_nat (4 - VerifyLoops (rs_wf s)) + Z.to_nat (2 - Replans (rs_wf s))) + phase_rank next < mu s0 →
  progress s0 c (rs_wf s').
Proof.
  intros [Hr|[-> Hw]]%or_stop_move H1 H2 Hmu; [by apply refused_progress |].
  rewrite Hw. split_and!; [intros _; by apply earned_early | exact Hmu | by intros ?].
Qed.

Lemma intake_progress t wt (s : RS) c s' :
  intake r repoRoot t wt s = (Ok c, s') → S_Phase (rs_wf s) = Intake → progress (rs_wf s) c (rs_wf s').
Proof.
  unfold intake. intros (presets & s1 & [-> ->]%gets_ok & H)%bind_ok Hp.
  apply bind_ok in H as (found & s1 & Hf & H).
  assert (F : S_Phase (rs_wf s1) = Intake ∧ VerifyLoops (rs_wf s1) = VerifyLoops (rs_wf s) ∧ Replans (rs_wf s1) = Replans (rs_wf s)).
  { cbn in Hf. destruct (Workflow.Presets (rs_wf s)); [|by apply mret_ok in Hf as [_ ->]].
    apply bind_ok in Hf as (fd & s2 & [Hw _]%try_ok%ext_ok & Hf). destruct fd as [ps|e]; [|apply mret_ok in Hf as [_ ->]; by rewrite Hw].
    apply bind_ok in Hf as (? & s3 & H3 & Hf). unfold upd in H3. apply modify_ok in H3 as ->.
    apply bind_ok in Hf as (? & s4 & [Hw4 _]%save_unchanged & [_ ->]%mret_ok). rewrite Hw4. cbn. by rewrite Hw. }
  destruct found as [e|]; [by stopped H |].
  apply bind_ok in H as (fr & s2 & Hfr & H). framed Hfr. destruct fr as [u|e]; [|by stopped H].
  apply bind_ok in H as (cand & s3 & [-> ->]%gets_ok & H).
  apply bind_ok in H as (bl & s4 & Hv & H). framed Hv.
  apply bind_ok in H as (? & s5 & H5 & H). unfold upd in H5. apply modify_ok in H5 as ->.
  destruct (environment_failure bl); [by stopped H |].
  apply bind_ok in H as (px & s6 & Hpx%try_ok & H). framed Hpx. destruct px as [u'|e]; [|by stopped H].
  eapply move_progress; [exact H | done | done |]. unfold mu. rewrite Hp.
  destruct F as (_ & <- & <-). destruct F0, F1, F2. cbn in *. rewrite same_loops2, same_loops1, same_loops0, same_replans2, same_replans1, same_replans0.
  generalize (Z.to_nat (4 - VerifyLoops (rs_wf s1))) (Z.to_nat (2 - Replans (rs_wf s1))). intros. lia.
Qed.

Lemma localize_progress t wt (s : RS) c s' :
  or_stop t wt (_ ← localize r t wt; move t PImpact) s = (Ok c, s') → S_Phase (rs_wf s) = Localize →
  progress (rs_wf s) c (rs_wf s').
Proof.
  intros [Hr|[-> H]]%or_stop_ok Hp; [by apply refused_progress |].
  apply bind_ok in H as (? & s1 & Hl & [_ Hw]%move_ok). framed Hl. destruct F. rewrite Hw.
  split_and!; [intros _; by apply earned_early | | done]. unfold mu. cbn. rewrite Hp, same_loops0, same_replans0. cbn. lia.
Qed.

Lemma impact_progress t wt (s : RS) c s' :
  impact_phase t wt s = (Ok c, s') → S_Phase (rs_wf s) = PImpact → progress (rs_wf s) c (rs_wf s').
Proof.
  unfold impact_phase, wf. intros (sy & s1 & [-> ->]%gets_ok & H)%bind_ok Hp.
  apply bind_ok in H as (pkt & s1 & [Hw _]%ext_ok & H).
  apply bind_ok in H as (? & s2 & H2 & H). unfold upd in H2. apply modify_ok in H2 as ->.
  eapply move_progress; [exact H | done | done |]. cbn. rewrite Hw. unfold mu. rewrite Hp. cbn. lia.
Qed.

Lemma planning_progress t wt (s : RS) c s' :
  planning r t wt s = (Ok c, s') → S_Phase (rs_wf s) = Planning → progress (rs_wf s) c (rs_wf s').
Proof.
  unfold planning, wf. intros (plan & s1 & Hm%try_ok & H)%bind_ok Hp. framed Hm. destruct F.
  destruct plan as [plan|e].
  - apply bind_ok in H as (f & s2 & [-> ->]%gets_ok & H).
    destruct (each _ _); [|by stopped H].
    apply bind_ok in H as (? & s2 & H2 & H). unfold upd in H2. apply modify_ok in H2 as ->.
    apply bind_ok in H as (? & s2 & H2 & H). unfold upd in H2. apply modify_ok in H2 as ->.
    eapply move_progress; [exact H | done | done |]. cbn. unfold mu. rewrite Hp, same_loops0, same_replans0. cbn. lia.
  - apply bind_ok in H as (n & s2 & [-> ->]%gets_ok & H). cbn in H.
    destruct (Z.leb_spec 2 (Replans (rs_wf s1))); [by stopped H |].
    apply bind_ok in H as (? & s2 & H2 & H). unfold upd in H2. apply modify_ok in H2 as ->.
    apply bind_ok in H as (? & s3 & [Hw _]%save_unchanged & [-> ->]%mret_ok). cbn. rewrite Hw. cbn.
    split_and!; [intros _; by apply earned_early; cbn; rewrite same_phase0, Hp | | by rewrite same_phase0, Hp].
    unfold mu. cbn. rewrite same_phase0, same_loops0, Hp. rewrite same_replans0 in *. cbn. lia.
Qed.

Lemma edit_progress t wt (s : RS) c s' :
  edit r t wt s = (Ok c, s') → S_Phase (rs_wf s) = Edit → progress (rs_wf s) c (rs_wf s').
Proof.
  unfold edit. intros (w & s1 & [-> ->]%gets_ok & H)%bind_ok Hp. cbv zeta in H.
  destruct (_ && _ && _); [by stopped H |]. destruct (_ && _); [by stopped H |].
  apply bind_ok in H as (? & s1 & Hu & H). framed Hu.
  apply bind_ok in H as (resp & s2 & Hst & H). framed Hst.
  assert (Fs : same (rs_wf s) (rs_wf s2)) by (by transitivity (rs_wf s1)). clear F F0. destruct Fs.
  destruct resp as [resp|e]; [|by stopped H].
  apply bind_ok in H as (w & s3 & [-> ->]%gets_ok & H).
  destruct (Er_BudgetExhausted resp).
  - destruct (_ || Z.leb 2 (Replans (rs_wf s2))) eqn:Eb; [by stopped H |].
    apply orb_false_iff in Eb as [_ Eb%Z.leb_gt].
    apply bind_ok in H as (? & s3 & H3 & H). unfold upd in H3. apply modify_ok in H3 as ->.
    eapply move_progress; [exact H | done | done |]. cbn. unfold mu. rewrite Hp, same_loops0. rewrite same_replans0 in *. cbn. lia.
  - destruct (negb _); [by stopped H |].
    eapply move_progress; [exact H | done | done |]. unfold mu. rewrite Hp, same_loops0, same_replans0. cbn. lia.
Qed.

(** ** Verification judges one content *)

Lemma verify_candidate t wt c (s : RS) results s' :
  verify r t wt c s = (Ok results, s') → Forall (λ x, R_Candidate x = c) results.
Proof.
  unfold verify. intros (spec & s1 & _ & H)%bind_ok.
  apply bind_ok in H as (recipes & s2 & _ & H). apply bind_ok in H as (f & s3 & _ & H).
  destruct (with_declared t wt f recipes spec) as [rs sp].
  destruct rs as [|x rs]; [apply mret_ok in H as [-> _]; constructor |].
  apply bind_ok in H as (h & s4 & _ & H). apply bind_ok in H as (out & s5 & Hr & H).
  apply bind_ok in H as (? & s6 & _ & H). apply bind_ok in H as (? & s7 & _ & [-> _]%mret_ok).
  unfold run_all in Hr. apply bind_ok in Hr as (dl & s8 & _ & Hr).
  unfold ext_, ext in Hr. destruct (RunAll _ _ _ _ _ _ _ _ _ _ _) as [out' w'] eqn:Ea. injection Hr as -> _.
  apply RunAll_identity in Ea. eapply Forall2_Forall_l; [exact Ea |]. apply Forall_true. by intros ? ? (_ & _ & ?).
Qed.

Lemma upd_ok (f : State → State) (s : RS) u s' : upd f s = (Ok u, s') → s' = set_wf (f (rs_wf s)) s.
Proof. unfold upd. by intros ->%modify_ok. Qed.

(** A rerun may replace the results, never by results of other content. *)
Lemma rerun_ok t wt (s : RS) b s' : verify_rerun r t wt s = (Ok b, s') →
  let w := rs_wf s in let w' := rs_wf s' in
  S_Phase w' = S_Phase w ∧ Replans w' = Replans w ∧ Workflow.Presets w' = Workflow.Presets w ∧
  S_Candidate w' = S_Candidate w ∧ (VerifyLoops w ≤ VerifyLoops w')%Z ∧
  (S_Results w' = S_Results w ∨ Forall (λ x, R_Candidate x = S_Candidate w) (S_Results w')).
Proof.
  unfold verify_rerun. intros (w & s1 & [-> ->]%gets_ok & H)%bind_ok.
  destruct (_ || _); [apply mret_ok in H as [_ ->]; split_and!; auto; lia |].
  apply bind_ok in H as (? & s1 & ->%upd_ok & H).
  apply bind_ok in H as (rerun & s2 & Hv & H). pose proof Hv as Hc. apply verify_candidate in Hc. stilled Hv.
  destruct (environment_failure rerun).
  { apply mret_ok in H as [_ ->]. rewrite <- F. cbn. split_and!; auto; lia. }
  apply bind_ok in H as (after & s3 & Ha & H). stilled Ha.
  apply bind_ok in H as (f & s4 & [-> ->]%gets_ok & H).
  apply bind_ok in H as (? & s5 & Hu & [_ ->]%mret_ok).
  destruct (_ && _).
  - apply upd_ok in Hu as ->. cbn. rewrite <- F0, <- F. cbn. split_and!; auto; lia.
  - apply mret_ok in Hu as [_ ->]. rewrite <- F0, <- F. cbn. split_and!; auto; lia.
Qed.

Lemma judge_passed s changed outside why :
  judge s changed outside = (true, why) → Forall (λ x, R_Candidate x = S_Candidate s) (S_Results s) → passed s.
Proof.
  unfold judge. destruct (CheckPresets _ _ _) as [ok reasons] eqn:Ec. intros [= Hj _] Hc.
  apply andb_true_iff in Hj as [Hj Hb%Nat.eqb_eq]. apply andb_true_iff in Hj as [Hj _]. apply andb_true_iff in Hj as [-> _].
  exists (S_Candidate s). rewrite Ec. split; [done |].
  rewrite Forall_forall in Hc |- *. intros x Hx. split; [by apply Hc |].
  apply nil_length_inv in Hb. destruct (failing x) eqn:Ef; [|done].
  assert (Hin : In x (List.filter failing (S_Results s))) by (apply filter_In; split; [by apply list_elem_of_In | done]).
  by rewrite Hb in Hin.
Qed.

Lemma accepted_progress t wt changed s0 (s : RS) c s' :
  accepted_change t wt changed s = (Ok c, s') → passed (rs_wf s) →
  10 * (Z.to_nat (4 - VerifyLoops (rs_wf s)) + Z.to_nat (2 - Replans (rs_wf s))) + 7 < mu s0 →
  progress s0 c (rs_wf s').
Proof.
  unfold accepted_change. intros (un & s1 & Hu%try_ok & H)%bind_ok Hp Hmu. framed Hu.
  destruct un as [un|e]; [|by stopped H]. pose proof F as Fs. destruct F. destruct un.
  - apply bind_ok in H as (n & s2 & [-> ->]%gets_ok & H). cbn in H.
    destruct (Z.leb_spec 2 (Replans (rs_wf s1))); [by stopped H |].
    apply bind_ok in H as (? & s2 & ->%upd_ok & H).
    eapply move_progress; [exact H | done | done |]. cbn. rewrite same_loops0. rewrite same_replans0 in *. lia.
  - apply or_stop_move in H as [Hr|[-> Hw]]; [by apply refused_progress |].
    rewrite Hw. split_and!; [| |done].
    + intros _. split; cbn; [|done]. intros _. destruct (passed_same _ _ Fs Hp) as (cd & Hcd). by exists cd.
    + unfold mu at 1. cbn. rewrite same_loops0, same_replans0. lia.
Qed.

Lemma count_failures_keep f wt l acc :
  same acc.1 (foldl (count_failure f wt) acc l).1.
Proof.
  revert acc. induction l as [|x l IH]; intros [s b]; cbn [foldl fst]; [reflexivity |].
  etransitivity; [|apply IH]. unfold count_failure. cbn [fst]. destruct (Regression _ _); by split.
Qed.

Lemma repair_progress t wt reasons s0 (s : RS) c s' :
  repair t wt reasons s = (Ok c, s') →
  10 * (Z.to_nat (4 - VerifyLoops (rs_wf s)) + Z.to_nat (2 - Replans (rs_wf s))) + 5 < mu s0 →
  progress s0 c (rs_wf s').
Proof.
  unfold repair. intros (? & s1 & Hu & H)%bind_ok Hmu.
  assert (F1 : same (rs_wf s) (rs_wf s1)) by (apply upd_ok in Hu as ->; cbn; destruct (Feedback _); by split).
  apply bind_ok in H as (w & s2 & [-> ->]%gets_ok & H). apply bind_ok in H as (f & s2 & [-> ->]%gets_ok & H).
  pose proof (count_failures_keep (rs_world s1).1 wt (Feedback (rs_wf s1)) (rs_wf s1, false)) as F2.
  destruct (foldl _ _ _) as [w relocalize]. cbn [fst] in F2.
  apply bind_ok in H as (? & s2 & ->%upd_ok & H).
  assert (F3 : same (rs_wf s) w) by (by transitivity (rs_wf s1)). destruct F3.
  destruct (_ || _).
  { apply bind_ok in H as (? & s3 & _ & H). by stopped H. }
  apply bind_ok in H as (? & s3 & ->%upd_ok & H). cbn in H.
  destruct relocalize.
  - destruct (Z.leb_spec 2 (Replans w)); [by stopped H |].
    apply bind_ok in H as (? & s4 & [Hw _]%ext_ok & H). apply bind_ok in H as (? & s5 & ->%upd_ok & H).
    eapply move_progress; [exact H | done | done |]. cbn. rewrite Hw. cbn. rewrite same_loops0. rewrite same_replans0 in *. lia.
  - eapply move_progress; [exact H | done | done |]. cbn. rewrite same_loops0, same_replans0. lia.
Qed.

Lemma verify_progress t wt (s : RS) c s' :
  verify_phase r t wt s = (Ok c, s') → S_Phase (rs_wf s) = Verify → progress (rs_wf s) c (rs_wf s').
Proof.
  unfold verify_phase. intros (w & s1 & [-> ->]%gets_ok & H)%bind_ok Hp.
  destruct (Z.leb_spec 4 (VerifyLoops (rs_wf s))); [by stopped H |].
  apply bind_ok in H as (? & s1 & ->%upd_ok & H).
  apply bind_ok in H as (results & s2 & Hv & H). pose proof Hv as Hc. apply verify_candidate in Hc. stilled Hv.
  apply bind_ok in H as (? & s3 & ->%upd_ok & H).
  destruct (environment_failure results); [by stopped H |].
  apply bind_ok in H as (? & s4 & ->%upd_ok & H).
  apply bind_ok in H as (broken & s5 & (Hph & Hrp & Hps & Hcd & Hvl & Hres)%rerun_ok & H).
  destruct broken; [by stopped H |].
  apply bind_ok in H as (changed & s6 & Hs & H). stilled Hs.
  apply bind_ok in H as (w & s7 & [-> ->]%gets_ok & H). apply bind_ok in H as (o & s7 & [-> ->]%gets_ok & H).
  rewrite <- F in *. cbn in Hph, Hrp, Hps, Hcd, Hvl, Hres.
  destruct (judge _ _ _) as [accepted reasons] eqn:Ej. rewrite <- F0 in Ej.
  assert (Hmu : 10 * (Z.to_nat (4 - VerifyLoops (rs_wf s6)) + Z.to_nat (2 - Replans (rs_wf s6))) + 7 < mu (rs_wf s)).
  { rewrite <- F0. unfold mu. rewrite Hp, Hrp. cbn. lia. }
  destruct accepted.
  - eapply accepted_progress; [exact H | | exact Hmu]. rewrite <- F0.
    eapply judge_passed; [exact Ej |]. rewrite Hcd. destruct Hres as [->|?]; done.
  - eapply repair_progress; [exact H | lia].
Qed.

Lemma review_progress t wt (s : RS) c s' :
  review_phase r t wt s = (Ok c, s') → S_Phase (rs_wf s) = Review →
  progress (rs_wf s) c (rs_wf s').
Proof.
  unfold review_phase. intros (diff & s1 & [Hw _]%ext_ok & H)%bind_ok Hp.
  apply bind_ok in H as (w & s2 & [-> ->]%gets_ok & H).
  apply bind_ok in H as (verdict & s2 & Hd%try_ok & H). framed Hd. rewrite Hw in F.
  destruct verdict as [verdict|e]; [|by stopped H].
  apply bind_ok in H as (? & s3 & ->%upd_ok & H). pose proof F as Fs. destruct F.
  destruct (V_Accept verdict) eqn:Ev.
  - apply or_stop_move in H as [Hr|[-> Hw']]; [by apply refused_progress |]. rewrite Hw'. cbn. split_and!; [| |done].
    + intros [He _]. split; [|by exists verdict]. intros _. cbn.
      destruct (passed_same _ _ Fs (He (or_introl Hp))) as (cd & Hcd). by exists cd.
    + unfold mu. cbn. rewrite Hp, same_loops0, same_replans0. cbn. lia.
  - apply bind_ok in H as (w & s4 & [-> ->]%gets_ok & H). destruct (Z.leb _ _); [by stopped H |].
    apply bind_ok in H as (? & s4 & ->%upd_ok & H).
    eapply move_progress; [exact H | done | done |]. cbn. unfold mu. rewrite Hp, same_loops0, same_replans0. cbn. lia.
Qed.

(** ** Finalization *)

(** An answer the policy needs is a stored approval of exactly this content. *)
Lemma gate_approved t o p (s : RS) g s' :
  gate r t o s = (Ok g, s') → r_broker r = Some p → Broker.RequireForApply p = true → blank (O_Diff o) = false →
  Broker.G_Decision g ≠ Broker.Rejected → Broker.G_Decision g ≠ Broker.Pending_ →
  ∃ (d : Db State) row, gates d = gates (rs_db s) ∧ Broker.answer_for (Ta_ID t) Broker.KindApply (O_Candidate o) d row ∧
    Ga_Decision row = Broker.Approved.
Proof.
  unfold gate. intros H Hbk Hp Hb Hr Hw. rewrite Hbk, Hb in H. unfold ask in H.
  apply bind_ok in H as (rnd & s1 & Hrnd & H).
  assert (Hg : gates (rs_db s1) = gates (rs_db s)).
  { unfold ext_, ext in Hrnd. destruct (random_bytes _) as [x w]. unfold observed in Hrnd. cbn in Hrnd.
    destruct (observe w) as [[now c] flt]. by injection Hrnd as _ <-. }
  unfold dbm in H. destruct (Broker.Ask _ _ _ _ _ _ _ _ _) as [res d] eqn:Ea. injection H as -> _.
  destruct (Broker.Ask_answered _ _ _ _ _ _ _ _ _ _ _ Ea) as (row & -> & Ha); [by cbn; rewrite Hp | done |].
  exists (rs_db s1), row. split; [done |]. split; [done |]. destruct Ha as (_ & _ & _ & _ & [?|?] & _); done.
Qed.

Lemma final_commit_stops t wt (s : RS) c s' :
  final_commit t wt s = (Ok c, s') → ∃ o e, c = Return o e.
Proof.
  unfold final_commit. intros (w & s1 & _ & H)%bind_ok. apply bind_ok in H as (h & s2 & _ & H).
  apply bind_ok in H as (ok & s3 & _ & H). destruct ok; apply bind_ok in H as (? & s4 & _ & (_ & o & err & -> & _)%stop_ok); by exists o, err.
Qed.

Lemma finalize_stops t wt (s : RS) c s' : finalize r t wt s = (Ok c, s') → ∃ o e, c = Return o e.
Proof.
  assert (Hst : ∀ status reason (s : RS) c s', stop t wt status reason s = (Ok c, s') → ∃ o e, c = Return o e)
    by (intros ????? (_ & o & e & -> & _)%stop_ok; by exists o, e).
  unfold finalize. intros (w & s1 & _ & H)%bind_ok. cbv zeta in H. destruct (_ || _); [by eapply Hst |].
  apply bind_ok in H as (failed & s2 & _ & H). destruct failed; [by eapply Hst |].
  unfold final_approval in H. do 4 apply bind_ok in H as (? & ? & _ & H).
  destruct (CheckDiffSecrets _); [|by eapply Hst]. do 2 apply bind_ok in H as (? & ? & _ & H).
  destruct (String.eqb _ _); [by eapply Hst |]. destruct (Broker.Open_ _); [apply bind_ok in H as (? & ? & _ & H); by eapply Hst |].
  do 2 apply bind_ok in H as (? & ? & _ & H). destruct (negb _); [by eapply Hst | by eapply final_commit_stops].
Qed.

(** ** The loop *)

Lemma turn_progress t wt (s : RS) c s' :
  turn r repoRoot t wt s = (Ok c, s') → progress (rs_wf s) c (rs_wf s').
Proof.
  unfold turn, ctx_err, wf. intros (ce & s1 & [-> ->]%gets_ok & H)%bind_ok.
  destruct (db_ctx _); [by stopped H |].
  apply bind_ok in H as (tk & s1 & [-> ->]%gets_ok & H). destruct (_ && _); [by stopped H |].
  apply bind_ok in H as (cd & s1 & Hc & H). stilled Hc.
  apply bind_ok in H as (? & s2 & ->%upd_ok & H).
  set (s2 := set_wf _ s1) in *.
  assert (Fs : same (rs_wf s) (rs_wf s2)) by (cbn; rewrite F; by split).
  unfold phase_step, wf in H. apply bind_ok in H as (ph & s3 & [-> ->]%gets_ok & H). cbn in H.
  assert (Hph : S_Phase (rs_wf s2) = S_Phase (rs_wf s1)) by done.
  enough (progress (rs_wf s2) c (rs_wf s')) as Hpr.
  { unfold progress in *. rewrite (mu_same _ _ Fs) in Hpr.
    pose proof (same_phase _ _ Fs) as Hsp. destruct c; [|by rewrite <- Hsp]. rewrite <- Hsp. destruct Hpr as (Hpr & ? & ?).
    split; [|by split]. intros He. apply Hpr. by eapply earned_same. }
  destruct (S_Phase (rs_wf s1)) eqn:Ep.
  - by eapply intake_progress.
  - by eapply localize_progress.
  - by eapply impact_progress.
  - by eapply planning_progress.
  - by eapply edit_progress.
  - by eapply verify_progress.
  - by eapply review_progress.
  - apply finalize_stops in H as (o & err & ->). intros _. by rewrite Hph.
  - by apply throw_ok in H.
Qed.

Lemma rounds_end t wt fuel : ∀ s : RS, mu (rs_wf s) < fuel → (rounds r repoRoot t wt fuel s).1 ≠ Ok None.
Proof.
  induction fuel as [|fuel IH]; intros s Hmu; [lia |]. cbn [rounds].
  unfold mbind, M_bind. destruct (turn r repoRoot t wt s) as [[c|e] s1] eqn:Et; [|done].
  apply turn_progress in Et. destruct c as [|o e]; [|done]. apply IH. destruct Et as (_ & ? & _). lia.
Qed.

Lemma rounds_more t wt fuel fuel' (s : RS) : fuel ≤ fuel' → (rounds r repoRoot t wt fuel s).1 ≠ Ok None →
  rounds r repoRoot t wt fuel' s = rounds r repoRoot t wt fuel s.
Proof.
  revert fuel' s. induction fuel as [|fuel IH]; intros fuel' s Hle H; [done |].
  destruct fuel' as [|fuel']; [lia |]. cbn [rounds] in *. unfold mbind, M_bind in *.
  destruct (turn r repoRoot t wt s) as [[c|e] s1]; [|done]. destruct c as [|o e]; [|done].
  apply IH; [lia | done].
Qed.

(** The counters of a state that started at zero and were only increased. *)
Definition counting (s : State) : Prop := (0 ≤ VerifyLoops s ∧ 0 ≤ Replans s)%Z.

Lemma mu_bound s : counting s → mu s < enough.
Proof. intros [H1 H2]. unfold mu, enough. assert (phase_rank (S_Phase s) ≤ 7) by (destruct (S_Phase s); cbn; lia). lia. Qed.

(** C4: The phased workflow ends.  Whatever the engine, the model, git and the
    sandbox do, the loop returns within [enough] turns - the verification and
    replan counters bound every way round - and running it longer changes
    nothing. *)
Theorem phases_terminate t wt (s : RS) : counting (rs_wf s) →
  (rounds r repoRoot t wt enough s).1 ≠ Ok None ∧
  ∀ fuel, enough ≤ fuel → rounds r repoRoot t wt fuel s = rounds r repoRoot t wt enough s.
Proof.
  intros Hc. assert (H : (rounds r repoRoot t wt enough s).1 ≠ Ok None) by (by apply rounds_end, mu_bound).
  split; [exact H |]. intros fuel Hf. by apply rounds_more.
Qed.

(** ** Where an accepted outcome comes from

    Every state below is the one the run itself is in: each line is the call the
    run makes next, from the state the call before it left. *)

(** The gate was asked about the outcome at hand and neither waits nor refused;
    where the policy gates applying and the outcome shows a change, a stored
    approval of exactly this content answered. *)
Definition gate_passed (t : Task) (s s' : RS) : Prop :=
  ∃ g, gate r t (rs_out s) s = (Ok g, s') ∧
    Broker.G_Decision g ≠ Broker.Rejected ∧ Broker.G_Decision g ≠ Broker.Pending_ ∧
    (∀ p, r_broker r = Some p → Broker.RequireForApply p = true → blank (O_Diff (rs_out s)) = false →
       ∃ (d : Db State) row, gates d = gates (rs_db s) ∧
         Broker.answer_for (Ta_ID t) Broker.KindApply (O_Candidate (rs_out s)) d row ∧ Ga_Decision row = Broker.Approved).

(** FINALIZE from its approval on: the diff of this checkout holds no
    credential, the gate saw it with the workflow's candidate and results, the
    checkout still was that candidate, and it was committed. *)
Definition committed_after_gate (t : Task) (wt : Checkout) (s : RS) (o : Outcome) (e : option error) (s' : RS) : Prop :=
  let w := rs_wf s in
  ∃ diff s1 s2 s3 h s4 committed s5 u s6,
    ext (Checkout.Diff exec wt) (set_out (out_Candidate (S_Candidate w) (out_Results (S_Results w) (rs_out s))) s) = (Ok diff, s1) ∧
    CheckDiffSecrets diff = Ok tt ∧
    gate_passed t (set_out (out_Diff diff (rs_out s1)) s1) s2 ∧
    candidate_of wt s2 = (Ok (S_Candidate w), s3) ∧
    dbm (Begin (Ta_ID t) KDecision (JObj [("branch", JStr (Checkout.W_Branch wt)); ("kind", JStr "finalize_commit")]) (S_Candidate w)) s3 = (Ok h, s4) ∧
    ext (Checkout.Commit exec wt ("le: " +:+ Ta_Title t)) s4 = (Ok committed, s5) ∧
    dbm (Complete h (JObj [("branch", JStr (Checkout.W_Branch wt)); ("committed", JBool committed)]) (S_Candidate w) "") s5 = (Ok u, s6) ∧
    stop t wt StateAccepted "verification and independent review passed" s6 = (Ok (Return o e), s') ∧
    O_Candidate o = S_Candidate w ∧ O_Results o = S_Results w.

(** The turn that accepts: it is in FINALIZE, the checkout is at the content the
    verification describes, and the card of the task is written. *)
Definition finalized (t : Task) (wt : Checkout) (s : RS) (o : Outcome) (e : option error) (s' : RS) : Prop :=
  ∃ c s1 s2,
    S_Phase (rs_wf s) = Finalize ∧ candidate_of wt s = (Ok c, s1) ∧ c ≠ "" ∧ verified_candidate (rs_wf s) = c ∧
    write_card r t wt (set_wf (wf_Candidate c (rs_wf s)) s1) = (Ok None, s2) ∧
    committed_after_gate t wt s2 o e s'.

(** The turn before it: the reviewer was shown the diff of this checkout with
    the plan and the results, and accepted. *)
Definition reviewed (t : Task) (wt : Checkout) (s s' : RS) : Prop :=
  ∃ c s1 diff s2 verdict s3,
    let w := wf_Candidate c (rs_wf s) in
    S_Phase (rs_wf s) = Review ∧ candidate_of wt s = (Ok c, s1) ∧
    ext (Checkout.Diff exec wt) (set_wf w s1) = (Ok diff, s2) ∧
    decide r t review_instruction (ShowChange (S_Plan w) (S_Impact w) diff (reviewResults (S_Results w))) reviewSchemaV2
      decode_verdict s2 = (Ok verdict, s3) ∧
    V_Accept verdict = true ∧ rs_wf s' = wf_Phase Finalize (wf_Verdict (Some verdict) (rs_wf s3)).

(** A turn after which the loop goes on. *)
Definition again (t : Task) (wt : Checkout) (s s' : RS) : Prop := turn r repoRoot t wt s = (Ok Again, s').

(** What the workflow's own state says where it accepts. *)
Definition evidenced (w : State) : Prop := passed w ∧ ∃ v, S_Verdict w = Some v ∧ V_Accept v = true.

(** The loop from [s]: turns, the last of them the review unless the workflow
    was resumed in FINALIZE, and then the turn that accepts, on a workflow state
    with [Q]. *)
Definition loop_accepted (Q : State → Prop) (t : Task) (wt : Checkout) (s : RS) (o : Outcome) (e : option error) (s' : RS) : Prop :=
  ∃ s1, Q (rs_wf s1) ∧ finalized t wt s1 o e s' ∧
    ((s = s1 ∧ S_Phase (rs_wf s) = Finalize) ∨
     ∃ s0, rtc (again t wt) s s0 ∧ again t wt s0 s1 ∧ reviewed t wt s0 s1).

(** The whole of an accepted phased run from [s]: its workflow, stored or new,
    its checkout with the workflow's base, its deadline, its loop. *)
Definition phased_accepted (Q : State → Prop) (t : Task) (wt : Checkout) (s : RS) (o : Outcome) (e : option error) (s' : RS) : Prop :=
  ∃ stored s1 s2 s3,
    dbm (LoadWorkflow (Ta_ID t)) s = (Ok stored, s1) ∧ start_or_resume t wt stored s1 = (Ok tt, s2) ∧
    let wall := MaxWallTime (Ta_Budget t) in
    let deadline := if Z.ltb 0 wall then Some (S_StartedAt (rs_wf s2) * 1000000 + wall)%Z else None in
    loop_accepted Q t (rebased wt (Base (rs_wf s2))) (limited deadline (set_out (start_outcome t) s2)) o e s3 ∧
    s' = limited (rs_deadline s2) s3.

(** *** The run comes by them *)

Lemma stop_says t wt status reason (s : RS) o e s' :
  stop t wt status reason s = (Ok (Return o e), s') → Accepted o = true → status = StateAccepted.
Proof. intros (_ & o' & e' & [= <- <-] & -> & _)%stop_ok. by intros ->%String.eqb_eq. Qed.

Lemma gate_passed_ok t (s : RS) g s' : gate r t (rs_out s) s = (Ok g, s') →
  Broker.G_Decision g ≠ Broker.Rejected → Broker.G_Decision g ≠ Broker.Pending_ → gate_passed t s s'.
Proof. intros Hg Hr Hp. exists g. split_and!; try done. intros p H1 H2 H3. by eapply gate_approved. Qed.

Lemma final_commit_accepts t wt (s : RS) o e s' : final_commit t wt s = (Ok (Return o e), s') → Accepted o = true →
  ∃ h s4 committed s5 u s6,
    dbm (Begin (Ta_ID t) KDecision (JObj [("branch", JStr (Checkout.W_Branch wt)); ("kind", JStr "finalize_commit")]) (S_Candidate (rs_wf s))) s = (Ok h, s4) ∧
    ext (Checkout.Commit exec wt ("le: " +:+ Ta_Title t)) s4 = (Ok committed, s5) ∧
    dbm (Complete h (JObj [("branch", JStr (Checkout.W_Branch wt)); ("committed", JBool committed)]) (S_Candidate (rs_wf s)) "") s5 = (Ok u, s6) ∧
    stop t wt StateAccepted "verification and independent review passed" s6 = (Ok (Return o e), s') ∧
    O_Candidate o = S_Candidate (rs_wf s) ∧ O_Results o = S_Results (rs_wf s).
Proof.
  unfold final_commit. intros (w & s1 & [-> ->]%gets_ok & H)%bind_ok Ha.
  apply bind_ok in H as (h & s4 & Hh & H). apply bind_ok in H as (ok & s5 & Hc%try_ok & H). destruct ok as [ok|err].
  - apply bind_ok in H as (u & s6 & Hu & H). exists h, s4, ok, s5, u, s6.
    pose proof Hh as [Hw1 _]%dbm_ok. pose proof Hc as [Hw2 _]%ext_ok. pose proof Hu as [Hw3 _]%dbm_ok.
    pose proof H as (_ & o' & e' & [= <- <-] & _ & Hcd & Hrs)%stop_ok. split_and!; try done; congruence.
  - apply bind_ok in H as (? & s6 & _ & H). by apply stop_says in H.
Qed.

Lemma final_approval_accepts t wt (s : RS) o e s' :
  final_approval r t wt s = (Ok (Return o e), s') → Accepted o = true → committed_after_gate t wt s o e s'.
Proof.
  unfold final_approval. intros (w & s1 & [-> ->]%gets_ok & H)%bind_ok Ha.
  apply bind_ok in H as (? & s1 & Hu & H). unfold upd_out in Hu. apply modify_ok in Hu as ->.
  apply bind_ok in H as (diff & s1 & Hd & H). pose proof Hd as [Hw1 _]%ext_ok.
  apply bind_ok in H as (? & s2 & Hu & H). unfold upd_out in Hu. apply modify_ok in Hu as ->.
  destruct (CheckDiffSecrets diff) as [[]|err] eqn:Es; [|by apply stop_says in H].
  apply bind_ok in H as (out & sa & [-> ->]%gets_ok & H). apply bind_ok in H as (g & s2 & Hg & H). pose proof Hg as Hg'. stilled Hg'.
  destruct (String.eqb_spec (Broker.G_Decision g) Broker.Rejected) as [|Hnr]; [by apply stop_says in H |].
  unfold Broker.Open_ in H. destruct (String.eqb_spec (Broker.G_Decision g) Broker.Pending_) as [|Hnp].
  { apply bind_ok in H as (? & s5 & _ & H). by apply stop_says in H. }
  apply bind_ok in H as (cur & s3 & Hc & H). pose proof Hc as Hc'. stilled Hc'.
  apply bind_ok in H as (w & s4 & [-> ->]%gets_ok & H).
  destruct (String.eqb_spec cur (S_Candidate (rs_wf s3))) as [->|]; cbn [negb] in H; [|by apply stop_says in H].
  assert (Hw : rs_wf s3 = rs_wf s) by (rewrite <- F0, <- F; exact Hw1). rewrite Hw in Hc.
  apply final_commit_accepts in H as (h & s4 & ok & s5 & u & s6 & H); [|done]. rewrite Hw in H.
  exists diff, s1, s2, s3, h, s4, ok, s5, u, s6. split_and!; try apply H; try done. by eapply gate_passed_ok.
Qed.

Lemma turn_accepts t wt (s : RS) o e s' :
  turn r repoRoot t wt s = (Ok (Return o e), s') → Accepted o = true → finalized t wt s o e s'.
Proof.
  intros H Ha. pose proof (turn_progress _ _ _ _ _ H Ha) as Hp. revert H.
  unfold turn, ctx_err, wf. intros (ce & s1 & [-> ->]%gets_ok & H)%bind_ok. destruct (db_ctx _); [by apply stop_says in H |].
  apply bind_ok in H as (tk & s1 & [-> ->]%gets_ok & H). destruct (_ && _); [by apply stop_says in H |].
  apply bind_ok in H as (c & s1 & Hc & H). pose proof Hc as Hc'. stilled Hc'. apply bind_ok in H as (? & s2 & ->%upd_ok & H).
  rewrite <- F in H. unfold phase_step, wf in H. apply bind_ok in H as (ph & s3 & [-> ->]%gets_ok & H). cbn in H. rewrite Hp in H.
  unfold finalize in H. apply bind_ok in H as (w & s2 & [-> ->]%gets_ok & H). cbv zeta in H.
  destruct (String.eqb_spec (verified_candidate (rs_wf (set_wf (wf_Candidate c (rs_wf s)) s1))) "") as [|Hne]; [by apply stop_says in H |].
  destruct (String.eqb_spec (verified_candidate (rs_wf (set_wf (wf_Candidate c (rs_wf s)) s1)))
              (S_Candidate (rs_wf (set_wf (wf_Candidate c (rs_wf s)) s1)))) as [Hv|]; [|by apply stop_says in H].
  cbn [orb negb] in H. apply bind_ok in H as (failed & s2 & Hwc & H). destruct failed; [by apply stop_says in H |].
  change (verified_candidate (rs_wf s) = c) in Hv. change (verified_candidate (rs_wf s) ≠ "") in Hne. rewrite Hv in Hne.
  exists c, s1, s2. split_and!; try done. by apply final_approval_accepts.
Qed.

Lemma turn_reviews t wt (s s' : RS) : again t wt s s' → S_Phase (rs_wf s') = Finalize → reviewed t wt s s'.
Proof.
  intros H Hf. pose proof (turn_progress _ _ _ _ _ H) as (_ & _ & Hp). specialize (Hp Hf). revert H.
  unfold again, turn, ctx_err, wf. intros (ce & s1 & [-> ->]%gets_ok & H)%bind_ok. destruct (db_ctx _); [by apply stop_refused in H |].
  apply bind_ok in H as (tk & s1 & [-> ->]%gets_ok & H). destruct (_ && _); [by apply stop_refused in H |].
  apply bind_ok in H as (c & s1 & Hc & H). pose proof Hc as Hc'. stilled Hc'. apply bind_ok in H as (? & s2 & ->%upd_ok & H).
  rewrite <- F in H. unfold phase_step, wf in H. apply bind_ok in H as (ph & s3 & [-> ->]%gets_ok & H). cbn in H. rewrite Hp in H.
  unfold review_phase in H. apply bind_ok in H as (diff & s2 & Hd & H). pose proof Hd as [Hw _]%ext_ok.
  apply bind_ok in H as (w & s3 & [-> ->]%gets_ok & H). rewrite Hw in H.
  apply bind_ok in H as (verdict & s3 & Hv%try_ok & H). destruct verdict as [verdict|err]; [|by apply stop_refused in H].
  apply bind_ok in H as (? & s4 & ->%upd_ok & H).
  destruct (V_Accept verdict) eqn:Ev.
  - apply or_stop_move in H as [?|[_ Hw']]; [done |]. exists c, s1, diff, s2, verdict, s3. by split_and!.
  - apply bind_ok in H as (w & s4 & [-> ->]%gets_ok & H). destruct (Z.leb _ _); [by apply stop_refused in H |].
    apply bind_ok in H as (? & s4 & ->%upd_ok & H). apply or_stop_move in H as [?|[_ Hw']]; [done |]. by rewrite Hw' in Hf.
Qed.

Lemma rounds_accepts t wt fuel : ∀ (s : RS) o e s', rounds r repoRoot t wt fuel s = (Ok (Some (o, e)), s') → Accepted o = true →
  ∃ s1, rtc (again t wt) s s1 ∧ finalized t wt s1 o e s'.
Proof.
  induction fuel as [|fuel IH]; intros s o e s' H Ha; cbn [rounds] in H; [by apply mret_ok in H as [? _] |].
  apply bind_ok in H as (c & s1 & Ht & H). destruct c as [|o' e'].
  - destruct (IH _ _ _ _ H Ha) as (s2 & Hs & Hf). exists s2. split; [by eapply rtc_l | done].
  - apply mret_ok in H as [[= -> ->] ->]. exists s. split; [done | by apply turn_accepts].
Qed.

Lemma again_earned t wt (s s' : RS) : rtc (again t wt) s s' → earned (rs_wf s) → earned (rs_wf s').
Proof. induction 1 as [|s1 s2 s3 H%turn_progress _ IH]; [done |]. intros He. by apply IH, H. Qed.

Lemma rounds_loop Q t wt fuel (s : RS) o e s' :
  (∀ w, Q w) ∨ ((∀ w, evidenced w → Q w) ∧ earned (rs_wf s)) →
  rounds r repoRoot t wt fuel s = (Ok (Some (o, e)), s') → Accepted o = true → loop_accepted Q t wt s o e s'.
Proof.
  intros HQ H Ha. destruct (rounds_accepts _ _ _ _ _ _ _ H Ha) as (s1 & Hr & Hf). exists s1.
  assert (Hp : S_Phase (rs_wf s1) = Finalize) by (by destruct Hf as (? & ? & ? & ? & _)).
  split. { destruct HQ as [HQ|[HQ He]]; [done |]. apply HQ. destruct (again_earned _ _ _ _ Hr He) as [H1 H2]. split; auto. }
  split; [done |].
  apply rtc_inv_r in Hr as [->|(s0 & Hr & H0)]; [by left | right]. exists s0. split_and!; [done.. | by apply turn_reviews].
Qed.

(** A phased run that returns an accepted outcome came by all of it; what was
    stored had earned its phase, in every state the system reaches. *)
Lemma runPhases_accepts (Q : State → Prop) t wt (s : RS) o e s' :
  (∀ w, Q w) ∨ ((∀ w, evidenced w → Q w) ∧ ∀ p st, task_workflow (rs_db s) !! Ta_ID t = Some (p, st) → earned st) →
  runPhases r repoRoot t wt s = (Ok (o, e), s') → Accepted o = true → phased_accepted Q t wt s o e s'.
Proof.
  unfold runPhases. intros HQ H Ha. destruct (r_model r) as [[]|]; [|by apply throw_ok in H..].
  apply bind_ok in H as (stored & s1 & Hl & H). apply bind_ok in H as ([] & s2 & Hs & H).
  apply bind_ok in H as (w & s3 & [-> ->]%gets_ok & H). cbv zeta in H.
  apply bind_ok in H as (? & s3 & Hu & H). unfold upd_out in Hu. apply modify_ok in Hu as ->.
  apply bind_ok in H as (res & s4 & Hr & H). destruct res as [[o' e']|]; [|by apply throw_ok in H].
  apply mret_ok in H as [[= -> ->] ->]. unfold with_deadline in Hr. destruct (rounds _ _ _ _ _ _) as [lres s5] eqn:Er.
  injection Hr as -> <-. exists stored, s1, s2, s5. split_and!; [done.. |]. split; [|done]. eapply rounds_loop; [|done..].
  destruct HQ as [HQ|[HQ Hst]]; [by left | right; split; [done |]]. unfold limited. rewrite frame_observed_wf.
  change (earned (rs_wf s2)). unfold dbm in Hl. destruct (LoadWorkflow (Ta_ID t) (rs_db s)) as [lres d] eqn:El. injection Hl as -> <-.
  destruct stored as [st|]; unfold start_or_resume in Hs.
  - apply upd_ok in Hs as ->. cbn. unfold LoadWorkflow, query in El. destruct (unavailable _); [done |].
    destruct (task_workflow (rs_db s) !! Ta_ID t) as [[p st']|] eqn:Et; [|done].
    injection El as -> _. by eapply Hst.
  - apply bind_ok in Hs as (now & s3 & [-> ->]%gets_ok & Hs). apply bind_ok in Hs as (? & s3 & ->%upd_ok & Hs).
    apply save_unchanged in Hs as [-> _]. by apply earned_early.
Qed.
End frames.
