(* ===== verification/Invariants.v ===== *)
(** Invariants of a run: what the calls of the runner leave alone, in one
    logic.  An invariant speaks of the stored tasks and workflows, the workflow
    state in hand and the outcome under construction; a call keeps it whether
    it succeeds or fails, so an invariant also holds where a run is cut short. *)
From S2P Require Import Memory Retrieval Checkout Broker.
From S2P Require Import Prelude GoStrings GoPath GoRegexp Policy Worktree Firewall Recipe Summarize Contract Graph.
From S2P Require Import Trust ContextPack Workflow Json Ledger Recover Tasks Engine Runner Misses Phases Supervise PhaseLoop.

Open Scope string_scope.
Open Scope list_scope.
Open Scope nat_scope.

(** ** The database *)

Section dbs.
Context {Body : Type}.
Notation DB := (Db Body).
Notation DM := (M DB).

(** The task and workflow tables are as they were. *)
Definition quiet (d d' : DB) : Prop := tasks d' = tasks d ∧ task_workflow d' = task_workflow d.

#[export] Instance quiet_preorder : PreOrder quiet.
Proof. split; [by split |]. intros d1 d2 d3 [] []. split; congruence. Qed.

Definition leaves {A} (m : DM A) : Prop := ∀ d a d', m d = (a, d') → quiet d d'.

Lemma leaves_bind {A B} (m : DM A) (k : A → DM B) : leaves m → (∀ a, leaves (k a)) → leaves (m ≫= k).
Proof.
  intros Hm Hk d b d'. unfold mbind, M_bind. destruct (m d) as [[a|e] d1] eqn:E1.
  - intros H. transitivity d1; [by eapply Hm | by eapply Hk].
  - intros [= _ <-]. by eapply Hm.
Qed.
Lemma leaves_ret {A} (a : A) : leaves (mret a).
Proof. by intros d b d' [= _ <-]. Qed.
Lemma leaves_throw {A} e : leaves (throw e : DM A).
Proof. by intros d b d' [= _ <-]. Qed.
Lemma leaves_lift {A} (x : result A) : leaves (lift x).
Proof. by intros d b d' [= _ <-]. Qed.
Lemma leaves_gets {A} (f : DB → A) : leaves (gets f).
Proof. by intros d b d' [= _ <-]. Qed.
Lemma leaves_query {A} (f : DB → A) : leaves (query f).
Proof. intros d a d'. unfold query. destruct (unavailable d); by intros [= _ <-]. Qed.
Lemma leaves_modify (f : DB → DB) : (∀ d, quiet d (f d)) → leaves (modify f).
Proof. intros Hf d a d' [= _ <-]. apply Hf. Qed.
Lemma leaves_try {A} (m : DM A) : leaves m → leaves (try m).
Proof. intros Hm d a d'. unfold try. destruct (m d) as [x d1] eqn:E1. intros [= _ <-]. by eapply Hm. Qed.
Lemma leaves_wrapM {A} p (m : DM A) : leaves m → leaves (wrapM p m).
Proof. intros Hm d a d'. unfold wrapM. destruct (m d) as [x d1] eqn:E1. intros [= _ <-]. by eapply Hm. Qed.
Lemma leaves_Tx {A} (m : DM A) : leaves m → leaves (Tx m).
Proof.
  intros Hm d a d'. unfold Tx. destruct (unavailable d); [by intros [= _ <-] |].
  destruct (m d) as [[x|e] d1] eqn:E1; intros [= _ <-]; [by eapply Hm | done].
Qed.
Lemma leaves_recording {A} (m : DM A) : leaves m → leaves (recording m).
Proof. intros Hm d a d'. unfold recording. destruct (m _) as [x d1] eqn:E1. intros [= _ <-]. by apply Hm in E1. Qed.
End dbs.

Ltac leaving :=
  repeat first
    [ progress intros
    | simple apply @leaves_ret | simple apply @leaves_throw | simple apply @leaves_lift | simple apply @leaves_gets
    | simple apply @leaves_query | simple apply @leaves_try | simple apply @leaves_wrapM | simple apply @leaves_Tx
    | simple apply @leaves_recording | simple apply @leaves_bind
    | simple apply @leaves_modify; intros; split; reflexivity
    | match goal with
      | |- leaves (match ?x with _ => _ end) => destruct x
      | |- leaves (let _ := _ in _) => cbv zeta
      end
    | solve [eauto with leaves] ].

Create HintDb leaves.

Section db_calls.
Context {Body : Type}.

Lemma leaves_Begin t k j c : leaves (Begin (Body:=Body) t k j c).
Proof. unfold Begin. leaving. Qed.
Lemma leaves_finish h j a ev : leaves (Ledger.finish (Body:=Body) h j a ev).
Proof. unfold Ledger.finish. leaving. Qed.
Lemma leaves_Interrupted h c : leaves (Interrupted (Body:=Body) h c).
Proof. unfold Interrupted. leaving. Qed.
Lemma leaves_Operations t : leaves (Operations (Body:=Body) t).
Proof. unfold Operations. leaving. Qed.
Lemma leaves_Checkpoint t st j c : leaves (Checkpoint (Body:=Body) t st j c).
Proof. unfold Checkpoint. leaving. Qed.
Lemma leaves_RecordEvidence a b c d e f g h : leaves (RecordEvidence (Body:=Body) a b c d e f g h).
Proof. unfold RecordEvidence. leaving. Qed.
Lemma leaves_AcquireLease w t h ttl : leaves (AcquireLease (Body:=Body) w t h ttl).
Proof. unfold AcquireLease. leaving. Qed.
Lemma leaves_ReleaseLease w h : leaves (ReleaseLease (Body:=Body) w h).
Proof.
  unfold ReleaseLease. apply leaves_Tx, leaves_modify. intros d.
  destruct (leases d !! w) as [cur|]; [destruct (String.eqb _ _)|]; done.
Qed.
End db_calls.
#[export] Hint Resolve leaves_Begin leaves_finish leaves_Interrupted leaves_Operations leaves_Checkpoint leaves_RecordEvidence
  leaves_AcquireLease leaves_ReleaseLease : leaves.

Section gate_calls.
Context {Body : Type} (ws : string) (p : Broker.Policy).

Lemma leaves_gate_save g : leaves (Broker.save (Body:=Body) ws g).
Proof. unfold Broker.save. leaving. Qed.
Lemma leaves_gate_Get id : leaves (Broker.Get (Body:=Body) id).
Proof. unfold Broker.Get, Broker.list_gates. leaving. Qed.
Hint Resolve leaves_gate_save leaves_gate_Get : leaves.
Lemma leaves_decidedFor t k c : leaves (Broker.decidedFor (Body:=Body) t k c).
Proof. unfold Broker.decidedFor, Broker.list_gates. leaving. Qed.
Hint Resolve leaves_decidedFor : leaves.
Lemma leaves_Ask t k q ev c rnd : leaves (Broker.Ask (Body:=Body) ws p t k q ev c rnd).
Proof. unfold Broker.Ask, FailOp. leaving. Qed.
Lemma leaves_Decide id dec b n : leaves (Broker.Decide (Body:=Body) ws id dec b n).
Proof. unfold Broker.Decide, Broker.complete, Operations. leaving. Qed.
Hint Resolve leaves_Decide : leaves.
Lemma leaves_expire_one now g : leaves (Broker.expire_one (Body:=Body) ws now g).
Proof. unfold Broker.expire_one. leaving. Qed.
Lemma leaves_Pending : leaves (Broker.Pending (Body:=Body) ws).
Proof.
  unfold Broker.Pending, Broker.list_gates. leaving.
  match goal with |- leaves (Broker.expire_all _ _ ?l) => induction l; cbn [Broker.expire_all] end; leaving.
  apply leaves_expire_one.
Qed.
End gate_calls.
#[export] Hint Resolve leaves_Ask leaves_Decide leaves_Pending : leaves.

Lemma leaves_get_all ids : leaves (get_all ids).
Proof. induction ids; cbn [get_all]; unfold Get; leaving. Qed.
#[export] Hint Resolve leaves_get_all : leaves.
Lemma leaves_Get id : leaves (Get id).
Proof. unfold Get. leaving. Qed.
Lemma leaves_Blockers id : leaves (Blockers id).
Proof. unfold Blockers. leaving. Qed.
Lemma leaves_LoadWorkflow id : leaves (LoadWorkflow id).
Proof. unfold LoadWorkflow. leaving. Qed.
Lemma leaves_AddDependency a b : leaves (AddDependency a b).
Proof. unfold AddDependency. leaving. Qed.
#[export] Hint Resolve leaves_Get leaves_Blockers leaves_LoadWorkflow leaves_AddDependency : leaves.

(** ** The runner's state *)

(** What an invariant may speak of. *)
Notation inv := (list Task → gmap string (string * State) → State → Outcome → Prop).

(** The row of a task rewritten. *)
Definition retask (id : string) (f : Task → Task) (ts : list Task) : list Task :=
  (λ t, if String.eqb (Ta_ID t) id then f t else t) <$> ts.

(** The changes an invariant tolerates: of the workflow state, of the outcome,
    of the task's recorded state, and saving the workflow state in hand. *)
Class UpdOk (R : relation State) (P : inv) := upd_keeps ts w s s' o : R s s' → P ts w s o → P ts w s' o.
Class OutOk (RO : relation Outcome) (P : inv) := out_keeps ts w s o o' : RO o o' → P ts w s o → P ts w s o'.
Class StateOk (t : Task) (ok : string → Prop) (P : inv) :=
  state_keeps ts w s o state now : ok state → P ts w s o → P (retask (Ta_ID t) (with_state state now) ts) w s o.
Class SaveOk (t : Task) (P : inv) :=
  save_keeps ts w s o : P ts w s o → P ts (<[Ta_ID t := (show_phase (S_Phase s), s)]> w) s o.

(** The relations used: nothing that matters to the argument of [PhaseLoop]
    changes, the phase does not change, anything may change; only the task of
    the outcome changes, the verdict in the outcome does not, anything may. *)
Definition phase_same (s s' : State) : Prop := S_Phase s' = S_Phase s.
Definition any_state (s s' : State) : Prop := True.
Definition task_only (o o' : Outcome) : Prop := ∃ v, o' = out_Task v o.
Definition same_verdict (o o' : Outcome) : Prop :=
  Accepted o' = Accepted o ∧ O_Candidate o' = O_Candidate o ∧ O_Results o' = O_Results o ∧ O_OutOfScope o' = O_OutOfScope o.
Definition any_out (o o' : Outcome) : Prop := True.

#[export] Instance UpdOk_phase P `{!UpdOk phase_same P} : UpdOk same P.
Proof. intros ts w s s' o [Hp _ _ _ _ _]. by apply (upd_keeps (R:=phase_same)). Qed.
#[export] Instance UpdOk_any P `{!UpdOk any_state P} : UpdOk phase_same P.
Proof. intros ts w s s' o _. by apply (upd_keeps (R:=any_state)). Qed.
#[export] Instance OutOk_verdict P `{!OutOk same_verdict P} : OutOk task_only P.
Proof. intros ts w s o o' [v ->]. by apply (out_keeps (RO:=same_verdict)). Qed.
#[export] Instance OutOk_any P `{!OutOk any_out P} : OutOk same_verdict P.
Proof. intros ts w s o o' _. by apply (out_keeps (RO:=any_out)). Qed.

Section keeping.
Context {G : Type} `{E : Env G}.
Context (r : Runner) (repoRoot : string).
Notation RS := (RS G).
Notation RM := (M RS).

Definition holds (P : inv) (s : RS) : Prop := P (tasks (rs_db s)) (task_workflow (rs_db s)) (rs_wf s) (rs_out s).
Definition keeps (P : inv) {A} (m : RM A) : Prop := ∀ s a s', holds P s → m s = (a, s') → holds P s'.

Lemma observed_holds P (s : RS) : holds P (observed s) = holds P s.
Proof. unfold holds, observed. by destruct (observe _) as [[? ?] ?]. Qed.

Section rules.
Context (P : inv).

Lemma keeps_bind {A B} (m : RM A) (k : A → RM B) : keeps P m → (∀ a, keeps P (k a)) → keeps P (m ≫= k).
Proof.
  intros Hm Hk s b s' Hs. unfold mbind, M_bind. destruct (m s) as [[a|e] s1] eqn:E1.
  - intros H. eapply Hk; [|exact H]. by eapply Hm.
  - intros [= _ <-]. by eapply Hm.
Qed.
Lemma keeps_fmap {A B} (f : A → B) (m : RM A) : keeps P m → keeps P (f <$> m).
Proof. intros Hm s b s' Hs. unfold fmap, M_fmap. destruct (m s) as [[a|e] s1] eqn:E1; intros [= _ <-]; by eapply Hm. Qed.
Lemma keeps_ret {A} (a : A) : keeps P (mret a).
Proof. by intros s b s' Hs [= _ <-]. Qed.
Lemma keeps_throw {A} e : keeps P (throw e : RM A).
Proof. by intros s b s' Hs [= _ <-]. Qed.
Lemma keeps_lift {A} (x : result A) : keeps P (lift x).
Proof. by intros s b s' Hs [= _ <-]. Qed.
Lemma keeps_gets {A} (f : RS → A) : keeps P (gets f).
Proof. by intros s b s' Hs [= _ <-]. Qed.
Lemma keeps_try {A} (m : RM A) : keeps P m → keeps P (try m).
Proof. intros Hm s b s' Hs. unfold try. destruct (m s) as [a s1] eqn:E1. intros [= _ <-]. by eapply Hm. Qed.
Lemma keeps_wrapM {A} p (m : RM A) : keeps P m → keeps P (wrapM p m).
Proof. intros Hm s b s' Hs. unfold wrapM. destruct (m s) as [a s1] eqn:E1. intros [= _ <-]. by eapply Hm. Qed.
Lemma keeps_ext {A} (m : M (fs * G) A) : keeps P (ext m).
Proof. intros s b s' Hs. unfold ext. destruct (m (rs_world s)) as [a w]. intros [= _ <-]. by rewrite observed_holds. Qed.
Lemma keeps_dbm {A} (m : M (Db State) A) : leaves m → keeps P (dbm (G:=G) m).
Proof.
  intros Hm s b s' Hs. unfold dbm. destruct (m (rs_db s)) as [a d] eqn:Em. intros [= _ <-].
  unfold holds. cbn. by destruct (Hm _ _ _ Em) as [-> ->].
Qed.
Lemma keeps_packet (f : RS → option Packet) :
  keeps P (modify (λ s, mk_rs (rs_db s) (rs_world s) (rs_wf s) (rs_out s) (rs_deadline s) (f s))).
Proof. by intros s b s' Hs [= _ <-]. Qed.
Lemma keeps_upd R `{!UpdOk R P} (f : State → State) : (∀ s, R s (f s)) → keeps P (upd (G:=G) f).
Proof. intros Hf s b s' Hs [= _ <-]. unfold holds. cbn. by eapply upd_keeps. Qed.
Lemma keeps_upd_out RO `{!OutOk RO P} f : (∀ o, RO o (f o)) → keeps P (upd_out (G:=G) f).
Proof. intros Hf s b s' Hs [= _ <-]. unfold holds. cbn. by eapply out_keeps. Qed.
Lemma keeps_uncancelled {A} (m : RM A) : keeps P m → keeps P (uncancelled m).
Proof. intros Hm s b s' Hs. unfold uncancelled. destruct (m _) as [a s1] eqn:E1. intros [= _ <-]. by apply Hm in E1. Qed.
Lemma keeps_deadline {A} d (m : RM A) : keeps P m → keeps P (with_deadline d m).
Proof.
  intros Hm s b s' Hs. unfold with_deadline, limited. destruct (m _) as [a s1] eqn:E1. intros [= _ <-].
  rewrite observed_holds. apply Hm in E1; [exact E1 |]. by rewrite observed_holds.
Qed.
(** A case of the state at hand, where what was read matters. *)
Lemma keeps_state {A} (m : RM A) : (∀ s, holds P s → ∀ a s', m s = (a, s') → holds P s') → keeps P m.
Proof. intros H s a s' Hs. by apply H. Qed.
End rules.
End keeping.

Create HintDb keeps.
#[export] Hint Extern 1 (UpdOk _ _) => typeclasses eauto : keeps.
#[export] Hint Extern 1 (OutOk _ _) => typeclasses eauto : keeps.
#[export] Hint Extern 1 (SaveOk _ _) => typeclasses eauto : keeps.
#[export] Hint Extern 1 (StateOk _ _ _) => typeclasses eauto : keeps.

Ltac side := by (first [exact I | reflexivity | split; reflexivity | done]).

(** Walk through a computation whose pieces keep the invariant. *)
Ltac kept :=
  repeat first
    [ progress intros
    | assumption
    | simple apply @keeps_ret | simple apply @keeps_throw | simple apply @keeps_lift | simple apply @keeps_gets
    | simple apply @keeps_ext | simple apply @keeps_packet
    | simple apply @keeps_dbm; solve [eauto with leaves]
    | simple apply (@keeps_upd _ _ same); [typeclasses eauto | intros; side]
    | simple apply (@keeps_upd _ _ phase_same); [typeclasses eauto | intros; side]
    | simple apply (@keeps_upd _ _ any_state); [typeclasses eauto | intros; side]
    | simple apply (@keeps_upd_out _ _ task_only); [typeclasses eauto | intros; by eexists]
    | simple apply (@keeps_upd_out _ _ same_verdict); [typeclasses eauto | intros; by repeat split]
    | simple apply (@keeps_upd_out _ _ any_out); [typeclasses eauto | intros; side]
    | simple apply @keeps_try | simple apply @keeps_fmap | simple apply @keeps_wrapM | simple apply @keeps_uncancelled
    | simple apply @keeps_deadline
    | simple apply @keeps_bind
    | match goal with
      | |- keeps _ (match ?x with _ => _ end) => destruct x
      | |- keeps _ (let _ := _ in _) => cbv zeta
      end
    | solve [eauto with keeps] ].

Section calls.
Context {G : Type} `{E : Env G}.
Context (r : Runner) (repoRoot : string).
Notation RS := (RS G).
Notation RM := (M RS).
Context (t : Task) (P : inv).

(** *** Calls that change neither table *)

Lemma keeps_candidate wt : keeps P (candidate_of (E:=E) wt).
Proof. unfold candidate_of. kept. Qed.
Lemma keeps_specFor wt : keeps P (specFor r wt).
Proof. unfold specFor. kept. Qed.
Hint Resolve keeps_candidate keeps_specFor : keeps.
Lemma keeps_record id i results : keeps P (record_results (E:=E) id i results).
Proof. revert i. induction results as [|x l IH]; intros i; cbn [record_results]; kept. Qed.
Hint Resolve keeps_record : keeps.
Lemma keeps_verify wt c : keeps P (verify r t wt c).
Proof. unfold verify, base_recipes, run_all, ext_, Complete. kept. Qed.
Lemma keeps_gate o : keeps P (gate r t o).
Proof. unfold gate, ask, ext_. kept. Qed.
Lemma keeps_freshen : keeps P (freshen r repoRoot).
Proof. unfold freshen. kept. Qed.
Lemma keeps_fresh : keeps P (fresh_index (E:=E) r repoRoot).
Proof. unfold fresh_index. kept. Qed.
Lemma keeps_symbols wt changed : keeps P (changed_symbols (E:=E) wt changed).
Proof. induction changed as [|x l IH]; cbn [changed_symbols]; kept. Qed.
End calls.
#[export] Hint Resolve keeps_candidate keeps_specFor keeps_verify keeps_gate keeps_freshen keeps_fresh keeps_symbols : keeps.

(** *** Saving and moving *)

Section saving.
Context {G : Type} `{E : Env G}.
Context (r : Runner) (repoRoot : string).
Notation RS := (RS G).
Notation RM := (M RS).
Context (t : Task).

Lemma SaveWorkflow_cases id st d a d' : SaveWorkflow id st d = (a, d') →
  tasks d' = tasks d ∧
  match a with
  | Ok _ => task_workflow d' = <[id := (show_phase (S_Phase st), st)]> (task_workflow d)
  | Err _ => d' = d
  end.
Proof.
  destruct a as [[]|e]; intros H.
  - apply SaveWorkflow_ok in H as (_ & _ & _ & _ & ->). done.
  - by apply SaveWorkflow_err in H as ->.
Qed.

(** A save stores the state in hand, or changes nothing. *)
Lemma db_save_cases (s : RS) a s' : save t s = (a, s') →
  rs_wf s' = rs_wf s ∧ rs_out s' = rs_out s ∧ tasks (rs_db s') = tasks (rs_db s) ∧
  task_workflow (rs_db s') =
    match a with
    | Ok _ => <[Ta_ID t := (show_phase (S_Phase (rs_wf s)), rs_wf s)]> (task_workflow (rs_db s))
    | Err _ => task_workflow (rs_db s)
    end.
Proof.
  unfold save, mbind, M_bind, gets, dbm. cbn.
  destruct (SaveWorkflow _ _ _) as [x d] eqn:Es. intros [= <- <-]. cbn.
  apply SaveWorkflow_cases in Es as [-> Hw]. split_and!; try done. destruct x; [done | by rewrite Hw].
Qed.

Lemma keeps_save P `{!SaveOk t P} : keeps P (save (G:=G) t).
Proof.
  intros s a s' Hs (Hw & Ho & Ht & Hf)%db_save_cases. unfold holds in *. rewrite Hw, Ho, Ht, Hf.
  destruct a; [by apply save_keeps | done].
Qed.

(** A move stores the next phase, or changes nothing at all. *)
Lemma move_cases next (s : RS) a s' : move t next s = (a, s') →
  rs_out s' = rs_out s ∧ tasks (rs_db s') = tasks (rs_db s) ∧
  match a with
  | Ok _ => rs_wf s' = wf_Phase next (rs_wf s) ∧
      task_workflow (rs_db s') = <[Ta_ID t := (show_phase next, wf_Phase next (rs_wf s))]> (task_workflow (rs_db s))
  | Err _ => rs_wf s' = rs_wf s ∧ task_workflow (rs_db s') = task_workflow (rs_db s)
  end.
Proof.
  unfold move, wf, mbind, M_bind, gets, lift, upd, modify, try. cbn.
  destruct (Transition _ _) as [[]|e]; [|by intros [= <- <-]].
  destruct (save t _) as [x s1] eqn:Es. apply db_save_cases in Es as (Hw & Ho & Ht & Hf). cbn in *.
  destruct x as [[]|e]; intros [= <- <-]; cbn; [by rewrite Hw, Ho, Ht, Hf |].
  rewrite Hw, Ho, Ht, Hf. split_and!; try done. by destruct (rs_wf s).
Qed.

Lemma keeps_move P next :
  (∀ ts w s o, P ts w s o → P ts (<[Ta_ID t := (show_phase next, wf_Phase next s)]> w) (wf_Phase next s) o) →
  keeps P (move (G:=G) t next).
Proof.
  intros Hp s a s' Hs (Ho & Ht & Hm)%move_cases. unfold holds in *. rewrite Ho, Ht.
  destruct a as [u|e]; destruct Hm as [-> ->]; [by apply Hp | done].
Qed.

Lemma SetState_cases id state d a d' : SetState id state d = (a, d') →
  task_workflow d' = task_workflow d ∧
  tasks d' = match a with Ok _ => retask id (with_state state (millis (db_now d))) (tasks d) | Err _ => tasks d end.
Proof.
  unfold SetState. destruct a as [u|e].
  - intros [_ H]%Tx_ok. apply bind_ok in H as (d1 & d2 & [-> ->]%gets_ok & H).
    by apply bind_ok in H as (? & d3 & [_ ->]%lift_ok & ->%modify_ok).
  - by intros ->%Tx_err.
Qed.

Lemma keeps_SetState P ok `{!StateOk t ok P} state : ok state → keeps P (dbm (G:=G) (SetState (Ta_ID t) state)).
Proof.
  intros Hok s a s' Hs. unfold dbm. destruct (SetState _ _ _) as [x d] eqn:Es. intros [= _ <-].
  apply SetState_cases in Es as [Hw Ht]. unfold holds in *. cbn. rewrite Hw, Ht.
  destruct x; [by eapply state_keeps | done].
Qed.

Lemma keeps_finish P ok `{!StateOk t ok P, !OutOk task_only P} state : ok state → keeps P (finish (G:=G) t state).
Proof. intros Hok. pose proof (keeps_SetState P ok state Hok). unfold finish. kept. Qed.

Lemma keeps_stop P ok `{!StateOk t ok P, !OutOk any_out P, !SaveOk t P} wt status reason :
  ok status → keeps P (stop (E:=E) t wt status reason).
Proof.
  intros Hok. pose proof (keeps_finish P ok status Hok). pose proof (keeps_save P). unfold stop. kept.
Qed.
Hint Resolve keeps_save : keeps.

(** *** The phases' calls, for an invariant the saves keep *)

Context (P : inv) `{!UpdOk same P, !SaveOk t P}.

Lemma keeps_fence : keeps P (taskFence (E:=E) t).
Proof. unfold taskFence, ext_, wf. kept. Qed.
Hint Resolve keeps_fence : keeps.
Lemma keeps_packFor : keeps P (packFor r t).
Proof. unfold packFor. kept. Qed.
Hint Resolve keeps_packFor : keeps.
Lemma keeps_ensurePrefix wt : keeps P (ensurePrefix (E:=E) t wt).
Proof. unfold ensurePrefix. kept. Qed.
Lemma keeps_decide {A} i ev sch (dec : string → result A) : keeps P (decide r t i ev sch dec).
Proof. unfold decide, wf, Complete. kept. Qed.
Hint Resolve keeps_ensurePrefix keeps_decide : keeps.
Lemma keeps_localize wt : keeps P (localize r t wt).
Proof. unfold localize, ctx_err, ext_, wf. kept. Qed.
Lemma keeps_make_plan : keeps P (make_plan r t).
Proof. unfold make_plan. kept. Qed.
Lemma keeps_obligations wt changed : keeps P (signatureObligations (E:=E) wt changed).
Proof. unfold signatureObligations, ext_. kept. Qed.
Lemma keeps_write_card wt : keeps P (write_card r t wt).
Proof. unfold write_card, WriteTaskCard. kept. Qed.
Lemma keeps_save_transcript wt a b : keeps P (save_transcript (E:=E) t wt a b).
Proof. unfold save_transcript, wf. kept. Qed.
Hint Resolve keeps_save_transcript : keeps.
Lemma keeps_engine {A} (sv : RM unit) (p : proc (fs * G) A) : keeps P sv → keeps P (run_engine (E:=E) sv p).
Proof. intros Hsv. induction p; cbn [run_engine]; unfold wf, ctx_err, Complete, FailOp; kept. Qed.
Lemma keeps_edit_step wt : keeps P (edit_step r t wt).
Proof.
  unfold edit_step, step_engine. kept. apply keeps_engine. kept.
Qed.
Lemma keeps_scope `{!OutOk any_out P} wt : keeps P (scope_of_change (E:=E) r wt).
Proof. unfold scope_of_change. kept. Qed.
End saving.
#[export] Hint Resolve keeps_save keeps_ensurePrefix keeps_decide keeps_localize keeps_make_plan keeps_obligations
  keeps_write_card keeps_edit_step keeps_scope : keeps.
