(* ===== verification/Acceptance.v ===== *)
(** How a task becomes accepted, over any history of the system: every stored
    workflow has earned its phase, and only a run of the task itself that
    returns an accepted outcome - one the completion contract or the phased
    workflow's evidence supports - records a task as accepted. *)
From S2P Require Import Memory Retrieval Checkout Broker.
From S2P Require Import Prelude GoStrings GoPath GoRegexp Policy Worktree Firewall Recipe Summarize Contract Graph.
From S2P Require Import Trust ContextPack Workflow Json Ledger Recover Tasks Engine Runner Misses Phases Supervise PhaseLoop Invariants.

Open Scope string_scope.
Open Scope list_scope.
Open Scope nat_scope.

Definition early (p : Phase) : Prop := p ≠ Review ∧ p ≠ Finalize.

(** The states a phase may stop in other than accepted. *)
Definition unaccepted (state : string) : Prop := state ≠ StateAccepted.

Class MoveOk (t : Task) (P : inv) := move_keeps next ts w s o :
  early next → P ts w s o → P ts (<[Ta_ID t := (show_phase next, wf_Phase next s)]> w) (wf_Phase next s) o.

Section phases.
Context {G : Type} `{E : Env G}.
Context (r : Runner) (repoRoot : string).
Notation RS := (RS G).
Notation RM := (M RS).
Context (t : Task).

(** *** The phases before review *)

Section early_phases.
Context (P : inv) `{!UpdOk phase_same P, !OutOk any_out P, !SaveOk t P, !StateOk t unaccepted P, !MoveOk t P}.

Lemma keeps_stop_un wt status reason : unaccepted status → keeps P (stop (E:=E) t wt status reason).
Proof. by apply keeps_stop. Qed.
Hint Extern 2 (keeps _ (stop _ _ _ _)) => apply keeps_stop_un; [typeclasses eauto..|discriminate] : keeps.

Lemma keeps_or_stop wt m : keeps P m → keeps P (or_stop (E:=E) t wt m).
Proof. intros Hm. unfold or_stop. kept. Qed.
Lemma keeps_move_early wt next : early next → keeps P (or_stop (E:=E) t wt (move t next)).
Proof. intros Hn. apply keeps_or_stop, keeps_move. intros. by apply move_keeps. Qed.
Hint Extern 2 (keeps _ (or_stop _ _ (move _ _))) => simple apply keeps_move_early; split; discriminate : keeps.

Lemma keeps_intake wt : keeps P (intake r repoRoot t wt).
Proof. unfold intake, wf. kept. Qed.
Lemma keeps_localize_phase wt : keeps P (or_stop t wt (_ ← localize r t wt; move t PImpact)).
Proof.
  apply keeps_or_stop, keeps_bind; [kept |]. intros _. apply keeps_move. intros. by apply move_keeps.
Qed.
Lemma keeps_impact wt : keeps P (impact_phase (E:=E) t wt).
Proof. unfold impact_phase, wf. kept. Qed.
Lemma keeps_planning wt : keeps P (planning r t wt).
Proof. unfold planning, wf. kept. Qed.
Lemma keeps_edit wt : keeps P (edit r t wt).
Proof. unfold edit. kept. Qed.
Lemma keeps_rerun wt : keeps P (verify_rerun r t wt).
Proof. unfold verify_rerun. kept. Qed.

Lemma keeps_repair wt reasons : keeps P (repair (E:=E) t wt reasons).
Proof.
  unfold repair. apply keeps_bind.
  { apply (@keeps_upd _ _ phase_same); [typeclasses eauto |]. intros s. by destruct (Feedback s). }
  intros _. apply keeps_state. intros s Hs a s' H. unfold mbind at 1, M_bind, gets at 1 in H. cbn in H.
  unfold mbind at 1, M_bind, gets at 1 in H. cbn in H.
  pose proof (count_failures_keep (rs_world s).1 wt (Feedback (rs_wf s)) (rs_wf s, false)) as Hk.
  destruct (foldl _ _ _) as [w relocalize]. cbn [fst] in Hk. unfold mbind at 1, M_bind, upd at 1, modify in H. cbn in H.
  set (s1 := set_wf w s) in H. assert (Hs1 : holds P s1) by (unfold holds; cbn; by eapply (upd_keeps (R:=same))).
  revert a s' H. generalize s1, Hs1. clear s Hs s1 Hs1 Hk. intros s Hs a s' H. revert s a s' Hs H.
  change (keeps P (if Z.ltb 2 (Regressions w) || Z.leb (maxAttempts t) (Attempts w) then
    _ ← ext (Checkout.ResetCheckout exec wt);
    stop t wt StateFailed "repair budget exhausted; task checkout restored to its base"
  else
    _ ← upd (wf_Edit new_transcript);
    if relocalize then
      if Z.leb 2 (Replans w) then stop t wt StateFailed "re-localization budget exhausted"
      else
        _ ← ext (Checkout.ResetCheckout exec wt);
        _ ← upd (λ s, wf_Replans (Replans s + 1) s);
        or_stop t wt (move t Localize)
    else or_stop t wt (move t Edit))). kept.
Qed.
End early_phases.

(** *** Every stored workflow has earned its phase *)

Definition all_earned (w : gmap string (string * State)) : Prop := ∀ id p st, w !! id = Some (p, st) → earned st.

(** In a phase that relies on nothing; in a phase that was earned. *)
Definition unearned_inv : inv := λ ts w s o, all_earned w ∧ early (S_Phase s).
Definition earned_inv : inv := λ ts w s o, all_earned w ∧ earned s.

Lemma all_earned_insert w id p st : all_earned w → earned st → all_earned (<[id := (p, st)]> w).
Proof. intros Hw Hs id' p' st' [[<- [= <- <-]]|[_ H]]%lookup_insert_Some; [done | by eapply Hw]. Qed.

Lemma early_earned s : early (S_Phase s) → earned s.
Proof. intros [? ?]. by apply earned_early. Qed.

#[local] Instance unearned_upd : UpdOk phase_same unearned_inv.
Proof. intros ts w s s' o Hp [Hw Hs]. split; [done |]. by rewrite Hp. Qed.
#[local] Instance unearned_out : OutOk any_out unearned_inv.
Proof. by intros ts w s o o' _ H. Qed.
#[local] Instance unearned_save : SaveOk t unearned_inv.
Proof. intros ts w s o [Hw Hs]. split; [|done]. by apply all_earned_insert, early_earned. Qed.
#[local] Instance unearned_state ok : StateOk t ok unearned_inv.
Proof. by intros ts w s o state now _ H. Qed.
#[local] Instance unearned_move : MoveOk t unearned_inv.
Proof. intros next ts w s o Hn [Hw Hs]. split; [|done]. by apply all_earned_insert, early_earned. Qed.

#[local] Instance earned_upd : UpdOk same earned_inv.
Proof. intros ts w s s' o Hp [Hw Hs]. split; [done |]. by eapply earned_same. Qed.
#[local] Instance earned_out : OutOk any_out earned_inv.
Proof. by intros ts w s o o' _ H. Qed.
#[local] Instance earned_save : SaveOk t earned_inv.
Proof. intros ts w s o [Hw Hs]. split; [|done]. by apply all_earned_insert. Qed.
#[local] Instance earned_state ok : StateOk t ok earned_inv.
Proof. by intros ts w s o state now _ H. Qed.

Definition any_status (state : string) : Prop := True.
Lemma keeps_stop_any P `{!StateOk t any_status P, !OutOk any_out P, !SaveOk t P} wt status reason :
  keeps P (stop (E:=E) t wt status reason).
Proof. by eapply keeps_stop. Qed.
Hint Extern 2 (keeps _ (stop _ _ _ _)) => simple apply keeps_stop_any : keeps.

Lemma unearned_earned (s : RS) : holds unearned_inv s → holds earned_inv s.
Proof. intros [Hw Hs]. split; [done | by apply early_earned]. Qed.

Lemma bind_cases {A B} (m : RM A) (k : A → RM B) s b s' : (m ≫= k) s = (b, s') →
  (∃ e, m s = (Err e, s') ∧ b = Err e) ∨ ∃ a s1, m s = (Ok a, s1) ∧ k a s1 = (b, s').
Proof.
  unfold mbind, M_bind. destruct (m s) as [[a|e] s1]; intros H; [right; by exists a, s1 | left].
  injection H as <- <-. by exists e.
Qed.

(** A move with an invariant before and another after. *)
Lemma move_holds (P : inv) next (s : RS) a s' : move t next s = (a, s') → holds P s →
  P (tasks (rs_db s)) (<[Ta_ID t := (show_phase next, wf_Phase next (rs_wf s))]> (task_workflow (rs_db s)))
    (wf_Phase next (rs_wf s)) (rs_out s) →
  holds P s'.
Proof.
  intros (Ho & Ht & Hm)%move_cases Hs Hn. unfold holds in *. rewrite Ho, Ht.
  destruct a; destruct Hm as [-> ->]; done.
Qed.

Lemma or_stop_cases wt m (s : RS) a s' : or_stop (E:=E) t wt m s = (a, s') →
  ∃ x s1, m s = (x, s1) ∧
  match x with Ok _ => a = Ok Again ∧ s' = s1 | Err e => stop t wt StateBlocked (err_msg e) s1 = (a, s') end.
Proof.
  unfold or_stop, mbind, M_bind, try. destruct (m s) as [x s1]. intros H. exists x, s1. split; [done |].
  destruct x; [by injection H as <- <- | done].
Qed.

Lemma or_stop_holds (P : inv) `{!StateOk t any_status P, !OutOk any_out P, !SaveOk t P} wt next (s : RS) a s' :
  or_stop (E:=E) t wt (move t next) s = (a, s') → holds P s →
  P (tasks (rs_db s)) (<[Ta_ID t := (show_phase next, wf_Phase next (rs_wf s))]> (task_workflow (rs_db s)))
    (wf_Phase next (rs_wf s)) (rs_out s) →
  holds P s'.
Proof.
  intros (x & s1 & Hm & H)%or_stop_cases Hs Hn.
  assert (Hs1 : holds P s1) by (by eapply move_holds).
  destruct x; [by destruct H as [_ ->] | by eapply (keeps_stop_any P)].
Qed.

Lemma accepted_change_earned wt changed (s : RS) a s' :
  accepted_change (E:=E) t wt changed s = (a, s') → holds unearned_inv s → passed (rs_wf s) → holds earned_inv s'.
Proof.
  unfold accepted_change. intros H Hs Hp. unfold mbind at 1, M_bind, try in H.
  destruct (signatureObligations wt changed s) as [un s1] eqn:Hu.
  assert (F : same (rs_wf s) (rs_wf s1)) by exact (frame_obligations wt changed s un s1 Hu).
  assert (Hs1 : holds unearned_inv s1) by (by eapply (keeps_obligations unearned_inv)).
  destruct un as [[]|e].
  - apply unearned_earned. revert H. unfold wf.
    match goal with |- ?m s1 = _ → _ => assert (Hk : keeps unearned_inv m) end; [|by apply Hk].
    kept. apply keeps_move_early; [by apply _..|]. split; discriminate.
  - eapply (or_stop_holds earned_inv); [exact H | by apply unearned_earned |]. destruct Hs1 as [Hw _].
    assert (He : earned (wf_Phase Review (rs_wf s1))).
    { split; [|done]. intros _. destruct (passed_same _ _ F Hp) as (cd & Hcd). by exists cd. }
    split; [by apply all_earned_insert | done].
  - apply unearned_earned. by eapply (keeps_stop_any unearned_inv).
Qed.

(** The verification is of the content it is said to be of, and the rerun's. *)
Lemma verify_phase_earned wt (s : RS) a s' :
  verify_phase r t wt s = (a, s') → holds unearned_inv s → holds earned_inv s'.
Proof.
  unfold verify_phase. intros [(e & [=] & _)|(w & s1 & [-> ->]%gets_ok & H)]%bind_cases Hs.
  destruct (Z.leb_spec 4 (VerifyLoops (rs_wf s))); [by eapply unearned_earned, (keeps_stop_any unearned_inv) |].
  apply bind_cases in H as [(e & [=] & _)|(? & s1 & Hu & H)].
  assert (Hs1 : holds unearned_inv s1) by (apply upd_ok in Hu as ->; exact Hs). apply upd_ok in Hu as ->.
  apply bind_cases in H as [(e & Hv & ->)|(results & s2 & Hv & H)];
    [by eapply unearned_earned, (keeps_verify r t unearned_inv) |].
  assert (Hs2 : holds unearned_inv s2) by (by eapply (keeps_verify r t unearned_inv)).
  pose proof Hv as Hc. apply verify_candidate in Hc.
  assert (F : rs_wf (set_wf (wf_VerifyLoops (VerifyLoops (rs_wf s) + 1) (rs_wf s)) s) = rs_wf s2)
    by (refine ((_ : frame eq (verify r t wt _)) _ _ _ Hv); apply frame_verify, _).
  apply bind_cases in H as [(e & [=] & _)|(? & s3 & Hu & H)].
  assert (Hs3 : holds unearned_inv s3) by (apply upd_ok in Hu as ->; exact Hs2). apply upd_ok in Hu as ->.
  destruct (environment_failure results); [by eapply unearned_earned, (keeps_stop_any unearned_inv) |].
  apply bind_cases in H as [(e & [=] & _)|(? & s4 & Hu & H)].
  assert (Hs4 : holds unearned_inv s4) by (apply upd_ok in Hu as ->; exact Hs3). apply upd_ok in Hu as ->.
  apply bind_cases in H as [(e & Hr & ->)|(broken & s5 & Hr & H)];
    [by eapply unearned_earned, (keeps_rerun unearned_inv) |].
  assert (Hs5 : holds unearned_inv s5) by (by eapply (keeps_rerun unearned_inv)).
  apply rerun_ok in Hr as (Hph & _ & Hps & Hcd & _ & Hres).
  destruct broken; [by eapply unearned_earned, (keeps_stop_any unearned_inv) |].
  apply bind_cases in H as [(e & Hsc & ->)|(changed & s6 & Hsc & H)];
    [by eapply unearned_earned, (keeps_scope r unearned_inv) |].
  assert (Hs6 : holds unearned_inv s6) by (by eapply (keeps_scope r unearned_inv)).
  assert (F0 : rs_wf s5 = rs_wf s6) by (refine ((_ : frame eq (scope_of_change r wt)) _ _ _ Hsc); apply frame_scope, _).
  apply bind_cases in H as [(e & [=] & _)|(w & s7 & [-> ->]%gets_ok & H)].
  apply bind_cases in H as [(e & [=] & _)|(o & s7 & [-> ->]%gets_ok & H)].
  destruct (judge _ _ _) as [[] reasons] eqn:Ej.
  - eapply accepted_change_earned; [exact H | exact Hs6 |]. rewrite <- F0 in *.
    eapply judge_passed; [exact Ej |]. rewrite Hcd. destruct Hres as [->|?]; [|done].
    cbn. by rewrite <- F.
  - by eapply unearned_earned, (keeps_repair unearned_inv).
Qed.

Lemma review_phase_earned wt (s : RS) a s' :
  review_phase r t wt s = (a, s') → S_Phase (rs_wf s) = Review → holds earned_inv s → holds earned_inv s'.
Proof.
  unfold review_phase. intros [(e & Hd & ->)|(diff & s1 & Hd & H)]%bind_cases Hp Hs; [by eapply (keeps_ext earned_inv) |].
  assert (Hs1 : holds earned_inv s1) by (by eapply (keeps_ext earned_inv)). apply ext_ok in Hd as [Hw1 _].
  apply bind_cases in H as [(e & [=] & _)|(w & s2 & [-> ->]%gets_ok & H)].
  unfold mbind at 1, M_bind, try in H.
  match type of H with context [decide ?a ?b ?c ?d ?e ?f ?g] => destruct (decide a b c d e f g) as [verdict s2] eqn:Hd end.
  assert (Hs2 : holds earned_inv s2) by (by eapply (keeps_decide r t earned_inv)).
  assert (F : same (rs_wf s1) (rs_wf s2)) by exact (frame_decide r t _ _ _ _ _ _ _ Hd).
  destruct verdict as [verdict|e]; [|by eapply (keeps_stop_any earned_inv)].
  assert (Hp2 : S_Phase (rs_wf s2) = Review) by (destruct F; congruence).
  apply bind_cases in H as [(e & [=] & _)|(? & s3 & Hu & H)]. apply upd_ok in Hu as ->.
  destruct Hs2 as [Hw [He Hv]]. specialize (He (or_introl Hp2)).
  assert (Hs3 : holds earned_inv (set_wf (wf_Verdict (Some verdict) (rs_wf s2)) s2))
    by (split; [exact Hw |]; split; cbn; [intros _; exact He | congruence]).
  destruct (V_Accept verdict) eqn:Ev.
  - eapply (or_stop_holds earned_inv); [exact H | exact Hs3 |].
    assert (Hn : earned (wf_Phase Finalize (wf_Verdict (Some verdict) (rs_wf s2)))).
    { split; [intros _; exact He | intros _; by exists verdict]. }
    split; [by apply all_earned_insert | exact Hn].
  - apply bind_cases in H as [(e & [=] & _)|(w & s4 & [-> ->]%gets_ok & H)].
    destruct (Z.leb _ _); [by eapply (keeps_stop_any earned_inv) |].
    apply bind_cases in H as [(e & [=] & _)|(? & s5 & Hu & H)]. apply upd_ok in Hu as ->.
    eapply (or_stop_holds earned_inv); [exact H | exact Hs3 |].
    split; [apply all_earned_insert; [exact Hw |] |]; apply early_earned; split; discriminate.
Qed.

Lemma keeps_finalize P `{!UpdOk same P, !OutOk any_out P, !SaveOk t P, !StateOk t any_status P} wt :
  keeps P (finalize r t wt).
Proof. unfold finalize, final_approval, final_commit, Complete. kept. Qed.

Lemma keeps_turn_earned wt : keeps earned_inv (turn r repoRoot t wt).
Proof.
  unfold turn, ctx_err, wf. apply keeps_bind; [kept |]. intros [e|]; [apply (keeps_stop_any earned_inv) |].
  apply keeps_bind; [kept |]. intros tokens. destruct (_ && _); [apply (keeps_stop_any earned_inv) |].
  apply keeps_bind; [kept |]. intros cd. apply keeps_bind; [kept |]. intros _.
  intros s a s' Hs. unfold phase_step, wf.
  intros [(e & [=] & _)|(ph & s1 & [-> ->]%gets_ok & H)]%bind_cases. cbn in H.
  assert (Hearly : early (S_Phase (rs_wf s)) → holds unearned_inv s) by (intros Hn; destruct Hs as [Hw _]; by split).
  destruct (S_Phase (rs_wf s)) eqn:Ep.
  all: try (assert (Hu : holds unearned_inv s) by (apply Hearly; split; discriminate)).
  - by eapply unearned_earned, (keeps_intake unearned_inv).
  - by eapply unearned_earned, (keeps_localize_phase unearned_inv).
  - by eapply unearned_earned, (keeps_impact unearned_inv).
  - by eapply unearned_earned, (keeps_planning unearned_inv).
  - by eapply unearned_earned, (keeps_edit unearned_inv).
  - by eapply verify_phase_earned.
  - by eapply review_phase_earned.
  - by eapply (keeps_finalize earned_inv).
  - by injection H as _ <-.
Qed.

Lemma keeps_rounds P wt fuel : keeps P (turn r repoRoot t wt) → keeps P (rounds r repoRoot t wt fuel).
Proof.
  intros Ht. induction fuel as [|fuel IH]; cbn [rounds]; [apply keeps_ret |].
  apply keeps_bind; [done |]. intros []; [done | apply keeps_ret].
Qed.

Lemma runPhases_earned wt (s : RS) a s' :
  runPhases r repoRoot t wt s = (a, s') → all_earned (task_workflow (rs_db s)) → all_earned (task_workflow (rs_db s')).
Proof.
  unfold runPhases, start_or_resume. intros H Hs. destruct (r_model r) as [[]|]; [|by injection H as _ <-..].
  apply bind_cases in H as [(e & Hl & ->)|(stored & s1 & Hl & H)].
  { eapply (keeps_dbm (λ _ w _ _, all_earned w)); [apply leaves_LoadWorkflow | exact Hs | exact Hl]. }
  assert (Hs1 : all_earned (task_workflow (rs_db s1)))
    by (eapply (keeps_dbm (λ _ w _ _, all_earned w)); [apply leaves_LoadWorkflow | exact Hs | exact Hl]).
  apply bind_cases in H as [(e & Hst & ->)|(? & s2 & Hst & H)].
  { destruct stored; [done |]. apply bind_cases in Hst as [(? & [=] & _)|(now & s3 & [-> ->]%gets_ok & Hst)].
    apply bind_cases in Hst as [(? & [=] & _)|(? & s3 & ->%upd_ok & Hst)].
    apply (keeps_save t unearned_inv) in Hst; [by destruct Hst | by split]. }
  assert (Hs2 : holds earned_inv s2).
  { destruct stored as [st|].
    - apply upd_ok in Hst as ->. split; [exact Hs1 |]. unfold dbm in Hl.
      destruct (LoadWorkflow _ _) as [lres d] eqn:El. injection Hl as -> <-.
      unfold LoadWorkflow, query in El. destruct (unavailable _); [done |].
      destruct (task_workflow (rs_db s) !! Ta_ID t) as [[p st']|] eqn:Et; [|done]. injection El as -> _. by eapply Hs.
    - apply bind_cases in Hst as [(? & [=] & _)|(now & s3 & [-> ->]%gets_ok & Hst)].
      apply bind_cases in Hst as [(? & [=] & _)|(? & s3 & ->%upd_ok & Hst)].
      eapply unearned_earned, (keeps_save t unearned_inv); [|exact Hst]. by split. }
  enough (holds earned_inv s') as [? _] by done. revert H.
  match goal with |- ?m s2 = _ → _ => assert (Hk : keeps earned_inv m) end; [|by apply Hk].
  apply keeps_bind; [kept |]. intros w. cbv zeta. apply keeps_bind; [kept |]. intros _.
  apply keeps_bind; [apply keeps_deadline, keeps_rounds, keeps_turn_earned |]. intros [?|]; kept.
Qed.
End phases.

(** *** An invariant every phase and every move keeps *)

Class MoveAll (t : Task) (P : inv) := move_all next ts w s o :
  P ts w s o → P ts (<[Ta_ID t := (show_phase next, wf_Phase next s)]> w) (wf_Phase next s) o.
#[export] Instance MoveAll_ok t P `{!MoveAll t P} : MoveOk t P.
Proof. intros next ts w s o _. by apply move_all. Qed.
#[export] Instance StateOk_un t P `{!StateOk t any_status P} : StateOk t unaccepted P.
Proof. intros ts w s o state now _. by apply (state_keeps (ok:=any_status)). Qed.

Section all_moves.
Context {G : Type} `{E : Env G}.
Context (r : Runner) (repoRoot : string) (t : Task).
Context (P : inv) `{!UpdOk phase_same P, !OutOk any_out P, !SaveOk t P, !StateOk t unaccepted P, !MoveAll t P}.

Hint Extern 2 (keeps _ (stop _ _ _ _)) => apply keeps_stop_un; [typeclasses eauto..|discriminate] : keeps.
Lemma keeps_move_any wt next : keeps P (or_stop (E:=E) t wt (move t next)).
Proof. apply keeps_or_stop; [typeclasses eauto..|]. apply keeps_move. intros. by apply move_all. Qed.
Hint Resolve keeps_move_any : keeps.
Hint Extern 1 (MoveOk _ _) => typeclasses eauto : keeps.

Lemma keeps_accepted_change wt changed : keeps P (accepted_change (E:=E) t wt changed).
Proof. unfold accepted_change, wf. kept. Qed.
Hint Resolve keeps_accepted_change keeps_repair keeps_rerun : keeps.
Lemma keeps_verify_phase wt : keeps P (verify_phase r t wt).
Proof. unfold verify_phase. kept. Qed.
Lemma keeps_review_phase wt : keeps P (review_phase r t wt).
Proof. unfold review_phase. kept. Qed.
End all_moves.

Section all_states.
Context {G : Type} `{E : Env G}.
Context (r : Runner) (repoRoot : string) (t : Task).
Context (P : inv) `{!UpdOk any_state P, !OutOk any_out P, !SaveOk t P, !StateOk t any_status P, !MoveAll t P}.

Hint Extern 2 (keeps _ (stop _ _ _ _)) => apply keeps_stop_any; typeclasses eauto : keeps.

Lemma keeps_turn wt : keeps P (turn r repoRoot t wt).
Proof.
  unfold turn, ctx_err, wf. apply keeps_bind; [kept |]. intros [e|]; [kept |].
  apply keeps_bind; [kept |]. intros tokens. destruct (_ && _); [kept |].
  do 2 (apply keeps_bind; [kept |]; intros ?). unfold phase_step, wf. apply keeps_bind; [kept |]. intros [].
  - apply (keeps_intake r repoRoot t P).
  - apply (keeps_localize_phase r t P).
  - apply (keeps_impact t P).
  - apply (keeps_planning r t P).
  - apply (keeps_edit r t P).
  - apply (keeps_verify_phase r t P).
  - apply (keeps_review_phase r t P).
  - apply (keeps_finalize r t P).
  - kept.
Qed.

Lemma keeps_runPhases wt : keeps P (runPhases r repoRoot t wt).
Proof.
  unfold runPhases, start_or_resume. destruct (r_model r) as [[]|]; [|kept..]. apply keeps_bind; [kept |]. intros stored.
  apply keeps_bind; [kept |]. intros _. apply keeps_bind; [kept |]. intros w. cbv zeta.
  apply keeps_bind; [kept |]. intros _.
  apply keeps_bind; [apply keeps_deadline, keeps_rounds, keeps_turn |]. intros [?|]; kept.
Qed.
End all_states.

(** ** Who records a task as accepted *)

(** Every task but [id] is as it was, and [id] is not accepted if it was not before. *)
Definition tasks_inv (id : string) (ts0 : list Task) : inv := λ ts w s o,
  Forall2 (λ a b, Ta_ID b = Ta_ID a ∧ (Ta_ID a ≠ id → b = a) ∧ (Ta_State b = StateAccepted → Ta_State a = StateAccepted)) ts0 ts.

Lemma retask_Forall2 id f (ts : list Task) (R R' : relation Task) ts0 :
  Forall2 R ts0 ts → (∀ a b, R a b → R' a (if String.eqb (Ta_ID b) id then f b else b)) →
  Forall2 R' ts0 (retask id f ts).
Proof. intros H Hf. unfold retask. apply Forall2_fmap_r. eapply Forall2_impl; [exact H | by eauto]. Qed.

Section settling.
Context {G : Type} `{E : Env G}.
Context (r : Runner) (repoRoot : string).
Notation RS := (RS G).
Notation RM := (M RS).
Context (t : Task) (ts0 : list Task).
Notation TI := (tasks_inv (Ta_ID t) ts0).

#[export] Instance tasks_upd : UpdOk any_state TI.
Proof. by intros ts w s s' o _ H. Qed.
#[export] Instance tasks_out : OutOk any_out TI.
Proof. by intros ts w s o o' _ H. Qed.
#[export] Instance tasks_save : SaveOk t TI.
Proof. by intros ts w s o H. Qed.
#[export] Instance tasks_move : MoveAll t TI.
Proof. by intros next ts w s o H. Qed.
#[export] Instance tasks_state : StateOk t unaccepted TI.
Proof.
  intros ts w s o state now Hok H. eapply retask_Forall2; [exact H |]. cbn. intros a b (Hid & Ho & Hm).
  destruct (String.eqb_spec (Ta_ID b) (Ta_ID t)) as [Hb|Hb]; [|done]. cbn. split_and!; [done | congruence | by intros ?%Hok].
Qed.

(** A computation keeps the invariant, or ends in a result that won. *)
Definition settles {A} (won : A → Prop) (m : RM A) : Prop :=
  ∀ s a s', holds TI s → m s = (a, s') → holds TI s' ∨ ∃ x, a = Ok x ∧ won x.

Lemma settles_keeps {A} (won : A → Prop) (m : RM A) : keeps TI m → settles won m.
Proof. intros Hk s a s' Hs H. left. by eapply Hk. Qed.
Lemma settles_bind {A B} (won : B → Prop) (m : RM A) (k : A → RM B) :
  keeps TI m → (∀ a, settles won (k a)) → settles won (m ≫= k).
Proof.
  intros Hm Hk s b s' Hs [(e & He & ->)|(a & s1 & H1 & H)]%bind_cases; [left; by eapply Hm |].
  eapply Hk; [|exact H]. by eapply Hm.
Qed.
(** What follows a computation that may have won keeps the win. *)
Lemma settles_then {A B} (won : A → Prop) (won' : B → Prop) (m : RM A) (k : A → RM B) :
  settles won m → (∀ a, settles won' (k a)) →
  (∀ a s b s', won a → k a s = (b, s') → ∃ y, b = Ok y ∧ won' y) → settles won' (m ≫= k).
Proof.
  intros Hm Hk Hw s b s' Hs [(e & He & ->)|(a & s1 & H1 & H)]%bind_cases.
  - destruct (Hm _ _ _ Hs He) as [?|(x & [=] & _)]. by left.
  - destruct (Hm _ _ _ Hs H1) as [?|(x & [= <-] & Hx)]; [by eapply Hk | right; by eapply Hw].
Qed.
Lemma settles_uncancelled {A} (won : A → Prop) (m : RM A) : settles won m → settles won (uncancelled m).
Proof. intros Hm s b s' Hs. unfold uncancelled. destruct (m _) as [a s1] eqn:E1. intros [= <- <-]. by apply Hm in E1. Qed.
Lemma settles_deadline {A} (won : A → Prop) d (m : RM A) : settles won m → settles won (with_deadline d m).
Proof.
  intros Hm s b s' Hs. unfold with_deadline, limited. destruct (m _) as [a s1] eqn:E1. intros [= <- <-].
  rewrite observed_holds. apply Hm in E1; [exact E1 |]. by rewrite observed_holds.
Qed.

(** The run returned normally with an outcome that says accepted. *)
Definition won (x : Outcome * option error) : Prop :=
  x.2 = None ∧ Accepted x.1 = true ∧ Ta_State (O_Task x.1) = StateAccepted.
Definition won_ctl (c : ctl) : Prop := match c with Return o e => won (o, e) | Again => False end.

Lemma finish_settles state : settles (λ x, x.2 = None ∧ Ta_State (O_Task x.1) = state) (finish (G:=G) t state).
Proof.
  unfold finish. apply settles_bind; [kept |]. intros out. apply settles_bind; [kept |].
  intros [u|e]; [|by apply settles_keeps; kept].
  intros s b s' Hs. unfold mbind at 1, M_bind, try, dbm. destruct (SetState _ _ _) as [x d] eqn:Es.
  apply SetState_cases in Es as [Hw Ht]. destruct x as [v|e].
  - intros [(? & [=] & _)|(? & s1 & [= _ <-] & H)]%bind_cases.
    apply bind_cases in H as [(? & [=] & _)|(o & s2 & [-> ->]%gets_ok & H)].
    injection H as <- _. right. eexists. split; [done |]. by split.
  - intros [= <- <-]. left. unfold holds. cbn. by rewrite Hw, Ht.
Qed.

Lemma stop_settles wt reason : settles won_ctl (stop (E:=E) t wt StateAccepted reason).
Proof.
  assert (H : settles (λ c, ∃ o, c = Return o None ∧ Ta_State (O_Task o) = StateAccepted) (stop (E:=E) t wt StateAccepted reason)).
  { unfold stop. do 4 (apply settles_bind; [kept |]; intros ?). apply settles_uncancelled.
    apply settles_bind; [kept |]. intros [u|e]; [|by apply settles_keeps; kept].
    eapply settles_then; [apply finish_settles | intros; apply settles_keeps; kept |].
    intros [o e] s b s' [He Ho] [= <- _]. cbn in He, Ho. subst e. eexists. split; [done |]. by exists o. }
  intros s a s' Hs Hst. destruct (H s a s' Hs Hst) as [?|(c & -> & o & -> & Ho)]; [by left | right].
  eexists. split; [done |]. apply stop_ok in Hst as (_ & o' & e & [= <- <-] & Ha & _). by split.
Qed.

Hint Extern 2 (keeps _ (stop _ _ _ _)) => apply keeps_stop_un; [typeclasses eauto..|discriminate] : keeps.
Lemma finalize_settles wt : settles won_ctl (finalize r t wt).
Proof.
  unfold finalize. apply settles_bind; [kept |]. intros w. cbv zeta.
  destruct (_ || _); [apply settles_keeps; kept |].
  apply settles_bind; [kept |]. intros [e|]; [apply settles_keeps; kept |].
  unfold final_approval. do 4 (apply settles_bind; [kept |]; intros ?).
  destruct (CheckDiffSecrets _); [|apply settles_keeps; kept].
  apply settles_bind; [kept |]. intros out. apply settles_bind; [kept |]. intros g.
  destruct (String.eqb _ _); [apply settles_keeps; kept |].
  destruct (Broker.Open_ _); [apply settles_keeps; kept |].
  apply settles_bind; [kept |]. intros cur. apply settles_bind; [kept |]. intros w'.
  destruct (negb _); [apply settles_keeps; kept |].
  unfold final_commit, Complete. do 2 (apply settles_bind; [kept |]; intros ?).
  apply settles_bind; [kept |]. intros [ok|e]; [|apply settles_keeps; kept].
  apply settles_bind; [kept |]. intros _. apply stop_settles.
Qed.

Lemma turn_settles wt : settles won_ctl (turn r repoRoot t wt).
Proof.
  unfold turn, ctx_err, wf. apply settles_bind; [kept |]. intros [e|]; [apply settles_keeps; kept |].
  apply settles_bind; [kept |]. intros tokens. destruct (_ && _); [apply settles_keeps; kept |].
  do 2 (apply settles_bind; [kept |]; intros ?). unfold phase_step, wf.
  apply settles_bind; [kept |]. intros [].
  - by apply settles_keeps, (keeps_intake r repoRoot t TI).
  - by apply settles_keeps, (keeps_localize_phase r t TI).
  - by apply settles_keeps, (keeps_impact t TI).
  - by apply settles_keeps, (keeps_planning r t TI).
  - by apply settles_keeps, (keeps_edit r t TI).
  - apply settles_keeps, (keeps_verify_phase r t TI).
  - apply settles_keeps, (keeps_review_phase r t TI).
  - apply finalize_settles.
  - apply settles_keeps. kept.
Qed.

Definition won_round (x : option (Outcome * option error)) : Prop := match x with Some x => won x | None => False end.

Lemma rounds_settles wt fuel : settles won_round (rounds r repoRoot t wt fuel).
Proof.
  induction fuel as [|fuel IH]; cbn [rounds]; [apply settles_keeps; kept |].
  eapply settles_then; [apply turn_settles | |].
  - intros [|o e]; [exact IH | apply settles_keeps; kept].
  - intros [|o e] s b s' Hw; [done |]. intros [= <- _]. by eexists.
Qed.

Lemma runPhases_settles wt : settles won (runPhases r repoRoot t wt).
Proof.
  unfold runPhases, start_or_resume. destruct (r_model r) as [[]|]; [|apply settles_keeps; kept..].
  apply settles_bind; [kept |]. intros stored. apply settles_bind; [kept |]. intros _.
  apply settles_bind; [kept |]. intros w. cbv zeta. apply settles_bind; [kept |]. intros _.
  eapply settles_then; [apply settles_deadline, rounds_settles | |].
  - intros [?|]; apply settles_keeps; kept.
  - intros [x|] s b s' Hw; [|done]. intros [= <- _]. by eexists.
Qed.
End settling.
