(* ===== verification/Runs.v ===== *)
(** A run of a task, whatever engine it has: an outcome recorded as accepted met
    the completion contract or the phased workflow's, what is kept of the work
    afterwards, and what a run never starts on. *)
From S2P Require Import Memory Retrieval Checkout Broker.
From S2P Require Import Prelude GoStrings GoPath GoRegexp Policy Worktree Firewall Recipe Summarize Contract Graph.
From S2P Require Import Trust ContextPack Workflow Json Ledger Recover Tasks Engine Runner Misses Phases Supervise PhaseLoop Invariants.
From S2P Require Import Acceptance.

Open Scope string_scope.
Open Scope list_scope.
Open Scope nat_scope.

(** The verdict of the outcome stays what it was. *)
Definition out_inv (o1 : Outcome) : inv := λ ts w s o, same_verdict o1 o.

#[export] Instance same_verdict_preorder : PreOrder same_verdict.
Proof. split; [by repeat split |]. intros o1 o2 o3 (? & ? & ? & ?) (? & ? & ? & ?). repeat split; congruence. Qed.

#[export] Instance out_inv_upd o1 : UpdOk any_state (out_inv o1).
Proof. by intros ts w s s' o _ H. Qed.
#[export] Instance out_inv_out o1 : OutOk same_verdict (out_inv o1).
Proof. unfold OutOk, out_inv. intros ts w s o o' Ho H. by transitivity o. Qed.
#[export] Instance out_inv_save t o1 : SaveOk t (out_inv o1).
Proof. by intros ts w s o H. Qed.
#[export] Instance out_inv_state t ok o1 : StateOk t ok (out_inv o1).
Proof. by intros ts w s o state now _ H. Qed.

Lemma widen_nil violations scope : foldl widen scope violations = [] → scope = [] ∧ violations = [].
Proof.
  assert (Hm : ∀ vs sc, sc ≠ [] → foldl widen sc vs ≠ []).
  { induction vs as [|v vs IH]; intros sc Hsc; [done |]. cbn. apply IH. unfold widen. destruct (mem _ _); [done |].
    by destruct sc. }
  destruct violations as [|v vs]; [done |]. cbn. intros H. exfalso. revert H. apply Hm. unfold widen.
  destruct (mem _ _) eqn:Em; [|by destruct scope]. apply mem_true in Em. intros ->. by apply not_elem_of_nil in Em.
Qed.

Lemma Accept_scope l results candidate scope effect :
  (Accept l results candidate scope effect).1 = true → scope = [].
Proof. unfold Accept. cbn [fst]. intros [_ H%bool_decide_eq_true]%andb_true_iff. done. Qed.

Section runs.
Context {G : Type} `{E : Env G}.
Context (r : Runner) (repoRoot : string).
Notation RS := (RS G).
Notation RM := (M RS).
Context (t : Task).

(** *** Where an accepted attempt comes from

    Every state below is the one the run itself is in: each line is the call the
    run makes next, from the state the call before it left. *)

(** The measured end of an attempt, after the engine answered [resp]: the
    candidate is the content of this checkout, every result is about it, nothing
    changed is out of the scope or protected, the contract accepts, the review
    is heard, and the gate - asked with the diff just taken - let it through. *)
Definition measured (wt : Checkout) (resp : EngResponse) (s : RS) (o : Outcome) (s' : RS) : Prop :=
  ∃ after s1 results s2 u s3 s4 changed s5 reasons v s6 diff s7 s8,
    candidate_of wt (set_out (out_TokensUsed (O_TokensUsed (rs_out s) + Er_Tokens resp)%Z (rs_out s)) s) = (Ok after, s1) ∧
    verify r t wt after (set_out (out_Candidate after (rs_out s1)) s1) = (Ok results, s2) ∧
    recordMisses (failedOnly results) (set_out (out_Results results (rs_out s2)) s2) = (Ok u, s3) ∧
    ext (Checkout.OutOfScope exec wt (Scope (Ta_Budget t))) s3 = (Ok [], s4) ∧
    ext (Checkout.ChangedFiles exec wt) s4 = (Ok changed, s5) ∧ Set_Check (r_policies r) changed = [] ∧
    Accept (level_of (Ta_Verification t)) results after [] (mk_effect (0 <? length changed) (edits r)) = (true, reasons) ∧
    review r t wt results (set_out (out_Accepted true (out_Reasons reasons (out_OutOfScope []
      (out_Violations (PolicyViolations (rs_out s5) ++ []) (rs_out s5))))) s5) = (Ok v, s6) ∧
    ext (Checkout.Diff exec wt) s6 = (diff, s7) ∧
    gate_passed r t (match diff with Ok d => set_out (out_Diff d (rs_out s7)) s7 | Err _ => s7 end) s8 ∧
    finish t StateAccepted s8 = (Ok (o, None), s') ∧
    Accepted o = true ∧ O_Candidate o = after ∧ O_Results o = results ∧ O_OutOfScope o = [] ∧
    Forall (λ x, R_Candidate x = after) results.

(** The accepted attempt, the [n]th: the engine's step on this checkout and
    what was measured after it. *)
Definition attempt_accepted (wt : Checkout) (n : Z) (feedback : list Result) (s : RS) (o : Outcome) (s' : RS) : Prop :=
  ∃ before s1 diag s2 resp s4,
    db_ctx (rs_db s) = None ∧ candidate_of wt (set_out (out_Attempts n (rs_out s)) s) = (Ok before, s1) ∧
    diagnose r t n feedback s1 = (Ok diag, s2) ∧
    let s3 := match diag with Some h => set_out (out_Diagnosis (Some h) (rs_out s2)) s2 | None => s2 end in
    let feedback := match diag with Some h => feedback ++ [diagnosisAsFeedback h] | None => feedback end in
    let limit := MaxTokens (Ta_Budget t) in
    step r repoRoot t wt n before feedback (if Z.ltb 0 limit then (limit - O_TokensUsed (rs_out s3))%Z else 0%Z) s3 = (Ok resp, s4) ∧
    measured wt resp s4 o s'.

(** An attempt after which the loop goes on. *)
Definition retried (wt : Checkout) (total : Z) : relation (nat * list Result * RS) := λ a b,
  a.1.1 = S b.1.1 ∧ attempt_once r repoRoot t wt (total - Z.of_nat b.1.1) a.1.2 a.2 = (Ok (Retry b.1.2), b.2).
Definition attempts_accepted (wt : Checkout) (total : Z) (todo : nat) (feedback : list Result) (s : RS) (o : Outcome) (s' : RS) : Prop :=
  ∃ n feedback' s1, rtc (retried wt total) (todo, feedback, s) (S n, feedback', s1) ∧
    attempt_accepted wt (total - Z.of_nat n) feedback' s1 o s'.

(** The whole of an accepted run without the phased workflow, from [s]: its
    deadline, its attempts. *)
Definition contract_accepted (wt : Checkout) (s : RS) (o : Outcome) (s' : RS) : Prop :=
  ∃ s1,
    let wall := MaxWallTime (Ta_Budget t) in
    let deadline := if Z.ltb 0 wall then Some (db_now (rs_db s) + wall)%Z else None in
    attempts_accepted wt (attempt_budget t) (Z.to_nat (attempt_budget t)) [] (set_out (start_outcome t) (limited deadline s)) o s1 ∧
    s' = limited (rs_deadline s) s1.

Lemma finish_more state (s : RS) o e s' : finish t state s = (Ok (o, e), s') →
  same_verdict (rs_out s) o ∧ rs_out s' = o ∧ (e = None → Ta_State (O_Task o) = state).
Proof.
  unfold finish. intros (out & s1 & [-> ->]%gets_ok & H)%bind_ok.
  apply bind_ok in H as (saved & s1 & [Hw1 Ho1]%try_ok%dbm_ok & H).
  destruct saved as [u|err]; [|by apply mret_ok in H as [[= -> ->] ->]].
  apply bind_ok in H as (stated & s2 & [Hw2 Ho2]%try_ok%dbm_ok & H).
  destruct stated as [u'|err]; [|by apply mret_ok in H as [[= -> ->] ->]; rewrite Ho2].
  apply bind_ok in H as (? & s3 & H3 & H). unfold upd_out in H3. apply modify_ok in H3 as ->.
  apply bind_ok in H as (out & s4 & [-> ->]%gets_ok & [[= -> ->] ->]%mret_ok).
  cbn. rewrite Ho2, Ho1. by split.
Qed.

Lemma finished_ok state (s : RS) c s' : finished t state s = (Ok c, s') →
  ∃ o e, c = Done o e ∧ same_verdict (rs_out s) o ∧ (e = None → Ta_State (O_Task o) = state).
Proof.
  unfold finished. intros ([o e] & s1 & (Hv & _ & He)%finish_more & [-> ->]%mret_ok)%bind_ok. by exists o, e.
Qed.

(** It ends with the task accepted. *)
Definition accepts (c : attempt_end) (o : Outcome) : Prop := c = Done o None ∧ Ta_State (O_Task o) = StateAccepted.

Lemma finished_other state (s : RS) c s' o : finished t state s = (Ok c, s') → accepts c o → unaccepted state → False.
Proof. intros (o' & e & -> & _ & He)%finished_ok [[= -> ->] Ha] Hn. rewrite He in Ha; done. Qed.

Lemma reason_ok text (s : RS) u s' : reason text s = (Ok u, s') → same_verdict (rs_out s) (rs_out s').
Proof. unfold reason, upd_out. intros ->%modify_ok. by repeat split. Qed.

Lemma keeps_review P `{!OutOk same_verdict P} wt results : keeps P (review (E:=E) r t wt results).
Proof. unfold review. kept. Qed.

(** Through a call that leaves the verdict alone. *)
Lemma verdict_kept {A} (m : RM A) (s : RS) a s' :
  keeps (out_inv (rs_out s)) m → m s = (a, s') → same_verdict (rs_out s) (rs_out s').
Proof. intros Hk H. apply Hk in H; [exact H | by repeat split]. Qed.

(** The last part of [measured]. *)
Lemma accepted_attempt_ok wt results (s : RS) c o s' :
  accepted_attempt r t wt results s = (Ok c, s') → accepts c o →
  ∃ v s6 diff s7 s8, review r t wt results (set_out (out_Accepted true (rs_out s)) s) = (Ok v, s6) ∧
    ext (Checkout.Diff exec wt) s6 = (diff, s7) ∧
    gate_passed r t (match diff with Ok d => set_out (out_Diff d (rs_out s7)) s7 | Err _ => s7 end) s8 ∧
    finish t StateAccepted s8 = (Ok (o, None), s') ∧ same_verdict (out_Accepted true (rs_out s)) o.
Proof.
  unfold accepted_attempt. intros (? & s1 & Hu & H)%bind_ok Ha. unfold upd_out in Hu. apply modify_ok in Hu as ->.
  apply bind_ok in H as (v & s6 & Hr & H). pose proof Hr as Vr. apply verdict_kept in Vr; [|apply keeps_review; apply _].
  apply bind_ok in H as (diff & s7 & Hd%try_ok & H). pose proof Hd as [_ Vd]%ext_ok.
  apply bind_ok in H as (? & s8 & Hf & H).
  assert (s8 = match diff with Ok d => set_out (out_Diff d (rs_out s7)) s7 | Err _ => s7 end) as ->.
  { destruct diff; [unfold upd_out in Hf; by apply modify_ok in Hf | by apply mret_ok in Hf as [_ ->]]. }
  apply bind_ok in H as (out & sa & [-> ->]%gets_ok & H). set (asked := match diff with Ok _ => _ | Err _ => _ end) in *.
  assert (Vf : same_verdict (rs_out s7) (rs_out asked)) by (unfold asked; destruct diff; by repeat split).
  apply bind_ok in H as (g & s9 & Hg & H). pose proof Hg as Vg. apply verdict_kept in Vg; [|kept].
  destruct (String.eqb_spec (Broker.G_Decision g) Broker.Rejected).
  { apply bind_ok in H as (? & ? & _ & H). apply bind_ok in H as (? & ? & _ & H). by eapply finished_other in H. }
  unfold Broker.Open_ in H. destruct (String.eqb_spec (Broker.G_Decision g) Broker.Pending_).
  { apply bind_ok in H as (? & ? & _ & H). apply bind_ok in H as (? & ? & _ & H). by eapply finished_other in H. }
  destruct Ha as [-> _]. apply bind_ok in H as ([o' e] & s10 & Hfin & [[= -> ->] ->]%mret_ok).
  exists v, s6, diff, s7, s9. split_and!; [done | done | by eapply gate_passed_ok | done |].
  apply finish_more in Hfin as (Vo & _ & _). etransitivity; [exact Vr |]. rewrite <- Vd.
  etransitivity; [exact Vf |]. etransitivity; [exact Vg | exact Vo].
Qed.

(** Where git cannot say what changed, nobody is asked: the outcome shows no
    diff, which the gate takes for a task that changed nothing, and the attempt
    ends accepted whatever the policy requires. *)
Lemma gate_unasked_without_diff wt results (s s1 s2 : RS) u err :
  review r t wt results (set_out (out_Accepted true (rs_out s)) s) = (Ok u, s1) →
  ext (Checkout.Diff exec wt) s1 = (Err err, s2) → blank (O_Diff (rs_out s1)) = true →
  accepted_attempt r t wt results s = finished t StateAccepted s2.
Proof.
  intros Hr Hd Hb. pose proof Hd as [_ Ho]%ext_ok. unfold accepted_attempt, upd_out, try, gate.
  unfold mbind, M_bind, modify, gets. rewrite Hr, Hd. cbn. rewrite Ho, Hb. by destruct (r_broker r).
Qed.

Lemma refused_attempt_ok scope feedback (s : RS) c o s' : refused_attempt r t scope feedback s = (Ok c, s') → accepts c o → False.
Proof.
  unfold refused_attempt. intros H Ha. destruct (r_broker r); [|apply mret_ok in H as [-> _]; by destruct Ha].
  destruct scope; [apply mret_ok in H as [-> _]; by destruct Ha |].
  apply bind_ok in H as (out & s4 & _ & H). apply bind_ok in H as (g & s5 & _ & H).
  destruct (Broker.Open_ g); [|apply mret_ok in H as [-> _]; by destruct Ha].
  apply bind_ok in H as (? & s6 & _ & H). by eapply finished_other in H.
Qed.

Lemma recordMisses_ok failures (s : RS) u s' :
  recordMisses failures s = (Ok u, s') → same_verdict (rs_out s) (rs_out s').
Proof.
  intros H. eapply (verdict_kept (recordMisses failures)); [|exact H]. unfold recordMisses. kept.
Qed.

Lemma measure_attempt_ok wt resp (s : RS) c o s' :
  measure_attempt r t wt resp s = (Ok c, s') → accepts c o → measured wt resp s o s'.
Proof.
  unfold measure_attempt. intros (? & s1 & Hu & H)%bind_ok Ha. unfold upd_out in Hu. apply modify_ok in Hu as ->.
  apply bind_ok in H as (after & s1 & Hc & H). apply bind_ok in H as (? & s2 & Hu & H). unfold upd_out in Hu. apply modify_ok in Hu as ->.
  destruct (Er_BudgetExhausted resp).
  { apply bind_ok in H as (? & s6 & _ & H). by eapply finished_other in H. }
  apply bind_ok in H as (results & s2 & Hv & H). pose proof Hv as Hall%verify_candidate.
  pose proof Hv as Vv. apply verdict_kept in Vv; [|kept].
  apply bind_ok in H as (? & s3 & Hu & H). unfold upd_out in Hu. apply modify_ok in Hu as ->.
  apply bind_ok in H as (u & s3 & Hm & H). pose proof Hm as Vm%recordMisses_ok.
  unfold judge_attempt in H. apply bind_ok in H as (scope & s4 & Hsc & H). apply bind_ok in H as (changed & s5 & Hch & H). cbv zeta in H.
  pose proof Hsc as [_ Ho4]%ext_ok. pose proof Hch as [_ Ho5]%ext_ok.
  destruct (Accept _ _ _ _ _) as [accepted reasons] eqn:Ea.
  apply bind_ok in H as (? & s6 & Hu & H). unfold upd_out in Hu. apply modify_ok in Hu as ->.
  destruct accepted; [|by eapply refused_attempt_ok in H].
  pose proof (f_equal fst Ea) as Hn%Accept_scope. rewrite Hn in H, Ea.
  assert (Hw : foldl widen scope (Set_Check (r_policies r) changed) = []).
  { destruct (foldl widen _ _) as [|y ys] eqn:El; [done |]. exfalso.
    apply (f_equal length) in Hn. unfold sort_strings in Hn. rewrite length_stable_sort in Hn. discriminate Hn. }
  apply widen_nil in Hw as [-> Hvn]. rewrite Hvn in H.
  destruct (accepted_attempt_ok _ _ _ _ _ _ H Ha) as (v & s6 & diff & s7 & s8 & Hr & Hd & Hg & Hf & (Oa & Oc & Or & Os)).
  destruct Vv as (_ & Vc & _), Vm as (_ & Vmc & Vmr & _). cbn in *.
  exists after, s1, results, s2, u, s3, s4, changed, s5, reasons, v, s6, diff, s7, s8.
  split_and!; try done; congruence.
Qed.

Lemma attempt_once_ok wt n feedback (s : RS) c o s' :
  attempt_once r repoRoot t wt n feedback s = (Ok c, s') → accepts c o → attempt_accepted wt n feedback s o s'.
Proof.
  unfold attempt_once, ctx_err. intros (ce & s1 & [-> ->]%gets_ok & H)%bind_ok Ha. destruct (db_ctx (rs_db s)) eqn:Ec.
  { apply bind_ok in H as (? & s6 & _ & H). by eapply finished_other in H. }
  apply bind_ok in H as (? & s1 & Hu & H). unfold upd_out in Hu. apply modify_ok in Hu as ->.
  apply bind_ok in H as (before & s1 & Hb & H). apply bind_ok in H as (diag & s2 & Hd & H). apply bind_ok in H as (? & s3 & Hu & H).
  assert (s3 = match diag with Some h => set_out (out_Diagnosis (Some h) (rs_out s2)) s2 | None => s2 end) as ->.
  { destruct diag; [unfold upd_out in Hu; by apply modify_ok in Hu | by apply mret_ok in Hu as [_ ->]]. }
  apply bind_ok in H as (used & s3 & [-> ->]%gets_ok & H). cbv zeta in H. destruct (_ && _).
  { apply bind_ok in H as (? & s6 & _ & H). by eapply finished_other in H. }
  apply bind_ok in H as (resp & s4 & Hs & H). exists before, s1, diag, s2, resp, s4. split_and!; [done.. |]. cbv zeta.
  split; [exact Hs | by eapply measure_attempt_ok].
Qed.

Lemma attempts_ok wt total todo : ∀ feedback (s : RS) o s',
  attempts r repoRoot t wt total todo feedback s = (Ok (o, None), s') → Ta_State (O_Task o) = StateAccepted →
  attempts_accepted wt total todo feedback s o s'.
Proof.
  induction todo as [|todo IH]; intros feedback s o s'; cbn [attempts].
  - unfold exhausted. intros H Ha. do 3 apply bind_ok in H as (? & ? & _ & H).
    apply finish_more in H as (_ & _ & He). rewrite He in Ha; done.
  - intros (c & s1 & Hc & H)%bind_ok Ha. destruct c as [fb|o' e'].
    + destruct (IH _ _ _ _ H Ha) as (n & fb' & s2 & Hr & Hm). exists n, fb', s2. split; [|done].
      eapply rtc_l; [|exact Hr]. done.
    + apply mret_ok in H as [[= -> <-] ->]. exists todo, feedback, s. split; [done |]. by eapply attempt_once_ok.
Qed.

(** *** What the attempts keep *)

Lemma keeps_reason P `{!OutOk same_verdict P} text : keeps P (reason (G:=G) text).
Proof. unfold reason. kept. Qed.
Lemma keeps_diagnose P n feedback : keeps P (diagnose (E:=E) r t n feedback).
Proof. unfold diagnose. kept. Qed.
Lemma keeps_step P `{!UpdOk same P} wt n before feedback remaining :
  keeps P (step r repoRoot t wt n before feedback remaining).
Proof. unfold step, step_engine, Complete. kept. apply keeps_engine; [done | kept]. Qed.
Lemma keeps_misses P `{!OutOk same_verdict P} failures : keeps P (recordMisses (G:=G) failures).
Proof. unfold recordMisses. kept. Qed.
Lemma keeps_finished P ok `{!StateOk t ok P, !OutOk task_only P} state : ok state → keeps P (finished (G:=G) t state).
Proof. intros Hok. pose proof (keeps_finish (G:=G) t P ok state Hok). unfold finished. kept. Qed.

Hint Resolve keeps_reason keeps_diagnose keeps_step keeps_misses keeps_review : keeps.

Section attempt_rules.
Context (P : inv) `{!UpdOk any_state P, !OutOk any_out P, !StateOk t any_status P}.

Lemma keeps_finished_any state : keeps P (finished (G:=G) t state).
Proof. by apply (keeps_finished P any_status). Qed.
Hint Resolve keeps_finished_any : keeps.

Lemma keeps_attempt_once wt n feedback : keeps P (attempt_once r repoRoot t wt n feedback).
Proof.
  unfold attempt_once, measure_attempt, judge_attempt, accepted_attempt, refused_attempt, ask, ctx_err, ext_. kept.
Qed.
Lemma keeps_attempts wt total todo : ∀ feedback, keeps P (attempts r repoRoot t wt total todo feedback).
Proof.
  induction todo as [|todo IH]; intros feedback; cbn [attempts].
  - unfold exhausted. pose proof (keeps_finish (G:=G) t P any_status StateFailed I). kept.
  - apply keeps_bind; [apply keeps_attempt_once |]. intros [fb|o e]; [apply IH | kept].
Qed.
End attempt_rules.

(** *** Only the last step of an accepted run records it *)

Section settled.
Context (ts0 : list Task).
Notation TI := (tasks_inv (Ta_ID t) ts0).

(** The run returned normally with the task accepted. *)
Definition settled (x : Outcome * option error) : Prop := x.2 = None ∧ Ta_State (O_Task x.1) = StateAccepted.
Definition settled_attempt (c : attempt_end) : Prop := match c with Done o e => settled (o, e) | Retry _ => False end.

Lemma keeps_finished_un state : unaccepted state → keeps TI (finished (G:=G) t state).
Proof. intros Hs. by apply (keeps_finished TI unaccepted). Qed.
Hint Extern 2 (keeps _ (finished _ _)) => apply keeps_finished_un; discriminate : keeps.

Lemma finished_settles : settles t ts0 settled_attempt (finished (G:=G) t StateAccepted).
Proof.
  unfold finished. eapply settles_then; [apply finish_settles | intros; apply settles_keeps; kept |].
  intros [o e] s b s' He [= <- _]. by eexists.
Qed.

Lemma attempt_once_settles wt n feedback :
  settles t ts0 settled_attempt (attempt_once r repoRoot t wt n feedback).
Proof.
  unfold attempt_once, ctx_err. apply settles_bind; [kept |]. intros [e|]; [apply settles_keeps; kept |].
  do 4 (apply settles_bind; [kept |]; intros ?). apply settles_bind; [kept |]. intros used. cbv zeta.
  destruct (_ && _); [apply settles_keeps; kept |]. apply settles_bind; [kept |]. intros resp.
  unfold measure_attempt. do 3 (apply settles_bind; [kept |]; intros ?).
  destruct (Er_BudgetExhausted resp); [apply settles_keeps; kept |].
  do 3 (apply settles_bind; [kept |]; intros ?). unfold judge_attempt.
  do 2 (apply settles_bind; [kept |]; intros ?). cbv zeta. destruct (Accept _ _ _ _ _) as [acc reasons].
  apply settles_bind; [kept |]. intros _. destruct acc; [|apply settles_keeps; unfold refused_attempt, ask, ext_; kept].
  unfold accepted_attempt. do 6 (apply settles_bind; [kept |]; intros ?).
  destruct (String.eqb _ _); [apply settles_keeps; kept |]. destruct (Broker.Open_ _); [apply settles_keeps; kept |].
  apply finished_settles.
Qed.

Lemma attempts_settles wt total todo : ∀ feedback, settles t ts0 settled (attempts r repoRoot t wt total todo feedback).
Proof.
  induction todo as [|todo IH]; intros feedback; cbn [attempts].
  - apply settles_keeps. unfold exhausted.
    assert (keeps TI (finish (G:=G) t StateFailed)) by (by apply (keeps_finish t TI unaccepted)). kept.
  - eapply settles_then; [apply attempt_once_settles | |].
    + intros [fb|o e]; [apply IH | apply settles_keeps; kept].
    + intros [fb|o e] s b s' Hw; [done |]. intros [= <- _]. by eexists.
Qed.

Lemma run_settles wt : settles t ts0 settled (run r repoRoot t wt).
Proof.
  unfold run. destruct (phased r).
  - intros s a s' Hs H. destruct (runPhases_settles r repoRoot t ts0 wt s a s' Hs H) as [?|(x & -> & ? & _ & ?)]; [by left |].
    right. by exists x.
  - apply settles_bind; [kept |]. intros now. apply settles_deadline. apply settles_bind; [kept |]. intros _.
    apply attempts_settles.
Qed.
End settled.
End runs.

(** ** A run's outcome agrees with the state it records *)

(** The states a run ends in. *)
Definition run_ends : list string := [StateReview; StateAccepted; StateFailed; StateBlocked].

Section agreement.
Context {G : Type} `{E : Env G}.
Context (r : Runner) (repoRoot : string) (t : Task).
Notation RS := (RS G).
Notation RM := (M RS).

(** What a successful computation returns, with the task rows it leaves. *)
Definition yields {A} (Q : A → list Task → Prop) (m : RM A) : Prop :=
  ∀ s a s', m s = (Ok a, s') → Q a (tasks (rs_db s')).

(** Every row of the task holds the state the outcome names. *)
Definition recorded (x : Outcome * option error) (ts : list Task) : Prop :=
  x.2 = None → Ta_State (O_Task x.1) ∈ run_ends ∧
    ∀ row, row ∈ ts → Ta_ID row = Ta_ID t → Ta_State row = Ta_State (O_Task x.1).
Definition agrees (x : Outcome * option error) (ts : list Task) : Prop :=
  recorded x ts ∧ (x.2 = None → Accepted x.1 = String.eqb (Ta_State (O_Task x.1)) StateAccepted).
Definition agrees_ctl (c : ctl) : list Task → Prop := match c with Return o e => agrees (o, e) | Again => λ _, True end.
Definition agrees_round (x : option (Outcome * option error)) : list Task → Prop :=
  match x with Some x => agrees x | None => λ _, True end.
Definition recorded_attempt (c : attempt_end) : list Task → Prop :=
  match c with Done o e => recorded (o, e) | Retry _ => λ _, True end.

Lemma yields_bind {A B} Q (m : RM A) (k : A → RM B) : (∀ a, yields Q (k a)) → yields Q (m ≫= k).
Proof. intros Hk s b s' (a & s1 & _ & H)%bind_ok. by eapply Hk. Qed.
(** Where a returned value goes on, nothing more is done. *)
Lemma yields_then {A B} (P : A → list Task → Prop) Q (m : RM A) (k : A → RM B) :
  yields P m → (∀ a, (∃ b, k a = mret b ∧ ∀ ts, P a ts → Q b ts) ∨ yields Q (k a)) → yields Q (m ≫= k).
Proof.
  intros Hm Hk s b s' (a & s1 & H1 & H)%bind_ok. destruct (Hk a) as [(b' & Ek & HQ)|Hy]; [|by eapply Hy].
  rewrite Ek in H. apply mret_ok in H as [-> ->]. apply HQ. by eapply Hm.
Qed.
Lemma yields_any {A} (Q : A → list Task → Prop) a : (∀ ts, Q a ts) → yields Q (mret a).
Proof. by intros HQ s b s' [= <- _]. Qed.
Lemma yields_throw {A} (Q : A → list Task → Prop) e : yields Q (throw e).
Proof. by intros s b s'. Qed.
Lemma yields_deadline {A} (Q : A → list Task → Prop) d (m : RM A) : yields Q m → yields Q (with_deadline d m).
Proof.
  intros Hm s b s'. unfold with_deadline, limited. destruct (m _) as [a s1] eqn:E1. intros [= -> <-].
  apply Hm in E1. unfold observed. by destruct (observe _) as [[? ?] ?].
Qed.

Lemma finish_recorded state : state ∈ run_ends → yields recorded (finish (G:=G) t state).
Proof.
  intros Hst s [o e] s' H He. cbn in He. subst e. pose proof H as (_ & _ & Ho)%finish_more. cbn. rewrite Ho by done.
  split; [done |]. unfold finish in H. apply bind_ok in H as (out & s1 & [-> ->]%gets_ok & H).
  apply bind_ok in H as (saved & s1 & _ & H). destruct saved as [u|err]; [|by apply mret_ok in H as [[=] _]].
  apply bind_ok in H as (stated & s2 & Hs%try_ok & H).
  destruct stated as [u'|err]; [|by apply mret_ok in H as [[=] _]].
  apply bind_ok in H as (? & s3 & H3 & H). unfold upd_out in H3. apply modify_ok in H3 as ->.
  apply bind_ok in H as (out & s4 & [-> ->]%gets_ok & [_ ->]%mret_ok). cbn.
  unfold dbm in Hs. destruct (SetState _ _ _) as [y d] eqn:Es. injection Hs as -> <-.
  apply SetState_cases in Es as [_ Ht]. cbn. rewrite Ht.
  intros row (z & -> & Hz)%list_elem_of_fmap. destruct (String.eqb_spec (Ta_ID z) (Ta_ID t)); cbn; [done | congruence].
Qed.

Lemma stop_state wt status reason (s : RS) c s' : stop (E:=E) t wt status reason s = (Ok c, s') →
  ∃ o e, c = Return o e ∧ (e = None → Ta_State (O_Task o) = status).
Proof.
  unfold stop. intros H. do 4 apply bind_ok in H as (? & ? & _ & H).
  apply uncancelled_ok in H as (s4 & s5 & _ & _ & H & _). apply bind_ok in H as (saved & s6 & _ & H).
  destruct saved as [u|err].
  - apply bind_ok in H as ([o e] & s7 & (_ & _ & He)%finish_more & [-> _]%mret_ok). by exists o, e.
  - apply bind_ok in H as (o & s7 & _ & [-> _]%mret_ok). by exists o, (Some err).
Qed.

Lemma uncancelled_tasks {A} (m : RM A) s a s' :
  uncancelled m s = (Ok a, s') → ∃ s0 s1, m s0 = (Ok a, s1) ∧ tasks (rs_db s') = tasks (rs_db s1).
Proof. unfold uncancelled. destruct (m _) as [x s1] eqn:Em. intros [= -> <-]. by eexists _, s1. Qed.

Lemma stop_recorded wt status reason : status ∈ run_ends → yields agrees_ctl (stop (E:=E) t wt status reason).
Proof.
  intros Hst s c s' H. pose proof H as (_ & o & e & -> & Ha & _)%stop_ok.
  assert (Hrec : recorded (o, e) (tasks (rs_db s'))).
  { unfold stop in H. do 4 apply bind_ok in H as (? & ? & _ & H).
    apply uncancelled_tasks in H as (s4 & s5 & Em & ->).
    apply bind_ok in Em as (saved & s6 & _ & Em). destruct saved as [u|err].
    - apply bind_ok in Em as (p & s7 & Hf & [[= -> ->] ->]%mret_ok). destruct p as [o2 e2]. by apply (finish_recorded _ Hst) in Hf.
    - apply bind_ok in Em as (o1 & s7 & _ & [[= -> ->] _]%mret_ok). by intros [=]. }
  split; [exact Hrec |]. cbn. intros He. rewrite Ha. f_equal. revert H. intros H.
  apply stop_state in H as (o1 & e1 & [= <- <-] & Hs). by rewrite Hs.
Qed.

Lemma finished_recorded state : state ∈ run_ends → yields recorded_attempt (finished (G:=G) t state).
Proof.
  intros Hst. unfold finished. eapply yields_then; [by apply finish_recorded |]. intros [o e]. left. by eexists.
Qed.

Ltac ending := solve [repeat first [apply list_elem_of_here | apply list_elem_of_further]].
Ltac yielding :=
  repeat first
    [ progress intros
    | simple apply stop_recorded; ending | simple apply finished_recorded; ending | simple apply finish_recorded; ending
    | simple apply @yields_any; intros; exact I | simple apply @yields_throw
    | simple apply @yields_bind
    | match goal with
      | |- yields _ (match ?x with _ => _ end) => destruct x
      | |- yields _ (let _ := _ in _) => cbv zeta
      end ].

Lemma turn_recorded wt : yields agrees_ctl (turn r repoRoot t wt).
Proof.
  unfold turn, phase_step, intake, impact_phase, planning, edit, verify_phase, accepted_change, repair, review_phase,
    finalize, final_approval, final_commit, or_stop.
  yielding.
Qed.

Lemma rounds_recorded wt fuel : yields agrees_round (rounds r repoRoot t wt fuel).
Proof.
  induction fuel as [|fuel IH]; cbn [rounds]; [by apply yields_any |].
  eapply yields_then; [apply turn_recorded |]. intros [|o e]; [by right | left; by eexists].
Qed.

Lemma runPhases_recorded wt : yields agrees (runPhases r repoRoot t wt).
Proof.
  unfold runPhases. destruct (r_model r) as [[]|]; [|apply yields_throw..].
  do 3 (apply yields_bind; intros ?). cbv zeta. apply yields_bind; intros _.
  eapply yields_then; [apply yields_deadline, rounds_recorded |].
  intros [x|]; [left; by eexists | right; apply yields_throw].
Qed.

Lemma attempts_recorded wt total todo : ∀ feedback, yields recorded (attempts r repoRoot t wt total todo feedback).
Proof.
  induction todo as [|todo IH]; intros feedback; cbn [attempts]; [unfold exhausted; yielding |].
  eapply yields_then with (P := recorded_attempt).
  - unfold attempt_once, measure_attempt, judge_attempt, accepted_attempt, refused_attempt. yielding.
  - intros [fb|o e]; [right; apply IH | left; by eexists].
Qed.

Lemma run_recorded wt : yields recorded (run r repoRoot t wt).
Proof.
  unfold run. destruct (phased r).
  - intros s x s' H. by apply runPhases_recorded in H as [? _].
  - apply yields_bind. intros now. apply yields_deadline, yields_bind. intros _. apply attempts_recorded.
Qed.
End agreement.

(** ** The whole run *)

Section whole.
Context {G : Type} `{E : Env G}.
Context (r : Runner) (repoRoot : string).
Notation RS := (RS G).
Notation RM := (M RS).

(** *** Cleaning up does not fail and does not touch the verdict *)

Definition verdict_task (o o' : Outcome) : Prop := same_verdict o o' ∧ O_Task o' = O_Task o.
#[local] Instance verdict_task_preorder : PreOrder verdict_task.
Proof. split; [by split |]. intros o1 o2 o3 [H1 E1] [H2 E2]. split; [by transitivity o2 | congruence]. Qed.

Definition tame {A} (m : RM A) : Prop :=
  ∀ s a s', m s = (a, s') → (∃ u, a = Ok u) ∧ verdict_task (rs_out s) (rs_out s').

Lemma tame_bind {A B} (m : RM A) (k : A → RM B) : tame m → (∀ a, tame (k a)) → tame (m ≫= k).
Proof.
  intros Hm Hk s b s' [(e & He & _)|(a & s1 & H1 & H)]%bind_cases; [by destruct (Hm _ _ _ He) as [[u [=]] _] |].
  destruct (Hm _ _ _ H1) as [_ Hv], (Hk _ _ _ _ H) as [Hb Hv']. split; [done | by transitivity (rs_out s1)].
Qed.
Lemma tame_ret {A} (a : A) : tame (mret a).
Proof. intros s b s' [= <- <-]. split; [by eexists | done]. Qed.
Lemma tame_gets {A} (f : RS → A) : tame (gets f).
Proof. intros s b s' [= <- <-]. split; [by eexists | done]. Qed.
Lemma tame_ext {A} (m : M (fs * G) A) : tame (try (ext m)).
Proof.
  intros s b s'. unfold try. destruct (ext m s) as [x s1] eqn:Ex. intros [= <- <-].
  apply ext_ok in Ex as [_ Ho]. split; [by eexists | by rewrite Ho].
Qed.
Lemma tame_upd_out f : (∀ o, verdict_task o (f o)) → tame (upd_out (G:=G) f).
Proof. intros Hf s b s' [= <- <-]. split; [by eexists | apply Hf]. Qed.

Lemma cleanup_tame t wt : tame (cleanup (E:=E) r t wt).
Proof.
  unfold cleanup. apply tame_bind; [apply tame_gets |]. intros out. cbv zeta. destruct (_ && _); [apply tame_ret |].
  apply tame_bind; [destruct (phased r); [apply tame_ret | apply tame_ext] |]. intros [ok|e]; [|apply tame_ret].
  apply tame_bind; [destruct ok; [apply tame_ret | apply tame_upd_out; intros; by repeat split] |]. intros _.
  destruct (_ || _); [apply tame_ret |]. unfold dispose. apply tame_bind; [apply tame_ext |].
  intros [u|e]; [|apply tame_ret]. apply tame_bind; [apply tame_upd_out; intros; by repeat split |]. intros _.
  apply tame_bind; [apply tame_ext |]. intros _. apply tame_ret.
Qed.

(** *** Why an outcome is accepted *)

(** What stands behind an outcome [o] returned as accepted by the run of [id]
    from [s]: the run's own calls up to its phases or attempts - the guards, the
    checkout, the lease, the baseline, the task's row -, and then the phased
    workflow's evidence where the engine edits and a workflow model is there,
    the completion contract otherwise, on that very checkout. *)
Definition justified (id : string) (s : RS) (t : Task) (o : Outcome) : Prop :=
  ∃ s1 wt0 s2 u s3 verified wt s4 u' s5 u'' s6 o1 s7,
    guards r id s = (Ok t, s1) ∧ checkout_for r repoRoot t s1 = (Ok wt0, s2) ∧
    wrapM ("task " +:+ Ta_ID t +:+ ": ") (dbm (AcquireLease (Checkout.W_ID wt0) (Ta_ID t) (r_holder r) 0)) s2 = (Ok u, s3) ∧
    synced r repoRoot t wt0 s3 = (Ok (verified, wt), s4) ∧
    dbm (SetWorktree (Ta_ID t) (Checkout.W_ID wt)) s4 = (Ok u', s5) ∧ dbm (SetState (Ta_ID t) StateRunning) s5 = (Ok u'', s6) ∧
    run r repoRoot t wt s6 = (Ok (o1, None), s7) ∧ same_verdict o1 o ∧ Accepted o = true ∧
    if phased r then phased_accepted r repoRoot evidenced t wt s6 o1 None s7 else contract_accepted r repoRoot t wt s6 o1 s7.

Lemma run_accepts t wt (s : RS) o s' :
  run r repoRoot t wt s = (Ok (o, None), s') → Ta_State (O_Task o) = StateAccepted → all_earned (task_workflow (rs_db s)) →
  Accepted o = true ∧
  if phased r then phased_accepted r repoRoot evidenced t wt s o None s' else contract_accepted r repoRoot t wt s o s'.
Proof.
  intros H Ht Hw. assert (Hp : phased r = true → Accepted o = true).
  { intros Hp. revert H. unfold run. rewrite Hp. intros H. apply runPhases_recorded in H as [_ Hag].
    specialize (Hag eq_refl). cbn in Hag. by rewrite Hag, Ht. }
  unfold run in H. destruct (phased r).
  - split; [by apply Hp |]. apply runPhases_accepts; [|done | by apply Hp]. right. split; [done |]. intros p st. apply Hw.
  - apply bind_ok in H as (now & s1 & [-> ->]%gets_ok & H). unfold with_deadline in H.
    match type of H with context [?m (limited ?d s)] => destruct (m (limited d s)) as [res s2] eqn:Em end.
    injection H as -> <-. apply bind_ok in Em as (? & s3 & Hu & Em). unfold upd_out in Hu. apply modify_ok in Hu as ->.
    apply attempts_ok in Em; [|done]. split; [|by exists s2].
    destruct Em as (n & fb & s4 & _ & ? & ? & ? & ? & ? & ? & _ & _ & _ & _ & Hm).
    unfold measured in Hm. by decompose [ex and] Hm.
Qed.

(** *** The invariants of a whole run *)

(** The task a run is about, by its id. *)
Definition named (id : string) : Task := mk_task_row id "" "" "" "" "" "" "" "" DefaultBudget 0 0 None.

Lemma keeps_guards id P `{!StateOk (named id) unaccepted P} : keeps P (guards (G:=G) r id).
Proof.
  assert (keeps P (dbm (G:=G) (SetState id StateBlocked)))
    by (by apply (keeps_SetState (named id) P unaccepted)).
  unfold guards. kept.
Qed.

Lemma row_of_Get id d t d' : Get id d = (Ok t, d') → d' = d ∧ find (λ t, String.eqb (Ta_ID t) id) (tasks d) = Some t ∧ Ta_ID t = id.
Proof.
  unfold Get. intros (x & d1 & Hq & H)%bind_ok. unfold query in Hq. destruct (unavailable d); [done |].
  injection Hq as <- <-. destruct (find _ _) as [t'|] eqn:Ef; [|by apply throw_ok in H].
  apply mret_ok in H as [-> ->]. split_and!; [done.. |]. apply find_some in Ef as [_ Ef]. by apply String.eqb_eq.
Qed.

(** What a run that starts has checked. *)
Lemma guards_ok id (s : RS) t s' : guards r id s = (Ok t, s') →
  rs_wf s' = rs_wf s ∧ rs_out s' = rs_out s ∧ rs_world s' = rs_world s ∧ rs_db s' = rs_db s ∧
  find (λ t, String.eqb (Ta_ID t) id) (tasks (rs_db s)) = Some t ∧ Ta_ID t = id ∧ Terminal (Ta_State t) = false ∧
  r_engine r ≠ None ∧ Blockers id (rs_db s) = (Ok [], rs_db s).
Proof.
  unfold guards. intros (t1 & s1 & Hg & H)%bind_ok. unfold dbm in Hg.
  destruct (Get id (rs_db s)) as [x d] eqn:Eg. injection Hg as -> <-.
  apply row_of_Get in Eg as (-> & Hf & Hid). destruct (Terminal _) eqn:Et; [by apply throw_ok in H |].
  destruct (r_engine r) eqn:Ee; [|by apply throw_ok in H].
  apply bind_ok in H as (bl & s2 & Hb & H). unfold dbm in Hb. cbn in Hb.
  destruct (Blockers id (rs_db s)) as [y d2] eqn:Eb. injection Hb as -> <-.
  destruct bl; [|apply bind_ok in H as (? & ? & _ & H); by apply throw_ok in H].
  apply mret_ok in H as [-> ->]. cbn.
  assert (d2 = rs_db s) as ->.
  { unfold Blockers in Eb. apply bind_ok in Eb as (ids & d3 & Hq & Hga). unfold query in Hq.
    destruct (unavailable _); [done |]. injection Hq as <- <-. destruct (Ta_ID <$> _) eqn:El; cbn [get_all] in Hga.
    - by apply mret_ok in Hga as [_ ->].
    - apply bind_ok in Hga as (? & ? & _ & Hga). apply bind_ok in Hga as (? & ? & _ & Hga). by apply mret_ok in Hga as [[=] _]. }
  by split_and!.
Qed.

Section invariants.
Context (t : Task) (P : inv).

Lemma keeps_checkout_for : keeps P (checkout_for (E:=E) r repoRoot t).
Proof. unfold checkout_for. kept. Qed.
Lemma keeps_synced wt : keeps P (synced (E:=E) r repoRoot t wt).
Proof. unfold synced. kept. Qed.
Lemma keeps_cleanup `{!OutOk any_out P} wt : keeps P (cleanup (E:=E) r t wt).
Proof. unfold cleanup, dispose. kept. Qed.
End invariants.

(** A change of the task's row that is not a change of its state. *)
Class RowOk (id : string) (P : inv) := row_keeps ts w s o f :
  (∀ x, Ta_ID (f x) = Ta_ID x ∧ Ta_State (f x) = Ta_State x) → P ts w s o → P (retask id f ts) w s o.

Lemma SetWorktree_cases id wid d a d' : SetWorktree id wid d = (a, d') →
  task_workflow d' = task_workflow d ∧
  ∃ f, (∀ x, Ta_ID (f x) = Ta_ID x ∧ Ta_State (f x) = Ta_State x) ∧
    tasks d' = match a with Ok _ => retask id f (tasks d) | Err _ => tasks d end.
Proof.
  unfold SetWorktree. destruct a as [u|e].
  - intros [_ H]%Tx_ok. apply bind_ok in H as (d1 & d2 & [-> ->]%gets_ok & ->%modify_ok). split; [done |].
    eexists. split; [|reflexivity]. done.
  - intros ->%Tx_err. split; [done |]. by exists (λ x, x).
Qed.

Lemma keeps_SetWorktree id wid P `{!RowOk id P} : keeps P (dbm (G:=G) (SetWorktree id wid)).
Proof.
  intros s a s' Hs. unfold dbm. destruct (SetWorktree _ _ _) as [x d] eqn:Es. intros [= _ <-].
  apply SetWorktree_cases in Es as (Hw & f & Hf & Ht). unfold holds in *. cbn. rewrite Hw, Ht.
  destruct x; [by apply row_keeps | done].
Qed.

Lemma keeps_leased t wt P `{!StateOk t unaccepted P, !RowOk (Ta_ID t) P, !OutOk any_out P} :
  (∀ wt, keeps P (run r repoRoot t wt)) → keeps P (leased r repoRoot t wt).
Proof.
  intros Hrun. pose proof (keeps_SetState (G:=G) t P unaccepted StateRunning ltac:(discriminate)).
  pose proof (keeps_SetWorktree (Ta_ID t) (Checkout.W_ID wt) P). pose proof (keeps_synced t P wt).
  unfold leased. apply keeps_bind; [done |]. intros [verified wt'].
  pose proof (keeps_SetWorktree (Ta_ID t) (Checkout.W_ID wt') P). pose proof (keeps_cleanup t P wt'). kept.
Qed.

Lemma keeps_Run id P `{!StateOk (named id) unaccepted P, !RowOk id P, !OutOk any_out P} :
  (∀ t wt, Ta_ID t = id → keeps P (run r repoRoot t wt)) → keeps P (Run r repoRoot id).
Proof.
  intros Hrun s b s' Hs [(e & He & ->)|(t & s1 & H1 & H)]%bind_cases; [by eapply (keeps_guards id) |].
  assert (Hs1 : holds P s1) by (by eapply (keeps_guards id)). apply guards_ok in H1 as (_ & _ & _ & _ & _ & <- & _).
  revert s1 b s' Hs1 H. match goal with |- ∀ s b s', _ → ?k s = _ → _ => change (keeps P k) end.
  apply keeps_bind; [apply keeps_checkout_for |]. intros wt. apply keeps_bind; [kept |]. intros _.
  apply keeps_bind; [apply keeps_try, keeps_leased; [done..|]; intros; by apply Hrun |]. intros end_. kept.
Qed.

(** *** The three invariants of a run *)

Definition workflows_inv : inv := λ ts w s o, all_earned w.
#[local] Instance workflows_upd : UpdOk any_state workflows_inv.
Proof. by intros ts w s s' o _ H. Qed.
#[local] Instance workflows_out : OutOk any_out workflows_inv.
Proof. by intros ts w s o o' _ H. Qed.
#[local] Instance workflows_state t : StateOk t any_status workflows_inv.
Proof. by intros ts w s o state now _ H. Qed.
#[local] Instance workflows_row id : RowOk id workflows_inv.
Proof. by intros ts w s o f _ H. Qed.

Lemma keeps_run_workflows t wt : keeps workflows_inv (run r repoRoot t wt).
Proof.
  unfold run. destruct (phased r).
  - intros s a s' Hs H. by eapply runPhases_earned.
  - apply keeps_bind; [kept |]. intros now. apply keeps_deadline, keeps_bind; [kept |]. intros _.
    by apply keeps_attempts; typeclasses eauto.
Qed.

(** The rows of the other tasks stay as they are. *)
Definition others_inv (id : string) (ts0 : list Task) : inv := λ ts w s o,
  Forall2 (λ a b, Ta_ID b = Ta_ID a ∧ (Ta_ID a ≠ id → b = a)) ts0 ts.
#[local] Instance others_upd id ts0 : UpdOk any_state (others_inv id ts0).
Proof. by intros ts w s s' o _ H. Qed.
#[local] Instance others_out id ts0 : OutOk any_out (others_inv id ts0).
Proof. by intros ts w s o o' _ H. Qed.
#[local] Instance others_save t id ts0 : SaveOk t (others_inv id ts0).
Proof. by intros ts w s o H. Qed.
#[local] Instance others_move t id ts0 : MoveAll t (others_inv id ts0).
Proof. by intros next ts w s o H. Qed.
#[local] Instance others_row id ts0 : RowOk id (others_inv id ts0).
Proof.
  intros ts w s o f Hf H. eapply retask_Forall2; [exact H |]. cbn. intros a b (Hid & Ho).
  destruct (String.eqb_spec (Ta_ID b) id) as [Hb|Hb]; [|done]. rewrite (proj1 (Hf b)). split; [done | congruence].
Qed.
Lemma others_state t id ts0 : Ta_ID t = id → StateOk t any_status (others_inv id ts0).
Proof.
  intros <- ts w s o state now _ H. eapply retask_Forall2; [exact H |]. cbn. intros a b (Hid & Ho).
  destruct (String.eqb_spec (Ta_ID b) (Ta_ID t)) as [Hb|Hb]; [|done]. cbn. split; [done | congruence].
Qed.

Lemma keeps_run_others t wt ts0 : keeps (others_inv (Ta_ID t) ts0) (run r repoRoot t wt).
Proof.
  pose proof (others_state t (Ta_ID t) ts0 eq_refl). unfold run. destruct (phased r).
  - by apply keeps_runPhases; typeclasses eauto.
  - apply keeps_bind; [kept |]. intros now. apply keeps_deadline, keeps_bind; [kept |]. intros _.
    by apply keeps_attempts; typeclasses eauto.
Qed.

Lemma Run_workflows id (s : RS) res s' :
  Run r repoRoot id s = (res, s') → all_earned (task_workflow (rs_db s)) → all_earned (task_workflow (rs_db s')).
Proof.
  intros H Hs. refine (keeps_Run id workflows_inv _ s res s' Hs H). intros t wt _. apply keeps_run_workflows.
Qed.

Lemma Run_others id (s : RS) res s' : Run r repoRoot id s = (res, s') →
  Forall2 (λ a b, Ta_ID b = Ta_ID a ∧ (Ta_ID a ≠ id → b = a)) (tasks (rs_db s)) (tasks (rs_db s')).
Proof.
  intros H. pose proof (others_state (named id) id (tasks (rs_db s)) eq_refl).
  refine (keeps_Run id (others_inv id (tasks (rs_db s))) _ s res s' _ H).
  - intros t wt <-. apply keeps_run_others.
  - unfold holds, others_inv. apply Forall_Forall2_diag, Forall_true. done.
Qed.

(** *** A run records an acceptance only by returning it *)

#[local] Instance tasks_row id ts0 : RowOk id (tasks_inv id ts0).
Proof.
  intros ts w s o f Hf H. eapply retask_Forall2; [exact H |]. cbn. intros a b (Hid & Ho & Hm).
  destruct (String.eqb_spec (Ta_ID b) id) as [Hb|Hb]; [|done]. destruct (Hf b) as [-> ->]. split_and!; [done | congruence | done].
Qed.

Lemma leased_settles t wt ts0 : settles t ts0 settled (leased r repoRoot t wt).
Proof.
  assert (Hst : keeps (tasks_inv (Ta_ID t) ts0) (dbm (G:=G) (SetState (Ta_ID t) StateRunning)))
    by (by apply (keeps_SetState t _ unaccepted)).
  unfold leased. apply settles_bind; [apply keeps_synced |]. intros [verified wt'].
  apply settles_bind; [apply keeps_SetWorktree, _ |]. intros _. apply settles_bind; [done |]. intros _.
  eapply settles_then; [apply run_settles | |].
  - intros [o e]. apply settles_keeps. pose proof (keeps_cleanup t (tasks_inv (Ta_ID t) ts0) wt'). kept.
  - intros [o e] s b s' [He Ho] H. cbn in He, Ho. subst e.
    apply bind_cases in H as [(? & [=] & _)|(? & s1 & Hu & H)]. unfold upd_out in Hu. apply modify_ok in Hu as ->.
    apply bind_cases in H as [(e & Hc & ->)|(? & s2 & Hc & H)]; apply cleanup_tame in Hc as [[u Hu] [_ Hv]]; [done |].
    injection H as <- _. eexists. split; [done |]. split; [done |]. cbn. by rewrite Hv.
Qed.

Lemma Run_settles id (s : RS) res s' : Run r repoRoot id s = (res, s') →
  holds (tasks_inv id (tasks (rs_db s))) s' ∨ ∃ o, res = Ok (o, None) ∧ Ta_State (O_Task o) = StateAccepted.
Proof.
  set (ts0 := tasks (rs_db s)). intros H.
  assert (Hs : holds (tasks_inv id ts0) s) by (apply Forall_Forall2_diag, Forall_true; done).
  pose proof (tasks_state (named id) ts0 : StateOk (named id) unaccepted (tasks_inv id ts0)).
  apply bind_cases in H as [(e & He & ->)|(t & s1 & H1 & H)]; [left; by eapply (keeps_guards id (tasks_inv id ts0)) |].
  assert (Hs1 : holds (tasks_inv id ts0) s1) by (by eapply (keeps_guards id (tasks_inv id ts0))).
  apply guards_ok in H1 as (_ & _ & _ & _ & _ & <- & _).
  enough (Hset : settles t ts0 settled (wt ← checkout_for r repoRoot t;
     _ ← wrapM ("task " +:+ Ta_ID t +:+ ": ") (dbm (AcquireLease (Checkout.W_ID wt) (Ta_ID t) (r_holder r) 0));
     end_ ← try (leased r repoRoot t wt);
     _ ← try (dbm (ReleaseLease (Checkout.W_ID wt) (r_holder r))); lift end_)).
  { destruct (Hset s1 res s' Hs1 H) as [?|([o e] & -> & He & Ho)]; [by left |]. cbn in He, Ho. subst e. right. by exists o. }
  apply settles_bind; [apply keeps_checkout_for |]. intros wt. apply settles_bind; [kept |]. intros _.
  apply (settles_then t ts0 (λ x, ∃ y, x = Ok y ∧ settled y)).
  - intros s2 b s3 Hs2 Ht. unfold try in Ht. destruct (leased r repoRoot t wt s2) as [x s4] eqn:El. injection Ht as <- <-.
    destruct (leased_settles t wt ts0 s2 x s4 Hs2 El) as [?|(y & -> & Hy)]; [by left | right]. eexists. split; [done |].
    by exists y.
  - intros end_. apply settles_keeps. kept.
  - intros end_ s2 b s3 (y & -> & Hy) Ht. apply bind_cases in Ht as [(e & He & _)|(? & s4 & _ & Ht)].
    + unfold try in He. by destruct (dbm _ s2).
    + injection Ht as <- _. by exists y.
Qed.

(** What a run that returns normally with the task accepted rests on. *)
Lemma Run_justified id (s : RS) o s' :
  Run r repoRoot id s = (Ok (o, None), s') → Ta_State (O_Task o) = StateAccepted → all_earned (task_workflow (rs_db s)) →
  ∃ t, find (λ t, String.eqb (Ta_ID t) id) (tasks (rs_db s)) = Some t ∧ justified id s t o.
Proof.
  unfold Run. intros (t & s1 & Hg & H)%bind_ok Ha Hw. exists t.
  pose proof Hg as (_ & _ & _ & Hdb & Hf & _)%guards_ok. split; [done |].
  assert (Hw1 : holds workflows_inv s1) by (unfold holds; rewrite Hdb; exact Hw).
  apply bind_ok in H as (wt & s2 & Hc & H). pose proof (keeps_checkout_for t workflows_inv _ _ _ Hw1 Hc) as Hw2.
  apply bind_ok in H as (u & s3 & Hl & H).
  assert (Hw3 : holds workflows_inv s3) by (eapply (keeps_wrapM workflows_inv); [|exact Hw2 | exact Hl]; kept).
  apply bind_ok in H as (end_ & s4 & He%try_ok & H). apply bind_ok in H as (? & s5 & _ & H). apply lift_ok in H as [-> _].
  unfold leased in He. apply bind_ok in He as ([verified wt'] & s6 & Hsy & He).
  pose proof (keeps_synced t workflows_inv _ _ _ _ Hw3 Hsy) as Hw4.
  apply bind_ok in He as (u' & s7 & Hsw & He). pose proof (keeps_SetWorktree _ _ workflows_inv _ _ _ Hw4 Hsw) as Hw5.
  apply bind_ok in He as (u'' & s8 & Hst & He).
  assert (Hw6 : holds workflows_inv s8) by (by eapply (keeps_SetState t workflows_inv any_status)).
  apply bind_ok in He as ([o1 e] & s9 & Hr & He). apply bind_ok in He as (? & s10 & Hu & He).
  unfold upd_out in Hu. apply modify_ok in Hu as ->. apply bind_ok in He as (? & s11 & Hcl & He).
  apply cleanup_tame in Hcl as [_ [Hv Ht]]. apply bind_ok in He as (o2 & s12 & [-> ->]%gets_ok & [[= -> <-] _]%mret_ok).
  rewrite Ht in Ha. cbn in Ha. destruct (run_accepts t wt' s8 o1 s9 Hr Ha Hw6) as [Hacc Hj].
  assert (Hv' : same_verdict o1 (rs_out s11)) by (etransitivity; [|exact Hv]; by repeat split).
  exists s1, wt, s2, u, s3, verified, wt', s6, u', s7, u'', s8, o1, s9.
  split_and!; try done. by destruct Hv' as [-> _].
Qed.

(** *** What a run returns is what it records *)

Definition rows_are (ts0 : list Task) : inv := λ ts w s o, ts = ts0.
#[local] Instance rows_upd ts0 : UpdOk any_state (rows_are ts0).
Proof. by intros ts w s s' o _ H. Qed.
#[local] Instance rows_out ts0 : OutOk any_out (rows_are ts0).
Proof. by intros ts w s o o' _ H. Qed.

Lemma leased_recorded t wt (s : RS) o s' :
  leased r repoRoot t wt s = (Ok (o, None), s') → recorded t (o, None) (tasks (rs_db s')).
Proof.
  unfold leased. intros ([verified wt'] & s1 & _ & H)%bind_ok. do 2 apply bind_ok in H as (? & ? & _ & H).
  apply bind_ok in H as ([o1 e] & s9 & Hr%run_recorded & H). apply bind_ok in H as (? & s10 & Hu & H).
  unfold upd_out in Hu. apply modify_ok in Hu as ->. apply bind_ok in H as (? & s11 & Hcl & H).
  pose proof Hcl as [_ [_ Ht]]%cleanup_tame.
  apply (keeps_cleanup t (rows_are (tasks (rs_db s9)))) in Hcl; [|done]. red in Hcl. cbn in Hcl.
  apply bind_ok in H as (o2 & s12 & [-> ->]%gets_ok & [[= -> <-] ->]%mret_ok).
  unfold recorded in *. cbn in *. rewrite Hcl, Ht. exact Hr.
Qed.

Lemma Run_recorded id (s : RS) o s' : Run r repoRoot id s = (Ok (o, None), s') →
  Ta_State (O_Task o) ∈ run_ends ∧ ∀ row, row ∈ tasks (rs_db s') → Ta_ID row = id → Ta_State row = Ta_State (O_Task o).
Proof.
  unfold Run. intros (t & s1 & Hg & H)%bind_ok. apply guards_ok in Hg as (_ & _ & _ & _ & _ & <- & _).
  apply bind_ok in H as (wt & s2 & _ & H). apply bind_ok in H as (? & s3 & _ & H).
  apply bind_ok in H as (end_ & s4 & Hl%try_ok & H). apply bind_ok in H as (? & s5 & Hrel & H).
  apply lift_ok in H as [-> ->]. apply leased_recorded in Hl.
  apply (keeps_try (rows_are (tasks (rs_db s4)))) in Hrel; [|kept|done]. red in Hrel. rewrite Hrel. by apply Hl.
Qed.
End whole.
