(* ===== verification/System.v ===== *)
(** The system as a whole: runs of tasks, supervised tasks being finished,
    tasks being created and reopened, people answering gates, restarts.  Over
    any history of these steps a task becomes accepted only on evidence. *)
From S2P Require Import Memory Retrieval Checkout Broker Lifecycle.
From S2P Require Import Prelude GoStrings GoPath GoRegexp Policy Worktree Firewall Recipe Summarize Contract Graph.
From S2P Require Import Trust ContextPack Workflow Json Ledger Recover Tasks Engine Runner Misses Phases Supervise PhaseLoop Invariants.
From S2P Require Import Acceptance Runs.

Open Scope string_scope.
Open Scope list_scope.
Open Scope nat_scope.

(** A row of the task says accepted. *)
Definition accepted_in (ts : list Task) (id : string) : Prop :=
  ∃ row, row ∈ ts ∧ Ta_ID row = id ∧ Ta_State row = StateAccepted.

Lemma Forall2_elem_r {A B} (R : A → B → Prop) l k y : Forall2 R l k → y ∈ k → ∃ x, x ∈ l ∧ R x y.
Proof.
  induction 1 as [|a b l k Hab _ IH]; [by intros ?%not_elem_of_nil |]. intros [->|Hy]%elem_of_cons; [exists a | destruct (IH Hy) as (x & ? & ?); exists x].
  - split; [constructor | done].
  - split; [by constructor | done].
Qed.

(** *** The operators' calls *)

(** No task becomes accepted, and the stored workflows are as they were. *)
Definition no_gain (d d' : Db State) : Prop :=
  task_workflow d' = task_workflow d ∧ ∀ id, accepted_in (tasks d') id → accepted_in (tasks d) id.
Definition gainless {A} (m : M (Db State) A) : Prop := ∀ d a d', m d = (a, d') → no_gain d d'.

#[export] Instance no_gain_preorder : PreOrder no_gain.
Proof. split; [by split |]. intros d1 d2 d3 [? ?] [? ?]. split; [congruence | auto]. Qed.

Lemma quiet_no_gain (d d' : Db State) : quiet d d' → no_gain d d'.
Proof. intros [Ht Hw]. split; [done |]. by rewrite Ht. Qed.
Lemma gainless_leaves {A} (m : M (Db State) A) : leaves m → gainless m.
Proof. intros Hm d a d' H. by eapply quiet_no_gain, Hm. Qed.
Lemma gainless_bind {A B} (m : M (Db State) A) (k : A → M (Db State) B) :
  gainless m → (∀ a, gainless (k a)) → gainless (m ≫= k).
Proof.
  intros Hm Hk d b d'. unfold mbind, M_bind. destruct (m d) as [[a|e] d1] eqn:E1.
  - intros H. transitivity d1; [by eapply Hm | by eapply Hk].
  - intros [= _ <-]. by eapply Hm.
Qed.

Lemma gainless_SetState id state : unaccepted state → gainless (SetState id state).
Proof.
  intros Hs d a d' [Hw Ht]%SetState_cases. split; [done |]. rewrite Ht. destruct a; [|done].
  intros id' (row & (x & -> & Hx)%list_elem_of_fmap & Hid & Ha).
  destruct (String.eqb_spec (Ta_ID x) id); [by apply Hs in Ha | by exists x].
Qed.

Lemma gainless_Create ws t : Ta_State t = "" → gainless (Create ws t).
Proof.
  intros Hs d a d' H. destruct a as [[]|e].
  - assert (Hw : task_workflow d' = task_workflow d).
    { unfold Create in H. destruct (String.eqb (Ta_ID t) ""); [done |]. apply Tx_ok in H as [_ H].
      apply bind_ok in H as (x & d1 & [-> ->]%gets_ok & H).
      repeat (apply bind_ok in H as ([] & ? & [_ ->]%lift_ok & H)). by apply modify_ok in H as ->. }
    apply Create_ok in H as (_ & Ht & _ & _). split; [done |]. rewrite Ht.
    intros id (row & [Hr|Hr%list_elem_of_singleton]%elem_of_app & Hid & Ha); [by exists row |]. subst row. cbn in Ha.
    by rewrite Hs in Ha.
  - unfold Create in H. destruct (String.eqb (Ta_ID t) ""); [by injection H as _ <- |]. by apply Tx_err in H as ->.
Qed.

Lemma gainless_Reopen id : gainless (Reopen id).
Proof.
  unfold Reopen. apply gainless_bind; [apply gainless_leaves; leaving |]. intros t.
  destruct (String.eqb _ _); [apply gainless_leaves; leaving |]. destruct (negb _); [apply gainless_leaves; leaving |].
  apply gainless_bind; [by apply gainless_SetState |]. intros _. apply gainless_leaves. leaving.
Qed.

Lemma gainless_Materialise ws plan parent suffixes : gainless (Materialise ws plan parent suffixes).
Proof.
  unfold Materialise. apply gainless_bind; [apply gainless_leaves; leaving |]. intros _.
  generalize ([] : list string). induction (PlanSteps plan) as [|s steps IH]; intros ids; cbn [materialise_steps].
  - apply gainless_leaves. leaving.
  - apply gainless_bind; [apply gainless_leaves; leaving |]. intros now. cbv zeta.
    apply gainless_bind; [by apply gainless_Create |]. intros _. apply gainless_bind.
    { apply gainless_leaves. induction (DependsOn s); cbn [add_deps]; leaving. }
    intros _. apply gainless_bind; [apply IH |]. intros ts. apply gainless_leaves. leaving.
Qed.

(** Finishing a supervised task: nothing changes, or it closes on the record. *)
Lemma FinishTask_step show_time id status loaded d a d' : FinishTask show_time id status loaded d = (a, d') →
  task_workflow d' = task_workflow d ∧
  (tasks d' = tasks d ∨ ∃ verified, LastVerification id d = (Ok verified, d) ∧ tasks d' = stated id (closing_state verified) d).
Proof.
  destruct a as [[rev e]|e].
  - intros (t & ds & verified & _ & _ & Hv & _ & [[Ht _]|[Ht _]] & Hw & _)%FinishTask_parts; (split; [done |]); [by left | right].
    by exists verified.
  - intros H. enough (quiet d d') as [? ?] by (split; [done | by left]). revert H. unfold FinishTask.
    assert (Hd : leaves (Lifecycle.Decisions id)) by (unfold Lifecycle.Decisions, Operations; leaving).
    assert (Hl : leaves (LastVerification id)) by (unfold LastVerification, Operations; leaving).
    unfold mbind, M_bind, gets, try. destruct (Get id d) as [[t|e1] d1] eqn:Eg; [|intros [= _ <-]; by eapply leaves_Get].
    apply leaves_Get in Eg. destruct (Lifecycle.Decisions id d1) as [[ds|e1] d2] eqn:Ed; [|intros [= _ <-]; etransitivity; [exact Eg | by eapply Hd]].
    apply Hd in Ed. destruct (LastVerification id d2) as [[v|e1] d3] eqn:El;
      [|intros [= _ <-]; etransitivity; [exact Eg |]; etransitivity; [exact Ed | by eapply Hl]].
    destruct (RecordEvent _ _ _ d3) as [[u|e2] d4]; [|done]. by destruct (SetState _ _ _).
Qed.

Section system.
Context {G : Type} `{E : Env G}.
Context (repoRoot ws : string) (show_time : Z → string).
Notation RS := (RS G).

(** ** The steps of the system *)

Inductive event :=
| EvRun (r : Runner) (id : string) (res : result (Outcome * option error))
| EvFinish (id : string)
| EvOther.

(** One step.  A run may be of any configuration and may end in any way; the
    last rule is everything that leaves the two tables alone: gates asked and
    answered, leases, evidence, recovery, time, the rest of the world, and a
    restart, which loses what the process held. *)
Inductive step : event → RS → RS → Prop :=
| step_run r id s res s' : Run r repoRoot id s = (res, s') → step (EvRun r id res) s s'
| step_finish id status loaded s a s' :
    dbm (FinishTask show_time id status loaded) s = (a, s') → step (EvFinish id) s s'
| step_create t s a s' : Ta_State t = "" → dbm (Create ws t) s = (a, s') → step EvOther s s'
| step_materialise plan parent suffixes s a s' : dbm (Materialise ws plan parent suffixes) s = (a, s') → step EvOther s s'
| step_reopen id s a s' : dbm (Reopen id) s = (a, s') → step EvOther s s'
| step_other s s' : quiet (rs_db s) (rs_db s') → step EvOther s s'.

Definition moves (s s' : RS) : Prop := ∃ ev, step ev s s'.

(** A new workspace. *)
Definition fresh (s : RS) : Prop := tasks (rs_db s) = [] ∧ task_workflow (rs_db s) = ∅.

Lemma dbm_gainless {A} (m : M (Db State) A) (s : RS) a s' : gainless m → dbm m s = (a, s') → no_gain (rs_db s) (rs_db s').
Proof. intros Hm. unfold dbm. destruct (m (rs_db s)) as [x d] eqn:Em. intros [= _ <-]. by apply Hm in Em. Qed.

Lemma step_earned ev (s s' : RS) : step ev s s' → all_earned (task_workflow (rs_db s)) → all_earned (task_workflow (rs_db s')).
Proof.
  intros [r id ? res ? H|id status loaded ? a ? H|t ? a ? Ht H|plan parent suffixes ? a ? H|id ? a ? H|? ? [_ ->]] Hs; try done.
  - by eapply Run_workflows.
  - unfold dbm in H. destruct (FinishTask _ _ _ _ _) as [x d] eqn:Ef. injection H as _ <-.
    apply FinishTask_step in Ef as [Hw _]. cbn. by rewrite Hw.
  - eapply dbm_gainless in H as [-> _]; [done | by apply gainless_Create].
  - eapply dbm_gainless in H as [-> _]; [done | apply gainless_Materialise].
  - eapply dbm_gainless in H as [-> _]; [done | apply gainless_Reopen].
Qed.

Lemma reachable_earned (s0 s : RS) : fresh s0 → rtc moves s0 s → all_earned (task_workflow (rs_db s)).
Proof.
  intros [_ Hw] Hr. assert (H0 : all_earned (task_workflow (rs_db s0))) by (rewrite Hw; intros id p st; by rewrite lookup_empty).
  clear Hw. induction Hr as [|s1 s2 s3 [ev H] Hr IH]; [done |]. by eapply IH, step_earned.
Qed.

(** C2: Every stored workflow has earned its phase.  In every state the system can
    reach - whatever is run, interrupted, retried, restarted or decided, and
    wherever a run fails - a workflow stored at REVIEW or FINALIZE holds results
    in which every frozen check passed and nothing failed, all on one content,
    and one stored at FINALIZE holds a review that accepted. *)
Theorem stored_workflows_earned (s0 s : RS) id p st :
  fresh s0 → rtc moves s0 s → task_workflow (rs_db s) !! id = Some (p, st) →
  (S_Phase st = Review ∨ S_Phase st = Finalize → passed st) ∧
  (S_Phase st = Finalize → ∃ v, S_Verdict st = Some v ∧ V_Accept v = true).
Proof. intros Hf Hr H. exact (reachable_earned s0 s Hf Hr id p st H). Qed.

(** C1: A task becomes accepted only on evidence.  In any history, the step in
    which its row first says accepted is a run of that task that returned an
    accepted outcome, or the closing of a supervised task the last verification
    in whose journal accepted; no failure, restart, other task or human decision
    alone does it.  The run itself came, from the state it began in and each
    call from the state before, by its guards, checkout and lease, and then:
    phased, by a workflow state whose frozen checks passed and whose review
    accepted - the turn before, unless resumed in FINALIZE, showed the
    reviewer this checkout's diff -, the gate asked about the diff just taken
    and not refusing or waiting (a stored approval of this content where the
    policy requires one and the diff shows a change), the candidate unchanged,
    the commit; otherwise, by an attempt verified on one candidate, nothing out
    of scope, the contract accepting, and the same gate. *)
Theorem accepted_only_on_evidence (s0 s s' : RS) ev id :
  fresh s0 → rtc moves s0 s → step ev s s' →
  accepted_in (tasks (rs_db s')) id → ¬ accepted_in (tasks (rs_db s)) id →
  (∃ r o t, ev = EvRun r id (Ok (o, None)) ∧ row_of id (rs_db s) = Some t ∧ justified r repoRoot id s t o) ∨
  (ev = EvFinish id ∧ ∃ l v, journal_of id (rs_db s) l ∧ latest_in l (Some v) ∧ Vr_Accepted v = true).
Proof.
  intros Hf Hr Hstep Hacc Hno. pose proof (reachable_earned s0 s Hf Hr) as He.
  destruct Hstep as [r id' s res s' H|id' status loaded s a s' H|t s a s' Ht H|plan parent suffixes s a s' H|id' s a s' H|s s' [Hq _]].
  - left. destruct Hacc as (row & Hrow & Hid & Ha). destruct (String.eqb_spec id' id) as [->|Hne].
    + destruct (Run_settles r repoRoot id s res s' H) as [Hs|(o & -> & Ho)].
      * exfalso. apply Hno. destruct (Forall2_elem_r _ _ _ _ Hs Hrow) as (x & Hx & Hxid & _ & Hxa).
        exists x. split_and!; [done | congruence | auto].
      * destruct (Run_justified r repoRoot id s o s' H Ho He) as (t & Ht & Hj). by exists r, o, t.
    + exfalso. apply Hno. apply Run_others in H. destruct (Forall2_elem_r _ _ _ _ H Hrow) as (x & Hx & Hxid & Hxo).
      assert (row = x) as -> by (apply Hxo; congruence). by exists x.
  - right. unfold dbm in H. destruct (FinishTask _ _ _ _ _) as [x d] eqn:Ef. injection H as _ <-. cbn in Hacc.
    apply FinishTask_step in Ef as [_ [Ht|(v & Hv & Ht)]]; rewrite Ht in Hacc; [done |].
    destruct Hacc as (row & (y & -> & Hy)%list_elem_of_fmap & Hid & Ha).
    destruct (String.eqb_spec (Ta_ID y) id') as [E1|]; [|exfalso; apply Hno; by exists y]. cbn in Hid, Ha.
    assert (id' = id) as -> by congruence. split; [done |]. unfold closing_state, accepting in Ha.
    destruct v as [v|]; [|done]. destruct (Vr_Accepted v) eqn:Ev; [|done].
    apply LastVerification_latest in Hv as (_ & l & Hl & Hlast). by exists l, v.
  - exfalso. apply Hno. eapply dbm_gainless in H as [_ H]; [by apply H | by apply gainless_Create].
  - exfalso. apply Hno. eapply dbm_gainless in H as [_ H]; [by apply H | apply gainless_Materialise].
  - exfalso. apply Hno. eapply dbm_gainless in H as [_ H]; [by apply H | apply gainless_Reopen].
  - exfalso. apply Hno. by rewrite <- Hq.
Qed.
End system.

(** ** What one run does *)

Section one_run.
Context {G : Type} `{E : Env G}.
Context (r : Runner) (repoRoot : string).
Notation RS := (RS G).

(** The contract of a run with the task table: the rows of the other tasks are
    as they were; a run that returns normally names the state it left, one of
    the four a run ends in; and the table says accepted only if it did before
    or the run says so. *)
Definition run_contract (id : string) (ts : list Task) (res : result (Outcome * option error)) (ts' : list Task) : Prop :=
  Forall2 (λ a b, Ta_ID b = Ta_ID a ∧ (Ta_ID a ≠ id → b = a)) ts ts' ∧
  (∀ o, res = Ok (o, None) → Ta_State (O_Task o) ∈ run_ends ∧
     ∀ row, row ∈ ts' → Ta_ID row = id → Ta_State row = Ta_State (O_Task o)) ∧
  (accepted_in ts' id → accepted_in ts id ∨ ∃ o, res = Ok (o, None) ∧ Ta_State (O_Task o) = StateAccepted).

(** C3: A run refines the contract the task table relies on.  Its hundreds of
    calls - the phases, the attempts, the gates, the journal, each of which may
    fail - leave every other task's row alone, the returned outcome names
    exactly the state recorded for the task, and a failed or interrupted run
    never leaves it accepted. *)
Theorem Run_refines_contract id (s s' : RS) res :
  Run r repoRoot id s = (res, s') → run_contract id (tasks (rs_db s)) res (tasks (rs_db s')).
Proof.
  intros H. split; [by eapply Run_others |]. split.
  - intros o ->. by eapply Run_recorded.
  - intros (row & Hrow & Hid & Ha). destruct (Run_settles r repoRoot id s res s' H) as [Hs|?]; [left | by right].
    destruct (Forall2_elem_r _ _ _ _ Hs Hrow) as (x & Hx & Hxid & _ & Hxa). exists x. split_and!; [done | congruence | auto].
Qed.

Lemma guards_world id (s : RS) a s' : guards r id s = (a, s') → rs_world s' = rs_world s.
Proof.
  assert (Hd : ∀ A (m : M (Db State) A) (s : RS) a s', dbm m s = (a, s') → rs_world s' = rs_world s).
  { intros A m s0 a0 s0'. unfold dbm. destruct (m _). by intros [= _ <-]. }
  unfold guards. intros [(e & He & _)|(t & s1 & H1%Hd & H)]%bind_cases; [by eapply Hd |]. rewrite <- H1. clear H1.
  destruct (Terminal _); [by injection H as _ <- |]. destruct (r_engine r); [|by injection H as _ <-].
  apply bind_cases in H as [(e & He%Hd & _)|(bl & s2 & Hb%Hd & H)]; [done |]. rewrite <- Hb.
  destruct bl; [by injection H as _ <- |].
  apply bind_cases in H as [(e & He%Hd & _)|(u & s3 & Hs%Hd & H)]; [done |]. injection H as _ <-. congruence.
Qed.

Lemma no_blockers id (d : Db State) : Blockers id d = (Ok [], d) →
  ∀ dep row, (id, dep) ∈ task_deps d → find (λ t, String.eqb (Ta_ID t) dep && negb (String.eqb (Ta_State t) StateAccepted)) (tasks d) = Some row → False.
Proof.
  unfold Blockers. intros (ids & d1 & Hq & H)%bind_ok dep row Hdep Hf. unfold query in Hq.
  destruct (unavailable d); [done |]. injection Hq as <- <-.
  destruct (Ta_ID <$> _) as [|i l] eqn:El.
  - apply (f_equal length) in El. rewrite length_fmap, length_stable_sort in El. cbn in El.
    assert (Hin : row ∈ omap (λ dp : string * string, find (λ t, String.eqb (Ta_ID t) dp.2 && negb (String.eqb (Ta_State t) StateAccepted)) (tasks d))
                    (filter (λ dp : string * string, dp.1 = id) (task_deps d))).
    { apply list_elem_of_omap. exists (id, dep). split; [|done]. by apply list_elem_of_filter. }
    destruct (omap _ _); [by apply not_elem_of_nil in Hin | done].
  - cbn [get_all] in H. apply bind_ok in H as (? & ? & _ & H). apply bind_ok in H as (? & ? & _ & H).
    by apply mret_ok in H as [[=] _].
Qed.

(** What a task needs before it may be run. *)
Definition may_run (id : string) (d : Db State) : Prop :=
  ∃ t, row_of id d = Some t ∧ Ta_State t ∉ [StateAccepted; StateFailed; StateAbandoned] ∧ r_engine r ≠ None ∧
    ∀ dep row, (id, dep) ∈ task_deps d → row ∈ tasks d → Ta_ID row = dep → Ta_State row = StateAccepted.

(** How a task that may not be run is turned away: an error, and nothing outside
    the ledger touched; the ledger is as it was, or the task, which depends on
    one that is not accepted, is now recorded as blocked. *)
Definition turned_away (id : string) (s : RS) (res : result (Outcome * option error)) (s' : RS) : Prop :=
  (∃ e, res = Err e) ∧ rs_world s' = rs_world s ∧
  (rs_db s' = rs_db s ∨
   (∃ dep row, (id, dep) ∈ task_deps (rs_db s) ∧ row ∈ tasks (rs_db s) ∧ Ta_ID row = dep ∧ Ta_State row ≠ StateAccepted) ∧
   SetState id StateBlocked (rs_db s) = (Ok tt, rs_db s')).

Lemma Get_keeps_db id (d : Db State) a d' : Get id d = (a, d') → d' = d.
Proof.
  unfold Get, query. unfold mbind, M_bind. destruct (unavailable d); [by intros [= _ <-] |].
  destruct (find _ _); by intros [= _ <-].
Qed.
Lemma get_all_same ids : ∀ (d : Db State) a d', get_all ids d = (a, d') → d' = d.
Proof.
  induction ids as [|i ids IH]; intros d a d'; cbn [get_all]; [by intros [= _ <-] |].
  unfold mbind, M_bind. destruct (Get i d) as [[t|e] d1] eqn:Eg; apply Get_keeps_db in Eg as ->; [|by intros [= _ <-]].
  destruct (get_all ids d) as [[ts|e] d2] eqn:Ea; apply IH in Ea as ->; by intros [= _ <-].
Qed.
Lemma Blockers_same id (d : Db State) a d' : Blockers id d = (a, d') → d' = d.
Proof.
  unfold Blockers, query, mbind, M_bind. destruct (unavailable d); [by intros [= _ <-] | apply get_all_same].
Qed.

(** A blocker is a dependency that is not accepted. *)
Lemma some_blocker id (d : Db State) b l d' : Blockers id d = (Ok (b :: l), d') →
  ∃ dep row, (id, dep) ∈ task_deps d ∧ row ∈ tasks d ∧ Ta_ID row = dep ∧ Ta_State row ≠ StateAccepted.
Proof.
  unfold Blockers, query. intros (ids & d1 & H & H')%bind_ok. destruct (unavailable d); [done |]. injection H as <- <-.
  destruct (omap _ _) as [|row rows] eqn:El; [by apply mret_ok in H' as [[=] _] |].
  assert (Hin : row ∈ row :: rows) by constructor. rewrite <- El in Hin.
  apply list_elem_of_omap in Hin as ([i dep] & [Hi Hd]%list_elem_of_filter & Hf). cbn in Hi, Hf. subst i.
  apply find_some in Hf as [Hrow%list_elem_of_In [Hid%String.eqb_eq Hs%negb_true_iff%String.eqb_neq]%andb_true_iff].
  by exists dep, row.
Qed.

Lemma guards_away id (s : RS) e s' : guards r id s = (Err e, s') →
  rs_db s' = rs_db s ∨
  (∃ dep row, (id, dep) ∈ task_deps (rs_db s) ∧ row ∈ tasks (rs_db s) ∧ Ta_ID row = dep ∧ Ta_State row ≠ StateAccepted) ∧
  SetState id StateBlocked (rs_db s) = (Ok tt, rs_db s').
Proof.
  unfold guards. intros [(e1 & H & _)|(t & s1 & Hg & H)]%bind_cases.
  { unfold dbm in H. destruct (Get id (rs_db s)) as [x d] eqn:Eg. apply Get_keeps_db in Eg as ->. injection H as _ <-. by left. }
  unfold dbm in Hg. destruct (Get id (rs_db s)) as [y d1] eqn:Eg. apply Get_keeps_db in Eg as ->. injection Hg as _ <-.
  destruct (Terminal _); [injection H as _ <-; by left |]. destruct (r_engine r); [|injection H as _ <-; by left].
  apply bind_cases in H as [(e1 & H & _)|(bl & s2 & Hb & H)].
  { unfold dbm in H. cbn in H. destruct (Blockers id (rs_db s)) as [x d] eqn:Eb. apply Blockers_same in Eb as ->. injection H as _ <-. by left. }
  unfold dbm in Hb. cbn in Hb. destruct (Blockers id (rs_db s)) as [x d] eqn:Eb. pose proof Eb as ->%Blockers_same. injection Hb as -> <-.
  destruct bl as [|b bl]; [done |]. apply some_blocker in Eb.
  apply bind_cases in H as [(e1 & H & _)|(u & s3 & Hs & H)]; unfold dbm in *; cbn in *.
  - destruct (SetState _ _ _) as [x d] eqn:Es. injection H as -> <-. apply Tx_err in Es as ->. by left.
  - destruct (SetState _ _ _) as [x d] eqn:Es. injection Hs as -> <-. injection H as _ <-. destruct u. right. by split.
Qed.

(** C5: A run starts only on a task that may run: the task exists and is neither
    accepted, failed nor abandoned, an engine is configured, and every task it
    depends on is accepted.  Any other is turned away: the run returns an error,
    has touched nothing outside the ledger - git, the worktree, the engine, the
    model -, and leaves the ledger as it was or, where a dependency is not
    accepted, with exactly the task's own row set to blocked. *)
Theorem Run_guarded id (s s' : RS) res :
  Run r repoRoot id s = (res, s') → may_run id (rs_db s) ∨ turned_away id s res s'.
Proof.
  intros H. apply bind_cases in H as [(e & He & ->)|(t & s1 & Hg & _)].
  { right. pose proof He as Hw%guards_world. apply guards_away in He. split; [by exists e | by split]. }
  left. apply guards_ok in Hg as (_ & _ & _ & _ & Hf & _ & Ht & Heng & Hb). exists t. split; [done |].
  split; [|split; [done |]].
  - unfold Terminal in Ht. apply orb_false_iff in Ht as [Ht H3%String.eqb_neq].
    apply orb_false_iff in Ht as [H1%String.eqb_neq H2%String.eqb_neq]. set_solver.
  - intros dep row Hdep Hrow Hid. destruct (String.eqb_spec (Ta_State row) StateAccepted) as [|Hn]; [done |]. exfalso.
    destruct (find (λ t, String.eqb (Ta_ID t) dep && negb (String.eqb (Ta_State t) StateAccepted)) (tasks (rs_db s))) as [x|] eqn:Ex.
    + by eapply no_blockers.
    + assert (Hx := find_none _ _ Ex row). cbn in Hx. rewrite Hid, String.eqb_refl in Hx.
      apply String.eqb_neq in Hn. rewrite Hn in Hx. by discriminate Hx; apply list_elem_of_In.
Qed.

Definition waiting (out : Outcome) : bool := match O_Gate out with Some g => Broker.Open_ g | None => false end.

(** The end of the clean-up, once it is known whether there is a commit: what
    the outcome says of the branch, and the removal. *)
Lemma cleanup_end wt out committed (s s' : RS) x :
  (_ ← (if committed then mret tt else upd_out (out_Branch ""));
   if waiting out || negb (Accepted out) then mret tt else dispose (E:=E) wt committed) s = (x, s') →
  O_Branch (rs_out s') = (if committed then O_Branch (rs_out s) else "") ∧
  (rs_world s' = rs_world s ∨
   (Accepted out = true ∧ waiting out = false ∧
    ∃ s1 removed s2, rs_world s1 = rs_world s ∧ ext (Checkout.Remove exec (Some wt) committed) s1 = (removed, s2))).
Proof.
  intros [(e & He & _)|(u & s2 & Hu & Hd)]%bind_cases; [by destruct committed |].
  assert (Hws : rs_world s2 = rs_world s ∧ O_Branch (rs_out s2) = (if committed then O_Branch (rs_out s) else ""))
    by (destruct committed; injection Hu as _ <-; done).
  destruct Hws as [Hws Hbr]. destruct (_ || _) eqn:Ek; [injection Hd as _ <-; split; [done | by left] |].
  apply orb_false_iff in Ek as [Hg Ha%negb_false_iff]. split.
  - rewrite <- Hbr. unfold dispose in Hd. apply bind_cases in Hd as [(e & He & _)|(res & s3 & Hr%try_ok & Hd)].
    { unfold try in He. by destruct (ext _ s2). }
    apply ext_ok in Hr as [_ Ho]. destruct res; [|injection Hd as _ <-; by rewrite Ho].
    apply bind_cases in Hd as [(e & [=] & _)|(? & s4 & Hu4 & Hd)]. unfold upd_out in Hu4. apply modify_ok in Hu4 as ->.
    apply bind_cases in Hd as [(e & He & _)|(? & s5 & Hc%try_ok & Hd)]; [unfold try in He; by destruct (ext _ _) |].
    injection Hd as _ <-. apply ext_ok in Hc as [_ Hc]. rewrite Hc. cbn. by rewrite Ho.
  - right. split; [done |]. split; [done |].
    destruct (ext (Checkout.Remove exec (Some wt) committed) s2) as [removed s3] eqn:Er. by exists s2, removed, s3.
Qed.

(** C6: Cleaning up never loses work.  After a run on a checkout, that checkout
    is removed only when the outcome was accepted and nobody waits at its gate,
    and then what is in it is committed first: a phased run committed it in its
    own FINALIZE, through that run's gate, and its branch is always kept; any
    other run is committed by the clean-up, the commit must have succeeded, and
    the branch is kept - and still named by the outcome - exactly when there
    was something to commit.  In every other case no command is run but that
    commit. *)
Theorem cleanup_keeps_work t wt (s0 s1 s' : RS) o e verified x :
  run r repoRoot t wt s0 = (Ok (o, e), s1) →
  let out := out_Verified verified (out_Branch (Checkout.W_Branch wt) (out_Worktree (Checkout.W_Path wt) o)) in
  let s := set_out out s1 in
  cleanup (E:=E) r t wt s = (x, s') →
  (rs_world s' = rs_world s1 ∧ O_Branch (rs_out s') = Checkout.W_Branch wt) ∨
  (phased r = false ∧ ∃ err s2, ext (Checkout.Commit exec wt (commitMessage t out)) s = (Err err, s2) ∧
     rs_world s' = rs_world s2 ∧ O_Branch (rs_out s') = Checkout.W_Branch wt) ∨
  ∃ committed s2,
    (if phased r then committed = true ∧ s2 = s
     else ext (Checkout.Commit exec wt (commitMessage t out)) s = (Ok committed, s2)) ∧
    O_Branch (rs_out s') = (if committed then Checkout.W_Branch wt else "") ∧
    (rs_world s' = rs_world s2 ∨
     (Accepted o = true ∧ waiting o = false ∧
      (phased r = true → phased_accepted r repoRoot (λ _, True) t wt s0 o e s1) ∧
      ∃ s3 removed s4, rs_world s3 = rs_world s2 ∧ ext (Checkout.Remove exec (Some wt) committed) s3 = (removed, s4))).
Proof.
  intros Hrun out s. unfold cleanup. intros [(err & [=] & _)|(out' & s2 & [-> ->]%gets_ok & H)]%bind_cases. cbv zeta in *.
  destruct (_ && _); [injection H as _ <-; by left |]. change (rs_out s) with out in H.
  destruct (phased r) eqn:Ep.
  - destruct (cleanup_end wt out true s s' x H) as [Hb Hc]. right. right. exists true, s. split; [done |]. split; [exact Hb |].
    destruct Hc as [?|(Ha & Hg & s3 & removed & s4 & Hws & Hr)]; [by left | right]. split_and!; [done.. | | by exists s3, removed, s4].
    intros _. unfold run in Hrun. rewrite Ep in Hrun. apply runPhases_accepts; [by left | done | exact Ha].
  - apply bind_cases in H as [(err & He & _)|(res & s2 & Hc%try_ok & H)]; [unfold try in He; by destruct (ext _ s) |].
    pose proof Hc as [_ Ho]%ext_ok. destruct res as [committed|err].
    + destruct (cleanup_end wt out committed s2 s' x H) as [Hb Hd]. right. right. exists committed, s2. split; [done |].
      rewrite Ho in Hb. split; [exact Hb |].
      destruct Hd as [?|(Ha & Hg & s3 & removed & s4 & Hws & Hr)]; [by left | right]. split_and!; [done.. | by exists s3, removed, s4].
    + injection H as _ <-. right. left. split; [done |]. exists err, s2. split_and!; [done.. | by rewrite Ho].
Qed.

(** The run's deadline has passed, or it was interrupted. *)
Definition expired (s : RS) (e : error) : Prop := db_ctx (rs_db s) = Some e.

(** C7: A run that uses up its wall-clock time records nothing.  Without a phased
    workflow the attempt loop writes the end of the run through the context
    that has just expired: both writes fail, the outcome comes back with an
    error, and the ledger is as it was - the task still says running, and no
    checkpoint says why. *)
Theorem wall_clock_unrecorded t wt total todo feedback (s : RS) e :
  expired s e → 0 < todo →
  ∃ o err s', attempts r repoRoot t wt total todo feedback s = (Ok (o, Some err), s') ∧ rs_db s' = rs_db s ∧
    O_Reasons o = O_Reasons (rs_out s) ++ ["budget exhausted: " +:+ err_msg e] ∧ Ta_State (O_Task o) = Ta_State (O_Task (rs_out s)).
Proof.
  unfold expired. intros He Ht. destruct todo as [|todo]; [lia |]. cbn [attempts].
  unfold attempt_once, ctx_err, finished, finish, reason, upd_out, Checkpoint, Tx, unavailable, dbm, try, gets, modify, mbind, M_bind. cbn.
  rewrite He. cbn. rewrite He. cbn. eexists _, _, _. split; [reflexivity |]. cbn. split; [by destruct (rs_db s) | done].
Qed.
End one_run.
