(* ===== verification/Scenario.v ===== *)
(** A small world in which a task runs from INTAKE to its commit, through a
    human gate: the concrete instances at which the runner's theorems are
    applied. *)
From S2P Require Import Memory Retrieval Checkout Broker Lifecycle.
From S2P Require Import Prelude GoStrings GoPath GoRegexp Policy Worktree Firewall Recipe Summarize Contract Graph.
From S2P Require Import Trust Llm ContextPack Workflow Json Ledger Recover Tasks Engine NativeTools Native NativeLoop.
From S2P Require Import Runner Phases Supervise PhaseLoop Invariants NativeRun Acceptance Runs System.

Open Scope string_scope.
Open Scope list_scope.
Open Scope nat_scope.

(** A short digest for the examples. *)
Definition demo_digest (s : string) : string :=
  pretty (foldl (λ h c, (h * 31 + Z.of_nat (Ascii.nat_of_ascii c)) mod 1000003)%Z 7%Z (String.list_ascii_of_string s)).

Definition demo_path : apath := ["store"; "worktrees"; "wt-t1"].

(** git as far as the runs below use it; [worktree add] makes the checkout. *)
Definition demo_git {G} (args : list string) (input : string) (w : fs * G) : Checkout.exec_result * (fs * G) :=
  let ok s := (Checkout.mk_exec s "" None, w) in
  if mem "--quiet" args then (Checkout.mk_exec "" "" (Some "exit status 1"), w)
  else if mem "--is-inside-work-tree" args then ok ("true" +:+ nl)
  else if mem "rev-parse" args then ok ("base" +:+ nl)
  else if mem "add" args && mem "worktree" args then
    (Checkout.mk_exec "" "" None,
     (<[demo_path ++ [".agent"; "verify.toml"] := NFile "version = 1"]> (<[demo_path ++ [".agent"] := NDir]>
      (<[demo_path ++ ["main.go"] := NFile "package a"]> (<[demo_path := NDir]> w.1))), w.2))
  else if mem "ls-tree" args then ok "main.go"
  else if mem "show" args then ok "package a"
  else if mem "--name-only" args then ok ("main.go" +:+ nl)
  else if mem "diff" args then ok ("+package b" +:+ nl)
  else ok "".

Definition demo_plan_made : Plan := mk_plan "the package is misnamed" ["main.go"] ["Main"] ["go test"] [] ["main.go"] [] [] [].

(** The engine edits the file, keeps a transcript and saves it. *)
Definition demo_engine (q : EngRequest) : proc (fs * unit) EngResponse :=
  PWorld (λ w, (tt, (<[path_of (Q_Worktree q) ++ ["main.go"] := NFile "package b"]> w.1, w.2))) (λ _,
  PTranscript (λ tr, mk_transcript true "done" true false false (T_FenceToken tr)
                 (T_Messages tr ++ [mk_message "user" "go"]) 12 1 0 0 0 false (T_Candidate tr)) (λ _,
  PSave (λ _, PReturn (Ok (mk_engresponse "renamed" true 12 true false false))))).

Definition demo_env_of {G} (engine : EngRequest → proc (fs * G) EngResponse) : Env G := {|
  exec := demo_git;
  sandbox := Some (λ _ _ _ w, (Ok (mk_outcome ["ok"] [] RunOk false 5), w));
  put := None;
  show_duration := λ d, pretty d;
  sha := demo_digest;
  observe := λ _, (5000000%Z, None, None);
  decode_semgrep := λ _, None;
  decode_golangci := λ _, None;
  decode_event := λ _, None;
  look_path := λ _, false;
  parse_verify := λ _, Ok (1%Z, [mk_preset "go test" KindTest ["go"; "test"; "./..."] "" 60 "generic"]);
  unmarshal_json := λ _, Err (errorf "unexpected end of JSON input");
  parse_declared := λ _, Err (errorf "yaml");
  first_json := λ _, None;
  self_path := "/usr/bin/le";
  dirty := λ w, (Ok 0%Z, w);
  refresh := λ _ w, (Ok tt, w);
  retrieve := λ _ w, (Ok (mk_packet [] 0 [] None), w);
  repo_map := λ _ w, (Ok [mk_entry "main.go" "Main" "func Main()"], w);
  skeleton_of := λ _ w, (Ok [], w);
  lexical_hits := λ _ _ w, (mk_report [] false, w);
  live_consumers := λ _ _ _ w, ([], w);
  project_notes := λ _ _, [];
  critic_review := λ _ _ _ w, (Ok [], w);
  critic_diagnose := λ _ _ w, (Err (errorf "no critic"), w);
  engine_step := engine;
  chat := λ _ _ w, (Ok (mk_chatr "{}" "" 10 10 "stop" []), w);
  marshal_shown := λ _, "evidence";
  raw_json := JStr;
  marshal_response := λ c, JStr (Cr_Content c);
  marshal_summary := λ s, JStr (Headline s);
  decode_selection := λ _ _, Ok (mk_selection ["main.go"] ["Main"] "the package is misnamed");
  decode_plan := λ _, Ok demo_plan_made;
  decode_verdict := λ _, Ok (mk_rverdict true []);
  random_bytes := λ w, (Some "000102030405060708090a0b0c0d0e0f", w);
  marshal_header := λ _ _ _ _, "";
  repository_id := λ w, (Ok "repo", w);
  go_Ty := unit;
  parse_file := λ _, Ok [];
  format_func := λ _, "";
  format_type := λ _, "";
  is_exported := λ _, true;
  ts_changed := λ _ _ _, Ok [];
  supports := λ _, false;
  enclosing := λ _ _ _, None;
  finding_json := λ _, "";
  digest := λ _ _ _ _ _ _ _, "";
  clear_tmp := λ w, (Ok tt, w) |}.

#[export] Instance demo_env : Env unit := demo_env_of demo_engine.

Definition demo_runner : Runner := mk_runner "w" (Some ("native", true, false)) (Some true) false ∅
  (mk_spec "" [] [] [] [] false [] [] "" "") false (Some Broker.DefaultPolicy) "me" (mk_set []) false 0 false
  "/store" "/store/worktrees" "/store/tmp" "/store/gocache" "/store/gomod".

Definition demo_task : Task := mk_task_row "t1" "w" "" "" "fix" "change" "" "running" "standard" DefaultBudget 1 1 None.
Definition demo_wt : Checkout := Checkout.mk_checkout "wt-t1" "/store/worktrees/wt-t1" "le/task/t1" "base" "/repo".
Definition demo_dirs : list (apath * node) :=
  [(["store"], NDir); (["store"; "worktrees"], NDir); (["store"; "tmp"], NDir); (["repo"], NDir)].
Definition demo_files : fs := list_to_map ((demo_path, NDir) :: (demo_path ++ ["main.go"], NFile "package a") :: demo_dirs).
Definition demo_start : RS unit :=
  mk_rs task_db (demo_files, tt) (start_state Intake "base" 5) (start_outcome demo_task) None None.

Lemma phases_terminate_witness :
  (rounds demo_runner "/repo" demo_task demo_wt enough demo_start).1 ≠ Ok None ∧
  is_ok (rounds demo_runner "/repo" demo_task demo_wt enough demo_start).1 = true.
Proof.
  split; [|vm_compute; reflexivity].
  refine (proj1 (phases_terminate demo_runner "/repo" demo_task demo_wt demo_start _)).
  split; vm_compute; discriminate.
Defined.

(** ** A workspace from its first task to an accepted change *)

Definition demo_now : Z := 5000000.
Definition sys0 : RS unit := mk_rs (mk_db _ [] [] ∅ [] [] [] [] [] ∅ demo_now None None) (list_to_map demo_dirs, tt)
  (start_state Intake "" 0) (start_outcome demo_task) None None.
Definition demo_new : Task := mk_task_row "t1" "" "" "" "fix" "" "" "" "" (mk_budget 0 0 0 []) 0 0 None.
Definition sys1 : RS unit := (dbm (Create "w" demo_new) sys0).2.
(** The first run stops at the gate. *)
Definition first_run := Run demo_runner "/repo" "t1" sys1.
Definition at_gate : RS unit := first_run.2.
Definition gate_id : string := default "" (Broker.G_ID <$> (match first_run.1 with Ok (o, _) => O_Gate o | Err _ => None end)).
(** A person approves, and the task runs again. *)
Definition approval := Broker.Decide "w" gate_id Broker.Approved "operator" "fine" (rs_db at_gate).
Definition resumed : RS unit := set_db approval.2 at_gate.
Definition second_run := Run demo_runner "/repo" "t1" resumed.

Definition state_of (s : RS unit) : list string := Ta_State <$> tasks (rs_db s).
Example demo_states : (state_of sys1, state_of at_gate, state_of resumed, state_of second_run.2) =
  (["pending"], ["review"], ["review"], ["accepted"]).
Proof. vm_compute. reflexivity. Qed.

(** The history up to the approval. *)
Lemma sys_fresh : fresh sys0.
Proof. done. Qed.
Lemma decided_step id (s : RS unit) :
  step "/repo" "w" pretty EvOther s (set_db (Broker.Decide "w" id Broker.Approved "operator" "fine" (rs_db s)).2 s).
Proof.
  apply step_other. destruct (Broker.Decide _ _ _ _ _ _) as [a d] eqn:Ed. apply leaves_Decide in Ed. exact Ed.
Qed.
Lemma created_step (t : Task) (s : RS unit) : Ta_State t = "" →
  step "/repo" "w" pretty EvOther s (dbm (Create "w" t) s).2.
Proof. intros Ht. destruct (dbm (Create "w" t) s) as [a s'] eqn:Ed. exact (step_create "/repo" "w" pretty t s a s' Ht Ed). Qed.
Lemma ran_step (s : RS unit) :
  step "/repo" "w" pretty (EvRun demo_runner "t1" (Run demo_runner "/repo" "t1" s).1) s (Run demo_runner "/repo" "t1" s).2.
Proof. apply step_run. apply surjective_pairing. Qed.

Lemma sys_history : rtc (moves "/repo" "w" pretty) sys0 resumed.
Proof.
  apply (rtc_l _ sys0 sys1); [exists EvOther; unfold sys1; by apply created_step |].
  apply (rtc_l _ sys1 at_gate); [eexists; unfold at_gate, first_run; apply ran_step |].
  apply rtc_once. exists EvOther. unfold resumed, approval. apply decided_step.
Qed.
Lemma second_step : step "/repo" "w" pretty (EvRun demo_runner "t1" second_run.1) resumed second_run.2.
Proof. unfold second_run. apply ran_step. Qed.

(** Deciding [accepted_in] by computation. *)
Definition accepted_b (ts : list Task) (id : string) : bool :=
  existsb (λ t, String.eqb (Ta_ID t) id && String.eqb (Ta_State t) StateAccepted) ts.
Lemma accepted_b_in ts id : accepted_b ts id = true → accepted_in ts id.
Proof.
  intros (t & Ht & [H1%String.eqb_eq H2%String.eqb_eq]%andb_true_iff)%existsb_exists.
  exists t. split_and!; [by apply list_elem_of_In | done..].
Qed.
Lemma accepted_b_not_in ts id : accepted_b ts id = false → ¬ accepted_in ts id.
Proof.
  intros H (t & Ht & Hid & Ha). apply not_true_iff_false in H. apply H, existsb_exists.
  exists t. split; [by apply list_elem_of_In |]. by rewrite Hid, Ha, !String.eqb_refl.
Qed.
Lemma now_accepted : accepted_in (tasks (rs_db second_run.2)) "t1".
Proof. apply accepted_b_in. vm_compute. reflexivity. Qed.
Lemma not_accepted_yet : ¬ accepted_in (tasks (rs_db resumed)) "t1".
Proof. apply accepted_b_not_in. vm_compute. reflexivity. Qed.

Lemma accepted_only_on_evidence_witness :
  (∃ r o t, EvRun demo_runner "t1" second_run.1 = EvRun r "t1" (Ok (o, None)) ∧ row_of "t1" (rs_db resumed) = Some t ∧ justified r "/repo" "t1" resumed t o) ∨
  (EvRun demo_runner "t1" second_run.1 = EvFinish "t1" ∧
   ∃ l v, journal_of "t1" (rs_db resumed) l ∧ latest_in l (Some v) ∧ Vr_Accepted v = true).
Proof.
  exact (accepted_only_on_evidence "/repo" "w" pretty sys0 resumed second_run.2 (EvRun demo_runner "t1" second_run.1) "t1"
    sys_fresh sys_history second_step now_accepted not_accepted_yet).
Defined.

Definition stored_state : string * State := default ("", start_state Intake "" 0) (task_workflow (rs_db resumed) !! "t1").
Lemma stored_workflows_earned_witness :
  stored_state.1 = "FINALIZE" ∧
  ((S_Phase stored_state.2 = Review ∨ S_Phase stored_state.2 = Finalize → passed stored_state.2) ∧
   (S_Phase stored_state.2 = Finalize → ∃ v, S_Verdict stored_state.2 = Some v ∧ V_Accept v = true)).
Proof.
  split; [vm_compute; reflexivity |].
  refine (stored_workflows_earned "/repo" "w" pretty sys0 resumed "t1" stored_state.1 stored_state.2 sys_fresh sys_history _).
  vm_compute. reflexivity.
Defined.

Lemma Run_refines_contract_witness :
  run_contract "t1" (tasks (rs_db resumed)) second_run.1 (tasks (rs_db second_run.2)).
Proof. unfold second_run. apply (Run_refines_contract demo_runner "/repo" "t1" resumed). apply surjective_pairing. Defined.

(** The first run may run; run again once it is accepted, the task is turned away. *)
Definition third_run := Run demo_runner "/repo" "t1" second_run.2.
Lemma Run_guarded_witness :
  may_run demo_runner "t1" (rs_db sys1) ∧ turned_away "t1" second_run.2 third_run.1 third_run.2.
Proof.
  split.
  - destruct (Run_guarded demo_runner "/repo" "t1" sys1 first_run.2 first_run.1) as [H|[[e He] _]]; [|exact H|].
    + unfold first_run. apply surjective_pairing.
    + exfalso. assert (Hok : is_ok first_run.1 = true) by (vm_compute; reflexivity). rewrite He in Hok. discriminate Hok.
  - destruct (Run_guarded demo_runner "/repo" "t1" second_run.2 third_run.2 third_run.1) as [(t & Ht & Hn & _)|H]; [| |exact H].
    + unfold third_run. apply surjective_pairing.
    + exfalso. apply Hn. assert (Hst : Ta_State <$> row_of "t1" (rs_db second_run.2) = Some StateAccepted) by (vm_compute; reflexivity).
      rewrite Ht in Hst. cbn in Hst. injection Hst as ->. apply list_elem_of_here.
Defined.

(** The part of the second run that works on the checkout, seen by itself, and
    its clean-up. *)
Definition ran := run demo_runner "/repo" demo_task demo_wt resumed.
Definition ran_out : Outcome := match ran.1 with Ok (o, _) => o | Err _ => start_outcome demo_task end.
Definition ran_kept : Outcome := out_Verified "HEAD" (out_Branch "le/task/t1" (out_Worktree "/store/worktrees/wt-t1" ran_out)).
Definition cleaned := cleanup demo_runner demo_task demo_wt (set_out ran_kept ran.2).
Lemma cleanup_keeps_work_witness :
  rs_world cleaned.2 = rs_world ran.2 ∧ O_Branch (rs_out cleaned.2) = "le/task/t1" ∨
  (phased demo_runner = false ∧ ∃ err s2,
     Runner.ext (Checkout.Commit exec demo_wt (commitMessage demo_task ran_kept)) (set_out ran_kept ran.2) = (Err err, s2) ∧
     rs_world cleaned.2 = rs_world s2 ∧ O_Branch (rs_out cleaned.2) = "le/task/t1") ∨
  ∃ committed s2,
    (if phased demo_runner then committed = true ∧ s2 = set_out ran_kept ran.2
     else Runner.ext (Checkout.Commit exec demo_wt (commitMessage demo_task ran_kept)) (set_out ran_kept ran.2) = (Ok committed, s2)) ∧
    O_Branch (rs_out cleaned.2) = (if committed : bool then "le/task/t1" else "") ∧
    (rs_world cleaned.2 = rs_world s2 ∨
     (Accepted ran_out = true ∧ waiting ran_out = false ∧
      (phased demo_runner = true → phased_accepted demo_runner "/repo" (λ _, True) demo_task demo_wt resumed ran_out None ran.2) ∧
      ∃ s3 removed s4, rs_world s3 = rs_world s2 ∧ Runner.ext (Checkout.Remove exec (Some demo_wt) committed) s3 = (removed, s4))).
Proof.
  apply (cleanup_keeps_work demo_runner "/repo" demo_task demo_wt resumed ran.2 cleaned.2 ran_out None "HEAD" cleaned.1).
  - assert (H : ran.1 = Ok (ran_out, None)) by (vm_compute; reflexivity). rewrite <- H. unfold ran. apply surjective_pairing.
  - unfold cleaned. apply surjective_pairing.
Defined.
(** It was accepted, and its checkout is gone. *)
Example cleaned_up : (Accepted ran_out, O_Worktree (rs_out cleaned.2), O_Branch (rs_out cleaned.2)) = (true, "", "le/task/t1").
Proof. vm_compute. reflexivity. Qed.

(** A state in which the run's deadline has passed. *)
Definition late : RS unit := set_db (set_ctx (Some DeadlineExceeded) (rs_db at_gate)) at_gate.
Lemma wall_clock_unrecorded_witness :
  ∃ o err s', attempts demo_runner "/repo" demo_task demo_wt 3 2 [] late = (Ok (o, Some err), s') ∧ rs_db s' = rs_db late ∧
    O_Reasons o = O_Reasons (rs_out late) ++ ["budget exhausted: " +:+ err_msg DeadlineExceeded] ∧
    Ta_State (O_Task o) = Ta_State (O_Task (rs_out late)).
Proof.
  refine (wall_clock_unrecorded demo_runner "/repo" demo_task demo_wt 3 2 [] late DeadlineExceeded _ _); [vm_compute; reflexivity | lia].
Defined.

(** ** The native engine in the EDIT phase

    The same world, run by the native engine; its model follows a script. *)
Definition scripted : Type := Fence * list ChatResponse.
Definition say_call (id name args : string) : ChatResponse := mk_chatr "" "" 50 10 "tool_calls" [mk_call id name args].
Definition demo_script : list ChatResponse :=
  [say_call "c1" "edit_file" "edit"; say_call "c2" "edit_file" "edit"; say_call "c3" "done" "done"].
Definition demo_arguments (text : string) : result json :=
  if String.eqb text "edit" then Ok (JObj [("path", JStr "main.go"); ("old", JStr "package a"); ("new", JStr "package b")])
  else if String.eqb text "done" then Ok (JObj [("summary", JStr "renamed")])
  else Err (errorf "unexpected end of JSON input").

#[export] Instance scripted_native : NativeEnv scripted := {|
  n_chat _ w := match w.2.2 with
    | [] => (Err (errorf "the script is over"), w)
    | c :: rest => (Ok c, (w.1, (w.2.1, rest)))
    end;
  n_retrieve _ w := (Err (errorf "no index"), w); n_nodes _ _ _ w := (Ok [], w);
  n_impact _ _ w := (Err (errorf "no index"), w); n_neighbors _ _ _ w := (Ok [], w);
  n_node _ w := (Err (errorf "no index"), w); n_sandbox := None; n_put := None; n_duration _ := "";
  n_decode_event _ := None; n_decode_semgrep _ := None; n_decode_golangci _ := None; n_look_path _ := false;
  n_random w := (Some "000102030405060708090a0b0c0d0e0f", w); n_fence g := g.1; n_set_fence f g := (f, g.2);
  n_unmarshal := demo_arguments; n_range := map_to_list; n_range_seen := map_to_list; n_os_text := err_msg;
  n_sha := id; n_digest := id; n_show_plan _ := ""; n_system := "edit" |}.
#[export] Instance scripted_env : Env scripted := demo_env_of (Native.Step demo_conf).

Definition native_world : fs * scripted := (list_to_map demo_dirs, (mk_fence "", demo_script)).
Definition native0 : RS scripted :=
  mk_rs (mk_db _ [] [] ∅ [] [] [] [] [] ∅ demo_now None None) native_world (start_state Intake "" 0) (start_outcome demo_task) None None.
Definition native1 : RS scripted := (dbm (Create "w" demo_new) native0).2.
Definition native_run := Run demo_runner "/repo" "t1" native1.
(** The task reaches its gate, the file is edited once - the second, identical
    edit finds nothing to replace - and every call is answered. *)
Example native_edits :
  ((rs_world native_run.2).1 !! (demo_path ++ ["main.go"]), (λ m, (Role m, ToolCallID m)) <$> T_Messages (S_Edit (rs_wf native_run.2)),
   Ta_State <$> tasks (rs_db native_run.2)) =
  (Some (NFile "package b"),
   [("system", ""); ("user", ""); ("assistant", ""); ("tool", "c1"); ("assistant", ""); ("tool", "c2"); ("assistant", ""); ("tool", "c3")],
   ["review"]).
Proof. vm_compute. reflexivity. Qed.

